(* ===== verification/_CoqProject ===== *)
-Q . S2P
Prelude.v
Runtime.v
DhcpMsg.v
Packet.v
IfcUtils.v
IfcAddress.v
DhcpClient.v
DhcpProtocol.v
DhcpUtils.v
Dhcp6Utils.v
PppoeUtils.v
DriverRt.v
DnsUtil.v
DnsName.v
DnsMsg.v
DnsCache.v
DnsCacheInv.v
DnsCacheSpec.v
DnsCacheRoom.v
DnsReply.v
DnsReplySpec.v
DnsHosts.v
DnsHostsSpec.v
DnsAnswer.v
DnsAnswerSpec.v
DnsServe.v
DnsForward.v
DnsForwardSpec.v
DnsRelay.v
DnsTcp.v
FpDrv.v
FpDrvQcom.v
FpClient.v
FpListener.v
Chipone.v
Elan.v
Goodix.v
Silead.v
FpStack.v
SensorPath.v
