(* ===== verification/Prelude.v ===== *)
(** * Verification of the network utilities, the name server and the fingerprint stack

    The repository is the source tree of an Android device.  This library models
    the network configuration library src/system/core/libnetutils completely; of
    the name server src/external/dnsmasq, which serves the clients of a tethering
    device, the messages, the cache, the answers and the forwarding of queries
    (rfc1035.c, cache.c, forward.c, util.c);
    and, of the fingerprint stack under src/vendor/tinno/Fingerprint-N, both
    registry drivers, one driver of each sensor vendor, and the listener of the
    framework with its four back ends.

    ** The program

    libnetutils offers interface operations (ifc_utils.c) over a pair of
    control sockets shared by all callers and guarded by recursive mutexes, a
    small DHCP client (dhcpclient.c, with dhcpmsg.c for the messages and
    packet.c for raw IP/UDP frames; dhcptool.c is its command), and three
    managers that drive external daemons through init's control properties and
    collect what the daemons leave in system properties: dhcpcd and the DHCPv6
    and prefix-delegation daemons (dhcp_utils.c) and PPPoE (pppoe_utils.c).
    dhcp_init_ifc sends DISCOVER and REQUEST messages through packet.c and ends
    in ifc_configure.

    dnsmasq answers the DNS queries of its clients.  receive_query (forward.c)
    reads a query into the packet buffer and lets answer_request (rfc1035.c)
    answer it from the configuration and the cache; else forward_query looks for
    the servers of the name, notes the client in a record of the table of queries,
    gives the query an identifier of its own and sends it on, through a socket
    with a random port that records may share.  reply_query finds the record of a
    reply; the reply goes through extract_addresses (rfc1035.c), which adds its
    records to the cache, before the client gets it under its own identifier, and
    the record is freed.  A query over TCP is served by a child of the daemon
    (tcp_request) that asks the servers over TCP.  The cache (cache.c) is an array of entries
    on a list by age and on the chains of a hash table; hosts files and the leases
    of the DHCP server are on the chains only.  util.c has the helpers: legal
    names, the wire format, comparisons, patterns, random numbers.

    The fingerprint stack, in the directories fp_drv and one per sensor under
    KERNEL/{mtk,qcom}/kernel-3.18/drivers/input/fingerprint, and in
    em_framework/framework/base/services/core/jni: a registry driver identifies
    the fitted sensor by the ID pin, keeps the name and information of the first
    sensor driver that registers and shows them in sysfs; on Qualcomm it also
    records the events of the sensor drivers, raises SIGIO for them and locks the
    backlight for a quick wake-up.  A sensor driver owns the pins, the supply and
    the interrupt line of its sensor and serves the vendor's HAL through ioctls;
    it calls into the registry driver.  The listener (fp.c) finds out from sysfs
    which vendor's sensor is there, opens that vendor's device through a back end
    (goodix_jni.c, elan_jni.c, silead_jni.c, chipone_jni.c), and gives the Java
    service the events and the state of the finger.

    ** The files

    - Prelude: undefined behaviour as an outcome ([Val] or [UB]), w-bit integers
      as [Z] with the wrap-around written out, byte order, memory images as
      lists of bytes, and the shared tactics and lemmas.
    - Runtime: the calls into the kernel, bionic and libcutils.  Each call is
      recorded in a trace and answered by an arbitrary environment [Env], a
      function of the calls made so far, so that theorems hold for every
      behaviour of the callee; the file-scope variables of the library are the
      record [gstate]; functions are computations of the state monad [M].  Total
      weakest preconditions [wp] (a computation with undefined behaviour has
      none), the resource predicates [balanced] and [closes], the effects
      [ioctls] and [prop_sets], and frame conditions [preserves].  [WfEnv]
      collects the documented behaviour of read(2) and ioctl(2) that the proofs
      about the DHCP client need; [scripted] and [serving] are concrete
      environments for examples.
    - DhcpMsg: dhcpmsg.h and dhcpmsg.c.  [dhcp_msg] with its byte layout,
      [init_dhcp_msg], [init_dhcp_discover_msg], [init_dhcp_request_msg]; the
      moving options pointer is an index into the options array.
    - Packet: packet.c.  [checksum], [send_packet], [receive_packet] with its
      filter, [open_raw_socket]; headers are records with byte images.
    - IfcUtils, IfcAddress: ifc_utils.c.  One definition per function, with the
      source's names; IfcAddress has the netlink request of
      [ifc_act_on_address] and the clearing of addresses.
    - DhcpClient: dhcpclient.c and dhcptool.c.  [decode_dhcp_msg],
      [dump_dhcp_msg], [is_valid_reply]; the locals of dhcp_init_ifc that change
      are the record [client], those that do not are [link]; the body of its
      loop is [dhcp_iter] (with [on_timeout], [on_packet] and [on_reply] for its
      three parts and [transmit] for the label), the loop is [dhcp_loop].
    - DhcpProtocol: the abstract exchange [pstep] (phase, number of tries, last
      parameters heard; inputs are timeouts, ignored polls, failures and
      replies), its runs [prun], and the refinement of the client into it.
    - DhcpUtils, Dhcp6Utils: dhcp_utils.c, the IPv4 and the IPv6 half.
    - PppoeUtils: pppoe_utils.c.
    - DnsUtil: util.c.  Characters are codes, a C string is the list of its
      characters up to the zero, a buffer a list of bytes that is read and written
      with a test of its bounds, whose failure is [UB].
    - DnsName: names on the wire (extract_name, skip_name, do_rfc1035_name and the
      macros of rfc1035.c), their relation [wire] to the format of RFC 1035.
    - DnsMsg: the rest of rfc1035.c that works on packets: reverse names,
      checksums of questions, walks over the sections, pseudo headers, doctoring,
      SOA records, setup_reply, add_resource_record.
    - DnsCache: cache.c without hosts files and leases.  [cache] has the entries in
      a map from their places, the list by age and the chains as lists of places,
      and the union of an address and a CNAME as [cname_addr]; the list with its
      pointers, [lru_state], refines the list.
    - DnsCacheInv, DnsCacheSpec: the invariant [cinv] of the cache, the steps
      [cache_step] it goes through, what lookups and insertions promise.
    - DnsCacheRoom: when the cache takes a new entry.
    - DnsReply, DnsReplySpec: extract_addresses and check_for_bogus_wildcard, with
      the locals that live through their loops in [reply_state]; [good_packet] reads
      a reply without the cache and says which replies add anything.
    - DnsHosts, DnsHostsSpec: hosts files, reload and leases (cache.c); the memory
      the allocator will give out is a list of places in [hosts_state].
    - DnsAnswer, DnsAnswerSpec: answer_request, with its locals in [ans_state] and
      the configuration in [config]; it is safe and, without loops of CNAMEs, ends;
      [cache_lookup] is what it may do to the cache, [callable] what it asks for.
    - DnsServe: the replies to clients, byte for byte.
    - DnsForward: forward.c over UDP.  The lists and variables of the daemon that
      take part are the record [daemon]; servers, records of queries and random
      sockets are places in its lists.  A computation runs over a trace of calls
      [fcall] (DriverRt); forward_query is cut into its plan ([plan_retry],
      [plan_new]), the loop over the servers ([send_loop], [server_turn]) and the
      reply for a query that could not be sent.
    - DnsForwardSpec: the invariant [finv] of the table and the sockets, with the
      queries that were taken as a ghost list, and that every function of
      DnsForward keeps it.
    - DnsRelay: histories of the daemon and what holds in all of them; the choice
      of the servers for a name.
    - DnsTcp: tcp_request and the sockets it keeps for the servers.
    - DriverRt: the runtime of the drivers and the listener.  Computations [IO]
      over a trace of calls answered by an arbitrary [World]; weakest
      preconditions [ewp] that are total or partial; frames ([frames], [leaves])
      and invariants ([keeps]); the calls [kcall] of the kernel, the resources a
      trace holds ([held]), the protocol of an interrupt line ([line_of]) and the
      interface [HasDevice] to the object behind a driver's pointer.
    - FpDrv: the registry driver of MTK (fp_drv.c).  Its variables are
      [fp_state], kernel functions the class [FpKernel], histories [runs].
    - FpDrvQcom: the registry driver of Qualcomm (fp_drv.c): the registry and the
      ID pin, the event mailbox, the backlight lock, the framebuffer notifier,
      the log thread, the ioctls and the entry points; kernel functions are the
      class [QcomKernel].
    - FpClient: the registry as the sensor drivers call it ([HasRegistry]).
    - Chipone (chipone_7152qsee), Elan (elan_96sa), Goodix (goodix_gf5216),
      Silead (silead_6163): one sensor driver each, all functions, with the
      source's names.  The device structure is a record, the file variables are
      the state; a pointer is optional or has the states a pointer can have.
    - FpListener: fp.c and the four back ends; [BackEnd] is what the parts of the
      listener's state that belong to one back end promise.
    - FpStack: the registry driver and the listener together, under every
      interleaving of the driver, the signal, its handler and the reader.
    - SensorPath: from the HAL through a sensor driver and the back end to the
      service; [SensorDriver] is what a driver and its back end promise together,
      with instances for Chipone, Elan and Silead.

    ** What the theorems show

    - The name server as a whole: a reply from upstream is learnt and the next
      client gets its address ([learnt_then_answered]); what the cache knows of a
      name is the reply, byte for byte ([address_question_answered]);
      answer_request stays in its buffers on any packet that leaves room for a
      record and only looks things up ([answer_request_safe]), and ends when the CNAMEs do
      ([answer_request_ends]); extract_addresses is safe on any packet
      ([extract_addresses_safe]) and adds only packets that are good as a whole, with
      no private address under the protection against rebinding
      ([reply_adds_soundly]).  Without the hypotheses it does go wrong:
      [alias_of_itself_hangs], [reply_overruns_packet],
      [compressed_name_overread] and [ptr_cname_not_learnt] are inputs for which
      it does.
    - Forwarding: in every history the table of queries is bounded, agrees with
      the sockets that are open and finds the query of a reply
      ([forward_table_consistent]); what goes to a client answers a query of that
      client and comes from a server of the list ([reply_reaches_client]); a
      server that goes away is forgotten ([server_gone_forgets]); a name goes to
      the servers of the longest domain that it ends in at a label
      ([search_servers_longest]); TCP sockets
      are neither leaked nor closed twice ([tcp_sockets_kept]).  A literal address
      of a shorter domain wins over the server of a longer one
      ([specific_server_ignored]), and over TCP an alias misleads the choice of
      the servers ([tcp_query_misrouted]).
    - The cache: its invariant in every history ([hosts_and_leases_invariant]);
      lookups are sound and complete ([cache_find_by_name_spec],
      [cache_find_by_addr_spec]); what is inserted is found and nothing else
      ([insert_then_lookup]), what hosts files and leases say is found
      ([hosts_file_roundtrip], [lease_found]) and not overridden
      ([hosts_not_overridden]); the pointers of the list by age refine a list
      ([lru_pointers_refine_list]).
    - Messages of the name server: extract_name is safe, agrees with RFC 1035 and
      with skip_name and inverts do_rfc1035_name ([extract_name_safe],
      [extract_name_spec], [skip_name_extract_name], [rfc1035_name_roundtrip]);
      the walks over the sections end inside the packet ([section_walks_safe]);
      records have the wire format and the limit holds
      ([add_resource_record_spec]).
    - The DHCP exchange ([dhcp_iter_refines], [dhcp_lease_sourced],
      [dhcp_timeouts_bounded]): each iteration refines the abstract machine and
      keeps the client invariant; a lease that dhcp_init_ifc leaves behind comes
      from a valid ACK after a valid OFFER or, after four timeouts, from an OFFER;
      at most seven polls time out before the client returns.
    - Messages and frames ([decode_dhcp_msg_refines], [receive_packet_outcome]):
      decoding agrees with the type-length-value reading; reception accepts
      exactly the frames with the right headers and sums, with its one undefined
      behaviour named.
    - Interface control ([ifc_configure_correct], [ifc_operations_balanced]):
      ifc_configure issues its requests in order and sets the DNS properties
      exactly on success; locks and descriptors are balanced on every path.
    - Daemon managers ([dhcp_start_correct], [dhcp_get_results_correct],
      [dhcpv6_start_stop_paired], [PPPOE_do_request_correct]): the order of the
      control properties, which daemon a stop stops, what the results deliver on
      each branch.
    - Registry drivers ([registry_first_wins], [backlight_lock_refines]): the
      first registration wins in every history; the backlight follows an abstract
      lock.
    - Sensor drivers ([chipone_irq_protocol], [elan_history_correct],
      [goodix_session_correct], [wakelocks_refine]): on a phone where the driver's
      requests succeed and version texts end in time, which the theorems spell out,
      the interrupt lines follow the protocol of the kernel in every history in which
      the HAL keeps to its sessions, and the flags say what the line is; the table
      of wake-up sources of Silead is a set of at most ten names, with an exact
      account of what a full table leaks.
    - Composition ([prompt_delivery], [fingers_reported]): with prompt handling
      every event arrives; what the HAL of each of three vendors says of the
      finger is what the service hears.
    - Theorems without a number state further behaviour, such as the checksum,
      frames that verify, constructors that stay in their buffers, netmask
      conversions, silent networks, bounded waits, legal host names, patterns of
      hardware addresses, names in in-addr.arpa, setup_reply, the order of events
      and those the listener loses.

    ** Bounds and fuel

    The carry loop of [checksum] has fuel 3, enough for every 32-bit sum (two
    rounds fold it, shown in the proof of its theorem); [leading_ones] has fuel
    33 for a 32-bit mask; [decode_loop] and [dump_loop] have the remaining
    length as fuel, and more fuel gives the same result; [mask_loop] has the 32
    rounds of the source; waits take the number of naps the source computes;
    [clear_loop] the 255 rounds of the source.  [dhcp_loop n] is the first [n]
    iterations of the endless loop, [inl] when it is still running;
    [dhcp_timeouts_bounded] and [dhcp_lease_sourced] are about when it has
    returned.  [connect_retry] retries EINTR at most
    [fuel] times and returns [None] when it has not finished.

    In the name server [extract_fuel] allows every jump of extract_name as many
    turns as the packet has bytes; its theorems show that this is enough, as is
    the length of the packet for [skip_name], that of the text for
    [rfc1035_bytes], and that of the file for the words and lines of a hosts file.
    The counts of a message bound the loops over its sections; 255 hops and 5
    CNAMEs of a packet are limits of the source.  [grab] has 4 turns: each that
    goes on sets one of two flags, so that the third is the last; [table_size] has
    the 32 doublings of an int.  The loops of callers over the entries of a lookup,
    [addr_entries], [name_entries] and [more_entries], have as fuel one more than
    the entries on all chains, and [UB] would be the result if it were not enough,
    which [answer_request_safe] excludes; [find_local] has the same, [lease_name]
    the entries of the list on top ([lease_name_open]).  [hops] is how often answer_request may restart for a CNAME;
    the source has no bound, and the result is [None] when [hops] does not suffice.
    So it is with [tries], how often a send that failed is made again and how many
    random numbers get_id draws, and with [turns], the queries of a TCP connection.
    A history has only steps that return: the theorems about forwarding are partial
    in this, and in the undefined behaviour of malformed packets that the findings
    name; [server_gone_forgets] and [search_servers_longest] are total, and
    DnsRelay and DnsTcp run a query and its reply from end to end.

    ** What is not modelled

    Of dnsmasq: the main loop, interfaces and listening sockets (dnsmasq.c,
    network.c), options, the DHCP and TFTP servers, D-Bus, and the functions that log or print (log_query,
    dump_cache, record_source, querystr); the scan of directories of hosts files
    in cache_reload.  For receive_query the interface a packet came to is checked
    by a parameter, iface_check; the counters of statistics are left out, and
    read_write is a call of tcp_request that reads or writes all or fails.  The
    list of servers only grows within a history: server_gone is modelled, the
    code that takes the server off the list is not, and its place may get another
    server.  Memory an entry was freed from is not given out again within
    a reload.  inet_pton, inet_addr, gethostname-like calls and get_ifaddr are
    parameters.  The compile-time options are those of the tree: IPv6, no
    internationalised names.

    Log output, including hex2str and dump_dhcp_info, and the getter
    dhcp_lasterror; the statements after the unconditional return of
    dhcpv6_PD_request, which cannot run.  The target is little-endian with
    64-bit long and time_t, so that the end of an entry, a time and a 32-bit time to
    live, does not wrap.  The headers netutils/ifc.h and netutils/dhcp_utils.h are not
    part of the tree: the constants taken from them are the classes [IfcHeader]
    and [DhcpNames].  inet_addr and strerror are parameters of the environment.
    Concurrency of callers is not modelled; the locks are, as events.

    The sensor drivers of MTK and the other variants of the Qualcomm ones
    (elan_519c, goodix_316m, goodix_3208qsee), which share their structure with
    the modelled drivers; the factory tests; the trusted applications, wrappers
    of a vendor library that is not in the tree; the JNI glue in C++.  The code
    of a driver runs in one thread at a time: spin locks are not modelled, and a
    history is a sequence of whole operations (FpDrvQcom's log thread and FpStack
    have the interleavings that matter there).  The HAL, the hardware and the
    kernel behind its calls are the [World]. *)
From stdpp Require Export base list strings numbers option.
From Stdlib Require Export ZArith Lia.

Declare Scope netutils_scope.
Delimit Scope netutils_scope with netutils.
#[global] Open Scope Z_scope.

(** ** Undefined behaviour

    A C computation either produces a value or performs an operation whose
    result the language leaves undefined (an access outside an object, a read
    of an indeterminate value, an over-wide shift). *)
Inductive outcome (A : Type) : Type :=
| Val (a : A)
| UB.
Arguments Val {A} a.
Arguments UB {A}.

Definition outcome_bind {A B} (f : A → outcome B) (m : outcome A) : outcome B :=
  match m with Val a => f a | UB => UB end.

#[global] Instance outcome_mret : MRet outcome := @Val.
#[global] Instance outcome_mbind : MBind outcome := @outcome_bind.

Definition of_option {A} (o : option A) : outcome A :=
  match o with Some a => Val a | None => UB end.

Definition guard_ub (b : bool) : outcome unit := if b then Val tt else UB.

(** ** Machine integers *)
Definition u8 (z : Z) : Z := z mod 256.
Definition u16 (z : Z) : Z := z mod 65536.
Definition u32 (z : Z) : Z := z mod 4294967296.
Definition i32 (z : Z) : Z := (z + 2147483648) mod 4294967296 - 2147483648.
(** A product in int: overflow is undefined. *)
Definition mul_int (a b : Z) : outcome Z :=
  if (-2147483648 <=? a * b) && (a * b <=? 2147483647) then Val (a * b) else UB.
Definition i16 (z : Z) : Z := (z + 32768) mod 65536 - 32768.

Definition is_u8 (z : Z) : Prop := 0 ≤ z < 256.
Definition is_u16 (z : Z) : Prop := 0 ≤ z < 65536.
Definition is_u32 (z : Z) : Prop := 0 ≤ z < 4294967296.
Abbreviation bytes l := (Forall is_u8 l).

(** Memory images of little-endian integers. *)
Fixpoint le_load (bs : list Z) : Z :=
  match bs with
  | [] => 0
  | b :: rest => b + 256 * le_load rest
  end.

Fixpoint le_store (n : nat) (z : Z) : list Z :=
  match n with
  | O => []
  | S n' => z mod 256 :: le_store n' (z / 256)
  end.

(** The library runs on little-endian targets: the network byte order
    conversions reverse the bytes of their argument. *)
Definition htons (z : Z) : Z := le_load (reverse (le_store 2 z)).
Definition htonl (z : Z) : Z := le_load (reverse (le_store 4 z)).
Definition ntohs : Z → Z := htons.
Definition ntohl : Z → Z := htonl.

(** ** Byte buffers *)

(** [sub off n l] is the [n]-byte slice of [l] at [off]. *)
Definition sub (off n : nat) (l : list Z) : list Z := take n (drop off l).

(** [load off n l] reads [n] bytes at [off]; reading past the object is
    undefined. *)
Definition load (off n : nat) (l : list Z) : outcome (list Z) :=
  if decide (off + n ≤ length l)%nat then Val (sub off n l) else UB.

(** [patch off new l] overwrites the bytes of [l] from [off] with [new]. *)
Definition patch (off : nat) (new l : list Z) : list Z :=
  take off l ++ new ++ drop (off + length new) l.

(** ** Tactics and hints *)
Create HintDb netutils.

Ltac zbool :=
  repeat match goal with
  | H : andb _ _ = true |- _ => apply andb_true_iff in H; destruct H
  | H : orb _ _ = false |- _ => apply orb_false_iff in H; destruct H
  | H : negb _ = true |- _ => apply negb_true_iff in H
  | H : negb _ = false |- _ => apply negb_false_iff in H
  | H : Z.eqb _ _ = true |- _ => apply Z.eqb_eq in H
  | H : Z.eqb _ _ = false |- _ => apply Z.eqb_neq in H
  | H : Z.ltb _ _ = true |- _ => apply Z.ltb_lt in H
  | H : Z.ltb _ _ = false |- _ => apply Z.ltb_ge in H
  | H : Z.leb _ _ = true |- _ => apply Z.leb_le in H
  | H : Z.leb _ _ = false |- _ => apply Z.leb_gt in H
  end.

(** Case split on the boolean guards of the goal, with the facts they decide. *)
Ltac split_guards :=
  repeat (match goal with
          | |- context [if ?b then _ else _] => destruct b eqn:?
          end; zbool; simplify_eq; try lia; try done).

Ltac unfold_widths := unfold is_u8, is_u16, is_u32, u8, u16, u32, i16, i32 in *.

(** ** Lemmas on outcomes *)
Lemma bind_Val {A B} (f : A → outcome B) a : (Val a ≫= f) = f a.
Proof. done. Qed.

Lemma outcome_bind_Val {A B} (f : A → outcome B) (m : outcome A) b :
  m ≫= f = Val b ↔ ∃ a, m = Val a ∧ f a = Val b.
Proof. destruct m; cbn; naive_solver. Qed.

Lemma outcome_bind_UB {A B} (f : A → outcome B) (m : outcome A) :
  m ≫= f = UB ↔ m = UB ∨ ∃ a, m = Val a ∧ f a = UB.
Proof. destruct m; cbn; naive_solver. Qed.

(** ** Lemmas on little-endian images *)
Lemma length_le_store n z : length (le_store n z) = n.
Proof. revert z. induction n as [|n IH]; intros z; cbn; [done|]. by rewrite IH. Qed.

Lemma le_store_bytes n z : bytes (le_store n z).
Proof.
  revert z. induction n as [|n IH]; intros z; cbn; constructor; [|apply IH].
  unfold is_u8. apply Z.mod_pos_bound. lia.
Qed.

Lemma le_load_store n z : le_load (le_store n z) = z mod 256 ^ Z.of_nat n.
Proof.
  revert z. induction n as [|n IH]; intros z; cbn [le_store le_load].
  - by rewrite Z.mod_1_r.
  - rewrite IH, Nat2Z.inj_succ, Z.pow_succ_r by lia.
    rewrite (Z.rem_mul_r z 256) by lia. done.
Qed.

Lemma le_store_load l : bytes l → le_store (length l) (le_load l) = l.
Proof.
  induction 1 as [|b l Hb _ IH]; cbn [length le_store le_load]; [done|].
  unfold is_u8 in Hb.
  assert ((b + 256 * le_load l) mod 256 = b) as -> by (rewrite Z.mul_comm, Z_mod_plus_full; apply Z.mod_small; lia).
  assert ((b + 256 * le_load l) / 256 = le_load l) as ->
    by (rewrite Z.mul_comm, Z.div_add by lia; rewrite Z.div_small by lia; lia).
  by rewrite IH.
Qed.

Lemma le_load_bounds l : bytes l → 0 ≤ le_load l < 256 ^ Z.of_nat (length l).
Proof.
  induction 1 as [|b l Hb _ IH]; cbn [length le_load]; [cbn; lia|].
  unfold is_u8 in Hb. rewrite Nat2Z.inj_succ, Z.pow_succ_r by lia. lia.
Qed.

Lemma le_load_inj l1 l2 :
  bytes l1 → bytes l2 → length l1 = length l2 → le_load l1 = le_load l2 → l1 = l2.
Proof.
  intros H1 H2 Hlen Heq. rewrite <- (le_store_load l1), <- (le_store_load l2) by done.
  by rewrite Hlen, Heq.
Qed.

Lemma rev_bytes l : bytes l → bytes (reverse l).
Proof. intros H. by apply Forall_reverse. Qed.

#[export] Hint Resolve le_store_bytes rev_bytes : netutils.
Create Rewrite HintDb netlen.
#[export] Hint Rewrite length_le_store : netlen.

Lemma le_load_store_id n z : 0 ≤ z < 256 ^ Z.of_nat n → le_load (le_store n z) = z.
Proof. intros. rewrite le_load_store. by apply Z.mod_small. Qed.

(** Reversing the bytes of an [n]-byte integer, the core of the conversions. *)
Lemma swap_bounds n z : 0 ≤ le_load (reverse (le_store n z)) < 256 ^ Z.of_nat n.
Proof.
  pose proof (le_load_bounds (reverse (le_store n z))) as H.
  rewrite length_reverse, length_le_store in H. auto with netutils.
Qed.

Lemma store_swap n z : le_store n (le_load (reverse (le_store n z))) = reverse (le_store n z).
Proof.
  rewrite <- (le_store_load (reverse (le_store n z))) at 2 by auto with netutils.
  by rewrite length_reverse, length_le_store.
Qed.

Lemma swap_involutive n z :
  0 ≤ z < 256 ^ Z.of_nat n → le_load (reverse (le_store n (le_load (reverse (le_store n z))))) = z.
Proof. intros. by rewrite store_swap, reverse_involutive, le_load_store_id. Qed.

Lemma htonl_u32 z : is_u32 (htonl z).
Proof. apply (swap_bounds 4). Qed.
Lemma htons_u16 z : is_u16 (htons z).
Proof. apply (swap_bounds 2). Qed.
Lemma ntohl_htonl z : is_u32 z → ntohl (htonl z) = z.
Proof. apply (swap_involutive 4). Qed.
Lemma ntohs_htons z : is_u16 z → ntohs (htons z) = z.
Proof. apply (swap_involutive 2). Qed.
Lemma htonl_inj x y : is_u32 x → is_u32 y → htonl x = htonl y → x = y.
Proof. intros Hx Hy Heq. rewrite <- (ntohl_htonl x), <- (ntohl_htonl y) by done. by rewrite Heq. Qed.

#[export] Hint Resolve htonl_u32 htons_u16 : netutils.

(** ** Lemmas on buffers *)
Lemma length_sub off n l : (off + n ≤ length l)%nat → length (sub off n l) = n.
Proof. intros. unfold sub. rewrite length_take, length_drop. lia. Qed.

Lemma sub_bytes off n l : bytes l → bytes (sub off n l).
Proof. intros. by apply Forall_take, Forall_drop. Qed.

Lemma length_patch off new l :
  (off + length new ≤ length l)%nat → length (patch off new l) = length l.
Proof. intros. unfold patch. rewrite !length_app, length_take, length_drop. lia. Qed.

Lemma patch_bytes off new l : bytes new → bytes l → bytes (patch off new l).
Proof. intros. unfold patch. rewrite !Forall_app. eauto using Forall_take, Forall_drop. Qed.

Lemma sub_patch_same off new l :
  (off + length new ≤ length l)%nat → sub off (length new) (patch off new l) = new.
Proof.
  intros. unfold sub, patch.
  rewrite drop_app_length' by (rewrite length_take; lia).
  by apply take_app_length.
Qed.

Lemma patch_app off new pre old post :
  length pre = off → length new = length old →
  patch off new (pre ++ old ++ post) = pre ++ new ++ post.
Proof.
  intros <- Hn. unfold patch. rewrite take_app_length, Hn, drop_app_add.
  by rewrite drop_app_length.
Qed.

Lemma load_Val off n l bs : load off n l = Val bs ↔ (off + n ≤ length l)%nat ∧ bs = sub off n l.
Proof. unfold load. case_decide; naive_solver. Qed.

#[export] Hint Resolve sub_bytes patch_bytes : netutils.

Arguments le_store : simpl never.
Arguments le_load : simpl never.
Arguments htons : simpl never.
Arguments htonl : simpl never.
