(* ===== verification/Runtime.v ===== *)
(** * The C runtime the library runs in

    The calls libnetutils makes into the kernel, bionic and libcutils are
    recorded in a trace and answered by an arbitrary environment: [kern] maps
    the calls made so far and the next call to a response, so a theorem that
    holds for every [Env] holds for every behaviour of the callee.  The globals
    of the library's translation units are the fields of [gstate]; a function
    of the library is a computation of the monad [M], which passes the state and
    propagates undefined behaviour. *)
From stdpp Require Export pretty.
From S2P Require Import Prelude.

#[global] Open Scope Z_scope.

(** ** Arguments of the calls *)
Inductive mutex := ifc_sock_mutex | ifc_sock6_mutex.

#[global] Instance mutex_eq_dec : EqDecision mutex.
Proof. solve_decision. Defined.

Record sockaddr_ll := mk_sockaddr_ll {
  sll_family : Z; sll_protocol : Z; sll_ifindex : Z; sll_halen : Z; sll_addr : list Z
}.

(** struct ifreq: the interface name and the 16 bytes of the union
    [ifr_ifru] that a struct sockaddr occupies. *)
Record ifreq := mk_ifreq { ifr_name : string; ifr_ifru : list Z }.

(** struct rtentry: socket addresses as their memory images. *)
Record rtentry := mk_rtentry {
  rt_dst : list Z; rt_gateway : list Z; rt_genmask : list Z;
  rt_flags : Z; rt_dev : string
}.

Inductive ioctl_arg :=
| IfReq (ifr : ifreq)
| RtEntry (rt : rtentry)
| Raw (bs : list Z).

Inductive syscall :=
| Socket (domain type proto : Z)
| Bind (fd : Z) (addr : sockaddr_ll)
| Setsockopt (fd level opt : Z)
| Connect (fd : Z) (path : string)
| Close (fd : Z)
| Ioctl (fd req : Z) (arg : ioctl_arg)
| Poll (fd timeout : Z)
| Read (fd : Z) (count : nat)
| Write (fd : Z) (text : string)
| Sendmsg (fd : Z) (dest : sockaddr_ll) (frame : list Z)
| Send (fd : Z) (data : list Z)
| Recv (fd : Z) (count : nat)
| Open (path : string) (mode : Z)
| Fopen (path mode : string)
| Fdopen (fd : Z)
| Fprintf (text : string)
| Fputc (c : Z)
| Fflush
| Fread (count : nat)
| Fscanf (fmt : string)
| Fclose
| MutexLock (m : mutex)
| MutexUnlock (m : mutex)
| Clock_gettime
| Usleep (usec : Z)
| Getpid
| If_nametoindex (name : string)
| Getaddrinfo (host : string)
| PropertyGet (key : string)
| PropertySet (key value : string)
| Kill (pid sig : Z)
| System (cmd : string)
| Asprintf (text : string)
| Free.

(** A response: the return value, the errno the call sets (if it sets one), the
    bytes and strings it writes through its out parameters. *)
Record response := mk_response {
  ret : Z; err : option Z; out : list Z; strs : list string
}.

Abbreviation event := (syscall * response)%type.
Definition resp0 : response := mk_response 0 None [] [].

(** ** Global state *)

(** struct dhcp_info (dhcpclient.c) *)
Record dhcp_info := mk_dhcp_info {
  type : Z; ipaddr : Z; gateway : Z; prefixLength : Z;
  dns1 : Z; dns2 : Z; serveraddr : Z; lease : Z
}.

Definition zero_info : dhcp_info := mk_dhcp_info 0 0 0 0 0 0 0 0.

Record gstate := mk_gstate {
  trace : list event;
  errno : Z;
  ifc_ctl_sock : Z;          (* ifc_utils.c *)
  ifc_ctl_sock6 : Z;
  last_good_info : dhcp_info; (* dhcpclient.c *)
  errmsg : string;
  dhcp_errmsg : string;       (* dhcp_utils.c: errmsg *)
  errmsgv6 : string;
  errmsgPD : string;
  ra_flag : Z;
  pppoe_errmsg : string       (* pppoe_utils.c: errmsg *)
}.

(** The initial values of the globals. *)
Definition initial_state : gstate :=
  mk_gstate [] 0 (-1) (-1) zero_info "" "" "" "" 0 "".

Definition set_trace t s := mk_gstate t (errno s) (ifc_ctl_sock s) (ifc_ctl_sock6 s)
  (last_good_info s) (errmsg s) (dhcp_errmsg s) (errmsgv6 s) (errmsgPD s) (ra_flag s) (pppoe_errmsg s).
Definition set_errno e s := mk_gstate (trace s) e (ifc_ctl_sock s) (ifc_ctl_sock6 s)
  (last_good_info s) (errmsg s) (dhcp_errmsg s) (errmsgv6 s) (errmsgPD s) (ra_flag s) (pppoe_errmsg s).
Definition set_ifc_ctl_sock k s := mk_gstate (trace s) (errno s) k (ifc_ctl_sock6 s)
  (last_good_info s) (errmsg s) (dhcp_errmsg s) (errmsgv6 s) (errmsgPD s) (ra_flag s) (pppoe_errmsg s).
Definition set_ifc_ctl_sock6 k s := mk_gstate (trace s) (errno s) (ifc_ctl_sock s) k
  (last_good_info s) (errmsg s) (dhcp_errmsg s) (errmsgv6 s) (errmsgPD s) (ra_flag s) (pppoe_errmsg s).
Definition set_last_good_info i s := mk_gstate (trace s) (errno s) (ifc_ctl_sock s) (ifc_ctl_sock6 s)
  i (errmsg s) (dhcp_errmsg s) (errmsgv6 s) (errmsgPD s) (ra_flag s) (pppoe_errmsg s).
Definition set_errmsg m s := mk_gstate (trace s) (errno s) (ifc_ctl_sock s) (ifc_ctl_sock6 s)
  (last_good_info s) m (dhcp_errmsg s) (errmsgv6 s) (errmsgPD s) (ra_flag s) (pppoe_errmsg s).
Definition set_dhcp_errmsg m s := mk_gstate (trace s) (errno s) (ifc_ctl_sock s) (ifc_ctl_sock6 s)
  (last_good_info s) (errmsg s) m (errmsgv6 s) (errmsgPD s) (ra_flag s) (pppoe_errmsg s).
Definition set_errmsgv6 m s := mk_gstate (trace s) (errno s) (ifc_ctl_sock s) (ifc_ctl_sock6 s)
  (last_good_info s) (errmsg s) (dhcp_errmsg s) m (errmsgPD s) (ra_flag s) (pppoe_errmsg s).
Definition set_errmsgPD m s := mk_gstate (trace s) (errno s) (ifc_ctl_sock s) (ifc_ctl_sock6 s)
  (last_good_info s) (errmsg s) (dhcp_errmsg s) (errmsgv6 s) m (ra_flag s) (pppoe_errmsg s).
Definition set_ra_flag f s := mk_gstate (trace s) (errno s) (ifc_ctl_sock s) (ifc_ctl_sock6 s)
  (last_good_info s) (errmsg s) (dhcp_errmsg s) (errmsgv6 s) (errmsgPD s) f (pppoe_errmsg s).
Definition set_pppoe_errmsg m s := mk_gstate (trace s) (errno s) (ifc_ctl_sock s) (ifc_ctl_sock6 s)
  (last_good_info s) (errmsg s) (dhcp_errmsg s) (errmsgv6 s) (errmsgPD s) (ra_flag s) m.

(** ** Numbers in text

    atol and atoi: white space, a sign, decimal digits, the rest ignored; bionic's
    strtol saturates at the limits of a 64-bit long. *)
Definition codes (t : string) : list Z :=
  (λ c, Z.of_nat (Ascii.nat_of_ascii c)) <$> String.list_ascii_of_string t.
Definition is_space (c : Z) : bool := (c =? 32) || ((9 <=? c) && (c <=? 13)).
Fixpoint skip_space (l : list Z) : list Z :=
  match l with c :: rest => if is_space c then skip_space rest else l | [] => [] end.
Fixpoint digits (acc : Z) (l : list Z) : Z :=
  match l with
  | c :: rest => if (48 <=? c) && (c <=? 57) then digits (acc * 10 + (c - 48)) rest else acc
  | [] => acc
  end.
Definition atol (t : string) : Z :=
  let v := match skip_space (codes t) with
           | 45 :: l => - digits 0 l
           | 43 :: l => digits 0 l
           | l => digits 0 l
           end in
  Z.max (- 2 ^ 63) (Z.min (2 ^ 63 - 1) v).
Definition atoi (t : string) : Z := i32 (atol t).

(** ** The environment *)
Class Env := {
  kern : list event → syscall → response;
  (** libc: the text of an error number, and the text of an address to its
      value in network byte order, INADDR_NONE when malformed *)
  strerror : Z → string;
  inet_addr : string → Z;
  (** the indeterminate contents of an uninitialised [n]-byte object *)
  indet : nat → list Z;
  (** libcutils: the sizes of property keys and values, terminator included *)
  PROPERTY_KEY_MAX : nat;
  PROPERTY_VALUE_MAX : nat
}.

(** ** The monad *)
Definition M (A : Type) : Type := gstate → outcome (A * gstate).

#[global] Instance M_ret : MRet M := λ A a s, Val (a, s).
#[global] Instance M_bind : MBind M := λ A B f m s,
  match m s with Val (a, s') => f a s' | UB => UB end.

Definition lift {A} (o : outcome A) : M A := λ s,
  match o with Val a => Val (a, s) | UB => UB end.
Definition get_state {A} (f : gstate → A) : M A := λ s, Val (f s, s).
Definition modify (f : gstate → gstate) : M unit := λ s, Val (tt, f s).
Definition undefined {A} : M A := λ _, UB.

(** The state after a call: the event is appended, errno updated. *)
Definition record_event (c : syscall) (r : response) (s : gstate) : gstate :=
  set_errno (default (errno s) (err r)) (set_trace (trace s ++ [(c, r)]) s).

Definition newline : string := String (Ascii.ascii_of_nat 10) "".

Section Calls.
Context `{Env}.

Definition call (c : syscall) : M response := λ s,
  let r := kern (trace s) c in Val (r, record_event c r s).

(** A call used only for its return value, and one whose result is ignored. *)
Definition call_ret (c : syscall) : M Z := r ← call c; mret (ret r).
Definition call_ (c : syscall) : M unit := call c ≫= λ _, mret tt.

(** snprintf into a buffer of [n] bytes: the text, truncated. *)
Definition snprintf (n : nat) (text : string) : string := String.substring 0 (n - 1) text.

(** property_get(key, value, NULL): the length of the value, and the value, at
    most PROPERTY_VALUE_MAX - 1 characters. *)
Definition property_get (key : string) : M (Z * string) :=
  r ← call (PropertyGet key);
  let v := snprintf PROPERTY_VALUE_MAX (default "" (head (strs r))) in
  mret (Z.of_nat (String.length v), v).

Definition property_set (key value : string) : M unit := call_ (PropertySet key value).

(** printerr (dhcpclient.c): the message replaces the last error text. *)
Definition printerr (text : string) : M unit := modify (set_errmsg (snprintf 2048 text)).

(** fatal (dhcpclient.c) *)
Definition fatal (reason : string) : M Z :=
  e ← get_state errno;
  printerr (reason +:+ ": " +:+ strerror e +:+ newline) ;; mret (-1).
End Calls.

(** inet_ntoa: dotted decimal of the four bytes in memory order. *)
Definition inet_ntoa (addr : Z) : string :=
  match pretty <$> le_store 4 addr with
  | [a; b; c; d] => a +:+ "." +:+ b +:+ "." +:+ c +:+ "." +:+ d
  | _ => ""
  end.

(** ** Reasoning: total weakest preconditions *)
Definition wp {A} (m : M A) (Q : A → gstate → Prop) (s : gstate) : Prop :=
  match m s with Val (a, s') => Q a s' | UB => False end.

Section Wp.
Context {A B : Type}.
Implicit Types (Q : A → gstate → Prop) (s : gstate).

Lemma wp_ret a Q s : Q a s → wp (mret a) Q s.
Proof. done. Qed.
Lemma wp_bind (m : M B) (f : B → M A) Q s :
  wp m (λ b s', wp (f b) Q s') s → wp (m ≫= f) Q s.
Proof. unfold wp, mbind, M_bind. by destruct (m s) as [[b s']|]. Qed.
Lemma wp_bind_inv (m : M B) (f : B → M A) Q s :
  wp (m ≫= f) Q s → wp m (λ b s', wp (f b) Q s') s.
Proof. unfold wp, mbind, M_bind. by destruct (m s) as [[b s']|]. Qed.
Lemma wp_mono (m : M A) (P Q : A → gstate → Prop) s :
  (∀ a s', P a s' → Q a s') → wp m P s → wp m Q s.
Proof. unfold wp. destruct (m s) as [[a s']|]; naive_solver. Qed.
Lemma wp_lift (o : outcome A) a Q s : o = Val a → Q a s → wp (lift o) Q s.
Proof. intros ->. done. Qed.
Lemma wp_get (f : gstate → A) Q s : Q (f s) s → wp (get_state f) Q s.
Proof. done. Qed.
Lemma wp_run (m : M A) Q s : wp m Q s ↔ ∃ a s', m s = Val (a, s') ∧ Q a s'.
Proof. unfold wp. destruct (m s) as [[a s']|]; naive_solver. Qed.
Lemma bind_run (m : M B) (f : B → M A) s a s2 :
  (m ≫= f) s = Val (a, s2) ↔ ∃ b s1, m s = Val (b, s1) ∧ f b s1 = Val (a, s2).
Proof. unfold mbind, M_bind. destruct (m s) as [[b s']|]; naive_solver. Qed.
End Wp.

Lemma wp_call `{Env} c Q s :
  Q (kern (trace s) c) (record_event c (kern (trace s) c) s) → wp (call c) Q s.
Proof. done. Qed.
Lemma wp_modify f Q s : Q tt (f s) → wp (modify f) Q s.
Proof. done. Qed.

(** Steps over the primitive computations; leaves the branches of the code. *)
Ltac wp_prim :=
  lazymatch goal with
  | |- wp (mbind _ _) _ _ => apply wp_bind
  | |- wp (mret _) _ _ => apply wp_ret
  | |- wp (call _) _ _ => apply wp_call
  | |- wp (get_state _) _ _ => apply wp_get
  | |- wp (modify _) _ _ => apply wp_modify
  | |- wp (call_ret _) _ _ => unfold call_ret
  | |- wp (call_ _) _ _ => unfold call_
  | |- wp (printerr _) _ _ => unfold printerr
  | |- wp (fatal _) _ _ => unfold fatal
  | |- wp (property_set _ _) _ _ => unfold property_set
  | |- wp (property_get _) _ _ => unfold property_get
  | |- wp (match ?x with (_, _) => _ end) _ _ => destruct x eqn:?
  | |- wp (let '_ := ?x in _) _ _ => destruct x eqn:?
  | |- wp (if ?b then _ else _) _ _ => destruct b eqn:?
  end.
Ltac wp_steps := repeat wp_prim.

(** ** Resources

    The net number of times the calls of a trace opened a descriptor with
    socket() without closing it, and the net number of acquisitions of a lock. *)
Definition fd_delta (fd : Z) (ev : event) : Z :=
  match ev with
  | (Socket _ _ _, r) => if ret r =? fd then 1 else 0
  | (Close fd', _) => if fd' =? fd then -1 else 0
  | _ => 0
  end.
Definition lock_delta (m : mutex) (ev : event) : Z :=
  match ev with
  | (MutexLock m', _) => if decide (m' = m) then 1 else 0
  | (MutexUnlock m', _) => if decide (m' = m) then -1 else 0
  | _ => 0
  end.
Fixpoint total (f : event → Z) (tr : list event) : Z :=
  match tr with [] => 0 | ev :: tr' => f ev + total f tr' end.
Definition held (fd : Z) (tr : list event) : Z := total (fd_delta fd) tr.
Definition depth (m : mutex) (tr : list event) : Z := total (lock_delta m) tr.

Lemma total_app f tr1 tr2 : total f (tr1 ++ tr2) = total f tr1 + total f tr2.
Proof. induction tr1 as [|ev tr IH]; cbn; [done|]. rewrite IH. lia. Qed.

(** Descriptors held beyond the two control sockets the globals own. *)
Definition owned (fd : Z) (s : gstate) : Z :=
  (if ifc_ctl_sock s =? fd then 1 else 0) + (if ifc_ctl_sock6 s =? fd then 1 else 0).
Definition leak (fd : Z) (s : gstate) : Z := held fd (trace s) - owned fd s.

Definition bit (b : bool) : Z := if b then 1 else 0.

Lemma leak_record fd c r s : leak fd (record_event c r s) = leak fd s + fd_delta fd (c, r).
Proof.
  unfold leak, held, owned, record_event. cbn [trace set_errno set_trace ifc_ctl_sock ifc_ctl_sock6].
  rewrite total_app. cbn [total]. lia.
Qed.
Lemma depth_record m c r s :
  depth m (trace (record_event c r s)) = depth m (trace s) + lock_delta m (c, r).
Proof. unfold depth, record_event. cbn [trace set_errno set_trace]. rewrite total_app. cbn [total]. lia. Qed.
Lemma leak_set_ctl fd k s :
  leak fd (set_ifc_ctl_sock k s) = leak fd s + bit (ifc_ctl_sock s =? fd) - bit (k =? fd).
Proof.
  unfold leak, owned, bit. cbn [trace set_ifc_ctl_sock set_ifc_ctl_sock6 ifc_ctl_sock ifc_ctl_sock6].
  repeat case_match; lia.
Qed.
Lemma leak_set_ctl6 fd k s :
  leak fd (set_ifc_ctl_sock6 k s) = leak fd s + bit (ifc_ctl_sock6 s =? fd) - bit (k =? fd).
Proof.
  unfold leak, owned, bit. cbn [trace set_ifc_ctl_sock set_ifc_ctl_sock6 ifc_ctl_sock ifc_ctl_sock6].
  repeat case_match; lia.
Qed.
Lemma leak_set_errmsg fd m s : leak fd (set_errmsg m s) = leak fd s.
Proof. done. Qed.
Lemma bit_neg k fd : k < 0 → 0 ≤ fd → bit (k =? fd) = 0.
Proof. intros. unfold bit. by rewrite (proj2 (Z.eqb_neq k fd)) by lia. Qed.

Create Rewrite HintDb leak.
#[export] Hint Rewrite leak_record depth_record leak_set_ctl leak_set_ctl6 leak_set_errmsg : leak.

(** A computation that, whenever it returns, leaks no descriptor and changes
    the depth of the two locks by [d4] and [d6]. *)
Definition balanced {A} (d4 d6 : Z) (m : M A) : Prop :=
  ∀ s a s', m s = Val (a, s') →
    (∀ fd, 0 ≤ fd → leak fd s' = leak fd s) ∧
    depth ifc_sock_mutex (trace s') = depth ifc_sock_mutex (trace s) + d4 ∧
    depth ifc_sock6_mutex (trace s') = depth ifc_sock6_mutex (trace s) + d6.

Lemma balanced_ret {A} (a : A) : balanced 0 0 (mret a).
Proof. intros s ? ? [= <- <-]. split_and!; intros; lia. Qed.
Lemma balanced_bind {A B} (m : M A) (f : A → M B) d4 d6 e4 e6 c4 c6 :
  balanced d4 d6 m → (∀ a, balanced e4 e6 (f a)) → c4 = d4 + e4 → c6 = d6 + e6 →
  balanced c4 c6 (m ≫= f).
Proof.
  intros Hm Hf -> -> s b s2 Hr. apply bind_run in Hr as (a & s1 & H1 & H2).
  destruct (Hm _ _ _ H1) as (Hl1 & ? & ?). destruct (Hf _ _ _ _ H2) as (Hl2 & ? & ?).
  split_and!; [|lia..]. intros fd Hfd. rewrite Hl2, Hl1; done.
Qed.
Lemma balanced_lift {A} (o : outcome A) : balanced 0 0 (lift o).
Proof. intros s a s'. destruct o; intros [= <- <-]. split_and!; intros; lia. Qed.
Lemma balanced_get {A} (f : gstate → A) : balanced 0 0 (get_state f).
Proof. intros s a s' [= <- <-]. split_and!; intros; lia. Qed.
Lemma balanced_modify (f : gstate → gstate) :
  (∀ s, trace (f s) = trace s ∧ ifc_ctl_sock (f s) = ifc_ctl_sock s ∧
        ifc_ctl_sock6 (f s) = ifc_ctl_sock6 s) → balanced 0 0 (modify f).
Proof.
  intros Hf s a s' [= _ <-]. destruct (Hf s) as (Ht & H4 & H6).
  unfold leak, owned. rewrite Ht, H4, H6. split_and!; intros; lia.
Qed.
Lemma balanced_call `{Env} c :
  (∀ fd r, fd_delta fd (c, r) = 0) →
  balanced (lock_delta ifc_sock_mutex (c, resp0)) (lock_delta ifc_sock6_mutex (c, resp0)) (call c).
Proof.
  intros Hc s a s' Heq.
  assert (s' = record_event c (kern (trace s) c) s) as -> by (unfold call in Heq; congruence).
  unfold leak, held, depth, owned, record_event.
  cbn [trace set_errno set_trace ifc_ctl_sock ifc_ctl_sock6]. rewrite !total_app.
  cbn [total]. split_and!.
  - intros fd _. rewrite total_app. cbn [total]. rewrite Hc. lia.
  - destruct c; unfold lock_delta; lia.
  - destruct c; unfold lock_delta; lia.
Qed.

Lemma balanced_call_ret `{Env} c :
  (∀ fd r, fd_delta fd (c, r) = 0) → (∀ m r, lock_delta m (c, r) = 0) → balanced 0 0 (call_ret c).
Proof.
  intros Hf Hl. unfold call_ret. eapply balanced_bind; [by apply balanced_call| |..].
  - intros. apply balanced_ret.
  - by rewrite Hl.
  - by rewrite Hl.
Qed.

Lemma balanced_printerr text : balanced 0 0 (printerr text).
Proof. by apply balanced_modify. Qed.
Lemma balanced_fatal `{Env} reason : balanced 0 0 (fatal reason).
Proof.
  eapply balanced_bind; [apply balanced_get|intros e|done|done].
  eapply balanced_bind; [apply balanced_printerr|intros; apply balanced_ret|done|done].
Qed.

Create HintDb balanced discriminated.
#[export] Hint Resolve balanced_ret balanced_lift balanced_get balanced_printerr
  balanced_fatal : balanced.

(** Decomposes a computation into its calls; closes the neutral ones, leaves
    the sockets it opens. *)
Ltac balance :=
  repeat first
    [ solve [eauto with balanced nocore]
    | lazymatch goal with
      | |- balanced _ _ (mbind _ (call_ret (Socket _ _ _))) => fail
      | |- balanced _ _ (mbind _ _) => eapply balanced_bind; [| intros ? | | ]
      | |- balanced _ _ (call_ret _) => apply balanced_call_ret; done
      | |- balanced _ _ (call_ ?c) => unfold call_
      | |- balanced _ _ (property_set _ _) => unfold property_set
      | |- balanced _ _ (property_get _) => unfold property_get
      | |- balanced _ _ (call ?c) => refine (balanced_call c _); done
      | |- balanced _ _ (match ?x with (_, _) => _ end) => destruct x
      | |- balanced _ _ (if ?b then _ else _) => destruct b
      | |- balanced _ _ (match ?x with _ => _ end) => destruct x
      | |- _ = _ => reflexivity
      end ];
  try reflexivity.

(** A computation that closes the descriptor [fd] it is given, once. *)
Definition closes {A} (fd : Z) (m : M A) : Prop :=
  ∀ s a s', m s = Val (a, s') →
    (∀ fd', 0 ≤ fd' → leak fd' s' = leak fd' s - bit (fd =? fd')) ∧
    (∀ mx, depth mx (trace s') = depth mx (trace s)).

Lemma depth_cases (P : mutex → Prop) : P ifc_sock_mutex → P ifc_sock6_mutex → ∀ m, P m.
Proof. by intros ? ? []. Qed.

Lemma closes_bind_l {A B} fd (m : M A) (f : A → M B) :
  balanced 0 0 m → (∀ a, closes fd (f a)) → closes fd (m ≫= f).
Proof.
  intros Hm Hf s b s2 Hr. apply bind_run in Hr as (a & s1 & H1 & H2).
  destruct (Hm _ _ _ H1) as (Hl & Hd4 & Hd6). destruct (Hf _ _ _ _ H2) as (Hl2 & Hd).
  split; [intros fd' ?; rewrite Hl2, Hl by done; done|].
  apply depth_cases; rewrite Hd; lia.
Qed.
Lemma closes_bind_r {A B} fd (m : M A) (f : A → M B) :
  closes fd m → (∀ a, balanced 0 0 (f a)) → closes fd (m ≫= f).
Proof.
  intros Hm Hf s b s2 Hr. apply bind_run in Hr as (a & s1 & H1 & H2).
  destruct (Hm _ _ _ H1) as (Hl & Hd). destruct (Hf _ _ _ _ H2) as (Hl2 & Hd4 & Hd6).
  split; [intros fd' ?; rewrite Hl2, Hl by done; done|].
  apply depth_cases; rewrite <- Hd; lia.
Qed.
Lemma closes_close `{Env} fd : closes fd (call_ (Close fd)).
Proof.
  intros s a s' Hr. unfold call_ in Hr. apply bind_run in Hr as (r & s1 & H1 & H2).
  assert (s' = record_event (Close fd) (kern (trace s) (Close fd)) s) as ->
    by (unfold call in H1; unfold mret, M_ret in H2; congruence).
  split; [intros fd' _; rewrite leak_record|intros mx; rewrite depth_record];
    cbn [fd_delta lock_delta]; unfold bit; [case_match; lia|lia].
Qed.

(** Opening a socket and closing it on every path leaks nothing. *)
Lemma balanced_socket `{Env} {B} dom typ proto (f : Z → M B) :
  (∀ fd, fd < 0 → balanced 0 0 (f fd)) → (∀ fd, 0 ≤ fd → closes fd (f fd)) →
  balanced 0 0 (call_ret (Socket dom typ proto) ≫= f).
Proof.
  intros Hneg Hpos s b s2 Hr. apply bind_run in Hr as (fd & s1 & H1 & H2).
  unfold call_ret, call, mbind, M_bind, mret, M_ret in H1.
  set (r := kern _ _) in H1. assert (fd = ret r) as -> by congruence.
  assert (s1 = record_event (Socket dom typ proto) r s) as -> by congruence.
  destruct (decide (ret r < 0)) as [Hlt|Hge].
  - destruct (Hneg _ Hlt _ _ _ H2) as (Hl & Hd4 & Hd6). rewrite depth_record in Hd4, Hd6.
    cbn [lock_delta] in Hd4, Hd6. split_and!; [|lia|lia]. intros fd Hfd. rewrite Hl, leak_record by done. cbn [fd_delta].
    rewrite (proj2 (Z.eqb_neq _ _)) by lia. lia.
  - destruct (Hpos (ret r) ltac:(lia) _ _ _ H2) as (Hl & Hd).
    split_and!; [|rewrite Hd, depth_record; cbn [lock_delta]; lia..].
    intros fd Hfd. rewrite Hl, leak_record by done. cbn [fd_delta]. unfold bit. lia.
Qed.

Ltac closing :=
  repeat lazymatch goal with
  | |- closes _ (call_ (Close _)) => apply closes_close
  | |- closes _ (mbind _ (call_ (Close _))) =>
      apply closes_bind_r; [apply closes_close|intros ?; balance]
  | |- closes _ (mbind _ _) => apply closes_bind_l; [balance|intros ?]
  | |- closes _ (if ?b then _ else _) => destruct b eqn:?
  | |- closes _ (match ?x with (_, _) => _ end) => destruct x
  end.

(** ** Effects

    The configuration requests of a trace: the ioctls, in order, and the
    properties set, in order. *)
Definition ioctl_of (ev : event) : option (Z * ioctl_arg) :=
  match ev with (Ioctl _ req arg, _) => Some (req, arg) | _ => None end.
Definition prop_of (ev : event) : option (string * string) :=
  match ev with (PropertySet k v, _) => Some (k, v) | _ => None end.
Definition ioctls (s : gstate) : list (Z * ioctl_arg) := omap ioctl_of (trace s).
Definition prop_sets (s : gstate) : list (string * string) := omap prop_of (trace s).

Lemma ioctls_record c r s :
  ioctls (record_event c r s) = ioctls s ++ omap ioctl_of [(c, r)].
Proof. unfold ioctls, record_event. cbn [trace set_errno set_trace]. apply omap_app. Qed.
Lemma prop_sets_record c r s :
  prop_sets (record_event c r s) = prop_sets s ++ omap prop_of [(c, r)].
Proof. unfold prop_sets, record_event. cbn [trace set_errno set_trace]. apply omap_app. Qed.

(** Two states with the same requests behind them. *)
Definition quiet (s s' : gstate) : Prop := ioctls s' = ioctls s ∧ prop_sets s' = prop_sets s.

#[global] Instance quiet_refl : Reflexive quiet.
Proof. done. Qed.
#[global] Instance quiet_trans : Transitive quiet.
Proof. intros s1 s2 s3 [] []. split; congruence. Qed.

Lemma quiet_record c r s :
  ioctl_of (c, r) = None → prop_of (c, r) = None → quiet s (record_event c r s).
Proof.
  intros Hi Hp. split; rewrite ?ioctls_record, ?prop_sets_record; cbn [omap list_omap];
    rewrite ?Hi, ?Hp; apply app_nil_r.
Qed.

(** ** Frames

    A computation that leaves a part of the global state as it found it. *)
Definition preserves {A X} (f : gstate → X) (m : M A) : Prop :=
  ∀ s a s', m s = Val (a, s') → f s' = f s.

Lemma preserves_ret {A X} (f : gstate → X) (a : A) : preserves f (mret a).
Proof. intros s b s' Hr. unfold mret, M_ret in Hr. congruence. Qed.
Lemma preserves_bind {A B X} (f : gstate → X) (m : M A) (k : A → M B) :
  preserves f m → (∀ a, preserves f (k a)) → preserves f (m ≫= k).
Proof.
  intros Hm Hk s b s2 Hr. apply bind_run in Hr as (a & s1 & H1 & H2).
  rewrite (Hk _ _ _ _ H2). by eapply Hm.
Qed.
Lemma preserves_lift {A X} (f : gstate → X) (o : outcome A) : preserves f (lift o).
Proof. intros s a s' Hr. unfold lift in Hr. destruct o; congruence. Qed.
Lemma preserves_get {A X} (f : gstate → X) (g : gstate → A) : preserves f (get_state g).
Proof. intros s a s' Hr. unfold get_state in Hr. congruence. Qed.
Lemma preserves_modify {X} (f : gstate → X) g : (∀ s, f (g s) = f s) → preserves f (modify g).
Proof. intros Hg s a s' Hr. unfold modify in Hr. assert (s' = g s) as -> by congruence. apply Hg. Qed.
Lemma preserves_call `{Env} {X} (f : gstate → X) c :
  (∀ r s, f (record_event c r s) = f s) → preserves f (call c).
Proof.
  intros Hc s a s' Hr. unfold call in Hr.
  assert (s' = record_event c (kern (trace s) c) s) as -> by congruence. apply Hc.
Qed.

Create HintDb frame discriminated.

(** Decomposes a computation; the leaves are primitive or in the database. *)
Ltac framing :=
  repeat first
    [ solve [eauto with frame nocore]
    | lazymatch goal with
      | |- preserves _ (mbind _ _) => apply preserves_bind; [|intros ?]
      | |- preserves _ (mret _) => apply preserves_ret
      | |- preserves _ (lift _) => apply preserves_lift
      | |- preserves _ (get_state _) => apply preserves_get
      | |- preserves _ (modify _) => apply preserves_modify; reflexivity
      | |- preserves _ (call _) => apply preserves_call; reflexivity
      | |- preserves _ (call_ret _) => unfold call_ret
      | |- preserves _ (call_ _) => unfold call_
      | |- preserves _ (printerr _) => unfold printerr
      | |- preserves _ (fatal _) => unfold fatal
      | |- preserves _ (property_set _ _) => unfold property_set
      | |- preserves _ (property_get _) => unfold property_get
      | |- preserves _ (match ?x with (_, _) => _ end) => destruct x
      | |- preserves _ (if ?b then _ else _) => destruct b
      | |- preserves _ (match ?x with _ => _ end) => destruct x
      end ].

(** ** Documented behaviour of the callees

    read(2) returns the number of bytes it wrote, at most the count it was
    given; ioctl(2) writes bytes; an uninitialised object still holds bytes. *)
Class WfEnv `{Env} : Prop := {
  indet_bytes : ∀ n, bytes (indet n);
  indet_length : ∀ n, length (indet n) = n;
  read_bounds : ∀ tr fd n, 0 ≤ ret (kern tr (Read fd n)) →
    ret (kern tr (Read fd n)) = Z.of_nat (length (out (kern tr (Read fd n)))) ∧
    ret (kern tr (Read fd n)) ≤ Z.of_nat n ∧ bytes (out (kern tr (Read fd n)));
  ioctl_bytes : ∀ tr fd req arg, bytes (out (kern tr (Ioctl fd req arg)))
}.

(** ** Concrete environments

    An environment that answers the calls in order from a script, and then
    with success; used to evaluate the definitions on concrete runs. *)
Definition resp (r : Z) : response := mk_response r None [] [].
Definition resp_err (e : Z) : response := mk_response (-1) (Some e) [] [].
Definition resp_out (r : Z) (o : list Z) : response := mk_response r None o [].
Definition resp_str (t : string) : response := mk_response 0 None [] [t].

Definition scripted (script : list response) (addr : string → Z) : Env := {|
  kern tr _ := default (resp 0) (script !! length tr);
  strerror e := "errno " +:+ pretty e;
  inet_addr := addr;
  indet n := replicate n 170;
  PROPERTY_KEY_MAX := 32;
  PROPERTY_VALUE_MAX := 92
|}.
Definition scripted0 (script : list response) : Env := scripted script (λ _, 0).

(** An environment that answers polls and reads from two queues (an empty poll
    queue times out, an empty read queue fails), hands out the descriptor
    [sock_fd], and answers every other call from [other]. *)
Definition is_poll (ev : event) : bool := match ev.1 with Poll _ _ => true | _ => false end.
Definition is_read (ev : event) : bool := match ev.1 with Read _ _ => true | _ => false end.
Definition count (p : event → bool) (tr : list event) : nat := length (List.filter p tr).

Definition serving (polls : list Z) (frames : list (list Z)) (other : syscall → response) : Env := {|
  kern tr c :=
    match c with
    | Poll _ _ => resp (default 0 (polls !! count is_poll tr))
    | Read _ n =>
        match frames !! count is_read tr with
        | Some f => resp_out (Z.of_nat (length (take n f))) (take n f)
        | None => resp_err 5
        end
    | c => other c
    end;
  strerror e := "errno " +:+ pretty e;
  inet_addr _ := 0;
  indet n := replicate n 170;
  PROPERTY_KEY_MAX := 32;
  PROPERTY_VALUE_MAX := 92
|}.

Lemma serving_wf polls frames other :
  Forall (Forall is_u8) frames → (∀ c, bytes (out (other c))) →
  @WfEnv (serving polls frames other).
Proof.
  intros Hf Ho. split; cbn.
  - intros n. by apply Forall_replicate.
  - intros n. apply length_replicate.
  - intros tr _ n. destruct (frames !! count is_read tr) as [f|] eqn:Hl; cbn; [|lia].
    intros _. split_and!; [done|rewrite length_take; lia|].
    apply Forall_take. by eapply Forall_lookup_1.
  - intros. apply Ho.
Qed.
