(* ===== verification/DhcpMsg.v ===== *)
(** * DHCP messages (src/system/core/libnetutils/dhcpmsg.h, dhcpmsg.c)

    The BOOTP/DHCP message structure with its memory layout, and the two
    constructors of client messages.  The options pointer [x] of the C code is
    an index into the 1024-byte [options] array; a store past the array is
    undefined. *)
From S2P Require Import Prelude.

Module DhcpMsg.

Definition PORT_BOOTP_SERVER : Z := 67.
Definition PORT_BOOTP_CLIENT : Z := 68.
Definition OP_BOOTREQUEST : Z := 1.
Definition OP_BOOTREPLY : Z := 2.
Definition FLAGS_BROADCAST : Z := 0x8000.
Definition HTYPE_ETHER : Z := 1.

Record dhcp_msg := mk_dhcp_msg {
  op : Z; htype : Z; hlen : Z; hops : Z;
  xid : Z;
  secs : Z; flags : Z;
  ciaddr : Z; yiaddr : Z; siaddr : Z; giaddr : Z;
  chaddr : list Z;
  sname : list Z;
  file : list Z;
  options : list Z
}.

Definition DHCP_MSG_FIXED_SIZE : Z := 236.
Definition CHADDR_LEN : nat := 16.
Definition SNAME_LEN : nat := 64.
Definition FILE_LEN : nat := 128.
Definition OPTIONS_LEN : nat := 1024.
(** sizeof(struct dhcp_msg) *)
Definition SIZEOF_DHCP_MSG : nat := 1260.

Definition OPT_COOKIE1 : Z := 0x63.
Definition OPT_COOKIE2 : Z := 0x82.
Definition OPT_COOKIE3 : Z := 0x53.
Definition OPT_COOKIE4 : Z := 0x63.
Definition OPT_PAD : Z := 0.
Definition OPT_SUBNET_MASK : Z := 1.
Definition OPT_GATEWAY : Z := 3.
Definition OPT_DNS : Z := 6.
Definition OPT_DOMAIN_NAME : Z := 15.
Definition OPT_BROADCAST_ADDR : Z := 28.
Definition OPT_REQUESTED_IP : Z := 50.
Definition OPT_LEASE_TIME : Z := 51.
Definition OPT_MESSAGE_TYPE : Z := 53.
Definition OPT_SERVER_ID : Z := 54.
Definition OPT_PARAMETER_LIST : Z := 55.
Definition OPT_MESSAGE : Z := 56.
Definition OPT_END : Z := 255.

Definition DHCPDISCOVER : Z := 1.
Definition DHCPOFFER : Z := 2.
Definition DHCPREQUEST : Z := 3.
Definition DHCPDECLINE : Z := 4.
Definition DHCPACK : Z := 5.
Definition DHCPNAK : Z := 6.
Definition DHCPRELEASE : Z := 7.
Definition DHCPINFORM : Z := 8.

(** ** Memory layout *)
Definition dhcp_msg_fixed (m : dhcp_msg) : list Z :=
  [op m; htype m; hlen m; hops m] ++ le_store 4 (xid m) ++
  le_store 2 (secs m) ++ le_store 2 (flags m) ++
  le_store 4 (ciaddr m) ++ le_store 4 (yiaddr m) ++
  le_store 4 (siaddr m) ++ le_store 4 (giaddr m) ++
  chaddr m ++ sname m ++ file m.

Definition dhcp_msg_bytes (m : dhcp_msg) : list Z := dhcp_msg_fixed m ++ options m.

Definition dhcp_msg_of_bytes (l : list Z) : dhcp_msg := {|
  op := le_load (sub 0 1 l); htype := le_load (sub 1 1 l);
  hlen := le_load (sub 2 1 l); hops := le_load (sub 3 1 l);
  xid := le_load (sub 4 4 l);
  secs := le_load (sub 8 2 l); flags := le_load (sub 10 2 l);
  ciaddr := le_load (sub 12 4 l); yiaddr := le_load (sub 16 4 l);
  siaddr := le_load (sub 20 4 l); giaddr := le_load (sub 24 4 l);
  chaddr := sub 28 CHADDR_LEN l;
  sname := sub 44 SNAME_LEN l;
  file := sub 108 FILE_LEN l;
  options := sub 236 OPTIONS_LEN l
|}.

(** The values the C types of the fields can hold. *)
Record wf_msg (m : dhcp_msg) : Prop := mk_wf_msg {
  wf_op : is_u8 (op m); wf_htype : is_u8 (htype m);
  wf_hlen : is_u8 (hlen m); wf_hops : is_u8 (hops m);
  wf_xid : is_u32 (xid m);
  wf_secs : is_u16 (secs m); wf_flags : is_u16 (flags m);
  wf_ciaddr : is_u32 (ciaddr m); wf_yiaddr : is_u32 (yiaddr m);
  wf_siaddr : is_u32 (siaddr m); wf_giaddr : is_u32 (giaddr m);
  wf_chaddr : bytes (chaddr m) ∧ length (chaddr m) = CHADDR_LEN;
  wf_sname : bytes (sname m) ∧ length (sname m) = SNAME_LEN;
  wf_file : bytes (file m) ∧ length (file m) = FILE_LEN;
  wf_options : bytes (options m) ∧ length (options m) = OPTIONS_LEN
}.

(** ** Field updates used by the constructors *)
Definition set_chaddr (c : list Z) (m : dhcp_msg) : dhcp_msg :=
  mk_dhcp_msg (op m) (htype m) (hlen m) (hops m) (xid m) (secs m) (flags m)
    (ciaddr m) (yiaddr m) (siaddr m) (giaddr m) c (sname m) (file m) (options m).
Definition set_options (o : list Z) (m : dhcp_msg) : dhcp_msg :=
  mk_dhcp_msg (op m) (htype m) (hlen m) (hops m) (xid m) (secs m) (flags m)
    (ciaddr m) (yiaddr m) (siaddr m) (giaddr m) (chaddr m) (sname m) (file m) o.
Definition set_sname (n : list Z) (m : dhcp_msg) : dhcp_msg :=
  mk_dhcp_msg (op m) (htype m) (hlen m) (hops m) (xid m) (secs m) (flags m)
    (ciaddr m) (yiaddr m) (siaddr m) (giaddr m) (chaddr m) n (file m) (options m).
Definition set_file (f : list Z) (m : dhcp_msg) : dhcp_msg :=
  mk_dhcp_msg (op m) (htype m) (hlen m) (hops m) (xid m) (secs m) (flags m)
    (ciaddr m) (yiaddr m) (siaddr m) (giaddr m) (chaddr m) (sname m) f (options m).

(** [memset(msg, 0, sizeof(dhcp_msg))] *)
Definition zero_msg : dhcp_msg :=
  mk_dhcp_msg 0 0 0 0 0 0 0 0 0 0 0 (replicate CHADDR_LEN 0)
    (replicate SNAME_LEN 0) (replicate FILE_LEN 0) (replicate OPTIONS_LEN 0).

(** [*x++ = v] on the options array *)
Definition put (v : Z) (w : dhcp_msg * nat) : outcome (dhcp_msg * nat) :=
  let (m, x) := w in
  if decide (x < length (options m))%nat
  then Val (set_options (<[x := u8 v]> (options m)) m, S x)
  else UB.

(** A run of stores; also [memcpy(x, &v, n); x += n]. *)
Fixpoint puts (vs : list Z) (w : dhcp_msg * nat) : outcome (dhcp_msg * nat) :=
  match vs with
  | [] => Val w
  | v :: rest => put v w ≫= puts rest
  end.

Definition init_dhcp_msg (type : Z) (hwaddr : list Z) (xid0 : Z)
    : outcome (dhcp_msg * nat) :=
  c ← load 0 6 hwaddr;
  let m := mk_dhcp_msg OP_BOOTREQUEST HTYPE_ETHER 6 0 xid0 0
             (htons FLAGS_BROADCAST) 0 0 0 0
             (patch 0 c (chaddr zero_msg)) (sname zero_msg) (file zero_msg)
             (options zero_msg) in
  w ← puts [OPT_COOKIE1; OPT_COOKIE2; OPT_COOKIE3; OPT_COOKIE4] (m, O);
  puts [OPT_MESSAGE_TYPE; 1; type] w.

Definition parameter_list : list Z :=
  [OPT_PARAMETER_LIST; 4; OPT_SUBNET_MASK; OPT_GATEWAY; OPT_DNS; OPT_BROADCAST_ADDR].

Definition init_dhcp_discover_msg (hwaddr : list Z) (xid0 : Z)
    : outcome (dhcp_msg * Z) :=
  w ← init_dhcp_msg DHCPDISCOVER hwaddr xid0;
  w ← puts parameter_list w;
  w ← put OPT_END w;
  Val (w.1, DHCP_MSG_FIXED_SIZE + Z.of_nat w.2).

Definition init_dhcp_request_msg (hwaddr : list Z) (xid0 ipaddr serveraddr : Z)
    : outcome (dhcp_msg * Z) :=
  w ← init_dhcp_msg DHCPREQUEST hwaddr xid0;
  w ← puts parameter_list w;
  w ← puts [OPT_REQUESTED_IP; 4] w;
  w ← puts (le_store 4 ipaddr) w;
  w ← puts [OPT_SERVER_ID; 4] w;
  w ← puts (le_store 4 serveraddr) w;
  w ← put OPT_END w;
  Val (w.1, DHCP_MSG_FIXED_SIZE + Z.of_nat w.2).

(** ** Layout lemmas *)
Lemma zero_bytes n : bytes (replicate n 0).
Proof. apply Forall_replicate. unfold is_u8. lia. Qed.

Lemma sub_app_here (n : nat) (a b : list Z) : length a = n → sub 0 n (a ++ b) = a.
Proof. intros <-. unfold sub. by rewrite drop_0, take_app_length. Qed.

Lemma sub_app_skip (off n : nat) (a b : list Z) :
  (length a ≤ off)%nat → sub off n (a ++ b) = sub (off - length a) n b.
Proof. intros. unfold sub. by rewrite drop_app_ge by done. Qed.

Lemma le_load_1 b : le_load [b] = b.
Proof. unfold le_load. lia. Qed.

Lemma length_fixed m : wf_msg m → length (dhcp_msg_fixed m) = 236%nat.
Proof.
  intros [? ? ? ? ? ? ? ? ? ? ? [_ Hc] [_ Hs] [_ Hf] _]. unfold dhcp_msg_fixed.
  rewrite !length_app. autorewrite with netlen. rewrite Hc, Hs, Hf. done.
Qed.

Lemma length_msg_bytes m : wf_msg m → length (dhcp_msg_bytes m) = SIZEOF_DHCP_MSG.
Proof.
  intros H. unfold dhcp_msg_bytes. rewrite length_app, length_fixed by done.
  by rewrite (proj2 (wf_options _ H)).
Qed.

Lemma msg_bytes_bytes m : wf_msg m → bytes (dhcp_msg_bytes m).
Proof.
  intros []. unfold dhcp_msg_bytes, dhcp_msg_fixed.
  repeat (apply le_store_bytes || apply Forall_app_2 || apply Forall_cons_2 || apply Forall_nil_2);
    intuition auto with netutils.
Qed.

Lemma of_bytes_bytes m : wf_msg m → dhcp_msg_of_bytes (dhcp_msg_bytes m) = m.
Proof.
  intros [? ? ? ? ? ? ? ? ? ? ? [_ Hc] [_ Hs] [_ Hf] [_ Ho]].
  destruct m as [o ht hl hp x se fl ci yi si gi ch sn fi op'].
  unfold CHADDR_LEN, SNAME_LEN, FILE_LEN, OPTIONS_LEN in *. cbn in *.
  unfold dhcp_msg_of_bytes, dhcp_msg_bytes, dhcp_msg_fixed, CHADDR_LEN, SNAME_LEN,
    FILE_LEN, OPTIONS_LEN. cbn [op htype hlen hops xid
    secs flags ciaddr yiaddr siaddr giaddr chaddr sname file options].
  rewrite <- !app_assoc. cbn [app].
  change (o :: ht :: hl :: hp :: ?l) with ([o] ++ [ht] ++ [hl] ++ [hp] ++ l).
  assert (Hsub : ∀ n l, length l = n → sub 0 n l = l)
    by (intros n l <-; unfold sub; by rewrite drop_0, take_ge).
  f_equal;
    repeat (first [rewrite sub_app_here by (autorewrite with netlen; done)
                  |rewrite sub_app_skip by
                     (autorewrite with netlen; rewrite ?Hc, ?Hs, ?Hf; cbn; lia)
                  |rewrite Hsub by done];
            autorewrite with netlen; rewrite ?Hc, ?Hs, ?Hf; cbn [length Nat.sub]);
    rewrite ?le_load_1; try done; by apply le_load_store_id.
Qed.

(** Splitting a buffer at the field boundaries. *)
Lemma sub_split (off n k : nat) (l : list Z) : sub off (n + k) l = sub off n l ++ sub (off + n) k l.
Proof.
  unfold sub. rewrite <- drop_drop. generalize (drop off l). clear l. intros l.
  revert l. induction n as [|n IH]; intros [|x l]; cbn; try done; [by rewrite take_nil|].
  by rewrite IH.
Qed.

Lemma le_store_sub off n l :
  bytes l → (off + n ≤ length l)%nat → le_store n (le_load (sub off n l)) = sub off n l.
Proof.
  intros Hb Hl. rewrite <- (le_store_load (sub off n l)) at 2 by (by apply sub_bytes).
  by rewrite length_sub.
Qed.

Lemma bytes_of_bytes l :
  bytes l → length l = SIZEOF_DHCP_MSG → dhcp_msg_bytes (dhcp_msg_of_bytes l) = l.
Proof.
  intros Hb Hl. unfold SIZEOF_DHCP_MSG in Hl.
  assert (H1 : ∀ off, (off + 1 ≤ length l)%nat → [le_load (sub off 1 l)] = sub off 1 l).
  { intros off Ho. rewrite <- (le_store_sub off 1 l) at 2 by done.
    unfold le_store. rewrite Z.mod_small; [done|].
    pose proof (le_load_bounds (sub off 1 l) (sub_bytes _ _ _ Hb)) as Hx.
    by rewrite length_sub in Hx. }
  unfold dhcp_msg_bytes, dhcp_msg_fixed, dhcp_msg_of_bytes.
  cbn [op htype hlen hops xid secs flags ciaddr yiaddr siaddr giaddr chaddr sname file options].
  change [?a; ?b; ?c; ?d] with ([a] ++ [b] ++ [c] ++ [d]).
  rewrite !H1, !le_store_sub, <- !app_assoc by (done || lia).
  unfold CHADDR_LEN, SNAME_LEN, FILE_LEN, OPTIONS_LEN.
  assert (sub 0 1260 l = l) as Hall by (unfold sub; rewrite drop_0; apply take_ge; lia).
  rewrite <- Hall at 16.
  change 1260%nat with (1 + (1 + (1 + (1 + (4 + (2 + (2 + (4 + (4 + (4 + (4 + (16 + (64 + (128 + 1024))))))))))))))%nat.
  rewrite !sub_split. reflexivity.
Qed.

Lemma of_bytes_wf l : bytes l → length l = SIZEOF_DHCP_MSG → wf_msg (dhcp_msg_of_bytes l).
Proof.
  intros Hb Hl. unfold SIZEOF_DHCP_MSG in Hl.
  assert (Hs : ∀ off n, (off + n ≤ 1260)%nat → 0 ≤ le_load (sub off n l) < 256 ^ Z.of_nat n).
  { intros off n Ho. pose proof (le_load_bounds (sub off n l) (sub_bytes _ _ _ Hb)) as Hx.
    by rewrite length_sub in Hx by lia. }
  unfold dhcp_msg_of_bytes, CHADDR_LEN, SNAME_LEN, FILE_LEN, OPTIONS_LEN.
  split; cbn [op htype hlen hops xid secs flags ciaddr yiaddr siaddr giaddr chaddr sname file
    options]; try (apply Hs; lia);
    (split; [by apply sub_bytes|rewrite length_sub by lia; done]).
Qed.

(** ** The options writer *)
Lemma set_options_set o1 o2 m : set_options o1 (set_options o2 m) = set_options o1 m.
Proof. done. Qed.

Lemma patch_cons x v vs l :
  (x < length l)%nat → patch (S x) vs (<[x := v]> l) = patch x (v :: vs) l.
Proof.
  intros Hx. unfold patch. rewrite take_S_r with (x := v)
    by (apply list_lookup_insert_eq; lia).
  rewrite take_insert_ge by lia. rewrite drop_insert_lt by lia. cbn [length].
  replace (S x + length vs)%nat with (x + S (length vs))%nat by lia.
  by rewrite <- app_assoc.
Qed.

Lemma puts_spec vs m x :
  (x + length vs ≤ length (options m))%nat →
  puts vs (m, x) = Val (set_options (patch x (u8 <$> vs) (options m)) m, (x + length vs)%nat).
Proof.
  revert m x. induction vs as [|v vs IH]; intros m x Hlen; cbn [puts length fmap list_fmap].
  - unfold patch. cbn. rewrite Nat.add_0_r, take_drop. by destruct m.
  - cbn [length] in Hlen. unfold put. rewrite decide_True by lia. cbn.
    rewrite IH by (cbn; rewrite length_insert; lia). cbn [options set_options].
    rewrite patch_cons by lia. by rewrite Nat.add_succ_r.
Qed.

Lemma puts_app vs1 vs2 w : puts (vs1 ++ vs2) w = puts vs1 w ≫= puts vs2.
Proof.
  revert w. induction vs1 as [|v vs IH]; intros w; cbn [app puts]; [done|].
  destruct (put v w) as [w'|]; cbn; [apply IH|done].
Qed.

Lemma put_puts v w : put v w = puts [v] w.
Proof. cbn. by destruct (put v w). Qed.

Lemma puts_bind_put vs v (f : dhcp_msg * nat → outcome (dhcp_msg * Z)) w :
  (w ← puts vs w; w ← put v w; f w) = (w ← puts (vs ++ [v]) w; f w).
Proof.
  rewrite puts_app. destruct (puts vs w) as [w'|]; cbn; [|done].
  by destruct (put v w').
Qed.

Lemma puts_bind_puts vs1 vs2 (f : dhcp_msg * nat → outcome (dhcp_msg * Z)) w :
  (w ← puts vs1 w; w ← puts vs2 w; f w) = (w ← puts (vs1 ++ vs2) w; f w).
Proof. rewrite puts_app. by destruct (puts vs1 w). Qed.

Lemma u8_id z : is_u8 z → u8 z = z.
Proof. apply Z.mod_small. Qed.

Lemma fmap_u8_id l : bytes l → u8 <$> l = l.
Proof. induction 1 as [|b l Hb _ IH]; cbn; [done|]. by rewrite u8_id, IH. Qed.

(** The options a client message starts with. *)
Definition client_options (type : Z) : list Z :=
  [OPT_COOKIE1; OPT_COOKIE2; OPT_COOKIE3; OPT_COOKIE4; OPT_MESSAGE_TYPE; 1; type] ++
  parameter_list.

Definition request_options (ipaddr serveraddr : Z) : list Z :=
  [OPT_REQUESTED_IP; 4] ++ le_store 4 ipaddr ++ [OPT_SERVER_ID; 4] ++ le_store 4 serveraddr.

(** A client message with the given option bytes, the rest of the array zero. *)
Definition client_msg (hwaddr : list Z) (xid0 : Z) (opts : list Z) : dhcp_msg :=
  mk_dhcp_msg OP_BOOTREQUEST HTYPE_ETHER 6 0 xid0 0 (htons FLAGS_BROADCAST) 0 0 0 0
    (hwaddr ++ replicate 10 0) (replicate SNAME_LEN 0) (replicate FILE_LEN 0)
    (opts ++ replicate (OPTIONS_LEN - length opts) 0).

Lemma patch_zero opts n :
  (length opts ≤ n)%nat → patch 0 opts (replicate n 0) = opts ++ replicate (n - length opts) 0.
Proof. intros. unfold patch. cbn. by rewrite drop_replicate. Qed.

Lemma puts_client vs hwaddr xid0 opts :
  bytes vs → (length opts + length vs ≤ OPTIONS_LEN)%nat →
  puts vs (client_msg hwaddr xid0 opts, length opts) =
    Val (client_msg hwaddr xid0 (opts ++ vs), length (opts ++ vs)).
Proof.
  intros Hvs Hlen. rewrite puts_spec
    by (cbn [options client_msg]; rewrite length_app, length_replicate; lia).
  rewrite fmap_u8_id, length_app by done. unfold client_msg, set_options. cbn [options op htype
    hlen hops xid secs flags ciaddr yiaddr siaddr giaddr chaddr sname file].
  do 3 f_equal. unfold patch. rewrite take_app_length, length_app, <- app_assoc.
  rewrite drop_app_add, drop_replicate. do 3 f_equal. lia.
Qed.

Lemma init_dhcp_msg_client type hwaddr xid0 :
  bytes hwaddr → length hwaddr = 6%nat → is_u8 type →
  let o := [OPT_COOKIE1; OPT_COOKIE2; OPT_COOKIE3; OPT_COOKIE4; OPT_MESSAGE_TYPE; 1; type] in
  init_dhcp_msg type hwaddr xid0 = Val (client_msg hwaddr xid0 o, 7%nat).
Proof.
  intros Hb Hlen Ht o. unfold init_dhcp_msg, load. rewrite decide_True by lia. rewrite bind_Val.
  assert (sub 0 6 hwaddr = hwaddr) as -> by (unfold sub; by rewrite drop_0, take_ge by lia).
  rewrite <- (puts_app [_; _; _; _]).
  assert (patch 0 hwaddr (chaddr zero_msg) = hwaddr ++ replicate 10 0) as ->
    by (cbn [chaddr zero_msg]; rewrite patch_zero by (unfold CHADDR_LEN; lia); by rewrite Hlen).
  apply (puts_client o hwaddr xid0 []); [|cbn; unfold OPTIONS_LEN; lia].
  subst o. repeat (apply Forall_cons_2; [first [done | unfold is_u8; vm_compute; done]|]). done.
Qed.

Lemma client_msg_wf hwaddr xid0 opts :
  bytes hwaddr → length hwaddr = 6%nat → is_u32 xid0 →
  bytes opts → (length opts ≤ OPTIONS_LEN)%nat → wf_msg (client_msg hwaddr xid0 opts).
Proof.
  intros ? Hh ? ? ?. unfold CHADDR_LEN, SNAME_LEN, FILE_LEN, OPTIONS_LEN in *.
  split; cbn [client_msg op htype hlen hops xid secs flags ciaddr yiaddr siaddr giaddr
    chaddr sname file options];
    try (unfold is_u8, is_u16, is_u32, OP_BOOTREQUEST, HTYPE_ETHER; lia); auto with netutils.
  all: split; [repeat apply Forall_app_2; auto using zero_bytes|].
  all: rewrite ?length_app, ?length_replicate, ?Hh.
  all: unfold CHADDR_LEN, SNAME_LEN, FILE_LEN, OPTIONS_LEN; lia.
Qed.

Lemma opts_bytes type : is_u8 type → bytes (client_options type).
Proof.
  intros. unfold client_options, parameter_list. cbn [app].
  repeat (apply Forall_cons_2; [first [done | unfold is_u8; vm_compute; done]|]). done.
Qed.

Lemma request_bytes ip srv : bytes (request_options ip srv).
Proof.
  unfold request_options.
  repeat first [apply le_store_bytes | apply Forall_app_2];
  repeat (apply Forall_cons_2; [unfold is_u8; vm_compute; done|]); done.
Qed.

Lemma end_bytes : bytes [OPT_END].
Proof. repeat constructor; vm_compute; done. Qed.

Lemma init_dhcp_discover_msg_eq hwaddr xid0 :
  bytes hwaddr → length hwaddr = 6%nat →
  init_dhcp_discover_msg hwaddr xid0 =
    Val (client_msg hwaddr xid0 (client_options DHCPDISCOVER ++ [OPT_END]), 250).
Proof.
  intros Hb Hlen. unfold init_dhcp_discover_msg.
  rewrite init_dhcp_msg_client by (done || unfold is_u8, DHCPDISCOVER; lia). rewrite bind_Val.
  rewrite puts_bind_put. rewrite (puts_client (parameter_list ++ [OPT_END]) hwaddr xid0 [_;_;_;_;_;_;_]).
  - rewrite bind_Val. cbn [fst snd]. unfold client_options.
    rewrite <- app_assoc. reflexivity.
  - apply Forall_app_2; [|apply end_bytes].
    repeat (apply Forall_cons_2; [unfold is_u8; vm_compute; done|]). done.
  - unfold OPTIONS_LEN. cbn [length app parameter_list]. lia.
Qed.

Lemma init_dhcp_request_msg_eq hwaddr xid0 ip srv :
  bytes hwaddr → length hwaddr = 6%nat →
  init_dhcp_request_msg hwaddr xid0 ip srv =
    Val (client_msg hwaddr xid0
           (client_options DHCPREQUEST ++ request_options ip srv ++ [OPT_END]), 262).
Proof.
  intros Hb Hlen. unfold init_dhcp_request_msg.
  rewrite init_dhcp_msg_client by (done || unfold is_u8, DHCPREQUEST; lia). rewrite bind_Val.
  rewrite !puts_bind_puts, puts_bind_put.
  rewrite <- !(app_assoc parameter_list), <- (app_assoc [OPT_REQUESTED_IP; 4]).
  set (l := parameter_list ++ _).
  assert (Hl : bytes l).
  { subst l. repeat first [apply le_store_bytes | apply Forall_app_2];
    repeat (apply Forall_cons_2; [unfold is_u8; vm_compute; done|]); done. }
  assert (length l = 19%nat) as Hll
    by (subst l; rewrite !length_app; autorewrite with netlen; done).
  rewrite (puts_client l hwaddr xid0 [_;_;_;_;_;_;_]) by
    (done || (rewrite Hll; unfold OPTIONS_LEN; cbn [length]; lia)).
  rewrite bind_Val. cbn [fst snd]. rewrite length_app, Hll. subst l.
  unfold client_options, request_options. rewrite <- !app_assoc. done.
Qed.

(** [init_dhcp_discover_msg] builds a well-formed 250-byte BOOTREQUEST: the
    given transaction id and hardware address, the broadcast flag in network
    order, and as options the cookie, the message type DISCOVER, the parameter
    list and the end marker; no store leaves the options array. *)
Theorem discover_msg_correct hwaddr xid0 :
  bytes hwaddr → length hwaddr = 6%nat → is_u32 xid0 →
  ∃ m, init_dhcp_discover_msg hwaddr xid0 = Val (m, 250) ∧ wf_msg m ∧
    op m = OP_BOOTREQUEST ∧ xid m = xid0 ∧ ntohs (flags m) = FLAGS_BROADCAST ∧
    hlen m = 6 ∧ take 6 (chaddr m) = hwaddr ∧
    sub 0 14 (options m) = client_options DHCPDISCOVER ++ [OPT_END].
Proof.
  intros Hb Hlen Hx. eexists. split; [by apply init_dhcp_discover_msg_eq|].
  split; [|split_and!; try done].
  - apply client_msg_wf; try done; [|unfold OPTIONS_LEN; cbn [length app client_options parameter_list]; lia].
    apply Forall_app_2; [apply opts_bytes|apply end_bytes]. unfold is_u8, DHCPDISCOVER; lia.
  - cbn [chaddr client_msg]. by rewrite take_app_length'.
Qed.

Lemma discover_msg_correct_witness :
  ∃ m, init_dhcp_discover_msg [2; 0; 0; 0; 0; 1] 7000 = Val (m, 250) ∧ wf_msg m ∧
    op m = OP_BOOTREQUEST ∧ xid m = 7000 ∧ ntohs (flags m) = FLAGS_BROADCAST ∧
    hlen m = 6 ∧ take 6 (chaddr m) = [2; 0; 0; 0; 0; 1] ∧
    sub 0 14 (options m) = client_options DHCPDISCOVER ++ [OPT_END].
Proof. apply discover_msg_correct; [repeat constructor; done|done|done]. Defined.
End DhcpMsg.
