(* ===== verification/Packet.v ===== *)
(** * Raw packets (src/system/core/libnetutils/packet.c)

    The raw socket, the Internet checksum, the construction of the IP/UDP
    frame that carries a DHCP message, and the filter that extracts a DHCP
    message from a received frame. *)
From S2P Require Import Prelude Runtime DhcpMsg.
Import DhcpMsg.

Module Packet.

Definition PF_PACKET : Z := 17.
Definition AF_PACKET : Z := 17.
Definition SOCK_DGRAM : Z := 2.
Definition ETH_P_IP : Z := 0x0800.
Definition ETH_ALEN : Z := 6.
Definition IPVERSION : Z := 4.
Definition IPDEFTTL : Z := 64.
Definition IPPROTO_UDP : Z := 17.

(** struct iphdr and struct udphdr with their layout; the version/ihl bit
    fields share the first byte, ihl in the low half on little-endian. *)
Record iphdr := mk_iphdr {
  version : Z; ihl : Z; tos : Z; tot_len : Z; id : Z; frag_off : Z;
  ttl : Z; protocol : Z; check : Z; saddr : Z; daddr : Z
}.
Record udphdr := mk_udphdr { source : Z; dest : Z; len : Z; ucheck : Z }.

Definition SIZEOF_IPHDR : nat := 20.
Definition SIZEOF_UDPHDR : nat := 8.
(** sizeof(struct dhcp_packet) *)
Definition SIZEOF_PACKET : nat := SIZEOF_IPHDR + SIZEOF_UDPHDR + SIZEOF_DHCP_MSG.

Definition iphdr_bytes (h : iphdr) : list Z :=
  [ihl h + 16 * version h; tos h] ++ le_store 2 (tot_len h) ++ le_store 2 (id h) ++
  le_store 2 (frag_off h) ++ [ttl h; protocol h] ++ le_store 2 (check h) ++
  le_store 4 (saddr h) ++ le_store 4 (daddr h).

Definition udphdr_bytes (h : udphdr) : list Z :=
  le_store 2 (source h) ++ le_store 2 (dest h) ++ le_store 2 (len h) ++ le_store 2 (ucheck h).

Definition iphdr_of_bytes (l : list Z) : iphdr := {|
  version := le_load (sub 0 1 l) / 16; ihl := le_load (sub 0 1 l) mod 16;
  tos := le_load (sub 1 1 l); tot_len := le_load (sub 2 2 l); id := le_load (sub 4 2 l);
  frag_off := le_load (sub 6 2 l); ttl := le_load (sub 8 1 l);
  protocol := le_load (sub 9 1 l); check := le_load (sub 10 2 l);
  saddr := le_load (sub 12 4 l); daddr := le_load (sub 16 4 l)
|}.

Definition udphdr_of_bytes (l : list Z) : udphdr := {|
  source := le_load (sub 0 2 l); dest := le_load (sub 2 2 l);
  len := le_load (sub 4 2 l); ucheck := le_load (sub 6 2 l)
|}.

Definition set_check (c : Z) (h : iphdr) : iphdr :=
  mk_iphdr (version h) (ihl h) (tos h) (tot_len h) (id h) (frag_off h) (ttl h)
    (protocol h) c (saddr h) (daddr h).
Definition set_ucheck (c : Z) (h : udphdr) : udphdr :=
  mk_udphdr (source h) (dest h) (len h) c.

(** ** Checksum *)

(** The first two loops of [checksum]: 16-bit little-endian words, then the odd
    byte, added into a 32-bit accumulator. *)
Fixpoint sum_words (buf : list Z) (sum : Z) : Z :=
  match buf with
  | b0 :: b1 :: rest => sum_words rest (u32 (sum + (b0 + 256 * b1)))
  | [b] => u32 (sum + b)
  | [] => sum
  end.

(** The carry loop [while ((upper16 = (sum >> 16)) != 0)]; the bound on the
    iterations is discharged by [fold_carry_exits]. *)
Fixpoint fold_carry (fuel : nat) (sum : Z) : Z :=
  match fuel with
  | O => sum
  | S fuel' =>
      let upper16 := Z.shiftr sum 16 in
      if upper16 =? 0 then sum
      else fold_carry fuel' (u32 (Z.land sum 0xffff + upper16))
  end.

Definition checksum (buffer : list Z) (count : nat) (startsum : Z) : outcome Z :=
  b ← load 0 count buffer;
  Val (fold_carry 3 (sum_words b startsum)).

(** [~sum & 0xffff] on a 32-bit value *)
Definition finish_sum (sum : Z) : Z := Z.land (u32 (Z.lnot sum)) 0xffff.

(** ** Building a frame *)

(** The headers [send_packet] computes for a message of [size] bytes. *)
Definition send_ip (size src dst : Z) : outcome iphdr :=
  let ip := mk_iphdr IPVERSION 5 0 (htons (u16 (20 + 8 + size))) 0 0 IPDEFTTL
              IPPROTO_UDP 0 src dst in
  c ← checksum (iphdr_bytes ip) SIZEOF_IPHDR 0;
  Val (set_check (finish_sum c) ip).

Definition send_udp (ip : iphdr) (msg : dhcp_msg) (size sport dport : Z) : outcome udphdr :=
  let udp := mk_udphdr (htons (u16 sport)) (htons (u16 dport)) (htons (u16 (8 + size))) 0 in
  udpsum ← checksum (le_store 4 (saddr ip)) 4 0;
  udpsum ← checksum (le_store 4 (daddr ip)) 4 udpsum;
  udpsum ← checksum (le_store 2 (htons IPPROTO_UDP)) 2 udpsum;
  udpsum ← checksum (le_store 2 (len udp)) 2 udpsum;
  udpsum ← checksum (udphdr_bytes udp) SIZEOF_UDPHDR udpsum;
  udpsum ← checksum (dhcp_msg_bytes msg) (Z.to_nat size) udpsum;
  Val (set_ucheck (finish_sum udpsum) udp).

(** The three buffers of the iovec, gathered. *)
Definition send_frame (msg : dhcp_msg) (size src dst sport dport : Z) : outcome (list Z) :=
  ip ← send_ip size src dst;
  udp ← send_udp ip msg size sport dport;
  data ← load 0 (Z.to_nat size) (dhcp_msg_bytes msg);
  Val (iphdr_bytes ip ++ udphdr_bytes udp ++ data).

Definition broadcast_ll (if_index : Z) : sockaddr_ll :=
  mk_sockaddr_ll AF_PACKET (htons ETH_P_IP) if_index ETH_ALEN
    [255; 255; 255; 255; 255; 255].

(** ** Filtering a frame *)

(** What [receive_packet] decides about the [nread] bytes read into [packet]. *)
Definition is_valid (nread : Z) (packet : list Z) : bool :=
  let ip := iphdr_of_bytes packet in
  let udp := udphdr_of_bytes (drop SIZEOF_IPHDR packet) in
  if nread <? 20 + 8 then false
  else if negb (version ip =? IPVERSION) || negb (ihl ip =? 5) then false
  else if nread <? ntohs (tot_len ip) then false
  else if negb (protocol ip =? IPPROTO_UDP) then false
  else if negb (dest udp =? htons PORT_BOOTP_CLIENT) then false
  else true.

(** The IP header "borrowed" as pseudo header, over the UDP checksum field. *)
Definition pseudo_packet (packet : list Z) : list Z :=
  let ip := iphdr_of_bytes packet in
  let udp := udphdr_of_bytes (drop SIZEOF_IPHDR packet) in
  let ip' := mk_iphdr 0 0 0 (len udp) 0 0 0 IPPROTO_UDP 0 (saddr ip) (daddr ip) in
  patch 26 [0; 0] (patch 0 (iphdr_bytes ip') packet).

(** The filter of [receive_packet] on the bytes of [packet] after the read:
    [None] for a rejected frame, else [dhcp_size]; the copy of [dhcp_size] bytes
    into [msg] is undefined when it leaves the message. *)
Definition filter_packet (nread : Z) (packet : list Z) (msg : dhcp_msg)
    : outcome (option (Z * dhcp_msg)) :=
  if negb (is_valid nread packet) then Val None else
  let ip := iphdr_of_bytes packet in
  let udp := udphdr_of_bytes (drop SIZEOF_IPHDR packet) in
  c ← checksum packet SIZEOF_IPHDR 0;
  if negb (finish_sum c =? 0) then Val None else
  let dhcp_size := i32 (ntohs (len udp) - 8) in
  c ← checksum (pseudo_packet packet) (Z.to_nat (ntohs (tot_len ip))) 0;
  let sum := finish_sum c in
  let sum := if sum =? 0 then finish_sum sum else sum in
  if negb (ucheck udp =? sum) then Val None else
  _ ← guard_ub ((0 <=? dhcp_size) && (dhcp_size <=? Z.of_nat SIZEOF_DHCP_MSG));
  Val (Some (dhcp_size,
    dhcp_msg_of_bytes (patch 0 (sub 28 (Z.to_nat dhcp_size) packet) (dhcp_msg_bytes msg)))).

(** The stack object [packet] after [read]: the bytes read over its previous
    (indeterminate, here arbitrary) contents. *)
Definition packet_after_read (stack data : list Z) : list Z :=
  patch 0 (take SIZEOF_PACKET data) stack.

Section Calls.
Context `{Env}.

Definition open_raw_socket (hwaddr : list Z) (if_index : Z) : M Z :=
  s ← call_ret (Socket PF_PACKET SOCK_DGRAM (htons ETH_P_IP));
  if s <? 0 then fatal "socket(PF_PACKET)" else
  hw ← lift (load 0 6 hwaddr);
  r ← call_ret (Bind s (mk_sockaddr_ll AF_PACKET (htons ETH_P_IP) if_index ETH_ALEN hw));
  if r <? 0 then fatal "Cannot bind raw socket to interface" else mret s.

Definition send_packet (s if_index : Z) (msg : dhcp_msg) (size src dst sport dport : Z) : M Z :=
  frame ← lift (send_frame msg size src dst sport dport);
  call_ret (Sendmsg s (broadcast_ll if_index) frame).

(** Returns the size or -1, and the message buffer after the call. *)
Definition receive_packet (s : Z) (stack : list Z) (msg : dhcp_msg) : M (Z * dhcp_msg) :=
  r ← call (Read s SIZEOF_PACKET);
  if ret r <? 0 then mret (-1, msg) else
  f ← lift (filter_packet (ret r) (packet_after_read stack (out r)) msg);
  match f with
  | None => mret (-1, msg)
  | Some (n, msg') => mret (n, msg')
  end.
End Calls.

(** ** The checksum as one's complement arithmetic *)

(** The sum of the 16-bit words of a buffer, and the representative of a sum
    modulo 65535 that end-around carry produces: 0 only for the zero sum. *)
Fixpoint words (buf : list Z) : Z :=
  match buf with
  | b0 :: b1 :: rest => b0 + 256 * b1 + words rest
  | [b] => b
  | [] => 0
  end.

Definition ones_norm (s : Z) : Z := if s =? 0 then 0 else (s - 1) mod 65535 + 1.

Lemma pair_ind (P : list Z → Prop) :
  P [] → (∀ b, P [b]) → (∀ b0 b1 l, P l → P (b0 :: b1 :: l)) → ∀ l, P l.
Proof.
  intros H0 H1 H2. fix IH 1. intros [|b0 [|b1 l]]; [done|apply H1|apply H2, IH].
Qed.

Lemma words_bounds buf :
  bytes buf → 0 ≤ words buf ≤ 32768 * (Z.of_nat (length buf) + 1).
Proof.
  induction buf as [|b|b0 b1 l IH] using pair_ind; cbn [words length].
  - lia.
  - intros Hb%Forall_cons_1. unfold is_u8 in Hb. lia.
  - intros [Hb [Hb1 Hl]%Forall_cons_1]%Forall_cons_1. specialize (IH Hl). unfold is_u8 in *. lia.
Qed.

Lemma sum_words_eq buf s :
  bytes buf → 0 ≤ s → s + words buf < 4294967296 → sum_words buf s = s + words buf.
Proof.
  revert s. induction buf as [|b|b0 b1 l IH] using pair_ind; cbn [words sum_words];
    intros s Hbuf Hs Hlt.
  - lia.
  - apply Forall_cons_1 in Hbuf as [Hb _]. unfold is_u8, u32 in *. apply Z.mod_small. lia.
  - apply Forall_cons_1 in Hbuf as [Hb [Hb1 Hl]%Forall_cons_1].
    pose proof (words_bounds l Hl). unfold is_u8 in *.
    assert (u32 (s + (b0 + 256 * b1)) = s + (b0 + 256 * b1)) as -> by (apply Z.mod_small; lia).
    rewrite IH by (done || lia). lia.
Qed.

Lemma words_app a b : Nat.even (length a) = true → words (a ++ b) = words a + words b.
Proof.
  induction a as [|x|b0 b1 l IH] using pair_ind; cbn [words length app]; try done.
  cbn [Nat.even]. intros Hl. rewrite IH by done. lia.
Qed.

Lemma ones_norm_bounds s : 0 ≤ s → 0 ≤ ones_norm s ≤ 65535.
Proof. unfold ones_norm. split_guards. pose proof (Z.mod_pos_bound (s - 1) 65535). lia. Qed.

Lemma ones_norm_small s : 0 ≤ s ≤ 65535 → ones_norm s = s.
Proof. unfold ones_norm. intros. split_guards. rewrite Z.mod_small; lia. Qed.

Lemma ones_norm_shift s k : 0 < s → 0 < s + 65535 * k → ones_norm (s + 65535 * k) = ones_norm s.
Proof.
  unfold ones_norm. intros. split_guards.
  replace (s + 65535 * k - 1) with (s - 1 + k * 65535) by lia.
  by rewrite Z_mod_plus_full.
Qed.

Lemma ones_norm_decomp s : 0 < s → ∃ k, s = ones_norm s + 65535 * k ∧ 0 < ones_norm s.
Proof.
  intros. exists ((s - 1) / 65535). unfold ones_norm. split_guards.
  pose proof (Z.div_mod (s - 1) 65535). pose proof (Z.mod_pos_bound (s - 1) 65535). lia.
Qed.

Lemma ones_norm_add a b : 0 ≤ a → 0 ≤ b → ones_norm (ones_norm a + b) = ones_norm (a + b).
Proof.
  intros Ha Hb. destruct (decide (a = 0)) as [->|Hne]; [done|].
  destruct (ones_norm_decomp a) as (k & Hk & Hpos); [lia|].
  rewrite Hk at 2. replace (ones_norm a + 65535 * k + b) with (ones_norm a + b + 65535 * k) by lia.
  symmetry. apply ones_norm_shift; lia.
Qed.

Lemma land_ffff x : Z.land x 0xffff = x mod 65536.
Proof. apply (Z.land_ones x 16). lia. Qed.

(** One iteration of the carry loop keeps the representative. *)
Lemma carry_step s :
  0 ≤ s < 4294967296 →
  u32 (Z.land s 0xffff + Z.shiftr s 16) = s mod 65536 + s / 65536.
Proof.
  intros. rewrite land_ffff, Z.shiftr_div_pow2 by lia. change (2 ^ 16) with 65536.
  pose proof (Z.mod_pos_bound s 65536). pose proof (Z.div_pos s 65536).
  assert (s / 65536 < 65536) by (apply Z.div_lt_upper_bound; lia).
  apply Z.mod_small. lia.
Qed.

Lemma carry_norm s : 0 ≤ s → ones_norm (s mod 65536 + s / 65536) = ones_norm s.
Proof.
  intros. pose proof (Z.div_mod s 65536). pose proof (Z.mod_pos_bound s 65536).
  pose proof (Z.div_pos s 65536).
  destruct (decide (s = 0)) as [->|]; [done|].
  replace s with (s mod 65536 + s / 65536 + 65535 * (s / 65536)) at 3 by lia.
  symmetry. apply ones_norm_shift; lia.
Qed.

(** The loop exits within the three tests its fuel allows, with all carries
    folded in. *)
Lemma fold_carry_exits s :
  0 ≤ s < 4294967296 → fold_carry 3 s = ones_norm s ∧ Z.shiftr (fold_carry 3 s) 16 = 0.
Proof.
  intros Hs.
  assert (Hstop : ∀ fuel t, 0 ≤ t < 65536 → fold_carry (S fuel) t = t).
  { intros fuel t Ht. cbn. rewrite Z.shiftr_div_pow2, Z.div_small by (cbn; lia). done. }
  assert (Hgo : ∀ fuel t, 65536 ≤ t < 4294967296 →
            fold_carry (S fuel) t = fold_carry fuel (t mod 65536 + t / 65536)).
  { intros fuel t Ht. cbn [fold_carry]. rewrite carry_step by lia.
    rewrite Z.shiftr_div_pow2 by lia. change (2 ^ 16) with 65536.
    pose proof (Z.div_le_lower_bound t 65536 1). split_guards. }
  assert (fold_carry 3 s = ones_norm s) as ->.
  { destruct (decide (s < 65536)); [rewrite Hstop by lia; symmetry; apply ones_norm_small; lia|].
    rewrite Hgo by lia. rewrite <- (carry_norm s) by lia.
    set (t := s mod 65536 + s / 65536).
    assert (0 ≤ t < 131071) as Ht.
    { pose proof (Z.mod_pos_bound s 65536). pose proof (Z.div_pos s 65536).
      assert (s / 65536 < 65536) by (apply Z.div_lt_upper_bound; lia). lia. }
    destruct (decide (t < 65536)); [rewrite Hstop by lia; symmetry; apply ones_norm_small; lia|].
    rewrite Hgo by lia. rewrite <- (carry_norm t) by lia.
    assert (0 ≤ t mod 65536 + t / 65536 < 65536).
    { pose proof (Z.div_mod t 65536). pose proof (Z.mod_pos_bound t 65536).
      assert (t / 65536 = 1) by (symmetry; apply (Z.div_unique_pos _ _ _ (t - 65536)); lia). lia. }
    rewrite Hstop by lia. symmetry; apply ones_norm_small; lia. }
  split; [done|]. pose proof (ones_norm_bounds s).
  rewrite Z.shiftr_div_pow2 by lia. apply Z.div_small. cbn; lia.
Qed.

Lemma finish_sum_eq n : 0 ≤ n ≤ 65535 → finish_sum n = 65535 - n.
Proof.
  intros. unfold finish_sum, u32. rewrite land_ffff. unfold Z.lnot.
  replace (Z.pred (- n)) with (4294967295 - n + (-1) * 4294967296) by lia.
  rewrite Z_mod_plus_full, (Z.mod_small _ 4294967296) by lia.
  replace (4294967295 - n) with (65535 - n + 65535 * 65536) by lia.
  rewrite Z_mod_plus_full. apply Z.mod_small. lia.
Qed.

Lemma checksum_eq buffer count startsum :
  bytes buffer → (count ≤ length buffer)%nat → Z.of_nat count ≤ 65535 →
  0 ≤ startsum ≤ 65535 →
  checksum buffer count startsum = Val (ones_norm (startsum + words (take count buffer))).
Proof.
  intros Hb Hc Hmax Hs. unfold checksum.
  assert (load 0 count buffer = Val (take count buffer)) as ->
    by (apply load_Val; unfold sub; rewrite drop_0; split; [lia|done]).
  rewrite bind_Val. pose proof (words_bounds (take count buffer) (Forall_take _ _ _ Hb)) as Hw.
  rewrite length_take in Hw.
  rewrite sum_words_eq by (try apply Forall_take; auto; lia).
  f_equal. apply fold_carry_exits. lia.
Qed.

(** ** Header images *)
Record wf_ip (h : iphdr) : Prop := mk_wf_ip {
  wf_version : 0 ≤ version h < 16; wf_ihl : 0 ≤ ihl h < 16; wf_tos : is_u8 (tos h);
  wf_tot_len : is_u16 (tot_len h); wf_id : is_u16 (id h); wf_frag_off : is_u16 (frag_off h);
  wf_ttl : is_u8 (ttl h); wf_protocol : is_u8 (protocol h); wf_check : is_u16 (check h);
  wf_saddr : is_u32 (saddr h); wf_daddr : is_u32 (daddr h)
}.
Record wf_udp (h : udphdr) : Prop := mk_wf_udp {
  wf_source : is_u16 (source h); wf_dest : is_u16 (dest h);
  wf_len : is_u16 (len h); wf_ucheck : is_u16 (ucheck h)
}.

Lemma length_iphdr h : length (iphdr_bytes h) = SIZEOF_IPHDR.
Proof. done. Qed.
Lemma length_udphdr h : length (udphdr_bytes h) = SIZEOF_UDPHDR.
Proof. done. Qed.

Lemma iphdr_bytes_bytes h : wf_ip h → bytes (iphdr_bytes h).
Proof.
  intros []. unfold iphdr_bytes.
  repeat (apply le_store_bytes || apply Forall_app_2 || apply Forall_cons_2 || apply Forall_nil_2);
    unfold is_u8 in *; lia.
Qed.

Lemma udphdr_bytes_bytes h : bytes (udphdr_bytes h).
Proof. unfold udphdr_bytes. repeat (apply le_store_bytes || apply Forall_app_2). Qed.

(** Reading back a field image at the head of a buffer, or past it. *)
Ltac fields :=
  repeat (first [rewrite sub_app_here by (autorewrite with netlen; done)
                |rewrite sub_app_skip by (autorewrite with netlen; cbn; lia)];
          autorewrite with netlen; cbn [length Nat.sub]).

Lemma iphdr_of_bytes_app h r : wf_ip h → iphdr_of_bytes (iphdr_bytes h ++ r) = h.
Proof.
  intros []. destruct h as [v i t tl d f tt p c sa da]. cbn in *.
  unfold iphdr_of_bytes, iphdr_bytes. cbn [version ihl tos tot_len id frag_off ttl protocol check
    saddr daddr].
  rewrite <- !app_assoc. cbn [app]. rewrite <- !app_assoc.
  change (i + 16 * v :: t :: ?l) with ([i + 16 * v] ++ [t] ++ l).
  change (tt :: p :: ?l) with ([tt] ++ [p] ++ l).
  fields. rewrite !le_load_1.
  f_equal; try done; try (by apply le_load_store_id);
    rewrite (Z.mul_comm 16); [rewrite Z.div_add, Z.div_small by lia|rewrite Z_mod_plus_full, Z.mod_small by lia]; lia.
Qed.

Lemma udphdr_of_bytes_app h r : wf_udp h → udphdr_of_bytes (udphdr_bytes h ++ r) = h.
Proof.
  intros []. destruct h as [s d l c]. cbn in *. unfold udphdr_of_bytes, udphdr_bytes.
  cbn [source dest len ucheck]. rewrite <- !app_assoc. fields.
  f_equal; by apply le_load_store_id.
Qed.

Lemma words_le2 x : is_u16 x → words (le_store 2 x) = x.
Proof.
  intros Hx. unfold is_u16, le_store in *. cbn [words].
  pose proof (Z.div_mod x 256). assert ((x / 256) mod 256 = x / 256) as ->
    by (apply Z.mod_small; split; [apply Z.div_pos; lia|apply Z.div_lt_upper_bound; lia]). lia.
Qed.

(** Header sums: the checksum field contributes its value. *)
Lemma words_iphdr h :
  is_u16 (check h) → words (iphdr_bytes h) = words (iphdr_bytes (set_check 0 h)) + check h.
Proof.
  intros Hc. unfold iphdr_bytes. cbn [set_check version ihl tos tot_len id frag_off ttl protocol
    check saddr daddr].
  rewrite !(words_app [_; _]), !(words_app (le_store 2 _)) by done.
  rewrite !(words_app [_; _]), !(words_app (le_store 2 _)) by done.
  rewrite !(words_le2 (check h)) by done. change (words (le_store 2 0)) with 0. lia.
Qed.

Lemma words_udphdr h :
  is_u16 (ucheck h) → words (udphdr_bytes h) = words (udphdr_bytes (set_ucheck 0 h)) + ucheck h.
Proof.
  intros Hc. unfold udphdr_bytes. cbn [set_ucheck source dest len ucheck].
  rewrite !(words_app (le_store 2 _)) by done.
  rewrite !(words_le2 (ucheck h)) by done. change (words (le_store 2 0)) with 0. lia.
Qed.

(** ** Frames built by [send_packet] *)
Section Frames.
Context (msg : dhcp_msg) (size src dst sport dport : Z).
Context (Hmsg : wf_msg msg) (Hsize : 0 ≤ size ≤ Z.of_nat SIZEOF_DHCP_MSG).
Context (Hsrc : is_u32 src) (Hdst : is_u32 dst).

Definition frame_ip : iphdr :=
  mk_iphdr IPVERSION 5 0 (htons (u16 (20 + 8 + size))) 0 0 IPDEFTTL IPPROTO_UDP 0 src dst.
Definition frame_udp : udphdr :=
  mk_udphdr (htons (u16 sport)) (htons (u16 dport)) (htons (u16 (8 + size))) 0.
Definition frame_data : list Z := take (Z.to_nat size) (dhcp_msg_bytes msg).

(** The sum the UDP checksum covers: pseudo header, header, payload. *)
Definition frame_udp_sum : Z :=
  words (le_store 4 src) + words (le_store 4 dst) + words (le_store 2 (htons IPPROTO_UDP)) +
  words (le_store 2 (len frame_udp)) + words (udphdr_bytes frame_udp) + words frame_data.

Lemma frame_ip_wf : wf_ip frame_ip.
Proof. split; cbn; auto with netutils; unfold_widths; vm_compute; intuition congruence. Qed.
Lemma frame_udp_wf c : is_u16 c → wf_udp (set_ucheck c frame_udp).
Proof. intros. split; cbn; auto with netutils. Qed.

Lemma words_nonneg l : bytes l → 0 ≤ words l.
Proof. intros H. by pose proof (words_bounds l H) as []. Qed.

Lemma data_bytes : bytes frame_data.
Proof. apply Forall_take, msg_bytes_bytes, Hmsg. Qed.
Lemma length_data : length frame_data = Z.to_nat size.
Proof. unfold frame_data. rewrite length_take, length_msg_bytes by done. lia. Qed.

Lemma send_ip_eq :
  send_ip size src dst =
    Val (set_check (65535 - ones_norm (words (iphdr_bytes frame_ip))) frame_ip).
Proof.
  unfold send_ip. fold frame_ip. pose proof (iphdr_bytes_bytes _ frame_ip_wf).
  rewrite checksum_eq by (rewrite ?length_iphdr; unfold SIZEOF_IPHDR; done || lia).
  rewrite bind_Val, take_ge, Z.add_0_l by (rewrite length_iphdr; lia).
  rewrite finish_sum_eq by (apply ones_norm_bounds, words_nonneg; done). done.
Qed.

(** One [checksum] call of the UDP chain. *)
Lemma checksum_chain buf n (w : Z) :
  bytes buf → length buf = n → Z.of_nat n ≤ 65535 → 0 ≤ w →
  checksum buf n (ones_norm w) = Val (ones_norm (w + words buf)).
Proof.
  intros Hb Hn Hmax Hw. pose proof (ones_norm_bounds w Hw).
  rewrite checksum_eq, take_ge by (done || lia). f_equal. apply ones_norm_add; [done|].
  by apply words_nonneg.
Qed.

Lemma send_udp_eq c :
  send_udp (set_check c frame_ip) msg size sport dport =
    Val (set_ucheck (65535 - ones_norm frame_udp_sum) frame_udp).
Proof.
  unfold send_udp. cbn [saddr daddr set_check frame_ip]. fold frame_udp.
  pose proof (udphdr_bytes_bytes frame_udp) as Hu. pose proof data_bytes as Hd.
  assert (Hs : ∀ n x, 0 ≤ words (le_store n x)) by (intros; apply words_nonneg, le_store_bytes).
  pose proof (words_nonneg _ Hu). pose proof (words_nonneg _ Hd).
  pose proof (Hs 4%nat src). pose proof (Hs 4%nat dst).
  pose proof (Hs 2%nat (htons IPPROTO_UDP)). pose proof (Hs 2%nat (len frame_udp)).
  change 0 with (ones_norm 0) at 1.
  do 5 (rewrite checksum_chain by (done || apply le_store_bytes || lia); rewrite bind_Val).
  rewrite checksum_eq
    by (try apply msg_bytes_bytes; try apply ones_norm_bounds; rewrite ?length_msg_bytes by done;
        unfold SIZEOF_DHCP_MSG in *; done || lia).
  rewrite bind_Val. fold frame_data. rewrite ones_norm_add by lia.
  rewrite finish_sum_eq by (apply ones_norm_bounds; lia).
  unfold frame_udp_sum. done.
Qed.

Definition sent_ip : iphdr :=
  set_check (65535 - ones_norm (words (iphdr_bytes frame_ip))) frame_ip.
Definition sent_udp : udphdr := set_ucheck (65535 - ones_norm frame_udp_sum) frame_udp.

Lemma send_frame_eq :
  send_frame msg size src dst sport dport =
    Val (iphdr_bytes sent_ip ++ udphdr_bytes sent_udp ++ frame_data).
Proof.
  unfold send_frame. rewrite send_ip_eq, bind_Val, send_udp_eq, bind_Val.
  assert (load 0 (Z.to_nat size) (dhcp_msg_bytes msg) = Val frame_data) as ->.
  { apply load_Val. rewrite length_msg_bytes by done. unfold sub. rewrite drop_0.
    split; [lia|done]. }
  done.
Qed.

Lemma ones_norm_verify w : 0 < w → ones_norm (w + (65535 - ones_norm w)) = 65535.
Proof.
  intros Hw. destruct (ones_norm_decomp w Hw) as (k & Hk & Hpos).
  pose proof (ones_norm_bounds w). rewrite Hk at 1.
  replace (ones_norm w + 65535 * k + (65535 - ones_norm w)) with (65535 + 65535 * k) by lia.
  rewrite ones_norm_shift by lia. by rewrite ones_norm_small by lia.
Qed.

Lemma check_u16 w : 0 ≤ w → is_u16 (65535 - ones_norm w).
Proof. intros. pose proof (ones_norm_bounds w). unfold is_u16. lia. Qed.

Lemma frame_ip_positive : 0 < words (iphdr_bytes frame_ip).
Proof.
  pose proof (iphdr_bytes_bytes _ frame_ip_wf) as Hb. unfold iphdr_bytes in *.
  rewrite words_app by done. apply Forall_app in Hb as [_ Hb].
  pose proof (words_nonneg _ Hb).
  change (words [ihl frame_ip + 16 * version frame_ip; tos frame_ip]) with 69. lia.
Qed.

Lemma frame_udp_sum_nonneg : 0 ≤ frame_udp_sum.
Proof.
  unfold frame_udp_sum.
  pose proof (words_nonneg _ (udphdr_bytes_bytes frame_udp)). pose proof (words_nonneg _ data_bytes).
  assert (Hs : ∀ n x, 0 ≤ words (le_store n x)) by (intros; apply words_nonneg, le_store_bytes).
  pose proof (Hs 4%nat src). pose proof (Hs 4%nat dst).
  pose proof (Hs 2%nat (htons IPPROTO_UDP)). pose proof (Hs 2%nat (len frame_udp)). lia.
Qed.

Lemma sent_ip_wf : wf_ip sent_ip.
Proof.
  destruct frame_ip_wf. split; try done. apply check_u16.
  apply words_nonneg, iphdr_bytes_bytes, frame_ip_wf.
Qed.
Lemma sent_udp_wf : wf_udp sent_udp.
Proof. apply frame_udp_wf, check_u16, frame_udp_sum_nonneg. Qed.

(** The transmitted header verifies: its one's complement sum is all ones. *)
Lemma sent_ip_verifies : ones_norm (words (iphdr_bytes sent_ip)) = 65535.
Proof.
  pose proof sent_ip_wf as Hw. rewrite words_iphdr by apply Hw.
  change (set_check 0 sent_ip) with frame_ip.
  change (check sent_ip) with (65535 - ones_norm (words (iphdr_bytes frame_ip))).
  apply ones_norm_verify, frame_ip_positive.
Qed.

(** The header [receive_packet] rebuilds to check the UDP sum. *)
Definition pseudo_ip : iphdr :=
  mk_iphdr 0 0 0 (len frame_udp) 0 0 0 IPPROTO_UDP 0 src dst.

Lemma words_pseudo_ip :
  words (iphdr_bytes pseudo_ip) =
    words (le_store 4 src) + words (le_store 4 dst) + words (le_store 2 (htons IPPROTO_UDP)) +
    words (le_store 2 (len frame_udp)).
Proof.
  unfold iphdr_bytes. cbn [pseudo_ip version ihl tos tot_len id frag_off ttl protocol check saddr daddr].
  rewrite !(words_app [_; _]), !(words_app (le_store 2 _)) by done.
  rewrite !(words_app [_; _]), !(words_app (le_store 2 _)), (words_app (le_store 4 _)) by done.
  change (words (le_store 2 0)) with 0. change (words (le_store 2 (htons IPPROTO_UDP))) with 4352.
  cbn [words]. change IPPROTO_UDP with 17. lia.
Qed.

(** A received object that starts with the transmitted frame. *)
Definition frame : list Z := iphdr_bytes sent_ip ++ udphdr_bytes sent_udp ++ frame_data.

Lemma length_frame : length frame = (28 + Z.to_nat size)%nat.
Proof.
  unfold frame. rewrite !length_app, length_iphdr, length_udphdr, length_data. done.
Qed.

Lemma ntohs_frame_len n : 0 ≤ n + size < 65536 → ntohs (htons (u16 (n + size))) = n + size.
Proof.
  intros. unfold u16. rewrite Z.mod_small by lia. apply ntohs_htons. unfold is_u16. lia.
Qed.

Lemma frame_pseudo_packet rest :
  pseudo_packet (frame ++ rest) =
    (iphdr_bytes pseudo_ip ++ udphdr_bytes frame_udp ++ frame_data) ++ rest.
Proof.
  unfold pseudo_packet, frame. rewrite <- !app_assoc.
  rewrite iphdr_of_bytes_app by apply sent_ip_wf.
  rewrite drop_app_length' by done. rewrite udphdr_of_bytes_app by apply sent_udp_wf.
  change (saddr sent_ip) with src. change (daddr sent_ip) with dst.
  change (len sent_udp) with (len frame_udp). fold pseudo_ip.
  match goal with |- context [patch 0 ?n (iphdr_bytes sent_ip ++ ?r)] =>
    change (patch 0 n (iphdr_bytes sent_ip ++ r)) with (patch 0 n ([] ++ iphdr_bytes sent_ip ++ r));
    rewrite (patch_app 0 n [] (iphdr_bytes sent_ip) r) by done end.
  rewrite app_nil_l.
  unfold udphdr_bytes. cbn [sent_udp set_ucheck source dest len ucheck frame_udp].
  rewrite <- !app_assoc.
  pose proof (patch_app 26 [0; 0] (iphdr_bytes pseudo_ip ++ le_store 2 (htons (u16 sport)) ++
    le_store 2 (htons (u16 dport)) ++ le_store 2 (htons (u16 (8 + size))))
    (le_store 2 (65535 - ones_norm frame_udp_sum)) (frame_data ++ rest)) as Hp.
  rewrite <- !app_assoc in Hp. apply Hp; done.
Qed.

Lemma words_pseudo_frame :
  words (iphdr_bytes pseudo_ip ++ udphdr_bytes frame_udp ++ frame_data) = frame_udp_sum.
Proof.
  rewrite words_app, words_app, words_pseudo_ip by done. unfold frame_udp_sum. lia.
Qed.

Lemma frame_bytes : bytes frame.
Proof.
  apply Forall_app_2; [apply iphdr_bytes_bytes, sent_ip_wf|].
  apply Forall_app_2; [apply udphdr_bytes_bytes|apply data_bytes].
Qed.

(** What [receive_packet] reads out of a transmitted frame. *)
Lemma frame_read_ip rest : iphdr_of_bytes (frame ++ rest) = sent_ip.
Proof. unfold frame. rewrite <- !app_assoc. apply iphdr_of_bytes_app, sent_ip_wf. Qed.

Lemma frame_read_udp rest : udphdr_of_bytes (drop SIZEOF_IPHDR (frame ++ rest)) = sent_udp.
Proof.
  unfold frame. rewrite <- !app_assoc, drop_app_length' by done.
  apply udphdr_of_bytes_app, sent_udp_wf.
Qed.

Lemma sent_tot_len : ntohs (tot_len sent_ip) = 28 + size.
Proof. unfold SIZEOF_DHCP_MSG in Hsize. apply (ntohs_frame_len (20 + 8)). lia. Qed.
Lemma sent_len : ntohs (len sent_udp) = 8 + size.
Proof. unfold SIZEOF_DHCP_MSG in Hsize. apply ntohs_frame_len. lia. Qed.

Lemma frame_is_valid rest :
  dport = PORT_BOOTP_CLIENT → is_valid (Z.of_nat (length frame)) (frame ++ rest) = true.
Proof.
  intros Hport. unfold is_valid. rewrite frame_read_ip, frame_read_udp, sent_tot_len, length_frame.
  change (version sent_ip) with IPVERSION. change (ihl sent_ip) with 5.
  change (protocol sent_ip) with IPPROTO_UDP. change (dest sent_udp) with (htons (u16 dport)).
  rewrite Hport. cbn [negb orb Z.eqb].
  change (htons (u16 PORT_BOOTP_CLIENT) =? htons PORT_BOOTP_CLIENT) with true. split_guards.
Qed.

Lemma pseudo_frame_bytes : bytes (iphdr_bytes pseudo_ip ++ udphdr_bytes frame_udp ++ frame_data).
Proof.
  apply Forall_app_2; [apply iphdr_bytes_bytes|apply Forall_app_2;
    [apply udphdr_bytes_bytes|apply data_bytes]].
  split; cbn; auto with netutils; unfold_widths; vm_compute; intuition congruence.
Qed.
Lemma length_pseudo_frame :
  length (iphdr_bytes pseudo_ip ++ udphdr_bytes frame_udp ++ frame_data) = Z.to_nat (28 + size).
Proof.
  rewrite !length_app, length_iphdr, length_udphdr, length_data.
  unfold SIZEOF_IPHDR, SIZEOF_UDPHDR. lia.
Qed.

(** The filter on a transmitted frame: everything but the UDP checksum test is
    decided. *)
Lemma filter_frame rest msg0 :
  dport = PORT_BOOTP_CLIENT → bytes rest →
  filter_packet (Z.of_nat (length frame)) (frame ++ rest) msg0 =
    if ucheck sent_udp =? 0 then Val None
    else Val (Some (size, dhcp_msg_of_bytes (patch 0 frame_data (dhcp_msg_bytes msg0)))).
Proof.
  intros Hport Hrest. unfold filter_packet.
  rewrite frame_is_valid, frame_read_ip, frame_read_udp, sent_tot_len, sent_len by done. cbn [negb].
  unfold SIZEOF_DHCP_MSG in Hsize. pose proof frame_bytes. pose proof pseudo_frame_bytes.
  rewrite (checksum_eq (frame ++ rest)); [|by apply Forall_app_2
    |rewrite length_app, length_frame; unfold SIZEOF_IPHDR; lia|unfold SIZEOF_IPHDR; lia|lia].
  rewrite bind_Val, Z.add_0_l.
  assert (take SIZEOF_IPHDR (frame ++ rest) = iphdr_bytes sent_ip) as ->
    by (unfold frame; rewrite <- !app_assoc; by apply take_app_length').
  rewrite sent_ip_verifies, finish_sum_eq by lia. cbn [Z.sub Z.eqb negb Z.pos_sub Pos.pred_double].
  rewrite frame_pseudo_packet, checksum_eq; [|by apply Forall_app_2
    |rewrite length_app, length_pseudo_frame; lia|lia|lia].
  pose proof (ones_norm_bounds frame_udp_sum frame_udp_sum_nonneg).
  rewrite bind_Val, Z.add_0_l, take_app_length', words_pseudo_frame, finish_sum_eq
    by (rewrite ?length_pseudo_frame; done || lia).
  change (ucheck sent_udp) with (65535 - ones_norm frame_udp_sum).
  destruct (Z.eqb_spec (65535 - ones_norm frame_udp_sum) 0) as [->|Hne]; [done|].
  replace (i32 (8 + size - 8)) with size by (unfold i32; rewrite Z.mod_small by lia; lia).
  assert ((0 <=? size) && (size <=? Z.of_nat SIZEOF_DHCP_MSG) = true) as ->
    by (apply andb_true_intro; split; apply Z.leb_le; unfold SIZEOF_DHCP_MSG; lia).
  cbn [guard_ub]. rewrite bind_Val, !Z.eqb_refl. cbn [negb].
  do 5 f_equal. unfold frame, sub. rewrite <- !app_assoc.
  rewrite app_assoc, drop_app_length' by done. apply take_app_length'. by rewrite length_data.
Qed.
End Frames.

Lemma packet_after_read_frame stack data :
  length stack = SIZEOF_PACKET → (length data ≤ SIZEOF_PACKET)%nat →
  packet_after_read stack data = data ++ drop (length data) stack.
Proof.
  intros Hs Hd. unfold packet_after_read, patch. rewrite (take_ge data), take_0 by done.
  reflexivity.
Qed.

(** What the filter accepts, stated on sums rather than on the checksum code. *)
Definition sums_ok (packet : list Z) : Prop :=
  ones_norm (words (take SIZEOF_IPHDR packet)) = 65535 ∧
  let total := Z.to_nat (ntohs (tot_len (iphdr_of_bytes packet))) in
  let c := 65535 - ones_norm (words (take total (pseudo_packet packet))) in
  ucheck (udphdr_of_bytes (drop SIZEOF_IPHDR packet)) = if c =? 0 then 65535 else c.

#[global] Instance sums_ok_dec packet : Decision (sums_ok packet).
Proof. unfold sums_ok. apply _. Defined.

Lemma length_pseudo_packet packet :
  length packet = SIZEOF_PACKET → length (pseudo_packet packet) = SIZEOF_PACKET.
Proof.
  intros Hl. unfold pseudo_packet. set (h := mk_iphdr _ _ _ _ _ _ _ _ _ _ _).
  assert (length (patch 0 (iphdr_bytes h) packet) = SIZEOF_PACKET) as Hp.
  { rewrite length_patch; [done|]. rewrite length_iphdr, Hl.
    unfold SIZEOF_PACKET, SIZEOF_IPHDR, SIZEOF_UDPHDR, SIZEOF_DHCP_MSG. lia. }
  rewrite length_patch; [done|]. rewrite Hp. cbn [length].
  unfold SIZEOF_PACKET, SIZEOF_IPHDR, SIZEOF_UDPHDR, SIZEOF_DHCP_MSG. lia.
Qed.

Lemma pseudo_packet_bytes packet : bytes packet → length packet = SIZEOF_PACKET → bytes (pseudo_packet packet).
Proof.
  intros Hb Hl. unfold pseudo_packet. apply patch_bytes; [by repeat constructor|].
  apply patch_bytes; [|done]. apply iphdr_bytes_bytes. unfold SIZEOF_PACKET, SIZEOF_IPHDR,
    SIZEOF_UDPHDR, SIZEOF_DHCP_MSG in *.
  assert (Hs : ∀ k n l, bytes l → (k + n ≤ length l)%nat → 0 ≤ le_load (sub k n l) < 256 ^ Z.of_nat n).
  { intros k n l Hbl Hk. pose proof (le_load_bounds (sub k n l) (sub_bytes _ _ _ Hbl)) as Hx.
    by rewrite length_sub in Hx. }
  split; cbn; try (unfold_widths; unfold IPPROTO_UDP; lia); apply Hs; try done; try lia;
    [by apply Forall_drop|rewrite length_drop; lia].
Qed.

Lemma valid_tot_len nread packet :
  is_valid nread packet = true → ntohs (tot_len (iphdr_of_bytes packet)) ≤ nread.
Proof. unfold is_valid. intros Hv. repeat case_match; zbool; done || lia. Qed.

Lemma ntohs_bounds z : 0 ≤ ntohs z < 65536.
Proof. apply htons_u16. Qed.

Lemma words_take_norm n l : bytes l → 0 ≤ ones_norm (words (take n l)) ≤ 65535.
Proof. intros Hl. by apply ones_norm_bounds, words_nonneg, Forall_take. Qed.

(** The substitution of 0xffff for a zero UDP sum. *)
Lemma zero_sum_complement c :
  0 ≤ c ≤ 65535 →
  (if 65535 - c =? 0 then finish_sum (65535 - c) else 65535 - c) =
  (if 65535 - c =? 0 then 65535 else 65535 - c).
Proof. intros. by destruct (Z.eqb_spec (65535 - c) 0) as [->|]. Qed.

(** The filter, decided: rejected, copied, or an out-of-range copy. *)
Lemma filter_packet_eq nread packet msg :
  bytes packet → length packet = SIZEOF_PACKET → nread ≤ Z.of_nat SIZEOF_PACKET →
  let dhcp_size := ntohs (len (udphdr_of_bytes (drop SIZEOF_IPHDR packet))) - 8 in
  filter_packet nread packet msg =
    if decide (is_valid nread packet = true ∧ sums_ok packet) then
      if decide (0 ≤ dhcp_size ≤ Z.of_nat SIZEOF_DHCP_MSG) then
        Val (Some (dhcp_size, dhcp_msg_of_bytes
          (patch 0 (sub 28 (Z.to_nat dhcp_size) packet) (dhcp_msg_bytes msg))))
      else UB
    else Val None.
Proof.
  intros Hb Hl Hn dhcp_size. unfold filter_packet.
  destruct (is_valid nread packet) eqn:Hv; cbn [negb]; [|by rewrite decide_False by naive_solver].
  pose proof (valid_tot_len _ _ Hv). pose proof (ntohs_bounds (tot_len (iphdr_of_bytes packet))).
  pose proof (ntohs_bounds (len (udphdr_of_bytes (drop SIZEOF_IPHDR packet)))).
  rewrite (checksum_eq packet); [|done|rewrite Hl; unfold SIZEOF_PACKET, SIZEOF_IPHDR; lia|done|lia].
  pose proof (words_take_norm SIZEOF_IPHDR packet Hb). rewrite bind_Val, Z.add_0_l, finish_sum_eq by lia.
  destruct (Z.eqb_spec (65535 - ones_norm (words (take SIZEOF_IPHDR packet))) 0) as [He|He]; cbn [negb];
    [|rewrite decide_False; [done|intros [_ [Hx _]]; lia]].
  pose proof (pseudo_packet_bytes _ Hb Hl) as Hpb.
  rewrite (checksum_eq (pseudo_packet packet)); [|done|rewrite length_pseudo_packet by done; lia|lia|lia].
  rewrite bind_Val, Z.add_0_l. pose proof (words_take_norm
    (Z.to_nat (ntohs (tot_len (iphdr_of_bytes packet)))) _ Hpb).
  set (w := words (take _ (pseudo_packet packet))) in *.
  rewrite (finish_sum_eq (ones_norm w)), zero_sum_complement by lia.
  destruct (Z.eqb_spec (ucheck (udphdr_of_bytes (drop SIZEOF_IPHDR packet)))
    (if 65535 - ones_norm w =? 0 then 65535 else 65535 - ones_norm w)) as [Hc|Hc]; cbn [negb];
    [|rewrite decide_False; [done|intros [_ [_ Hx]]; done]].
  rewrite decide_True by (split; [done|split; [lia|done]]).
  replace (i32 _) with dhcp_size by (unfold i32; rewrite Z.mod_small; subst dhcp_size; lia).
  case_decide as Hd.
  - assert ((0 <=? dhcp_size) && (dhcp_size <=? Z.of_nat SIZEOF_DHCP_MSG) = true) as ->
      by (apply andb_true_intro; split; apply Z.leb_le; lia). done.
  - assert ((0 <=? dhcp_size) && (dhcp_size <=? Z.of_nat SIZEOF_DHCP_MSG) = false) as ->
      by (apply andb_false_iff; rewrite !Z.leb_gt; lia). done.
Qed.

(** ** Properties *)

(** [checksum] computes the one's complement sum: for every buffer of at
    most 65535 bytes and 16-bit start value it terminates with a 16-bit value
    congruent to the sum of the buffer's 16-bit words modulo 65535, and this
    value is zero only when everything summed is zero. *)
Theorem checksum_correct buffer count startsum :
  bytes buffer → (count ≤ length buffer)%nat → Z.of_nat count ≤ 65535 → is_u16 startsum →
  ∃ c, checksum buffer count startsum = Val c ∧ is_u16 c ∧
    c mod 65535 = (startsum + words (take count buffer)) mod 65535 ∧
    (c = 0 ↔ startsum + words (take count buffer) = 0).
Proof.
  intros Hb Hc Hm Hs. unfold is_u16 in *. eexists. rewrite checksum_eq by (done || lia).
  split; [done|]. pose proof (words_nonneg _ (Forall_take _ count _ Hb)) as Hn.
  set (w := startsum + _) in *. pose proof (ones_norm_bounds w ltac:(lia)).
  split; [lia|]. destruct (decide (w = 0)) as [->|Hne]; [done|].
  destruct (ones_norm_decomp w) as (k & Hk & Hpos); [lia|]. split; [|lia].
  rewrite Hk at 2. by rewrite (Z.mul_comm 65535), Z_mod_plus_full.
Qed.

Lemma checksum_correct_witness :
  ∃ c, checksum [1; 2; 3] 3 7 = Val c ∧ is_u16 c ∧
    c mod 65535 = (7 + words (take 3 [1; 2; 3])) mod 65535 ∧
    (c = 0 ↔ 7 + words (take 3 [1; 2; 3]) = 0).
Proof. apply checksum_correct; [repeat constructor; done|cbn; lia|done|done]. Defined.

(** [send_packet] makes exactly one sendmsg call, to the broadcast link
    address, with a frame of 28 + size bytes whose IP header verifies (its
    one's complement sum is all ones), whose total length and UDP length
    fields are the real ones, and whose payload is the first [size] bytes of
    the message; it returns the result of sendmsg. *)
Theorem send_packet_correct `{Env} s if_index msg size src dst sport dport st :
  wf_msg msg → 0 ≤ size ≤ Z.of_nat SIZEOF_DHCP_MSG → is_u32 src → is_u32 dst →
  wp (send_packet s if_index msg size src dst sport dport) (λ r st',
    ∃ frame resp, trace st' = trace st ++ [(Sendmsg s (broadcast_ll if_index) frame, resp)] ∧
      r = ret resp ∧ Z.of_nat (length frame) = 28 + size ∧
      ones_norm (words (take SIZEOF_IPHDR frame)) = 65535 ∧
      ntohs (tot_len (iphdr_of_bytes frame)) = 28 + size ∧
      ntohs (len (udphdr_of_bytes (drop SIZEOF_IPHDR frame))) = 8 + size ∧
      drop 28 frame = take (Z.to_nat size) (dhcp_msg_bytes msg)) st.
Proof.
  intros Hm Hsz Hs Hd. unfold send_packet. apply wp_bind.
  eapply wp_lift; [by apply send_frame_eq|]. wp_steps.
  fold (frame msg size src dst sport dport). eexists _, _. split_and!; [done|done|..].
  - rewrite length_frame by done. lia.
  - unfold frame. rewrite take_app_length' by done. by apply sent_ip_verifies.
  - rewrite <- (app_nil_r (frame _ _ _ _ _ _)), frame_read_ip by done. by apply sent_tot_len.
  - rewrite <- (app_nil_r (frame _ _ _ _ _ _)), frame_read_udp by done. by apply sent_len.
  - unfold frame. by rewrite app_assoc, drop_app_length'.
Qed.

(** A message for the concrete runs. *)
Definition sample_msg : dhcp_msg :=
  client_msg [2; 0; 0; 0; 0; 1] 0x01020304 (client_options DHCPDISCOVER ++ [OPT_END]).

Lemma sample_msg_wf : wf_msg sample_msg.
Proof.
  apply client_msg_wf; [by repeat constructor|done|done| |unfold OPTIONS_LEN; cbn [length app
    client_options parameter_list]; lia].
  apply Forall_app_2; [apply opts_bytes; done|apply end_bytes].
Qed.

Lemma send_packet_correct_witness :
  let E := scripted0 [resp 278] in
  wp (@send_packet E 5 3 sample_msg 250 0 0xffffffff 68 67) (λ r st',
    ∃ frame resp, trace st' = trace initial_state ++ [(Sendmsg 5 (broadcast_ll 3) frame, resp)] ∧
      r = ret resp ∧ Z.of_nat (length frame) = 28 + 250 ∧
      ones_norm (words (take SIZEOF_IPHDR frame)) = 65535 ∧
      ntohs (tot_len (iphdr_of_bytes frame)) = 28 + 250 ∧
      ntohs (len (udphdr_of_bytes (drop SIZEOF_IPHDR frame))) = 8 + 250 ∧
      drop 28 frame = take (Z.to_nat 250) (dhcp_msg_bytes sample_msg)) initial_state.
Proof.
  intros E. apply send_packet_correct; [apply sample_msg_wf|unfold SIZEOF_DHCP_MSG; lia|done|done].
Defined.

(** Round trip: a frame built for the DHCP client port and read back whole is
    delivered with its size and its first [size] bytes, unless its UDP checksum
    came out as zero: such a frame is rejected (the code transmits the zero
    instead of 0xffff, and expects 0xffff on receipt). *)
Theorem send_receive_roundtrip `{Env} fd msg msg0 size src dst sport stack frame st :
  wf_msg msg → wf_msg msg0 → 0 ≤ size ≤ Z.of_nat SIZEOF_DHCP_MSG → is_u32 src → is_u32 dst →
  bytes stack → length stack = SIZEOF_PACKET →
  send_frame msg size src dst sport PORT_BOOTP_CLIENT = Val frame →
  kern (trace st) (Read fd SIZEOF_PACKET) =
    mk_response (Z.of_nat (length frame)) None frame [] →
  wp (receive_packet fd stack msg0) (λ '(n, m) _,
    if ucheck (udphdr_of_bytes (drop SIZEOF_IPHDR frame)) =? 0 then n = -1 ∧ m = msg0
    else n = size ∧ wf_msg m ∧
      take (Z.to_nat size) (dhcp_msg_bytes m) = take (Z.to_nat size) (dhcp_msg_bytes msg)) st.
Proof.
  intros Hm Hm0 Hsz Hs Hd Hst Hl Hf Hk.
  set (f := Packet.frame msg size src dst sport PORT_BOOTP_CLIENT).
  assert (frame = f) as ->.
  { assert (Val frame = Val f) as Heq by (rewrite <- Hf; by apply send_frame_eq). congruence. }
  unfold receive_packet. apply wp_bind, wp_call. rewrite Hk. cbn [ret out].
  assert (length f = (28 + Z.to_nat size)%nat) as Hlf by (by apply length_frame).
  assert (Hle : (length f ≤ SIZEOF_PACKET)%nat)
    by (rewrite Hlf; unfold SIZEOF_PACKET, SIZEOF_IPHDR, SIZEOF_UDPHDR, SIZEOF_DHCP_MSG in *; lia).
  rewrite (proj2 (Z.ltb_ge _ _)) by lia. apply wp_bind.
  rewrite packet_after_read_frame by done. rewrite (filter_frame msg size src dst sport PORT_BOOTP_CLIENT)
    by (done || by apply Forall_drop).
  assert (ucheck (udphdr_of_bytes (drop SIZEOF_IPHDR f)) =
          ucheck (sent_udp msg size src dst sport PORT_BOOTP_CLIENT)) as ->
    by (rewrite <- (app_nil_r f); unfold f; by rewrite frame_read_udp).
  destruct (_ =? 0); [done|]. eapply wp_lift; [reflexivity|]. apply wp_ret.
  assert (Hdl := length_data msg size Hm Hsz). pose proof (data_bytes msg size Hm) as Hdb.
  pose proof (length_msg_bytes _ Hm0) as Hl0. pose proof (msg_bytes_bytes _ Hm0) as Hb0.
  assert (Hpl : length (patch 0 (frame_data msg size) (dhcp_msg_bytes msg0)) = SIZEOF_DHCP_MSG).
  { rewrite length_patch; [done|]. rewrite Hdl, Hl0. unfold SIZEOF_DHCP_MSG in *. lia. }
  split_and!; [done|apply of_bytes_wf; [by apply patch_bytes|done]|].
  rewrite bytes_of_bytes by (done || by apply patch_bytes).
  unfold patch. rewrite take_0, app_nil_l, take_app_length' by done. done.
Qed.

Definition sample_stack : list Z := replicate SIZEOF_PACKET 170.
Definition sample_frame : list Z :=
  match send_frame sample_msg 250 0 0xffffffff 67 PORT_BOOTP_CLIENT with Val f => f | UB => [] end.

Lemma send_receive_roundtrip_witness :
  let E := scripted0 [resp_out (Z.of_nat (length sample_frame)) sample_frame] in
  wp (@receive_packet E 5 sample_stack zero_msg) (λ '(n, m) _,
    if ucheck (udphdr_of_bytes (drop SIZEOF_IPHDR sample_frame)) =? 0 then n = -1 ∧ m = zero_msg
    else n = 250 ∧ wf_msg m ∧
      take (Z.to_nat 250) (dhcp_msg_bytes m) = take (Z.to_nat 250) (dhcp_msg_bytes sample_msg)) initial_state.
Proof.
  intros E. apply (@send_receive_roundtrip E 5 sample_msg zero_msg 250 0 0xffffffff 67).
  - apply sample_msg_wf.
  - assert (H : ∀ n, bytes (replicate n 0) ∧ length (replicate n 0) = n)
      by (intros n; split; [apply zero_bytes|apply length_replicate]).
    split; try apply H; done.
  - unfold SIZEOF_DHCP_MSG. lia.
  - done.
  - done.
  - apply Forall_replicate. done.
  - apply length_replicate.
  - vm_compute. reflexivity.
  - reflexivity.
Defined.

(** ** The frames for the client, byte by byte *)

Definition byte_at (p : list Z) (k : nat) : Z := default 0 (p !! k).
(** the number with its high byte at [k] *)
Definition short_at (p : list Z) (k : nat) : Z := 256 * byte_at p k + byte_at p (S k).
(** IPv4 with a header of 20 bytes, all of it read, UDP, to port 68 *)
Definition for_client (nread : Z) (p : list Z) : Prop :=
  28 ≤ nread ∧ byte_at p 0 = 0x45 ∧ short_at p 2 ≤ nread ∧ byte_at p 9 = 17 ∧ short_at p 22 = 68.
(** UDP length, protocol and addresses where the IP header was, the UDP header with a
    zero checksum, and the data *)
Definition pseudo_bytes (p : list Z) : list Z :=
  [0; 0] ++ sub 24 2 p ++ [0; 0; 0; 0; 0; 17; 0; 0] ++ sub 12 8 p ++ sub 20 6 p ++ [0; 0] ++ drop 28 p.
(** The sum of the IP header is all ones, and the UDP checksum is the complement of the
    sum over the pseudo header and the datagram, all ones for zero. *)
Definition sums_verify (p : list Z) : Prop :=
  ones_norm (words (take 20 p)) = 65535 ∧
  let c := 65535 - ones_norm (words (take (Z.to_nat (short_at p 2)) (pseudo_bytes p))) in
  byte_at p 26 + 256 * byte_at p 27 = if c =? 0 then 65535 else c.
#[global] Instance for_client_dec nread p : Decision (for_client nread p).
Proof. unfold for_client. apply _. Defined.
#[global] Instance sums_verify_dec p : Decision (sums_verify p).
Proof. unfold sums_verify. apply _. Defined.

Lemma split_packet p : bytes p → length p = SIZEOF_PACKET →
  ∃ b rest, length b = 28%nat ∧ p = b ++ rest ∧ bytes b.
Proof.
  intros Hb Hl. exists (take 28 p), (drop 28 p). rewrite take_drop, length_take, Hl. split_and!; [|done|by apply Forall_take].
  unfold SIZEOF_PACKET, SIZEOF_IPHDR, SIZEOF_UDPHDR, SIZEOF_DHCP_MSG. lia.
Qed.
(** the first 28 bytes by name *)
Ltac name_bytes Hb Hl :=
  let b := fresh "b" in let rest := fresh "rest" in let H28 := fresh in let Hbb := fresh in
  destruct (split_packet _ Hb Hl) as (b & rest & H28 & -> & Hbb); clear Hb Hl;
  do 28 (destruct b as [|? b]; [done|apply Forall_cons in Hbb as [? Hbb]]); destruct b; [|done]; clear H28 Hbb.
Lemma htons_pair a b : is_u8 a → is_u8 b → htons (le_load [a; b]) = 256 * a + b.
Proof. unfold is_u8. intros Ha Hb. unfold htons. change 2%nat with (length [a; b]). rewrite le_store_load by (apply Forall_cons_2; [done|]; apply Forall_cons_2; [done|]; apply Forall_nil_2). change (reverse [a; b]) with [b; a]. change (le_load [b; a]) with (b + 256 * (a + 256 * 0)). lia. Qed.
Lemma load_byte b : le_load [b] = b.
Proof. change (b + 256 * 0 = b). lia. Qed.
Lemma load_short a b : le_load [a; b] = a + 256 * b.
Proof. change (a + 256 * (b + 256 * 0) = a + 256 * b). lia. Qed.
Lemma is_valid_spec nread p : bytes p → length p = SIZEOF_PACKET → is_valid nread p = true ↔ for_client nread p.
Proof.
  intros Hb Hl. name_bytes Hb Hl. unfold is_valid, for_client, short_at, byte_at, IPVERSION, IPPROTO_UDP, ntohs.
  cbn [iphdr_of_bytes udphdr_of_bytes version ihl tot_len protocol dest sub drop take app lookup list_lookup default SIZEOF_IPHDR].
  rewrite htons_pair by done. change (htons PORT_BOOTP_CLIENT) with 17408. rewrite !load_byte, load_short. unfold is_u8, Datatypes.id in *.
  pose proof (Z.div_mod z 16 ltac:(lia)). pose proof (Z.mod_pos_bound z 16 ltac:(lia)).
  repeat match goal with
    | |- context [?a <? ?b] => destruct (Z.ltb_spec a b)
    | |- context [?a =? ?b] => destruct (Z.eqb_spec a b)
    end; cbn [negb orb]; (split; [try done; intros _; repeat split; lia|intros (? & ? & ? & ? & ?); done || lia]).
Qed.
Lemma pseudo_packet_spec p : bytes p → length p = SIZEOF_PACKET → pseudo_packet p = pseudo_bytes p.
Proof.
  intros Hb Hl. name_bytes Hb Hl. unfold pseudo_packet, iphdr_bytes, pseudo_bytes, IPPROTO_UDP.
  cbn [iphdr_of_bytes udphdr_of_bytes version ihl tos tot_len id frag_off ttl protocol check saddr daddr len sub drop take app SIZEOF_IPHDR].
  assert (Hs : ∀ l n, length l = n → bytes l → le_store n (le_load l) = l) by (intros l n <-; apply le_store_load).
  rewrite !Hs by (done || (repeat (apply Forall_cons_2; [done|]); apply Forall_nil_2)). reflexivity.
Qed.
Lemma sums_ok_spec p : bytes p → length p = SIZEOF_PACKET → sums_ok p ↔ sums_verify p.
Proof.
  intros Hb Hl. unfold sums_ok, sums_verify. rewrite pseudo_packet_spec by done.
  assert (ntohs (tot_len (iphdr_of_bytes p)) = short_at p 2 ∧
    ucheck (udphdr_of_bytes (drop SIZEOF_IPHDR p)) = byte_at p 26 + 256 * byte_at p 27) as [-> ->]; [|done].
  name_bytes Hb Hl. split; [by apply htons_pair|apply load_short].
Qed.
Lemma udp_len_spec p : bytes p → length p = SIZEOF_PACKET → ntohs (len (udphdr_of_bytes (drop SIZEOF_IPHDR p))) = short_at p 24.
Proof. intros Hb Hl. name_bytes Hb Hl. by apply htons_pair. Qed.

(** C16. [receive_packet] on a read that respects read(2) delivers exactly the frames
    that are IPv4 with a header of 20 bytes (first byte 0x45), read to their total
    length, with the protocol byte 17 and the destination port 68, and whose IP and
    UDP checksums verify, with dhcp_size = UDP length - 8; it leaves the message alone
    and returns -1 on every other frame and on a failed read; and its only undefined
    behaviour is the copy of an accepted frame whose UDP length is outside 8..1268. *)
Theorem receive_packet_outcome `{Env} fd stack msg st :
  let r := kern (trace st) (Read fd SIZEOF_PACKET) in
  let packet := packet_after_read stack (out r) in
  let st' := record_event (Read fd SIZEOF_PACKET) r st in
  let udp_len := short_at packet 24 in
  bytes stack → length stack = SIZEOF_PACKET →
  (0 ≤ ret r → ret r = Z.of_nat (length (out r)) ∧ ret r ≤ Z.of_nat SIZEOF_PACKET ∧ bytes (out r)) →
  receive_packet fd stack msg st =
    if decide (0 ≤ ret r ∧ for_client (ret r) packet ∧ sums_verify packet) then
      if decide (8 ≤ udp_len ≤ 1268) then
        Val (udp_len - 8, dhcp_msg_of_bytes
               (patch 0 (sub 28 (Z.to_nat (udp_len - 8)) packet) (dhcp_msg_bytes msg)), st')
      else UB
    else Val (-1, msg, st').
Proof.
  intros r packet st' udp_len Hb Hl Hr. unfold receive_packet, mbind, M_bind, call. fold r st'.
  destruct (Z.ltb_spec (ret r) 0) as [Hneg|Hpos].
  { rewrite decide_False by lia. done. }
  destruct (Hr Hpos) as (Hret & Hmax & Hbo). fold packet.
  assert (Hpack : packet = out r ++ drop (length (out r)) stack)
    by (apply packet_after_read_frame; [done|lia]).
  assert (Hpb : bytes packet) by (rewrite Hpack; apply Forall_app_2; [done|by apply Forall_drop]).
  assert (Hpl : length packet = SIZEOF_PACKET)
    by (rewrite Hpack, length_app, length_drop, Hl; lia).
  unfold lift. rewrite filter_packet_eq, udp_len_spec by done. fold udp_len.
  rewrite (decide_ext _ (for_client (ret r) packet ∧ sums_verify packet)) by (by rewrite is_valid_spec, sums_ok_spec).
  destruct (decide (for_client (ret r) packet ∧ sums_verify packet)) as [Ha|Ha];
    [rewrite (decide_True (P := 0 ≤ ret r ∧ _)) by (split; [lia|done])
    |by rewrite decide_False by (intros [_ ?]; done)].
  destruct (decide (8 ≤ udp_len ≤ 1268)) as [Hu|Hu].
  - by rewrite decide_True by (unfold SIZEOF_DHCP_MSG; lia).
  - by rewrite decide_False by (unfold SIZEOF_DHCP_MSG; lia).
Qed.

(** The same frame with a UDP length field of [n] and matching checksums. *)
Definition forged_frame (n : Z) : list Z :=
  let ip0 := mk_iphdr 4 5 0 (htons 28) 0 0 64 17 0 0x0100007f 0xffffffff in
  let ip := set_check (65535 - ones_norm (words (iphdr_bytes ip0))) ip0 in
  let udp0 := mk_udphdr (htons 67) (htons 68) (htons n) 0 in
  let p0 := mk_iphdr 0 0 0 (htons n) 0 0 0 17 0 0x0100007f 0xffffffff in
  iphdr_bytes ip ++ udphdr_bytes
    (set_ucheck (65535 - ones_norm (words (iphdr_bytes p0 ++ udphdr_bytes udp0))) udp0).

Lemma receive_packet_outcome_witness :
  let E := scripted0 [resp_out (Z.of_nat (length sample_frame)) sample_frame] in
  ∃ m st', @receive_packet E 5 sample_stack zero_msg initial_state = Val (250, m, st').
Proof.
  intros E. pose proof (@receive_packet_outcome E 5 sample_stack zero_msg initial_state) as H.
  cbn zeta in H. rewrite H; clear H.
  - rewrite decide_True by (vm_compute; done). rewrite decide_True by (vm_compute; done).
    eexists _, _. vm_compute. reflexivity.
  - apply Forall_replicate. done.
  - apply length_replicate.
  - intros _. split_and!; [reflexivity|vm_compute; discriminate|].
    apply (frame_bytes sample_msg 250 0 0xffffffff 67 PORT_BOOTP_CLIENT sample_msg_wf); done.
Defined.

(** The length check is missing: a 28-byte frame whose UDP length field says
    2000 passes every test of [receive_packet] and is then copied past the end
    of the 1260-byte message. *)
Theorem receive_packet_overflow :
  let E := scripted0 [resp_out 28 (forged_frame 2000)] in
  @receive_packet E 5 sample_stack zero_msg initial_state = UB.
Proof. vm_compute. reflexivity. Qed.
End Packet.
