(* ===== verification/IfcUtils.v ===== *)
(** * Interface control (src/system/core/libnetutils/ifc_utils.c)

    Netmask arithmetic and the operations that configure network interfaces
    through ioctl, netlink, /proc and netd. *)
From S2P Require Import Prelude Runtime.

(** The flags of netutils/ifc.h, which is not part of this tree, and the build
    option that selects the body of ifc_reset_connection_by_uid. *)
Class IfcHeader := {
  RESET_IPV4_ADDRESSES : Z;
  RESET_IPV6_ADDRESSES : Z;
  RESET_IGNORE_INTERFACE_ADDRESS : Z;
  HAVE_ANDROID_OS : bool
}.

Module IfcUtils.

Definition AF_UNIX : Z := 1.
Definition AF_INET : Z := 2.
Definition AF_INET6 : Z := 10.
Definition SOCK_STREAM : Z := 1.
Definition SOCK_DGRAM : Z := 2.
Definition SOCK_RAW : Z := 3.
Definition SOCK_CLOEXEC : Z := 0x80000.
Definition SIOCADDRT : Z := 0x890b.
Definition SIOCDELRT : Z := 0x890c.
Definition SIOCGIFFLAGS : Z := 0x8913.
Definition SIOCSIFFLAGS : Z := 0x8914.
Definition SIOCGIFADDR : Z := 0x8915.
Definition SIOCSIFADDR : Z := 0x8916.
Definition SIOCGIFNETMASK : Z := 0x891b.
Definition SIOCSIFNETMASK : Z := 0x891c.
Definition SIOCSIFHWADDR : Z := 0x8924.
Definition SIOCGIFHWADDR : Z := 0x8927.
Definition SIOCGIFINDEX : Z := 0x8933.
Definition SIOCKILLADDR : Z := 0x8939.
Definition SIOCKILLSOCK : Z := 0x893a.
Definition SIOCSTXQSTATE : Z := 0x89f0.
Definition SIOCSCCMNICFG : Z := 0x89f1.
Definition IFF_UP : Z := 1.
Definition IFF_ALLMULTI : Z := 0x200.
Definition RTF_UP : Z := 1.
Definition RTF_GATEWAY : Z := 2.
Definition RTF_HOST : Z := 4.
Definition ARPHRD_ETHER : Z := 1.
Definition EFAULT : Z := 14.
Definition EEXIST : Z := 17.
Definition EINVAL : Z := 22.
Definition EAFNOSUPPORT : Z := 97.

(** ** Netmasks *)
Definition prefixLengthToIpv4Netmask (prefix_length : Z) : Z :=
  if (prefix_length <=? 0) || (32 <? prefix_length) then 0
  else htonl (u32 (Z.shiftl (u32 (Z.lnot 0)) (32 - prefix_length))).

(** [while (m & 0x80000000) { prefixLength++; m = m << 1; }]; a 32-bit value is
    zero after 32 shifts, so 33 tests are enough. *)
Fixpoint leading_ones (fuel : nat) (m prefixLength : Z) : Z :=
  match fuel with
  | O => prefixLength
  | S fuel' =>
      if Z.land m 0x80000000 =? 0 then prefixLength
      else leading_ones fuel' (u32 (Z.shiftl m 1)) (prefixLength + 1)
  end.

Definition ipv4NetmaskToPrefixLength (mask : Z) : Z := leading_ones 33 (ntohl mask) 0.

Definition ipaddr_to_string (addr : Z) : string := inet_ntoa addr.

(** ** Request structures *)
Definition IFNAMSIZ : nat := 16.
Definition zero_sockaddr : list Z := replicate 16 0.

Definition ifc_init_ifr (name : string) : ifreq :=
  mk_ifreq (String.substring 0 (IFNAMSIZ - 1) name) zero_sockaddr.

(** Writes family, port and address; the last 8 bytes keep their value. *)
Definition init_sockaddr_in (addr : Z) (sa : list Z) : list Z :=
  patch 0 (le_store 2 AF_INET ++ le_store 2 0 ++ le_store 4 addr) sa.
Definition sin_addr (sa : list Z) : Z := le_load (sub 4 4 sa).
Definition with_ifru (u : list Z) (r : ifreq) : ifreq := mk_ifreq (ifr_name r) u.

Section Ifc.
Context `{Env} `{IfcHeader}.

(** The result and *ss; [None] for a null pointer. *)
Definition string_to_ip (host : string) (ss : option (list Z)) : M (Z * option (list Z)) :=
  match ss with
  | None => mret (- EFAULT, None)
  | Some old =>
      r ← call (Getaddrinfo host);
      mret (ret r, Some (if ret r =? 0 then patch 0 (take 128 (out r)) old else old))
  end.

(** ** The control sockets and their locks *)
Definition ifc_init : M Z :=
  call_ (MutexLock ifc_sock_mutex) ;;
  s ← get_state ifc_ctl_sock;
  (if s =? -1 then
     fd ← call_ret (Socket AF_INET (Z.lor SOCK_DGRAM SOCK_CLOEXEC) 0);
     modify (set_ifc_ctl_sock fd) ;;
     if fd <? 0 then e ← get_state errno;
       printerr ("socket() failed: " +:+ strerror e +:+ newline) else mret tt
   else mret tt) ;;
  s ← get_state ifc_ctl_sock;
  mret (if s <? 0 then -1 else 0).

Definition ifc_init6 : M Z :=
  call_ (MutexLock ifc_sock6_mutex) ;;
  s ← get_state ifc_ctl_sock6;
  (if s =? -1 then
     fd ← call_ret (Socket AF_INET6 (Z.lor SOCK_DGRAM SOCK_CLOEXEC) 0);
     modify (set_ifc_ctl_sock6 fd) ;;
     if fd <? 0 then e ← get_state errno;
       printerr ("socket() failed: " +:+ strerror e +:+ newline) else mret tt
   else mret tt) ;;
  s ← get_state ifc_ctl_sock6;
  mret (if s <? 0 then -1 else 0).

Definition ifc_close : M unit :=
  s ← get_state ifc_ctl_sock;
  (if s =? -1 then mret tt
   else call_ (Close s) ;; modify (set_ifc_ctl_sock (-1))) ;;
  call_ (MutexUnlock ifc_sock_mutex).

Definition ifc_close6 : M unit :=
  s ← get_state ifc_ctl_sock6;
  (if s =? -1 then mret tt
   else call_ (Close s) ;; modify (set_ifc_ctl_sock6 (-1))) ;;
  call_ (MutexUnlock ifc_sock6_mutex).

(** ioctl on an ifreq: the union as the kernel leaves it. *)
Definition ioctl_ifr (fd req : Z) (ifr : ifreq) : M (Z * ifreq) :=
  r ← call (Ioctl fd req (IfReq ifr));
  mret (ret r, if ret r <? 0 then ifr
               else with_ifru (patch 0 (take 16 (out r)) (ifr_ifru ifr)) ifr).

Definition ctl_ioctl (req : Z) (ifr : ifreq) : M (Z * ifreq) :=
  fd ← get_state ifc_ctl_sock; ioctl_ifr fd req ifr.

(** ** Interface queries and flags *)
Definition ifc_get_hwaddr (name : string) : M (Z * list Z) :=
  '(r, ifr) ← ctl_ioctl SIOCGIFHWADDR (ifc_init_ifr name);
  if r <? 0 then mret (-1, []) else mret (0, sub 2 6 (ifr_ifru ifr)).

Definition ifc_get_ifindex (name : string) : M (Z * Z) :=
  '(r, ifr) ← ctl_ioctl SIOCGIFINDEX (ifc_init_ifr name);
  if r <? 0 then mret (-1, 0) else mret (0, i32 (le_load (sub 0 4 (ifr_ifru ifr)))).

Definition ifc_set_flags (name : string) (set clr : Z) : M Z :=
  '(r, ifr) ← ctl_ioctl SIOCGIFFLAGS (ifc_init_ifr name);
  if r <? 0 then mret (-1) else
  let flags := le_load (sub 0 2 (ifr_ifru ifr)) in
  let flags := u16 (Z.lor (Z.land flags (u32 (Z.lnot clr))) set) in
  '(r, _) ← ctl_ioctl SIOCSIFFLAGS (with_ifru (patch 0 (le_store 2 flags) (ifr_ifru ifr)) ifr);
  mret r.

Definition ifc_up (name : string) : M Z :=
  r ← ifc_set_flags name IFF_UP 0;
  printerr ("ifc_up(" +:+ name +:+ ") = " +:+ pretty r) ;; mret r.

Definition ifc_down (name : string) : M Z :=
  r ← ifc_set_flags name 0 IFF_UP;
  printerr ("ifc_down(" +:+ name +:+ ") = " +:+ pretty r) ;; mret r.

Definition ifc_set_addr (name : string) (addr : Z) : M Z :=
  let ifr := ifc_init_ifr name in
  '(r, _) ← ctl_ioctl SIOCSIFADDR (with_ifru (init_sockaddr_in addr (ifr_ifru ifr)) ifr);
  printerr ("ifc_set_addr(" +:+ name +:+ ", xx) = " +:+ pretty r) ;; mret r.

Definition ifc_set_hwaddr (name : string) (ptr : list Z) : M Z :=
  hw ← lift (load 0 6 ptr);
  let ifr := ifc_init_ifr name in
  '(r, _) ← ctl_ioctl SIOCSIFHWADDR
              (with_ifru (patch 0 (le_store 2 ARPHRD_ETHER ++ hw) (ifr_ifru ifr)) ifr);
  mret r.

Definition ifc_set_mask (name : string) (mask : Z) : M Z :=
  let ifr := ifc_init_ifr name in
  '(r, _) ← ctl_ioctl SIOCSIFNETMASK (with_ifru (init_sockaddr_in mask (ifr_ifru ifr)) ifr);
  printerr ("ifc_set_mask(" +:+ name +:+ ", xx) = " +:+ pretty r) ;; mret r.

(** The C parameter is an int: callers pass a uint32_t, converted. *)
Definition ifc_set_prefixLength (name : string) (prefixLength : Z) : M Z :=
  if (32 <? prefixLength) || (prefixLength <? 0) then mret (-1) else
  let mask := prefixLengthToIpv4Netmask prefixLength in
  let ifr := ifc_init_ifr name in
  '(r, _) ← ctl_ioctl SIOCSIFNETMASK (with_ifru (init_sockaddr_in mask (ifr_ifru ifr)) ifr);
  mret r.

(** The result and *addr, when the caller passes one. *)
Definition ifc_get_addr (name : string) (want_addr : bool) : M (Z * option Z) :=
  if want_addr then
    '(r, ifr) ← ctl_ioctl SIOCGIFADDR (ifc_init_ifr name);
    mret (r, Some (if r <? 0 then 0 else sin_addr (ifr_ifru ifr)))
  else mret (0, None).

(** The out parameters the caller asked for (non-NULL), in order. *)
Definition ifc_get_info (name : string) (want_addr want_prefix want_flags : bool)
    : M (option Z * option Z * option Z) :=
  let ifr := ifc_init_ifr name in
  '(a, ifr) ← (if want_addr then
      '(r, ifr) ← ctl_ioctl SIOCGIFADDR ifr;
      mret (Some (if r <? 0 then 0 else sin_addr (ifr_ifru ifr)), ifr)
    else mret (None, ifr));
  '(p, ifr) ← (if want_prefix then
      '(r, ifr) ← ctl_ioctl SIOCGIFNETMASK ifr;
      mret (Some (if r <? 0 then 0 else ipv4NetmaskToPrefixLength (sin_addr (ifr_ifru ifr))), ifr)
    else mret (None, ifr));
  '(f, ifr) ← (if want_flags then
      '(r, ifr) ← ctl_ioctl SIOCGIFFLAGS ifr;
      mret (Some (if r <? 0 then 0 else u32 (i16 (le_load (sub 0 2 (ifr_ifru ifr))))), ifr)
    else mret (None, ifr));
  mret (a, p, f).

Definition ifc_is_up (name : string) : M (Z * option Z) :=
  '(r, ifr) ← ctl_ioctl SIOCGIFFLAGS (ifc_init_ifr name);
  if r <? 0 then
    e ← get_state errno;
    printerr ("ifc_is_up get flags error:" +:+ pretty e +:+ "(" +:+ strerror e +:+ ")") ;;
    mret (-1, None)
  else mret (0, Some (if Z.land (le_load (sub 0 2 (ifr_ifru ifr))) IFF_UP =? 0 then 0 else 1)).

(** ** Routes *)
Definition ifc_act_on_ipv4_route (action : Z) (ifname : string) (dst prefix_length gw : Z) : M Z :=
  let netmask := prefixLengthToIpv4Netmask prefix_length in
  let flags := RTF_UP in
  let flags := if prefix_length =? 32 then Z.lor flags RTF_HOST else flags in
  let flags := if gw =? 0 then flags else Z.lor flags RTF_GATEWAY in
  let rt := mk_rtentry (init_sockaddr_in dst zero_sockaddr)
              (if gw =? 0 then zero_sockaddr else init_sockaddr_in gw zero_sockaddr)
              (init_sockaddr_in netmask zero_sockaddr) flags ifname in
  _ ← ifc_init;
  s ← get_state ifc_ctl_sock;
  if s <? 0 then
    ifc_close ;; e ← get_state errno; mret (- e)
  else
    result ← call_ret (Ioctl s action (RtEntry rt));
    e ← get_state errno;
    let result := if result <? 0 then (if e =? EEXIST then 0 else - e) else result in
    ifc_close ;; mret result.

Definition ifc_create_default_route (name : string) (gw : Z) : M Z :=
  r ← ifc_act_on_ipv4_route SIOCADDRT name 0 0 gw;
  printerr ("ifc_create_default_route(" +:+ name +:+ ", " +:+ pretty (i32 gw) +:+ ") = " +:+ pretty r) ;;
  mret r.

Definition ifc_remove_default_route (ifname : string) : M Z :=
  _ ← ifc_init;
  s ← get_state ifc_ctl_sock;
  result ← call_ret (Ioctl s SIOCDELRT (RtEntry
    (mk_rtentry (init_sockaddr_in 0 zero_sockaddr) zero_sockaddr zero_sockaddr
       (Z.lor RTF_UP RTF_GATEWAY) ifname)));
  ifc_close ;; mret result.

Definition ifc_enable (ifname : string) : M Z :=
  _ ← ifc_init; result ← ifc_up ifname; ifc_close ;; mret result.

(** The address-clearing loop: at most [count] more iterations. *)
Fixpoint clear_loop (name : string) (count : nat) : M unit :=
  match count with
  | O => mret tt
  | S count' =>
      '(r, addr) ← ifc_get_addr name true;
      if r <? 0 then mret tt
      else if default 0 addr =? 0 then mret tt
      else _ ← ifc_set_addr name 0; clear_loop name count'
  end.

Definition ifc_disable (ifname : string) : M Z :=
  _ ← ifc_init;
  result ← ifc_down ifname;
  _ ← ifc_set_addr ifname 0;
  clear_loop ifname 255 ;;
  ifc_close ;; mret result.

Definition ifc_clear_ipv4_addresses (name : string) : M unit :=
  _ ← ifc_init; clear_loop name 255 ;; ifc_close.

Definition ifc_reset_connections (ifname : string) (reset_mask : Z) : M Z :=
  result ← (if negb (Z.land reset_mask RESET_IPV4_ADDRESSES =? 0) then
      _ ← ifc_init;
      myaddr ← (if Z.land reset_mask RESET_IGNORE_INTERFACE_ADDRESS =? 0 then
                  '(a, _, _) ← ifc_get_info ifname true false false; mret (default 0 a)
                else mret 0);
      let ifr := ifc_init_ifr ifname in
      '(r, _) ← ctl_ioctl SIOCKILLADDR (with_ifru (init_sockaddr_in myaddr (ifr_ifru ifr)) ifr);
      ifc_close ;; mret r
    else mret 0);
  if negb (Z.land reset_mask RESET_IPV6_ADDRESSES =? 0) then
    _ ← ifc_init6;
    s6 ← get_state ifc_ctl_sock6;
    success ← call_ret (Ioctl s6 SIOCKILLADDR (Raw (replicate 24 0)));
    ifc_close6 ;;
    mret (if result =? 0 then success else result)
  else mret result.

Definition dns_property (ifname : string) (n : Z) : string :=
  snprintf PROPERTY_KEY_MAX ("net." +:+ ifname +:+ ".dns" +:+ pretty n).

Definition ifc_configure (ifname : string) (address prefixLength gateway dns1 dns2 : Z) : M Z :=
  _ ← ifc_init;
  r ← ifc_up ifname;
  if negb (r =? 0) then
    e ← get_state errno;
    printerr ("failed to turn on interface " +:+ ifname +:+ ": " +:+ strerror e +:+ newline) ;;
    ifc_close ;; mret (-1)
  else
  r ← ifc_set_addr ifname address;
  if negb (r =? 0) then
    e ← get_state errno;
    printerr ("failed to set ipaddr " +:+ ipaddr_to_string address +:+ ": " +:+ strerror e +:+ newline) ;;
    ifc_close ;; mret (-1)
  else
  r ← ifc_set_prefixLength ifname (i32 prefixLength);
  if negb (r =? 0) then
    e ← get_state errno;
    printerr ("failed to set prefixLength " +:+ pretty (i32 prefixLength) +:+ ": " +:+ strerror e +:+ newline) ;;
    ifc_close ;; mret (-1)
  else
  r ← ifc_create_default_route ifname gateway;
  if negb (r =? 0) then
    e ← get_state errno;
    printerr ("failed to set default route " +:+ ipaddr_to_string gateway +:+ ": " +:+ strerror e +:+ newline) ;;
    ifc_close ;; mret (-1)
  else
  ifc_close ;;
  property_set (dns_property ifname 1) (if dns1 =? 0 then "" else ipaddr_to_string dns1) ;;
  property_set (dns_property ifname 2) (if dns2 =? 0 then "" else ipaddr_to_string dns2) ;;
  mret 0.

(** ** Vendor additions *)
Definition ifc_reset_connection_by_uid (uid error : Z) : M Z :=
  if HAVE_ANDROID_OS then
    s ← call_ret (Socket AF_INET SOCK_STREAM 0);
    if s <? 0 then
      e ← get_state errno;
      printerr ("socket() failed: " +:+ strerror e +:+ newline) ;; mret (-1)
    else if uid <? 0 then call_ (Close s) ;; mret (-1)
    else
      result ← call_ret (Ioctl s SIOCKILLSOCK (Raw (le_store 4 uid ++ le_store 4 error)));
      call_ (Close s) ;; mret result
  else mret 0.

Definition ifc_enable_allmc (ifname : string) : M Z :=
  _ ← ifc_init; result ← ifc_set_flags ifname IFF_ALLMULTI 0; ifc_close ;; mret result.
Definition ifc_disable_allmc (ifname : string) : M Z :=
  _ ← ifc_init; result ← ifc_set_flags ifname 0 IFF_ALLMULTI; ifc_close ;; mret result.

Definition SOL_SOCKET : Z := 1.
Definition SO_REUSEADDR : Z := 2.
Definition EINTR : Z := 4.

(** TEMP_FAILURE_RETRY: the call is repeated while it fails with EINTR, here at
    most [fuel] times; [None] when it is interrupted every time. *)
Fixpoint connect_retry (fuel : nat) (fd : Z) (path : string) : M (option Z) :=
  match fuel with
  | O => mret None
  | S fuel' =>
      r ← call_ret (Connect fd path);
      e ← get_state errno;
      if (r =? -1) && (e =? EINTR) then connect_retry fuel' fd path else mret (Some r)
  end.

Definition ifc_netd_sock_init (fuel : nat) : M (option Z) :=
  s ← call_ret (Socket AF_UNIX SOCK_STREAM 0);
  if s <? 0 then
    printerr "ifc_netd_sock_init: create socket failed" ;; mret (Some (-1))
  else
  res ← call_ret (Setsockopt s SOL_SOCKET SO_REUSEADDR);
  if res <? 0 then
    printerr ("setsockopt failed" +:+ newline) ;; call_ (Close s) ;; mret (Some (-1))
  else
  c ← connect_retry fuel s "/dev/socket/netd";
  match c with
  | None => mret None
  | Some r =>
      if negb (r =? 0) then
        e ← get_state errno;
        printerr ("ifc_netd_sock_init: connect to netd failed, fd=" +:+ pretty s +:+ ", err: " +:+
                  pretty e +:+ "(" +:+ strerror e +:+ ")") ;;
        call_ (Close s) ;; mret (Some (-1))
      else printerr ("ifc_netd_sock_init fd=" +:+ pretty s) ;; mret (Some s)
  end.

(** The request/response exchange the three netd commands share: the text, the
    terminating NUL, a flush and a read of the response. *)
Definition netd_command (fuel : nat) (text : string) : M (option Z) :=
  s ← ifc_netd_sock_init fuel;
  match s with
  | None => mret None
  | Some s =>
      if s <=? 0 then mret (Some (-1)) else
      f ← call_ret (Fdopen s);
      if f =? 0 then mret (Some (-1)) else
      n ← call_ret (Fprintf text);
      if n <? 0 then call_ Fclose ;; mret (Some (-1)) else
      c ← call_ret (Fputc 0);
      if c =? -1 then call_ Fclose ;; mret (Some (-1)) else
      x ← call_ret Fflush;
      if negb (x =? 0) then call_ Fclose ;; mret (Some (-1)) else
      call_ (Fread 20) ;; call_ Fclose ;; mret (Some 0)
  end.

Definition ifc_set_throttle (fuel : nat) (ifname : string) (rxKbps txKbps : Z) : M (option Z) :=
  netd_command fuel ("1 interface setthrottle " +:+ ifname +:+ " " +:+ pretty rxKbps +:+ " " +:+ pretty txKbps).

Definition ifc_set_fwmark_rule (fuel : nat) (ifname : string) (mark add : Z) : M (option Z) :=
  let op := if add =? 0 then "remove" else "add" in
  netd_command fuel ("2 network fwmark " +:+ op +:+ " " +:+ ifname +:+ " " +:+ pretty mark).

Definition ifc_set_nsiot_firewall (fuel : nat) (flag : Z) : M (option Z) :=
  let op := if flag =? 0 then "clear_nsiot_firewall" else "set_nsiot_firewall" in
  netd_command fuel ("2 firewall " +:+ op +:+ " ").

Definition ifc_set_txq_state (ifname : string) (state : Z) : M Z :=
  let ifr := ifc_init_ifr ifname in
  let ifr := with_ifru (patch 0 (le_store 4 state) (ifr_ifru ifr)) ifr in
  s ← call_ret (Socket AF_INET SOCK_DGRAM 0);
  if s <? 0 then mret (-1) else
  '(r, _) ← ioctl_ifr s SIOCSTXQSTATE ifr;
  call_ (Close s) ;; mret r.

Definition ifc_ccmni_md_cfg (ifname : string) (md_id : Z) : M Z :=
  let ifr := ifc_init_ifr ifname in
  let ifr := with_ifru (patch 0 (le_store 4 md_id) (ifr_ifru ifr)) ifr in
  s ← call_ret (Socket AF_INET SOCK_DGRAM 0);
  if s <? 0 then
    printerr ("ifc_ccmni_md_cfg: create ctl socket failed" +:+ newline) ;; mret (-1)
  else
  '(r, _) ← ioctl_ifr s SIOCSCCMNICFG ifr;
  ret ← (if r <? 0 then
      e ← get_state errno;
      printerr ("ifc_ccmni_md_configure(ifname=" +:+ ifname +:+ ", md_id=" +:+ pretty md_id +:+
        ") error:" +:+ pretty e +:+ "(" +:+ strerror e +:+ ")") ;; mret (-1)
    else
      printerr ("ifc_ccmni_md_configure(ifname=" +:+ ifname +:+ ", md_id=" +:+ pretty md_id +:+ ") OK") ;;
      mret 0);
  call_ (Close s) ;; mret ret.

Definition ipv6_proc_path : string := "/proc/sys/net/ipv6/conf".
Definition O_WRONLY : Z := 1.

(** setEnableIPv6 and setIPv6DefaultRoute write one digit to a sysctl file; the
    path allocated by asprintf is freed on the success path only. *)
Definition write_sysctl (path value : string) : M Z :=
  call_ (Asprintf path) ;;
  fd ← call_ret (Open path O_WRONLY);
  if fd <? 0 then mret (-1) else
  n ← call_ret (Write fd value);
  if negb (n =? Z.of_nat (String.length value)) then call_ (Close fd) ;; mret (-1)
  else call_ (Close fd) ;; call_ Free ;; mret 0.

Definition setEnableIPv6 (ifname : string) (on : Z) : M Z :=
  write_sysctl (ipv6_proc_path +:+ "/" +:+ ifname +:+ "/disable_ipv6")
    (if on =? 0 then "1" else "0").
Definition setIPv6DefaultRoute (ifname : string) (on : Z) : M Z :=
  write_sysctl (ipv6_proc_path +:+ "/" +:+ ifname +:+ "/accept_ra_defrtr")
    (if on =? 0 then "0" else "1").

Definition ifc_ipv6_trigger_rs (ifname : string) : M Z :=
  _ ← setEnableIPv6 ifname 0;
  _ ← setEnableIPv6 ifname 1;
  _ ← setIPv6DefaultRoute ifname 1;
  mret 0.

(** ** Locks and descriptors *)
Ltac run_ctl Hr :=
  unfold ifc_init, ifc_init6, ifc_close, ifc_close6, call_, call_ret, call, printerr, modify,
    get_state, mbind, M_bind, mret, M_ret in Hr; cbn [fst snd] in Hr;
  change (ifc_ctl_sock (record_event ?c ?r ?s)) with (ifc_ctl_sock s) in Hr;
  change (ifc_ctl_sock6 (record_event ?c ?r ?s)) with (ifc_ctl_sock6 s) in Hr.

(** The states that open, keep and close a control socket. *)
Ltac solve_leak Hs :=
  split_and!; [intros fd Hfd| |];
  repeat first [progress autorewrite with leak
               |match goal with |- context [trace (set_errmsg ?m ?s)] =>
                  change (trace (set_errmsg m s)) with (trace s) end
               |match goal with |- context [trace (set_ifc_ctl_sock ?m ?s)] =>
                  change (trace (set_ifc_ctl_sock m s)) with (trace s) end
               |match goal with |- context [trace (set_ifc_ctl_sock6 ?m ?s)] =>
                  change (trace (set_ifc_ctl_sock6 m s)) with (trace s) end
               |match goal with |- context [ifc_ctl_sock (record_event ?c ?r ?s)] =>
                  change (ifc_ctl_sock (record_event c r s)) with (ifc_ctl_sock s) end
               |match goal with |- context [ifc_ctl_sock6 (record_event ?c ?r ?s)] =>
                  change (ifc_ctl_sock6 (record_event c r s)) with (ifc_ctl_sock6 s) end];
  try rewrite Hs; try rewrite (bit_neg (-1)) by lia; unfold fd_delta, bit;
  repeat match goal with |- context [?r =? ?f] => destruct (r =? f) end; cbn;
  repeat case_decide; simplify_eq; try lia.

Lemma ifc_init_balanced : balanced 1 0 ifc_init.
Proof.
  intros s a s' Hr. run_ctl Hr. destruct (Z.eqb_spec (ifc_ctl_sock s) (-1)) as [Hs|Hs].
  - destruct (ret _ <? 0); simplify_eq; solve_leak Hs.
  - simplify_eq. solve_leak Hs.
Qed.
Lemma ifc_init6_balanced : balanced 0 1 ifc_init6.
Proof.
  intros s a s' Hr. run_ctl Hr. destruct (Z.eqb_spec (ifc_ctl_sock6 s) (-1)) as [Hs|Hs].
  - destruct (ret _ <? 0); simplify_eq; solve_leak Hs.
  - simplify_eq. solve_leak Hs.
Qed.
Lemma ifc_close_balanced : balanced (-1) 0 ifc_close.
Proof.
  intros s a s' Hr. run_ctl Hr. destruct (Z.eqb_spec (ifc_ctl_sock s) (-1)) as [Hs|Hs];
    simplify_eq; solve_leak Hs.
Qed.
Lemma ifc_close6_balanced : balanced 0 (-1) ifc_close6.
Proof.
  intros s a s' Hr. run_ctl Hr. destruct (Z.eqb_spec (ifc_ctl_sock6 s) (-1)) as [Hs|Hs];
    simplify_eq; solve_leak Hs.
Qed.

#[local] Hint Resolve ifc_init_balanced ifc_init6_balanced ifc_close_balanced ifc_close6_balanced : balanced.

Lemma ctl_ioctl_balanced req ifr : balanced 0 0 (ctl_ioctl req ifr).
Proof. unfold ctl_ioctl, ioctl_ifr. balance. Qed.
#[local] Hint Resolve ctl_ioctl_balanced : balanced.
Lemma ifc_set_flags_balanced name set clr : balanced 0 0 (ifc_set_flags name set clr).
Proof. unfold ifc_set_flags. balance. Qed.
Lemma ifc_get_addr_balanced name want : balanced 0 0 (ifc_get_addr name want).
Proof. unfold ifc_get_addr. balance. Qed.
Lemma ifc_set_addr_balanced name a : balanced 0 0 (ifc_set_addr name a).
Proof. unfold ifc_set_addr. balance. Qed.
Lemma ifc_set_prefixLength_balanced name a : balanced 0 0 (ifc_set_prefixLength name a).
Proof. unfold ifc_set_prefixLength. balance. Qed.
Lemma ifc_get_info_balanced name a b c : balanced 0 0 (ifc_get_info name a b c).
Proof. unfold ifc_get_info. balance. Qed.
#[local] Hint Resolve ifc_set_flags_balanced ifc_get_addr_balanced ifc_set_addr_balanced
  ifc_set_prefixLength_balanced ifc_get_info_balanced : balanced.
Lemma ifc_up_balanced name : balanced 0 0 (ifc_up name).
Proof. unfold ifc_up. balance. Qed.
Lemma ifc_down_balanced name : balanced 0 0 (ifc_down name).
Proof. unfold ifc_down. balance. Qed.
Lemma ifc_act_on_ipv4_route_balanced action name dst p gw :
  balanced 0 0 (ifc_act_on_ipv4_route action name dst p gw).
Proof. unfold ifc_act_on_ipv4_route. balance. Qed.
Lemma clear_loop_balanced name n : balanced 0 0 (clear_loop name n).
Proof. induction n as [|n IH]; cbn [clear_loop]; balance. Qed.
#[local] Hint Resolve ifc_up_balanced ifc_down_balanced ifc_act_on_ipv4_route_balanced
  clear_loop_balanced : balanced.
Lemma ifc_create_default_route_balanced name gw : balanced 0 0 (ifc_create_default_route name gw).
Proof. unfold ifc_create_default_route. balance. Qed.
#[local] Hint Resolve ifc_create_default_route_balanced : balanced.
Lemma ifc_configure_balanced name a p g d1 d2 : balanced 0 0 (ifc_configure name a p g d1 d2).
Proof. unfold ifc_configure. balance. Qed.
End Ifc.

#[export] Hint Resolve ifc_init_balanced ifc_init6_balanced ifc_close_balanced
  ifc_close6_balanced ctl_ioctl_balanced ifc_set_flags_balanced ifc_get_addr_balanced
  ifc_set_addr_balanced ifc_set_prefixLength_balanced ifc_get_info_balanced ifc_up_balanced
  ifc_down_balanced ifc_act_on_ipv4_route_balanced clear_loop_balanced
  ifc_create_default_route_balanced ifc_configure_balanced : balanced.

(** ** Requests made by the operations *)
Section Requests.
Context `{Env} `{IfcHeader}.

Lemma wp_ifc_init (Q : Z → gstate → Prop) s :
  (∀ r s', quiet s s' → (ifc_ctl_sock s' < 0 → ifc_ctl_sock s < 0) → Q r s') → wp ifc_init Q s.
Proof.
  intros HQ. unfold ifc_init. apply wp_bind. unfold call_. apply wp_bind, wp_call, wp_ret, wp_bind, wp_get.
  set (s1 := record_event _ _ s). assert (Hq : quiet s s1) by (by apply quiet_record).
  assert (Hs1 : ifc_ctl_sock s1 = ifc_ctl_sock s) by done.
  apply wp_bind. destruct (Z.eqb_spec (ifc_ctl_sock s1) (-1)) as [Hm|Hm].
  - apply wp_bind. unfold call_ret. apply wp_bind, wp_call, wp_ret, wp_bind, wp_modify.
    set (c := Socket _ _ _). set (r := kern _ _).
    assert (Hq2 : quiet s (record_event c r s1)) by (etransitivity; [done|by apply quiet_record]).
    destruct (ret r <? 0); wp_steps; (apply HQ; [done|lia]).
  - wp_steps. apply HQ; [done|by rewrite Hs1].
Qed.

Lemma wp_ifc_close (Q : unit → gstate → Prop) s :
  (∀ s', quiet s s' → Q tt s') → wp ifc_close Q s.
Proof.
  intros HQ. unfold ifc_close. apply wp_bind, wp_get, wp_bind.
  destruct (ifc_ctl_sock s =? -1); wp_steps; apply HQ; [by apply quiet_record|].
  etransitivity; [|by apply quiet_record]. by apply (quiet_record (Close _)).
Qed.

Lemma wp_ctl_ioctl req ifr (Q : Z * ifreq → gstate → Prop) s :
  (∀ r ifr' s', ifr_name ifr' = ifr_name ifr →
     ioctls s' = ioctls s ++ [(req, IfReq ifr)] → prop_sets s' = prop_sets s → Q (r, ifr') s') →
  wp (ctl_ioctl req ifr) Q s.
Proof.
  intros HQ. unfold ctl_ioctl, ioctl_ifr. wp_steps. apply HQ.
  - by destruct (ret _ <? 0).
  - by rewrite ioctls_record.
  - rewrite prop_sets_record. apply app_nil_r.
Qed.

Lemma wp_printerr text (Q : unit → gstate → Prop) s :
  (∀ s', quiet s s' → Q tt s') → wp (printerr text) Q s.
Proof. intros HQ. wp_steps. by apply HQ. Qed.

(** A request on a negative descriptor was accepted, which Linux answers with EBADF. *)
Definition accepts_bad_fd : Prop := ∃ t fd req arg, fd < 0 ∧ ret (kern t (Ioctl fd req arg)) = 0.

(** The request structures of the operations. *)
Definition addr_req (name : string) (addr : Z) : ioctl_arg :=
  IfReq (with_ifru (init_sockaddr_in addr zero_sockaddr) (ifc_init_ifr name)).

Lemma wp_ifc_up name (Q : Z → gstate → Prop) s :
  (∀ r s', prop_sets s' = prop_sets s →
     (r = 0 → ∃ flags, Z.testbit flags 0 = true ∧ is_u16 flags ∧ ∃ rest,
        ioctls s' = ioctls s ++ [(SIOCGIFFLAGS, IfReq (ifc_init_ifr name));
          (SIOCSIFFLAGS, IfReq (mk_ifreq (ifr_name (ifc_init_ifr name)) (le_store 2 flags ++ rest)))]) →
     Q r s') → wp (ifc_up name) Q s.
Proof.
  intros HQ. unfold ifc_up, ifc_set_flags. apply wp_bind, wp_bind, wp_ctl_ioctl.
  intros r ifr s1 Hn Hi Hp. destruct (r <? 0) eqn:Hr; [wp_steps; by apply HQ|].
  apply wp_bind, wp_ctl_ioctl. intros r2 ifr2 s2 Hn2 Hi2 Hp2. apply wp_ret, wp_bind, wp_printerr.
  intros s3 [Hi3 Hp3]. apply wp_ret, HQ; [congruence|]. intros _.
  set (fl := u16 _) in Hi2. exists fl. split_and!.
  - unfold fl, u16. change 65536 with (2 ^ 16). rewrite Z.mod_pow2_bits_low by lia.
    rewrite Z.lor_spec. apply orb_true_r.
  - apply Z.mod_pos_bound. lia.
  - exists (drop 2 (ifr_ifru ifr)). rewrite Hi3, Hi2, Hi, <- app_assoc. cbn [app].
    unfold with_ifru, patch. cbn [take app length]. by rewrite Hn.
Qed.

Lemma wp_ifc_set_addr name addr (Q : Z → gstate → Prop) s :
  (∀ r s', ioctls s' = ioctls s ++ [(SIOCSIFADDR, addr_req name addr)] →
     prop_sets s' = prop_sets s → Q r s') → wp (ifc_set_addr name addr) Q s.
Proof.
  intros HQ. unfold ifc_set_addr. apply wp_bind, wp_ctl_ioctl. intros r ifr s1 _ Hi Hp.
  apply wp_bind, wp_printerr. intros s2 [Hi2 Hp2].
  apply wp_ret, HQ; [by rewrite Hi2, Hi|congruence].
Qed.

Lemma wp_ifc_set_prefixLength name p (Q : Z → gstate → Prop) s :
  (∀ r s', prop_sets s' = prop_sets s →
     (r = 0 → 0 ≤ p ≤ 32 ∧ (ifc_ctl_sock s' < 0 → accepts_bad_fd) ∧
        ioctls s' = ioctls s ++ [(SIOCSIFNETMASK, addr_req name (prefixLengthToIpv4Netmask p))]) →
     Q r s') → wp (ifc_set_prefixLength name p) Q s.
Proof.
  intros HQ. unfold ifc_set_prefixLength. destruct ((32 <? p) || (p <? 0)) eqn:Hb.
  - apply wp_ret, HQ; done.
  - zbool. unfold ctl_ioctl, ioctl_ifr. wp_steps. apply HQ; [rewrite prop_sets_record; apply app_nil_r|].
    intros Hr. split_and!; [lia|lia| |by rewrite ioctls_record]. intros Hneg. eexists _, _, _, _. by split.
Qed.

Definition default_route (name : string) (gw : Z) : rtentry :=
  mk_rtentry (init_sockaddr_in 0 zero_sockaddr)
    (if gw =? 0 then zero_sockaddr else init_sockaddr_in gw zero_sockaddr)
    (init_sockaddr_in 0 zero_sockaddr) (if gw =? 0 then RTF_UP else Z.lor RTF_UP RTF_GATEWAY) name.

Lemma wp_ifc_create_default_route name gw (Q : Z → gstate → Prop) s :
  (∀ r s', prop_sets s' = prop_sets s →
     (ioctls s' = ioctls s ∧ ifc_ctl_sock s < 0 ∨
      ioctls s' = ioctls s ++ [(SIOCADDRT, RtEntry (default_route name gw))]) →
     Q r s') → wp (ifc_create_default_route name gw) Q s.
Proof.
  intros HQ. unfold ifc_create_default_route, ifc_act_on_ipv4_route.
  apply wp_bind, wp_bind, wp_ifc_init. intros r0 s1 [Hi1 Hp1] Hneg. apply wp_bind, wp_get.
  destruct (Z.ltb_spec (ifc_ctl_sock s1) 0) as [Hs1|Hs1].
  - apply wp_bind, wp_ifc_close. intros s2 [Hi2 Hp2]. apply wp_bind, wp_get, wp_ret, wp_bind,
      wp_printerr. intros s3 [Hi3 Hp3]. apply wp_ret, HQ; [congruence|left; split; [congruence|by apply Hneg]].
  - apply wp_bind. unfold call_ret. apply wp_bind, wp_call, wp_ret, wp_bind, wp_get, wp_bind,
      wp_ifc_close. intros s2 [Hi2 Hp2]. apply wp_ret, wp_bind, wp_printerr. intros s3 [Hi3 Hp3].
    rewrite ioctls_record in Hi2. rewrite prop_sets_record in Hp2. cbn [omap list_omap prop_of] in Hp2.
    rewrite app_nil_r in Hp2. apply wp_ret, HQ; [congruence|].
    right. rewrite Hi3, Hi2, Hi1. unfold default_route. by destruct (gw =? 0).
Qed.
End Requests.

(** What a call of [ifc_configure] with result [r] did to the interface. *)
Definition dns_props `{Env} (name : string) (dns1 dns2 : Z) : list (string * string) :=
  [(dns_property name 1, if dns1 =? 0 then "" else ipaddr_to_string dns1);
   (dns_property name 2, if dns2 =? 0 then "" else ipaddr_to_string dns2)].

Definition configured `{Env} (name : string) (address prefixLength gateway dns1 dns2 : Z)
    (s : gstate) (r : Z) (s' : gstate) : Prop :=
  (r = 0 ∨ r = -1) ∧
  prop_sets s' = prop_sets s ++ (if r =? 0 then dns_props name dns1 dns2 else []) ∧
  (r = 0 → 0 ≤ i32 prefixLength ≤ 32 ∧ ∃ flags rest route,
     Z.testbit flags 0 = true ∧
     (route = [(SIOCADDRT, RtEntry (default_route name gateway))] ∨ route = [] ∧ accepts_bad_fd) ∧
     ioctls s' = ioctls s ++
       [(SIOCGIFFLAGS, IfReq (ifc_init_ifr name));
        (SIOCSIFFLAGS, IfReq (mk_ifreq (ifr_name (ifc_init_ifr name)) (le_store 2 flags ++ rest)));
        (SIOCSIFADDR, addr_req name address);
        (SIOCSIFNETMASK, addr_req name (prefixLengthToIpv4Netmask (i32 prefixLength)))] ++ route).

Section Configure.
Context `{Env} `{IfcHeader} (name : string) (address prefixLength gateway dns1 dns2 : Z).

(** The failure exits of [ifc_configure]. *)
Lemma wp_configure_fail text s sx :
  prop_sets sx = prop_sets s →
  wp (e ← get_state errno; printerr (text e) ;; ifc_close ;; mret (-1))
     (configured name address prefixLength gateway dns1 dns2 s) sx.
Proof.
  intros Hx. apply wp_bind, wp_get, wp_bind, wp_printerr. intros s5 [_ Hp5].
  apply wp_bind, wp_ifc_close. intros s6 [_ Hp6]. apply wp_ret.
  split_and!; [by right|cbn; rewrite app_nil_r; congruence|done].
Qed.

(** The success exit: the control socket closed, the two properties set. *)
Lemma wp_configure_done flags rest route s s4 :
  0 ≤ i32 prefixLength ≤ 32 → Z.testbit flags 0 = true →
  (route = [(SIOCADDRT, RtEntry (default_route name gateway))] ∨ route = [] ∧ accepts_bad_fd) →
  prop_sets s4 = prop_sets s →
  ioctls s4 = ioctls s ++
    [(SIOCGIFFLAGS, IfReq (ifc_init_ifr name));
     (SIOCSIFFLAGS, IfReq (mk_ifreq (ifr_name (ifc_init_ifr name)) (le_store 2 flags ++ rest)));
     (SIOCSIFADDR, addr_req name address);
     (SIOCSIFNETMASK, addr_req name (prefixLengthToIpv4Netmask (i32 prefixLength)))] ++ route →
  wp (ifc_close ;;
      property_set (dns_property name 1) (if dns1 =? 0 then "" else ipaddr_to_string dns1) ;;
      property_set (dns_property name 2) (if dns2 =? 0 then "" else ipaddr_to_string dns2) ;;
      mret 0) (configured name address prefixLength gateway dns1 dns2 s) s4.
Proof.
  intros Hlen Hfl Hr Hp4 Hi4. apply wp_bind, wp_ifc_close. intros s5 [Hi5 Hp5]. wp_steps.
  split_and!; [by left|..].
  - rewrite !prop_sets_record. cbn [omap list_omap prop_of Z.eqb]. rewrite <- app_assoc. cbn [app].
    unfold dns_props. f_equal. congruence.
  - intros _. split; [done|]. rewrite !ioctls_record. cbn [omap list_omap ioctl_of].
    rewrite !app_nil_r. exists flags, rest, route. split_and!; [done|done|congruence].
Qed.

Lemma wp_ifc_configure s :
  wp (ifc_configure name address prefixLength gateway dns1 dns2)
     (configured name address prefixLength gateway dns1 dns2 s) s.
Proof.
  unfold ifc_configure. apply wp_bind, wp_ifc_init. intros r0 s0 [Hi0 Hp0] _.
  apply wp_bind, wp_ifc_up. intros r1 s1 Hp1 Hi1. destruct (Z.eqb_spec r1 0) as [->|]; cbn [negb];
    [|apply wp_configure_fail; congruence].
  destruct (Hi1 eq_refl) as (flags & Hfl & _ & rest & Hi1').
  apply wp_bind, wp_ifc_set_addr. intros r2 s2 Hi2 Hp2. destruct (Z.eqb_spec r2 0) as [->|]; cbn [negb];
    [|apply wp_configure_fail; congruence].
  apply wp_bind, wp_ifc_set_prefixLength. intros r3 s3 Hp3 Hi3.
  destruct (Z.eqb_spec r3 0) as [->|]; cbn [negb]; [|apply wp_configure_fail; congruence].
  destruct (Hi3 eq_refl) as (Hlen & Hbad & Hi3').
  apply wp_bind, wp_ifc_create_default_route. intros r4 s4 Hp4 Hi4.
  destruct (Z.eqb_spec r4 0) as [->|]; cbn [negb]; [|apply wp_configure_fail; congruence].
  destruct Hi4 as [[Hi4 Hneg]|Hi4];
    [apply (wp_configure_done flags rest [])
    |apply (wp_configure_done flags rest [(SIOCADDRT, RtEntry (default_route name gateway))])];
    try done; try congruence; try (by left); try (right; split; [done|by apply Hbad]);
    rewrite Hi4, Hi3', Hi2, Hi1', Hi0, <- !app_assoc; done.
Qed.
End Configure.

(** ** Leading ones of a mask *)
Lemma land_top m : Z.land m 0x80000000 = 0 ↔ Z.testbit m 31 = false.
Proof.
  change 0x80000000 with (2 ^ 31). split; intros Hm.
  - assert (Hb : Z.testbit (Z.land m (2 ^ 31)) 31 = false) by (by rewrite Hm, Z.bits_0).
    rewrite Z.land_spec, Z.pow2_bits_true, andb_true_r in Hb by lia. done.
  - apply Z.bits_inj'. intros n Hn. rewrite Z.land_spec, Z.bits_0.
    destruct (decide (n = 31)) as [->|Hne]; [by rewrite Hm|].
    rewrite Z.pow2_bits_false by lia. apply andb_false_r.
Qed.

Lemma shift_bits m i : 0 ≤ i < 32 → Z.testbit (u32 (Z.shiftl m 1)) i = Z.testbit m (i - 1).
Proof.
  intros Hi. unfold u32. change 4294967296 with (2 ^ 32).
  rewrite Z.mod_pow2_bits_low by lia. by rewrite Z.shiftl_spec by lia.
Qed.

(** The loop counts the leading ones; after [j] shifts the low [j] bits are
    zero, so the remaining fuel always suffices. *)
Lemma leading_ones_spec fuel m acc j :
  0 ≤ j ≤ 32 → j + Z.of_nat fuel = 33 → (∀ i, 0 ≤ i < j → Z.testbit m i = false) →
  ∃ k, leading_ones fuel m acc = acc + k ∧ 0 ≤ k ≤ 32 - j ∧
    (∀ i, 0 ≤ i < k → Z.testbit m (31 - i) = true) ∧ (k < 32 → Z.testbit m (31 - k) = false).
Proof.
  revert m acc j. induction fuel as [|fuel IH]; intros m acc j Hj Hf Hlow; cbn [leading_ones].
  - lia.
  - destruct (Z.eqb_spec (Z.land m 0x80000000) 0) as [Hz|Hz].
    + exists 0. split_and!; try lia. intros _. by apply land_top.
    + assert (Htop : Z.testbit m 31 = true)
        by (destruct (Z.testbit m 31) eqn:E; [done|]; apply land_top in E; done).
      assert (j ≠ 32) by (intros ->; rewrite Hlow in Htop by lia; done).
      destruct (IH (u32 (Z.shiftl m 1)) (acc + 1) (j + 1)) as (k & Hk & Hb & Hones & Hstop); try lia.
      { intros i Hi. rewrite shift_bits by lia. destruct (decide (i = 0)) as [->|];
          [by apply Z.testbit_neg_r|apply Hlow; lia]. }
      exists (k + 1). split_and!; try lia.
      * intros i Hi. destruct (decide (i = 0)) as [->|]; [done|].
        rewrite <- (Hones (i - 1)) by lia. rewrite shift_bits by lia. f_equal. lia.
      * intros Hk1. rewrite <- Hstop by lia. rewrite shift_bits by lia. f_equal. lia.
Qed.

(** ** Properties *)

(** [ipv4NetmaskToPrefixLength] returns the number of leading one bits of
    the mask in host order: the loop ends, the result is between 0 and 32, the
    top bits are all ones and the next one is zero. *)
Theorem netmask_prefix_length_correct mask :
  let p := ipv4NetmaskToPrefixLength mask in
  0 ≤ p ≤ 32 ∧ (∀ i, 0 ≤ i < p → Z.testbit (ntohl mask) (31 - i) = true) ∧
  (p < 32 → Z.testbit (ntohl mask) (31 - p) = false).
Proof.
  intros p. destruct (leading_ones_spec 33 (ntohl mask) 0 0) as (k & Hk & Hb & H1 & H2);
    [lia|done|lia|]. subst p. unfold ipv4NetmaskToPrefixLength. rewrite Hk. cbn. done.
Qed.

(** Round trip: a prefix length of 0..32 survives the conversion to an
    address mask and back; outside that range the mask is 0. *)
Theorem netmask_roundtrip p :
  (0 ≤ p ≤ 32 → ipv4NetmaskToPrefixLength (prefixLengthToIpv4Netmask p) = p) ∧
  ((p < 0 ∨ 32 < p) → prefixLengthToIpv4Netmask p = 0).
Proof.
  split.
  - intros Hp.
    assert (Hall : forallb (λ q, ipv4NetmaskToPrefixLength (prefixLengthToIpv4Netmask q) =? q)
                     (Z.of_nat <$> seq 0 33) = true) by (vm_compute; reflexivity).
    rewrite forallb_forall in Hall. apply Z.eqb_eq, Hall, list_elem_of_In.
    apply list_elem_of_fmap. exists (Z.to_nat p). split; [lia|]. apply elem_of_seq. lia.
  - intros Hp. unfold prefixLengthToIpv4Netmask.
    replace ((p <=? 0) || (32 <? p)) with true by (symmetry; apply orb_true_iff; lia). done.
Qed.

Lemma netmask_roundtrip_witness :
  ipv4NetmaskToPrefixLength (prefixLengthToIpv4Netmask 24) = 24 ∧ prefixLengthToIpv4Netmask 33 = 0.
Proof.
  split; [apply (proj1 (netmask_roundtrip 24)); lia|apply (proj2 (netmask_roundtrip 33)); lia].
Defined.

(** C39. Resources: whichever calls fail, ifc_configure, ifc_enable, ifc_disable,
    ifc_clear_ipv4_addresses, ifc_reset_connections, ifc_remove_default_route,
    ifc_act_on_ipv4_route and the multicast toggles return with both control
    locks at the depth they found them and without leaking a descriptor beyond
    the control sockets the globals own. *)
Theorem ifc_operations_balanced `{Env} `{IfcHeader} name a p g d1 d2 action dst mask :
  balanced 0 0 (ifc_configure name a p g d1 d2) ∧ balanced 0 0 (ifc_enable name) ∧
  balanced 0 0 (ifc_disable name) ∧ balanced 0 0 (ifc_clear_ipv4_addresses name) ∧
  balanced 0 0 (ifc_reset_connections name mask) ∧ balanced 0 0 (ifc_remove_default_route name) ∧
  balanced 0 0 (ifc_act_on_ipv4_route action name dst p g) ∧
  balanced 0 0 (ifc_enable_allmc name) ∧ balanced 0 0 (ifc_disable_allmc name).
Proof.
  split_and!; [apply ifc_configure_balanced|..];
    unfold ifc_enable, ifc_disable, ifc_clear_ipv4_addresses, ifc_reset_connections,
      ifc_remove_default_route, ifc_enable_allmc, ifc_disable_allmc; balance.
Qed.

(** C28. [ifc_configure] returns 0 or -1, sets the two DNS properties of the
    interface exactly when it returns 0 (in order, the empty string for a zero
    server), and when it returns 0 the requests it issued are, in order: read
    and write the flags with IFF_UP set, set the address, set the netmask of
    the prefix length (which is within 0..32), and add the default route.  The last
    is left out only when the control socket is no descriptor and the kernel
    nevertheless accepted requests on it, which Linux refuses with EBADF. *)
Theorem ifc_configure_correct `{Env} `{IfcHeader} name address prefixLength gateway dns1 dns2 s :
  wp (ifc_configure name address prefixLength gateway dns1 dns2) (λ r s',
    (r = 0 ∨ r = -1) ∧
    prop_sets s' = prop_sets s ++
      (if r =? 0 then [(dns_property name 1, if dns1 =? 0 then "" else ipaddr_to_string dns1);
                       (dns_property name 2, if dns2 =? 0 then "" else ipaddr_to_string dns2)]
       else []) ∧
    (r = 0 → 0 ≤ i32 prefixLength ≤ 32 ∧ ∃ flags rest route,
       Z.testbit flags 0 = true ∧
       (route = [(SIOCADDRT, RtEntry (default_route name gateway))] ∨
        route = [] ∧ ∃ t fd req arg, fd < 0 ∧ ret (kern t (Ioctl fd req arg)) = 0) ∧
       ioctls s' = ioctls s ++
         [(SIOCGIFFLAGS, IfReq (ifc_init_ifr name));
          (SIOCSIFFLAGS, IfReq (mk_ifreq (ifr_name (ifc_init_ifr name)) (le_store 2 flags ++ rest)));
          (SIOCSIFADDR, addr_req name address);
          (SIOCSIFNETMASK, addr_req name (prefixLengthToIpv4Netmask (i32 prefixLength)))] ++ route)) s.
Proof. apply wp_ifc_configure. Qed.

(** The netd commands leak: when fdopen fails after a successful connect,
    ifc_set_throttle returns -1 with its socket (here descriptor 7) open. *)
Theorem ifc_set_throttle_leaks_socket :
  let E := scripted0 [resp 7; resp 0; resp 0; mk_response 0 (Some 12) [] []] in
  ∃ s', @ifc_set_throttle E 1 "wlan0" 100 100 initial_state = Val (Some (-1), s') ∧
    held 7 (trace s') = 1.
Proof. eexists. split; [vm_compute; reflexivity|vm_compute; reflexivity]. Qed.
End IfcUtils.
