(* ===== verification/IfcAddress.v ===== *)
(** * Interface addresses over netlink
    (src/system/core/libnetutils/ifc_utils.c, ifc_act_on_address and its callers)

    The rtnetlink request is built in a 68-byte object: a 16-byte nlmsghdr, an
    8-byte ifaddrmsg and 44 bytes of attributes.  A store outside it, or a shift
    outside the width of int, is undefined. *)
From S2P Require Import Prelude Runtime IfcUtils.
Import IfcUtils.

Module IfcAddress.

Definition RTM_NEWADDR : Z := 20.
Definition RTM_DELADDR : Z := 21.
Definition NLM_F_REQUEST : Z := 1.
Definition NLM_F_ACK : Z := 4.
Definition IFA_LOCAL : Z := 2.
Definition IFA_BROADCAST : Z := 4.
Definition NLMSG_ERROR : Z := 2.
Definition PF_NETLINK : Z := 16.
Definition NETLINK_ROUTE : Z := 0.
Definition INET_ADDRLEN : nat := 4.
Definition INET6_ADDRLEN : nat := 16.

(** NLMSG_ALIGN, RTA_LENGTH *)
Definition NLMSG_ALIGN (n : nat) : nat := (n + 3) / 4 * 4.
Definition RTA_LENGTH (n : nat) : nat := 4 + n.
Definition SIZEOF_NLMSGHDR : nat := 16.
Definition SIZEOF_IFADDRMSG : nat := 8.
Definition SIZEOF_REQ : nat :=
  SIZEOF_NLMSGHDR + SIZEOF_IFADDRMSG +
  (NLMSG_ALIGN 16 + NLMSG_ALIGN 4 + NLMSG_ALIGN 16 + NLMSG_ALIGN 4 + NLMSG_ALIGN 4).
(** sizeof(buf), the acknowledgement buffer *)
Definition SIZEOF_ACK : nat := NLMSG_ALIGN 16 + NLMSG_ALIGN 20 + NLMSG_ALIGN 16.

(** A store into an object. *)
Definition store (off : nat) (new obj : list Z) : outcome (list Z) :=
  if decide (off + length new ≤ length obj)%nat then Val (patch off new obj) else UB.

(** [(1 << n) - 1] in int: undefined when 1 << n is not representable. *)
Definition int_ones (n : Z) : outcome Z :=
  if (0 <=? n) && (n <? 31) then Val (Z.shiftl 1 n - 1) else UB.

(** The request and its length after appending one attribute. *)
Definition add_attr (rta_type : Z) (data : list Z) (req : list Z * nat) : outcome (list Z * nat) :=
  let (obj, nlmsg_len) := req in
  let off := NLMSG_ALIGN nlmsg_len in
  obj ← store off (le_store 2 (Z.of_nat (RTA_LENGTH (length data))) ++ le_store 2 rta_type) obj;
  obj ← store (off + 4) data obj;
  let nlmsg_len := (off + RTA_LENGTH (length data))%nat in
  Val (patch 0 (le_store 4 (Z.of_nat nlmsg_len)) obj, nlmsg_len).

Definition addr_headers (action pid family prefixlen ifindex : Z) : list Z * nat :=
  let n := (SIZEOF_NLMSGHDR + SIZEOF_IFADDRMSG)%nat in
  (patch 0 (le_store 4 (Z.of_nat n) ++ le_store 2 action ++
            le_store 2 (Z.lor NLM_F_REQUEST NLM_F_ACK) ++ le_store 4 0 ++ le_store 4 pid ++
            [u8 family; u8 prefixlen; 0; 0] ++ le_store 4 ifindex) (replicate SIZEOF_REQ 0), n).

(** The message [ifc_act_on_address] sends for an address of the family. *)
Definition address_request (action pid family prefixlen ifindex : Z) (addr : list Z)
    : outcome (list Z) :=
  req ← add_attr IFA_LOCAL addr (addr_headers action pid family prefixlen ifindex);
  req ← (if (family =? AF_INET) && (action =? RTM_NEWADDR) then
           host ← int_ones (32 - prefixlen);
           add_attr IFA_BROADCAST
             (le_store 4 (Z.lor (le_load addr) (htonl host))) req
         else Val req);
  load 0 req.2 req.1.

(** NLMSG_OK(nh, len) and the reply code. *)
Definition nlmsg_ok (buf : list Z) (len : Z) : bool :=
  let nlmsg_len := le_load (sub 0 4 buf) in
  (16 <=? len) && (16 <=? nlmsg_len) && (nlmsg_len <=? len).

Section Address.
Context `{Env} `{IfcHeader}.

Definition ifc_act_on_address (action : Z) (name address : string) (prefixlen : Z) : M Z :=
  ifindex ← call_ret (If_nametoindex name);
  if ifindex =? 0 then e ← get_state errno; mret (- e) else
  '(ret, ss) ← string_to_ip address (Some (indet 128));
  if negb (ret =? 0) then mret ret else
  let ss := default [] ss in
  let family := le_load (sub 0 2 ss) in
  if negb (family =? AF_INET) && negb (family =? AF_INET6) then mret (- EAFNOSUPPORT) else
  let addr := if family =? AF_INET then sub 4 INET_ADDRLEN ss else sub 8 INET6_ADDRLEN ss in
  pid ← call_ret Getpid;
  req ← lift (address_request action pid family prefixlen ifindex addr);
  s ← call_ret (Socket PF_NETLINK (Z.lor SOCK_RAW SOCK_CLOEXEC) NETLINK_ROUTE);
  if s <? 0 then e ← get_state errno; mret (- e) else
  sent ← call_ret (Send s req);
  if sent <? 0 then
    saved_errno ← get_state errno; call_ (Close s) ;; mret (- saved_errno)
  else
  r ← call (Recv s SIZEOF_ACK);
  saved_errno ← get_state errno;
  call_ (Close s) ;;
  let len := Runtime.ret r in
  if len <? 0 then mret (- saved_errno) else
  let buf := patch 0 (take SIZEOF_ACK (out r)) (indet SIZEOF_ACK) in
  if negb (nlmsg_ok buf len) || negb (le_load (sub 4 2 buf) =? NLMSG_ERROR)
  then mret (- EINVAL)
  else mret (i32 (le_load (sub 16 4 buf))).

Definition ifc_add_address (name address : string) (prefixlen : Z) : M Z :=
  ifc_act_on_address RTM_NEWADDR name address prefixlen.
Definition ifc_del_address (name address : string) (prefixlen : Z) : M Z :=
  ifc_act_on_address RTM_DELADDR name address prefixlen.

(** "Put the colons back": the 32 characters read, a colon after every fourth
    but the last.  With fewer characters the loop reads indeterminate ones. *)
Fixpoint colons (i : nat) (raw : string) : string :=
  match raw with
  | EmptyString => ""
  | String c rest =>
      if (Nat.modulo i 4 =? 3)%nat && negb (String.eqb rest "")
      then String c (":" +:+ colons (S i) rest)
      else String c (colons (S i) rest)
  end.
Definition address_text (raw : string) : outcome string :=
  if (String.length raw =? 32)%nat then Val (colons 0 raw) else UB.

(** The successive results of fscanf on /proc/net/if_inet6, which the file's
    contents (the response to fopen) determine: address, prefix length and
    interface of each line. *)
Fixpoint inet6_entries (ss : list string) (lens : list Z) : list (string * Z * string) :=
  match ss, lens with
  | raw :: ifname :: ss', n :: lens' => (raw, n, ifname) :: inet6_entries ss' lens'
  | _, _ => []
  end.

Fixpoint clear_entries (name : string) (entries : list (string * Z * string)) (lasterror : Z) : M Z :=
  match entries with
  | [] => mret lasterror
  | (raw, prefixlen, ifname) :: rest =>
      if negb (String.eqb name ifname) then clear_entries name rest lasterror else
      addrstr ← lift (address_text raw);
      if String.prefix "fe80:" addrstr then clear_entries name rest lasterror else
      ret ← ifc_del_address ifname addrstr prefixlen;
      clear_entries name rest (if ret =? 0 then lasterror else ret)
  end.

Definition ifc_clear_ipv6_addresses (name : string) : M Z :=
  f ← call (Fopen "/proc/net/if_inet6" "r");
  if ret f =? 0 then e ← get_state errno; mret (- e) else
  lasterror ← clear_entries name (inet6_entries (strs f) (out f)) 0;
  call_ Fclose ;; mret lasterror.

Definition ifc_clear_addresses (name : string) : M Z :=
  ifc_clear_ipv4_addresses name ;; ifc_clear_ipv6_addresses name.
End Address.

(** ** Properties *)

(** The wire format of the request: header with the total length, ifaddrmsg,
    IFA_LOCAL and, for a new IPv4 address, IFA_BROADCAST. *)
Definition attr (rta_type : Z) (data : list Z) : list Z :=
  le_store 2 (4 + Z.of_nat (length data)) ++ le_store 2 rta_type ++ data.
Definition request_bytes (action pid family prefixlen ifindex : Z) (attrs : list Z) : list Z :=
  le_store 4 (24 + Z.of_nat (length attrs)) ++ le_store 2 action ++ le_store 2 5 ++ le_store 4 0 ++
  le_store 4 pid ++ [u8 family; u8 prefixlen; 0; 0] ++ le_store 4 ifindex ++ attrs.

Lemma request_no_broadcast action pid family prefixlen ifindex addr :
  length addr = 4%nat ∨ length addr = 16%nat →
  (family =? AF_INET) && (action =? RTM_NEWADDR) = false →
  address_request action pid family prefixlen ifindex addr =
    Val (request_bytes action pid family prefixlen ifindex (attr IFA_LOCAL addr)).
Proof.
  intros Hlen Hb. unfold address_request. rewrite Hb.
  destruct Hlen as [Hlen|Hlen].
  - destruct addr as [|a0 [|a1 [|a2 [|a3 [|]]]]]; try done.
  - do 16 (destruct addr as [|? addr]; [done|]). destruct addr; [|done]. reflexivity.
Qed.

Lemma request_broadcast pid prefixlen ifindex addr :
  length addr = 4%nat →
  address_request RTM_NEWADDR pid AF_INET prefixlen ifindex addr =
    host ← int_ones (32 - prefixlen);
    Val (request_bytes RTM_NEWADDR pid AF_INET prefixlen ifindex
      (attr IFA_LOCAL addr ++ attr IFA_BROADCAST (le_store 4 (Z.lor (le_load addr) (htonl host))))).
Proof.
  intros Hlen. destruct addr as [|a0 [|a1 [|a2 [|a3 [|]]]]]; try done.
  unfold address_request. cbn [Z.eqb AF_INET RTM_NEWADDR Pos.eqb andb].
  destruct (int_ones (32 - prefixlen)) as [host|]; reflexivity.
Qed.

Lemma int_ones_eq n : int_ones n = if decide (0 ≤ n < 31) then Val (2 ^ n - 1) else UB.
Proof.
  unfold int_ones. case_decide as Hn.
  - rewrite (proj2 (andb_true_iff _ _)) by (split; lia). rewrite Z.shiftl_mul_pow2 by lia.
    do 2 f_equal. lia.
  - by rewrite (proj2 (andb_false_iff _ _)) by lia.
Qed.

(** The netlink request is built inside its object and has the wire format:
    the length field is the length sent, one IFA_LOCAL attribute carries the
    address, and a new IPv4 address also gets IFA_BROADCAST = address with the
    host bits set.  The one undefined behaviour is the shift that computes the
    host bits, for an IPv4 prefix length outside 2..32. *)
Theorem address_request_correct action pid family prefixlen ifindex addr :
  (family = AF_INET ∧ length addr = 4%nat) ∨ (family = AF_INET6 ∧ length addr = 16%nat) →
  address_request action pid family prefixlen ifindex addr =
    if decide (family = AF_INET ∧ action = RTM_NEWADDR) then
      if decide (2 ≤ prefixlen ≤ 32) then
        Val (request_bytes action pid family prefixlen ifindex
          (attr IFA_LOCAL addr ++
           attr IFA_BROADCAST (le_store 4 (Z.lor (le_load addr) (htonl (2 ^ (32 - prefixlen) - 1))))))
      else UB
    else Val (request_bytes action pid family prefixlen ifindex (attr IFA_LOCAL addr)).
Proof.
  intros Ha. destruct (decide (family = AF_INET ∧ action = RTM_NEWADDR)) as [[-> ->]|Hn].
  - destruct Ha as [[_ Hlen]|[? _]]; [|done]. rewrite request_broadcast, int_ones_eq by done.
    destruct (decide (2 ≤ prefixlen ≤ 32)).
    + by rewrite decide_True by lia.
    + by rewrite decide_False by lia.
  - apply request_no_broadcast; [naive_solver|].
    apply andb_false_iff. rewrite !Z.eqb_neq.
    destruct (decide (family = AF_INET)); [right|left]; naive_solver.
Qed.

Lemma address_request_correct_witness :
  address_request RTM_NEWADDR 100 AF_INET 24 3 [192; 168; 1; 7] =
    Val (request_bytes RTM_NEWADDR 100 AF_INET 24 3
      (attr IFA_LOCAL [192; 168; 1; 7] ++ attr IFA_BROADCAST [192; 168; 1; 255])).
Proof. rewrite address_request_correct; [vm_compute; reflexivity|by left]. Defined.

Section Resources.
Context `{Env} `{IfcHeader}.

Lemma act_on_address_balanced action name address prefixlen :
  balanced 0 0 (ifc_act_on_address action name address prefixlen).
Proof.
  unfold ifc_act_on_address, string_to_ip. balance.
  all: apply balanced_socket; intros fd Hfd.
  - rewrite (proj2 (Z.ltb_lt _ _)) by done. balance.
  - rewrite (proj2 (Z.ltb_ge _ _)) by done. closing.
Qed.
#[local] Hint Resolve act_on_address_balanced : balanced.

Lemma clear_entries_balanced name entries lasterror :
  balanced 0 0 (clear_entries name entries lasterror).
Proof.
  revert lasterror. induction entries as [|[[raw n] ifname] rest IH]; intros lasterror;
    cbn [clear_entries]; unfold ifc_del_address; balance.
Qed.
#[local] Hint Resolve clear_entries_balanced : balanced.

Ltac socket_paths :=
  apply balanced_socket; intros fd Hfd;
    [rewrite (proj2 (Z.ltb_lt _ _)) by done; balance
    |rewrite (proj2 (Z.ltb_ge _ _)) by done; unfold ioctl_ifr; closing].

(** Resources: when they return, the operations that open a socket of their
    own (addresses over netlink, the per-uid reset, the ccmni controls) have
    closed it on every path, and ifc_clear_addresses, which combines the IPv4
    loop and the netlink deletions, leaves both locks and all descriptors as it
    found them. *)
Theorem socket_operations_balanced action name address prefixlen uid error v :
  balanced 0 0 (ifc_act_on_address action name address prefixlen) ∧
  balanced 0 0 (ifc_clear_addresses name) ∧
  balanced 0 0 (ifc_reset_connection_by_uid uid error) ∧
  balanced 0 0 (ifc_set_txq_state name v) ∧ balanced 0 0 (ifc_ccmni_md_cfg name v).
Proof.
  split_and!.
  - apply act_on_address_balanced.
  - unfold ifc_clear_addresses, ifc_clear_ipv4_addresses, ifc_clear_ipv6_addresses. balance.
  - unfold ifc_reset_connection_by_uid. destruct HAVE_ANDROID_OS; [|balance]. socket_paths.
  - unfold ifc_set_txq_state. socket_paths.
  - unfold ifc_ccmni_md_cfg. socket_paths.
Qed.
End Resources.
End IfcAddress.
