(* ===== verification/DhcpClient.v ===== *)
(** * The DHCP client (src/system/core/libnetutils/dhcpclient.c, dhcptool.c)

    Parsing of replies, the acceptance test, and the SELECTING / REQUESTING
    state machine of [dhcp_init_ifc].  One iteration of its [for (;;)] loop is
    [dhcp_iter]; [dhcp_loop] runs a number of iterations. *)
From S2P Require Import Prelude Runtime DhcpMsg Packet IfcUtils.
Import DhcpMsg.

Module DhcpClient.

(** ** Updating a dhcp_info *)
Definition set_type v i := mk_dhcp_info v (ipaddr i) (gateway i) (prefixLength i) (dns1 i) (dns2 i) (serveraddr i) (lease i).
Definition set_ipaddr v i := mk_dhcp_info (type i) v (gateway i) (prefixLength i) (dns1 i) (dns2 i) (serveraddr i) (lease i).
Definition set_gateway v i := mk_dhcp_info (type i) (ipaddr i) v (prefixLength i) (dns1 i) (dns2 i) (serveraddr i) (lease i).
Definition set_prefixLength v i := mk_dhcp_info (type i) (ipaddr i) (gateway i) v (dns1 i) (dns2 i) (serveraddr i) (lease i).
Definition set_dns1 v i := mk_dhcp_info (type i) (ipaddr i) (gateway i) (prefixLength i) v (dns2 i) (serveraddr i) (lease i).
Definition set_dns2 v i := mk_dhcp_info (type i) (ipaddr i) (gateway i) (prefixLength i) (dns1 i) v (serveraddr i) (lease i).
Definition set_serveraddr v i := mk_dhcp_info (type i) (ipaddr i) (gateway i) (prefixLength i) (dns1 i) (dns2 i) v (lease i).
Definition set_lease v i := mk_dhcp_info (type i) (ipaddr i) (gateway i) (prefixLength i) (dns1 i) (dns2 i) (serveraddr i) v.

(** ** Decoding *)

(** [*x] and [memcpy(&v, x, 4)] on the options array *)
Definition rd (opts : list Z) (x : nat) : outcome Z := of_option (opts !! x).
Definition rd32 (opts : list Z) (x : nat) : outcome Z :=
  bs ← load x 4 opts; Val (le_load bs).

(** The switch of decode_dhcp_msg on one option at [x]. *)
Definition decode_option (opt optlen : Z) (opts : list Z) (x : nat) (info : dhcp_info)
    : outcome dhcp_info :=
  if opt =? OPT_SUBNET_MASK then
    if 4 <=? optlen then
      mask ← rd32 opts x;
      Val (set_prefixLength (IfcUtils.ipv4NetmaskToPrefixLength mask) info)
    else Val info
  else if opt =? OPT_GATEWAY then
    if 4 <=? optlen then g ← rd32 opts x; Val (set_gateway g info) else Val info
  else if opt =? OPT_DNS then
    info ← (if 4 <=? optlen then d ← rd32 opts x; Val (set_dns1 d info) else Val info);
    if 8 <=? optlen then d ← rd32 opts (x + 4); Val (set_dns2 d info) else Val info
  else if opt =? OPT_LEASE_TIME then
    if 4 <=? optlen then l ← rd32 opts x; Val (set_lease (ntohl l) info) else Val info
  else if opt =? OPT_SERVER_ID then
    if 4 <=? optlen then a ← rd32 opts x; Val (set_serveraddr a info) else Val info
  else if opt =? OPT_MESSAGE_TYPE then
    t ← rd opts x; Val (set_type t info)
  else Val info.

(** [while (len > 2)]; every iteration consumes at least one byte of [len], so
    a fuel of [len] is enough ([decode_loop_fuel]). *)
Fixpoint decode_loop (fuel : nat) (opts : list Z) (x : nat) (len : Z) (info : dhcp_info)
    : outcome dhcp_info :=
  match fuel with
  | O => Val info
  | S fuel' =>
      if len <=? 2 then Val info else
      opt ← rd opts x;
      if opt =? OPT_PAD then decode_loop fuel' opts (S x) (len - 1) info
      else if opt =? OPT_END then Val info
      else
        optlen ← rd opts (S x);
        let len := len - 2 in
        if len <? optlen then Val info else
        info ← decode_option opt optlen opts (x + 2) info;
        decode_loop fuel' opts (x + 2 + Z.to_nat optlen) (len - optlen) info
  end.

(** The return value and *info. *)
Definition decode_dhcp_msg (msg : dhcp_msg) (len : Z) : outcome (Z * dhcp_info) :=
  if len <? DHCP_MSG_FIXED_SIZE + 4 then Val (-1, zero_info) else
  let len := len - (DHCP_MSG_FIXED_SIZE + 4) in
  c1 ← rd (options msg) 0;
  if negb (c1 =? OPT_COOKIE1) then Val (-1, zero_info) else
  c2 ← rd (options msg) 1;
  if negb (c2 =? OPT_COOKIE2) then Val (-1, zero_info) else
  c3 ← rd (options msg) 2;
  if negb (c3 =? OPT_COOKIE3) then Val (-1, zero_info) else
  c4 ← rd (options msg) 3;
  if negb (c4 =? OPT_COOKIE4) then Val (-1, zero_info) else
  info ← decode_loop (Z.to_nat len) (options msg) 4 len zero_info;
  Val (0, set_ipaddr (yiaddr msg) info).

Definition dhcp_type_to_name (t : Z) : string :=
  if t =? DHCPDISCOVER then "discover" else if t =? DHCPOFFER then "offer"
  else if t =? DHCPREQUEST then "request" else if t =? DHCPDECLINE then "decline"
  else if t =? DHCPACK then "ack" else if t =? DHCPNAK then "nak"
  else if t =? DHCPRELEASE then "release" else if t =? DHCPINFORM then "inform" else "???".

(** ** Dumping

    dump_dhcp_msg logs the message; its effects on the program are the
    sanitising of the two text fields and its reads of the options.  hex2str
    writes nothing for a hardware address of length 0: the buffer is then logged
    as a string without having been written, which is undefined. *)
Fixpoint sanitize (text : list Z) : list Z :=
  match text with
  | [] => []
  | x :: rest =>
      if (x <? 32) || (127 <? x)
      then (if x =? 0 then x :: rest else 46 :: sanitize rest)
      else x :: sanitize rest
  end.

Fixpoint dump_loop (fuel : nat) (opts : list Z) (x : nat) (len : Z) : outcome unit :=
  match fuel with
  | O => Val tt
  | S fuel' =>
      if len <=? 2 then Val tt else
      opt ← rd opts x;
      if opt =? 0 then dump_loop fuel' opts (S x) (len - 1)
      else if opt =? OPT_END then Val tt
      else
        let len := len - 2 in
        optsz ← rd opts (S x);
        if len <? optsz then Val tt else
        _ ← load (x + 2) (Z.to_nat optsz) opts;
        _ ← (if opt =? OPT_MESSAGE_TYPE then rd opts (x + 2) else Val 0);
        dump_loop fuel' opts (x + Z.to_nat optsz + 2) (len - optsz)
  end.

Definition dump_dhcp_msg (msg : dhcp_msg) (len : Z) : outcome dhcp_msg :=
  if len <? DHCP_MSG_FIXED_SIZE then Val msg else
  let len := len - DHCP_MSG_FIXED_SIZE in
  let c := if 16 <? hlen msg then 16 else hlen msg in
  _ ← guard_ub (negb (c =? 0));
  let msg := set_sname (<[63%nat := 0]> (sanitize (sname msg))) msg in
  let msg := set_file (<[127%nat := 0]> (sanitize (file msg))) msg in
  if len <? 4 then Val msg else
  let len := len - 4 in
  _ ← dump_loop (Z.to_nat len) (options msg) 4 len;
  Val msg.

(** ** Acceptance of a reply *)
Definition is_valid_reply (msg reply : dhcp_msg) (sz : Z) : bool :=
  if sz <? DHCP_MSG_FIXED_SIZE then false
  else if negb (op reply =? OP_BOOTREPLY) then false
  else if negb (xid reply =? xid msg) then false
  else if negb (htype reply =? htype msg) then false
  else if negb (hlen reply =? hlen msg) then false
  else if bool_decide (sub 28 (Z.to_nat (hlen msg)) (dhcp_msg_bytes msg) =
                       sub 28 (Z.to_nat (hlen msg)) (dhcp_msg_bytes reply)) then true
  else false.

(** ** The client *)
Definition STATE_SELECTING : Z := 1.
Definition STATE_REQUESTING : Z := 2.
Definition TIMEOUT_INITIAL : Z := 4000.
Definition TIMEOUT_MAX : Z := 32000.
Definition INADDR_ANY : Z := 0.
Definition INADDR_BROADCAST : Z := 0xffffffff.
Definition EINTR : Z := 4.
Definition ENXIO : Z := 6.
Definition EAGAIN : Z := 11.
Definition ETIME : Z := 62.
Definition ENETDOWN : Z := 100.

(** The locals of dhcp_init_ifc that change in the loop. *)
Record client := mk_client {
  state : Z; timeout : Z; cxid : Z; info : dhcp_info;
  discover_msg : dhcp_msg; request_msg : dhcp_msg; reply : dhcp_msg
}.

(** The locals fixed before the loop. *)
Record link := mk_link { ifname : string; sock : Z; hwaddr : list Z; if_index : Z }.

Definition set_timeout t c := mk_client (state c) t (cxid c) (info c) (discover_msg c) (request_msg c) (reply c).
Definition set_discover m c := mk_client (state c) (timeout c) (cxid c) (info c) m (request_msg c) (reply c).
Definition set_request m c := mk_client (state c) (timeout c) (cxid c) (info c) (discover_msg c) m (reply c).
Definition set_reply m c := mk_client (state c) (timeout c) (cxid c) (info c) (discover_msg c) (request_msg c) m.
Definition set_info i c := mk_client (state c) (timeout c) (cxid c) i (discover_msg c) (request_msg c) (reply c).

Section Client.
Context `{Env}.

(** The low 32 bits of the monotonic clock in milliseconds. *)
Definition get_msecs : M Z :=
  r ← call Clock_gettime;
  mret (if ret r =? 0 then
          match out r with
          | sec :: nsec :: _ => (sec * 1000 + nsec / 1000000) mod 2 ^ 64
          | _ => 0
          end
        else 0).

Definition get_dhcp_info : M (Z * Z * Z * Z * Z * Z * Z) :=
  i ← get_state last_good_info;
  mret (ipaddr i, gateway i, prefixLength i, dns1 i, dns2 i, serveraddr i, lease i).

Definition dhcp_configure (name : string) (i : dhcp_info) : M Z :=
  modify (set_last_good_info i) ;;
  IfcUtils.ifc_configure name (ipaddr i) (prefixLength i) (gateway i) (dns1 i) (dns2 i).

(** The message as dump_dhcp_msg leaves it, and the result of the send. *)
Definition send_message (s if_idx : Z) (msg : dhcp_msg) (size : Z) : M (Z * dhcp_msg) :=
  msg ← lift (dump_dhcp_msg msg size);
  r ← Packet.send_packet s if_idx msg size INADDR_ANY INADDR_BROADCAST
        PORT_BOOTP_CLIENT PORT_BOOTP_SERVER;
  mret (r, msg).

(** The code at the label [transmit]. *)
Definition transmit (l : link) (c : client) : M client :=
  if state c =? STATE_SELECTING then
    '(m, size) ← lift (init_dhcp_discover_msg (hwaddr l) (cxid c));
    '(r, m) ← send_message (sock l) (if_index l) m size;
    (if r <? 0 then e ← get_state errno; printerr ("error sending dhcp msg: " +:+ strerror e +:+ newline)
     else mret tt) ;;
    mret (set_discover m c)
  else if state c =? STATE_REQUESTING then
    '(m, size) ← lift (init_dhcp_request_msg (hwaddr l) (cxid c) (ipaddr (info c)) (serveraddr (info c)));
    '(r, m) ← send_message (sock l) (if_index l) m size;
    (if r <? 0 then e ← get_state errno; printerr ("error sending dhcp msg: " +:+ strerror e +:+ newline)
     else mret tt) ;;
    mret (set_request m c)
  else mret c.

(** [r == 0]: the poll timed out. *)
Definition on_timeout (l : link) (c : client) : M (client + Z) :=
  printerr ("TIMEOUT" +:+ newline) ;;
  if TIMEOUT_MAX <=? timeout c then
    printerr ("timed out" +:+ newline) ;;
    if type (info c) =? DHCPOFFER then
      printerr ("no acknowledgement from DHCP server" +:+ newline +:+ "configuring " +:+ ifname l +:+
                " with offered parameters" +:+ newline) ;;
      r ← dhcp_configure (ifname l) (info c); mret (inr r)
    else modify (set_errno ETIME) ;; call_ (Close (sock l)) ;; mret (inr (-1))
  else c' ← transmit l (set_timeout (u32 (timeout c * 2)) c); mret (inl c').

(** The switch on the state for a valid reply. *)
Definition on_reply (l : link) (c : client) : M (client + Z) :=
  if state c =? STATE_SELECTING then
    if type (info c) =? DHCPOFFER then
      c' ← transmit l (mk_client STATE_REQUESTING TIMEOUT_INITIAL (u32 (cxid c + 1)) (info c)
                         (discover_msg c) (request_msg c) (reply c));
      mret (inl c')
    else mret (inl c)
  else if state c =? STATE_REQUESTING then
    if type (info c) =? DHCPACK then
      printerr ("configuring " +:+ ifname l +:+ newline) ;; call_ (Close (sock l)) ;;
      r ← dhcp_configure (ifname l) (info c); mret (inr r)
    else if type (info c) =? DHCPNAK then
      printerr ("configuration request denied" +:+ newline) ;; call_ (Close (sock l)) ;; mret (inr (-1))
    else
      printerr ("ignoring " +:+ dhcp_type_to_name (type (info c)) +:+ " message in state " +:+
                pretty (state c) +:+ newline) ;; mret (inl c)
  else mret (inl c).

(** A datagram of [r] bytes in [rep]: dump, decode, validate, dispatch. *)
Definition on_packet (l : link) (c : client) (r : Z) (rep : dhcp_msg) : M (client + Z) :=
  rep ← lift (dump_dhcp_msg rep r);
  '(_, i) ← lift (decode_dhcp_msg rep r);
  let c := set_info i (set_reply rep c) in
  let valid_reply :=
    if state c =? STATE_SELECTING then is_valid_reply (discover_msg c) rep r
    else is_valid_reply (request_msg c) rep r in
  if negb valid_reply then printerr ("invalid reply" +:+ newline) ;; mret (inl c)
  else on_reply l c.

(** One iteration of the loop: the next client, or the value returned. *)
Definition dhcp_iter (l : link) (c : client) : M (client + Z) :=
  r ← call_ret (Poll (sock l) (timeout c));
  if r =? 0 then on_timeout l c
  else if r <? 0 then
    e ← get_state errno;
    if (e =? EAGAIN) || (e =? EINTR) then mret (inl c)
    else r ← fatal "poll failed"; mret (inr r)
  else
    modify (set_errno 0) ;;
    '(r, rep) ← Packet.receive_packet (sock l) (indet Packet.SIZEOF_PACKET) (reply c);
    if r <? 0 then
      e ← get_state errno;
      if (e =? ENETDOWN) || (e =? ENXIO) then mret (inr (-1)) else mret (inl (set_reply rep c))
    else on_packet l c r rep.

(** At most [n] iterations: [inl] when the loop is still running. *)
Fixpoint dhcp_loop (n : nat) (l : link) (c : client) : M (client + Z) :=
  match n with
  | O => mret (inl c)
  | S n' =>
      x ← dhcp_iter l c;
      match x with inl c' => dhcp_loop n' l c' | inr r => mret (inr r) end
  end.

(** The locals before the first transmission: info.type is 0, the rest is
    indeterminate. *)
Definition initial_client (xid0 : Z) : client :=
  let m := dhcp_msg_of_bytes (indet SIZEOF_DHCP_MSG) in
  let w k := le_load (sub (4 * k) 4 (indet 32)) in
  mk_client STATE_SELECTING TIMEOUT_INITIAL xid0
    (mk_dhcp_info 0 (w 1%nat) (w 2%nat) (w 3%nat) (w 4%nat) (w 5%nat) (w 6%nat) (w 7%nat)) m m m.

(** dhcp_init_ifc up to the loop, first transmission included. *)
Definition dhcp_setup (name : string) : M (link * client + Z) :=
  t ← get_msecs;
  '(r, hw) ← IfcUtils.ifc_get_hwaddr name;
  if negb (r =? 0) then r ← fatal "cannot obtain interface address"; mret (inr r) else
  '(r, idx) ← IfcUtils.ifc_get_ifindex name;
  if negb (r =? 0) then r ← fatal "cannot obtain interface index"; mret (inr r) else
  s ← Packet.open_raw_socket hw idx;
  let l := mk_link name s hw idx in
  c ← transmit l (initial_client (u32 t));
  mret (inl (l, c)).

Definition dhcp_init_ifc (n : nat) (name : string) : M (client + Z) :=
  x ← dhcp_setup name;
  match x with
  | inl (l, c) => dhcp_loop n l c
  | inr r => mret (inr r)
  end.

Definition do_dhcp (n : nat) (iname : string) : M (client + Z) :=
  r ← IfcUtils.ifc_set_addr iname 0;
  if negb (r =? 0) then
    e ← get_state errno;
    printerr ("failed to set ip addr for " +:+ iname +:+ " to 0.0.0.0: " +:+ strerror e +:+ newline) ;;
    mret (inr (-1))
  else
  r ← IfcUtils.ifc_up iname;
  if negb (r =? 0) then
    e ← get_state errno;
    printerr ("failed to bring up interface " +:+ iname +:+ ": " +:+ strerror e +:+ newline) ;;
    mret (inr (-1))
  else dhcp_init_ifc n iname.

(** main of dhcptool: the exit status; error() and err() exit at once, err()
    with errno. *)
Definition dhcptool_main (n : nat) (argv : list string) : M (client + Z) :=
  match argv with
  | [_; interface] =>
      r ← IfcUtils.ifc_init;
      if negb (r =? 0) then e ← get_state errno; mret (inr e) else
      rc ← do_dhcp n interface;
      match rc with
      | inl c => mret (inl c)
      | inr rc =>
          if negb (rc =? 0) then e ← get_state errno; mret (inr e)
          else IfcUtils.ifc_close ;; mret (inr 0)
      end
  | _ => mret (inr 1)
  end.
End Client.

(** ** Options as type-length-value items

    The abstract view of an options area: padding, and options with a code and
    a body; [apply_item] is what one item contributes to the result. *)
Inductive item := Pad | Opt (code : Z) (body : list Z).

Definition encode_item (i : item) : list Z :=
  match i with Pad => [OPT_PAD] | Opt code body => code :: Z.of_nat (length body) :: body end.
Definition encode_items (is_ : list item) : list Z := is_ ≫= encode_item.

Definition wf_item (i : item) : Prop :=
  match i with
  | Pad => True
  | Opt code body => code ≠ OPT_PAD ∧ code ≠ OPT_END ∧ is_u8 code ∧ bytes body ∧
      (length body < 256)%nat ∧ (code = OPT_MESSAGE_TYPE → body ≠ [])
  end.

Definition word_at (k : nat) (body : list Z) : option Z :=
  if decide (k + 4 ≤ length body)%nat then Some (le_load (sub k 4 body)) else None.

Definition set_if (f : Z → dhcp_info → dhcp_info) (o : option Z) (i : dhcp_info) : dhcp_info :=
  match o with Some v => f v i | None => i end.

Definition apply_item (i : dhcp_info) (it : item) : dhcp_info :=
  match it with
  | Pad => i
  | Opt code body =>
      if code =? OPT_SUBNET_MASK then
        set_if set_prefixLength (IfcUtils.ipv4NetmaskToPrefixLength <$> word_at 0 body) i
      else if code =? OPT_GATEWAY then set_if set_gateway (word_at 0 body) i
      else if code =? OPT_DNS then
        set_if set_dns2 (word_at 4 body) (set_if set_dns1 (word_at 0 body) i)
      else if code =? OPT_LEASE_TIME then set_if set_lease (ntohl <$> word_at 0 body) i
      else if code =? OPT_SERVER_ID then set_if set_serveraddr (word_at 0 body) i
      else if code =? OPT_MESSAGE_TYPE then set_if set_type (head body) i
      else i
  end.

Definition interpret (is_ : list item) : dhcp_info := foldl apply_item zero_info is_.

(** ** Decoding: lemmas *)
Lemma rd_middle pre b post : rd (pre ++ b :: post) (length pre) = Val b.
Proof. unfold rd. by rewrite list_lookup_middle. Qed.

Lemma rd_ok opts x : (x < length opts)%nat → ∃ v, rd opts x = Val v ∧ v ∈ opts.
Proof.
  intros Hx. apply lookup_lt_is_Some in Hx as [v Hv]. exists v. unfold rd. rewrite Hv.
  split; [done|]. by eapply list_elem_of_lookup_2.
Qed.

Lemma rd32_ok opts x :
  (x + 4 ≤ length opts)%nat → rd32 opts x = Val (le_load (sub x 4 opts)).
Proof. intros. unfold rd32, load. by rewrite decide_True. Qed.

Lemma sub_in_body pre body post k :
  (k + 4 ≤ length body)%nat → sub (length pre + k) 4 (pre ++ body ++ post) = sub k 4 body.
Proof.
  intros. rewrite sub_app_skip by lia. replace (length pre + k - length pre)%nat with k by lia.
  unfold sub. rewrite drop_app_le by lia. rewrite take_app_le by (rewrite length_drop; lia). done.
Qed.

(** A guarded 4-byte read inside an option body. *)
Lemma rd32_body pre body post k n f i :
  n = Z.of_nat k + 4 →
  (if n <=? Z.of_nat (length body)
   then v ← rd32 (pre ++ body ++ post) (length pre + k); Val (f v i) else Val i) =
  Val (set_if f (word_at k body) i).
Proof.
  intros ->. unfold word_at. case_decide.
  - rewrite (proj2 (Z.leb_le _ _)) by lia.
    rewrite rd32_ok by (rewrite !length_app; lia). by rewrite bind_Val, sub_in_body.
  - by rewrite (proj2 (Z.leb_gt _ _)) by lia.
Qed.

Lemma rd32_body_fmap g pre body post k n f i :
  n = Z.of_nat k + 4 →
  (if n <=? Z.of_nat (length body)
   then v ← rd32 (pre ++ body ++ post) (length pre + k); Val (f (g v) i) else Val i) =
  Val (set_if f (g <$> word_at k body) i).
Proof.
  intros Hn. rewrite (rd32_body pre body post k n (λ v, f (g v)) i Hn).
  by destruct (word_at k body).
Qed.

Lemma decode_option_eq code pre body post i :
  (code = OPT_MESSAGE_TYPE → body ≠ []) →
  decode_option code (Z.of_nat (length body)) (pre ++ body ++ post) (length pre) i =
  Val (apply_item i (Opt code body)).
Proof.
  intros Hty. unfold decode_option, apply_item.
  assert (H0 : length pre = (length pre + 0)%nat) by lia.
  destruct (code =? OPT_SUBNET_MASK).
  { rewrite H0 at 1. by apply (rd32_body_fmap IfcUtils.ipv4NetmaskToPrefixLength). }
  destruct (code =? OPT_GATEWAY); [rewrite H0 at 1; by apply rd32_body|].
  destruct (code =? OPT_DNS).
  { rewrite H0 at 1. rewrite rd32_body by done. rewrite bind_Val. by apply rd32_body. }
  destruct (code =? OPT_LEASE_TIME); [rewrite H0 at 1; by apply (rd32_body_fmap ntohl)|].
  destruct (code =? OPT_SERVER_ID); [rewrite H0 at 1; by apply rd32_body|].
  destruct (Z.eqb_spec code OPT_MESSAGE_TYPE) as [->|]; [|done].
  destruct body as [|b body]; [by destruct Hty|]. cbn [app]. by rewrite rd_middle.
Qed.

(** Decoding an options area that starts with the encoded items. *)
Lemma decode_loop_items is_ : ∀ fuel pre post len i,
  Forall wf_item is_ → Z.of_nat (length (encode_items is_)) < len → len ≤ Z.of_nat fuel →
  decode_loop fuel (pre ++ encode_items is_ ++ OPT_END :: post) (length pre) len i =
  Val (foldl apply_item i is_).
Proof.
  induction is_ as [|it is_ IH]; intros fuel pre post len i Hwf Hlen Hfuel;
    unfold encode_items in *; cbn [mbind list_bind foldl] in *.
  - destruct fuel as [|fuel]; [lia|]. cbn [decode_loop app]. destruct (len <=? 2); [done|].
    by rewrite rd_middle, bind_Val.
  - apply Forall_cons_1 in Hwf as [Hit Hwf]. rewrite length_app in Hlen.
    destruct fuel as [|fuel]; [cbn in Hlen; lia|]. cbn [decode_loop].
    destruct it as [|code body]; cbn [encode_item app length] in *.
    + destruct (Z.leb_spec len 2).
      { destruct is_ as [|it' is_]; [done|]. exfalso. cbn [mbind list_bind] in Hlen.
        rewrite length_app in Hlen. destruct it'; cbn [encode_item length] in Hlen; lia. }
      rewrite rd_middle, bind_Val. cbn [Z.eqb OPT_PAD].
      specialize (IH fuel (pre ++ [OPT_PAD]) post (len - 1) i Hwf). rewrite length_app in IH.
      rewrite <- app_assoc in IH. cbn [length app] in IH.
      replace (length pre + 1)%nat with (S (length pre)) in IH by lia. apply IH; lia.
    + destruct Hit as (Hp & He & Hc & Hb & Hl & Hty).
      rewrite (proj2 (Z.leb_gt _ _)) by lia. rewrite rd_middle, bind_Val.
      rewrite (proj2 (Z.eqb_neq _ _) Hp), (proj2 (Z.eqb_neq _ _) He).
      specialize (IH fuel (pre ++ code :: Z.of_nat (length body) :: body) post
        (len - 2 - Z.of_nat (length body)) (apply_item i (Opt code body)) Hwf).
      rewrite length_app, <- app_assoc in IH. cbn [length app] in IH.
      set (rest := is_ ≫= encode_item) in *. rewrite <- !app_assoc in *.
      assert (Hrd : rd (pre ++ code :: Z.of_nat (length body) :: body ++ rest ++ OPT_END :: post)
                (S (length pre)) = Val (Z.of_nat (length body))).
      { unfold rd. rewrite lookup_app_r by lia. by replace (S (length pre) - length pre)%nat with 1%nat by lia. }
      rewrite Hrd, bind_Val. rewrite (proj2 (Z.ltb_ge _ _)) by lia.
      pose proof (decode_option_eq code (pre ++ [code; Z.of_nat (length body)]) body
        (rest ++ OPT_END :: post) i Hty) as Hdo.
      rewrite length_app, <- app_assoc in Hdo. cbn [length app] in Hdo. rewrite Hdo, bind_Val.
      rewrite Nat2Z.id. replace (length pre + 2 + length body)%nat
        with (length pre + S (S (length body)))%nat by lia. apply IH; lia.
Qed.

Record wf_info (i : dhcp_info) : Prop := mk_wf_info {
  wf_type : is_u32 (type i); wf_ipaddr : is_u32 (ipaddr i); wf_gateway : is_u32 (gateway i);
  wf_prefix : is_u32 (prefixLength i); wf_dns1 : is_u32 (dns1 i); wf_dns2 : is_u32 (dns2 i);
  wf_server : is_u32 (serveraddr i); wf_lease : is_u32 (lease i)
}.

Lemma zero_info_wf : wf_info zero_info.
Proof. done. Qed.

Lemma prefix_length_u32 mask : is_u32 (IfcUtils.ipv4NetmaskToPrefixLength mask).
Proof.
  destruct (IfcUtils.leading_ones_spec 33 (ntohl mask) 0 0) as (k & Hk & Hb & _); [lia|done|lia|].
  unfold IfcUtils.ipv4NetmaskToPrefixLength. rewrite Hk. unfold is_u32. lia.
Qed.

Lemma u8_u32 z : is_u8 z → is_u32 z.
Proof. unfold is_u8, is_u32. lia. Qed.

Lemma word_u32 opts x : bytes opts → is_u32 (le_load (sub x 4 opts)).
Proof.
  intros Hb. pose proof (le_load_bounds (sub x 4 opts) (sub_bytes _ _ _ Hb)) as [Hl Hu].
  unfold is_u32. split; [done|]. eapply Z.lt_le_trans; [exact Hu|].
  change 4294967296 with (256 ^ 4). apply Z.pow_le_mono_r; [lia|].
  unfold sub. rewrite length_take. lia.
Qed.

(** Steps through a guarded read of a decoder branch. *)
Ltac branch_reads :=
  repeat match goal with
  | |- context [if ?b then _ else _] => destruct b eqn:?; zbool
  | |- context [rd32 ?o ?x] => rewrite (rd32_ok o x) by lia
  | |- context [Val _ ≫= _] => rewrite bind_Val
  | Hx : (?x < length ?o)%nat |- context [rd ?o ?x] =>
      destruct (rd_ok o x Hx) as (? & -> & ?)
  end.

Lemma decode_option_safe opt optlen opts x i :
  bytes opts → 0 ≤ optlen → (x + Z.to_nat optlen ≤ length opts)%nat → (x < length opts)%nat →
  wf_info i → ∃ i', decode_option opt optlen opts x i = Val i' ∧ wf_info i'.
Proof.
  intros Hb H0 Hx Hx1 Hi. unfold decode_option. branch_reads; eexists; (split; [done|]);
    try done; destruct Hi; split;
    cbn [type ipaddr gateway prefixLength dns1 dns2 serveraddr lease set_type set_gateway
      set_prefixLength set_dns1 set_dns2 set_serveraddr set_lease];
    auto using word_u32, prefix_length_u32, htonl_u32.
  all: apply u8_u32, (proj1 (Forall_forall _ _) Hb); done.
Qed.

Lemma decode_loop_safe fuel : ∀ opts x len i,
  bytes opts → Z.of_nat x + len ≤ Z.of_nat (length opts) → wf_info i →
  ∃ i', decode_loop fuel opts x len i = Val i' ∧ wf_info i'.
Proof.
  induction fuel as [|fuel IH]; intros opts x len i Hb Hx Hi; [by exists i|].
  cbn [decode_loop]. destruct (Z.leb_spec len 2); [by exists i|].
  destruct (rd_ok opts x) as (opt & -> & _); [lia|]. rewrite bind_Val.
  destruct (opt =? OPT_PAD); [apply IH; [done|lia|done]|].
  destruct (opt =? OPT_END); [by exists i|].
  destruct (rd_ok opts (S x)) as (optlen & -> & Hin); [lia|]. rewrite bind_Val.
  pose proof (proj1 (Forall_forall _ _) Hb _ Hin) as Ho. unfold is_u8 in Ho.
  destruct (Z.ltb_spec (len - 2) optlen); [by exists i|].
  destruct (decode_option_safe opt optlen opts (x + 2) i) as (i1 & -> & Hi1); [done|lia..|done|].
  rewrite bind_Val. apply IH; [done|lia|done].
Qed.

(** [len] iterations are enough: more fuel does not change the result. *)
Lemma decode_loop_fuel fuel more : ∀ opts x len i,
  bytes opts → len ≤ Z.of_nat fuel →
  decode_loop (fuel + more) opts x len i = decode_loop fuel opts x len i.
Proof.
  induction fuel as [|fuel IH]; intros opts x len i Hb Hl.
  { destruct more; cbn; [done|]. by rewrite (proj2 (Z.leb_le _ _)) by lia. }
  cbn [decode_loop Nat.add]. destruct (len <=? 2); [done|].
  destruct (rd opts x) as [opt|] eqn:?; [rewrite !bind_Val|done].
  destruct (opt =? OPT_PAD); [apply IH; [done|lia]|]. destruct (opt =? OPT_END); [done|].
  destruct (rd opts (S x)) as [optlen|] eqn:Hrd; [rewrite !bind_Val|done].
  assert (is_u8 optlen) as Ho.
  { unfold rd in Hrd. destruct (opts !! S x) as [v|] eqn:Hv; [|done].
    assert (v = optlen) as <- by (cbn in Hrd; congruence). by eapply Forall_lookup_1. }
  unfold is_u8 in Ho. destruct (len - 2 <? optlen); [done|].
  destruct (decode_option _ _ _ _ _); [rewrite !bind_Val; apply IH; [done|lia]|done].
Qed.

Lemma decode_safe msg len :
  wf_msg msg → len ≤ Z.of_nat SIZEOF_DHCP_MSG →
  ∃ r i, decode_dhcp_msg msg len = Val (r, i) ∧ wf_info i ∧
    (r = 0 ∧ ipaddr i = yiaddr msg ∨ r = -1 ∧ i = zero_info).
Proof.
  intros Hm Hlen. destruct (wf_options _ Hm) as [Hb Hl]. unfold decode_dhcp_msg.
  unfold SIZEOF_DHCP_MSG, OPTIONS_LEN, DHCP_MSG_FIXED_SIZE in *.
  assert (Hbad : ∃ r i, @Val (Z * dhcp_info) (-1, zero_info) = Val (r, i) ∧ wf_info i ∧
    (r = 0 ∧ ipaddr i = yiaddr msg ∨ r = -1 ∧ i = zero_info)) 
    by (exists (-1), zero_info; split_and!; [done|apply zero_info_wf|by right]).
  destruct (Z.ltb_spec len (236 + 4)); [done|].
  let cookie k := (destruct (rd_ok (options msg) k) as (? & -> & _); [lia|];
    rewrite bind_Val; destruct (negb _); [exact Hbad|]) in
  cookie 0%nat; cookie 1%nat; cookie 2%nat; cookie 3%nat.
  destruct (decode_loop_safe (Z.to_nat (len - (236 + 4))) (options msg) 4 (len - (236 + 4)) zero_info)
    as (i & -> & Hi); [done|lia|apply zero_info_wf|].
  rewrite bind_Val. exists 0, (set_ipaddr (yiaddr msg) i). split_and!; [done| |by left].
  destruct Hi; split; try done. apply Hm.
Qed.

(** A message whose options start with the magic cookie. *)
Definition cookie : list Z := [OPT_COOKIE1; OPT_COOKIE2; OPT_COOKIE3; OPT_COOKIE4].

Lemma decode_cookie msg rest len :
  options msg = cookie ++ rest → DHCP_MSG_FIXED_SIZE + 4 ≤ len →
  decode_dhcp_msg msg len =
    (i ← decode_loop (Z.to_nat (len - (DHCP_MSG_FIXED_SIZE + 4))) (cookie ++ rest) 4
           (len - (DHCP_MSG_FIXED_SIZE + 4)) zero_info;
     Val (0, set_ipaddr (yiaddr msg) i)).
Proof.
  intros Ho Hlen. unfold decode_dhcp_msg. rewrite (proj2 (Z.ltb_ge _ _)) by lia. by rewrite Ho.
Qed.

Lemma decode_items msg is_ post len :
  Forall wf_item is_ → options msg = cookie ++ encode_items is_ ++ OPT_END :: post →
  DHCP_MSG_FIXED_SIZE + 4 + Z.of_nat (length (encode_items is_)) < len →
  decode_dhcp_msg msg len = Val (0, set_ipaddr (yiaddr msg) (interpret is_)).
Proof.
  intros Hwf Ho Hlen. rewrite (decode_cookie _ _ _ Ho) by lia.
  rewrite (decode_loop_items is_ _ cookie post) by (done || lia). done.
Qed.

(** ** Dumping: lemmas *)
Lemma sanitize_text text :
  bytes text → bytes (sanitize text) ∧ length (sanitize text) = length text.
Proof.
  induction 1 as [|x text Hx Ht [IHb IHl]]; cbn [sanitize]; [done|].
  split_guards; cbn [length]; split; try (by rewrite IHl); constructor; done.
Qed.

Lemma dump_loop_safe fuel : ∀ opts x len,
  bytes opts → Z.of_nat x + len ≤ Z.of_nat (length opts) → dump_loop fuel opts x len = Val tt.
Proof.
  induction fuel as [|fuel IH]; intros opts x len Hb Hx; [done|].
  cbn [dump_loop]. destruct (Z.leb_spec len 2); [done|].
  destruct (rd_ok opts x) as (opt & -> & _); [lia|]. rewrite bind_Val.
  destruct (opt =? 0); [apply IH; [done|lia]|]. destruct (opt =? OPT_END); [done|].
  destruct (rd_ok opts (S x)) as (optsz & -> & Hin); [lia|]. rewrite bind_Val.
  pose proof (proj1 (Forall_forall _ _) Hb _ Hin) as Ho. unfold is_u8 in Ho.
  destruct (Z.ltb_spec (len - 2) optsz); [done|].
  unfold load. rewrite decide_True by lia. rewrite bind_Val.
  destruct (rd_ok opts (x + 2)) as (v & Hv & _); [lia|]. rewrite Hv.
  assert ((if opt =? OPT_MESSAGE_TYPE then @Val Z v else Val 0) =
    Val (if opt =? OPT_MESSAGE_TYPE then v else 0)) as -> by (by destruct (_ =? _)).
  rewrite bind_Val. apply IH; [done|lia].
Qed.

(** The text fields after a dump: zero terminated, of unchanged size. *)
Definition text_of (n : nat) (text : list Z) : list Z := <[n := 0]> (sanitize text).
Definition dumped (msg : dhcp_msg) : dhcp_msg :=
  set_file (text_of 127 (file msg)) (set_sname (text_of 63 (sname msg)) msg).

Lemma text_of_ok n text k :
  bytes text ∧ length text = k → bytes (text_of n text) ∧ length (text_of n text) = k.
Proof.
  intros [Hb Hl]. unfold text_of. destruct (sanitize_text text Hb). rewrite length_insert.
  split; [by apply Forall_insert|lia].
Qed.

Lemma dumped_wf msg : wf_msg msg → wf_msg (dumped msg).
Proof.
  intros []. split; cbn [dumped set_file set_sname op htype hlen hops xid secs flags ciaddr yiaddr
    siaddr giaddr chaddr sname file options]; auto using text_of_ok.
Qed.

(** The dump has a hardware address to log, or does not get that far. *)
Definition loggable (msg : dhcp_msg) (len : Z) : Prop := len < DHCP_MSG_FIXED_SIZE ∨ hlen msg ≠ 0.
#[global] Instance loggable_dec msg len : Decision (loggable msg len).
Proof. unfold loggable. apply _. Defined.

Lemma dump_guard msg :
  negb ((if 16 <? hlen msg then 16 else hlen msg) =? 0) = negb (hlen msg =? 0).
Proof. destruct (Z.ltb_spec 16 (hlen msg)); [|done]. by rewrite (proj2 (Z.eqb_neq (hlen msg) 0)) by lia. Qed.

Lemma dump_undefined msg len : ¬ loggable msg len → dump_dhcp_msg msg len = UB.
Proof.
  unfold loggable. intros Hn. unfold dump_dhcp_msg. cbv zeta. rewrite dump_guard.
  rewrite (proj2 (Z.ltb_ge _ _)) by lia. by rewrite (proj2 (Z.eqb_eq (hlen msg) 0)) by lia.
Qed.

Lemma dump_safe msg len :
  wf_msg msg → len ≤ Z.of_nat SIZEOF_DHCP_MSG → loggable msg len →
  dump_dhcp_msg msg len = Val (if len <? DHCP_MSG_FIXED_SIZE then msg else dumped msg).
Proof.
  intros Hm Hlen Hlog. destruct (wf_options _ Hm) as [Hb Hl].
  unfold dump_dhcp_msg, loggable in *. cbv zeta. rewrite dump_guard.
  unfold SIZEOF_DHCP_MSG, OPTIONS_LEN, DHCP_MSG_FIXED_SIZE in *.
  destruct (Z.ltb_spec len 236); [done|]. rewrite (proj2 (Z.eqb_neq (hlen msg) 0)) by lia.
  cbn [negb guard_ub]. rewrite bind_Val. destruct (Z.ltb_spec (len - 236) 4); [done|].
  cbn [set_file set_sname options]. rewrite dump_loop_safe by (done || lia). done.
Qed.

(** A dump touches nothing that decoding or validation looks at. *)
Lemma decode_dumped msg len : decode_dhcp_msg (dumped msg) len = decode_dhcp_msg msg len.
Proof. done. Qed.

(** ** Validation: lemma *)
Lemma chaddr_prefix m n :
  wf_msg m → (n ≤ 16)%nat → sub 28 n (dhcp_msg_bytes m) = take n (chaddr m).
Proof.
  intros Hm Hn. rewrite <- (of_bytes_bytes m) at 2 by done.
  unfold dhcp_msg_of_bytes, CHADDR_LEN. cbn [chaddr]. unfold sub. rewrite take_take.
  by rewrite Nat.min_l by lia.
Qed.

(** ** Properties *)

(** C24. Decoding refines the type-length-value reading of the options: on a
    message whose options are the cookie, any sequence of well-formed items
    (padding included) and an end marker within the length, [decode_dhcp_msg]
    succeeds with the address offered and exactly what the items contribute,
    in order, later ones over earlier ones; what follows the end marker and
    the actual length do not matter. *)
Theorem decode_dhcp_msg_refines msg is_ post len :
  Forall wf_item is_ → options msg = cookie ++ encode_items is_ ++ OPT_END :: post →
  DHCP_MSG_FIXED_SIZE + 4 + Z.of_nat (length (encode_items is_)) < len →
  decode_dhcp_msg msg len = Val (0, set_ipaddr (yiaddr msg) (interpret is_)).
Proof. apply decode_items. Qed.

(** A reply to a client: the items of a server's answer. *)
Definition answer_items (t : Z) : list item :=
  [Opt OPT_MESSAGE_TYPE [t]; Pad; Opt OPT_SUBNET_MASK [255; 255; 255; 0];
   Opt OPT_GATEWAY [10; 0; 0; 1]; Opt OPT_DNS [8; 8; 8; 8; 8; 8; 4; 4];
   Opt OPT_LEASE_TIME [0; 0; 14; 16]; Opt OPT_SERVER_ID [10; 0; 0; 2]].
Definition answer (t xid0 yi : Z) (hw : list Z) : dhcp_msg :=
  let opts := cookie ++ encode_items (answer_items t) ++ [OPT_END] in
  mk_dhcp_msg OP_BOOTREPLY HTYPE_ETHER 6 0 xid0 0 0 0 yi 0 0
    (hw ++ replicate 10 0) (replicate SNAME_LEN 0) (replicate FILE_LEN 0)
    (opts ++ replicate (OPTIONS_LEN - length opts) 0).
Definition answer_size : Z := 279.
Definition answer_info (t yi : Z) : dhcp_info :=
  mk_dhcp_info t yi 0x0100000a 24 0x08080808 0x04040808 0x0200000a 3600.

Lemma answer_wf t xid0 yi hw :
  is_u8 t → is_u32 xid0 → is_u32 yi → bytes hw → length hw = 6%nat → wf_msg (answer t xid0 yi hw).
Proof.
  intros Ht Hx Hy Hb Hl. unfold answer. set (opts := cookie ++ _).
  assert (Ho : bytes opts ∧ length opts = 43%nat)
    by (split; [|done]; let l := eval vm_compute in opts in change opts with l;
        repeat (apply Forall_cons_2; [first [exact Ht|split; [discriminate|reflexivity]]|]); apply Forall_nil_2).
  destruct Ho as [Hob Hol]. clearbody opts.
  unfold CHADDR_LEN, SNAME_LEN, FILE_LEN, OPTIONS_LEN.
  split; cbn [op htype hlen hops xid secs flags ciaddr yiaddr siaddr giaddr
    chaddr sname file options]; try done.
  all: split; [repeat apply Forall_app_2; auto using zero_bytes|].
  all: rewrite ?length_app, ?length_replicate, ?Hl, ?Hol; done.
Qed.

Lemma decode_dhcp_msg_refines_witness :
  decode_dhcp_msg (answer DHCPOFFER 7 0x6400000a [2; 0; 0; 0; 0; 1]) answer_size =
    Val (0, answer_info DHCPOFFER 0x6400000a).
Proof.
  rewrite (decode_dhcp_msg_refines _ (answer_items DHCPOFFER) (replicate 981 0)).
  - vm_compute. reflexivity.
  - repeat (apply Forall_cons_2; [vm_compute; split_and?; try done; repeat constructor; done|]). done.
  - vm_compute. reflexivity.
  - vm_compute. reflexivity.
Defined.

(** Round trip of the client's own request: decoding the message that
    [init_dhcp_request_msg] builds, at the size it returns, yields the type
    DHCPREQUEST and the server identifier it was given, and nothing else. *)
Theorem request_decodes hw xid0 ip srv :
  bytes hw → length hw = 6%nat → is_u32 srv →
  ∃ m size, init_dhcp_request_msg hw xid0 ip srv = Val (m, size) ∧
    decode_dhcp_msg m size = Val (0, mk_dhcp_info DHCPREQUEST 0 0 0 0 0 srv 0).
Proof.
  intros Hb Hl Hs. eexists _, _. split; [by apply init_dhcp_request_msg_eq|].
  set (is_ := [Opt OPT_MESSAGE_TYPE [DHCPREQUEST];
    Opt OPT_PARAMETER_LIST [OPT_SUBNET_MASK; OPT_GATEWAY; OPT_DNS; OPT_BROADCAST_ADDR];
    Opt OPT_REQUESTED_IP (le_store 4 ip); Opt OPT_SERVER_ID (le_store 4 srv)]).
  rewrite (decode_items _ is_ (replicate (OPTIONS_LEN - 26) 0)).
  - unfold is_, interpret. cbn [foldl apply_item Z.eqb Pos.eqb OPT_MESSAGE_TYPE OPT_PARAMETER_LIST
      OPT_REQUESTED_IP OPT_SERVER_ID OPT_SUBNET_MASK OPT_GATEWAY OPT_DNS OPT_LEASE_TIME head set_if].
    unfold word_at, sub. rewrite decide_True by (autorewrite with netlen; lia).
    rewrite drop_0, take_ge, le_load_store_id by (try done; by rewrite length_le_store). done.
  - repeat (apply Forall_cons_2; [cbn [wf_item]; split_and!; try done; try apply le_store_bytes;
      rewrite ?length_le_store; cbn; try lia; repeat constructor; done|]). done.
  - done.
  - unfold is_, encode_items. cbn [mbind list_bind encode_item]. rewrite !length_app.
    cbn [length]. rewrite !length_le_store. done.
Qed.

Lemma request_decodes_witness :
  ∃ m size, init_dhcp_request_msg [2; 0; 0; 0; 0; 1] 7 0x6400000a 0x0200000a = Val (m, size) ∧
    decode_dhcp_msg m size = Val (0, mk_dhcp_info DHCPREQUEST 0 0 0 0 0 0x0200000a 0).
Proof. apply request_decodes; [repeat constructor; done|done|done]. Defined.

(** Parsing is total and memory safe on every message that fits its buffer:
    for any bytes and any length up to sizeof(dhcp_msg), dumping and decoding
    stay inside the options array and return; the dump only rewrites the two
    text fields and leaves a well-formed message, and its one undefined behaviour
    is the log line of a hardware address of length 0; decoding yields 32-bit
    fields, the zero structure when it fails; and the loop ends by its own test
    (more fuel than the length gives the same result). *)
Theorem parsers_total msg len :
  wf_msg msg → len ≤ Z.of_nat SIZEOF_DHCP_MSG →
  (if decide (DHCP_MSG_FIXED_SIZE ≤ len ∧ hlen msg = 0) then dump_dhcp_msg msg len = UB
   else ∃ m, dump_dhcp_msg msg len = Val m ∧ wf_msg m ∧ (m = msg ∨ m = dumped msg)) ∧
  (∃ r i, decode_dhcp_msg msg len = Val (r, i) ∧ wf_info i ∧
     (r = 0 ∧ ipaddr i = yiaddr msg ∨ r = -1 ∧ i = zero_info)) ∧
  (∀ x n i more, decode_loop (Z.to_nat n + more) (options msg) x n i =
     decode_loop (Z.to_nat n) (options msg) x n i).
Proof.
  intros Hm Hlen. split_and!; [|by apply decode_safe|].
  - case_decide as Hl; [apply dump_undefined; unfold loggable; lia|].
    eexists. split; [apply dump_safe; [done..|unfold loggable; lia]|]. destruct (_ <? _); [by eauto|].
    split; [by apply dumped_wf|by right].
  - intros. apply decode_loop_fuel; [apply Hm|lia].
Qed.

Lemma parsers_total_witness :
  wf_msg Packet.sample_msg ∧ ∃ r i, decode_dhcp_msg Packet.sample_msg 250 = Val (r, i) ∧
    wf_info i.
Proof.
  split; [apply Packet.sample_msg_wf|].
  destruct (parsers_total Packet.sample_msg 250) as (_ & (r & i & Hd & Hi & _) & _);
    [apply Packet.sample_msg_wf|unfold SIZEOF_DHCP_MSG; lia|eauto].
Defined.

(** [is_valid_reply] accepts a reply exactly when it is long enough, is a
    BOOTREPLY, carries the transaction id, hardware type and address length of
    the client's message, and the hardware address of the client in chaddr. *)
Theorem is_valid_reply_correct msg reply sz :
  wf_msg msg → wf_msg reply → hlen msg ≤ 16 →
  is_valid_reply msg reply sz = true ↔
    DHCP_MSG_FIXED_SIZE ≤ sz ∧ op reply = OP_BOOTREPLY ∧ xid reply = xid msg ∧
    htype reply = htype msg ∧ hlen reply = hlen msg ∧
    take (Z.to_nat (hlen msg)) (chaddr reply) = take (Z.to_nat (hlen msg)) (chaddr msg).
Proof.
  intros Hm Hr Hh. pose proof (wf_hlen _ Hm) as Hu. unfold is_u8 in Hu.
  unfold is_valid_reply. rewrite !chaddr_prefix by (done || lia).
  destruct (Z.ltb_spec sz DHCP_MSG_FIXED_SIZE); [split; [done|lia]|].
  do 4 (match goal with |- context [?a =? ?b] => destruct (Z.eqb_spec a b); cbn [negb];
    [|split; [done|intuition congruence]] end).
  case_bool_decide; intuition congruence.
Qed.

Lemma is_valid_reply_correct_witness :
  is_valid_reply Packet.sample_msg (answer DHCPOFFER 0x01020304 0x6400000a [2; 0; 0; 0; 0; 1])
    answer_size = true.
Proof.
  apply is_valid_reply_correct; [apply Packet.sample_msg_wf| |cbn; lia|vm_compute; split_and!; done].
  apply answer_wf; try done. repeat constructor; done.
Defined.
End DhcpClient.
