(* ===== verification/DhcpProtocol.v ===== *)
(** * The DHCP exchange (dhcp_init_ifc of dhcpclient.c)

    An abstract machine of the exchange, the refinement of it by the loop of
    [DhcpClient], the invariant of the loop, its bounded retransmission and the
    configuration it ends with. *)
From S2P Require Import Prelude Runtime DhcpMsg Packet IfcUtils DhcpClient.
Import DhcpMsg DhcpClient.

Module DhcpProtocol.

(** ** The abstract machine

    What the client waits for, how often it has retransmitted, and the last
    parameters it decoded. *)
Inductive phase := Selecting | Requesting.

Record proto := mk_proto { waiting : phase; tries : nat; heard : dhcp_info }.

(** What one poll brings: nothing in time, nothing of use, a broken link, or a
    DHCP reply with its parameters, addressed to this client or not. *)
Inductive input := ITimeout | INoise | IFault | IReply (valid : bool) (i : dhcp_info).

#[global] Instance phase_eq_dec : EqDecision phase.
Proof. solve_decision. Defined.

Inductive verdict := VConfigure (i : dhcp_info) | VTimedOut | VDenied | VFault.

Definition max_tries : nat := 3.

Definition pstep (p : proto) (x : input) : proto + verdict :=
  match x with
  | ITimeout =>
      if decide (tries p = max_tries) then
        inr (if type (heard p) =? DHCPOFFER then VConfigure (heard p) else VTimedOut)
      else inl (mk_proto (waiting p) (S (tries p)) (heard p))
  | INoise => inl p
  | IFault => inr VFault
  | IReply valid i =>
      let p' := mk_proto (waiting p) (tries p) i in
      if negb valid then inl p' else
      match waiting p with
      | Selecting => inl (if type i =? DHCPOFFER then mk_proto Requesting 0 i else p')
      | Requesting =>
          if type i =? DHCPACK then inr (VConfigure i)
          else if type i =? DHCPNAK then inr VDenied else inl p'
      end
  end.

(** Runs of the machine. *)
Inductive prun : proto → list input → proto + verdict → Prop :=
| prun_nil p : prun p [] (inl p)
| prun_stop p x v : pstep p x = inr v → prun p [x] (inr v)
| prun_step p x p' xs o : pstep p x = inl p' → prun p' xs o → prun p (x :: xs) o.

(** ** Properties of the machine *)
Definition budget (p : proto) : nat :=
  match waiting p with Selecting => 8 - tries p | Requesting => 4 - tries p end.
Definition timeouts (xs : list input) : nat :=
  length (List.filter (λ x, match x with ITimeout => true | _ => false end) xs).

Ltac budgets := unfold budget, timeouts, max_tries in *; cbn [waiting tries heard List.filter length] in *.

Lemma pstep_budget p x p' :
  (tries p ≤ max_tries)%nat → pstep p x = inl p' →
  (tries p' ≤ max_tries)%nat ∧ (budget p' + timeouts [x] ≤ budget p)%nat.
Proof.
  destruct p as [w t h], x as [| | |valid i]; cbn [pstep waiting tries heard]; intros Ht Hs.
  - case_decide; simplify_eq. budgets. destruct w; lia.
  - simplify_eq. budgets. destruct w; lia.
  - done.
  - destruct valid, w; cbn [negb] in Hs; repeat case_match; simplify_eq; budgets; lia.
Qed.

Lemma prun_budget p xs o :
  prun p xs o → (tries p ≤ max_tries)%nat →
  match o with
  | inl p' => (0 < budget p' ∧ budget p' + timeouts xs ≤ budget p)%nat
  | inr _ => (timeouts xs ≤ budget p)%nat
  end.
Proof.
  induction 1 as [p|p x v Hs|p x p' xs o Hs _ IH]; intros Ht.
  - destruct p as [w t h]. budgets. destruct w; lia.
  - destruct p as [w t h], w, x; budgets; lia.
  - destruct (pstep_budget _ _ _ Ht Hs) as [Ht' Hb]. specialize (IH Ht').
    assert (timeouts (x :: xs) = timeouts [x] + timeouts xs)%nat as -> by (by destruct x).
    destruct o; lia.
Qed.

(** Where the parameters of a configuration come from. *)
Lemma pstep_configure p x i :
  pstep p x = inr (VConfigure i) →
  waiting p = Requesting ∧ x = IReply true i ∧ type i = DHCPACK ∨
  x = ITimeout ∧ tries p = max_tries ∧ heard p = i ∧ type i = DHCPOFFER.
Proof.
  destruct p as [w t h], x as [| | |valid j]; cbn; intros Hs; try done.
  - case_decide; [|done]. destruct (Z.eqb_spec (type h) DHCPOFFER); simplify_eq. by right.
  - destruct valid; [|done]. destruct w; cbn [negb] in Hs; [done|].
    destruct (Z.eqb_spec (type j) DHCPACK); [simplify_eq; by left|]. destruct (_ =? _) in Hs; done.
Qed.

Lemma prun_snoc p xs o :
  prun p xs o → match o with inl _ => True | inr v => ∃ xs' x p', xs = xs' ++ [x] ∧
    prun p xs' (inl p') ∧ pstep p' x = inr v end.
Proof.
  induction 1 as [p|p x v Hs|p x p' xs o Hs Hr IH]; [done| |].
  - exists [], x, p. split_and!; [done|constructor|done].
  - destruct o as [|v]; [done|]. destruct IH as (xs' & y & p2 & -> & Hr' & Hv).
    exists (x :: xs'), y, p2. split_and!; [done|by econstructor|done].
Qed.

(** Reaching the phase of requests takes a valid offer, and parameters that
    were heard came in a reply. *)
Lemma prun_requesting p xs p' :
  prun p xs (inl p') → waiting p = Selecting → waiting p' = Requesting →
  ∃ i, IReply true i ∈ xs ∧ type i = DHCPOFFER.
Proof.
  remember (inl p') as o eqn:Ho. intros Hr. revert p' Ho.
  induction Hr as [p|p x v Hs|p x p1 xs o Hs _ IH]; intros p' Ho Hw Hw'; simplify_eq; [congruence|].
  destruct (waiting p1) eqn:Hw1.
  - destruct (IH _ eq_refl eq_refl Hw') as (i & Hi & Ht). exists i. by rewrite elem_of_cons; eauto.
  - destruct p as [w t h], x as [| | |valid i]; cbn in Hs, Hw; subst w; try done.
    + case_decide; simplify_eq; by cbn in Hw1.
    + simplify_eq; by cbn in Hw1.
    + destruct valid; cbn [negb] in Hs; [|by simplify_eq].
      assert (p1 = if type i =? DHCPOFFER then mk_proto Requesting 0 i else mk_proto Selecting t i) as ->
        by congruence. destruct (Z.eqb_spec (type i) DHCPOFFER); [|by cbn in Hw1].
      exists i. split; [rewrite elem_of_cons; by left|done].
Qed.

Lemma prun_heard p xs p' :
  prun p xs (inl p') → heard p' = heard p ∨ ∃ valid, IReply valid (heard p') ∈ xs.
Proof.
  remember (inl p') as o eqn:Ho. intros Hr. revert p' Ho.
  induction Hr as [p|p x v Hs|p x p1 xs o Hs _ IH]; intros p' Ho; simplify_eq; [by left|].
  destruct (IH _ eq_refl) as [He|(valid & Hi)]; [|right; exists valid; rewrite elem_of_cons; eauto].
  destruct p as [w t h], x as [| | |valid i]; cbn in Hs.
  - case_decide; simplify_eq; by left.
  - simplify_eq; by left.
  - done.
  - right. exists valid. rewrite He. assert (heard p1 = i) as ->; [|rewrite elem_of_cons; by left].
    destruct valid, w; cbn [negb] in Hs; repeat case_match; simplify_eq; done.
Qed.

(** ** The client's messages *)
Definition discover_of (hw : list Z) (x : Z) : dhcp_msg :=
  client_msg hw x (client_options DHCPDISCOVER ++ [OPT_END]).
Definition request_of (hw : list Z) (x ip srv : Z) : dhcp_msg :=
  client_msg hw x (client_options DHCPREQUEST ++ request_options ip srv ++ [OPT_END]).

Lemma dumped_client hw x o : dumped (client_msg hw x o) = client_msg hw x o.
Proof. reflexivity. Qed.

Section Messages.
Context (hw : list Z) (Hb : bytes hw) (Hl : length hw = 6%nat).

Lemma discover_of_wf x : is_u32 x → wf_msg (discover_of hw x).
Proof.
  intros Hx. apply client_msg_wf; try done;
    [|unfold OPTIONS_LEN; cbn [length app client_options parameter_list]; lia].
  apply Forall_app_2; [by apply opts_bytes|apply end_bytes].
Qed.
Lemma request_of_wf x ip srv : is_u32 x → wf_msg (request_of hw x ip srv).
Proof.
  intros Hx. apply client_msg_wf; try done.
  - apply Forall_app_2; [by apply opts_bytes|].
    apply Forall_app_2; [apply request_bytes|apply end_bytes].
  - unfold OPTIONS_LEN, request_options. rewrite !length_app. autorewrite with netlen.
    cbn [length app client_options parameter_list]. lia.
Qed.
End Messages.

(** The payloads sent, in order: what follows the IP and UDP headers. *)
Definition payload_of (ev : event) : option (list Z) :=
  match ev with (Sendmsg _ _ frame, _) => Some (drop 28 frame) | _ => None end.
Definition payloads (s : gstate) : list (list Z) := omap payload_of (trace s).

Lemma payloads_record c r s :
  payloads (record_event c r s) = payloads s ++ omap payload_of [(c, r)].
Proof. unfold payloads, record_event. cbn [trace set_errno set_trace]. apply omap_app. Qed.

Section Refinement.
Context `{HE : Env} {HW : WfEnv} (l : link).
Context (Hb : bytes (hwaddr l)) (Hl : length (hwaddr l) = 6%nat).

(** ** The invariant of the loop *)
Record wf_client (c : client) : Prop := mk_wf_client {
  wfc_state : state c = STATE_SELECTING ∨ state c = STATE_REQUESTING;
  wfc_timeout : ∃ k, 0 ≤ k ≤ 3 ∧ timeout c = TIMEOUT_INITIAL * 2 ^ k;
  wfc_xid : is_u32 (cxid c);
  wfc_info : wf_info (info c);
  wfc_discover : wf_msg (discover_msg c);
  wfc_request : wf_msg (request_msg c);
  wfc_reply : wf_msg (reply c)
}.

(** The message the client waits for an answer to. *)
Definition outstanding (c : client) : dhcp_msg :=
  if state c =? STATE_SELECTING then discover_msg c else request_msg c.

Definition inv (c : client) : Prop :=
  wf_client c ∧
  if state c =? STATE_SELECTING then discover_msg c = discover_of (hwaddr l) (cxid c)
  else ∃ ip srv, request_msg c = request_of (hwaddr l) (cxid c) ip srv.

Definition abs (c : client) : proto :=
  mk_proto (if state c =? STATE_SELECTING then Selecting else Requesting)
    (Z.to_nat (Z.log2 (timeout c / TIMEOUT_INITIAL))) (info c).

Lemma abs_timeout c k :
  0 ≤ k → timeout c = TIMEOUT_INITIAL * 2 ^ k → tries (abs c) = Z.to_nat k.
Proof.
  intros Hk Ht. unfold abs. cbn [tries]. rewrite Ht, Z.mul_comm, Z.div_mul by done.
  by rewrite Z.log2_pow2.
Qed.

(** ** Sending *)
Lemma wp_send_message s0 idx m size (Q : Z * dhcp_msg → gstate → Prop) s :
  wf_msg m → dumped m = m → hlen m ≠ 0 → DHCP_MSG_FIXED_SIZE ≤ size ≤ Z.of_nat SIZEOF_DHCP_MSG →
  (∀ r s', payloads s' = payloads s ++ [take (Z.to_nat size) (dhcp_msg_bytes m)] →
     last_good_info s' = last_good_info s → Q (r, m) s') →
  wp (send_message s0 idx m size) Q s.
Proof.
  intros Hm Hd Hh Hs HQ. unfold send_message, DHCP_MSG_FIXED_SIZE in *. apply wp_bind.
  eapply wp_lift; [apply dump_safe; [done|lia|by right]|]. unfold DHCP_MSG_FIXED_SIZE.
  rewrite (proj2 (Z.ltb_ge _ _)), Hd by lia. apply wp_bind. unfold Packet.send_packet. apply wp_bind.
  eapply wp_lift; [apply Packet.send_frame_eq; (done || lia)|]. wp_steps.
  apply HQ; [|done]. rewrite payloads_record. cbn [omap list_omap payload_of].
  by do 2 f_equal.
Qed.

(** The code at the label transmit: the message for the state is rebuilt, sent,
    and becomes the outstanding one. *)
Lemma wp_transmit c (Q : client → gstate → Prop) s :
  wf_client c →
  (∀ c' s', inv c' → abs c' = abs c → state c' = state c → cxid c' = cxid c →
     outstanding c' = (if state c =? STATE_SELECTING then discover_of (hwaddr l) (cxid c)
       else request_of (hwaddr l) (cxid c) (ipaddr (info c)) (serveraddr (info c))) →
     payloads s' = payloads s ++
       [take (if state c =? STATE_SELECTING then 250 else 262) (dhcp_msg_bytes (outstanding c'))] →
     last_good_info s' = last_good_info s → Q c' s') →
  wp (transmit l c) Q s.
Proof.
  intros Hc HQ. destruct c as [st t x i d r p]. pose proof (wfc_xid _ Hc) as Hx.
  cbn [cxid] in Hx. unfold transmit. cbn [state cxid info].
  destruct (wfc_state _ Hc) as [Hst|Hst]; cbn [state] in Hst; subst st; cbn [Z.eqb Pos.eqb
    STATE_SELECTING STATE_REQUESTING]; apply wp_bind.
  - eapply wp_lift; [by apply init_dhcp_discover_msg_eq|]. fold (discover_of (hwaddr l) x).
    apply wp_bind, wp_send_message; [by apply discover_of_wf|done|done|
      unfold DHCP_MSG_FIXED_SIZE, SIZEOF_DHCP_MSG; lia|].
    intros rr s1 Hp Hg. apply wp_bind. destruct (rr <? 0); wp_steps;
      (apply HQ; [|done|done|done|done|exact Hp|exact Hg]);
      (split; [|done]); destruct Hc; split; try done; by apply discover_of_wf.
  - eapply wp_lift; [by apply init_dhcp_request_msg_eq|].
    fold (request_of (hwaddr l) x (ipaddr i) (serveraddr i)).
    apply wp_bind, wp_send_message; [by apply request_of_wf|done|done|
      unfold DHCP_MSG_FIXED_SIZE, SIZEOF_DHCP_MSG; lia|].
    intros rr s1 Hp Hg. apply wp_bind. destruct (rr <? 0); wp_steps;
      (apply HQ; [|done|done|done|done|exact Hp|exact Hg]);
      (split; [|by eexists _, _]); destruct Hc; split; try done; by apply request_of_wf.
Qed.

(** ** Configuring *)
Lemma wp_frame {A X} (f : gstate → X) (m : M A) (P : A → gstate → Prop) s :
  preserves f m → wp m P s → wp m (λ a s', P a s' ∧ f s' = f s) s.
Proof.
  intros Hf Hw. apply wp_run in Hw as (a & s' & Hr & HP). apply wp_run. eauto 6.
Qed.

Lemma ifc_configure_keeps name a pl g d1 d2 :
  preserves last_good_info (IfcUtils.ifc_configure name a pl g d1 d2).
Proof.
  unfold IfcUtils.ifc_configure, IfcUtils.ifc_up, IfcUtils.ifc_set_flags, IfcUtils.ifc_set_addr,
    IfcUtils.ifc_set_prefixLength, IfcUtils.ifc_create_default_route, IfcUtils.ifc_act_on_ipv4_route,
    IfcUtils.ctl_ioctl, IfcUtils.ioctl_ifr, IfcUtils.ifc_init, IfcUtils.ifc_close. framing.
Qed.

Definition applied (i : dhcp_info) (s : gstate) (r : Z) (s' : gstate) : Prop :=
  last_good_info s' = i ∧
  IfcUtils.configured (ifname l) (ipaddr i) (prefixLength i) (gateway i) (dns1 i) (dns2 i) s r s'.

Lemma wp_dhcp_configure i (Q : Z → gstate → Prop) s sx :
  quiet s sx → (∀ r s', applied i s r s' → Q r s') →
  wp (dhcp_configure (ifname l) i) Q sx.
Proof.
  intros [Hi Hp] HQ. unfold dhcp_configure. apply wp_bind, wp_modify.
  eapply wp_mono; [|apply (wp_frame last_good_info); [apply ifc_configure_keeps|apply IfcUtils.wp_ifc_configure]].
  intros r s' [Hc Hg]. apply HQ. split; [exact Hg|].
  destruct Hc as (Hr & Hps & Hio). split_and!; [done|by rewrite Hps; f_equal|].
  intros Hr0. destruct (Hio Hr0) as (Hpl & fl & rest & route & Hfl & Hro & Hios).
  split; [done|]. exists fl, rest, route. split_and!; [done|done|]. rewrite Hios. f_equal. exact Hi.
Qed.

(** ** Receiving *)
Lemma receive_cases m s :
  wf_msg m → Packet.receive_packet (sock l) (indet Packet.SIZEOF_PACKET) m s ≠ UB →
  ∃ n m', wf_msg m' ∧ (n = -1 ∨ 0 ≤ n ≤ Z.of_nat SIZEOF_DHCP_MSG) ∧
    Packet.receive_packet (sock l) (indet Packet.SIZEOF_PACKET) m s =
      Val (n, m', record_event (Read (sock l) Packet.SIZEOF_PACKET)
                    (kern (trace s) (Read (sock l) Packet.SIZEOF_PACKET)) s).
Proof.
  intros Hm. unfold Packet.receive_packet, mbind, M_bind, call.
  pose proof (read_bounds (trace s) (sock l) Packet.SIZEOF_PACKET) as Hrd.
  set (r := kern _ _) in *. destruct (Z.ltb_spec (ret r) 0); [exists (-1), m; auto|].
  destruct (Hrd ltac:(lia)) as (Hret & Hmax & Hbo). unfold lift.
  set (packet := Packet.packet_after_read _ _).
  assert (Hpk : packet = out r ++ drop (length (out r)) (indet Packet.SIZEOF_PACKET))
    by (apply Packet.packet_after_read_frame; [apply indet_length|lia]).
  assert (Hpb : bytes packet)
    by (rewrite Hpk; apply Forall_app_2; [done|apply Forall_drop, indet_bytes]).
  assert (Hpl : length packet = Packet.SIZEOF_PACKET)
    by (rewrite Hpk, length_app, length_drop, indet_length; lia).
  rewrite Packet.filter_packet_eq by done.
  destruct (decide (_ ∧ Packet.sums_ok packet)); [|by exists (-1), m; auto].
  case_decide as Hsz; [|done]. intros _. eexists _, _. split; [|split; [right; exact Hsz|done]].
  apply of_bytes_wf; [apply patch_bytes; [by apply sub_bytes|by apply msg_bytes_bytes]|].
  rewrite length_patch; [by apply length_msg_bytes|].
  rewrite length_msg_bytes by done. unfold sub. rewrite length_take. lia.
Qed.

(** ** One iteration *)

(** States with the same requests, datagrams and lease behind them. *)
Definition same (s sx : gstate) : Prop :=
  quiet s sx ∧ payloads sx = payloads s ∧ last_good_info sx = last_good_info s.

Lemma same_record c r s sx :
  same s sx → ioctl_of (c, r) = None → prop_of (c, r) = None → payload_of (c, r) = None →
  same s (record_event c r sx).
Proof.
  intros (Hq & Hp & Hg) Hi Hps Hpl. split_and!; [|rewrite payloads_record|done].
  - etransitivity; [exact Hq|by apply quiet_record].
  - cbn [omap list_omap]. rewrite Hpl, app_nil_r. done.
Qed.
Lemma same_refl s : same s s.
Proof. done. Qed.

(** Does the machine send a message in this step? *)
Definition emits (p : proto) (x : input) : bool :=
  match x with
  | ITimeout => true
  | IReply true i => bool_decide (waiting p = Selecting) && (type i =? DHCPOFFER)
  | _ => false
  end.

(** The effects of a step that goes on, and of one that ends the exchange. *)
Definition step_post (c : client) (x : input) (s : gstate) (o : client + Z) (s' : gstate) : Prop :=
  match o with
  | inl c' =>
      inv c' ∧ pstep (abs c) x = inl (abs c') ∧ last_good_info s' = last_good_info s ∧
      cxid c' = (if decide (waiting (abs c') = waiting (abs c)) then cxid c else u32 (cxid c + 1)) ∧
      payloads s' = payloads s ++
        (if emits (abs c) x then
           [take (if state c' =? STATE_SELECTING then 250 else 262) (dhcp_msg_bytes (outstanding c'))]
         else [])
  | inr r =>
      ∃ v, pstep (abs c) x = inr v ∧
        match v with VConfigure i => applied i s r s' | _ => r = -1 ∧ same s s' end
  end.

Lemma tries_timeout c :
  wf_client c → (TIMEOUT_MAX <=? timeout c) = bool_decide (tries (abs c) = max_tries) ∧
    (tries (abs c) ≤ max_tries)%nat.
Proof.
  intros Hc. destruct (wfc_timeout _ Hc) as (k & Hk & Ht). rewrite (abs_timeout c k) by (done || lia).
  rewrite Ht. unfold max_tries, TIMEOUT_INITIAL, TIMEOUT_MAX. split; [|lia].
  assert (k = 0 ∨ k = 1 ∨ k = 2 ∨ k = 3) as [->|[->|[->| ->]]] by lia; done.
Qed.

Lemma double_timeout c :
  wf_client c → tries (abs c) ≠ max_tries →
  wf_client (set_timeout (u32 (timeout c * 2)) c) ∧
  abs (set_timeout (u32 (timeout c * 2)) c) =
    mk_proto (waiting (abs c)) (S (tries (abs c))) (heard (abs c)).
Proof.
  intros Hc Hn. destruct (wfc_timeout _ Hc) as (k & Hk & Ht). pose proof (abs_timeout c k) as Ha.
  rewrite Ha in Hn by (done || lia). unfold max_tries, TIMEOUT_INITIAL in *.
  assert (Hd : u32 (timeout c * 2) = 4000 * 2 ^ (k + 1)).
  { rewrite Ht, Z.pow_add_r by lia. unfold u32.
    assert (k = 0 ∨ k = 1 ∨ k = 2) as [->|[->| ->]] by lia; done. }
  split.
  - destruct Hc. split; try done. exists (k + 1). split; [lia|exact Hd].
  - assert (tries (abs (set_timeout (u32 (timeout c * 2)) c)) = Z.to_nat (k + 1)) as Ht'
      by (apply abs_timeout; [lia|exact Hd]).
    unfold abs in *. cbn [tries waiting heard set_timeout state timeout info] in *.
    f_equal. rewrite Ht', Ha by (done || lia). lia.
Qed.

Lemma wp_on_timeout c s sx :
  inv c → same s sx → wp (on_timeout l c) (step_post c ITimeout s) sx.
Proof.
  intros [Hc Hout] (Hq & Hp & Hg). destruct (tries_timeout c Hc) as [Hm Hle].
  unfold on_timeout. rewrite Hm. apply wp_bind. wp_steps.
  - apply bool_decide_eq_true in Heqb.
    eapply wp_dhcp_configure; [exact Hq|]. intros r s' Ha. apply wp_ret.
    exists (VConfigure (info c)). split; [|done]. cbn [pstep]. rewrite decide_True by done.
    cbn [heard abs]. by rewrite Heqb0.
  - apply bool_decide_eq_true in Heqb.
    exists VTimedOut. split.
    + cbn [pstep]. rewrite decide_True by done. cbn [heard abs]. by rewrite Heqb0.
    + split; [done|]. by apply same_record.
  - apply bool_decide_eq_false in Heqb.
    destruct (double_timeout c Hc Heqb) as [Hc' Ha'].
    apply wp_transmit; [done|]. intros c' s' Hi Ha Hst Hx Ho Hps Hg'. apply wp_ret.
    cbn [step_post pstep emits]. rewrite decide_False by done. rewrite Ha, Ha'. cbn [waiting].
    split_and!; [done|done|rewrite Hg'; exact Hg|rewrite decide_True by done; exact Hx|].
    rewrite Hps. cbn [set_timeout state]. rewrite Hst. f_equal. exact Hp.
Qed.

(** The client after a reply has been received and decoded. *)
Definition heard_reply (rep : dhcp_msg) (i : dhcp_info) (c : client) : client :=
  set_info i (set_reply rep c).

Lemma heard_reply_inv rep i c :
  inv c → wf_msg rep → wf_info i → inv (heard_reply rep i c).
Proof. intros [Hc Ho] Hr Hi. split; [destruct Hc; by split|exact Ho]. Qed.

Lemma ignored_reply rep i c valid s sx :
  inv c → wf_msg rep → wf_info i → same s sx →
  pstep (abs c) (IReply valid i) = inl (abs (heard_reply rep i c)) →
  emits (abs c) (IReply valid i) = false →
  step_post c (IReply valid i) s (inl (heard_reply rep i c)) sx.
Proof.
  intros Hc Hr Hi (Hq & Hp & Hg) Hs He. split_and!; [by apply heard_reply_inv|done|done| |].
  - by rewrite decide_True.
  - by rewrite He, app_nil_r.
Qed.

Lemma wp_on_reply c rep i s sx :
  inv c → wf_msg rep → wf_info i → same s sx →
  wp (on_reply l (heard_reply rep i c)) (step_post c (IReply true i) s) sx.
Proof.
  intros Hc Hr Hi Hs. pose proof Hs as (Hq & Hp & Hg).
  pose proof (heard_reply_inv rep i c Hc Hr Hi) as [Hc' Ho'].
  unfold on_reply. cbn [heard_reply set_info set_reply state info cxid type discover_msg request_msg reply].
  destruct (wfc_state _ (proj1 Hc)) as [Hst|Hst]; rewrite Hst; cbn [Z.eqb Pos.eqb
    STATE_SELECTING STATE_REQUESTING].
  - destruct (type i =? DHCPOFFER) eqn:Ht.
    + apply wp_bind, wp_transmit.
      { destruct Hc'. split; try done; [by right|by exists 0|]. apply Z.mod_pos_bound. lia. }
      intros c' s' Hi' Ha Hst' Hx _ Hps Hg'. apply wp_ret.
      cbn [step_post]. cbn [cxid state] in *. rewrite Hst', Ha. unfold pstep, emits.
      unfold abs. cbn [waiting tries heard state info timeout]. rewrite Hst, Ht. cbn [Z.eqb Pos.eqb
        STATE_SELECTING STATE_REQUESTING negb].
      split_and!; [done|done|by rewrite Hg'|by rewrite decide_False|]. rewrite Hps, Hp. done.
    + apply wp_ret, ignored_reply; try done; unfold pstep, emits, abs; cbn; by rewrite Hst, Ht.
  - destruct (type i =? DHCPACK) eqn:Ht; [|destruct (type i =? DHCPNAK) eqn:Ht2].
    + wp_steps. eapply wp_dhcp_configure; [|intros r s' Ha; apply wp_ret; exists (VConfigure i)].
      * etransitivity; [exact Hq|]. by apply (quiet_record (Close (sock l)) _ (set_errmsg _ sx)).
      * split; [|done]. unfold pstep, abs; cbn [negb waiting state]. by rewrite Hst, Ht.
    + wp_steps. exists VDenied. split.
      * unfold pstep, abs; cbn [negb waiting state]. by rewrite Hst, Ht, Ht2.
      * split; [done|]. by apply same_record.
    + wp_steps. apply ignored_reply; try done; unfold pstep, emits, abs; cbn [negb waiting tries
        heard state timeout info heard_reply set_info set_reply]; rewrite Hst; [by rewrite Ht, Ht2|done].
Qed.

(** What the poll of an iteration brings. *)
Definition poll_response (c : client) (s : gstate) : response :=
  kern (trace s) (Poll (sock l) (timeout c)).
Definition after_poll (c : client) (s : gstate) : gstate :=
  record_event (Poll (sock l) (timeout c)) (poll_response c s) s.
Definition received (c : client) (s : gstate) : outcome (Z * dhcp_msg * gstate) :=
  Packet.receive_packet (sock l) (indet Packet.SIZEOF_PACKET) (reply c)
    (set_errno 0 (after_poll c s)).

Definition observe (c : client) (s : gstate) : input :=
  if ret (poll_response c s) =? 0 then ITimeout
  else if ret (poll_response c s) <? 0 then
    let e := errno (after_poll c s) in
    if (e =? EAGAIN) || (e =? EINTR) then INoise else IFault
  else
    match received c s with
    | Val (n, m, s') =>
        if n <? 0 then
          if (errno s' =? ENETDOWN) || (errno s' =? ENXIO) then IFault else INoise
        else match decode_dhcp_msg m n with
             | Val (_, i) => IReply (is_valid_reply (outstanding c) m n) i
             | UB => INoise
             end
    | UB => INoise
    end.

(** The two places where an iteration can be undefined: the copy in
    [receive_packet], and the log line of the hardware address. *)
Definition well_received (c : client) (s : gstate) : Prop :=
  0 < ret (poll_response c s) →
  match received c s with
  | UB => False
  | Val (n, m, _) => 0 ≤ n → loggable m n
  end.

Lemma outstanding_ok c : inv c → wf_msg (outstanding c) ∧ hlen (outstanding c) = 6.
Proof.
  intros [Hc Ho]. unfold outstanding. destruct (state c =? STATE_SELECTING).
  - rewrite Ho. split; [apply discover_of_wf; [done|done|apply Hc]|done].
  - destruct Ho as (ip & srv & ->). split; [apply request_of_wf; [done|done|apply Hc]|done].
Qed.

Lemma valid_dumped msg rep n :
  wf_msg msg → wf_msg rep → hlen msg = 6 → is_valid_reply msg (dumped rep) n = is_valid_reply msg rep n.
Proof.
  intros Hm Hr Hh. unfold is_valid_reply. rewrite Hh.
  by rewrite !chaddr_prefix by (try apply dumped_wf; done || lia).
Qed.

Lemma wp_on_packet c m n s sx :
  inv c → wf_msg m → 0 ≤ n ≤ Z.of_nat SIZEOF_DHCP_MSG → loggable m n → same s sx →
  ∃ r i, decode_dhcp_msg m n = Val (r, i) ∧
    wp (on_packet l c n m) (step_post c (IReply (is_valid_reply (outstanding c) m n) i) s) sx.
Proof.
  intros Hc Hm Hn Hlog Hs. pose proof (outstanding_ok c Hc) as [Hwo Hho].
  destruct (decode_safe m n Hm) as (r & i & Hd & Hi & _); [lia|]. exists r, i. split; [done|].
  unfold on_packet. apply wp_bind. eapply wp_lift; [apply dump_safe; [done|lia|done]|].
  set (rep := if n <? _ then m else dumped m).
  assert (Hrep : wf_msg rep) by (unfold rep; destruct (n <? _); [done|by apply dumped_wf]).
  assert (decode_dhcp_msg rep n = decode_dhcp_msg m n) as Hdec by (unfold rep; by destruct (n <? _)).
  assert (is_valid_reply (outstanding c) rep n = is_valid_reply (outstanding c) m n) as <-
    by (unfold rep; destruct (n <? _); [done|by apply valid_dumped]).
  apply wp_bind. eapply wp_lift; [rewrite Hdec; exact Hd|]. cbv beta iota zeta.
  change (set_info i (set_reply rep c)) with (heard_reply rep i c).
  assert ((if state (heard_reply rep i c) =? STATE_SELECTING
           then is_valid_reply (discover_msg (heard_reply rep i c)) rep n
           else is_valid_reply (request_msg (heard_reply rep i c)) rep n) =
          is_valid_reply (outstanding c) rep n) as ->
    by (unfold outstanding, heard_reply; cbn; by destruct (_ =? _)).
  destruct (is_valid_reply (outstanding c) rep n); cbn [negb]; [by apply wp_on_reply|].
  wp_steps. by apply ignored_reply.
Qed.

Lemma wp_dhcp_iter c s :
  inv c → well_received c s → wp (dhcp_iter l c) (step_post c (observe c s) s) s.
Proof.
  intros Hc Hov.
  unfold dhcp_iter, observe. apply wp_bind. unfold call_ret. apply wp_bind, wp_call, wp_ret.
  change (kern (trace s) _) with (poll_response c s).
  change (record_event _ _ _) with (after_poll c s).
  assert (Hsame : same s (after_poll c s)) by (by apply same_record).
  destruct (Z.eqb_spec (ret (poll_response c s)) 0) as [|Hne]; [by apply wp_on_timeout|].
  destruct (Z.ltb_spec (ret (poll_response c s)) 0).
  { apply wp_bind, wp_get. destruct (_ || _).
    - apply wp_ret. destruct Hsame as (_ & Hp & Hg). split_and!; [done|done|done| |by rewrite Hp, app_nil_r].
      by rewrite decide_True.
    - wp_steps. exists VFault. done. }
  apply wp_bind, wp_modify, wp_bind.
  destruct (receive_cases (reply c) (set_errno 0 (after_poll c s))) as (n & m & Hm & Hn & Hrecv);
    [apply Hc|intros Hub; unfold well_received, received in Hov; rewrite Hub in Hov; apply Hov; lia|].
  unfold well_received in Hov. unfold received in *. rewrite Hrecv in *. set (s2 := record_event _ _ _).
  apply wp_run. exists (n, m), s2. split; [exact Hrecv|].
  assert (Hsame2 : same s s2) by (by apply same_record).
  destruct (Z.ltb_spec n 0).
  { apply wp_bind, wp_get. destruct (_ || _); apply wp_ret; [by exists VFault|].
    destruct Hsame2 as (_ & Hp & Hg). split_and!; [|done|done| |by rewrite Hp, app_nil_r].
    - destruct Hc as [Hc Ho]. split; [destruct Hc; by split|done].
    - by rewrite decide_True. }
  destruct Hn as [->|Hn]; [lia|].
  destruct (wp_on_packet c m n s s2) as (r & i & Hd & Hw); [done..|apply Hov; lia|done|].
  rewrite Hd. exact Hw.
Qed.

(** ** The loop *)
Fixpoint observations (n : nat) (c : client) (s : gstate) : list input :=
  match n with
  | O => []
  | S n' => observe c s ::
      match dhcp_iter l c s with Val (inl c', s') => observations n' c' s' | _ => [] end
  end.

Lemma iter_well_received c s x : dhcp_iter l c s = Val x → well_received c s.
Proof.
  intros Hr Hpos. destruct x as [x s']. apply bind_run in Hr as (r & s1 & H1 & H2).
  assert (r = ret (poll_response c s) ∧ s1 = after_poll c s) as [-> ->]
    by (assert (Val (ret (poll_response c s), after_poll c s) = Val (r, s1)) by exact H1;
        split; congruence).
  rewrite (proj2 (Z.eqb_neq _ _)), (proj2 (Z.ltb_ge _ _)) in H2 by lia.
  apply bind_run in H2 as ([] & s2 & H2 & H3).
  assert (s2 = set_errno 0 (after_poll c s)) as -> by (unfold modify in H2; congruence).
  apply bind_run in H3 as ([n m] & s3 & H3 & H4). unfold received. rewrite H3. intros Hn.
  rewrite (proj2 (Z.ltb_ge _ _)) in H4 by lia. destruct (decide (loggable m n)) as [|Hlog]; [done|].
  exfalso. apply bind_run in H4 as (rep & s4 & H4 & _). rewrite (dump_undefined _ _ Hlog) in H4. done.
Qed.

(** The result of a verdict, as the caller of the loop sees it. *)
Definition concluded (s : gstate) (v : verdict) (r : Z) (s' : gstate) : Prop :=
  match v with
  | VConfigure i => last_good_info s' = i ∧ (r = 0 ∨ r = -1)
  | _ => r = -1 ∧ last_good_info s' = last_good_info s
  end.

Lemma loop_refines n : ∀ c s o s',
  inv c → dhcp_loop n l c s = Val (o, s') →
  match o with
  | inl c' => inv c' ∧ prun (abs c) (observations n c s) (inl (abs c')) ∧
      last_good_info s' = last_good_info s
  | inr r => ∃ v, prun (abs c) (observations n c s) (inr v) ∧ concluded s v r s'
  end.
Proof.
  induction n as [|n IH]; intros c s o s' Hc Hr; cbn [dhcp_loop observations] in *.
  - assert (o = inl c ∧ s' = s) as [-> ->] by (unfold mret, M_ret in Hr; split; congruence).
    split_and!; [done|constructor|done].
  - apply bind_run in Hr as (x & s1 & H1 & H2). rewrite H1.
    pose proof (wp_dhcp_iter c s Hc (iter_well_received _ _ _ H1)) as Hw. unfold wp in Hw.
    rewrite H1 in Hw. destruct x as [c1|r]; cbn [step_post] in Hw.
    + destruct Hw as (Hc1 & Hs & Hg & _). specialize (IH _ _ _ _ Hc1 H2).
      destruct o as [c'|r]; [destruct IH as (? & ? & ?)|destruct IH as (v & Hv & Hcon)].
      * split_and!; [done|by econstructor|congruence].
      * exists v. split; [by econstructor|].
        destruct v; cbn [concluded] in *; [done|rewrite <- Hg; done..].
    + destruct Hw as (v & Hs & Hv).
      assert (o = inr r ∧ s' = s1) as [-> ->] by (unfold mret, M_ret in H2; split; congruence).
      exists v. split; [by constructor|]. destruct v; cbn [concluded].
      * destruct Hv as (Hg & Hcf & _). done.
      * destruct Hv as (-> & _ & _ & Hg). done.
      * destruct Hv as (-> & _ & _ & Hg). done.
      * destruct Hv as (-> & _ & _ & Hg). done.
Qed.
End Refinement.

(** ** Setting up *)
Section Setup.
Context `{HE : Env} {HW : WfEnv}.

Lemma initial_wf x : is_u32 x → wf_client (initial_client x).
Proof.
  intros Hx.
  assert (Hm : wf_msg (dhcp_msg_of_bytes (indet SIZEOF_DHCP_MSG)))
    by (apply of_bytes_wf; [apply indet_bytes|apply indet_length]).
  assert (Hw : ∀ k, is_u32 (le_load (sub k 4 (indet 32)))) by (intros; apply word_u32, indet_bytes).
  unfold initial_client. cbv zeta. generalize dependent (dhcp_msg_of_bytes (indet SIZEOF_DHCP_MSG)).
  intros m Hm. split; try done; [by left|by exists 0|]. by split; try apply Hw.
Qed.

Lemma wp_get_msecs (Q : Z → gstate → Prop) s :
  (∀ t s', same s s' → Q t s') → wp get_msecs Q s.
Proof. intros HQ. unfold get_msecs. wp_steps. apply HQ. by apply same_record. Qed.

(** An ifreq query leaves sixteen bytes in the union. *)
Lemma wp_query req name (Q : Z * ifreq → gstate → Prop) s :
  (∀ r ifr s', bytes (ifr_ifru ifr) → length (ifr_ifru ifr) = 16%nat →
     payloads s' = payloads s → last_good_info s' = last_good_info s → Q (r, ifr) s') →
  wp (IfcUtils.ctl_ioctl req (IfcUtils.ifc_init_ifr name)) Q s.
Proof.
  intros HQ. unfold IfcUtils.ctl_ioctl, IfcUtils.ioctl_ifr. apply wp_bind, wp_get, wp_bind, wp_call, wp_ret.
  pose proof (ioctl_bytes (trace s) (ifc_ctl_sock s) req (IfReq (IfcUtils.ifc_init_ifr name))) as Hb.
  set (rs := kern _ _) in *.
  assert (Hz : bytes (ifr_ifru (IfcUtils.ifc_init_ifr name)) ∧
               length (ifr_ifru (IfcUtils.ifc_init_ifr name)) = 16%nat)
    by (split; [apply zero_bytes|apply length_replicate]).
  destruct Hz as [Hzb Hzl].
  apply HQ; [| |by rewrite payloads_record; apply app_nil_r|done]; destruct (ret rs <? 0); try done;
    cbn [IfcUtils.with_ifru ifr_ifru].
  - apply patch_bytes; [by apply Forall_take|done].
  - rewrite length_patch; [done|]. rewrite length_take. lia.
Qed.

(** The client the loop starts from. *)
Definition start (l : link) (c : client) : Prop :=
  bytes (hwaddr l) ∧ length (hwaddr l) = 6%nat ∧ inv l c ∧
  waiting (abs c) = Selecting ∧ tries (abs c) = O ∧ type (heard (abs c)) = 0.

Lemma wp_open_raw_socket hw idx (Q : Z → gstate → Prop) s :
  length hw = 6%nat → (∀ fd s', payloads s' = payloads s → last_good_info s' = last_good_info s →
    Q fd s') → wp (Packet.open_raw_socket hw idx) Q s.
Proof.
  intros Hl HQ. unfold Packet.open_raw_socket. wp_steps; [apply HQ; [|done]|].
  { change (payloads (set_errmsg _ ?x)) with (payloads x).
    rewrite payloads_record. apply app_nil_r. }
  eapply wp_lift; [apply load_Val; split; [lia|done]|]. wp_steps; (apply HQ; [|done]);
    rewrite <- ?(payloads_record (Bind _ _)); repeat (change (payloads (set_errmsg _ ?x)) with (payloads x));
    rewrite !payloads_record; rewrite !app_nil_r; done.
Qed.

Lemma wp_dhcp_setup name (Q : link * client + Z → gstate → Prop) s :
  (∀ s', payloads s' = payloads s → last_good_info s' = last_good_info s → Q (inr (-1)) s') →
  (∀ l c s', ifname l = name → start l c → last_good_info s' = last_good_info s →
     payloads s' = payloads s ++ [take 250 (dhcp_msg_bytes (discover_of (hwaddr l) (cxid c)))] →
     Q (inl (l, c)) s') →
  wp (dhcp_setup name) Q s.
Proof.
  intros Hfail Hok. unfold dhcp_setup. apply wp_bind, wp_get_msecs. intros t s1 (_ & Hp1 & Hg1).
  apply wp_bind. unfold IfcUtils.ifc_get_hwaddr. apply wp_bind, wp_query. intros r ifr s2 Hb2 Hl2 Hp2 Hg2.
  rewrite Hp1 in Hp2. rewrite Hg1 in Hg2.
  destruct (r <? 0); [wp_steps; [apply Hfail; done|done]|]. apply wp_ret. cbn [Z.eqb negb].
  apply wp_bind. unfold IfcUtils.ifc_get_ifindex. apply wp_bind, wp_query. intros r3 ifr3 s3 _ _ Hp3 Hg3.
  assert (Hp03 : payloads s3 = payloads s) by congruence.
  assert (Hg03 : last_good_info s3 = last_good_info s) by congruence.
  destruct (r3 <? 0); [wp_steps; [apply Hfail; done|done]|]. apply wp_ret. cbn [Z.eqb negb].
  set (hw := sub 2 6 (ifr_ifru ifr)).
  assert (Hhw : bytes hw ∧ length hw = 6%nat) by (split; [by apply sub_bytes|apply length_sub; lia]).
  destruct Hhw as [Hhb Hhl].
  apply wp_bind, wp_open_raw_socket; [done|]. intros fd s4 Hp4 Hg4. cbv zeta.
  apply wp_bind, wp_transmit; [done|done|apply initial_wf, Z.mod_pos_bound; lia|].
  intros c s5 Hi Ha Hst Hx Ho Hp5 Hg5. apply wp_ret, Hok; [done| |congruence|].
  - unfold start. cbn [hwaddr]. rewrite Ha. done.
  - cbn [hwaddr]. rewrite Hp5, Ho, Hx. cbn [initial_client cxid state Z.eqb Pos.eqb STATE_SELECTING].
    f_equal. congruence.
Qed.
End Setup.

(** ** Lemmas for the whole exchange *)
Lemma prun_tries p xs p' : prun p xs (inl p') → (tries p' ≤ tries p + timeouts xs)%nat.
Proof.
  remember (inl p') as o eqn:Ho. intros Hr. revert p' Ho.
  induction Hr as [p|p x v Hs|p x p1 xs o Hs _ IH]; intros p' Ho; simplify_eq; [lia|].
  specialize (IH _ eq_refl).
  assert (timeouts (x :: xs) = timeouts [x] + timeouts xs)%nat as -> by (by destruct x).
  assert (tries p1 ≤ tries p + timeouts [x])%nat; [|lia].
  destruct p as [w t h], x as [| | |valid i]; cbn [pstep waiting tries heard] in *.
  - case_decide; simplify_eq. budgets. lia.
  - simplify_eq. budgets. lia.
  - done.
  - destruct valid, w; cbn [negb] in Hs; repeat case_match; simplify_eq; budgets; lia.
Qed.

(** Where the parameters of a configuration can come from in a whole run. *)
Definition sourced (xs : list input) (i : dhcp_info) : Prop :=
  ∃ before last, xs = before ++ [last] ∧
    (last = IReply true i ∧ type i = DHCPACK ∧
       (∃ o, IReply true o ∈ before ∧ type o = DHCPOFFER) ∨
     last = ITimeout ∧ type i = DHCPOFFER ∧ (∃ valid, IReply valid i ∈ before) ∧
       (4 ≤ timeouts xs)%nat).

Lemma prun_sourced p xs i :
  waiting p = Selecting → tries p = O → type (heard p) = 0 →
  prun p xs (inr (VConfigure i)) → sourced xs i.
Proof.
  intros Hw Ht Hh Hr. apply prun_snoc in Hr as (xs' & x & p' & -> & Hr & Hs).
  exists xs', x. split; [done|].
  apply pstep_configure in Hs as [(Hw' & -> & Hty)|(-> & Hmax & Hi & Hty)].
  - left. split_and!; [done..|]. exact (prun_requesting _ _ _ Hr Hw Hw').
  - right. split_and!; [done..| |].
    + destruct (prun_heard _ _ _ Hr) as [He|(valid & Hv)].
      * exfalso. rewrite He in Hi. subst i. unfold DHCPOFFER in Hty. congruence.
      * exists valid. by rewrite <- Hi.
    + pose proof (prun_tries _ _ _ Hr) as Hn. rewrite Hmax, Ht in Hn. unfold timeouts, max_tries in *.
      rewrite List.filter_app, length_app. cbn [List.filter length]. lia.
Qed.

Section Exchange.
Context `{HE : Env} {HW : WfEnv}.

(** A run of dhcp_init_ifc that returned is a failed setup or a run of the loop. *)
Lemma init_run n name s o s' :
  dhcp_init_ifc n name s = Val (o, s') →
  o = inr (-1) ∧ last_good_info s' = last_good_info s ∨
  ∃ l c s1, dhcp_setup name s = Val (inl (l, c), s1) ∧ start l c ∧
    last_good_info s1 = last_good_info s ∧ dhcp_loop n l c s1 = Val (o, s').
Proof.
  intros Hr. apply bind_run in Hr as (x & s1 & H1 & H2).
  assert (Hw : wp (dhcp_setup name) (λ y sy, last_good_info sy = last_good_info s ∧
    match y with inl (l, c) => ifname l = name ∧ start l c | inr r => r = -1 end) s)
    by (apply wp_dhcp_setup; auto).
  unfold wp in Hw. rewrite H1 in Hw. destruct Hw as [Hg Hx].
  destruct x as [[l c]|r]; [right; exists l, c, s1; by destruct Hx|left].
  subst r. unfold mret, M_ret in H2. split; congruence.
Qed.

Lemma observations_length l n : ∀ c s c' s',
  dhcp_loop n l c s = Val (inl c', s') → length (observations l n c s) = n.
Proof.
  induction n as [|n IH]; intros c s c' s' Hr; cbn [dhcp_loop observations length] in *; [done|].
  apply bind_run in Hr as (x & s1 & H1 & H2). rewrite H1. destruct x as [c1|r]; [|done].
  f_equal. by eapply IH.
Qed.

(** On a link where every poll times out the machine runs down its budget, and
    the client repeats its DISCOVER. *)
Lemma silent_loop l k : ∀ c s,
  (∀ tr t, ret (kern tr (Poll (sock l) t)) = 0) →
  bytes (hwaddr l) → length (hwaddr l) = 6%nat → inv l c → waiting (abs c) = Selecting →
  (tries (abs c) + k = max_tries)%nat → type (info c) ≠ DHCPOFFER →
  wp (dhcp_loop (S k) l c) (λ o s', o = inr (-1) ∧ last_good_info s' = last_good_info s ∧
    payloads s' = payloads s ++
      replicate k (take 250 (dhcp_msg_bytes (discover_of (hwaddr l) (cxid c))))) s.
Proof.
  induction k as [|k IH]; intros c s Hsil Hb Hl Hc Hsel Hk Ht; cbn [dhcp_loop]; apply wp_bind;
    (eapply wp_mono; [|apply wp_dhcp_iter; [done..|]]);
    try (intros Hpos; unfold poll_response in Hpos; rewrite Hsil in Hpos; lia);
    assert (observe l c s = ITimeout) as -> by (unfold observe, poll_response; by rewrite Hsil);
    intros o s1; destruct o as [c1|r]; cbn [step_post pstep emits].
  - rewrite decide_True by lia. by intros (_ & Hs & _).
  - rewrite decide_True by lia. cbn [abs heard]. rewrite (proj2 (Z.eqb_neq _ _) Ht).
    intros (v & Hv & Hpost). assert (v = VTimedOut) as -> by congruence.
    destruct Hpost as (-> & _ & Hp & Hg). apply wp_ret. split_and!; [done..|].
    by rewrite app_nil_r.
  - rewrite decide_False by (unfold max_tries in *; lia). intros (Hc1 & Hs & Hg & Hx & Hp).
    assert (abs c1 = mk_proto (waiting (abs c)) (S (tries (abs c))) (heard (abs c))) as Ha by congruence.
    assert (Hw1 : waiting (abs c1) = waiting (abs c)) by (by rewrite Ha).
    rewrite decide_True in Hx by done.
    assert (Hs1 : (state c1 =? STATE_SELECTING) = true)
      by (rewrite Hsel in Hw1; unfold abs in Hw1; cbn [waiting] in Hw1; by destruct (_ =? _)).
    unfold outstanding in Hp. pose proof Hc1 as [_ Hd]. rewrite Hs1 in Hp, Hd. rewrite Hd, Hx in Hp.
    eapply wp_mono; [|apply IH; try done]; [|by rewrite Hw1|rewrite Ha; cbn [tries]; lia|].
    + intros o s2 (-> & Hg2 & Hp2). split_and!; [done|congruence|].
      by rewrite Hp2, Hp, Hx, <- app_assoc.
    + assert (info c1 = info c) as ->; [|done]. change (heard (abs c1) = info c). by rewrite Ha.
  - rewrite decide_False by (unfold max_tries in *; lia). intros (v & Hv & _). done.
Qed.
End Exchange.

(** ** Concrete runs

    A link with the hardware address 02:00:00:00:00:01, a clock at seven
    seconds (so the first transaction id is 7000), and the server's frames. *)
Definition mac : list Z := [2; 0; 0; 0; 0; 1].
Definition host (c : syscall) : response :=
  match c with
  | Socket domain _ _ => resp (if domain =? Packet.PF_PACKET then 5 else 6)
  | Ioctl _ _ _ => resp_out 0 ([1; 0] ++ mac ++ replicate 8 0)
  | Clock_gettime => resp_out 0 [7; 0]
  | Sendmsg _ _ f => resp (Z.of_nat (length f))
  | _ => resp 0
  end.
Definition frame_for (t xid0 yi : Z) : list Z :=
  match Packet.send_frame (answer t xid0 yi mac) answer_size 0x0200000a 0xffffffff 67 68 with
  | Val f => f
  | UB => []
  end.

Lemma host_bytes c : bytes (out (host c)).
Proof.
  destruct c; cbn [host resp resp_out out]; try apply Forall_nil_2.
  - apply Forall_app_2; [|apply Forall_app_2; [|apply zero_bytes]]; repeat constructor; done.
  - repeat constructor; done.
Qed.

Definition offer_frame : list Z := frame_for DHCPOFFER 7000 0x6400000a.
Definition ack_frame : list Z := frame_for DHCPACK 7001 0x6400000a.
(** An OFFER of another exchange. *)
Definition foreign_frame : list Z := frame_for DHCPOFFER 99 0x0d00a8c0.

Lemma frame_for_bytes t xid0 yi :
  is_u8 t → is_u32 xid0 → is_u32 yi → bytes (frame_for t xid0 yi).
Proof.
  intros. unfold frame_for.
  assert (Hw : wf_msg (answer t xid0 yi mac)) by (apply answer_wf; try done; repeat constructor; done).
  assert (Hs : 0 ≤ answer_size ≤ Z.of_nat SIZEOF_DHCP_MSG)
    by (unfold answer_size, SIZEOF_DHCP_MSG; lia).
  rewrite Packet.send_frame_eq by done. by apply (Packet.frame_bytes _ _ _ _ _ _ Hw Hs).
Qed.

Definition answering (polls : list Z) (frames : list (list Z)) : Env := serving polls frames host.
Definition lease_env : Env := answering [1; 1] [offer_frame; ack_frame].

Lemma answering_wf polls frames : Forall (Forall is_u8) frames → @WfEnv (answering polls frames).
Proof. intros. apply serving_wf; [done|apply host_bytes]. Qed.
Lemma lease_env_wf : @WfEnv lease_env.
Proof. apply answering_wf. do 2 (apply Forall_cons_2; [by apply frame_for_bytes|]). done. Qed.

Definition sample_link : link := mk_link "wlan0" 5 mac 3.
Definition sample_client : client :=
  mk_client STATE_SELECTING TIMEOUT_INITIAL 7000 zero_info (discover_of mac 7000)
    (discover_of mac 7000) (discover_of mac 7000).

Lemma mac_ok : bytes mac ∧ length mac = 6%nat.
Proof. split; [repeat constructor; done|done]. Qed.

Lemma sample_client_inv : inv sample_link sample_client.
Proof.
  split; [|done]. assert (wf_msg (discover_of mac 7000)) by (apply discover_of_wf; by try apply mac_ok).
  split; try done; [by left|by exists 0].
Qed.

(** ** Properties *)

(** C5. One iteration of the client's loop refines the abstract exchange: from
    any client satisfying the invariant, and unless the received datagram
    overflows the message buffer or has a hardware address of length 0 (whose
    log line is undefined), the iteration returns without undefined behaviour; it performs the step of the machine for what the poll brought;
    when it goes on, the invariant holds again (the state is SELECTING or
    REQUESTING, the timeout is 4, 8, 16 or 32 seconds, the outstanding message
    carries the current transaction id), the lease is untouched, the
    transaction id changes exactly when an offer is accepted, and the
    outstanding message was sent exactly in the steps that call for it; when it
    ends the exchange, the interface is configured with the parameters of the
    verdict, or -1 is returned with no request made. *)
Theorem dhcp_iter_refines `{Env} (HW : WfEnv) l c s :
  bytes (hwaddr l) → length (hwaddr l) = 6%nat → inv l c → well_received l c s →
  wp (dhcp_iter l c) (step_post l c (observe l c s) s) s.
Proof. intros Hb Hl. by apply wp_dhcp_iter. Qed.

Lemma dhcp_iter_refines_witness :
  observe (HE := lease_env) sample_link sample_client initial_state =
    IReply true (answer_info DHCPOFFER 0x6400000a) ∧
  wp (@dhcp_iter lease_env sample_link sample_client)
     (@step_post lease_env sample_link sample_client
        (observe (HE := lease_env) sample_link sample_client initial_state) initial_state)
     initial_state.
Proof.
  split; [vm_compute; reflexivity|].
  apply (@dhcp_iter_refines lease_env lease_env_wf);
    [apply mac_ok|apply mac_ok|apply sample_client_inv|].
  intros _. vm_compute. intros _. right. discriminate.
Defined.

(** C15. Where a lease comes from: when dhcp_init_ifc returns with a new lease,
    the last thing its loop observed is either a valid ACK whose content is the
    lease, after a valid OFFER started the request; or a timeout, at least the
    fourth, and the lease is the content of an OFFER heard before. *)
Theorem dhcp_lease_sourced `{Env} (HW : WfEnv) n name s r s' :
  dhcp_init_ifc n name s = Val (inr r, s') → last_good_info s' ≠ last_good_info s →
  ∃ l c s1, dhcp_setup name s = Val (inl (l, c), s1) ∧
    sourced (observations l n c s1) (last_good_info s').
Proof.
  intros Hr Hne. apply init_run in Hr as [[_ ?]|(l & c & s1 & Hn & Hst & Hg & Hr)]; [done|].
  exists l, c, s1. split; [done|]. pose proof Hst as (Hb & Hl & Hi & Hw & Ht & Hty).
  apply loop_refines in Hr as (v & Hv & Hc); [|done..].
  destruct v as [i| | |]; cbn [concluded] in Hc; [|destruct Hc; congruence..].
  destruct Hc as [-> _]. by eapply prun_sourced.
Qed.

Definition outcome_state {A} (o : outcome (A * gstate)) : gstate :=
  match o with Val (_, s) => s | UB => initial_state end.
Definition lease_run : gstate :=
  outcome_state (@dhcp_init_ifc lease_env 2 "wlan0" initial_state).

Lemma dhcp_lease_sourced_witness :
  last_good_info lease_run = answer_info DHCPACK 0x6400000a ∧
  ∃ l c s1, @dhcp_setup lease_env "wlan0" initial_state = Val (inl (l, c), s1) ∧
    sourced (@observations lease_env l 2 c s1) (last_good_info lease_run).
Proof.
  split; [vm_compute; reflexivity|].
  apply (@dhcp_lease_sourced lease_env lease_env_wf 2 "wlan0" initial_state 0 lease_run).
  - vm_compute. reflexivity.
  - vm_compute. discriminate.
Defined.

(** C29. Bounded retransmission: while the client is still waiting after [n]
    iterations, at most seven of its [n] polls have timed out, so every run in
    which the eighth poll times out has returned; the invariant holds. *)
Theorem dhcp_timeouts_bounded `{Env} (HW : WfEnv) n name s c' s' :
  dhcp_init_ifc n name s = Val (inl c', s') →
  ∃ l c s1, dhcp_setup name s = Val (inl (l, c), s1) ∧ start l c ∧ inv l c' ∧
    length (observations l n c s1) = n ∧ (timeouts (observations l n c s1) ≤ 7)%nat.
Proof.
  intros Hr. apply init_run in Hr as [[? _]|(l & c & s1 & Hn & Hst & Hg & Hr)]; [done|].
  exists l, c, s1. pose proof Hst as (Hb & Hl & Hi & Hw & Ht & Hty).
  pose proof (observations_length _ _ _ _ _ _ Hr) as Hlen.
  apply loop_refines in Hr as (Hi' & Hrun & _); [|done..].
  split_and!; [done..|]. apply prun_budget in Hrun as [Hpos Hsum].
  - unfold budget in *. rewrite Hw, Ht in Hsum. lia.
  - rewrite Ht. unfold max_tries. lia.
Qed.

Definition silent_env : Env := answering [] [].
Lemma silent_env_wf : @WfEnv silent_env.
Proof. by apply answering_wf. Qed.

Lemma dhcp_timeouts_bounded_witness :
  ∃ c' s', @dhcp_init_ifc silent_env 3 "wlan0" initial_state = Val (inl c', s') ∧
  ∃ l c s1, @dhcp_setup silent_env "wlan0" initial_state = Val (inl (l, c), s1) ∧
    start l c ∧ inv l c' ∧
    length (@observations silent_env l 3 c s1) = 3%nat ∧
    (timeouts (@observations silent_env l 3 c s1) ≤ 7)%nat.
Proof.
  destruct (@dhcp_init_ifc silent_env 3 "wlan0" initial_state) as [[[c'|r] s']|] eqn:Hr.
  - exists c', s'. split; [done|].
    by apply (@dhcp_timeouts_bounded silent_env silent_env_wf 3 "wlan0" initial_state c' s').
  - exfalso. vm_compute in Hr. discriminate.
  - exfalso. vm_compute in Hr. discriminate.
Defined.

(** On a link where nothing is ever received, dhcp_init_ifc terminates: four
    iterations of its loop are enough, it returns -1 without undefined behaviour,
    the last good lease is kept, and it has sent nothing (the setup failed) or
    one and the same DISCOVER four times. *)
Theorem dhcp_silent_network `{Env} (HW : WfEnv) name s :
  (∀ tr fd t, ret (kern tr (Poll fd t)) = 0) →
  wp (dhcp_init_ifc 4 name) (λ o s', o = inr (-1) ∧ last_good_info s' = last_good_info s ∧
    (payloads s' = payloads s ∨ ∃ hw x, payloads s' = payloads s ++
       replicate 4 (take 250 (dhcp_msg_bytes (discover_of hw x))))) s.
Proof.
  intros Hsil. unfold dhcp_init_ifc. apply wp_bind, wp_dhcp_setup.
  - intros s' Hp Hg. apply wp_ret. split_and!; [done..|by left].
  - intros l c s1 _ (Hb & Hl & Hi & Hw & Ht & Hty) Hg Hp.
    eapply wp_mono; [|apply (silent_loop l 3); try done].
    + intros o s' (-> & Hg' & Hp'). split_and!; [done|congruence|right].
      exists (hwaddr l), (cxid c). by rewrite Hp', Hp, <- app_assoc.
    + by rewrite Ht.
    + change (info c) with (heard (abs c)). by rewrite Hty.
Qed.

Lemma dhcp_silent_network_witness :
  wp (@dhcp_init_ifc silent_env 4 "wlan0")
     (λ o s', o = inr (-1) ∧ last_good_info s' = last_good_info initial_state ∧
       (payloads s' = payloads initial_state ∨ ∃ hw x, payloads s' = payloads initial_state ++
          replicate 4 (take 250 (dhcp_msg_bytes (discover_of hw x))))) initial_state.
Proof. apply (@dhcp_silent_network silent_env silent_env_wf). done. Defined.

(** A complete exchange: with a server that answers the DISCOVER with an
    OFFER and the REQUEST with an ACK, the client returns 0 after two
    iterations; it sent a DISCOVER and then a REQUEST for the offered address
    from the offering server under the next transaction id; the interface was
    configured with the address, mask and gateway of the ACK and its DNS
    servers, and every socket it opened is closed. *)
Theorem dhcp_exchange_completes :
  ∃ s', @dhcp_init_ifc lease_env 2 "wlan0" initial_state = Val (inr 0, s') ∧
    last_good_info s' = answer_info DHCPACK 0x6400000a ∧
    payloads s' = [take 250 (dhcp_msg_bytes (discover_of mac 7000));
                   take 262 (dhcp_msg_bytes (request_of mac 7001 0x6400000a 0x0200000a))] ∧
    drop 4 (ioctls s') =
      [(IfcUtils.SIOCSIFADDR, IfcUtils.addr_req "wlan0" 0x6400000a);
       (IfcUtils.SIOCSIFNETMASK, IfcUtils.addr_req "wlan0" 0x00ffffff);
       (IfcUtils.SIOCADDRT, RtEntry (IfcUtils.default_route "wlan0" 0x0100000a))] ∧
    prop_sets s' = [("net.wlan0.dns1", "8.8.8.8"); ("net.wlan0.dns2", "8.8.4.4")] ∧
    held 5 (trace s') = 0 ∧ held 6 (trace s') = 0.
Proof. exists lease_run. vm_compute. split_and!; reflexivity. Qed.

(** A client that hears one OFFER meant for another exchange, then nothing. *)
Definition foreign_env : Env := answering [1] [foreign_frame].
Definition foreign_run : gstate :=
  outcome_state (@dhcp_init_ifc foreign_env 5 "wlan0" initial_state).

(** A rejected reply still takes effect: the parameters are decoded into
    [info] before the reply is validated, so an OFFER with a foreign transaction
    id, which the client reports as an invalid reply, is what the interface is
    configured with once the retransmissions have timed out. *)
Theorem invalid_offer_configures :
  observe (HE := foreign_env) sample_link sample_client initial_state =
    IReply false (answer_info DHCPOFFER 0x0d00a8c0) ∧
  @dhcp_init_ifc foreign_env 5 "wlan0" initial_state = Val (inr 0, foreign_run) ∧
  last_good_info foreign_run = answer_info DHCPOFFER 0x0d00a8c0 ∧
  (IfcUtils.SIOCSIFADDR, IfcUtils.addr_req "wlan0" 0x0d00a8c0) ∈ ioctls foreign_run.
Proof.
  split_and!; [vm_compute; reflexivity..|].
  apply list_elem_of_lookup. exists 4%nat. vm_compute. reflexivity.
Qed.

(** The raw socket is not closed on every exit: when the client configures the
    interface with offered parameters after its timeouts, and when poll fails,
    dhcp_init_ifc returns with its packet socket still open. *)
Theorem raw_socket_left_open :
  held 5 (trace foreign_run) = 1 ∧
  held 5 (trace (outcome_state
    (@dhcp_init_ifc (answering [-1] []) 1 "wlan0" (set_errno 22 initial_state)))) = 1.
Proof. vm_compute. split; reflexivity. Qed.
End DhcpProtocol.
