(* ===== verification/DhcpUtils.v ===== *)
(** * Managing the dhcpcd daemon (src/system/core/libnetutils/dhcp_utils.c, IPv4)

    The functions start and stop init services by setting control properties,
    wait for status properties, and collect the results the daemon's hook
    script leaves in system properties.  Buffers the caller passes are the
    fields of [results]; the file's [errmsg] is [dhcp_errmsg]. *)
From S2P Require Import Prelude Runtime IfcUtils.

(** Names and sizes of netutils/dhcp_utils.h, which is not part of this tree,
    and the build option of dhcp_start. *)
Class DhcpNames := {
  DHCPv6_PROP_NAME_PREFIX : string; DHCPv6_DAEMON_NAME : string;
  DHCPv6_DAEMON_PROP_NAME : string; DHCPv6DNS_DAEMON_NAME : string;
  DHCPv6DNS_DAEMON_PROP_NAME : string; DAEMON_NAME_INFORM : string;
  DAEMON_NAME_INFORMV6 : string; PD_PROP_NAME_PREFIX : string;
  PD_DAEMON_NAME : string; PD_DAEMON_PROP_NAME : string; DHCP6C_PIDFILE : string;
  ERRMSGV6_SIZE : nat; ERRMSGPD_SIZE : nat;
  MTK_AUTOIP_SUPPORT : bool
}.

Module DhcpUtils.

Definition DAEMON_NAME : string := "dhcpcd".
Definition DAEMON_PROP_NAME : string := "init.svc.dhcpcd".
Definition HOSTNAME_PROP_NAME : string := "net.hostname".
Definition DHCP_PROP_NAME_PREFIX : string := "dhcp".
Definition DHCP_CONFIG_PATH : string := "/system/etc/dhcpcd/dhcpcd.conf".
Definition NAP_TIME : Z := 50.
Definition DAEMON_NAME_RENEW : string := "iprenew".
Definition ERRMSG_SIZE : nat := 100.
Definition MAX_INTERFACE_LENGTH : nat := 25.

(** ** C strings *)
Definition NUL : Ascii.ascii := Ascii.zero.

(** [strncpy] into a buffer: at most [n] characters, zero padded, and without a
    terminator when the source has [n] characters or more. *)
Definition strncpy (n : nat) (src : string) : list Ascii.ascii :=
  take n (String.list_ascii_of_string src ++ replicate n NUL).

(** The string a buffer holds when it is used as one ([%s]); reading on past
    the buffer is undefined. *)
Fixpoint c_string (buf : list Ascii.ascii) : outcome string :=
  match buf with
  | [] => UB
  | c :: rest => if decide (c = NUL) then Val "" else s ← c_string rest; Val (String c s)
  end.

Definition get_p2p_interface_replacement (interface : string) : list Ascii.ascii :=
  if String.prefix "p2p" interface
  then strncpy MAX_INTERFACE_LENGTH "p2p"
  else strncpy MAX_INTERFACE_LENGTH interface.

(** ** Caller's buffers *)
Record results := mk_results {
  r_ipaddr : string; r_gateway : string; r_prefixLength : Z; r_dns : list string;
  r_server : string; r_lease : Z; r_vendorInfo : string; r_domain : string; r_mtu : string
}.
Definition set_r_ipaddr v r := mk_results v (r_gateway r) (r_prefixLength r) (r_dns r) (r_server r) (r_lease r) (r_vendorInfo r) (r_domain r) (r_mtu r).
Definition set_r_gateway v r := mk_results (r_ipaddr r) v (r_prefixLength r) (r_dns r) (r_server r) (r_lease r) (r_vendorInfo r) (r_domain r) (r_mtu r).
Definition set_r_prefixLength v r := mk_results (r_ipaddr r) (r_gateway r) v (r_dns r) (r_server r) (r_lease r) (r_vendorInfo r) (r_domain r) (r_mtu r).
Definition set_r_dns v r := mk_results (r_ipaddr r) (r_gateway r) (r_prefixLength r) v (r_server r) (r_lease r) (r_vendorInfo r) (r_domain r) (r_mtu r).
Definition set_r_server v r := mk_results (r_ipaddr r) (r_gateway r) (r_prefixLength r) (r_dns r) v (r_lease r) (r_vendorInfo r) (r_domain r) (r_mtu r).
Definition set_r_lease v r := mk_results (r_ipaddr r) (r_gateway r) (r_prefixLength r) (r_dns r) (r_server r) v (r_vendorInfo r) (r_domain r) (r_mtu r).
Definition set_r_vendorInfo v r := mk_results (r_ipaddr r) (r_gateway r) (r_prefixLength r) (r_dns r) (r_server r) (r_lease r) v (r_domain r) (r_mtu r).
Definition set_r_domain v r := mk_results (r_ipaddr r) (r_gateway r) (r_prefixLength r) (r_dns r) (r_server r) (r_lease r) (r_vendorInfo r) v (r_mtu r).
Definition set_r_mtu v r := mk_results (r_ipaddr r) (r_gateway r) (r_prefixLength r) (r_dns r) (r_server r) (r_lease r) (r_vendorInfo r) (r_domain r) v.

(** The loop over the bits of a netmask in host order: the number of leading
    ones, or nothing for a mask with a one after a zero. *)
Fixpoint mask_loop (fuel : nat) (p mask : Z) : option Z :=
  match fuel with
  | O => Some p
  | S fuel' =>
      if mask =? 0 then Some p
      else if Z.land mask 0x80000000 =? 0 then None
      else mask_loop fuel' (p + 1) (u32 (Z.shiftl mask 1))
  end.

Definition INADDR_NONE : Z := 0xffffffff.

Section Operations.
Context `{Env} `{DhcpNames}.

(** ** Waiting for a property *)

(** Does a value read satisfy the wait? NULL waits for anything but
    "obtaining". *)
Definition wanted (desired_value : option string) (value : string) : bool :=
  match desired_value with
  | None => negb (String.eqb value "obtaining")
  | Some d => String.eqb value d
  end.

(** The loop with [naps] naps left; it reads once more than it naps. *)
Fixpoint wait_loop (name : string) (desired_value : option string) (naps : nat) : M Z :=
  '(n, value) ← property_get name;
  if negb (n =? 0) && wanted desired_value value then mret 0 else
  match naps with
  | O => mret (-1)
  | S naps' => call_ (Usleep (NAP_TIME * 1000)) ;; wait_loop name desired_value naps'
  end.

(** The number of naps in [msecs] milliseconds, at least one. *)
Definition maxnaps (msecs : Z) : nat :=
  let n := Z.quot msecs NAP_TIME in
  Z.to_nat (if n <? 1 then 1 else n).

Definition wait_for_property (name : string) (desired_value : option string) (maxwait : Z) : M Z :=
  msecs ← lift (mul_int maxwait 1000);
  wait_loop name desired_value (maxnaps msecs).

(** ** Names *)
Definition prop_key (text : string) : string := snprintf PROPERTY_KEY_MAX text.
Definition dhcp_prop (p2p_interface suffix : string) : string :=
  prop_key (DHCP_PROP_NAME_PREFIX +:+ "." +:+ p2p_interface +:+ "." +:+ suffix).
Definition set_dhcp_err (text : string) : M unit := modify (set_dhcp_errmsg (snprintf ERRMSG_SIZE text)).
Definition p2p_name (interface : string) : M string :=
  lift (c_string (get_p2p_interface_replacement interface)).

(** ** Results *)
Fixpoint read_dns (p2p_interface : string) (x : Z) (dns : list string) : M (list string) :=
  match dns with
  | [] => mret []
  | _ :: rest =>
      '(_, v) ← property_get (dhcp_prop p2p_interface ("dns" +:+ pretty (x + 1)));
      vs ← read_dns p2p_interface (x + 1) rest;
      mret (v :: vs)
  end.

(** The netmask property: the buffers, or [None] after an invalid mask. *)
Definition read_mask (p2p_interface : string) (r : results) : M (option results) :=
  '(n, prop_value) ← property_get (dhcp_prop p2p_interface "mask");
  if n =? 0 then mret (Some r) else
  let mask := ntohl (inet_addr prop_value) in
  if (mask =? INADDR_NONE) && negb (String.eqb prop_value "255.255.255.255") then
    set_dhcp_err ("DHCP gave invalid net mask " +:+ prop_value) ;; mret None
  else
    match mask_loop 32 0 mask with
    | None => set_dhcp_err ("DHCP gave invalid net mask " +:+ prop_value) ;; mret None
    | Some p => mret (Some (set_r_prefixLength p r))
    end.

Definition fill_ip_info (interface : string) (r : results) : M (Z * results) :=
  p2p ← p2p_name interface;
  '(n, v) ← property_get (dhcp_prop p2p "ipaddress");
  let r := set_r_ipaddr v r in
  if n =? 0 then mret (-1, r) else
  '(_, gateway) ← property_get (dhcp_prop p2p "gateway");
  '(_, server) ← property_get (dhcp_prop p2p "server");
  let gateway := if String.eqb gateway "" || String.prefix "0.0.0.0" gateway
                 then server else gateway in
  let r := set_r_server server (set_r_gateway gateway r) in
  m ← read_mask p2p r;
  match m with
  | None => mret (-1, r)
  | Some r =>
      dns ← read_dns p2p 0 (r_dns r);
      '(n, v) ← property_get (dhcp_prop p2p "leasetime");
      let r := set_r_dns dns r in
      let r := if n =? 0 then r else set_r_lease (u32 (atol v)) r in
      '(_, v) ← property_get (dhcp_prop p2p "vendorInfo");
      let r := set_r_vendorInfo v r in
      '(_, v) ← property_get (dhcp_prop p2p "domain");
      let r := set_r_domain v r in
      '(_, v) ← property_get (dhcp_prop p2p "mtu");
      mret (0, set_r_mtu v r)
  end.

Definition dhcp_get_results (interface : string) (r : results) : M (Z * results) :=
  p2p ← p2p_name interface;
  let result_prop_name := dhcp_prop p2p "result" in
  '(n, prop_value) ← property_get result_prop_name;
  if n =? 0 then set_dhcp_err "DHCP result property was not set" ;; mret (-1, r)
  else if String.eqb prop_value "ok" then
    '(x, r) ← fill_ip_info interface r;
    if x =? -1 then mret (-1, r) else mret (0, r)
  else
    set_dhcp_err ("DHCP result was " +:+ prop_value) ;;
    property_set result_prop_name "timeout" ;; mret (-1, r).

(** ** Starting and stopping the daemon *)
Definition daemon_prop (p2p_interface : string) : string :=
  prop_key (DAEMON_PROP_NAME +:+ "_" +:+ p2p_interface).

(** The text of daemon_cmd: written only when there is a host name. *)
Definition start_command (p2p_interface interface hostname : string) : string :=
  let opts := if MTK_AUTOIP_SUPPORT then ":-f " else ":-A -f " in
  snprintf (PROPERTY_VALUE_MAX * 2 + S (String.length DHCP_CONFIG_PATH))
    (DAEMON_NAME +:+ "_" +:+ p2p_interface +:+ opts +:+ DHCP_CONFIG_PATH +:+
     " -h " +:+ hostname +:+ " " +:+ interface).

Definition dhcp_start (interface : string) : M Z :=
  p2p ← p2p_name interface;
  let result_prop_name := dhcp_prop p2p "result" in
  let daemon_prop_name := daemon_prop p2p in
  property_set result_prop_name "obtaining" ;;
  '(n, prop_value) ← property_get HOSTNAME_PROP_NAME;
  (* without a host name daemon_cmd is uninitialised, and is read *)
  daemon_cmd ← (if negb (n =? 0) && negb (String.eqb prop_value "")
                then mret (start_command p2p interface prop_value) else undefined);
  property_set "ctl.start" daemon_cmd ;;
  r ← wait_for_property daemon_prop_name (Some "running") 10;
  if r <? 0 then set_dhcp_err "Timed out waiting for dhcpcd to start" ;; mret (-1) else
  r ← wait_for_property result_prop_name None (if MTK_AUTOIP_SUPPORT then 40 else 30);
  if r <? 0 then set_dhcp_err "Timed out waiting for DHCP to finish" ;; mret (-1) else
  mret 0.

Definition stop_command (p2p_interface : string) : string :=
  snprintf (PROPERTY_VALUE_MAX * 2) (DAEMON_NAME +:+ "_" +:+ p2p_interface).

Definition dhcp_stop (interface : string) : M Z :=
  p2p ← p2p_name interface;
  let result_prop_name := dhcp_prop p2p "result" in
  let daemon_prop_name := daemon_prop p2p in
  let prop_value := "" in
  (if String.eqb prop_value "obtaining"
   then _ ← wait_for_property daemon_prop_name (Some "running") 1; mret tt else mret tt) ;;
  property_set "ctl.stop" (stop_command p2p) ;;
  r ← wait_for_property daemon_prop_name (Some "stopped") 5;
  if r <? 0 then mret (-1) else
  property_set result_prop_name "failed" ;; mret 0.

Definition dhcp_release_lease (interface : string) : M Z :=
  p2p ← p2p_name interface;
  property_set "ctl.stop" (stop_command p2p) ;;
  r ← wait_for_property (daemon_prop p2p) (Some "stopped") 5;
  if r <? 0 then mret (-1) else mret 0.

Definition dhcp_get_errmsg : M string := get_state dhcp_errmsg.

Definition dhcp_start_renew (interface : string) : M Z :=
  p2p ← p2p_name interface;
  let result_prop_name := dhcp_prop p2p "result" in
  property_set result_prop_name "" ;;
  property_set "ctl.start"
    (snprintf (PROPERTY_VALUE_MAX * 2) (DAEMON_NAME_RENEW +:+ "_" +:+ p2p +:+ ":" +:+ interface)) ;;
  r ← wait_for_property result_prop_name None 30;
  if r <? 0 then set_dhcp_err "Timed out waiting for DHCP Renew to finish" ;; mret (-1)
  else mret 0.

(** ** SIP parameters through DHCPINFORM *)
Definition dhcp_do_sip_request (iface : string) : M Z :=
  let result_prop_name := dhcp_prop iface "v4sipinfo" in
  property_set result_prop_name "" ;;
  property_set "ctl.start" (snprintf (PROPERTY_VALUE_MAX * 2) (DAEMON_NAME_INFORM +:+ ":" +:+ iface)) ;;
  r ← wait_for_property result_prop_name None 30;
  if r <? 0 then set_dhcp_err "Timed out waiting for DHCP inform to finish" ;; mret (-1) else
  '(n, prop_value) ← property_get result_prop_name;
  if n =? 0 then set_dhcp_err "DHCP Inform result property was not set" ;; mret (-1)
  else if String.eqb prop_value "success" then mret 0
  else set_dhcp_err ("DHCP Inform result was " +:+ prop_value) ;; mret (-1).

Definition dhcp_stop_sip_request (iface : option string) : M Z :=
  match iface with
  | None => set_dhcp_err "interface is NULL." ;; mret (-1)
  | Some iface =>
      let result_prop_name := dhcp_prop iface "v4sipinfo" in
      property_set "ctl.stop" (snprintf (PROPERTY_VALUE_MAX * 2) DAEMON_NAME_INFORM) ;;
      r ← wait_for_property (prop_key ("init.svc." +:+ DAEMON_NAME_INFORM)) (Some "stopped") 5;
      if r <? 0 then mret (-1) else
      property_set result_prop_name "failed" ;; mret 0
  end.

(** wait_for_property_usedByPD: naps before every read, and takes any value. *)
Fixpoint wait_loop_PD (name : string) (desired_value : option string) (naps : nat) : M Z :=
  match naps with
  | O => mret (-1)
  | S naps' =>
      call_ (Usleep (NAP_TIME * 1000)) ;;
      '(n, value) ← property_get name;
      if negb (n =? 0) && match desired_value with None => true | Some d => String.eqb value d end
      then mret 0 else wait_loop_PD name desired_value naps'
  end.
Definition wait_for_property_usedByPD (name : string) (desired_value : option string) (maxwait : Z) : M Z :=
  msecs ← lift (mul_int maxwait 1000);
  wait_loop_PD name desired_value (maxnaps msecs).
End Operations.

(** ** Interface names *)
Definition no_nul (s : string) : Prop := Forall (λ c, c ≠ NUL) (String.list_ascii_of_string s).

Lemma c_string_app s rest :
  no_nul s → c_string (String.list_ascii_of_string s ++ NUL :: rest) = Val s.
Proof.
  unfold no_nul. induction s as [|c s IH]; cbn; [done|]. intros [Hc Hs]%Forall_cons_1.
  rewrite decide_False by done. by rewrite IH.
Qed.
Lemma c_string_full l : Forall (λ c, c ≠ NUL) l → c_string l = UB.
Proof.
  induction 1 as [|c l Hc _ IH]; cbn; [done|]. rewrite decide_False by done. by rewrite IH.
Qed.

Lemma length_chars s : length (String.list_ascii_of_string s) = String.length s.
Proof. induction s; cbn; [done|]. by f_equal. Qed.

Lemma c_string_strncpy n s :
  no_nul s → c_string (strncpy n s) = if (String.length s <? n)%nat then Val s else UB.
Proof.
  intros Hs. unfold strncpy. rewrite <- length_chars. destruct (Nat.ltb_spec (length (String.list_ascii_of_string s)) n).
  - rewrite take_app_ge by lia. rewrite take_replicate.
    destruct (n - _)%nat as [|k] eqn:Hk; [lia|]. rewrite Nat.min_l by lia. cbn [replicate].
    by apply c_string_app.
  - rewrite take_app_le by lia. apply c_string_full. by apply Forall_take.
Qed.

(** ** Netmasks *)
Lemma mask_top m : is_u32 m → (Z.land m 0x80000000 =? 0) = (m <? 2147483648).
Proof.
  intros Hm. unfold is_u32 in Hm. apply eq_bool_prop_intro. rewrite !Is_true_true.
  rewrite Z.eqb_eq, Z.ltb_lt, IfcUtils.land_top.
  rewrite Z.testbit_false by lia. change (2 ^ 31) with 2147483648.
  destruct (decide (m < 2147483648)).
  - rewrite Z.div_small by lia. done.
  - replace m with (m - 2147483648 + 1 * 2147483648) by lia.
    rewrite Z.div_add, Z.div_small by lia. cbn. split; [done|lia].
Qed.
Lemma shift_top m :
  2147483648 ≤ m < 4294967296 → u32 (Z.shiftl m 1) = 2 * m - 4294967296.
Proof.
  intros Hm. rewrite Z.shiftl_mul_pow2 by lia. unfold u32.
  replace (m * 2 ^ 1) with (2 * m - 4294967296 + 1 * 4294967296) by lia.
  rewrite Z.mod_add by lia. apply Z.mod_small. lia.
Qed.

(** The masks of [k] leading ones. *)
Definition ones (k : Z) : Z := 2 ^ 32 - 2 ^ (32 - k).

Lemma ones_succ k : 0 ≤ k ≤ 31 → ones k = 2 * ones (k + 1) - 4294967296.
Proof.
  intros. unfold ones. replace (32 - k) with (Z.succ (32 - (k + 1))) by lia.
  rewrite Z.pow_succ_r by lia. lia.
Qed.
Lemma ones_bounds k : 0 ≤ k ≤ 32 → 0 ≤ ones k < 4294967296 ∧ (1 ≤ k → 2147483648 ≤ ones k) ∧ (ones k = 0 → k = 0).
Proof.
  intros Hk. unfold ones. pose proof (Z.pow_pos_nonneg 2 (32 - k)).
  pose proof (Z.pow_le_mono_r 2 (32 - k) 32).
  pose proof (Z.pow_le_mono_r 2 (32 - k) 31). change (2 ^ 32) with 4294967296 in *.
  change (2 ^ 31) with 2147483648 in *. split_and!; lia.
Qed.

(** Shifting out the top bit adds a zero at the bottom. *)
Lemma shift_low_zeros fuel m :
  (S fuel ≤ 32)%nat → m mod 2 ^ (32 - Z.of_nat (S fuel)) = 0 →
  (2 * m - 4294967296) mod 2 ^ (32 - Z.of_nat fuel) = 0.
Proof.
  intros Hf Hmod. apply Z.mod_divide in Hmod as [z Hz]; [|apply Z.pow_nonzero; lia].
  apply Z.mod_divide; [apply Z.pow_nonzero; lia|].
  replace (32 - Z.of_nat fuel) with (Z.succ (32 - Z.of_nat (S fuel))) by lia.
  rewrite Z.pow_succ_r by lia. rewrite Hz. set (w := 2 ^ (32 - Z.of_nat (S fuel))) in *.
  assert (Hw : 4294967296 = 2 ^ Z.of_nat fuel * (2 * w)).
  { unfold w. rewrite <- Z.pow_succ_r, <- Z.pow_add_r by lia.
    replace (Z.of_nat fuel + Z.succ (32 - Z.of_nat (S fuel))) with 32 by lia. done. }
  exists (z - 2 ^ Z.of_nat fuel). rewrite Hw. lia.
Qed.

Lemma mask_loop_spec fuel : ∀ p m,
  (fuel ≤ 32)%nat → is_u32 m → m mod 2 ^ (32 - Z.of_nat fuel) = 0 →
  match mask_loop fuel p m with
  | Some q => ∃ k, q = p + k ∧ 0 ≤ k ≤ Z.of_nat fuel ∧ m = ones k
  | None => ∀ k, 0 ≤ k ≤ 32 → m ≠ ones k
  end ∧
  (∀ q, mask_loop fuel p m = Some q → IfcUtils.leading_ones (S fuel) m p = q).
Proof.
  induction fuel as [|fuel IH]; intros p m Hf Hm Hmod; cbn [mask_loop].
  - assert (m = 0) as ->.
    { rewrite Z.mod_small in Hmod; [done|]. unfold is_u32 in Hm. cbn. lia. }
    split; [exists 0; split_and!; (lia || done)|]. intros q [= <-]. done.
  - destruct (Z.eqb_spec m 0) as [->|Hne].
    { split; [exists 0; split_and!; (lia || done)|]. intros q [= <-]. done. }
    rewrite mask_top by done. destruct (Z.ltb_spec m 2147483648) as [Hlt|Hge].
    { split; [|done]. intros k Hk ->. destruct (ones_bounds k Hk) as (_ & H1 & H0).
      destruct (decide (k = 0)) as [->|]; [done|]. lia. }
    unfold is_u32 in Hm. rewrite shift_top by lia.
    destruct (IH (p + 1) (2 * m - 4294967296)) as [Hspec Hlead]; [lia|unfold is_u32; lia| |].
    { apply shift_low_zeros; [lia|done]. }
    split.
    + destruct (mask_loop fuel (p + 1) _) as [q|].
      * destruct Hspec as (k & -> & Hk & Heq). exists (k + 1). split_and!; [lia..|].
        rewrite (ones_succ k) in Heq by lia. lia.
      * intros k Hk ->. destruct (decide (k = 0)) as [->|]; [done|].
        apply (Hspec (k - 1)); [lia|]. rewrite (ones_succ (k - 1)) by lia.
        replace (k - 1 + 1) with k by lia. done.
    + intros q Hq. rewrite <- (Hlead q Hq). cbn [IfcUtils.leading_ones].
      rewrite mask_top by done. rewrite (proj2 (Z.ltb_ge _ _)) by lia. rewrite shift_top by lia. done.
Qed.

(** ** Waiting *)
Section Waiting.
Context `{Env}.

(** The value a property_get delivers, and whether it ends a wait. *)
Definition got (r : response) : string := snprintf PROPERTY_VALUE_MAX (default "" (head (strs r))).
Definition satisfies (desired_value : option string) (r : response) : bool :=
  negb (Z.of_nat (String.length (got r)) =? 0) && wanted desired_value (got r).

(** The events of [bad] unsuccessful reads, each followed by a nap. *)
Definition naps_of (name : string) (bad : list (response * response)) : list event :=
  bad ≫= λ gu, [(PropertyGet name, gu.1); (Usleep (NAP_TIME * 1000), gu.2)].

Definition waited (name : string) (d : option string) (naps : nat) (s : gstate) (r : Z) (s' : gstate) : Prop :=
  ∃ bad last, trace s' = trace s ++ naps_of name bad ++ [(PropertyGet name, last)] ∧
    Forall (λ gu, satisfies d gu.1 = false) bad ∧ (length bad ≤ naps)%nat ∧
    (r = 0 ∧ satisfies d last = true ∨ r = -1 ∧ satisfies d last = false ∧ length bad = naps).

Lemma wp_wait_loop name d naps : ∀ s,
  wp (wait_loop name d naps) (waited name d naps s) s.
Proof.
  induction naps as [|naps IH]; intros s; cbn [wait_loop]; apply wp_bind; unfold property_get;
    apply wp_bind, wp_call, wp_ret; fold (got (kern (trace s) (PropertyGet name)));
    fold (satisfies d (kern (trace s) (PropertyGet name))); set (g := kern _ _);
    destruct (satisfies d g) eqn:Hg.
  - apply wp_ret. exists [], g. split_and!; [done|done|done|by left].
  - apply wp_ret. exists [], g. split_and!; [done|done|done|by right].
  - apply wp_ret. exists [], g. split_and!; [done|done|cbn; lia|by left].
  - apply wp_bind. unfold call_. apply wp_bind, wp_call, wp_ret. eapply wp_mono; [|apply IH].
    intros r s' (bad & last & Ht & Hb & Hl & Hr).
    exists ((g, kern (trace s ++ [(PropertyGet name, g)]) (Usleep (NAP_TIME * 1000))) :: bad), last. split_and!.
    + rewrite Ht. cbn [record_event trace set_errno set_trace]. by rewrite <- !app_assoc.
    + by constructor.
    + cbn. lia.
    + destruct Hr as [?|(? & ? & ?)]; [by left|right]. split_and!; [done|done|cbn; lia].
Qed.

(** Waits make no requests and leave the error texts alone. *)
Lemma wait_loop_frame {X} (f : gstate → X) name d naps :
  (∀ c r s, prop_of (c, r) = None → f (record_event c r s) = f s) →
  preserves f (wait_loop name d naps).
Proof.
  intros Hf. induction naps as [|naps IH]; cbn [wait_loop]; unfold property_get, call_;
    repeat first [apply IH | apply preserves_bind; [|intros ?] | apply preserves_ret
                 | apply preserves_call; intros; by apply Hf
                 | case_match; simplify_eq ].
Qed.
Lemma prop_sets_frame c r s : prop_of (c, r) = None → prop_sets (record_event c r s) = prop_sets s.
Proof. intros Hp. rewrite prop_sets_record. cbn [omap list_omap]. rewrite Hp. apply app_nil_r. Qed.

(** Seconds whose milliseconds are an int. *)
Definition seconds_ok (maxwait : Z) : Prop := -2147483 ≤ maxwait ≤ 2147483.

Lemma mul_int_ok maxwait : seconds_ok maxwait → mul_int maxwait 1000 = Val (maxwait * 1000).
Proof.
  intros [??]. unfold mul_int.
  by rewrite (proj2 (Z.leb_le _ _)), (proj2 (Z.leb_le _ _)) by lia.
Qed.
Lemma wp_wait_for name d maxwait (Q : Z → gstate → Prop) s :
  seconds_ok maxwait → wp (wait_loop name d (maxnaps (maxwait * 1000))) Q s →
  wp (wait_for_property name d maxwait) Q s.
Proof. intros Hm Hw. apply wp_bind. eapply wp_lift; [by apply mul_int_ok|done]. Qed.

(** What a wait for a value in [P] looks like from outside, with [naps] naps allowed:
    reads that bring no such value, a nap of 50 ms after each, and one last read that
    brings one, or with all naps used does not. *)
Definition polls (name : string) (P : string → Prop) (naps : nat) (w : list event) (ok : bool) : Prop :=
  ∃ bad g, w = (bad ≫= λ gu : response * response, [(PropertyGet name, gu.1); (Usleep 50000, gu.2)]) ++ [(PropertyGet name, g)] ∧
    Forall (λ gu, ~ P (got gu.1)) bad ∧
    if ok then (length bad ≤ naps)%nat ∧ P (got g) else length bad = naps ∧ ~ P (got g).

Lemma wp_polls name d P maxwait (Q : Z → gstate → Prop) s :
  seconds_ok maxwait → (∀ g, satisfies d g = true ↔ P (got g)) →
  (∀ s' w ok, trace s' = trace s ++ w → polls name P (maxnaps (maxwait * 1000)) w ok → Q (if ok then 0 else -1) s') →
  wp (wait_for_property name d maxwait) Q s.
Proof.
  intros Hm HP HQ. apply wp_wait_for; [done|]. eapply wp_mono; [|apply wp_wait_loop].
  intros r s' (bad & g & Ht & Hb & Hl & Hr).
  assert (Hb' : Forall (λ gu : response * response, ~ P (got gu.1)) bad).
  { eapply Forall_impl; [exact Hb|]. intros gu Hgu. cbv beta in *. by rewrite <- HP, Hgu. }
  destruct Hr as [[-> Hg]|(-> & Hg & Hn)].
  - eapply (HQ s' _ true); [exact Ht|]. exists bad, g. rewrite <- HP. done.
  - eapply (HQ s' _ false); [exact Ht|]. exists bad, g. rewrite <- HP, Hg. done.
Qed.
Lemma satisfies_value v g : v ≠ "" → satisfies (Some v) g = true ↔ got g = v.
Proof.
  intros Hv. unfold satisfies, wanted. rewrite andb_true_iff, String.eqb_eq. split; [by intros [_ ?]|]. intros ->.
  split; [by destruct v|done].
Qed.
Lemma satisfies_any g : satisfies None g = true ↔ got g ≠ "" ∧ got g ≠ "obtaining".
Proof.
  unfold satisfies, wanted. rewrite andb_true_iff, !negb_true_iff, String.eqb_neq, Z.eqb_neq.
  destruct (got g); cbn [String.length]; split; intros [??]; split; done || lia.
Qed.

Lemma maxnaps_eq maxwait : 1 ≤ maxwait → Z.of_nat (maxnaps (maxwait * 1000)) = 20 * maxwait.
Proof.
  intros. unfold maxnaps, NAP_TIME. rewrite Z.quot_div_nonneg by lia.
  replace (maxwait * 1000) with (20 * maxwait * 50) by lia. rewrite Z.div_mul by lia.
  rewrite (proj2 (Z.ltb_ge _ _)) by lia. lia.
Qed.
End Waiting.

(** ** Collecting results *)

(** An interface name a caller can pass, and the name its properties use. *)
Definition iface_ok (interface : string) : Prop :=
  no_nul interface ∧ (String.length interface < MAX_INTERFACE_LENGTH)%nat.
Definition p2p_of (interface : string) : string :=
  if String.prefix "p2p" interface then "p2p" else interface.

Lemma p2p_buffer interface :
  no_nul interface →
  c_string (get_p2p_interface_replacement interface) =
    if String.prefix "p2p" interface then Val "p2p"
    else if (String.length interface <? MAX_INTERFACE_LENGTH)%nat then Val interface else UB.
Proof.
  intros Hn. unfold get_p2p_interface_replacement. destruct (String.prefix "p2p" interface); [done|].
  by apply c_string_strncpy.
Qed.

Lemma p2p_of_ok interface :
  iface_ok interface → c_string (get_p2p_interface_replacement interface) = Val (p2p_of interface).
Proof.
  intros [Hn Hl]. rewrite p2p_buffer by done. unfold p2p_of. destruct (String.prefix _ _); [done|].
  by rewrite (proj2 (Nat.ltb_lt _ _) Hl).
Qed.

Ltac props := rewrite ?prop_sets_record; cbn [omap list_omap prop_of]; rewrite ?app_nil_r.

Section Results.
Context `{Env} (store : string → string).

(** A store of properties nobody changes meanwhile. *)
Definition stable : Prop := ∀ tr key, kern tr (PropertyGet key) = resp_str (store key).
Hypothesis Hstable : stable.

(** The value of a property of the interface, as a read delivers it. *)
Definition value (key : string) : string := snprintf PROPERTY_VALUE_MAX (store key).
Definition present (key : string) : bool := negb (Z.of_nat (String.length (value key)) =? 0).

Lemma wp_property_value key (Q : Z * string → gstate → Prop) s :
  (∀ s', prop_sets s' = prop_sets s →
     Q (Z.of_nat (String.length (value key)), value key) s') →
  wp (property_get key) Q s.
Proof.
  intros HQ. unfold property_get. apply wp_bind, wp_call, wp_ret. rewrite Hstable.
  apply HQ. by props.
Qed.

(** A mask property is usable when absent or the dotted form of leading ones. *)
Definition mask_result (p2p : string) : option (option Z) :=
  let v := value (dhcp_prop p2p "mask") in
  if negb (present (dhcp_prop p2p "mask")) then Some None
  else if (ntohl (inet_addr v) =? INADDR_NONE) && negb (String.eqb v "255.255.255.255") then None
  else Some <$> mask_loop 32 0 (ntohl (inet_addr v)).

Lemma wp_read_mask p2p r (Q : option results → gstate → Prop) s :
  (∀ s', prop_sets s' = prop_sets s →
     Q (match mask_result p2p with
        | None => None
        | Some None => Some r
        | Some (Some p) => Some (set_r_prefixLength p r)
        end) s') →
  wp (read_mask p2p r) Q s.
Proof.
  intros HQ. unfold read_mask. apply wp_bind, wp_property_value. intros s1 Hs1.
  unfold mask_result, present in HQ. cbv zeta in HQ.
  destruct (Z.of_nat (String.length (value (dhcp_prop p2p "mask"))) =? 0); cbn [negb] in HQ;
    [apply wp_ret; by apply HQ|].
  destruct (_ && _); [apply wp_bind, wp_modify, wp_ret; by apply HQ|].
  destruct (mask_loop 32 0 _) as [p|]; cbn [fmap option_fmap option_map] in HQ;
    [apply wp_ret; by apply HQ|apply wp_bind, wp_modify, wp_ret; by apply HQ].
Qed.

Lemma wp_read_dns p2p : ∀ dns x (Q : list string → gstate → Prop) s,
  (∀ s', prop_sets s' = prop_sets s →
     Q (imap (λ i _, value (dhcp_prop p2p ("dns" +:+ pretty (x + Z.of_nat i + 1)))) dns) s') →
  wp (read_dns p2p x dns) Q s.
Proof.
  induction dns as [|d dns IH]; intros x Q s HQ; cbn [read_dns].
  - apply wp_ret. by apply HQ.
  - apply wp_bind, wp_property_value. intros s1 Hs1. apply wp_bind, IH. intros s2 Hs2.
    apply wp_ret. cbn [imap] in HQ. rewrite Z.add_0_r in HQ.
    assert (Heq : imap (λ i _, value (dhcp_prop p2p ("dns" +:+ pretty (x + 1 + Z.of_nat i + 1)))) dns =
      imap ((λ i _, value (dhcp_prop p2p ("dns" +:+ pretty (x + Z.of_nat i + 1)))) ∘ S) dns).
    { apply imap_ext. intros i y _. cbn. do 5 f_equal. lia. }
    rewrite Heq. apply HQ. congruence.
Qed.

(** The results the daemon's properties describe. *)
Definition usable_gateway (g : string) : bool :=
  negb (String.eqb g "" || String.prefix "0.0.0.0" g).

Definition described (p2p : string) (prefix : option Z) (r r' : results) : Prop :=
  let v k := value (dhcp_prop p2p k) in
  r_ipaddr r' = v "ipaddress" ∧ r_server r' = v "server" ∧
  r_gateway r' = (if usable_gateway (v "gateway") then v "gateway" else v "server") ∧
  r_prefixLength r' = default (r_prefixLength r) prefix ∧
  r_dns r' = imap (λ i _, v ("dns" +:+ pretty (0 + Z.of_nat i + 1))) (r_dns r) ∧
  r_lease r' = (if present (dhcp_prop p2p "leasetime") then u32 (atol (v "leasetime")) else r_lease r) ∧
  r_vendorInfo r' = v "vendorInfo" ∧ r_domain r' = v "domain" ∧ r_mtu r' = v "mtu".

Definition filled (p2p : string) (r : results) (x : Z) (r' : results) : Prop :=
  if present (dhcp_prop p2p "ipaddress") then
    match mask_result p2p with
    | Some prefix => x = 0 ∧ described p2p prefix r r'
    | None => x = -1
    end
  else x = -1.

Lemma wp_fill_ip_info interface r (Q : Z * results → gstate → Prop) s :
  iface_ok interface →
  (∀ x r' s', filled (p2p_of interface) r x r' → prop_sets s' = prop_sets s → Q (x, r') s') →
  wp (fill_ip_info interface r) Q s.
Proof.
  intros Hok HQ. unfold fill_ip_info, p2p_name. apply wp_bind.
  eapply wp_lift; [by apply p2p_of_ok|]. set (p2p := p2p_of interface) in *.
  unfold filled, present in HQ. apply wp_bind, wp_property_value. intros s1 Hs1.
  destruct (Z.of_nat (String.length (value (dhcp_prop p2p "ipaddress"))) =? 0); cbn [negb] in HQ;
    [apply wp_ret; by apply HQ|].
  apply wp_bind, wp_property_value. intros s2 Hs2. apply wp_bind, wp_property_value. intros s3 Hs3.
  apply wp_bind, wp_read_mask. intros s4 Hs4.
  destruct (mask_result p2p) as [[p|]|]; cbn match in HQ; [| |apply wp_ret, HQ; [done|congruence]].
  all: apply wp_bind, wp_read_dns; intros s5 Hs5; apply wp_bind, wp_property_value; intros s6 Hs6;
    do 2 (apply wp_bind, wp_property_value; intros ? ?);
    apply wp_bind, wp_property_value; intros s9 Hs9; apply wp_ret, HQ; [|congruence];
    (split; [done|]); unfold described, usable_gateway, present; cbv zeta;
    destruct (String.eqb (value (dhcp_prop p2p "gateway")) "" || _);
    destruct (Z.of_nat (String.length (value (dhcp_prop p2p "leasetime"))) =? 0); split_and!; done.
Qed.
End Results.

(** ** Starting and stopping: lemmas *)
Section Daemon.
Context `{Env} `{DhcpNames}.

Lemma wp_property_set_trace key v (Q : unit → gstate → Prop) s :
  (∀ s' g, trace s' = trace s ++ [(PropertySet key v, g)] → Q tt s') →
  wp (property_set key v) Q s.
Proof. intros HQ. unfold property_set, call_. wp_steps. by eapply HQ. Qed.
Lemma wp_property_set key v (Q : unit → gstate → Prop) s :
  (∀ s', prop_sets s' = prop_sets s ++ [(key, v)] → dhcp_errmsg s' = dhcp_errmsg s → Q tt s') →
  wp (property_set key v) Q s.
Proof. intros HQ. unfold property_set, call_. wp_steps. apply HQ; [by props|done]. Qed.
End Daemon.

(** ** Properties *)

(** [wait_for_property] with a bound of at least one second (and whose
    milliseconds fit an int) polls the property at most 20 times a second: it reads, and naps 50 ms after each
    unsatisfactory read, until a read is satisfactory (then 0, without a further
    nap) or the naps of [maxwait] seconds are used up and one more read fails
    (then -1); nothing else happens in between, and a wait for any value is not
    satisfied by "obtaining". *)
Theorem wait_for_property_correct `{Env} name d maxwait s :
  1 ≤ maxwait ≤ 2147483 →
  ∃ naps, Z.of_nat naps * NAP_TIME = maxwait * 1000 ∧
    wp (wait_for_property name d maxwait) (waited name d naps s) s.
Proof.
  intros Hm. exists (maxnaps (maxwait * 1000)).
  split; [rewrite maxnaps_eq by lia; unfold NAP_TIME; lia|].
  apply wp_wait_for; [split; lia|]. apply wp_wait_loop.
Qed.

Lemma wait_for_property_correct_witness :
  let E := scripted0 [resp_str "starting"; resp 0; resp_str "running"] in
  ∃ naps, Z.of_nat naps * NAP_TIME = 10 * 1000 ∧
    wp (@wait_for_property E "init.svc.dhcpcd_wlan0" (Some "running") 10)
       (@waited E "init.svc.dhcpcd_wlan0" (Some "running") naps initial_state) initial_state.
Proof. intros E. apply (@wait_for_property_correct E). lia. Defined.

(** The netmask loop of fill_ip_info accepts exactly the 33 masks of leading
    ones, with their number of ones as the prefix length, which is also what
    ipv4NetmaskToPrefixLength computes from the same address; every other mask
    is rejected. *)
Theorem mask_loop_correct m :
  is_u32 m →
  match mask_loop 32 0 m with
  | Some p => 0 ≤ p ≤ 32 ∧ m = ones p ∧ IfcUtils.ipv4NetmaskToPrefixLength (htonl m) = p
  | None => ∀ k, 0 ≤ k ≤ 32 → m ≠ ones k
  end.
Proof.
  intros Hm. destruct (mask_loop_spec 32 0 m) as [Hs Hl]; [lia|done|by rewrite Z.mod_1_r|].
  destruct (mask_loop 32 0 m) as [p|]; [|done]. destruct Hs as (k & -> & Hk & Heq).
  rewrite Z.add_0_l in *. split_and!; [lia..|done|].
  unfold IfcUtils.ipv4NetmaskToPrefixLength. rewrite ntohl_htonl by done. by apply Hl.
Qed.

Lemma mask_loop_correct_witness :
  mask_loop 32 0 0xffff0000 = Some 16 ∧ IfcUtils.ipv4NetmaskToPrefixLength (htonl 0xffff0000) = 16 ∧
  ∀ k, 0 ≤ k ≤ 32 → 0xff00ff00 ≠ ones k.
Proof.
  assert (H1 : mask_loop 32 0 0xffff0000 = Some 16) by (vm_compute; reflexivity).
  assert (H2 : mask_loop 32 0 0xff00ff00 = None) by (vm_compute; reflexivity).
  pose proof (mask_loop_correct 0xffff0000 ltac:(unfold is_u32; lia)) as P1. rewrite H1 in P1.
  pose proof (mask_loop_correct 0xff00ff00 ltac:(unfold is_u32; lia)) as P2. rewrite H2 in P2.
  split_and!; [exact H1|apply P1|exact P2].
Defined.

(** Interface names: every interface starting with p2p shares the name p2p;
    any other name is used as it is when it has at most 24 characters; from 25
    characters on the copy has no terminator and using it is undefined. *)
Theorem p2p_interface_name interface :
  no_nul interface →
  c_string (get_p2p_interface_replacement interface) =
    if String.prefix "p2p" interface then Val "p2p"
    else if (String.length interface <? 25)%nat then Val interface else UB.
Proof. apply p2p_buffer. Qed.

Lemma p2p_interface_name_witness :
  c_string (get_p2p_interface_replacement "p2p-p2p0-7") = Val "p2p" ∧
  c_string (get_p2p_interface_replacement "wlan0") = Val "wlan0" ∧
  c_string (get_p2p_interface_replacement "a-name-of-twentyfive-char") = UB.
Proof.
  split_and!; rewrite p2p_interface_name; try reflexivity; repeat constructor; discriminate.
Defined.

(** Results: with the daemon's properties at rest, dhcp_get_results fails with
    a message when no result is there; on "ok" it delivers exactly what the
    properties describe (the server as gateway when the gateway is missing or
    0.0.0.0, the prefix length of the mask when there is one) and fails when
    the address is missing or the mask is not a mask; any other result is an
    error and is replaced by "timeout". *)
Theorem dhcp_get_results_correct `{Env} store interface r s :
  stable store → iface_ok interface →
  let p2p := p2p_of interface in
  let result := dhcp_prop p2p "result" in
  wp (dhcp_get_results interface r) (λ '(x, r') s',
    if negb (present store result) then
      x = -1 ∧ r' = r ∧ prop_sets s' = prop_sets s ∧
      dhcp_errmsg s' = "DHCP result property was not set"
    else if String.eqb (value store result) "ok" then
      filled store p2p r x r' ∧ prop_sets s' = prop_sets s
    else x = -1 ∧ r' = r ∧ prop_sets s' = prop_sets s ++ [(result, "timeout")]) s.
Proof.
  intros Hst Hok p2p result. unfold dhcp_get_results, p2p_name. apply wp_bind.
  eapply wp_lift; [by apply p2p_of_ok|]. fold p2p. cbv zeta. fold result.
  apply wp_bind, (wp_property_value store); [done|]. intros s1 Hs1. unfold present.
  destruct (_ =? 0); cbn [negb]; [by apply wp_bind, wp_modify, wp_ret|].
  destruct (String.eqb _ _).
  - apply wp_bind, (wp_fill_ip_info store); [done|done|]. intros x r' s2 Hf Hs2. fold p2p in Hf.
    assert (x = 0 ∨ x = -1) as Hx
      by (unfold filled in Hf; repeat case_match; intuition lia).
    destruct Hx as [-> | ->]; (apply wp_ret; split; [exact Hf|congruence]).
  - apply wp_bind, wp_modify, wp_bind, wp_property_set. intros s2 Hs2 _. apply wp_ret.
    split_and!; [done|done|]. rewrite Hs2. f_equal. exact Hs1.
Qed.

(** A device whose properties are at rest. *)
Definition stored (store : string → string) : Env := {|
  kern _ c := match c with PropertyGet k => resp_str (store k) | _ => resp 0 end;
  strerror e := "errno " +:+ pretty e;
  inet_addr t := if String.eqb t "255.255.255.0" then 0x00ffffff else 0xffffffff;
  indet n := replicate n 170;
  PROPERTY_KEY_MAX := 32;
  PROPERTY_VALUE_MAX := 92
|}.
Definition lease_store (k : string) : string :=
  if String.eqb k "dhcp.wlan0.result" then "ok"
  else if String.eqb k "dhcp.wlan0.ipaddress" then "10.0.0.100"
  else if String.eqb k "dhcp.wlan0.gateway" then "0.0.0.0"
  else if String.eqb k "dhcp.wlan0.server" then "10.0.0.2"
  else if String.eqb k "dhcp.wlan0.mask" then "255.255.255.0"
  else if String.eqb k "dhcp.wlan0.dns1" then "8.8.8.8"
  else if String.eqb k "dhcp.wlan0.leasetime" then "3600"
  else if String.eqb k "net.hostname" then "phone"
  else if String.eqb k "init.svc.dhcpcd_wlan0" then "running" else "".
Definition no_results : results := mk_results "" "" 0 [""; ""] "" 0 "" "" "".

Lemma wlan0_ok : iface_ok "wlan0".
Proof. split; [repeat constructor; discriminate|unfold MAX_INTERFACE_LENGTH; cbn; lia]. Qed.

Lemma dhcp_get_results_correct_witness :
  ∃ r' s', @dhcp_get_results (stored lease_store) "wlan0" no_results initial_state = Val (0, r', s') ∧
    @filled (stored lease_store) lease_store "wlan0" no_results 0 r' ∧
    r' = mk_results "10.0.0.100" "10.0.0.2" 24 ["8.8.8.8"; ""] "10.0.0.2" 3600 "" "" "".
Proof.
  pose proof (@dhcp_get_results_correct (stored lease_store) lease_store "wlan0" no_results
    initial_state (λ _ _, eq_refl) wlan0_ok) as Hw. cbv zeta in Hw.
  assert (Hv : ∃ s'', @dhcp_get_results (stored lease_store) "wlan0" no_results initial_state =
    Val (0, mk_results "10.0.0.100" "10.0.0.2" 24 ["8.8.8.8"; ""] "10.0.0.2" 3600 "" "" "", s''))
    by (eexists; vm_compute; reflexivity).
  destruct Hv as (s'' & Hv). unfold wp in Hw. rewrite Hv in Hw. eexists _, s''.
  split; [exact Hv|]. split; [|reflexivity].
  assert (H1 : negb (@present (stored lease_store) lease_store
    (@dhcp_prop (stored lease_store) (p2p_of "wlan0") "result")) = false) by (vm_compute; reflexivity).
  assert (H2 : String.eqb (@value (stored lease_store) lease_store
    (@dhcp_prop (stored lease_store) (p2p_of "wlan0") "result")) "ok" = true) by (vm_compute; reflexivity).
  rewrite H1, H2 in Hw. exact (proj1 Hw).
Defined.

(** What dhcp_start does to the interface [p2p] of the properties: the calls it makes
    and its result. *)
Definition start_events `{Env} `{DhcpNames} (p2p interface host : string) (es : list event) (r : Z) (msg : string) : Prop :=
  let result := snprintf PROPERTY_KEY_MAX ("dhcp." +:+ p2p +:+ ".result") in
  let daemon := snprintf PROPERTY_KEY_MAX ("init.svc.dhcpcd_" +:+ p2p) in
  let command := snprintf (PROPERTY_VALUE_MAX * 2 + 31)
    ("dhcpcd_" +:+ p2p +:+ (if MTK_AUTOIP_SUPPORT then ":-f " else ":-A -f ") +:+
     "/system/etc/dhcpcd/dhcpcd.conf -h " +:+ host +:+ " " +:+ interface) in
  ∃ a b c w1 w2 (up finished : bool),
    es = [(PropertySet result "obtaining", a); (PropertyGet "net.hostname", b); (PropertySet "ctl.start" command, c)] ++ w1 ++ w2 ∧
    polls daemon (λ v, v = "running") 200 w1 up ∧
    if up then
      polls result (λ v, v ≠ "" ∧ v ≠ "obtaining") (if MTK_AUTOIP_SUPPORT then 800 else 600) w2 finished ∧
      if finished then r = 0 else r = -1 ∧ msg = "Timed out waiting for DHCP to finish"
    else w2 = [] ∧ r = -1 ∧ msg = "Timed out waiting for dhcpcd to start".

(** C33. Starting the daemon: on a device with a host name, and for an interface name
    of less than 25 characters, dhcp_start marks the result property "obtaining",
    asks init to start the interface's dhcpcd with its options and the host name,
    and polls the service's property every 50 ms for ten seconds until it is
    "running"; when it never is, it returns -1 with the message that the daemon did
    not start.  Then it polls the result property for 30 seconds (40 with automatic
    addresses) and returns 0 when it reads a value other than "obtaining", else -1
    with the message that DHCP did not finish.  It makes these calls and no others. *)
Theorem dhcp_start_correct `{Env} `{DhcpNames} interface host s :
  iface_ok interface → host ≠ "" →
  (∀ tr, got (kern tr (PropertyGet HOSTNAME_PROP_NAME)) = host) →
  wp (dhcp_start interface) (λ r s', ∃ es, trace s' = trace s ++ es ∧
    start_events (p2p_of interface) interface host es r (dhcp_errmsg s')) s.
Proof.
  intros Hok Hne Hh. set (p2p := p2p_of interface). unfold dhcp_start, p2p_name. apply wp_bind.
  eapply wp_lift; [by apply p2p_of_ok|]. fold p2p. cbv zeta.
  apply wp_bind, wp_property_set_trace. intros s1 a Hs1.
  apply wp_bind. unfold property_get. apply wp_bind, wp_call, wp_ret.
  change (snprintf _ (default _ _)) with (got (kern (trace s1) (PropertyGet HOSTNAME_PROP_NAME))). rewrite Hh.
  set (b := kern _ _). set (s2 := record_event _ _ s1).
  assert (negb (Z.of_nat (String.length host) =? 0) && negb (String.eqb host "") = true) as ->
    by (by destruct host).
  apply wp_bind, wp_ret, wp_bind, wp_property_set_trace. intros s3 c Hs3.
  assert (Ht3 : trace s3 = trace s ++ [(PropertySet (dhcp_prop p2p "result") "obtaining", a);
    (PropertyGet HOSTNAME_PROP_NAME, b); (PropertySet "ctl.start" (start_command p2p interface host), c)]).
  { rewrite Hs3. unfold s2. cbn [record_event trace set_errno set_trace]. by rewrite Hs1, <- !app_assoc. }
  apply wp_bind, (wp_polls _ _ (λ v, v = "running")); [done|intros g; by apply satisfies_value|].
  intros s4 w1 up Ht4 Hw1. destruct up; cbn [Z.ltb Z.compare].
  2: { apply wp_bind, wp_modify, wp_ret. eexists. split; [cbn [trace set_dhcp_errmsg]; by rewrite Ht4, Ht3, <- app_assoc|].
       exists a, b, c, w1, [], false, false. rewrite app_nil_r. done. }
  apply wp_bind, (wp_polls _ _ (λ v, v ≠ "" ∧ v ≠ "obtaining")); [by destruct MTK_AUTOIP_SUPPORT|apply satisfies_any|].
  intros s5 w2 fin Ht5 Hw2. assert (Hn : maxnaps ((if MTK_AUTOIP_SUPPORT then 40 else 30) * 1000) =
    if MTK_AUTOIP_SUPPORT then 800%nat else 600%nat) by (by destruct MTK_AUTOIP_SUPPORT). rewrite Hn in Hw2.
  assert (Ht : trace s5 = trace s ++ ([(PropertySet (dhcp_prop p2p "result") "obtaining", a);
    (PropertyGet HOSTNAME_PROP_NAME, b); (PropertySet "ctl.start" (start_command p2p interface host), c)] ++ w1 ++ w2))
    by (by rewrite Ht5, Ht4, Ht3, <- !app_assoc).
  destruct fin; cbn [Z.ltb Z.compare].
  - apply wp_ret. eexists. split; [exact Ht|]. exists a, b, c, w1, w2, true, true. done.
  - apply wp_bind, wp_modify, wp_ret. eexists. split; [exact Ht|]. exists a, b, c, w1, w2, true, false. done.
Qed.

#[local] Instance sample_names : DhcpNames := {|
  DHCPv6_PROP_NAME_PREFIX := "dhcp.ipv6"; DHCPv6_DAEMON_NAME := "dhcp6c";
  DHCPv6_DAEMON_PROP_NAME := "init.svc.dhcp6c"; DHCPv6DNS_DAEMON_NAME := "dhcp6cDNS";
  DHCPv6DNS_DAEMON_PROP_NAME := "init.svc.dhcp6cDNS"; DAEMON_NAME_INFORM := "dhcpInform";
  DAEMON_NAME_INFORMV6 := "dhcpInformv6"; PD_PROP_NAME_PREFIX := "dhcp.pd";
  PD_DAEMON_NAME := "dhcp6c_PD"; PD_DAEMON_PROP_NAME := "init.svc.dhcp6c_PD";
  DHCP6C_PIDFILE := "/data/misc/wide-dhcpv6/dhcp6c.pid";
  ERRMSGV6_SIZE := 100; ERRMSGPD_SIZE := 100; MTK_AUTOIP_SUPPORT := false
|}.

Lemma dhcp_start_correct_witness :
  let E := stored lease_store in
  wp (@dhcp_start E sample_names "wlan0") (λ r s', ∃ es, trace s' = trace initial_state ++ es ∧
    @start_events E sample_names "wlan0" "wlan0" "phone" es r (dhcp_errmsg s')) initial_state.
Proof.
  intros E. apply (@dhcp_start_correct E sample_names "wlan0" "phone" initial_state);
    [apply wlan0_ok|discriminate|intros tr; vm_compute; reflexivity].
Defined.

(** Without a host name the command is never written: dhcp_start passes an
    uninitialised buffer to the log and to init. *)
Theorem dhcp_start_without_hostname `{Env} `{DhcpNames} interface s :
  (∀ tr, got (kern tr (PropertyGet HOSTNAME_PROP_NAME)) = "") → dhcp_start interface s = UB.
Proof.
  intros Hh. unfold dhcp_start, p2p_name, lift, mbind, M_bind.
  destruct (c_string _); [|done]. unfold property_set, call_, property_get, call, mbind, M_bind, mret, M_ret.
  change (snprintf _ (default "" (head (strs ?r)))) with (got r). rewrite Hh. done.
Qed.

Lemma dhcp_start_without_hostname_witness :
  @dhcp_start (stored (λ _, "")) sample_names "wlan0" initial_state = UB.
Proof. apply (@dhcp_start_without_hostname (stored (λ _, "")) sample_names). done. Defined.

(** Stopping the daemon: the first call of dhcp_stop already asks init to stop
    the interface's dhcpcd (the wait for a daemon that is still starting is
    guarded by a value that is never read); then it polls the daemon's status,
    a nap after each unsatisfactory read, and either a read finds "stopped", the
    result property is set to "failed" and the call returns 0, or after 100 naps
    one more read does not, nothing is set and it returns -1. *)
Theorem dhcp_stop_correct `{Env} interface s :
  iface_ok interface →
  let p2p := p2p_of interface in
  wp (dhcp_stop interface) (λ r s', ∃ x bad g rest,
    trace s' = trace s ++ (PropertySet "ctl.stop" (stop_command p2p), x) ::
      naps_of (daemon_prop p2p) bad ++ (PropertyGet (daemon_prop p2p), g) :: rest ∧
    Forall (λ gu, satisfies (Some "stopped") gu.1 = false) bad ∧
    if satisfies (Some "stopped") g
    then r = 0 ∧ ∃ y, rest = [(PropertySet (dhcp_prop p2p "result") "failed", y)]
    else r = -1 ∧ rest = [] ∧ length bad = 100%nat) s.
Proof.
  intros Hok p2p. unfold dhcp_stop, p2p_name. apply wp_bind.
  eapply wp_lift; [by apply p2p_of_ok|]. fold p2p. cbv zeta. apply wp_bind. apply wp_ret.
  apply wp_bind. unfold property_set at 1, call_. apply wp_bind, wp_call, wp_ret. set (x := kern _ _).
  apply wp_bind, wp_wait_for; [done|]. eapply wp_mono; [|apply wp_wait_loop].
  intros r s2 (bad & g & Ht & Hb & _ & [[-> Hg]|(-> & Hg & Hlen)]); cbn [Z.ltb Z.compare];
    cbn [record_event trace set_errno set_trace] in Ht.
  - wp_steps. exists x, bad, g. eexists. rewrite Hg.
    cbn [record_event trace set_errno set_trace]. rewrite Ht, <- !app_assoc. split_and!; [done..|].
    by eexists.
  - apply wp_ret. exists x, bad, g, []. rewrite Hg, Ht, <- app_assoc. done.
Qed.

Lemma dhcp_stop_correct_witness :
  let E := stored lease_store in
  wp (@dhcp_stop E "wlan0") (λ r s', ∃ x bad g rest,
    trace s' = trace initial_state ++ (PropertySet "ctl.stop" (@stop_command E "wlan0"), x) ::
      naps_of (@daemon_prop E "wlan0") bad ++ (PropertyGet (@daemon_prop E "wlan0"), g) :: rest ∧
    Forall (λ gu, @satisfies E (Some "stopped") gu.1 = false) bad ∧
    if @satisfies E (Some "stopped") g
    then r = 0 ∧ ∃ y, rest = [(PropertySet (@dhcp_prop E "wlan0" "result") "failed", y)]
    else r = -1 ∧ rest = [] ∧ length bad = 100%nat) initial_state.
Proof. intros E. apply (@dhcp_stop_correct E "wlan0" initial_state), wlan0_ok. Defined.
End DhcpUtils.
