(* ===== verification/Dhcp6Utils.v ===== *)
(** * Managing the DHCPv6 daemons (src/system/core/libnetutils/dhcp_utils.c, IPv6)

    Stateful and stateless DHCPv6, selected by the flags of the router
    advertisement in [ra_flag], SIP parameters, and prefix delegation. *)
From S2P Require Import Prelude Runtime DhcpUtils.
Import DhcpUtils.

Module Dhcp6Utils.

(** enum GET_RA_RET *)
Definition ERR : Z := 0.
Definition O_SET : Z := 1.
Definition M_SET : Z := 2.
Definition DEF_VAL : Z := 4.
Definition O_RDONLY : Z := 0.
Definition O_WRONLY : Z := 1.
Definition SIGUSR1 : Z := 10.

Record results6 := mk_results6 {
  r6_ipaddr : string; r6_dns1 : string; r6_dns2 : string; r6_lease : Z
}.

Section Operations.
Context `{Env} `{DhcpNames}.

Definition ra_info_flag (iface : string) : string :=
  snprintf 64 ("/proc/sys/net/ipv6/conf/" +:+ iface +:+ "/ra_info_flag").

(** One try per second; [ch] keeps the byte last read and has no initial
    value. *)
Fixpoint getMbit_loop (filename : string) (ch : option Z) (maxwait : nat) : M Z :=
  match maxwait with
  | O => mret ERR
  | S maxwait' =>
      call_ (Usleep 1000000) ;;
      fd ← call_ret (Open filename O_RDONLY);
      if fd <? 0 then getMbit_loop filename ch maxwait' else
      r ← call (Read fd 1);
      call_ (Close fd) ;;
      if ret r <? 0 then getMbit_loop filename ch maxwait' else
      let ch := match out r with c :: _ => if ret r =? 0 then ch else Some c | [] => ch end in
      match ch with
      | None => undefined
      | Some c =>
          if c =? 50 then mret M_SET
          else if c =? 49 then mret O_SET
          else if c =? 52 then mret DEF_VAL
          else getMbit_loop filename (Some c) maxwait'
      end
  end.

Definition getMbitFromRA (iface : string) (maxwait : Z) : M Z :=
  getMbit_loop (ra_info_flag iface) None (Z.to_nat (if maxwait <? 1 then 1 else maxwait)).

Definition dhcp6_prop (interface suffix : string) : string :=
  prop_key (DHCPv6_PROP_NAME_PREFIX +:+ "." +:+ interface +:+ "." +:+ suffix).
Definition set_err6 (text : string) : M unit := modify (set_errmsgv6 (snprintf ERRMSGV6_SIZE text)).

(** The lease of an interface: without a lease time, a very long one. *)
Definition read_lease (interface : string) : M Z :=
  '(n, v) ← property_get (dhcp6_prop interface "leasetime");
  mret (if n =? 0 then 0x7fffffff - 1 else u32 (atol v)).

Definition fill_ip6_info (interface : string) : M results6 :=
  '(_, ipaddr) ← property_get (dhcp6_prop interface "ipaddress");
  '(_, dns1) ← property_get (dhcp6_prop interface "dns1");
  '(_, dns2) ← property_get (dhcp6_prop interface "dns2");
  lease ← read_lease interface;
  mret (mk_results6 ipaddr dns1 dns2 lease).

Definition clear_ip6_info (interface : string) : M unit :=
  property_set (dhcp6_prop interface "ipaddress") "" ;;
  property_set (dhcp6_prop interface "dns1") "" ;;
  property_set (dhcp6_prop interface "dns2") "" ;;
  property_set (dhcp6_prop interface "leasetime") "".

Definition clear_RAflag (interface : string) : M Z :=
  fd ← call_ret (Open (ra_info_flag interface) O_WRONLY);
  if fd <? 0 then mret (-1) else
  n ← call_ret (Write fd "0");
  if negb (n =? 1) then call_ (Close fd) ;; mret (-1) else
  call_ (Close fd) ;; mret 0.

(** The service for the flags of the router: its status property and name. *)
Definition daemon6 (flag : Z) (interface : string) : option (string * string) :=
  if flag =? M_SET then
    Some (prop_key (DHCPv6_DAEMON_PROP_NAME +:+ "_" +:+ interface),
          snprintf (PROPERTY_VALUE_MAX * 2) (DHCPv6_DAEMON_NAME +:+ "_" +:+ interface))
  else if flag =? O_SET then
    Some (prop_key (DHCPv6DNS_DAEMON_PROP_NAME +:+ "_" +:+ interface),
          snprintf (PROPERTY_VALUE_MAX * 2) (DHCPv6DNS_DAEMON_NAME +:+ "_" +:+ interface))
  else None.

(** Reads the pid file into a uint32_t; the result and the pid. *)
Definition read_pid6 (old : Z) : M (Z * Z) :=
  f ← call (Fopen DHCP6C_PIDFILE "r");
  if ret f =? 0 then mret (-1, old) else
  r ← call (Fscanf "%d");
  let pid := if ret r =? 1 then match out r with p :: _ => u32 p | [] => old end else 0 in
  call_ Fclose ;;
  if pid <=? 0 then mret (-1, pid) else mret (0, pid).

(** dhcpv6_start once the flags are known: the result and *pid_ptr. *)
Definition start_daemon6 (interface : string) (flag pid : Z) : M (Z * Z) :=
  match daemon6 flag interface with
  | None => mret (-1, pid)
  | Some (daemon_prop_name, daemon_cmd) =>
      property_set "ctl.start" daemon_cmd ;;
      r ← wait_for_property daemon_prop_name (Some "running") 10;
      if r <? 0 then set_err6 "Timed out waiting for dhcp6c to start" ;; mret (-1, pid) else
      r ← wait_for_property (dhcp6_prop interface "result") None 30;
      if r <? 0 then set_err6 "Timed out waiting for DHCPv6 to finish" ;; mret (-1, pid) else
      read_pid6 pid
  end.

Definition dhcpv6_start (interface : string) (pid : Z) : M (Z * Z) :=
  clear_ip6_info interface ;;
  property_set (dhcp6_prop interface "result") "" ;;
  flag ← getMbitFromRA "wlan0" 10;
  modify (set_ra_flag flag) ;;
  start_daemon6 interface flag pid.

Definition dhcpv6_stop (interface : string) : M Z :=
  let result_prop_name := dhcp6_prop interface "result" in
  flag ← get_state ra_flag;
  match daemon6 flag interface with
  | None => mret 0
  | Some (daemon_prop_name, daemon_cmd) =>
      property_set "ctl.stop" daemon_cmd ;;
      r ← wait_for_property daemon_prop_name (Some "stopped") 5;
      if r <? 0 then mret (-1) else
      _ ← property_get daemon_prop_name;
      property_set result_prop_name "released" ;;
      clear_ip6_info interface ;;
      _ ← clear_RAflag "wlan0";
      mret 0
  end.

Definition dhcpv6_get_errmsg : M string := get_state errmsgv6.
Definition PD_get_errmsg : M string := get_state errmsgPD.

(** ** SIP parameters *)
Definition dhcpv6_do_sip_request (iface : string) : M Z :=
  let result_prop_name := dhcp6_prop iface "v6sipinfo" in
  property_set result_prop_name "" ;;
  property_set "ctl.start" (snprintf (PROPERTY_VALUE_MAX * 2) (DAEMON_NAME_INFORMV6 +:+ ":" +:+ iface)) ;;
  r ← wait_for_property result_prop_name None 30;
  if r <? 0 then set_err6 "Timed out waiting for DHCPv6 inform to finish" ;; mret (-1) else
  '(n, prop_value) ← property_get result_prop_name;
  if n =? 0 then set_err6 "DHCPv6 Inform result property was not set" ;; mret (-1)
  else if String.eqb prop_value "success" then mret 0
  else set_err6 ("DHCPv6 Inform result was " +:+ prop_value) ;; mret (-1).

Definition dhcpv6_stop_sip_request (iface : option string) : M Z :=
  match iface with
  | None => set_err6 "interface is NULL." ;; mret (-1)
  | Some iface =>
      let result_prop_name := dhcp6_prop iface "v6sipinfo" in
      property_set "ctl.stop" (snprintf (PROPERTY_VALUE_MAX * 2) DAEMON_NAME_INFORMV6) ;;
      r ← wait_for_property (prop_key ("init.svc." +:+ DAEMON_NAME_INFORMV6)) (Some "stopped") 5;
      if r <? 0 then mret (-1) else
      property_set result_prop_name "failed" ;; mret 0
  end.

Definition dhcpv6_start_renew (interface : string) (pid : Z) : M Z :=
  let result_prop_name := dhcp6_prop interface "renewresult" in
  call_ (Kill pid SIGUSR1) ;;
  r ← wait_for_property result_prop_name None 30;
  if r <? 0 then
    _ ← property_get result_prop_name;
    set_err6 "Timed out waiting for DHCPv6 renew to finish" ;; mret (-1)
  else mret 0.

Definition dhcpv6_get_results (interface : string) (isrenew : bool) (r : results6) : M (Z * results6) :=
  let result_prop_name := dhcp6_prop interface (if isrenew then "renewresult" else "result") in
  '(n, prop_value) ← property_get result_prop_name;
  if n =? 0 then set_err6 "DHCPv6 result property was not set" ;; mret (-1, r)
  else if String.eqb prop_value "ok" then
    (if isrenew then property_set result_prop_name "" else mret tt) ;;
    r ← fill_ip6_info interface;
    mret (0, r)
  else set_err6 ("DHCPv6 result was " +:+ prop_value) ;; mret (-1, r).

(** ** Prefix delegation *)
Definition set_errPD (text : string) : M unit := modify (set_errmsgPD (snprintf ERRMSGPD_SIZE text)).
Definition pd_prop (interface suffix : string) : string :=
  prop_key ("net.pd." +:+ interface +:+ "." +:+ suffix).
Definition pd_result (interface suffix : string) : string :=
  prop_key (PD_PROP_NAME_PREFIX +:+ "." +:+ interface +:+ "." +:+ suffix).

(** The result, the prefix buffer and the lease. *)
Definition fill_PD_info (interface : string) (lease : Z) : M (Z * string * Z) :=
  '(_, prefix) ← property_get (pd_prop interface "prefix");
  if String.eqb prefix "" then mret (-1, prefix, lease) else
  lease ← read_lease interface;
  mret (0, prefix, lease).

Definition clear_pd_info (interface : string) : M unit :=
  '(n, prefix) ← property_get (pd_prop interface "prefix");
  (if 0 <? n then property_set "net.pd.lastprefix" prefix else mret tt) ;;
  property_set (pd_prop interface "prefix") "" ;;
  '(n, plen) ← property_get (pd_prop interface "plen");
  (if 0 <? n then property_set "net.pd.lastplen" plen else mret tt) ;;
  property_set (pd_prop interface "plen") "".

(** The code after the unconditional [return -1] is unreachable. *)
Definition dhcpv6_PD_request (interface : option string) : M Z :=
  match interface with
  | None => set_errPD "PD interface is NULL" ;; mret (-1)
  | Some interface =>
      clear_pd_info interface ;;
      property_set (pd_result interface "result") "" ;;
      set_errPD "Got stop_pd command when start PD request." ;;
      mret (-1)
  end.

Definition dhcpv6_PD_renew (interface : string) (prefix : string) (lease : Z) : M (Z * string * Z) :=
  let result_prop_name := pd_result interface "renewresult" in
  r ← call_ret (System "dhcp6ctl renew");
  if r <? 0 then
    set_errPD ("execute renew command, got error return code::" +:+ pretty r +:+ newline) ;;
    mret (-1, prefix, lease)
  else
  r ← wait_for_property_usedByPD result_prop_name None 30;
  if r <? 0 then set_errPD "Timed out waiting for PD renew to finish" ;; mret (-1, prefix, lease) else
  '(n, prop_value) ← property_get result_prop_name;
  if n =? 0 then set_errPD "PD renew result property was not set" ;; mret (-1, prefix, lease)
  else if String.eqb prop_value "ok" then
    property_set result_prop_name "" ;;
    '(_, prefix, lease) ← fill_PD_info interface lease;
    mret (0, prefix, lease)
  else set_errPD ("PD renew result was " +:+ prop_value) ;; mret (-1, prefix, lease).

Definition dhcpv6_PD_stop (interface : option string) : M Z :=
  match interface with
  | None => set_errPD "PD interface is NULL" ;; mret (-1)
  | Some interface =>
      property_set "ctl.stop" PD_DAEMON_NAME ;;
      r ← wait_for_property PD_DAEMON_PROP_NAME (Some "stopped") 5;
      if r <? 0 then set_errPD "Timed out waiting for dhcpv6PD to stop" ;; mret (-1) else
      property_set (pd_result interface "result") "released" ;;
      clear_pd_info interface ;; mret 0
  end.
End Operations.

(** ** Lemmas *)
Section Lemmas.
Context `{Env} `{DhcpNames}.

Lemma preserves_wait {X} (f : gstate → X) name d maxwait :
  (∀ c r s, prop_of (c, r) = None → f (record_event c r s) = f s) →
  preserves f (wait_for_property name d maxwait).
Proof.
  intros Hf. apply preserves_bind; [apply preserves_lift|intros msecs; by apply wait_loop_frame].
Qed.

Lemma getMbit_frame {X} (f : gstate → X) filename : ∀ n ch,
  (∀ c r s, prop_of (c, r) = None → f (record_event c r s) = f s) →
  preserves f (getMbit_loop filename ch n).
Proof.
  induction n as [|n IH]; intros ch Hf; cbn [getMbit_loop]; [apply preserves_ret|].
  unfold call_, call_ret.
  repeat first [by apply IH | apply preserves_bind; [|intros ?] | apply preserves_ret
               | apply preserves_call; intros; by apply Hf
               | match goal with |- preserves _ (if ?b then _ else _) => destruct b end
               | match goal with |- preserves _ (match ?x with Some _ => _ | None => _ end) => destruct x end
               | by intros ? ].
Qed.

(** Properties set by the two helpers. *)
Definition cleared6 (interface : string) : list (string * string) :=
  (λ k, (dhcp6_prop interface k, "")) <$> ["ipaddress"; "dns1"; "dns2"; "leasetime"].

Lemma wp_clear_ip6 interface (Q : unit → gstate → Prop) s :
  (∀ s', prop_sets s' = prop_sets s ++ cleared6 interface → ra_flag s' = ra_flag s → Q tt s') →
  wp (clear_ip6_info interface) Q s.
Proof.
  intros HQ. unfold clear_ip6_info, property_set, call_. wp_steps. apply HQ; [|done].
  rewrite !prop_sets_record. cbn [omap list_omap prop_of]. by rewrite <- !app_assoc.
Qed.

Lemma wp_wait6 name d maxwait (Q : Z → gstate → Prop) s :
  seconds_ok maxwait →
  (∀ r s', prop_sets s' = prop_sets s → ra_flag s' = ra_flag s → r = 0 ∨ r = -1 → Q r s') →
  wp (wait_for_property name d maxwait) Q s.
Proof.
  intros Hm HQ. apply wp_wait_for; [done|].
  pose proof (wp_wait_loop name d (maxnaps (maxwait * 1000)) s) as Hw.
  apply wp_run in Hw as (r & s' & Hr & bad & g & _ & _ & _ & Hcase).
  apply wp_run. exists r, s'. split; [exact Hr|]. apply HQ.
  - by apply (wait_loop_frame prop_sets _ _ _ prop_sets_frame _ _ _ Hr).
  - by apply (wait_loop_frame ra_flag _ _ _ (λ _ _ _ _, eq_refl) _ _ _ Hr).
  - destruct Hcase as [[-> _]|(-> & _)]; [by left|by right].
Qed.

(** What a start leaves behind: the cleared properties, and the daemon of the
    router's flags asked for, if there is one. *)
Definition start_props (interface : string) (flag : Z) : list (string * string) :=
  cleared6 interface ++ [(dhcp6_prop interface "result", "")] ++
  match daemon6 flag interface with Some (_, cmd) => [("ctl.start", cmd)] | None => [] end.

Lemma wp_read_pid6 old (Q : Z * Z → gstate → Prop) s :
  (∀ x s', prop_sets s' = prop_sets s → ra_flag s' = ra_flag s → x.1 = 0 ∨ x.1 = -1 → Q x s') →
  wp (read_pid6 old) Q s.
Proof.
  intros HQ. unfold read_pid6, call_. wp_steps; apply HQ; try (by left); try (by right); try done;
    rewrite !prop_sets_record; cbn [omap list_omap prop_of]; by rewrite !app_nil_r.
Qed.

Lemma wp_start_daemon6 interface flag pid (Q : Z * Z → gstate → Prop) s :
  (∀ x s', prop_sets s' = prop_sets s ++
       match daemon6 flag interface with Some (_, cmd) => [("ctl.start", cmd)] | None => [] end →
     ra_flag s' = ra_flag s → x.1 = 0 ∧ daemon6 flag interface ≠ None ∨ x.1 = -1 → Q x s') →
  wp (start_daemon6 interface flag pid) Q s.
Proof.
  intros HQ. unfold start_daemon6. destruct (daemon6 flag interface) as [[prop cmd]|].
  2: { apply wp_ret, HQ; [by rewrite app_nil_r|done|by right]. }
  apply wp_bind. unfold property_set, call_. apply wp_bind, wp_call, wp_ret.
  set (s1 := record_event _ _ _). assert (Hp1 : prop_sets s1 = prop_sets s ++ [("ctl.start", cmd)])
    by (unfold s1; by props).
  apply wp_bind, wp_wait6; [done|]. intros r s2 Hp2 Hf2 [-> | ->]; cbn [Z.ltb Z.compare];
    [|apply wp_bind, wp_modify, wp_ret, HQ; [exact (eq_trans Hp2 Hp1)|exact Hf2|by right]].
  apply wp_bind, wp_wait6; [done|]. intros r s3 Hp3 Hf3 [-> | ->]; cbn [Z.ltb Z.compare];
    [|apply wp_bind, wp_modify, wp_ret, HQ;
      [exact (eq_trans Hp3 (eq_trans Hp2 Hp1))|exact (eq_trans Hf3 Hf2)|by right]].
  apply wp_read_pid6. intros x s4 Hp4 Hf4 Hx. apply HQ; [congruence| |by destruct Hx; auto].
  rewrite Hf4, Hf3, Hf2. done.
Qed.

Lemma start_run interface pid s x s' :
  dhcpv6_start interface pid s = Val (x, s') →
  prop_sets s' = prop_sets s ++ start_props interface (ra_flag s') ∧
  (x.1 = 0 ∧ daemon6 (ra_flag s') interface ≠ None ∨ x.1 = -1).
Proof.
  intros Hr. unfold dhcpv6_start in Hr. apply bind_run in Hr as ([] & s1 & H1 & Hr).
  assert (Hc : wp (clear_ip6_info interface) (λ _ s2, prop_sets s2 = prop_sets s ++ cleared6 interface) s)
    by (apply wp_clear_ip6; auto).
  unfold wp in Hc. rewrite H1 in Hc. apply bind_run in Hr as ([] & s2 & H2 & Hr).
  assert (Hw : wp (property_set (dhcp6_prop interface "result") "") (λ _ s3, prop_sets s3 =
    prop_sets s1 ++ [(dhcp6_prop interface "result", "")]) s1) by (apply wp_property_set; auto).
  unfold wp in Hw. rewrite H2 in Hw. apply bind_run in Hr as (flag & s3 & H3 & Hr).
  apply (getMbit_frame prop_sets) in H3; [|apply prop_sets_frame].
  apply bind_run in Hr as ([] & s4 & H4 & Hr).
  assert (s4 = set_ra_flag flag s3) as -> by (unfold modify in H4; congruence).
  assert (Hd : wp (start_daemon6 interface flag pid) (λ y sy, prop_sets sy = prop_sets s3 ++
      match daemon6 flag interface with Some (_, cmd) => [("ctl.start", cmd)] | None => [] end ∧
      ra_flag sy = flag ∧ (y.1 = 0 ∧ daemon6 flag interface ≠ None ∨ y.1 = -1)) (set_ra_flag flag s3))
    by (apply wp_start_daemon6; auto).
  unfold wp in Hd. rewrite Hr in Hd. destruct Hd as (Hp & -> & Hx). split; [|done].
  unfold start_props. rewrite Hp, H3, Hw, Hc, <- !app_assoc. done.
Qed.

Lemma wp_clear_RAflag interface (Q : Z → gstate → Prop) s :
  (∀ r es s', trace s' = trace s ++ es → prop_sets s' = prop_sets s → Q r s') → wp (clear_RAflag interface) Q s.
Proof.
  intros HQ. unfold clear_RAflag, call_. wp_steps; (eapply HQ; [cbn [record_event trace set_errno set_trace]; by rewrite <- ?app_assoc|]);
    rewrite !prop_sets_record; cbn [omap list_omap prop_of]; by rewrite ?app_nil_r.
Qed.

(** What a stop of the service [cmd] with the status property [prop] does: it asks init
    to stop it, waits for five seconds for "stopped", and cleans up when it was seen. *)
Definition stop_events (interface prop cmd : string) (r : Z) (s s' : gstate) : Prop :=
  ∃ a w rest (ok : bool), trace s' = trace s ++ [(PropertySet "ctl.stop" cmd, a)] ++ w ++ rest ∧
    polls prop (λ v, v = "stopped") 100 w ok ∧
    if ok then r = 0 ∧ prop_sets s' = prop_sets s ++ [("ctl.stop", cmd); (dhcp6_prop interface "result", "released")] ++ cleared6 interface
    else r = -1 ∧ rest = [] ∧ prop_sets s' = prop_sets s ++ [("ctl.stop", cmd)].

Lemma polls_no_sets name P n w ok : polls name P n w ok → omap prop_of w = [].
Proof.
  intros (bad & g & -> & _). rewrite omap_app. cbn [omap list_omap prop_of]. rewrite app_nil_r.
  induction bad as [|gu bad IH]; [done|]. cbn. exact IH.
Qed.
Lemma prop_sets_trace s s' es : trace s' = trace s ++ es → prop_sets s' = prop_sets s ++ omap prop_of es.
Proof. intros Ht. unfold prop_sets. by rewrite Ht, omap_app. Qed.
Lemma clear_ip6_trace interface (Q : unit → gstate → Prop) s :
  (∀ s' es, trace s' = trace s ++ es → prop_sets s' = prop_sets s ++ cleared6 interface → Q tt s') →
  wp (clear_ip6_info interface) Q s.
Proof.
  intros HQ. unfold clear_ip6_info, property_set, call_. wp_steps.
  eapply HQ; [cbn [record_event trace set_errno set_trace]; by rewrite <- !app_assoc|].
  rewrite !prop_sets_record. cbn [omap list_omap prop_of]. by rewrite <- !app_assoc.
Qed.

Lemma wp_dhcpv6_stop interface (Q : Z → gstate → Prop) s :
  (∀ r s', match daemon6 (ra_flag s) interface with
           | None => r = 0 ∧ trace s' = trace s
           | Some (prop, cmd) => stop_events interface prop cmd r s s'
           end → Q r s') →
  wp (dhcpv6_stop interface) Q s.
Proof.
  intros HQ. unfold dhcpv6_stop. cbv zeta. apply wp_bind, wp_get.
  destruct (daemon6 (ra_flag s) interface) as [[prop cmd]|]; [|by apply wp_ret, HQ].
  apply wp_bind, wp_property_set_trace. intros s1 a Ht1. apply wp_bind, (wp_polls _ _ (λ v, v = "stopped")); [done|intros g; by apply satisfies_value|].
  intros s2 w ok Ht2 Hw. assert (Ht : trace s2 = trace s ++ [(PropertySet "ctl.stop" cmd, a)] ++ w) by (by rewrite Ht2, Ht1, <- app_assoc).
  assert (Hp2 : prop_sets s2 = prop_sets s ++ [("ctl.stop", cmd)]).
  { apply prop_sets_trace in Ht. rewrite Ht, omap_app, (polls_no_sets _ _ _ _ _ Hw). done. }
  destruct ok; cbn [Z.ltb Z.compare].
  2: { apply wp_ret, HQ. exists a, w, [], false. rewrite app_nil_r. done. }
  apply wp_bind. unfold property_get. apply wp_bind, wp_call, wp_ret. set (s3 := record_event _ _ _).
  assert (Hp3 : prop_sets s3 = prop_sets s2) by (unfold s3; by props).
  apply wp_bind. unfold property_set, call_. apply wp_bind, wp_call, wp_ret. set (s4 := record_event _ _ s3).
  assert (Hp4 : prop_sets s4 = prop_sets s3 ++ [(dhcp6_prop interface "result", "released")]) by (unfold s4; by props).
  apply wp_bind, clear_ip6_trace. intros s5 e5 Ht5 Hp5.
  apply wp_bind, wp_clear_RAflag. intros r6 e6 s6 Ht6 Hp6. apply wp_ret, HQ.
  eexists a, w, _, true. split_and!; [|done|done|by rewrite Hp6, Hp5, Hp4, Hp3, Hp2, <- !app_assoc].
  rewrite Ht6, Ht5. unfold s4, s3. cbn [record_event trace set_errno set_trace]. rewrite Ht, <- !app_assoc. reflexivity.
Qed.
End Lemmas.

(** ** The router's flags: lemmas *)
Section Flags.
Context `{Env}.

(** Reads that deliver a byte whenever they do not fail. *)
Definition reads_a_byte : Prop :=
  ∀ tr fd, let r := kern tr (Read fd 1) in ret r < 0 ∨ ret r = 1 ∧ ∃ c, out r = [c].

Definition is_flag (z : Z) : Prop := z = ERR ∨ z = O_SET ∨ z = M_SET ∨ z = DEF_VAL.

(** The tries of a run: the naps of a second. *)
Definition seconds (s : gstate) : nat :=
  length (List.filter (λ ev : event, match ev.1 with Usleep t => t =? 1000000 | _ => false end) (trace s)).

Lemma seconds_record c r s :
  seconds (record_event c r s) = (seconds s + match c with Usleep t => if (t =? 1000000)%Z then 1 else 0 | _ => 0 end)%nat.
Proof.
  unfold seconds, record_event. cbn [trace set_errno set_trace].
  rewrite List.filter_app, length_app. f_equal. cbn. destruct c; try done. by destruct (_ =? _).
Qed.

Lemma wp_getMbit filename : ∀ n ch s,
  reads_a_byte →
  wp (getMbit_loop filename ch n) (λ z s', is_flag z ∧ (seconds s' ≤ seconds s + n)%nat ∧
    (z = ERR → seconds s' = seconds s + n)%nat) s.
Proof.
  induction n as [|n IH]; intros ch s Hrd; cbn [getMbit_loop].
  { apply wp_ret. split_and!; [by left|lia|lia]. }
  assert (Hnext : ∀ ch' s1, (seconds s1 = seconds s + 1)%nat →
    wp (getMbit_loop filename ch' n) (λ z s', is_flag z ∧ (seconds s' ≤ seconds s + S n)%nat ∧
      (z = ERR → seconds s' = seconds s + S n)%nat) s1).
  { intros ch' s1 H1. eapply wp_mono; [|by apply IH]. intros z s' (Hz & Hle & He).
    split_and!; [done|lia|]. intros ->. specialize (He eq_refl). lia. }
  apply wp_bind. unfold call_. apply wp_bind, wp_call, wp_ret, wp_bind. unfold call_ret.
  apply wp_bind, wp_call, wp_ret. set (s2 := record_event (Open _ _) _ _).
  assert (H2 : seconds s2 = (seconds s + 1)%nat) by (unfold s2; rewrite !seconds_record; cbn; lia).
  clearbody s2. set (fd := ret _). destruct (fd <? 0); [by apply Hnext|].
  apply wp_bind, wp_call. specialize (Hrd (trace s2) fd). set (r := kern _ (Read fd 1)) in *. cbn zeta in Hrd.
  apply wp_bind, wp_bind, wp_call, wp_ret. set (s3 := record_event (Close _) _ _).
  assert (H3 : seconds s3 = (seconds s + 1)%nat) by (unfold s3; rewrite !seconds_record; lia).
  clearbody s3. destruct Hrd as [Hneg|(Hone & c & Hout)].
  { rewrite (proj2 (Z.ltb_lt _ _)) by done. by apply Hnext. }
  rewrite Hone, Hout. cbn [Z.ltb Z.compare Z.eqb].
  destruct (c =? 50); [|destruct (c =? 49); [|destruct (c =? 52); [|by apply Hnext]]];
    apply wp_ret; unfold is_flag, ERR, O_SET, M_SET, DEF_VAL; (split_and!; [auto|lia|lia]).
Qed.
End Flags.

(** ** Properties *)

(** The service for what the router advertised, its status property and its name: 2 is
    the managed flag, 1 the other one. *)
Definition service6 `{Env} `{DhcpNames} (flag : Z) (interface : string) : option (string * string) :=
  match flag with
  | 2 => Some (snprintf PROPERTY_KEY_MAX (DHCPv6_DAEMON_PROP_NAME +:+ "_" +:+ interface),
               snprintf (PROPERTY_VALUE_MAX * 2) (DHCPv6_DAEMON_NAME +:+ "_" +:+ interface))
  | 1 => Some (snprintf PROPERTY_KEY_MAX (DHCPv6DNS_DAEMON_PROP_NAME +:+ "_" +:+ interface),
               snprintf (PROPERTY_VALUE_MAX * 2) (DHCPv6DNS_DAEMON_NAME +:+ "_" +:+ interface))
  | _ => None
  end.
Lemma daemon6_service `{Env} `{DhcpNames} flag interface : daemon6 flag interface = service6 flag interface.
Proof.
  unfold daemon6, M_SET, O_SET. destruct (Z.eqb_spec flag 2) as [->|H2]; [done|].
  destruct (Z.eqb_spec flag 1) as [->|H1]; [done|]. by destruct flag as [|[[]|[]|]|].
Qed.

(** C37. A stop undoes the start before it, for every start that ran without undefined
    behaviour: dhcpv6_start clears the interface's properties and result and then
    asks init for the service of the flag it stored (the stateful client for 2, the
    stateless one for 1), or for none and returns -1.  The dhcpv6_stop that follows
    returns 0 and does nothing when none was asked for; else it asks init to stop
    that same service, waits five seconds for its property to be "stopped", and,
    when it was seen, marks the result "released", clears the properties and
    returns 0, and otherwise leaves them alone and returns -1. *)
Theorem dhcpv6_start_stop_paired `{Env} `{DhcpNames} interface pid s x s1 :
  dhcpv6_start interface pid s = Val (x, s1) →
  let service := service6 (ra_flag s1) interface in
  let erased := (λ k, (snprintf PROPERTY_KEY_MAX (DHCPv6_PROP_NAME_PREFIX +:+ "." +:+ interface +:+ "." +:+ k), "")) <$>
                  ["ipaddress"; "dns1"; "dns2"; "leasetime"] in
  let result := snprintf PROPERTY_KEY_MAX (DHCPv6_PROP_NAME_PREFIX +:+ "." +:+ interface +:+ ".result") in
  (x.1 = 0 ∧ service ≠ None ∨ x.1 = -1) ∧
  prop_sets s1 = prop_sets s ++ erased ++ [(result, "")] ++
    match service with Some (_, cmd) => [("ctl.start", cmd)] | None => [] end ∧
  wp (dhcpv6_stop interface) (λ r s2,
    match service with
    | None => r = 0 ∧ trace s2 = trace s1
    | Some (prop, cmd) => ∃ a w rest (ok : bool),
        trace s2 = trace s1 ++ [(PropertySet "ctl.stop" cmd, a)] ++ w ++ rest ∧
        polls prop (λ v, v = "stopped") 100 w ok ∧
        if ok then r = 0 ∧ prop_sets s2 = prop_sets s1 ++ [("ctl.stop", cmd); (result, "released")] ++ erased
        else r = -1 ∧ rest = [] ∧ prop_sets s2 = prop_sets s1 ++ [("ctl.stop", cmd)]
    end) s1.
Proof.
  intros Hr service erased result. apply start_run in Hr as [Hp Hx]. unfold service, start_props in *. rewrite daemon6_service in *.
  split_and!; [exact Hx|exact Hp|]. apply wp_dhcpv6_stop. intros r s2 Hs. rewrite daemon6_service in Hs. exact Hs.
Qed.

(** A device whose router advertises managed addresses: the flag file holds 2. *)
Definition managed (store : string → string) : Env := {|
  kern _ c := match c with
              | PropertyGet k => resp_str (store k)
              | Open _ _ => resp 7
              | Read _ _ => resp_out 1 [50]
              | Fopen _ _ => resp 1
              | Fscanf _ => resp_out 1 [1234]
              | _ => resp 1
              end;
  strerror e := "errno " +:+ pretty e;
  inet_addr _ := 0xffffffff;
  indet n := replicate n 170;
  PROPERTY_KEY_MAX := 32;
  PROPERTY_VALUE_MAX := 92
|}.
Definition running_store (k : string) : string :=
  if String.eqb k "init.svc.dhcp6c_wlan0" then "running"
  else if String.eqb k "dhcp.ipv6.wlan0.result" then "ok" else "".
Definition started6 : gstate :=
  match @dhcpv6_start (managed running_store) sample_names "wlan0" 0 initial_state with
  | Val (_, s) => s
  | UB => initial_state
  end.

Lemma dhcpv6_start_stop_paired_witness :
  ra_flag started6 = 2 ∧
  prop_sets started6 = [("dhcp.ipv6.wlan0.ipaddress", ""); ("dhcp.ipv6.wlan0.dns1", ""); ("dhcp.ipv6.wlan0.dns2", "");
    ("dhcp.ipv6.wlan0.leasetime", ""); ("dhcp.ipv6.wlan0.result", ""); ("ctl.start", "dhcp6c_wlan0")].
Proof.
  assert (Hs : @dhcpv6_start (managed running_store) sample_names "wlan0" 0 initial_state =
    Val ((0, 1234), started6)) by (vm_compute; reflexivity).
  split; [vm_compute; reflexivity|].
  assert (Hf : ra_flag started6 = 2) by (vm_compute; reflexivity).
  rewrite (proj1 (proj2 (@dhcpv6_start_stop_paired (managed running_store) sample_names "wlan0" 0 initial_state
    (0, 1234) started6 Hs))), Hf. vm_compute. reflexivity.
Defined.

(** Reading the router's flags takes a bounded time: with a file that delivers
    a byte, getMbitFromRA returns one of its four results, after at most
    [maxwait] tries of a second each (at least one), all of them used before it
    reports that there was no advertisement. *)
Theorem getMbitFromRA_bounded `{Env} iface maxwait s :
  reads_a_byte →
  wp (getMbitFromRA iface maxwait) (λ z s', is_flag z ∧
    Z.of_nat (seconds s') ≤ Z.of_nat (seconds s) + Z.max 1 maxwait ∧
    (z = ERR → Z.of_nat (seconds s') = Z.of_nat (seconds s) + Z.max 1 maxwait)) s.
Proof.
  intros Hrd. unfold getMbitFromRA. eapply wp_mono; [|by apply wp_getMbit].
  intros z s' (Hz & Hle & He). destruct (Z.ltb_spec maxwait 1); (split_and!; [done|lia|]);
    intros ->; specialize (He eq_refl); lia.
Qed.

Lemma getMbitFromRA_bounded_witness :
  wp (@getMbitFromRA (managed running_store) "wlan0" 10) (λ z s', is_flag z ∧
    Z.of_nat (seconds s') ≤ Z.of_nat (seconds initial_state) + Z.max 1 10 ∧
    (z = ERR → Z.of_nat (seconds s') = Z.of_nat (seconds initial_state) + Z.max 1 10)) initial_state.
Proof.
  apply (@getMbitFromRA_bounded (managed running_store) "wlan0" 10).
  intros tr fd. right. split; [reflexivity|]. exists 50. reflexivity.
Defined.

(** Without that hypothesis the result can be undefined: a read of zero bytes is
    not an error and leaves the variable without a value. *)
Example getMbitFromRA_uninitialised :
  @getMbitFromRA (scripted0 [resp 0; resp 7; resp 0; resp 0]) "wlan0" 10 initial_state = UB.
Proof. vm_compute. reflexivity. Qed.

(** The validity test of the pid cannot fail for a negative number: the pid
    file's value is stored in an unsigned variable before it is compared with
    zero, so every negative value is accepted, as a large positive pid. *)
Theorem read_pid6_accepts_negative `{Env} `{DhcpNames} old p s :
  -2147483648 ≤ p < 0 →
  (∀ tr, ret (kern tr (Fopen DHCP6C_PIDFILE "r")) ≠ 0) →
  (∀ tr, kern tr (Fscanf "%d") = resp_out 1 [p]) →
  wp (read_pid6 old) (λ '(r, pid) _, r = 0 ∧ pid = p + 4294967296) s.
Proof.
  intros Hp Ho Hs. unfold read_pid6, call_. apply wp_bind, wp_call.
  rewrite (proj2 (Z.eqb_neq _ _)) by apply Ho. apply wp_bind, wp_call. rewrite Hs.
  cbn [ret out resp_out Z.eqb Pos.eqb]. cbv zeta.
  assert (u32 p = p + 4294967296) as ->.
  { unfold u32. rewrite <- (Z.mod_add p 1) by lia. apply Z.mod_small. lia. }
  apply wp_bind, wp_bind, wp_call, wp_ret. rewrite (proj2 (Z.leb_gt _ _)) by lia. by apply wp_ret.
Qed.

Definition negative_pid : Env := {|
  kern _ c := match c with Fscanf _ => resp_out 1 [-5] | _ => resp 1 end;
  strerror e := "errno " +:+ pretty e;
  inet_addr _ := 0xffffffff;
  indet n := replicate n 170;
  PROPERTY_KEY_MAX := 32;
  PROPERTY_VALUE_MAX := 92
|}.
Lemma read_pid6_accepts_negative_witness :
  wp (@read_pid6 negative_pid sample_names 0) (λ '(r, pid) _, r = 0 ∧ pid = -5 + 4294967296) initial_state.
Proof.
  apply (@read_pid6_accepts_negative negative_pid sample_names); [lia| |]; intros tr; cbn; done.
Defined.

(** Prefix delegation cannot be requested: dhcpv6_PD_request always returns
    -1, for an interface with the message of a cancelled request; it only moves
    the old prefix aside and clears the properties, and never asks init to
    start the daemon. *)
Theorem dhcpv6_PD_request_never_starts `{Env} `{DhcpNames} interface s :
  wp (dhcpv6_PD_request interface) (λ r s', r = -1 ∧
    errmsgPD s' = snprintf ERRMSGPD_SIZE
      (match interface with None => "PD interface is NULL"
       | Some _ => "Got stop_pd command when start PD request." end) ∧
    ∃ l, prop_sets s' = prop_sets s ++ l ∧
      Forall (λ kv, ∃ i, interface = Some i ∧
        kv.1 ∈ ["net.pd.lastprefix"; pd_prop i "prefix"; "net.pd.lastplen"; pd_prop i "plen";
                pd_result i "result"]) l) s.
Proof.
  destruct interface as [i|]; cbn [dhcpv6_PD_request].
  2: { wp_steps. split_and!; [done|done|]. exists []. split; [by rewrite app_nil_r|done]. }
  unfold clear_pd_info, set_errPD. wp_steps; (split_and!; [done|done|]);
    change (prop_sets (set_errmsgPD _ ?x)) with (prop_sets x);
    rewrite !prop_sets_record; cbn [omap list_omap prop_of]; rewrite ?app_nil_r, <- !app_assoc;
    (eexists; split; [reflexivity|]); cbn [app];
    repeat (apply Forall_cons_2; [exists i; split; [done|rewrite !elem_of_cons; cbn; tauto]|]); apply Forall_nil_2.
Qed.
End Dhcp6Utils.
