(* ===== verification/PppoeUtils.v ===== *)
(** * PPPoE sessions (src/system/core/libnetutils/pppoe_utils.c)

    Starting the PPPoE service through init, collecting the addresses of the
    session from properties, and stopping the daemon by its pid file. *)
From S2P Require Import Prelude Runtime DhcpUtils.

Module PppoeUtils.

Definition PPPOE_DAEMON_NAME : string := "pppoe_wlan0".
Definition PPPOE_DAEMON_PROP_NAME : string := "init.svc.pppoe_wlan0".
Definition NAP_TIME : Z := 200.
Definition PPPOE_RESULT_KEY : string := "net.pppoe.status".
Definition PATH_OF_PID : string := "/data/misc/ppp/".
Definition ERRMSG_SIZE : nat := 100.
Definition MAXPATHLEN : nat := 128.

(** The caller's buffers. *)
Record session := mk_session {
  iplocal : string; ipremote : string; gateway : string;
  dns1 : string; dns2 : string; ppplinkname : string
}.

Section Operations.
Context `{Env}.

Definition set_err (text : string) : M unit := modify (set_pppoe_errmsg (snprintf ERRMSG_SIZE text)).

(** "net.<interface>.<suffix>" *)
Definition net_prop (interface suffix : string) : string :=
  snprintf PROPERTY_KEY_MAX ("net." +:+ interface +:+ "." +:+ suffix).

Definition clear_ip_info : M unit :=
  '(_, interface) ← property_get "net.pppoe.interface";
  property_set (net_prop interface "local-ip") "" ;;
  property_set (net_prop interface "remote-ip") "" ;;
  property_set (net_prop interface "gw") "" ;;
  property_set (net_prop interface "dns1") "" ;;
  property_set (net_prop interface "dns2") "".

(** [while (maxnaps-- > 0)]: a nap before every read. *)
Fixpoint wait_loop (name : string) (desired_value : option string) (naps : nat) : M Z :=
  match naps with
  | O => mret (-1)
  | S naps' =>
      call_ (Usleep (NAP_TIME * 1000)) ;;
      '(n, value) ← property_get name;
      if negb (n =? 0) && match desired_value with None => true | Some d => String.eqb value d end
      then mret 0 else wait_loop name desired_value naps'
  end.

Definition maxnaps (msecs : Z) : nat :=
  let n := Z.quot msecs NAP_TIME in
  Z.to_nat (if n <? 1 then 1 else n).

Definition wait_for_property (name : string) (desired_value : option string) (maxwait : Z) : M Z :=
  msecs ← lift (mul_int maxwait 1000);
  wait_loop name desired_value (maxnaps msecs).

Definition fill_ip_info : M session :=
  '(_, ppplinkname) ← property_get "net.pppoe.interface";
  '(_, iplocal) ← property_get (net_prop ppplinkname "local-ip");
  '(_, ipremote) ← property_get (net_prop ppplinkname "remote-ip");
  '(_, gateway) ← property_get (net_prop ppplinkname "gw");
  '(_, dns1) ← property_get (net_prop ppplinkname "dns1");
  '(_, dns2) ← property_get (net_prop ppplinkname "dns2");
  mret (mk_session iplocal ipremote gateway dns1 dns2 ppplinkname).

Definition daemon_cmd (interface usr passwd : string) (interval failure mtu mru mss : Z) : string :=
  snprintf 92 (PPPOE_DAEMON_NAME +:+ ":" +:+ interface +:+ " " +:+ pretty mss +:+ " " +:+ pretty mtu +:+
    " " +:+ pretty mru +:+ " " +:+ usr +:+ " " +:+ passwd +:+ " " +:+ pretty interval +:+ " " +:+
    pretty failure).

Definition PPPOE_do_request (interface : string) (timeout_sec : Z) (usr passwd : string)
    (interval failure mtu mru mss : Z) (buffers : session) : M (Z * session) :=
  '(_, value) ← property_get PPPOE_DAEMON_PROP_NAME;
  if String.eqb value "running" then mret (-2, buffers) else
  timeout_sec ← (if timeout_sec <? 5
    then set_err "Timeout setting: too short. Use default value(5s),instead." ;; mret 5
    else mret timeout_sec);
  property_set PPPOE_RESULT_KEY "" ;;
  property_set "ctl.start" (daemon_cmd interface usr passwd interval failure mtu mru mss) ;;
  r ← wait_for_property PPPOE_DAEMON_PROP_NAME (Some "running") 5;
  if r <? 0 then set_err "Timed out waiting for PPPOE to start" ;; mret (-2, buffers) else
  r ← wait_for_property PPPOE_RESULT_KEY None timeout_sec;
  if r <? 0 then set_err "Timed out waiting for PPPOE to finish" ;; mret (-2, buffers) else
  '(_, pppoe_result_value) ← property_get PPPOE_RESULT_KEY;
  buffers ← (if String.eqb pppoe_result_value "0" then fill_ip_info else mret buffers);
  mret (atoi pppoe_result_value, buffers).

Definition read_pid : M Z :=
  '(_, iface) ← property_get "net.pppoe.interface";
  f ← call (Fopen (snprintf MAXPATHLEN (PATH_OF_PID +:+ iface +:+ ".pid")) "r");
  if ret f =? 0 then mret 0 else
  r ← call (Fscanf "%d");
  let pid := if ret r =? 1 then match out r with p :: _ => i32 p | [] => 0 end else 0 in
  call_ Fclose ;; mret pid.

Definition PPPOE_stop (interface : string) : M Z :=
  pid ← read_pid;
  if 0 <? pid then
    r ← call_ret (System (snprintf PROPERTY_VALUE_MAX ("kill -9 " +:+ pretty pid)));
    if r =? -1 then mret (-1) else
    clear_ip_info ;; mret 0
  else mret (-1).

Definition PPPOE_get_errmsg : M string := get_state pppoe_errmsg.
End Operations.

(** ** Lemmas *)
Ltac effects :=
  rewrite ?prop_sets_record; cbn [omap list_omap prop_of];
  rewrite ?app_nil_r, <- ?app_assoc; cbn [app].

Section Lemmas.
Context `{Env}.

(** What a wait for a value in [P] looks like from outside, with [naps] naps allowed: a
    nap of 200 ms before each read, until a read brings such a value or the naps are
    used up. *)
Definition polls (name : string) (P : string → Prop) (naps : nat) (w : list event) (ok : bool) : Prop :=
  ∃ bad, Forall (λ ug : response * response, ~ P (DhcpUtils.got ug.2)) bad ∧
    let tries := bad ≫= λ ug, [(Usleep 200000, ug.1); (PropertyGet name, ug.2)] in
    if ok then ∃ u g, w = tries ++ [(Usleep 200000, u); (PropertyGet name, g)] ∧ (length bad < naps)%nat ∧ P (DhcpUtils.got g)
    else w = tries ∧ length bad = naps.
Definition wants (d : option string) (v : string) : Prop := match d with None => v ≠ "" | Some d => v = d end.
Lemma wants_spec d g : d ≠ Some "" →
  negb (Z.of_nat (String.length (DhcpUtils.got g)) =? 0) &&
    match d with None => true | Some d => String.eqb (DhcpUtils.got g) d end = true ↔ wants d (DhcpUtils.got g).
Proof.
  intros Hd. destruct d as [d|]; cbn [wants]; [|rewrite andb_true_r; by destruct (DhcpUtils.got g)].
  rewrite andb_true_iff, String.eqb_eq. split; [by intros [_ ?]|]. intros ->. split; [by destruct d|done].
Qed.

Lemma wp_pppoe_wait_loop name d : d ≠ Some "" → ∀ naps (Q : Z → gstate → Prop) s,
  (∀ s' w ok, trace s' = trace s ++ w → polls name (wants d) naps w ok → Q (if ok then 0 else -1) s') →
  wp (wait_loop name d naps) Q s.
Proof.
  intros Hd. induction naps as [|naps IH]; intros Q s HQ; cbn [wait_loop].
  - apply wp_ret. eapply (HQ s [] false); [by rewrite app_nil_r|]. by exists [].
  - unfold call_, property_get. apply wp_bind, wp_bind, wp_call, wp_ret, wp_bind, wp_bind, wp_call, wp_ret.
    set (u := kern (trace s) _). set (g := kern _ (PropertyGet name)). fold (DhcpUtils.got g).
    set (s1 := record_event (PropertyGet name) _ _).
    assert (Ht : trace s1 = trace s ++ [(Usleep 200000, u); (PropertyGet name, g)])
      by (unfold s1; cbn [record_event trace set_errno set_trace]; by rewrite <- app_assoc).
    pose proof (wants_spec d g Hd) as Hw. destruct (_ && _).
    + apply wp_ret. eapply (HQ s1 _ true); [exact Ht|]. exists []. split; [done|]. exists u, g.
      split_and!; [done|cbn; lia|by apply Hw].
    + apply IH. intros s' w ok Ht' (bad & Hb & Hcase). eapply (HQ s' _ ok); [by rewrite Ht', Ht, <- app_assoc|].
      exists ((u, g) :: bad). split; [constructor; [by rewrite <- Hw|done]|]. cbv zeta in *. destruct ok.
      * destruct Hcase as (u' & g' & -> & Hl & Hg). exists u', g'. split_and!; [done|cbn; lia|done].
      * destruct Hcase as [-> Hl]. split; [done|cbn; lia].
Qed.

Lemma wp_pppoe_wait name d maxwait naps (Q : Z → gstate → Prop) s :
  DhcpUtils.seconds_ok maxwait → d ≠ Some "" → maxnaps (maxwait * 1000) = naps →
  (∀ s' w ok, trace s' = trace s ++ w → polls name (wants d) naps w ok → Q (if ok then 0 else -1) s') →
  wp (wait_for_property name d maxwait) Q s.
Proof.
  intros Hm Hd <- HQ. apply wp_bind. eapply wp_lift; [by apply DhcpUtils.mul_int_ok|].
  by apply wp_pppoe_wait_loop.
Qed.
Lemma pppoe_maxnaps t : 1 ≤ t → maxnaps (t * 1000) = Z.to_nat (5 * t).
Proof.
  intros Ht. unfold maxnaps, NAP_TIME. replace (t * 1000) with (5 * t * 200) by lia. rewrite Z.quot_mul by lia.
  by rewrite (proj2 (Z.ltb_ge _ _)) by lia.
Qed.

(** The reads that fill the caller's buffers, with the answers [rs], and what
    they leave there. *)
Definition address_reads (rs : list response) : list event :=
  let link := DhcpUtils.got (default resp0 (rs !! 0%nat)) in
  zip (PropertyGet "net.pppoe.interface" ::
       (PropertyGet <$> (net_prop link <$> ["local-ip"; "remote-ip"; "gw"; "dns1"; "dns2"]))) rs.
Definition session_of (rs : list response) : session :=
  let v k := DhcpUtils.got (default resp0 (rs !! k)) in
  mk_session (v 1%nat) (v 2%nat) (v 3%nat) (v 4%nat) (v 5%nat) (v 0%nat).

Lemma wp_fill_session (Q : session → gstate → Prop) s :
  (∀ rs s', length rs = 6%nat → trace s' = trace s ++ address_reads rs → prop_sets s' = prop_sets s →
     Q (session_of rs) s') → wp fill_ip_info Q s.
Proof.
  intros HQ. unfold fill_ip_info, property_get. wp_steps.
  match goal with |- Q (mk_session ?a ?b ?c ?d ?e ?f) ?s' =>
    let v x := lazymatch x with context [strs ?r] => r end in
    let r0 := v f in let r1 := v a in let r2 := v b in let r3 := v c in let r4 := v d in let r5 := v e in
    apply (HQ [r0; r1; r2; r3; r4; r5] s') end;
    [done| |by effects].
  cbn [record_event trace set_errno set_trace]. by rewrite <- !app_assoc.
Qed.

(** The calls of a request that was not refused, its result and what it leaves in the
    caller's buffers and the error text. *)
Definition request_events (interface : string) (timeout : Z) (usr passwd : string) (interval failure mtu mru mss : Z)
    (buffers : session) (es : list event) (x : Z) (b : session) (msg : string) : Prop :=
  let command := snprintf 92 ("pppoe_wlan0:" +:+ interface +:+ " " +:+ pretty mss +:+ " " +:+ pretty mtu +:+
    " " +:+ pretty mru +:+ " " +:+ usr +:+ " " +:+ passwd +:+ " " +:+ pretty interval +:+ " " +:+ pretty failure) in
  ∃ a0 a1 a2 w1 w2 rest (up finished : bool),
    es = [(PropertyGet "init.svc.pppoe_wlan0", a0); (PropertySet "net.pppoe.status" "", a1);
          (PropertySet "ctl.start" command, a2)] ++ w1 ++ w2 ++ rest ∧
    polls "init.svc.pppoe_wlan0" (λ v, v = "running") 25 w1 up ∧
    if up then
      polls "net.pppoe.status" (λ v, v ≠ "") (Z.to_nat (5 * Z.max 5 timeout)) w2 finished ∧
      if finished then
        ∃ status rest', rest = (PropertyGet "net.pppoe.status", status) :: rest' ∧ x = atoi (DhcpUtils.got status) ∧
          if decide (DhcpUtils.got status = "0")
          then ∃ rs, length rs = 6%nat ∧ rest' = address_reads rs ∧ b = session_of rs
          else rest' = [] ∧ b = buffers
      else rest = [] ∧ x = -2 ∧ b = buffers ∧ msg = "Timed out waiting for PPPOE to finish"
    else w2 = [] ∧ rest = [] ∧ x = -2 ∧ b = buffers ∧ msg = "Timed out waiting for PPPOE to start".

(** The pid the scan of the pid file delivers. *)
Definition scanned (r : response) : Z :=
  if ret r =? 1 then match out r with p :: _ => i32 p | [] => 0 end else 0.
Definition pidfile (r : response) : string :=
  snprintf MAXPATHLEN (PATH_OF_PID +:+ DhcpUtils.got r +:+ ".pid").

Lemma wp_read_pid (Q : Z → gstate → Prop) s :
  (∀ r0 f, ret f = 0 → ∀ s', prop_sets s' = prop_sets s →
     trace s' = trace s ++ [(PropertyGet "net.pppoe.interface", r0); (Fopen (pidfile r0) "r", f)] →
     Q 0 s') →
  (∀ r0 f p c, ret f ≠ 0 → ∀ s', prop_sets s' = prop_sets s →
     trace s' = trace s ++ [(PropertyGet "net.pppoe.interface", r0); (Fopen (pidfile r0) "r", f);
                            (Fscanf "%d", p); (Fclose, c)] →
     Q (scanned p) s') →
  wp read_pid Q s.
Proof.
  intros H0 H1. unfold read_pid, property_get, call_. apply wp_bind, wp_bind, wp_call, wp_ret, wp_bind, wp_call.
  set (r0 := kern (trace s) _). fold (DhcpUtils.got r0). fold (pidfile r0). set (f := kern _ (Fopen _ _)).
  destruct (Z.eqb_spec (ret f) 0) as [Hf|Hf].
  - apply wp_ret, (H0 r0 f); [done|by effects|].
    cbn [record_event trace set_errno set_trace]. by rewrite <- app_assoc.
  - apply wp_bind, wp_call, wp_bind, wp_bind, wp_call, wp_ret, wp_ret.
    eapply (H1 r0 f); [done|by effects|].
    cbn [record_event trace set_errno set_trace]. by rewrite <- !app_assoc.
Qed.

Definition cleared (interface : string) : list (string * string) :=
  (λ k, (net_prop interface k, "")) <$> ["local-ip"; "remote-ip"; "gw"; "dns1"; "dns2"].
End Lemmas.

(** ** Properties *)

(** C38. A PPPoE request, with a time limit whose milliseconds fit an int: when the
    service already runs, its property is read, nothing else happens and the result
    is -2.  Otherwise the old status is erased and then the service is started with
    the parameters of the session; when its property is not seen "running" within
    five seconds, polled every 200 ms, the result is -2 with the message that it did
    not start; when then no status appears within the time limit, at least five
    seconds, the result is -2 with the message that it did not finish; else it is the
    number in the status property as read once more, and for the status 0 the
    caller's buffers hold the link and the five addresses that the six reads after
    it delivered.  In all other cases the buffers are left alone. *)
Theorem PPPOE_do_request_correct `{Env} interface timeout usr passwd interval failure mtu mru mss b0 s :
  timeout ≤ 2147483 →
  let a := kern (trace s) (PropertyGet "init.svc.pppoe_wlan0") in
  wp (PPPOE_do_request interface timeout usr passwd interval failure mtu mru mss b0) (λ '(x, b) s',
    ∃ es, trace s' = trace s ++ es ∧
    if decide (DhcpUtils.got a = "running") then x = -2 ∧ b = b0 ∧ es = [(PropertyGet "init.svc.pppoe_wlan0", a)]
    else request_events interface timeout usr passwd interval failure mtu mru mss b0 es x b (pppoe_errmsg s')) s.
Proof.
  intros Hlim a. unfold PPPOE_do_request. apply wp_bind. unfold property_get at 1.
  apply wp_bind, wp_call, wp_ret. change (kern (trace s) (PropertyGet PPPOE_DAEMON_PROP_NAME)) with a.
  fold (DhcpUtils.got a). set (s1 := record_event _ _ s).
  destruct (decide (DhcpUtils.got a = "running")) as [Hb|Hb]; [rewrite (proj2 (String.eqb_eq _ _) Hb); apply wp_ret; by eexists|].
  rewrite (proj2 (String.eqb_neq _ _) Hb).
  apply wp_bind. apply (wp_mono _ (λ t s2, trace s2 = trace s1 ∧ t = Z.max 5 timeout)).
  2: { destruct (Z.ltb_spec timeout 5); wp_steps; split; (done || lia). }
  intros t s2 [Ht2 ->]. apply wp_bind, DhcpUtils.wp_property_set_trace. intros s3 a1 Ht3.
  apply wp_bind, DhcpUtils.wp_property_set_trace. intros s4 a2 Ht4.
  set (es := [(PropertyGet "init.svc.pppoe_wlan0", a); (PropertySet "net.pppoe.status" "", a1);
          (PropertySet "ctl.start" (daemon_cmd interface usr passwd interval failure mtu mru mss), a2)]).
  assert (Ht : trace s4 = trace s ++ es) by (rewrite Ht4, Ht3, Ht2; unfold s1; cbn [record_event trace set_errno set_trace]; by rewrite <- !app_assoc).
  clear Ht2 Ht3 Ht4. apply wp_bind, (wp_pppoe_wait _ _ _ 25); [done|done|done|].
  intros s5 w1 up Ht5 Hw1. destruct up; cbn [Z.ltb Z.compare].
  2: { apply wp_bind, wp_modify, wp_ret. eexists. split; [cbn [trace set_pppoe_errmsg]; by rewrite Ht5, Ht, <- app_assoc|].
       exists a, a1, a2, w1, [], [], false, false. by rewrite !app_nil_r. }
  apply wp_bind, (wp_pppoe_wait _ _ _ (Z.to_nat (5 * Z.max 5 timeout))); [split; lia|done|apply pppoe_maxnaps; lia|].
  intros s6 w2 fin Ht6 Hw2. destruct fin; cbn [Z.ltb Z.compare].
  2: { apply wp_bind, wp_modify, wp_ret. eexists. split; [cbn [trace set_pppoe_errmsg]; by rewrite Ht6, Ht5, Ht, <- !app_assoc|].
       exists a, a1, a2, w1, w2, [], true, false. by rewrite app_nil_r. }
  apply wp_bind. unfold property_get. apply wp_bind, wp_call, wp_ret. set (g := kern _ (PropertyGet PPPOE_RESULT_KEY)).
  fold (DhcpUtils.got g). set (s7 := record_event _ _ s6).
  assert (Ht7 : trace s7 = trace s ++ (es ++ w1 ++ w2 ++ [(PropertyGet "net.pppoe.status", g)]))
    by (unfold s7; cbn [record_event trace set_errno set_trace]; by rewrite Ht6, Ht5, Ht, <- !app_assoc).
  assert (Hend : ∀ x b s8 rest', trace s8 = trace s7 ++ rest' → x = atoi (DhcpUtils.got g) →
    (if decide (DhcpUtils.got g = "0") then ∃ rs, length rs = 6%nat ∧ rest' = address_reads rs ∧ b = session_of rs
     else rest' = [] ∧ b = b0) →
    ∃ es, trace s8 = trace s ++ es ∧ request_events interface timeout usr passwd interval failure mtu mru mss b0 es x b (pppoe_errmsg s8)).
  { intros x b s8 rest' Ht8 Hx Hcase. eexists. split; [by rewrite Ht8, Ht7, <- app_assoc|].
    exists a, a1, a2, w1, w2, ((PropertyGet "net.pppoe.status", g) :: rest'), true, true.
    split_and!; [by rewrite <- !app_assoc|done|done|]. by exists g, rest'. }
  apply wp_bind. destruct (decide (DhcpUtils.got g = "0")) as [Hv|Hv].
  - rewrite (proj2 (String.eqb_eq _ _) Hv). apply wp_fill_session. intros rs s8 Hl Ht8 _. apply wp_ret. eapply Hend; [exact Ht8|done|by exists rs].
  - rewrite (proj2 (String.eqb_neq _ _) Hv). apply wp_ret, wp_ret. by eapply (Hend _ _ s7 []); [rewrite app_nil_r|..].
Qed.

(** A service that comes up with the status 0. *)
Definition session_env : Env :=
  scripted0 [resp_str "stopped"; resp 0; resp 0; resp 0; resp_str "running"; resp 0; resp_str "0";
             resp_str "0"; resp_str "ppp0"; resp_str "10.0.0.2"; resp_str "10.0.0.1";
             resp_str "10.0.0.1"; resp_str "8.8.8.8"; resp_str "8.8.4.4"].
Definition no_session : session := mk_session "" "" "" "" "" "".

Lemma PPPOE_do_request_correct_witness :
  (∃ s', @PPPOE_do_request session_env "wlan0" 10 "user" "secret" 60 3 1492 1492 1412 no_session
           initial_state =
     Val (0, mk_session "10.0.0.2" "10.0.0.1" "10.0.0.1" "8.8.8.8" "8.8.4.4" "ppp0", s')) ∧
  let a := @kern session_env (trace initial_state) (PropertyGet "init.svc.pppoe_wlan0") in
  wp (@PPPOE_do_request session_env "wlan0" 10 "user" "secret" 60 3 1492 1492 1412 no_session) (λ '(x, b) s',
    ∃ es, trace s' = trace initial_state ++ es ∧
    if decide (@DhcpUtils.got session_env a = "running")
    then x = -2 ∧ b = no_session ∧ es = [(PropertyGet "init.svc.pppoe_wlan0", a)]
    else @request_events session_env "wlan0" 10 "user" "secret" 60 3 1492 1492 1412 no_session es x b (pppoe_errmsg s')) initial_state.
Proof.
  split; [eexists; vm_compute; reflexivity|].
  apply (@PPPOE_do_request_correct session_env). lia.
Defined.

(** Stopping a session: PPPOE_stop looks for the pid file of the link named
    by net.pppoe.interface; when the file is missing or its number is not
    positive it returns -1 and does nothing more; otherwise it closes the file
    and runs "kill -9" on that number, returns -1 when the command cannot be
    run, and else clears the five address properties of the link and returns
    0. *)
Theorem PPPOE_stop_correct `{Env} interface s :
  wp (PPPOE_stop interface) (λ r s', ∃ r0 f rest,
    trace s' = trace s ++
      (PropertyGet "net.pppoe.interface", r0) :: (Fopen (pidfile r0) "r", f) :: rest ∧
    if ret f =? 0 then rest = [] ∧ r = -1 else
    ∃ p c rest', rest = (Fscanf "%d", p) :: (Fclose, c) :: rest' ∧
      if scanned p <=? 0 then rest' = [] ∧ r = -1 else
      ∃ k cleanup, rest' =
          (System (snprintf PROPERTY_VALUE_MAX ("kill -9 " +:+ pretty (scanned p))), k) :: cleanup ∧
        if ret k =? -1 then cleanup = [] ∧ r = -1 else
        ∃ l, r = 0 ∧ prop_sets s' = prop_sets s ++ cleared (DhcpUtils.got l) ∧
          head cleanup = Some (PropertyGet "net.pppoe.interface", l) ∧ length cleanup = 6%nat) s.
Proof.
  unfold PPPOE_stop. apply wp_bind, wp_read_pid.
  { intros r0 f Hf s' _ Ht. cbn [Z.ltb Z.compare]. apply wp_ret. exists r0, f, []. by rewrite Hf. }
  intros r0 f p c Hf s1 Hp Ht. destruct (Z.ltb_spec 0 (scanned p)) as [Hpos|Hneg].
  2: { apply wp_ret. exists r0, f, [(Fscanf "%d", p); (Fclose, c)].
       rewrite (proj2 (Z.eqb_neq _ _) Hf). split; [done|]. exists p, c, [].
       by rewrite (proj2 (Z.leb_le _ _) Hneg). }
  apply wp_bind. unfold call_ret. apply wp_bind, wp_call, wp_ret. set (k := kern _ (System _)).
  set (s2 := record_event _ _ _).
  assert (Ht2 : trace s2 = trace s ++ [(PropertyGet "net.pppoe.interface", r0); (Fopen (pidfile r0) "r", f);
      (Fscanf "%d", p); (Fclose, c);
      (System (snprintf PROPERTY_VALUE_MAX ("kill -9 " +:+ pretty (scanned p))), k)])
    by (unfold s2; cbn [record_event trace set_errno set_trace]; by rewrite Ht, <- app_assoc).
  assert (Hp2 : prop_sets s2 = prop_sets s) by (unfold s2; by effects).
  destruct (ret k =? -1) eqn:Hk.
  - apply wp_ret. eexists r0, f, _. rewrite Ht2. split; [done|]. rewrite (proj2 (Z.eqb_neq _ _) Hf).
    eexists p, c, _. split; [done|]. rewrite (proj2 (Z.leb_gt _ _) Hpos).
    exists k, []. by rewrite Hk.
  - unfold clear_ip_info, property_get, property_set, call_. wp_steps.
    eexists r0, f, _. split.
    { cbn [record_event trace set_errno set_trace]. rewrite Ht2, <- !app_assoc. done. }
    rewrite (proj2 (Z.eqb_neq _ _) Hf). eexists p, c, _. split; [done|]. rewrite (proj2 (Z.leb_gt _ _) Hpos).
    eexists k, _. split; [done|]. rewrite Hk. eexists. split; [done|].
    split_and!; cycle 1; [reflexivity|reflexivity|]. effects. by rewrite Hp2, Ht2.
Qed.
End PppoeUtils.
