(* ===== verification/DriverRt.v ===== *)
(** * The runtime of the fingerprint drivers and of their listener

    A computation of [IO C S] passes a state [S], records the calls of type [C]
    it makes in a trace and takes their answers from an arbitrary [World], a
    function of the calls made so far; undefined behaviour propagates.  [ewp] is
    the weakest precondition with a parameter for undefined behaviour: [False]
    makes it total, [True] partial.

    The second half is the kernel as the drivers use it: its calls [kcall], the
    resources a driver acquires and releases, and the protocol of an interrupt
    line, an automaton that a correct driver never leaves. *)
From S2P Require Import Prelude.

(** ** Computations *)

(** The answer to a call: its return value and the bytes it stores. *)
Record resp := mk_resp { rret : Z; rout : list Z }.

Record rt (C S : Type) := mk_rt { calls : list (C * resp); st : S }.
Arguments mk_rt {C S}.
Arguments calls {C S}.
Arguments st {C S}.

Class World (C : Type) := answer : list (C * resp) → C → resp.

Definition IO (C S A : Type) : Type := rt C S → outcome (A * rt C S).

#[global] Instance IO_ret C S : MRet (IO C S) := λ A a s, Val (a, s).
#[global] Instance IO_bind C S : MBind (IO C S) := λ A B f m s,
  match m s with Val (a, s') => f a s' | UB => UB end.

Section Primitives.
Context {C S : Type} `{W : World C}.

Definition kcall_ (c : C) : IO C S resp := λ s,
  let r := answer (calls s) c in Val (r, mk_rt (calls s ++ [(c, r)]) (st s)).
(** A call for its return value, and one whose result is ignored. *)
Definition kret (c : C) : IO C S Z := r ← kcall_ c; mret (rret r).
Definition kdo (c : C) : IO C S unit := kcall_ c ≫= λ _, mret tt.

Definition kget {A} (f : S → A) : IO C S A := λ s, Val (f (st s), s).
Definition kmod (f : S → S) : IO C S unit := λ s, Val (tt, mk_rt (calls s) (f (st s))).
Definition kub {A} : IO C S A := λ _, UB.
Definition klift {A} (o : outcome A) : IO C S A := λ s,
  match o with Val a => Val (a, s) | UB => UB end.
(** The value of an optional object; its absence is a null or dead pointer. *)
Definition kderef {A} (f : S → option A) : IO C S A := λ s,
  match f (st s) with Some a => Val (a, s) | None => UB end.
Definition kwhen (b : bool) (m : IO C S unit) : IO C S unit := if b then m else mret tt.
End Primitives.

(** ** Weakest preconditions *)
Definition ewp {C S A} (E : Prop) (m : IO C S A) (Q : A → rt C S → Prop) (s : rt C S) : Prop :=
  match m s with Val (a, s') => Q a s' | UB => E end.

Section Ewp.
Context {C S A B : Type} (E : Prop).
Implicit Types (Q : A → rt C S → Prop) (s : rt C S).

Lemma ewp_ret (a : A) Q s : Q a s → ewp E (mret a) Q s.
Proof. done. Qed.
Lemma ewp_bind (m : IO C S B) (f : B → IO C S A) Q s :
  ewp E m (λ b s', ewp E (f b) Q s') s → ewp E (m ≫= f) Q s.
Proof. unfold ewp, mbind, IO_bind. by destruct (m s) as [[b s']|]. Qed.
Lemma ewp_mono (m : IO C S A) (P Q : A → rt C S → Prop) s :
  (∀ a s', P a s' → Q a s') → ewp E m P s → ewp E m Q s.
Proof. unfold ewp. destruct (m s) as [[a s']|]; eauto. Qed.
Lemma ewp_weaken (E' : Prop) (m : IO C S A) Q s : (E' → E) → ewp E' m Q s → ewp E m Q s.
Proof. unfold ewp. destruct (m s) as [[a s']|]; eauto. Qed.
Lemma ewp_cut (I : rt C S → Prop) (m : IO C S A) Q s :
  ewp E m (λ _ s', I s') s → (∀ a s', I s' → Q a s') → ewp E m Q s.
Proof. intros Hm Hq. eapply ewp_mono; [|exact Hm]. eauto. Qed.
Lemma ewp_seq (I : rt C S → Prop) (m : IO C S B) (f : B → IO C S A) Q s :
  ewp E m (λ _ s', I s') s → (∀ b s', I s' → ewp E (f b) Q s') → ewp E (m ≫= f) Q s.
Proof.
  intros Hm Hf. apply ewp_bind. unfold ewp in Hm |- *. destruct (m s) as [[b s']|]; [by apply Hf|done].
Qed.
Lemma ewp_run (m : IO C S A) Q s a s' : m s = Val (a, s') → Q a s' → ewp E m Q s.
Proof. unfold ewp. by intros ->. Qed.
Lemma ewp_get (f : S → A) Q s : Q (f (st s)) s → ewp E (kget f) Q s.
Proof. done. Qed.
Lemma ewp_deref (f : S → option A) Q s :
  (∀ a, f (st s) = Some a → Q a s) → (f (st s) = None → E) → ewp E (kderef f) Q s.
Proof. unfold ewp, kderef. destruct (f (st s)); eauto. Qed.
Lemma ewp_lift (o : outcome A) Q s :
  (∀ a, o = Val a → Q a s) → (o = UB → E) → ewp E (klift o) Q s.
Proof. unfold ewp, klift. destruct o; eauto. Qed.
Lemma ewp_ub Q s : E → ewp E kub Q s.
Proof. done. Qed.
End Ewp.

Lemma ewp_call {C S} `{World C} E c (Q : resp → rt C S → Prop) s :
  Q (answer (calls s) c) (mk_rt (calls s ++ [(c, answer (calls s) c)]) (st s)) → ewp E (kcall_ c) Q s.
Proof. done. Qed.
(** Without anything known about the answer. *)
Lemma ewp_any {C S} `{World C} E c (Q : resp → rt C S → Prop) s :
  (∀ r, Q r (mk_rt (calls s ++ [(c, r)]) (st s))) → ewp E (kcall_ c) Q s.
Proof. intros HQ. apply HQ. Qed.
Lemma ewp_mod {C S} E f (Q : unit → rt C S → Prop) s :
  Q tt (mk_rt (calls s) (f (st s))) → ewp E (kmod f) Q s.
Proof. done. Qed.

(** From a partial precondition to the result of a run. *)
Lemma ewp_elim {C S A} E (m : IO C S A) Q s a s' : ewp E m Q s → m s = Val (a, s') → Q a s'.
Proof. unfold ewp. intros Hw Hm. by rewrite Hm in Hw. Qed.
Lemma ewp_total {C S A} (m : IO C S A) Q s : ewp False m Q s ↔ ∃ a s', m s = Val (a, s') ∧ Q a s'.
Proof.
  unfold ewp. destruct (m s) as [[a s']|]; split; [by eauto|by intros (? & ? & [= <- <-] & ?)|done|by intros (? & ? & [=] & _)].
Qed.

(** Steps over the primitives; leaves the branches of the code. *)
Ltac ewp_prim :=
  lazymatch goal with
  | |- ewp _ (mbind _ _) _ _ => apply ewp_bind
  | |- ewp _ (mret _) _ _ => apply ewp_ret
  | |- ewp _ (kcall_ _) _ _ => apply ewp_call
  | |- ewp _ (kget _) _ _ => apply ewp_get
  | |- ewp _ (kmod _) _ _ => apply ewp_mod
  | |- ewp _ kub _ _ => apply ewp_ub
  | |- ewp _ (kret _) _ _ => unfold kret
  | |- ewp _ (kdo _) _ _ => unfold kdo
  | |- ewp _ (kwhen _ _) _ _ => unfold kwhen
  | |- ewp _ (let '(_, _) := ?x in _) _ _ => destruct x eqn:?
  | |- ewp _ (if ?b then _ else _) _ _ => destruct b eqn:?
  end.
(** The program reduces to [m], as a switch on a known command does. *)
Tactic Notation "ewp_is" uconstr(m) := match goal with |- ewp ?E _ ?Q ?s => change (ewp E m Q s) end.
Ltac ewp_steps := repeat ewp_prim; cbn [calls st].

(** ** The device of a driver

    A driver's state holds the object its device pointer refers to, [None] before
    its allocation and after it is freed. *)
Class HasDevice (S D : Type) := {
  dev_of : S → option D;
  put_dev : option D → S → S;
  dev_put d s : dev_of (put_dev (Some d) s) = Some d
}.
#[global] Hint Mode HasDevice ! - : typeclass_instances.

Section Device.
Context {C S D : Type} `{HasDevice S D}.

(** Fields of the device, by a pointer that must be alive. *)
Definition get {A} (f : D → A) : IO C S A := d ← kderef dev_of; mret (f d).
Definition put (f : D → D) : IO C S unit := d ← kderef dev_of; kmod (put_dev (Some (f d))).
(** A use of the pointer without one of a field. *)
Definition pointer : IO C S unit := _ ← kderef dev_of; mret tt.

Lemma ewp_get_dev {A} E (f : D → A) Q s d :
  dev_of (st s) = Some d → Q (f d) s → ewp E (get f) Q s.
Proof. intros Hd HQ. unfold get. apply ewp_bind, ewp_deref; [|congruence]. intros a Ha. rewrite Hd in Ha. by injection Ha as <-. Qed.
Lemma ewp_put_dev E (f : D → D) Q s d :
  dev_of (st s) = Some d → Q tt (mk_rt (calls s) (put_dev (Some (f d)) (st s))) → ewp E (put f) Q s.
Proof. intros Hd HQ. unfold put. apply ewp_bind, ewp_deref; [|congruence]. intros a Ha. rewrite Hd in Ha. injection Ha as <-. by apply ewp_mod. Qed.
Lemma get_run {A} (f : D → A) s d : dev_of (st s) = Some d → get f s = Val (f d, s).
Proof. intros Hd. unfold get, mbind, IO_bind, kderef. by rewrite Hd. Qed.
Lemma put_run (f : D → D) s d :
  dev_of (st s) = Some d → put f s = Val (tt, mk_rt (calls s) (put_dev (Some (f d)) (st s))).
Proof. intros Hd. unfold put, mbind, IO_bind, kderef. by rewrite Hd. Qed.
Lemma ewp_pointer E Q s d : dev_of (st s) = Some d → Q tt s → ewp E pointer Q s.
Proof. intros Hd HQ. unfold pointer. apply ewp_bind, ewp_deref; [|congruence]. by intros. Qed.
End Device.

(** A property of the trace that every call of a program keeps. *)
Definition total {C} (f : C * resp → Z) (tr : list (C * resp)) : Z := foldr (λ ev n, f ev + n) 0 tr.
Lemma total_cat {C} (f : C * resp → Z) tr1 tr2 : total f (tr1 ++ tr2) = total f tr1 + total f tr2.
Proof.
  unfold total. induction tr1 as [|ev tr IH]; [done|]. rewrite <- app_comm_cons. cbn [foldr].
  rewrite IH. lia.
Qed.
Lemma total_snoc {C} (f : C * resp → Z) tr ev : total f (tr ++ [ev]) = total f tr + f ev.
Proof. rewrite total_cat. cbn. lia. Qed.

(** ** Text in memory *)

(** The C string at the start of a buffer; a buffer without a terminator makes
    its reader leave the object. *)
Fixpoint cstr (buf : list Z) : outcome string :=
  match buf with
  | [] => UB
  | b :: rest =>
      if b =? 0 then Val "" else t ← cstr rest; Val (String (Ascii.ascii_of_nat (Z.to_nat b)) t)
  end.

(** What a copy of [n] bytes from user space leaves in a buffer: the bytes that
    could be copied, the rest cleared. *)
Definition copied (n : nat) (r : resp) : list Z := take n (rout r ++ repeat 0 n).

Lemma length_copied n r : length (copied n r) = n.
Proof. unfold copied. rewrite length_take, length_app, repeat_length. lia. Qed.

Lemma cstr_UB buf : cstr buf = UB ↔ Forall (λ b, b ≠ 0) buf.
Proof.
  induction buf as [|b buf IH]; [by split|]. cbn [cstr]. rewrite Forall_cons_iff, <- IH.
  destruct (Z.eqb_spec b 0) as [->|Hb]; [split; [done|by intros [[] _]]|].
  destruct (cstr buf); cbn; naive_solver.
Qed.
Lemma cstr_length buf t : cstr buf = Val t → (String.length t < length buf)%nat.
Proof.
  revert t. induction buf as [|b buf IH]; intros t; cbn; [done|].
  destruct (b =? 0); [intros [= <-]; cbn; lia|].
  destruct (cstr buf) as [t'|]; cbn; [|done]. intros [= <-]. specialize (IH t' eq_refl). cbn. lia.
Qed.

(** ** The kernel of the drivers *)
Inductive kcall :=
(* device tree, pins *)
| OfGetNamedGpio (label : string)
| GpioRequest (gpio : Z) (label : string)
| GpioFree (gpio : Z)
| GpioDirectionInput (gpio : Z)
| GpioDirectionOutput (gpio value : Z)
| GpioSetValue (gpio value : Z)
| GpioGetValue (gpio : Z)
| GpioToIrq (gpio : Z)
| PinctrlRequestGpio (gpio : Z)
| PinctrlGpioDirectionInput (gpio : Z)
| Udelay (usec : Z)
| Mdelay (msec : Z)
| Msleep (msec : Z)
(* interrupts, waiting, power *)
| RequestIrq (irq : Z)
| FreeIrq (irq : Z)
| EnableIrq (irq : Z)
| DisableIrq (irq : Z)
| EnableIrqWake (irq : Z)
| WakeUp (queue : string)
| KillFasync
| WakeLockInit (lock : string)
| WakeLockTimeout (lock : string) (msec : Z)
| WakeLock (lock : string)
| WakeUnlock (lock : string)
| WakeLockDestroy (lock : string)
| RegulatorGet (name : string)
| RegulatorPut (name : string)
| RegulatorSetVoltage (name : string) (min max : Z)
| RegulatorCountVoltages (name : string)
| RegulatorEnable (name : string)
| RegulatorDisable (name : string)
| FbRegisterClient
| CreateWorkqueue
| QueueWork
| WakeupSourceAdd (name : string)
| WakeupSourceRemove (name : string)
| PmStayAwake (name : string)
| PmRelax (name : string)
| MutexLock (name : string)
| MutexUnlock (name : string)
(* memory, user space *)
| Kzalloc (object : string)
| DevmKzalloc (object : string)
| Kfree (object : string)
| Kstrndup
| CopyFromUser (count : nat)
| CopyToUser (data : list Z)
| AccessOk (write : bool) (size : Z)
(* devices *)
| RegisterChrdevRegion
| UnregisterChrdevRegion
| CdevAdd
| CdevDel
| ClassCreate
| ClassDestroy
| DeviceCreate
| DeviceDestroy
| MiscRegister
| MiscDeregister
| RegisterChrdev
| UnregisterChrdev
| InputAllocateDevice
| InputRegisterDevice (keys : list Z)
| InputUnregisterDevice
| InputFreeDevice
| KobjectCreate
| KobjectUevent (env : string)
| SysfsCreateGroup
| SysfsRemoveGroup
| PlatformDriverRegister
| PlatformDriverUnregister
| SpiRegisterDriver
| SpiUnregisterDriver.

Abbreviation kevent := (kcall * resp)%type.

(** The clock, read by do_gettimeofday, in microseconds. *)
Class Clock := clock : list kevent → Z.

(** Which numbers are pins. *)
Class Gpios := gpio_is_valid : Z → bool.

(** find_first_zero_bit: the first clear bit from [i] on, among [n] bits *)
Fixpoint first_zero_bit (bits : Z) (i : Z) (n : nat) : Z :=
  match n with O => i | S n' => if Z.testbit bits i then first_zero_bit bits (i + 1) n' else i end.

(** fasync_helper: a file enters or leaves a queue; 1 when the queue changed. *)
Definition fasync_helper (filp : Z) (on : bool) (q : list Z) : Z * list Z :=
  if decide (filp ∈ q) then
    if on then (0, q) else (1, filter (λ f, f ≠ filp) q)
  else if on then (1, filp :: q) else (0, q).

(** *** Resources

    What a driver holds: each successful acquisition counts 1, each release -1.
    class_create and device_create answer with a pointer, negative for an error. *)
Inductive resource :=
| RRegion | RCdev | RClass | RDevice | RMisc | RSysfs
| RGpio (gpio : Z) | RWakeLock (lock : string) | RMemory (object : string) | RRegulator (name : string) | RPower (name : string)
| RMutex (name : string) | RSource (name : string).

Definition ok (r : resp) : Z := if rret r =? 0 then 1 else 0.
Definition ok_ptr (r : resp) : Z := if 0 <? rret r then 1 else 0.

Definition delta (x : resource) (ev : kevent) : Z :=
  let '(c, r) := ev in
  match x, c with
  | RRegion, RegisterChrdevRegion => if rret r <? 0 then 0 else 1
  | RRegion, UnregisterChrdevRegion => -1
  | RCdev, CdevAdd => ok r
  | RCdev, CdevDel => -1
  | RClass, ClassCreate => if rret r <? 0 then 0 else 1
  | RClass, ClassDestroy => -1
  | RDevice, DeviceCreate => if rret r <? 0 then 0 else 1
  | RDevice, DeviceDestroy => -1
  | RMisc, MiscRegister => if rret r <? 0 then 0 else 1
  | RMisc, MiscDeregister => -1
  | RSysfs, SysfsCreateGroup => ok r
  | RSysfs, SysfsRemoveGroup => -1
  | RGpio g, GpioRequest g' _ => if g =? g' then if rret r <? 0 then 0 else 1 else 0
  | RGpio g, GpioFree g' => if g =? g' then -1 else 0
  | RWakeLock l, WakeLockInit l' => if String.eqb l l' then 1 else 0
  | RWakeLock l, WakeLockDestroy l' => if String.eqb l l' then -1 else 0
  | RMemory o, Kzalloc o' => if String.eqb o o' then ok_ptr r else 0
  | RMemory o, DevmKzalloc o' => if String.eqb o o' then ok_ptr r else 0
  | RMemory o, Kfree o' => if String.eqb o o' then -1 else 0
  | RMutex n, MutexLock n' => if String.eqb n n' then 1 else 0
  | RMutex n, MutexUnlock n' => if String.eqb n n' then -1 else 0
  | RSource n, WakeupSourceAdd n' => if String.eqb n n' then 1 else 0
  | RSource n, WakeupSourceRemove n' => if String.eqb n n' then -1 else 0
  | RPower n, RegulatorEnable n' => if String.eqb n n' then ok r else 0
  | RPower n, RegulatorDisable n' => if String.eqb n n' then - ok r else 0
  | RRegulator n, RegulatorGet n' => if String.eqb n n' then ok_ptr r else 0
  | RRegulator n, RegulatorPut n' => if String.eqb n n' then -1 else 0
  | _, _ => 0
  end.
Definition held (x : resource) (tr : list kevent) : Z := total (delta x) tr.

Lemma held_snoc x tr ev : held x (tr ++ [ev]) = held x tr + delta x ev.
Proof. apply total_snoc. Qed.

(** How often a trace has a call of some kind. *)
Definition times (f : kcall → bool) (tr : list kevent) : Z := total (λ ev, if f ev.1 then 1 else 0) tr.
Lemma times_snoc f tr c r : times f (tr ++ [(c, r)]) = times f tr + if f c then 1 else 0.
Proof. unfold times. by rewrite total_snoc. Qed.

(** *** Interrupt lines

    A line is free, or requested with a nesting depth of disables; requesting it
    enables it.  [None]: the protocol is broken (a second request granted, a free,
    enable or disable of a line that is free, or an enable without a disable). *)
Inductive line := LFree | LTaken (depth : nat).
#[global] Instance line_eq_dec : EqDecision line.
Proof. solve_decision. Defined.

Definition line_step (irq : Z) (l : line) (ev : kevent) : option line :=
  match ev with
  | (RequestIrq n, r) =>
      if (n =? irq) && (rret r =? 0) then
        match l with LFree => Some (LTaken 0) | LTaken _ => None end
      else Some l
  | (FreeIrq n, _) =>
      if n =? irq then match l with LTaken _ => Some LFree | LFree => None end else Some l
  | (EnableIrq n, _) =>
      if n =? irq then match l with LTaken (S d) => Some (LTaken d) | _ => None end else Some l
  | (DisableIrq n, _) =>
      if n =? irq then match l with LTaken d => Some (LTaken (S d)) | LFree => None end else Some l
  | _ => Some l
  end.

Definition line_of (irq : Z) (tr : list kevent) : option line :=
  foldl (λ l ev, l ≫= λ l, line_step irq l ev) (Some LFree) tr.

Lemma line_of_snoc irq tr ev : line_of irq (tr ++ [ev]) = line_of irq tr ≫= λ l, line_step irq l ev.
Proof. unfold line_of. by rewrite foldl_snoc. Qed.

(** Calls that are not about interrupt lines, and about other lines. *)
Definition irq_of (c : kcall) : option Z :=
  match c with
  | RequestIrq n | FreeIrq n | EnableIrq n | DisableIrq n => Some n
  | _ => None
  end.
Lemma line_of_quiet irq tr c r : irq_of c ≠ Some irq → line_of irq (tr ++ [(c, r)]) = line_of irq tr.
Proof.
  rewrite line_of_snoc. intros Hn. destruct (line_of irq tr) as [l|]; cbn; [|done].
  destruct c; cbn in *; try done.
  all: rewrite (proj2 (Z.eqb_neq _ irq)) by congruence; done.
Qed.

(** ** Frames

    A computation that is defined in every state of [P], stays in [P], and leaves
    the view [V] of the state as it was. *)
Definition frames {C S A X} (P : rt C S → Prop) (V : rt C S → X) (m : IO C S A) : Prop :=
  ∀ s, P s → ewp False m (λ _ s', P s' ∧ V s' = V s) s.

Section Frames.
Context {C S X : Type} `{World C} (P : rt C S → Prop) (V : rt C S → X).

Lemma frames_ret {A} (a : A) : frames P V (mret a : IO C S A).
Proof. by intros s Hs. Qed.
Lemma frames_bind {A B} (m : IO C S A) (f : A → IO C S B) :
  frames P V m → (∀ a, frames P V (f a)) → frames P V (m ≫= f).
Proof.
  intros Hm Hf s Hs. apply ewp_bind. eapply ewp_mono; [|by apply Hm].
  intros a s' [Hs' Hv]. cbn beta. eapply ewp_mono; [|by apply Hf]. intros b s'' [Hs'' Hv'].
  split; [done|congruence].
Qed.
Lemma frames_if {A} (b : bool) (m1 m2 : IO C S A) :
  frames P V m1 → frames P V m2 → frames P V (if b then m1 else m2).
Proof. by destruct b. Qed.
Lemma frames_when (b : bool) (m : IO C S unit) : frames P V m → frames P V (kwhen b m).
Proof. intros Hm. destruct b; [done|apply frames_ret]. Qed.
Lemma frames_get {A} (f : S → A) : frames P V (kget f).
Proof. by intros s Hs. Qed.
End Frames.

(** ** Invariants of the state

    A computation that keeps [I] as far as it is defined. *)
Definition keeps {C S A} (I : S → Prop) (m : IO C S A) : Prop :=
  ∀ s, I (st s) → ewp True m (λ _ s', I (st s')) s.

Lemma ewp_keeps {C S A} E (I : S → Prop) (m : IO C S A) Q s :
  keeps I m → I (st s) → ewp E m Q s → ewp E m (λ a s', Q a s' ∧ I (st s')) s.
Proof. intros Hm Hs. specialize (Hm s Hs). unfold ewp in *. by destruct (m s) as [[a s']|]. Qed.

Section Keeps.
Context {C S : Type} `{World C} (I : S → Prop).

Lemma keeps_ret {A} (a : A) : keeps I (mret a : IO C S A).
Proof. by intros s Hs. Qed.
Lemma keeps_bind {A B} (m : IO C S A) (f : A → IO C S B) :
  keeps I m → (∀ a, keeps I (f a)) → keeps I (m ≫= f).
Proof.
  intros Hm Hf s Hs. apply ewp_bind. eapply ewp_mono; [|by apply Hm]. intros a s' Hs'. by apply Hf.
Qed.
Lemma keeps_if {A} (b : bool) (m1 m2 : IO C S A) : keeps I m1 → keeps I m2 → keeps I (if b then m1 else m2).
Proof. by destruct b. Qed.
Lemma keeps_when (b : bool) (m : IO C S unit) : keeps I m → keeps I (kwhen b m).
Proof. intros Hm. destruct b; [done|apply keeps_ret]. Qed.
Lemma keeps_get {A} (f : S → A) : keeps (C := C) I (kget f).
Proof. by intros s Hs. Qed.
Lemma keeps_call c : keeps I (kcall_ c).
Proof. by intros s Hs. Qed.
Lemma keeps_mod f : (∀ s, I s → I (f s)) → keeps (C := C) I (kmod f).
Proof. intros Hf s Hs. apply ewp_mod. by apply Hf. Qed.
Lemma keeps_lift {A} (o : outcome A) : keeps (C := C) I (klift o).
Proof. intros s Hs. by apply ewp_lift. Qed.
Lemma keeps_dev_get `{HasDevice S D} {A} (f : D → A) : keeps (C := C) I (get f).
Proof. intros s Hs. unfold get. apply ewp_bind, ewp_deref; [|done]. by intros d Hd. Qed.
Lemma keeps_dev_put `{HasDevice S D} (f : D → D) :
  (∀ s d, dev_of s = Some d → I s → I (put_dev (Some (f d)) s)) → keeps (C := C) I (put f).
Proof. intros Hf s Hs. unfold put. apply ewp_bind, ewp_deref; [|done]. intros d Hd. apply ewp_mod. by apply Hf. Qed.
Lemma keeps_pointer `{HasDevice S D} : keeps (C := C) I pointer.
Proof. intros s Hs. unfold pointer. apply ewp_bind, ewp_deref; [|done]. by intros d Hd. Qed.
Lemma keeps_ub {A} : keeps (C := C) I (kub (A := A)).
Proof. by intros s Hs. Qed.
End Keeps.

Ltac keeps_step :=
  lazymatch goal with
  | |- keeps _ (mret _) => apply keeps_ret
  | |- keeps _ (mbind _ _) => apply keeps_bind; [|intros ?]
  | |- keeps _ (if _ then _ else _) => apply keeps_if
  | |- keeps _ (kwhen _ _) => apply keeps_when
  | |- keeps _ (kget _) => apply keeps_get
  | |- keeps _ (kcall_ _) => apply keeps_call
  | |- keeps _ (klift _) => apply keeps_lift
  | |- keeps _ kub => apply keeps_ub
  | |- keeps _ (kret _) => unfold kret
  | |- keeps _ (kdo _) => unfold kdo
  | |- keeps _ (let '(_, _) := ?x in _) => destruct x eqn:?
  end.

(** A computation that leaves the view [V] as it was, as far as it is defined. *)
Definition leaves {C S A X} (V : rt C S → X) (m : IO C S A) : Prop := ∀ s, ewp True m (λ _ s', V s' = V s) s.

Section Leaves.
Context {C S X : Type} `{World C} (V : rt C S → X).

Lemma leaves_ret {A} (a : A) : leaves V (mret a : IO C S A).
Proof. by intros s. Qed.
Lemma leaves_bind {A B} (m : IO C S A) (f : A → IO C S B) : leaves V m → (∀ a, leaves V (f a)) → leaves V (m ≫= f).
Proof.
  intros Hm Hf s. apply ewp_bind. eapply ewp_mono; [|apply Hm]. intros a s' Hs. cbn beta.
  eapply ewp_mono; [|apply Hf]. intros b s'' Hs'. congruence.
Qed.
Lemma leaves_if {A} (b : bool) (m1 m2 : IO C S A) : leaves V m1 → leaves V m2 → leaves V (if b then m1 else m2).
Proof. by destruct b. Qed.
Lemma leaves_when (b : bool) (m : IO C S unit) : leaves V m → leaves V (kwhen b m).
Proof. intros Hm. destruct b; [done|apply leaves_ret]. Qed.
Lemma leaves_get {A} (f : S → A) : leaves V (kget f).
Proof. by intros s. Qed.
Lemma leaves_call c : (∀ r s, V (mk_rt (calls s ++ [(c, r)]) (st s)) = V s) → leaves V (kcall_ c).
Proof. intros Hc s. apply ewp_call. apply Hc. Qed.
Lemma leaves_mod f : (∀ s, V (mk_rt (calls s) (f (st s))) = V s) → leaves V (kmod f).
Proof. intros Hf s. apply ewp_mod. apply Hf. Qed.
Lemma leaves_lift {A} (o : outcome A) : leaves V (klift o).
Proof. intros s. by apply ewp_lift. Qed.
Lemma leaves_dev_get `{HasDevice S D} {A} (f : D → A) : leaves V (get f).
Proof. intros s. unfold get. apply ewp_bind, ewp_deref; [|done]. by intros d Hd. Qed.
Lemma leaves_dev_put `{HasDevice S D} (f : D → D) :
  (∀ s d, dev_of (st s) = Some d → V (mk_rt (calls s) (put_dev (Some (f d)) (st s))) = V s) → leaves V (put f).
Proof. intros Hf s. unfold put. apply ewp_bind, ewp_deref; [|done]. intros d Hd. apply ewp_mod. by apply Hf. Qed.
Lemma leaves_pointer `{HasDevice S D} : leaves V pointer.
Proof. intros s. unfold pointer. apply ewp_bind, ewp_deref; [|done]. by intros d Hd. Qed.
Lemma leaves_ub {A} : leaves V (kub (A := A)).
Proof. by intros s. Qed.
End Leaves.

Ltac leaves_step :=
  lazymatch goal with
  | |- leaves _ (mret _) => apply leaves_ret
  | |- leaves _ (mbind _ _) => apply leaves_bind; [|intros ?]
  | |- leaves _ (if _ then _ else _) => apply leaves_if
  | |- leaves _ (kwhen _ _) => apply leaves_when
  | |- leaves _ (kget _) => apply leaves_get
  | |- leaves _ (klift _) => apply leaves_lift
  | |- leaves _ kub => apply leaves_ub
  | |- leaves _ (get _) => apply leaves_dev_get
  | |- leaves _ pointer => apply leaves_pointer
  | |- leaves _ (kret _) => unfold kret
  | |- leaves _ (kdo _) => unfold kdo
  | |- leaves _ (let '(_, _) := ?x in _) => destruct x eqn:?
  end.

(** The values a computation can return. *)
Definition returns {C S A} (P : A → Prop) (m : IO C S A) : Prop := ∀ s, ewp True m (λ a _, P a) s.
Lemma returns_ret {C S A} (P : A → Prop) (a : A) : P a → returns (C := C) (S := S) P (mret a).
Proof. by intros Ha s. Qed.
Lemma returns_bind {C S A B} (P : B → Prop) (m : IO C S A) (f : A → IO C S B) :
  (∀ a, returns P (f a)) → returns P (m ≫= f).
Proof.
  intros Hf s. apply ewp_bind. unfold ewp at 1. destruct (m s) as [[a s']|]; [apply Hf|done].
Qed.
Lemma returns_if {C S A} (P : A → Prop) (b : bool) (m1 m2 : IO C S A) :
  returns P m1 → returns P m2 → returns P (if b then m1 else m2).
Proof. by destruct b. Qed.
Lemma ewp_returns {C S A} E (P : A → Prop) (m : IO C S A) (Q : A → rt C S → Prop) s :
  returns P m → ewp E m Q s → ewp E m (λ a s', P a ∧ Q a s') s.
Proof. intros Hp. specialize (Hp s). unfold ewp in *. by destruct (m s) as [[a s']|]. Qed.

(** Splits a program into its primitives. *)
Ltac frames_step :=
  lazymatch goal with
  | |- frames _ _ (mret _) => apply frames_ret
  | |- frames _ _ (mbind _ _) => apply frames_bind; [|intros ?]
  | |- frames _ _ (if _ then _ else _) => apply frames_if
  | |- frames _ _ (kwhen _ _) => apply frames_when
  | |- frames _ _ (kget _) => apply frames_get
  | |- frames _ _ (let '(_, _) := ?x in _) => destruct x
  end.

Arguments line_of : simpl never.
Arguments held : simpl never.
Arguments times : simpl never.
Arguments copied : simpl never.
