(* ===== verification/DnsUtil.v ===== *)
(** * The utilities of dnsmasq (src/external/dnsmasq/src/util.c)

    Names, addresses, hexadecimal text, buffers and the random number generator
    that the DNS and DHCP servers share.  A C string is the list of its
    characters, without the terminator, where the code does not look behind it;
    parse_hex, which writes into its argument and may be given the same memory
    twice, works on offsets into one memory.  char is unsigned, as on ARM;
    HAVE_IPV6 is defined, HAVE_ARC4RANDOM and LOCALEDIR are not. *)
From S2P Require Import Prelude Runtime DriverRt.

Module DnsUtil.
Abbreviation text := (list Z).

(** ** Characters *)
(** the character of a one-character text *)
Definition chr (t : string) : Z := default 0 (List.hd_error (codes t)).
Definition between (lo hi c : Z) : bool := (lo <=? c) && (c <=? hi).
Definition isascii (c : Z) : bool := between 0 127 c.
Definition iscntrl (c : Z) : bool := between 0 31 c || (c =? 127).
Definition is_upper (c : Z) : bool := between 65 90 c.
Definition is_lower (c : Z) : bool := between 97 122 c.
Definition isdigit (c : Z) : bool := between 48 57 c.
Definition isxdigit (c : Z) : bool := isdigit c || between 65 70 c || between 97 102 c.
(** the case folding written out at several places of the program *)
Definition fold (c : Z) : Z := if is_upper c then c + 32 else c.
Definition head (t : text) : Z := match t with c :: _ => c | [] => 0 end.

Definition MAXDNAME : nat := 1025.
Definition MAXLABEL : Z := 63.

(** ** Names *)

(** The loop of check_name: [gap] characters since the last dot, [nowhite] once a
    character was not a blank. *)
Fixpoint check_chars (t : text) (gap : Z) (nowhite : bool) : bool :=
  match t with
  | [] => nowhite
  | c :: t' =>
      if c =? chr "." then check_chars t' 0 nowhite
      else if MAXLABEL <? gap + 1 then false
      else if isascii c && iscntrl c then false
      else if negb (isascii c) then false
      else check_chars t' (gap + 1) (nowhite || negb (c =? chr " "))
  end.
(** The result and the text, which loses a trailing dot. *)
Definition check_name (t : text) : bool * text :=
  let l := length t in
  if (l =? 0)%nat || (MAXDNAME <? l)%nat then (false, t) else
  if List.last t 0 =? chr "." then
    if (l =? 1)%nat then (false, t) else (check_chars (removelast t) 0 false, removelast t)
  else (check_chars t 0 false, t).

Fixpoint legal_label (t : text) : bool :=
  match t with
  | [] => true
  | c :: t' =>
      if is_upper c || is_lower c || isdigit c || (c =? chr "-") || (c =? chr "_") then legal_label t'
      else c =? chr "."
  end.
Definition legal_hostname (name : text) : bool * text :=
  let '(ok, name) := check_name name in
  if negb ok then (false, name) else (legal_label name, name).

(** [room]: whether malloc gives memory.  The canonical name, the text as it is
    afterwards, and *nomem. *)
Definition canonicalise (room : bool) (t : text) : option text * text * bool :=
  let '(ok, t) := check_name t in
  if negb ok then (None, t, false) else
  if room then (Some t, t, false) else (None, t, true).

(** The bytes of a label up to a dot or the end, and the rest *)
Fixpoint label (t : text) : text * text :=
  match t with
  | [] => ([], [])
  | c :: t' => if c =? chr "." then ([], t) else let '(l, rest) := label t' in (c :: l, rest)
  end.
(** [fuel]: at least the length of the text. *)
Fixpoint rfc1035_bytes (fuel : nat) (sval : text) : list Z :=
  match fuel, sval with
  | S fuel', _ :: _ =>
      let '(l, rest) := label sval in
      u8 (Z.of_nat (length l)) :: l ++ rfc1035_bytes fuel' (tail rest)
  | _, _ => []
  end.
(** The bytes stored from p on; a null pointer stores none. *)
Definition do_rfc1035_name (sval : option text) : list Z :=
  match sval with Some t => rfc1035_bytes (length t) t | None => [] end.

Fixpoint hostname_isequal (a b : text) : bool :=
  let c1 := fold (head a) in
  let c2 := fold (head b) in
  if negb (c1 =? c2) then false else
  if c1 =? 0 then true else
  match a with [] => true | _ :: a' => hostname_isequal a' (tail b) end.

(** ** Addresses *)
Inductive mysockaddr :=
| Sin (port addr : Z)
| Sin6 (port : Z) (addr : list Z) (scope : Z)
| SaOther (family : Z).
(** IN6_IS_ADDR_LINKLOCAL *)
Definition linklocal (a : list Z) : bool :=
  (nth 0 a 0 =? 0xfe) && (Z.land (nth 1 a 0) 0xc0 =? 0x80).
Definition sockaddr_isequal (s1 s2 : mysockaddr) : bool :=
  match s1, s2 with
  | Sin p1 a1, Sin p2 a2 => (p1 =? p2) && (a1 =? a2)
  | Sin6 p1 a1 c1, Sin6 p2 a2 c2 =>
      (p1 =? p2) && bool_decide (a1 = a2) && (negb (linklocal a1) || (c1 =? c2))
  | _, _ => false
  end.
Definition sa_len (s : mysockaddr) : Z := match s with Sin6 _ _ _ => 28 | _ => 16 end.
Definition is_same_net (a b mask : Z) : bool := Z.land a mask =? Z.land b mask.

(** ** Hexadecimal text *)
Definition hex_value (c : Z) : Z := if isdigit c then c - 48 else if is_upper c then c - 55 else c - 87.
Fixpoint hex_digits (acc : Z) (t : text) : Z :=
  match t with c :: t' => if isxdigit c then hex_digits (acc * 16 + hex_value c) t' else acc | [] => acc end.
(** strtol(t, NULL, 16): blanks, a sign, 0x, digits; it saturates. *)
Definition strtol16 (t : text) : Z :=
  let skip_0x l := match l with
    | 48 :: x :: l' => if ((x =? chr "x") || (x =? chr "X")) && isxdigit (head l') then l' else l
    | _ => l end in
  let v := match skip_space t with
           | 45 :: l => - hex_digits 0 (skip_0x l)
           | 43 :: l => hex_digits 0 (skip_0x l)
           | l => hex_digits 0 (skip_0x l)
           end in
  Z.max (- 2 ^ 63) (Z.min (2 ^ 63 - 1) v).

Definition rd (m : list Z) (p : nat) : outcome Z := of_option (m !! p).
Definition wr (m : list Z) (p : nat) (v : Z) : outcome (list Z) :=
  if decide (p < length m)%nat then Val (<[p := v]> m) else UB.
(** The C string at [p]. *)
Fixpoint until_nul (m : list Z) : outcome text :=
  match m with [] => UB | c :: m' => if c =? 0 then Val [] else t ← until_nul m'; Val (c :: t) end.
Definition str_at (m : list Z) (p : nat) : outcome text := until_nul (drop p m).

(** for (r = in; *r != 0 && *r != ':' && *r != '-'; r++) *)
Definition is_sep (c : Z) : bool := (c =? 0) || (c =? chr ":") || (c =? chr "-").
Fixpoint scan_sep (m : list Z) (r : nat) : outcome nat :=
  match m with [] => UB | c :: m' => if is_sep c then Val r else scan_sep m' (S r) end.

(** The locals of parse_hex; [want_type]: mac_type is not null. *)
Record hex_state := mk_hex {
  hmem : list Z; h_in : nat; hi : Z; hmax : Z; hmask : Z; want_type : bool; htype : Z
}.
Definition hex_iter (out : nat) (s : hex_state) : outcome hex_state :=
  r ← scan_sep (drop (h_in s) (hmem s)) (h_in s);
  c ← rd (hmem s) r;
  let maxlen := if c =? 0 then hi s else hmax s in
  if (r =? h_in s)%nat then Val (mk_hex (hmem s) (S r) (hi s) maxlen (hmask s) (want_type s) (htype s)) else
  m ← wr (hmem s) r 0;
  t ← str_at m (h_in s);
  if (c =? chr "-") && (hi s =? 0) && want_type s then
    Val (mk_hex m (S r) (hi s) maxlen (hmask s) false (i32 (strtol16 t)))
  else
    mask ← mul_int (hmask s) 2;
    if bool_decide (t = [chr "*"])
    then Val (mk_hex m (S r) (hi s + 1) maxlen (Z.lor mask 1) (want_type s) (htype s))
    else
      m ← wr m (out + Z.to_nat (hi s)) (u8 (strtol16 t));
      Val (mk_hex m (S r) (hi s + 1) maxlen mask (want_type s) (htype s)).
(** [UB] also when the fuel does not suffice. *)
Fixpoint hex_loop (fuel : nat) (out : nat) (s : hex_state) : outcome hex_state :=
  if (hmax s =? -1) || (hi s <? hmax s) then
    match fuel with
    | O => UB
    | S fuel' => s ← hex_iter out s; hex_loop fuel' out s
    end
  else Val s.
(** The number of octets, the wildcard mask, the type and the memory afterwards;
    each turn moves [h_in] up, so the length of the memory is enough fuel. *)
Definition parse_hex (m : list Z) (in_ out : nat) (maxlen : Z) (mac_type : bool) : outcome (Z * Z * Z * list Z) :=
  s ← hex_loop (S (length m)) out (mk_hex m in_ 0 maxlen 0 mac_type 0);
  Val (hi s, hmask s, htype s, hmem s).

(** return 0 for no match, or (no matched octets) + 1: the loop from the last
    octet down, [a] and [b] reversed *)
Fixpoint masked_loop (a b : list Z) (mask count : Z) : Z :=
  match a, b with
  | x :: a', y :: b' =>
      if negb (Z.testbit mask 0) then
        if x =? y then masked_loop a' b' (Z.shiftr mask 1) (count + 1) else 0
      else masked_loop a' b' (Z.shiftr mask 1) count
  | _, _ => count
  end.
Definition memcmp_masked (a b : list Z) (len : nat) (mask : Z) : Z :=
  masked_loop (reverse (take len a)) (reverse (take len b)) mask 1.

Definition hex_char (d : Z) : Z := if d <? 10 then d + 48 else d + 87.
(** "%.2x" of an octet *)
Definition hex2 (b : Z) : text := [hex_char (b / 16); hex_char (b mod 16)].
Fixpoint mac_text (mac : list Z) : text :=
  match mac with
  | [] => []
  | [b] => hex2 b
  | b :: mac' => hex2 b ++ [chr ":"] ++ mac_text mac'
  end.
Definition print_mac (mac : list Z) : text := if (length mac =? 0)%nat then codes "<null>" else mac_text mac.

(** ** Times *)
Definition decimal (x : Z) : text := codes (pretty x).
Definition unit_text (x : Z) (u : Z) : text := if x =? 0 then [] else decimal x ++ [u].
Definition prettyprint_time (t : Z) : text :=
  if t =? 0xffffffff then codes "infinite" else
  unit_text (t / 86400) (chr "d") ++ unit_text ((t / 3600) mod 24) (chr "h") ++
  unit_text ((t / 60) mod 60) (chr "m") ++ unit_text (t mod 60) (chr "s").

(** ** Buffers and descriptors *)
Record iovec := mk_iovec { iov_base : option (list Z); iov_len : nat }.
(** [fresh]: the memory malloc gives, indeterminate. *)
Definition expand_buf (fresh : option (list Z)) (size : nat) (v : iovec) : bool * iovec :=
  if (size <=? iov_len v)%nat then (true, v) else
  match fresh with
  | None => (false, v)
  | Some new =>
      (true, mk_iovec (Some (match iov_base v with
                             | Some old => take (iov_len v) old ++ drop (iov_len v) new
                             | None => new end)) size)
  end.
Definition bump_maxfd (fd max : Z) : Z := if max <? fd then fd else max.

Inductive fdcall :=
| FdOpen (path : string) | FdRead (fd : Z) (n : nat) | FdWrite (fd : Z) (data : list Z) | FdClose (fd : Z)
| Nanosleep (nsec : Z) | Die (text : string).
Definition EAGAIN : Z := 11.
Definition EINTR : Z := 4.
Definition ENOMEM : Z := 12.
Definition ENOBUFS : Z := 105.

(** The static arrays of the random number generator, and outleft *)
Record surf_state := mk_surf { seed : list Z; rin : list Z; rout_ : list Z; outleft : nat }.

Section Transfer.
Context `{W : World fdcall}.
Abbreviation F := (IO fdcall (list Z)).
(** The answer of a failed call is -1 - errno. *)
Definition retry_send (errno : Z) : F bool :=
  if errno =? EAGAIN then kdo (Nanosleep 10000) ;; mret true
  else mret (errno =? EINTR).
(** The state is the packet; [None]: still retrying after [fuel] calls. *)
Fixpoint read_write (fuel : nat) (fd : Z) (size : nat) (rw : bool) (done : nat) : F (option bool) :=
  if (size <=? done)%nat then mret (Some true) else
  match fuel with
  | O => mret None
  | S fuel' =>
      packet ← kget id;
      r ← kcall_ (if rw then FdRead fd (size - done) else FdWrite fd (sub done (size - done) packet));
      let n := rret r in
      if n =? 0 then mret (Some false)
      else if n <? 0 then
        let errno := - 1 - n in
        again ← retry_send errno;
        if (again : bool) || (errno =? ENOMEM) || (errno =? ENOBUFS) then read_write fuel' fd size rw done
        else mret (Some false)
      else
        (if rw then kmod (patch done (take (Z.to_nat n) (rout r))) else mret tt) ;;
        read_write fuel' fd size rw (done + Z.to_nat n)
  end.

(** rand_init: the seed and the counter from RANDFILE, each read into its array;
    [Some false]: it died, [None]: the reads still retry. *)
Definition zoom {S A} (buf : list Z) (m : F A) : IO fdcall S (A * list Z) := λ s,
  match m (mk_rt (calls s) buf) with
  | Val (a, s') => Val ((a, st s'), mk_rt (calls s') (st s))
  | UB => UB
  end.
Fixpoint words (n : nat) (bs : list Z) : list Z :=
  match n with O => [] | S n' => le_load (take 4 bs) :: words n' (drop 4 bs) end.
Definition rand_init (fuel : nat) : IO fdcall surf_state (option bool) :=
  let fail := kdo (Die "failed to seed the random number generator: %s") ;; mret (Some false) in
  fd ← kret (FdOpen "/dev/urandom");
  if fd =? -1 then fail else
  r ← zoom (repeat 0 128) (read_write fuel fd 128 true 0);
  match r.1 with
  | None => mret None
  | Some false => fail
  | Some true =>
      kmod (λ s, mk_surf (words 32 r.2) (rin s) (rout_ s) (outleft s)) ;;
      r ← zoom (repeat 0 48) (read_write fuel fd 48 true 0);
      match r.1 with
      | None => mret None
      | Some false => fail
      | Some true =>
          kmod (λ s, mk_surf (seed s) (words 12 r.2) (rout_ s) (outleft s)) ;;
          kdo (FdClose fd) ;; mret (Some true)
      end
  end.
End Transfer.

(** ** The SURF generator *)
Definition ROTATE (x b : Z) : Z := Z.lor (u32 (Z.shiftl x b)) (Z.shiftr x (32 - b)).
Definition MUSH (sd : list Z) (sum : Z) (tx : list Z * Z) (ib : nat * Z) : list Z * Z :=
  let '(t, x) := tx in
  let '(i, b) := ib in
  let v := u32 (nth i t 0 + Z.lxor (u32 (Z.lxor x (nth i sd 0) + sum)) (ROTATE x b)) in
  (<[i := v]> t, v).
Definition mushes : list (nat * Z) :=
  zip_with pair (seq 0 12) [5; 7; 9; 13; 5; 7; 9; 13; 5; 7; 9; 13].
Fixpoint surf_rounds (n : nat) (sd : list Z) (tx : list Z * Z) (sum : Z) : (list Z * Z) * Z :=
  match n with
  | O => (tx, sum)
  | S n' => let sum := u32 (sum + 0x9e3779b9) in surf_rounds n' sd (foldl (MUSH sd sum) tx mushes) sum
  end.
Definition surf (s : surf_state) : list Z :=
  let t := zip_with Z.lxor (rin s) (sub 12 12 (seed s)) in
  let out := sub 24 8 (seed s) in
  let '(tx, sum) := surf_rounds 16 (seed s) (t, nth 11 t 0) 0 in
  let out := zip_with Z.lxor out (sub 4 8 tx.1) in
  let '(tx, sum) := surf_rounds 16 (seed s) tx sum in
  zip_with Z.lxor out (sub 4 8 tx.1).
(** if (!++in[0]) if (!++in[1]) if (!++in[2]) ++in[3] *)
Fixpoint bump (n : nat) (l : list Z) : list Z :=
  match n, l with
  | S n', x :: l' => let x := u32 (x + 1) in if x =? 0 then x :: bump n' l' else x :: l'
  | _, _ => l
  end.
Definition rand16 (s : surf_state) : Z * surf_state :=
  let s := match outleft s with
           | O => let s := mk_surf (seed s) (bump 4 (rin s)) (rout_ s) O in
                  mk_surf (seed s) (rin s) (surf s) 8
           | S _ => s end in
  let left := pred (outleft s) in
  (u16 (nth left (rout_ s) 0), mk_surf (seed s) (rin s) (rout_ s) left).

(** ** Names: what is accepted *)

(** the texts between the dots *)
Fixpoint labels (t : text) : list text :=
  match t with
  | [] => [[]]
  | c :: t' =>
      let ls := labels t' in
      if c =? chr "." then [] :: ls else (c :: List.hd [] ls) :: List.tl ls
  end.
Definition printable (c : Z) : Prop := 32 ≤ c < 127.
Definition hostchar (c : Z) : Prop :=
  65 ≤ c ≤ 90 ∨ 97 ≤ c ≤ 122 ∨ 48 ≤ c ≤ 57 ∨ c = 45 ∨ c = 95.
Definition short (l : text) : Prop := Z.of_nat (length l) ≤ MAXLABEL.
(** a character that is neither a dot nor a blank *)
Definition solid (c : Z) : Prop := c ≠ chr "." ∧ c ≠ chr " ".
(** the text without a trailing dot *)
Definition undot (t : text) : text := if List.last t 0 =? chr "." then removelast t else t.

Lemma check_chars_spec t gap nowhite :
  gap ≤ MAXLABEL →
  check_chars t gap nowhite = true ↔
  gap + Z.of_nat (length (List.hd [] (labels t))) ≤ MAXLABEL ∧ Forall short (List.tl (labels t)) ∧
  Forall printable t ∧ (nowhite = true ∨ Exists solid t).
Proof.
  revert gap nowhite. unfold MAXLABEL, solid, short, printable.
  induction t as [|c t IH]; intros gap nowhite Hgap; cbn [check_chars labels List.hd List.tl length].
  { split; [intros ->; repeat split; auto; lia|]. intros (_ & _ & _ & [H|H]); [done|inversion H]. }
  rewrite Exists_cons, Forall_cons. change (chr ".") with 46 in *. change (chr " ") with 32 in *.
  destruct (Z.eqb_spec c 46) as [->|Hc].
  { rewrite IH by (unfold MAXLABEL; lia). cbn [List.hd List.tl length].
    destruct (labels t) as [|l ls] eqn:Hl; [destruct t; cbn in Hl; repeat case_match; done|].
    cbn [List.hd List.tl]. rewrite Forall_cons. unfold MAXLABEL.
    intuition lia. }
  cbn [List.hd List.tl length]. unfold MAXLABEL, isascii, iscntrl, between in *.
  destruct (Z.ltb_spec 63 (gap + 1)); [split; [done|intros (? & _); lia]|].
  match goal with |- (if ?b then _ else _) = _ ↔ _ => destruct b eqn:Ha end.
  { split; [done|intros (_ & _ & [? _] & _); lia]. }
  match goal with |- (if ?b then _ else _) = _ ↔ _ => destruct b eqn:Hb end.
  { split; [done|intros (_ & _ & [? _] & _); lia]. }
  rewrite IH by lia. rewrite orb_true_iff, negb_true_iff, Z.eqb_neq.
  assert (32 ≤ c < 127) by lia.
  rewrite Nat2Z.inj_succ. intuition lia.
Qed.

Lemma removelast_length (t : text) : t ≠ [] → length (removelast t) = pred (length t).
Proof.
  intros Hne. rewrite (app_removelast_last 0 Hne) at 2. rewrite length_app. cbn. lia.
Qed.

Lemma pair_true (b : bool) (t : text) : (b, t) = (true, t) ↔ b = true.
Proof. split; [by intros [=]|by intros ->]. Qed.

Lemma check_name_spec t :
  check_name t = (true, undot t) ↔
  t ≠ [] ∧ t ≠ [chr "."] ∧ (length t ≤ MAXDNAME)%nat ∧ Forall short (labels (undot t)) ∧
  Forall printable (undot t) ∧ Exists solid (undot t).
Proof.
  assert (Hcc : ∀ u, check_chars u 0 false = true ↔
    Forall short (labels u) ∧ Forall printable u ∧ Exists solid u).
  { intros u. rewrite check_chars_spec by (unfold MAXLABEL; lia).
    destruct (labels u) as [|l ls] eqn:Hl; [destruct u; cbn in Hl; repeat case_match; done|].
    rewrite Forall_cons. unfold short at 2. cbn [List.hd List.tl]. intuition lia. }
  unfold check_name, undot.
  destruct (Nat.eqb_spec (length t) 0) as [H0|H0]; cbn [orb].
  { apply nil_length_inv in H0 as ->. split; [done|naive_solver]. }
  assert (t ≠ []) by (by intros ->).
  destruct (Nat.ltb_spec MAXDNAME (length t)); [split; [done|intros (_ & _ & ? & _); lia]|].
  destruct (Z.eqb_spec (List.last t 0) (chr ".")) as [Hl|Hl].
  - destruct (Nat.eqb_spec (length t) 1) as [Hn|Hn].
    + destruct t as [|c [|]]; try done. cbn in Hl. subst. split; [done|naive_solver].
    + assert (t ≠ [chr "."]) by (by intros ->). rewrite <- Hcc, pair_true. tauto.
  - assert (t ≠ [chr "."]) by (by intros ->). rewrite <- Hcc, pair_true. tauto.
Qed.

Lemma legal_label_spec t :
  Forall printable t → legal_label t = true ↔ Forall hostchar (List.hd [] (labels t)).
Proof.
  unfold printable, hostchar. induction 1 as [|c t Hc Ht IH]; cbn [legal_label labels List.hd]; [done|].
  unfold is_upper, is_lower, isdigit, between.
  change (chr "-") with 45. change (chr "_") with 95. change (chr ".") with 46.
  destruct (Z.eqb_spec c 46) as [->|Hd]; [done|]. cbn [List.hd]. rewrite Forall_cons.
  destruct (_ || _) eqn:He.
  - rewrite IH. split; [intros ?; split; [lia|done]|naive_solver].
  - split; [done|]. intros [? _]. lia.
Qed.

(** legal_hostname accepts exactly the names, with or without a final dot, that
    are not empty, have at most MAXDNAME characters, labels of at most 63 of them,
    only printable ASCII characters and not only dots and blanks, and whose first
    label, the host's own, has letters, digits, hyphens and underscores only. *)
Theorem legal_hostname_spec (t : text) :
  (legal_hostname t).1 = true ↔
  t ≠ [] ∧ t ≠ [chr "."] ∧ (length t ≤ MAXDNAME)%nat ∧
  Forall short (labels (undot t)) ∧ Forall printable (undot t) ∧ Exists solid (undot t) ∧
  Forall hostchar (List.hd [] (labels (undot t))).
Proof.
  unfold legal_hostname. destruct (check_name t) as [ok u] eqn:Hc.
  assert (Hu : ok = true → u = undot t).
  { unfold check_name in Hc. unfold undot. intros ->. repeat case_match; congruence. }
  destruct ok; cbn.
  - rewrite (Hu eq_refl) in *. apply check_name_spec in Hc as (? & ? & ? & ? & ? & ?).
    rewrite legal_label_spec by done. tauto.
  - split; [done|]. intros (H1 & H2 & H3 & H4 & H5 & H6 & _).
    assert (check_name t = (true, undot t)) as Hx by (by apply check_name_spec). congruence.
Qed.

(** ** Names: comparison *)
Lemma fold_zero c : fold c = 0 ↔ c = 0.
Proof. unfold fold, is_upper, between. split_guards. Qed.

Lemma hostname_isequal_fold (a b : text) :
  Forall (λ c, c ≠ 0) a → Forall (λ c, c ≠ 0) b →
  hostname_isequal a b = bool_decide (map fold a = map fold b).
Proof.
  intros Ha. revert b. induction Ha as [|c a Hc Ha IH]; intros b Hb.
  - destruct Hb as [|d b Hd Hb]; cbn [hostname_isequal head map]; [by rewrite bool_decide_eq_true_2|].
    rewrite (bool_decide_eq_false_2 _) by done.
    destruct (Z.eqb_spec (fold 0) (fold d)) as [H|H]; [|done].
    rewrite <- fold_zero in Hd. by rewrite <- H in Hd.
  - cbn [hostname_isequal head map].
    rewrite <- fold_zero in Hc. destruct (Z.eqb_spec (fold c) 0) as [|_]; [done|].
    destruct Hb as [|d b Hd Hb]; cbn [map head tail].
    + rewrite (bool_decide_eq_false_2 _) by done. by destruct (Z.eqb_spec (fold c) (fold 0)).
    + destruct (Z.eqb_spec (fold c) (fold d)) as [->|H]; cbn [negb].
      * rewrite IH by done. apply bool_decide_ext. split; [by intros ->|by intros [= ->]].
      * rewrite bool_decide_eq_false_2; [done|]. by intros [= ? _].
Qed.
(** ** Octet patterns

    A pattern is octets and wildcards; its text is what dhcp-host lines and
    print_mac write. *)
Abbreviation pattern := (list (option Z)).
Definition octet_text (o : option Z) : text := match o with Some b => hex2 b | None => [chr "*"] end.
Fixpoint pattern_text (p : pattern) : text :=
  match p with
  | [] => []
  | [o] => octet_text o
  | o :: p' => octet_text o ++ [chr ":"] ++ pattern_text p'
  end.
Definition wild (o : option Z) : Z := match o with Some _ => 0 | None => 1 end.
(** the mask of a pattern, the bit of the last octet lowest *)
Definition wildmask (p : pattern) : Z := foldl (λ m o, 2 * m + wild o) 0 p.
Definition matches (o : option Z) (b : Z) : Prop := o = None ∨ o = Some b.

(** A decidable fact about the bytes, by evaluation. *)
Lemma every_byte (f : Z → bool) : forallb f (seqZ 0 256) = true → ∀ b, is_u8 b → f b = true.
Proof.
  intros Hall b Hb. rewrite forallb_forall in Hall. apply Hall.
  rewrite <- list_elem_of_In, elem_of_seqZ. unfold is_u8 in Hb. lia.
Qed.
Lemma hex2_ok b : is_u8 b → strtol16 (hex2 b) = b ∧ Forall (λ c, is_sep c = false) (hex2 b).
Proof.
  intros Hb. apply (every_byte (λ b, (strtol16 (hex2 b) =? b) && forallb (negb ∘ is_sep) (hex2 b))) in Hb; [|by vm_compute].
  apply andb_true_iff in Hb as [?%Z.eqb_eq Hs]. split; [done|].
  rewrite forallb_forall in Hs. apply Forall_forall. intros c Hc%list_elem_of_In.
  apply negb_true_iff, Hs, Hc.
Qed.
Definition octet (o : option Z) : Prop := match o with Some b => is_u8 b | None => True end.

Lemma wr_Val m p v : (p < length m)%nat → wr m p v = Val (<[p := v]> m).
Proof. intros Hp. unfold wr. by rewrite decide_True. Qed.

(** *** One turn of the loop of parse_hex *)
Lemma octet_text_ok o : octet o → Forall (λ c, is_sep c = false) (octet_text o) ∧ octet_text o ≠ [].
Proof.
  destruct o as [b|]; [|by repeat constructor]. intros Hb. split; [by apply hex2_ok|done].
Qed.
Lemma scan_sep_at t c tl r :
  Forall (λ c, is_sep c = false) t → is_sep c = true → scan_sep (t ++ c :: tl) r = Val (r + length t)%nat.
Proof.
  intros Ht Hc. revert r. induction Ht as [|d t Hd _ IH]; intros r; cbn [scan_sep app length].
  - rewrite Hc. f_equal. lia.
  - rewrite Hd, IH. f_equal. lia.
Qed.
Lemma until_nul_app t tl : Forall (λ c, c ≠ 0) t → until_nul (t ++ 0 :: tl) = Val t.
Proof.
  induction 1 as [|c t Hc _ IH]; cbn [until_nul app]; [done|].
  destruct (Z.eqb_spec c 0); [done|]. by rewrite IH.
Qed.
Lemma sep_nonzero t : Forall (λ c, is_sep c = false) t → Forall (λ c, c ≠ 0) t.
Proof. intros Ht. eapply Forall_impl; [exact Ht|]. by intros c Hc ->. Qed.

(** The memory before the turn is [pre ++ X ++ octet_text o ++ c :: tl], with the
    octets so far at the start of [X]. *)
Definition turn_mem (o : option Z) (i : nat) (X : list Z) : list Z :=
  let X' := X ++ octet_text o ++ [0] in match o with Some b => <[i := b]> X' | None => X' end.
Lemma hex_iter_octet pre X o c tl i maxl mask wt ty :
  octet o → (i ≤ length X)%nat → c = chr ":" ∨ c = 0 → 0 ≤ mask < 2 ^ 30 →
  hex_iter (length pre) (mk_hex (pre ++ X ++ octet_text o ++ c :: tl) (length pre + length X) (Z.of_nat i) maxl mask wt ty)
  = Val (mk_hex (pre ++ turn_mem o i X ++ tl) (length pre + length X + length (octet_text o) + 1) (Z.of_nat i + 1)
          (if c =? 0 then Z.of_nat i else maxl) (2 * mask + wild o) wt ty).
Proof.
  intros Ho Hi Hc Hm. destruct (octet_text_ok o Ho) as [Hsep Hne].
  set (p := (length pre + length X)%nat). set (r := (p + length (octet_text o))%nat).
  assert (Hdrop : ∀ y z, drop p (pre ++ X ++ octet_text o ++ y :: z) = octet_text o ++ y :: z).
  { intros y z. rewrite app_assoc. apply drop_app_length'. rewrite length_app. done. }
  assert (Hat : (pre ++ X ++ octet_text o ++ c :: tl) !! r = Some c).
  { rewrite !app_assoc. apply list_lookup_middle. rewrite !length_app. unfold r, p. lia. }
  assert (Hput : <[r := 0]> (pre ++ X ++ octet_text o ++ c :: tl) = pre ++ X ++ octet_text o ++ 0 :: tl).
  { rewrite (app_assoc X), app_assoc. replace r with (length (pre ++ X ++ octet_text o) + 0)%nat
      by (rewrite !length_app; unfold r, p; lia).
    rewrite insert_app_r. cbn. by rewrite <- !app_assoc. }
  assert (Hlen : (r < length (pre ++ X ++ octet_text o ++ c :: tl))%nat).
  { apply lookup_lt_Some in Hat. done. }
  unfold hex_iter; cbn [hmem h_in hi hmax hmask want_type htype].
  rewrite Hdrop, scan_sep_at by (done || by destruct Hc as [-> | ->]). fold r. cbn [mbind outcome_mbind outcome_bind].
  unfold rd. rewrite Hat. cbn [of_option mbind outcome_mbind outcome_bind].
  destruct (Nat.eqb_spec r p) as [Hrp|_]; [destruct (octet_text o); [done|cbn in r; lia]|].
  rewrite (wr_Val _ r) by done. rewrite Hput. cbn [mbind outcome_mbind outcome_bind].
  unfold str_at. rewrite Hdrop, until_nul_app by (by apply sep_nonzero). cbn [mbind outcome_mbind outcome_bind].
  destruct (Z.eqb_spec c (chr "-")) as [->|_]; [by destruct Hc|]. cbn [andb].
  unfold mul_int. rewrite (proj2 (andb_true_iff _ _)) by lia. cbn [mbind outcome_mbind outcome_bind].
  unfold turn_mem. destruct o as [b|]; cbn [octet_text wild].
  - rewrite bool_decide_eq_false_2 by done.
    rewrite Nat2Z.id, wr_Val by (revert Hlen; cbn; rewrite !length_app; cbn; lia).
    cbn [mbind outcome_mbind outcome_bind]. rewrite (proj1 (hex2_ok b Ho)).
    unfold u8. rewrite Z.mod_small by (by destruct Ho). rewrite insert_app_r.
    replace (X ++ hex2 b ++ 0 :: tl) with ((X ++ hex2 b ++ [0]) ++ tl) by (by rewrite <- !app_assoc).
    rewrite insert_app_l by (rewrite !length_app; cbn; lia).
    do 2 f_equal; unfold r, p; cbn; lia.
  - rewrite bool_decide_eq_true_2 by done. rewrite <- !app_assoc. do 2 f_equal.
    + unfold r, p. cbn. lia.
    + rewrite (Z.mul_comm mask 2). destruct mask; [done|done|lia].
Qed.
Lemma wildmask_bound m p : 0 ≤ m → m < 2 ^ (30 - Z.of_nat (length p)) → (length p ≤ 30)%nat →
  0 ≤ foldl (λ m o, 2 * m + wild o) m p ≤ 2 ^ 30 - 1.
Proof.
  revert m. induction p as [|o p IH]; intros m H0 Hm Hp; cbn [foldl length] in *; [lia|].
  apply IH; [destruct o; cbn; lia| |lia].
  replace (30 - Z.of_nat (length p)) with (Z.succ (30 - Z.of_nat (S (length p)))) by lia.
  rewrite Z.pow_succ_r by lia. destruct o; cbn; lia.
Qed.

Lemma length_turn_mem o i X : length (turn_mem o i X) = (length X + length (octet_text o) + 1)%nat.
Proof. unfold turn_mem. destruct o; rewrite ?length_insert, !length_app; cbn; lia. Qed.
Lemma turn_mem_old o i X j : (j < i ≤ length X)%nat → turn_mem o i X !! j = X !! j.
Proof.
  intros Hj. unfold turn_mem. destruct o; rewrite ?list_lookup_insert_ne by lia; by rewrite lookup_app_l by lia.
Qed.
Lemma turn_mem_new b i X : (i ≤ length X)%nat → turn_mem (Some b) i X !! i = Some b.
Proof. intros Hi. unfold turn_mem. apply list_lookup_insert_eq. rewrite !length_app. cbn. lia. Qed.

Lemma hex_loop_pattern pat fuel pre X i maxl mask wt ty post :
  pat ≠ [] → Forall octet pat → (i ≤ length X)%nat → (length pat ≤ fuel)%nat →
  maxl = -1 ∨ Z.of_nat (i + length pat) ≤ maxl →
  0 ≤ mask < 2 ^ (30 - Z.of_nat (length pat)) → (length pat ≤ 30)%nat →
  ∃ X' e, hex_loop fuel (length pre)
            (mk_hex (pre ++ X ++ pattern_text pat ++ 0 :: post) (length pre + length X) (Z.of_nat i) maxl mask wt ty)
        = Val (mk_hex (pre ++ X' ++ post) e (Z.of_nat (i + length pat))
                 (Z.of_nat (i + length pat) - 1) (foldl (λ m o, 2 * m + wild o) mask pat) wt ty) ∧
    (length pat + length X < length X')%nat ∧ (∀ j, (j < i)%nat → X' !! j = X !! j) ∧
    (∀ j b, pat !! j = Some (Some b) → X' !! (i + j)%nat = Some b).
Proof.
  revert fuel X i maxl mask. induction pat as [|o pat IH]; intros fuel X i maxl mask Hne Ho Hi Hf Hmax Hm Hl; [done|].
  inversion Ho as [|?? Ho1 Ho2]; subst. destruct fuel as [|fuel]; [cbn in Hf; lia|].
  cbn [length] in *. assert (Hm' : 0 ≤ mask < 2 ^ 30).
  { split; [lia|]. eapply Z.lt_le_trans; [apply Hm|]. apply Z.pow_le_mono_r; lia. }
  assert (Hot : (1 ≤ length (octet_text o))%nat) by (destruct o; cbn; lia).
  cbn [hex_loop hmax hi]. rewrite (proj2 (orb_true_iff _ _)) by (destruct Hmax; lia).
  destruct pat as [|o2 pat].
  - cbn [pattern_text]. rewrite hex_iter_octet by auto. cbn [mbind outcome_mbind outcome_bind Z.eqb].
    destruct fuel; cbn [hex_loop hmax hi].
    all: rewrite (proj2 (orb_false_iff _ _)) by lia.
    all: eexists _, _; split; [do 2 f_equal; cbn; try lia|].
    all: split; [rewrite length_turn_mem; cbn; lia|split; [intros; apply turn_mem_old; lia|]].
    all: intros [|j] b [=]; subst; rewrite Nat.add_0_r; by apply turn_mem_new.
  - replace (pattern_text (o :: o2 :: pat)) with (octet_text o ++ [chr ":"] ++ pattern_text (o2 :: pat)) by done.
    rewrite <- !app_assoc. cbn [app]. rewrite hex_iter_octet by auto. cbn [mbind outcome_mbind outcome_bind].
    change (chr ":" =? 0) with false. cbn match.
    destruct (IH fuel (turn_mem o i X) (S i) maxl (2 * mask + wild o)) as (X' & e & Hrun & Hlen & Hold & Hnew); auto.
    + rewrite length_turn_mem. lia.
    + cbn in *. lia.
    + cbn in *. lia.
    + cbn [length] in *. replace (30 - Z.of_nat (S (length pat))) with (Z.succ (30 - Z.of_nat (S (S (length pat))))) by lia.
      rewrite Z.pow_succ_r by lia. destruct o; cbn [wild]; lia.
    + cbn in *. lia.
    + exists X', e. rewrite length_turn_mem in Hrun, Hlen. split; [|split_and!].
      * etransitivity; [|etransitivity; [exact Hrun|]]; do 2 f_equal; cbn; lia.
      * cbn in *. lia.
      * intros j Hj. rewrite Hold by lia. apply turn_mem_old. lia.
      * intros [|j] b Hb.
        -- cbn in Hb. simplify_eq. rewrite Nat.add_0_r, Hold by lia. by apply turn_mem_new.
        -- rewrite Nat.add_succ_r. by apply (Hnew j).
Qed.

Lemma wildmask_app p o : wildmask (p ++ [o]) = 2 * wildmask p + wild o.
Proof. unfold wildmask. by rewrite foldl_app. Qed.
(** the octets that must agree *)
Definition exact (p : pattern) : nat := length (omap id p).

Lemma masked_loop_pattern p m mac count :
  length m = length p → length mac = length p → (∀ j b, p !! j = Some (Some b) → m !! j = Some b) →
  masked_loop (reverse m) (reverse mac) (wildmask p) count =
  if decide (Forall2 matches p mac) then count + Z.of_nat (exact p) else 0.
Proof.
  revert m mac count. induction p as [|o p IH] using rev_ind; intros m mac count Hm Hc Hp.
  { destruct m, mac; try done. rewrite decide_True by constructor. cbn. lia. }
  rewrite !length_app in Hm, Hc. cbn in Hm, Hc.
  destruct m as [|x m _] using rev_ind; [cbn in Hm; lia|].
  destruct mac as [|y mac _] using rev_ind; [cbn in Hc; lia|].
  rewrite !length_app in Hm, Hc. cbn in Hm, Hc. rewrite !reverse_snoc, wildmask_app. cbn [masked_loop].
  assert (Hp' : ∀ j b, p !! j = Some (Some b) → m !! j = Some b).
  { intros j b Hj. pose proof (lookup_lt_Some _ _ _ Hj).
    rewrite <- (Hp j b), lookup_app_l by (rewrite ?lookup_app_l; lia || done). done. }
  assert (Hlast : ∀ b, o = Some b → x = b).
  { intros b ->. specialize (Hp (length p) b). rewrite !list_lookup_middle in Hp by lia. naive_solver. }
  assert (Hd : Forall2 matches (p ++ [o]) (mac ++ [y]) ↔ Forall2 matches p mac ∧ matches o y).
  { split.
    - intros [? Hl]%Forall2_app_inv; [|lia]. by inversion Hl.
    - intros [? ?]. apply Forall2_app; [done|]. by apply Forall2_cons. }
  unfold exact. rewrite omap_app, length_app. fold (exact p).
  replace (2 * wildmask p + wild o) with (wild o + wildmask p * 2) by lia.
  assert (Hsh : Z.shiftr (wild o + wildmask p * 2) 1 = wildmask p).
  { rewrite Z.shiftr_div_pow2 by lia. change (2 ^ 1) with 2. rewrite Z.div_add by lia. by destruct o. }
  rewrite Hsh, Z.bit0_odd, (Z.mul_comm (wildmask p)), Z.odd_add_mul_2.
  destruct o as [b|]; cbn [wild Z.odd negb omap list_omap length id].
  - rewrite (Hlast b eq_refl) in *. destruct (Z.eqb_spec b y) as [->|Hby].
    + rewrite IH by (done || lia). destruct (decide (Forall2 matches p mac)) as [Hf|Hf].
      * rewrite decide_True; [lia|]. apply Hd. split; [done|by right].
      * rewrite decide_False; [done|]. by rewrite Hd; intros [? _].
    + rewrite decide_False; [done|]. rewrite Hd. intros [_ [?|[=]]]; done.
  - rewrite IH by (done || lia). destruct (decide (Forall2 matches p mac)) as [Hf|Hf].
    + rewrite decide_True; [lia|]. apply Hd. split; [done|by left].
    + rewrite decide_False; [done|]. by rewrite Hd; intros [? _].
Qed.

Lemma length_pattern_text p : (length p ≤ length (pattern_text p))%nat.
Proof.
  induction p as [|o [|o2 p] IH]; [cbn; lia|destruct o; cbn; lia|].
  change (pattern_text (o :: o2 :: p)) with (octet_text o ++ [chr ":"] ++ pattern_text (o2 :: p)).
  rewrite !length_app. destruct o; cbn [length octet_text hex2] in *; lia.
Qed.
(** The run of parse_hex on a pattern, in place. *)
Lemma parse_hex_run pre pat post maxl wt :
  pat ≠ [] → Forall octet pat → (length pat ≤ 30)%nat → maxl = -1 ∨ Z.of_nat (length pat) ≤ maxl →
  ∃ m', parse_hex (pre ++ pattern_text pat ++ 0 :: post) (length pre) (length pre) maxl wt
          = Val (Z.of_nat (length pat), wildmask pat, 0, m') ∧
    length (sub (length pre) (length pat) m') = length pat ∧
    ∀ j b, pat !! j = Some (Some b) → sub (length pre) (length pat) m' !! j = Some b.
Proof.
  intros Hne Ho Hl Hmax. pose proof (length_pattern_text pat).
  destruct (hex_loop_pattern pat (S (length (pre ++ pattern_text pat ++ 0 :: post))) pre [] 0 maxl 0 wt 0 post)
    as (X' & e & Hrun & Hlen & _ & Hnew); auto.
  { rewrite !length_app. lia. }
  { split; [lia|]. apply Z.pow_pos_nonneg; lia. }
  exists (pre ++ X' ++ post). unfold parse_hex. cbn [app length] in Hrun. rewrite Nat.add_0_r in Hrun. change (Z.of_nat 0) with 0 in Hrun. rewrite Hrun.
  split; [done|]. cbn in Hlen. unfold sub. rewrite drop_app_length. split.
  - rewrite length_take, length_app. lia.
  - intros j b Hj. pose proof (lookup_lt_Some _ _ _ Hj). rewrite lookup_take_lt by lia.
    rewrite lookup_app_l by lia. by apply Hnew.
Qed.

(** A hardware address pattern in a text, bytes in hexadecimal and stars
    separated by colons, is parsed in place by parse_hex into its length and the mask
    of its stars, without a hardware type and inside the text; and memcmp_masked of
    what was parsed with an address of that length is 0 when they differ in a byte
    that is not a star and else one more than the number of bytes that had to agree. *)
Theorem parse_hex_pattern (pre post : list Z) (pat : pattern) (maxl : Z) (mac_type : bool) :
  pat ≠ [] → Forall octet pat → (length pat ≤ 30)%nat → maxl = -1 ∨ Z.of_nat (length pat) ≤ maxl →
  ∃ m', parse_hex (pre ++ pattern_text pat ++ 0 :: post) (length pre) (length pre) maxl mac_type
          = Val (Z.of_nat (length pat), wildmask pat, 0, m') ∧
    ∀ mac, length mac = length pat →
      memcmp_masked (sub (length pre) (length pat) m') mac (length pat) (wildmask pat) =
      if decide (Forall2 matches pat mac) then 1 + Z.of_nat (exact pat) else 0.
Proof.
  intros Hne Ho Hl Hmax.
  destruct (parse_hex_run pre pat post maxl mac_type) as (m' & Hrun & Hlen & Hnew); auto.
  exists m'. split; [done|]. intros mac Hmac. unfold memcmp_masked.
  rewrite !take_ge by lia. by apply masked_loop_pattern.
Qed.
Lemma parse_hex_pattern_witness :
  ∃ m', parse_hex (codes "aa:*:0f" ++ [0]) 0 0 16 true = Val (3, 2, 0, m') ∧
    memcmp_masked (sub 0 3 m') [0xaa; 7; 0x0f] 3 2 = 3 ∧ memcmp_masked (sub 0 3 m') [0xaa; 7; 0x0e] 3 2 = 0.
Proof.
  destruct (parse_hex_pattern [] [] [Some 0xaa; None; Some 0x0f] 16 true) as (m' & Hrun & Hm).
  - done.
  - repeat constructor; unfold is_u8; lia.
  - cbn; lia.
  - right; cbn; lia.
  - exists m'. split; [exact Hrun|]. split.
    + exact (Hm [0xaa; 7; 0x0f] eq_refl).
    + exact (Hm [0xaa; 7; 0x0e] eq_refl).
Defined.

Lemma mac_text_pattern mac : mac_text mac = pattern_text (Some <$> mac).
Proof. induction mac as [|b [|b2 mac] IH]; [done|done|]. cbn [mac_text fmap list_fmap] in *. by rewrite IH. Qed.

(** An address printed by print_mac is read back by parse_hex byte for byte, with
    no stars and no type, up to the 30 bytes that the mask has bits for. *)
Theorem print_mac_parse_hex (pre post mac : list Z) :
  mac ≠ [] → bytes mac → (length mac ≤ 30)%nat →
  ∃ m', parse_hex (pre ++ print_mac mac ++ 0 :: post) (length pre) (length pre) (-1) false
          = Val (Z.of_nat (length mac), 0, 0, m') ∧ sub (length pre) (length mac) m' = mac.
Proof.
  intros Hne Hb Hl. unfold print_mac.
  destruct (Nat.eqb_spec (length mac) 0) as [?%nil_length_inv|_]; [done|]. rewrite mac_text_pattern.
  destruct (parse_hex_run pre (Some <$> mac) post (-1) false) as (m' & Hrun & Hlen & Hnew).
  - by destruct mac.
  - apply Forall_fmap. eapply Forall_impl; [exact Hb|]. done.
  - by rewrite length_fmap.
  - by left.
  - rewrite length_fmap in *. exists m'. split.
    + rewrite Hrun. do 4 f_equal. clear. unfold wildmask.
      assert (∀ m, m = 0 → foldl (λ m o, 2 * m + wild o) m (Some <$> mac) = 0) as ->; [|done..].
      induction mac as [|b mac IH]; intros m ->; cbn; [done|]. by apply IH.
    + apply list_eq_same_length with (n := length mac); [done|done|]. intros j x y Hj Hx Hy.
      specialize (Hnew j y). rewrite list_lookup_fmap, Hy in Hnew. specialize (Hnew eq_refl). congruence.
Qed.
Lemma print_mac_parse_hex_witness :
  ∃ m', parse_hex (print_mac [0; 0x1e; 0xff] ++ [0; 9]) 0 0 (-1) false = Val (3, 0, 0, m') ∧
    sub 0 3 m' = [0; 0x1e; 0xff].
Proof.
  apply (print_mac_parse_hex [] [9] [0; 0x1e; 0xff]); [done|repeat constructor; unfold is_u8; lia|cbn; lia].
Defined.

(** ** Transfers *)

(** What read and write promise: they move at most what they were asked for. *)
Definition fd_contract (W : World fdcall) : Prop := ∀ tr c,
  let r := W tr c in
  match c with
  | FdRead _ n => rret r ≤ Z.of_nat n ∧ (0 < rret r → length (rout r) = Z.to_nat (rret r))
  | FdWrite _ d => rret r ≤ Z.of_nat (length d)
  | _ => True
  end.
(** the bytes a call moved *)
Definition moved1 (e : fdcall * resp) : list Z :=
  match e.1 with
  | FdRead _ _ => take (Z.to_nat (rret e.2)) (rout e.2)
  | FdWrite _ d => take (Z.to_nat (rret e.2)) d
  | _ => []
  end.
Definition moved (tr : list (fdcall * resp)) : list Z := tr ≫= moved1.
Definition is_xfer (e : fdcall * resp) : bool := match e.1 with FdRead _ _ | FdWrite _ _ => true | _ => false end.
Definition xfers (tr : list (fdcall * resp)) : nat := length (List.filter is_xfer tr).
(** a call that ends the transfer: end of file or an error that is not retried *)
Definition final_error (r : resp) : Prop :=
  rret r = 0 ∨ rret r < 0 ∧ (- 1 - rret r) ∉ [EAGAIN; EINTR; ENOMEM; ENOBUFS].

Definition transferred (fuel size done : nat) (rw : bool) (before after : list Z)
    (r : option bool) (new : list (fdcall * resp)) : Prop :=
  after = (if rw then patch done (moved new) before else before) ∧
  (rw = false → moved new = sub done (length (moved new)) before) ∧
  match r with
  | Some true => done + length (moved new) = size
  | Some false => done + length (moved new) < size ∧ ∃ pre e, new = pre ++ [e] ∧ is_xfer e = true ∧ final_error e.2
  | None => done + length (moved new) < size ∧ xfers new = fuel
  end%nat.

Lemma moved_cons e tr : moved (e :: tr) = moved1 e ++ moved tr.
Proof. done. Qed.
Lemma patch_nil off l : patch off [] l = l.
Proof. unfold patch. cbn. rewrite Nat.add_0_r. apply take_drop. Qed.
Lemma patch_patch off a b l : (off + length a + length b ≤ length l)%nat →
  patch (off + length a) b (patch off a l) = patch off (a ++ b) l.
Proof.
  intros Hl. unfold patch. rewrite (app_assoc (take off l)), take_app_length' by (rewrite length_app, length_take; lia).
  rewrite drop_app_ge by (rewrite length_app, length_take; lia).
  rewrite <- !app_assoc. do 3 f_equal.
  rewrite drop_drop, !length_app, length_take. f_equal. lia.
Qed.
Lemma sub_sub_app done a b (l : list Z) :
  sub done a l ++ sub (done + a) b l = sub done (a + b) l.
Proof. unfold sub. rewrite <- drop_drop, take_take_drop. done. Qed.

Section ReadWrite.
Context (W : World fdcall) (Hw : fd_contract W) (fd : Z) (size : nat) (rw : bool).

(** A call that moves nothing and is followed by the rest of the loop. *)
Lemma transferred_skip fuel done before after r e new :
  (is_xfer e = true → rret e.2 < 0) →
  transferred fuel size done rw before after r new →
  transferred (if is_xfer e then S fuel else fuel) size done rw before after r (e :: new).
Proof.
  unfold transferred. intros He. assert (moved1 e = []) as Hm.
  { unfold moved1, is_xfer in *. destruct e as [[] r']; cbn in *; try done.
    all: rewrite Z2Nat.nonpos by (specialize (He eq_refl); lia); done. }
  rewrite moved_cons, Hm. cbn [app]. intros (? & ? & Hr). split_and!; [done..|].
  destruct r as [[]|]; [done| |].
  - destruct Hr as (? & pre & e' & -> & ? & ?). split; [done|]. by exists (e :: pre), e'.
  - destruct Hr as [? Hx]. split; [done|]. unfold xfers in *. cbn. destruct (is_xfer e); cbn; lia.
Qed.

Lemma transferred_step fuel done before after r e new :
  is_xfer e = true → length before = size → (done + length (moved1 e) ≤ size)%nat →
  (rw = false → moved1 e = sub done (length (moved1 e)) before) →
  transferred fuel size (done + length (moved1 e)) rw
    (if rw then patch done (moved1 e) before else before) after r new →
  transferred (S fuel) size done rw before after r (e :: new).
Proof.
  unfold transferred. intros He Hl Hd Hsub (Ha & Hs & Hr). rewrite moved_cons, length_app, Nat.add_assoc. split_and!.
  - rewrite Ha. destruct rw; [|done]. apply patch_patch.
    destruct r as [[]|]; lia.
  - intros Hrw. rewrite <- sub_sub_app, <- Hsub by done. f_equal. rewrite Hrw in Hs. by apply Hs.
  - destruct r as [[]|]; [lia| |].
    + destruct Hr as (? & pre & e' & -> & ? & ?). split; [lia|]. by exists (e :: pre), e'.
    + destruct Hr as [? Hx]. split; [lia|]. unfold xfers in *. cbn. rewrite He. cbn. lia.
Qed.

Lemma transferred_stop fuel done packet e :
  (done < size)%nat → is_xfer e = true → rret e.2 ≤ 0 → final_error e.2 →
  transferred fuel size done rw packet packet (Some false) [e].
Proof.
  intros Hd He Hr Hf. unfold transferred. rewrite moved_cons.
  assert (moved1 e = []) as ->.
  { unfold moved1. destruct e as [[] r']; cbn in *; rewrite ?Z2Nat.nonpos by lia; done. }
  cbn. rewrite patch_nil. split_and!; [by destruct rw|done|lia|]. exists [], e. done.
Qed.
Lemma transferred_now fuel done packet r :
  (r = Some true ∧ done = size ∨ r = None ∧ fuel = O ∧ (done < size)%nat) →
  transferred fuel size done rw packet packet r [].
Proof.
  intros Hr. unfold transferred. cbn. rewrite patch_nil. split_and!; [by destruct rw|done|].
  destruct Hr as [[-> ->]|(-> & -> & ?)]; lia || (cbn; lia).
Qed.

Definition xfer_call (done : nat) (packet : list Z) : fdcall :=
  if rw then FdRead fd (size - done) else FdWrite fd (sub done (size - done) packet).

(** A call that made progress. *)
Lemma moved_progress tr done packet :
  length packet = size → (done < size)%nat →
  let r := W tr (xfer_call done packet) in
  0 < rret r →
  moved1 (xfer_call done packet, r) = take (Z.to_nat (rret r)) (if rw then rout r else sub done (size - done) packet) ∧
  length (moved1 (xfer_call done packet, r)) = Z.to_nat (rret r) ∧
  (done + Z.to_nat (rret r) ≤ size)%nat ∧
  (rw = false → moved1 (xfer_call done packet, r) = sub done (Z.to_nat (rret r)) packet).
Proof.
  intros Hl Hd r Hr. pose proof (Hw tr (xfer_call done packet)) as Hc. unfold moved1, xfer_call in *. subst r.
  destruct rw; cbn in *.
  - destruct Hc as [Hc Hlen]. specialize (Hlen Hr). rewrite length_take. split_and!; [done|lia|lia|done].
  - unfold sub in *. rewrite length_take, length_drop in Hc. rewrite !length_take, length_drop.
    split_and!; [done|lia|lia|]. intros _. rewrite take_take. f_equal. lia.
Qed.

Lemma read_write_run fuel done s :
  (done ≤ size)%nat → length (st s) = size →
  ∃ r s' new, read_write fuel fd size rw done s = Val (r, s') ∧ calls s' = calls s ++ new ∧
    transferred fuel size done rw (st s) (st s') r new.
Proof.
  revert done s. induction fuel as [|fuel IH]; intros done s Hd Hl; cbn [read_write].
  all: destruct (Nat.leb_spec size done).
  1, 3: exists (Some true), s, []; rewrite app_nil_r; split_and!; [done|done|];
    apply transferred_now; left; split; [done|lia].
  { exists None, s, []. rewrite app_nil_r. split_and!; [done|done|]. apply transferred_now. auto. }
  unfold retry_send, kdo, mbind, IO_bind, kget, kmod, kcall_, mret, IO_ret. cbn [st calls id]. fold (xfer_call done (st s)).
  set (r := answer (calls s) (xfer_call done (st s))).
  set (e := (xfer_call done (st s), r)).
  assert (He : is_xfer e = true) by (unfold e, xfer_call, is_xfer; by destruct rw).
  destruct (Z.eqb_spec (rret r) 0) as [H0|H0].
  { exists (Some false), (mk_rt (calls s ++ [e]) (st s)), [e]. split_and!; [done|done|].
    apply transferred_stop; [done|done|cbn; lia|]. by left. }
  destruct (Z.ltb_spec (rret r) 0) as [Hneg|Hpos].
  - assert (Hretry : ∀ s', calls s' = calls s ++ [e] ∨ calls s' = (calls s ++ [e]) ++ [(Nanosleep 10000, answer (calls s ++ [e]) (Nanosleep 10000))] →
      st s' = st s →
      ∃ r' s'' new, read_write fuel fd size rw done s' = Val (r', s'') ∧ calls s'' = calls s ++ new ∧
        transferred (S fuel) size done rw (st s) (st s'') r' new).
    { intros s' Hs' Hst. destruct (IH done s') as (r' & s'' & new & Hrun & Hc & Ht); [done|by rewrite Hst|].
      rewrite Hst in Ht. apply (transferred_skip _ _ _ _ _ e) in Ht as Ht1; [|done]. rewrite He in Ht1.
      destruct Hs' as [Hs'|Hs']; rewrite Hs', <- !app_assoc in Hc.
      - by exists r', s'', (e :: new).
      - apply (transferred_skip _ _ _ _ _ (Nanosleep 10000, answer (calls s ++ [e]) (Nanosleep 10000))) in Ht; [|done].
        apply (transferred_skip _ _ _ _ _ e) in Ht; [|done]. rewrite He in Ht. by eexists r', s'', _. }
    destruct (Z.eqb_spec (- 1 - rret r) EAGAIN) as [Ha|Ha]; cbn [orb].
    { apply Hretry; [by right|done]. }
    match goal with |- context [if ?b then read_write _ _ _ _ _ else _] => destruct b eqn:Hor end;
      [apply Hretry; [by left|done]|].
    exists (Some false), (mk_rt (calls s ++ [e]) (st s)), [e]. split_and!; [done|done|].
    apply transferred_stop; [done|done|cbn; lia|]. right. cbn. zbool. split; [lia|].
    rewrite !not_elem_of_cons. split_and!; auto using not_elem_of_nil.
  - pose proof (moved_progress (calls s) done (st s) Hl ltac:(lia)) as Hmp. cbv zeta in Hmp.
    change (W (calls s) (xfer_call done (st s))) with r in Hmp.
    destruct Hmp as (Hm & Hml & Hle & Hsub); [lia|]. fold e in Hm, Hml, Hsub.
    set (packet := if rw then patch done (moved1 e) (st s) else st s).
    destruct (IH (done + Z.to_nat (rret r))%nat (mk_rt (calls s ++ [e]) packet)) as (r' & s' & new & Hrun & Hc & Ht).
    { done. }
    { unfold packet. cbn. destruct rw; [|done]. rewrite length_patch; lia. }
    exists r', s', (e :: new). split_and!.
    + rewrite <- Hrun. unfold packet. rewrite Hm. by destruct rw.
    + rewrite Hc. cbn. by rewrite <- app_assoc.
    + apply transferred_step; [done|done|lia|rewrite Hml; done|]. by rewrite Hml.
Qed.
End ReadWrite.

(** Against a kernel whose read and write move at most what was asked and leave
    the packet alone otherwise, read_write succeeds, fails, or is still under way
    after as many calls as its fuel allows, with bytes left to move.  On success the calls that moved bytes, put together, are the whole packet: a read
    has stored them in order at their places, a write has sent it without change,
    whatever interruptions and short transfers there were; on failure the last call
    failed with an error that is not to be retried, or a read hit the end of file. *)
Theorem read_write_transfers (W : World fdcall) (fuel : nat) (fd : Z) (rw : bool) (tr : list (fdcall * resp)) (packet : list Z) :
  fd_contract W →
  ∃ r after new,
    read_write fuel fd (length packet) rw 0 (mk_rt tr packet) = Val (r, mk_rt (tr ++ new) after) ∧
    transferred fuel (length packet) 0 rw packet after r new ∧
    (r = Some true → moved new = if rw then after else packet).
Proof.
  intros Hw. destruct (read_write_run W Hw fd (length packet) rw fuel 0 (mk_rt tr packet))
    as (r & [tr' after] & new & Hrun & Hc & Ht); [lia|done|]. cbn in Hc, Ht. subst tr'.
  exists r, after, new. split_and!; [done|done|]. intros ->.
  destruct Ht as (Ha & Hs & Hlen). rewrite Nat.add_0_l in Hlen. destruct rw.
  - subst after. unfold patch. rewrite take_0, Nat.add_0_l, drop_ge by lia. by rewrite app_nil_r.
  - rewrite Hs by done. unfold sub. rewrite drop_0, take_ge; [done|lia].
Qed.
(** A descriptor that moves two bytes at a time and is interrupted first. *)
Definition slow_fd : World fdcall := λ tr c,
  match c with
  | FdRead _ n => if (length tr =? 0)%nat then mk_resp (-1 - EINTR) [] else
                  mk_resp (Z.of_nat (min n 2)) (repeat 7 (min n 2))
  | FdWrite _ d => mk_resp (Z.of_nat (min (length d) 2)) []
  | _ => mk_resp 0 []
  end.
Lemma read_write_transfers_witness :
  ∃ r after new,
    read_write (W := slow_fd) 9 3 3 true 0 (mk_rt [] [1; 2; 3]) = Val (r, mk_rt new after) ∧
    transferred 9 3 0 true [1; 2; 3] after r new ∧ (r = Some true → moved new = after).
Proof.
  apply (read_write_transfers slow_fd 9 3 true [] [1; 2; 3]).
  intros tr [|fd n|fd d| | |]; try done; unfold slow_fd; [|cbn [rret]; lia].
  destruct (length tr =? 0)%nat; cbn [rret rout]; [unfold EINTR; lia|]. rewrite repeat_length. lia.
Defined.

(** ** The generator *)

(** in[0] to in[3] as one number *)
Fixpoint counter (n : nat) (l : list Z) : Z :=
  match n, l with S n', x :: l' => x + 2 ^ 32 * counter n' l' | _, _ => 0 end.
Definition surf_wf (s : surf_state) : Prop :=
  length (seed s) = 32%nat ∧ length (rin s) = 12%nat ∧ Forall is_u32 (rin s) ∧ (0 < outleft s → length (rout_ s) = 8)%nat.

Lemma counter_bounds n l : Forall is_u32 l → 0 ≤ counter n l < 2 ^ (32 * Z.of_nat n).
Proof.
  revert l. induction n as [|n IH]; intros l Hl; cbn [counter]; [lia|].
  replace (32 * Z.of_nat (S n)) with (32 + 32 * Z.of_nat n) by lia. rewrite Z.pow_add_r by lia.
  destruct Hl as [|x l Hx Hl]; [lia|]. specialize (IH l Hl). unfold is_u32 in Hx. nia.
Qed.
Lemma bump_counter n l : Forall is_u32 l → (n ≤ length l)%nat →
  counter n (bump n l) = (counter n l + 1) mod 2 ^ (32 * Z.of_nat n) ∧
  Forall is_u32 (bump n l) ∧ length (bump n l) = length l.
Proof.
  revert l. induction n as [|n IH]; intros l Hl Hn; [cbn; by rewrite Z.mod_1_r|].
  destruct Hl as [|x l Hx Hl]; [cbn in Hn; lia|]. cbn [bump counter length] in *.
  destruct (IH l Hl) as (Hc & Hf & Hlen); [lia|].
  pose proof (counter_bounds n l Hl). unfold is_u32, u32 in *. change 4294967296 with (2 ^ 32) in *.
  replace (32 * Z.of_nat (S n)) with (32 + 32 * Z.of_nat n) by lia. rewrite Z.pow_add_r by lia.
  destruct (Z.eqb_spec ((x + 1) mod 2 ^ 32) 0) as [H0|H0].
  - assert (x = 2 ^ 32 - 1) as ->.
    { destruct (Z.eq_dec x (2 ^ 32 - 1)); [done|]. rewrite Z.mod_small in H0 by lia. lia. }
    cbn [counter length]. rewrite H0, Hc, Hlen. split_and!; [|by constructor|done].
    replace (2 ^ 32 - 1 + 2 ^ 32 * counter n l + 1) with (2 ^ 32 * (counter n l + 1)) by lia.
    rewrite Z.mul_mod_distr_l by lia. lia.
  - assert (x < 2 ^ 32 - 1).
    { destruct (Z.eq_dec x (2 ^ 32 - 1)) as [->|]; [by rewrite Z.sub_add, Z.mod_same in H0|lia]. }
    rewrite Z.mod_small in * by lia. cbn [counter length]. split_and!; [|by constructor; [lia|]|done].
    rewrite Z.mod_small; nia.
Qed.

Lemma length_MUSH sd sum tx ib : length (MUSH sd sum tx ib).1 = length tx.1.
Proof. destruct tx, ib. cbn. apply length_insert. Qed.
Lemma length_rounds n sd tx sum : length (surf_rounds n sd tx sum).1.1 = length tx.1.
Proof.
  revert tx sum. induction n as [|n IH]; intros tx sum; cbn [surf_rounds]; [done|].
  rewrite IH. generalize mushes. intros l. revert tx. induction l as [|ib l IHl]; intros tx; cbn; [done|].
  by rewrite IHl, length_MUSH.
Qed.
Lemma length_surf s : length (seed s) = 32%nat → length (rin s) = 12%nat → length (surf s) = 8%nat.
Proof.
  intros Hs Hi. unfold surf.
  set (t := zip_with Z.lxor (rin s) (sub 12 12 (seed s))).
  assert (Ht : length t = 12%nat) by (unfold t; rewrite length_zip_with, length_sub; lia).
  destruct (surf_rounds 16 (seed s) (t, nth 11 t 0) 0) as [tx sum] eqn:H1.
  pose proof (length_rounds 16 (seed s) (t, nth 11 t 0) 0) as L1. rewrite H1 in L1. cbn in L1.
  destruct (surf_rounds 16 (seed s) tx sum) as [tx2 sum2] eqn:H2.
  pose proof (length_rounds 16 (seed s) tx sum) as L2. rewrite H2 in L2. cbn in L2.
  rewrite !length_zip_with, !length_sub; lia.
Qed.

Fixpoint draws (n : nat) (s : surf_state) : list Z * surf_state :=
  match n with
  | O => ([], s)
  | S n' => let '(x, s) := rand16 s in let '(l, s) := draws n' s in (x :: l, s)
  end.
Lemma draws_left n s : outleft s = n → (n ≤ length (rout_ s))%nat →
  draws n s = (reverse (u16 <$> take n (rout_ s)), mk_surf (seed s) (rin s) (rout_ s) 0).
Proof.
  revert s. induction n as [|n IH]; intros s Hs Hl; cbn [draws].
  - destruct s. cbn in *. by subst.
  - unfold rand16. rewrite Hs. cbn [pred outleft rout_ seed rin]. rewrite IH by (cbn; lia). cbn [rout_ seed rin].
    destruct (lookup_lt_is_Some_2 (rout_ s) n) as [x Hx]; [lia|].
    rewrite (take_S_r _ _ x Hx), fmap_app, reverse_app. cbn. f_equal. f_equal. f_equal.
    rewrite Hs, nth_lookup. cbn. by rewrite Hx.
Qed.

Lemma draws_S n s : draws (S n) s = let '(x, s) := rand16 s in let '(l, s) := draws n s in (x :: l, s).
Proof. done. Qed.
Lemma rand16_refill s : outleft s = O →
  rand16 s = rand16 (mk_surf (seed s) (bump 4 (rin s)) (surf (mk_surf (seed s) (bump 4 (rin s)) (rout_ s) 0)) 8).
Proof. intros H0. unfold rand16. rewrite H0. cbn [outleft seed rin rout_]. reflexivity. Qed.

(** The eight 16-bit numbers of one block of rand16 are the low halves of the
    eight words of the SURF function, last word first, of the 128-bit input counter
    plus one; the counter counts modulo 2^128 with all its carries, and the state
    stays well formed and ready for the next block. *)
Theorem rand16_block (s : surf_state) :
  surf_wf s → outleft s = O →
  let s1 := mk_surf (seed s) (bump 4 (rin s)) (rout_ s) O in
  draws 8 s = (reverse (u16 <$> surf s1), mk_surf (seed s) (rin s1) (surf s1) O) ∧
  counter 4 (rin s1) = (counter 4 (rin s) + 1) mod 2 ^ 128 ∧ surf_wf (draws 8 s).2.
Proof.
  intros (Hs & Hi & Hf & _) H0 s1.
  destruct (bump_counter 4 (rin s) Hf) as (Hc & Hf' & Hlen); [lia|].
  assert (Hl : length (surf s1) = 8%nat) by (apply length_surf; unfold s1; cbn [seed rin]; lia).
  assert (Hd : draws 8 s = (reverse (u16 <$> surf s1), mk_surf (seed s) (rin s1) (surf s1) O)).
  { transitivity (draws 8 (mk_surf (seed s) (rin s1) (surf s1) 8)).
    - by rewrite !draws_S, (rand16_refill s H0).
    - rewrite draws_left by (cbn [outleft rout_]; lia). cbn [rout_ seed rin]. by rewrite take_ge by lia. }
  rewrite Hd. split_and!; [done|exact Hc|]. unfold surf_wf, s1. cbn [rin seed outleft rout_ snd]. split_and!; [done|lia|exact Hf'|lia].
Qed.
Lemma rand16_block_witness :
  let s := mk_surf (repeat 5 32) (repeat 0xffffffff 4 ++ repeat 1 8) [] 0 in
  draws 8 s = (reverse (u16 <$> surf (mk_surf (repeat 5 32) (repeat 0 4 ++ repeat 1 8) [] 0)),
    mk_surf (repeat 5 32) (repeat 0 4 ++ repeat 1 8) (surf (mk_surf (repeat 5 32) (repeat 0 4 ++ repeat 1 8) [] 0)) 0).
Proof.
  apply (rand16_block (mk_surf (repeat 5 32) (repeat 0xffffffff 4 ++ repeat 1 8) [] 0)); [|done].
  split_and!; [done|done| |cbn; lia]. repeat constructor; unfold is_u32; lia.
Defined.
End DnsUtil.
