(* ===== verification/DnsName.v ===== *)
(** * DNS messages (src/external/dnsmasq/src/rfc1035.c)

    A message is a byte memory [m] with its length [plen], which may be smaller
    than the memory; a pointer into it is an offset from the header, a null
    pointer is [None].  Reads and writes outside the memory are undefined.  The
    name buffer is a memory of its own.  The header's bit fields are those of a
    little-endian target. *)
From S2P Require Import Prelude Runtime DriverRt DnsUtil.
Import DnsUtil.

Module DnsName.

(** ** Access to the message *)
Definition be_load (bs : list Z) : Z := le_load (reverse bs).
Definition be_store (n : nat) (v : Z) : list Z := reverse (le_store n v).
Definition GETSHORT (m : list Z) (p : nat) : outcome Z := bs ← load p 2 m; Val (be_load bs).
Definition GETLONG (m : list Z) (p : nat) : outcome Z := bs ← load p 4 m; Val (be_load bs).
Definition put (m : list Z) (p : nat) (bs : list Z) : outcome (list Z) :=
  if decide (p + length bs ≤ length m)%nat then Val (patch p bs m) else UB.
Definition PUTSHORT (m : list Z) (v : Z) (p : nat) : outcome (list Z) := put m p (be_store 2 v).
Definition PUTLONG (m : list Z) (v : Z) (p : nat) : outcome (list Z) := put m p (be_store 4 v).

Definition HEADER_SIZE : nat := 12.
(** ntohs of the counts of the header *)
Definition qdcount (m : list Z) : outcome Z := GETSHORT m 4.
Definition ancount (m : list Z) : outcome Z := GETSHORT m 6.
Definition nscount (m : list Z) : outcome Z := GETSHORT m 8.
Definition arcount (m : list Z) : outcome Z := GETSHORT m 10.
(** third byte: rd 0, tc 1, aa 2, opcode 3 to 6, qr 7; fourth: rcode 0 to 3, cd 4,
    ad 5, ra 7 *)
Definition opcode (m : list Z) : outcome Z := b ← rd m 2; Val (Z.land (Z.shiftr b 3) 15).
Definition rcode (m : list Z) : outcome Z := b ← rd m 3; Val (Z.land b 15).
Definition tc (m : list Z) : outcome bool := b ← rd m 2; Val (Z.testbit b 1).
Definition set_field (m : list Z) (byte : nat) (mask v : Z) : outcome (list Z) :=
  b ← rd m byte; wr m byte (Z.lor (Z.land b (Z.lxor mask 255)) v).
Definition set_aa (m : list Z) (v : bool) : outcome (list Z) := set_field m 2 4 (if v then 4 else 0).
Definition set_tc (m : list Z) (v : bool) : outcome (list Z) := set_field m 2 2 (if v then 2 else 0).
Definition set_qr (m : list Z) (v : bool) : outcome (list Z) := set_field m 2 128 (if v then 128 else 0).
Definition set_ra (m : list Z) (v : bool) : outcome (list Z) := set_field m 3 128 (if v then 128 else 0).
Definition set_rcode (m : list Z) (v : Z) : outcome (list Z) := set_field m 3 15 v.

Definition QUERY : Z := 0.
Definition NOERROR : Z := 0.
Definition SERVFAIL : Z := 2.
Definition NXDOMAIN : Z := 3.
Definition REFUSED : Z := 5.
Definition T_A : Z := 1.
Definition T_NS : Z := 2.
Definition T_CNAME : Z := 5.
Definition T_SOA : Z := 6.
Definition T_PTR : Z := 12.
Definition T_SIG : Z := 24.
Definition T_AAAA : Z := 28.
Definition T_OPT : Z := 41.
Definition T_TKEY : Z := 249.
Definition T_TSIG : Z := 250.
Definition T_ANY : Z := 255.
Definition C_IN : Z := 1.
Definition C_ANY : Z := 255.

Definition CHECK_LEN (pp plen len : nat) : bool := (pp + len <=? plen)%nat.
(** The conditional binds tighter than the comma: the value is always 1. *)
Definition ADD_RDLEN (pp plen len : nat) : bool * nat :=
  (true, if negb (CHECK_LEN pp plen len) then pp else (pp + len)%nat).

(** ** Names *)

(** The locals of extract_name: [xp1] after the first jump, [xret] the retvalue. *)
Record xstate := mk_x {
  xp : nat; xp1 : option nat; xcp : nat; xhops : nat; xname : list Z; xret : Z
}.
Inductive turn := Go (s : xstate) | Stop (ret : Z) (s : xstate).

(** The loop over a label; [false] when a character is refused. *)
Fixpoint copy_label (m : list Z) (l p cp : nat) (nm : list Z) : outcome (bool * nat * list Z) :=
  match l with
  | O => Val (true, cp, nm)
  | S l' =>
      c ← rd m p;
      if isascii c && negb (iscntrl c) && negb (c =? chr ".")
      then nm ← wr nm cp c; copy_label m l' (S p) (S cp) nm
      else Val (false, cp, nm)
  end.
Fixpoint compare_label (m : list Z) (l p cp : nat) (nm : list Z) (ret : Z) : outcome (nat * Z) :=
  match l with
  | O => Val (cp, ret)
  | S l' =>
      c1 ← rd nm cp;
      c2 ← rd m p;
      if c1 =? 0 then compare_label m l' (S p) cp nm 2
      else compare_label m l' (S p) (S cp) nm (if negb (fold c1 =? fold c2) then 2 else ret)
  end.
(** The digits of a bitstring from digit [j] on. *)
Fixpoint bit_digits (m : list Z) (n : nat) (odd : bool) (p cp : nat) (nm : list Z) : outcome (nat * nat * list Z) :=
  match n with
  | O => Val (p, cp, nm)
  | S n' =>
      b ← rd m p;
      let dig := if odd then Z.land b 15 else Z.shiftr b 4 in
      nm ← wr nm cp (if dig <? 10 then dig + 48 else dig + 55);
      bit_digits m n' (negb odd) (if odd then S p else p) (S cp) nm
  end.

Section ExtractName.
Context (m : list Z) (plen : nat) (isExtract : bool) (extrabytes : nat).

(** l, the byte at the turn's start, is 0 *)
Definition end_marker (s : xstate) : outcome turn :=
  if negb (CHECK_LEN (xp s) plen extrabytes) then Val (Stop 0 s) else
  if isExtract then
    let cp := if (xcp s =? 0)%nat then xcp s else pred (xcp s) in
    nm ← wr (xname s) cp 0;
    Val (Stop (xret s) (mk_x (xp s) (xp1 s) cp (xhops s) nm (xret s)))
  else
    c ← rd (xname s) (xcp s);
    Val (Stop (if negb (c =? 0) then 2 else xret s) s).
Definition pointer_turn (l : Z) (s : xstate) : outcome turn :=
  if negb (CHECK_LEN (xp s) plen 1) then Val (Stop 0 s) else
  b ← rd m (xp s);
  let target := Z.to_nat (Z.lor (Z.shiftl (Z.land l 0x3f) 8) b) in
  let p := S (xp s) in
  let p1 := match xp1 s with None => Some p | Some _ => xp1 s end in
  let hops := S (xhops s) in
  if (255 <? hops)%nat then Val (Stop 0 (mk_x p p1 (xcp s) hops (xname s) (xret s)))
  else Val (Go (mk_x target p1 (xcp s) hops (xname s) (xret s))).
Definition bitstring_turn (l : Z) (s : xstate) : outcome turn :=
  if negb (Z.land l 0x3f =? 1) then Val (Stop 0 s) else
  if negb isExtract then Val (Stop 0 s) else
  b ← rd m (xp s);
  let p := S (xp s) in
  let count := if b =? 0 then 256 else b in
  let digs := Z.to_nat (Z.shiftr (count - 1) 2 + 1) in
  if (MAXDNAME <=? xcp s + digs + 9)%nat then Val (Stop 0 s) else
  if negb (CHECK_LEN p plen (Z.to_nat (Z.shiftr (count - 1) 3))) then Val (Stop 0 s) else
  nm ← put (xname s) (xcp s) (codes "\[x");
  r ← bit_digits m digs false p (xcp s + 3) nm;
  let '(p, cp, nm) := r in
  let t := codes "/" ++ decimal count ++ codes "]" in
  nm ← put nm cp (t ++ [0]);
  let cp := (cp + length t)%nat in
  nm ← wr nm cp (chr ".");
  Val (Go (mk_x p (xp1 s) (S cp) (xhops s) nm (xret s))).
Definition label_turn (l : Z) (s : xstate) : outcome turn :=
  let len := Z.to_nat l in
  if (MAXDNAME <=? xcp s + len + 1)%nat then Val (Stop 0 s) else
  if negb (CHECK_LEN (xp s) plen len) then Val (Stop 0 s) else
  if isExtract then
    r ← copy_label m len (xp s) (xcp s) (xname s);
    let '(ok, cp, nm) := r in
    if negb ok then Val (Stop 0 (mk_x (xp s) (xp1 s) cp (xhops s) nm (xret s))) else
    nm ← wr nm cp (chr ".");
    Val (Go (mk_x (xp s + len) (xp1 s) (S cp) (xhops s) nm (xret s)))
  else
    r ← compare_label m len (xp s) (xcp s) (xname s) (xret s);
    let '(cp, ret) := r in
    c ← rd (xname s) cp;
    let '(cp, ret) := if negb (c =? 0) then (S cp, if negb (c =? chr ".") then 2 else ret) else (cp, ret) in
    Val (Go (mk_x (xp s + len) (xp1 s) cp (xhops s) (xname s) ret)).

(** One turn of while (1). *)
Definition extract_turn (s : xstate) : outcome turn :=
  if negb (CHECK_LEN (xp s) plen 1) then Val (Stop 0 s) else
  l ← rd m (xp s);
  let s := mk_x (S (xp s)) (xp1 s) (xcp s) (xhops s) (xname s) (xret s) in
  if l =? 0 then end_marker s else
  let label_type := Z.land l 0xc0 in
  if label_type =? 0xc0 then pointer_turn l s
  else if label_type =? 0x80 then Val (Stop 0 s)
  else if label_type =? 0x40 then bitstring_turn l s
  else label_turn l s.
(** [UB] also when the fuel does not suffice. *)
Fixpoint extract_loop (fuel : nat) (s : xstate) : outcome (Z * xstate) :=
  match fuel with
  | O => UB
  | S fuel' =>
      t ← extract_turn s;
      match t with Stop r s => Val (r, s) | Go s => extract_loop fuel' s end
  end.
End ExtractName.

(** A jump is followed by at most plen turns before the next. *)
Definition extract_fuel (plen : nat) : nat := (257 * (plen + 2))%nat.
(** The result, *pp and the name buffer afterwards. *)
Definition extract_name (m : list Z) (plen pp : nat) (name : list Z) (isExtract : bool) (extrabytes : nat)
  : outcome (Z * nat * list Z) :=
  nm ← (if isExtract then wr name 0 0 else Val name);
  r ← extract_loop m plen isExtract extrabytes (extract_fuel plen) (mk_x pp None 0 0 nm 1);
  let '(ret, s) := r in
  Val (ret, (if ret =? 0 then pp else match xp1 s with Some p1 => p1 | None => xp s end), xname s).

(** [UB] also when the fuel does not suffice. *)
Fixpoint skip_loop (fuel : nat) (m : list Z) (plen ansp : nat) : outcome (option nat) :=
  match fuel with
  | O => UB
  | S fuel' =>
      if negb (CHECK_LEN ansp plen 1) then Val None else
      b ← rd m ansp;
      let label_type := Z.land b 0xc0 in
      if label_type =? 0xc0 then Val (Some (ansp + 2)%nat)
      else if label_type =? 0x80 then Val None
      else if label_type =? 0x40 then
        if negb (CHECK_LEN ansp plen 2) then Val None else
        if negb (Z.land b 0x3f =? 1) then Val None else
        count ← rd m (S ansp);
        let ansp := (ansp + 2)%nat in
        skip_loop fuel' m plen
          (ansp + (if count =? 0 then 32 else Z.to_nat (Z.shiftr (count - 1) 3) + 1))
      else
        let len := Z.to_nat (Z.land b 0x3f) in
        let '(ok, ansp) := ADD_RDLEN (S ansp) plen len in
        if negb ok then Val None else
        if (len =? 0)%nat then Val (Some ansp) else skip_loop fuel' m plen ansp
  end.
Definition skip_name (m : list Z) (plen ansp extrabytes : nat) : outcome (option nat) :=
  r ← skip_loop (plen + 2) m plen ansp;
  match r with
  | None => Val None
  | Some ansp => Val (if CHECK_LEN ansp plen extrabytes then Some ansp else None)
  end.

Fixpoint skip_question (n : nat) (m : list Z) (plen ansp : nat) : outcome (option nat) :=
  match n with
  | O => Val (Some ansp)
  | S n' =>
      r ← skip_name m plen ansp 4;
      match r with None => Val None | Some ansp => skip_question n' m plen (ansp + 4) end
  end.
Definition skip_questions (m : list Z) (plen : nat) : outcome (option nat) :=
  q ← qdcount m; skip_question (Z.to_nat q) m plen HEADER_SIZE.
Fixpoint skip_section (m : list Z) (plen ansp : nat) (count : nat) : outcome (option nat) :=
  match count with
  | O => Val (Some ansp)
  | S count' =>
      r ← skip_name m plen ansp 10;
      match r with
      | None => Val None
      | Some ansp =>
          let ansp := (ansp + 8)%nat in
          rdlen ← GETSHORT m ansp;
          let '(ok, ansp) := ADD_RDLEN (ansp + 2) plen (Z.to_nat rdlen) in
          if negb ok then Val None else skip_section m plen ansp count'
      end
  end.

(** ** Access lemmas *)
Lemma rd_lt m p : (p < length m)%nat → ∃ c, m !! p = Some c ∧ rd m p = Val c.
Proof. intros Hp. destruct (lookup_lt_is_Some_2 m p Hp) as [c Hc]. exists c. unfold rd. by rewrite Hc. Qed.
Lemma rd_Some m p c : m !! p = Some c → rd m p = Val c.
Proof. unfold rd. by intros ->. Qed.
Lemma put_Val m p bs : (p + length bs ≤ length m)%nat → put m p bs = Val (patch p bs m).
Proof. intros Hp. unfold put. by rewrite decide_True. Qed.
Lemma byte_at m p c : bytes m → m !! p = Some c → is_u8 c.
Proof. intros Hm. rewrite Forall_lookup in Hm. apply Hm. Qed.
Lemma patch_one p c m : (p < length m)%nat → <[p := c]> m = patch p [c] m.
Proof. intros Hp. unfold patch. rewrite insert_take_drop by done. cbn. do 3 f_equal. lia. Qed.
Lemma sub_cons p l (m : list Z) c : m !! p = Some c → sub p (S l) m = c :: sub (S p) l m.
Proof. intros Hc. unfold sub. by rewrite (drop_S _ _ _ Hc). Qed.

(** ** The loops over a label *)
Definition namechar (c : Z) : bool := isascii c && negb (iscntrl c) && negb (c =? chr ".").
Lemma copy_label_ok m l p cp nm :
  (p + l ≤ length m)%nat → (cp + l ≤ length nm)%nat → forallb namechar (sub p l m) = true →
  copy_label m l p cp nm = Val (true, (cp + l)%nat, patch cp (sub p l m) nm).
Proof.
  revert p cp nm. induction l as [|l IH]; intros p cp nm Hp Hcp Hc; cbn [copy_label].
  - unfold sub. cbn. by rewrite patch_nil, Nat.add_0_r.
  - destruct (rd_lt m p) as (c & Hl & ->); [lia|]. rewrite (sub_cons _ _ _ _ Hl) in *.
    cbn [forallb] in Hc. apply andb_true_iff in Hc as [Hc1 Hc2]. unfold namechar in Hc1. rewrite bind_Val, Hc1.
    rewrite wr_Val, bind_Val, IH by (rewrite ?length_insert; lia || done).
    rewrite patch_one by lia. replace (S cp) with (cp + length [c])%nat by (cbn; lia).
    rewrite patch_patch by (rewrite length_sub by lia; cbn; lia). cbn. do 3 f_equal. lia.
Qed.
Lemma copy_label_safe m l p cp nm :
  (p + l ≤ length m)%nat → (cp + l ≤ length nm)%nat →
  ∃ ok cp' nm', copy_label m l p cp nm = Val (ok, cp', nm') ∧ length nm' = length nm ∧
    (ok = true → cp' = (cp + l)%nat ∧ forallb namechar (sub p l m) = true).
Proof.
  revert p cp nm. induction l as [|l IH]; intros p cp nm Hp Hcp; cbn [copy_label].
  { exists true, cp, nm. split_and!; [done..|]. intros _. split; [lia|done]. }
  destruct (rd_lt m p) as (c & Hl & ->); [lia|]. rewrite bind_Val. fold (namechar c).
  destruct (namechar c) eqn:Hc; [|by exists false, cp, nm].
  rewrite wr_Val, bind_Val by lia.
  destruct (IH (S p) (S cp) (<[cp:=c]> nm)) as (ok & cp' & nm' & -> & Hlen & Hok); [lia|rewrite length_insert; lia|].
  exists ok, cp', nm'. split; [done|]. rewrite length_insert in Hlen. split; [done|].
  intros Ht. destruct (Hok Ht) as [-> Hf]. rewrite (sub_cons _ _ _ _ Hl). cbn. rewrite Hc, Hf. split; [lia|done].
Qed.

Lemma bit_digits_safe m n (odd : bool) p cp nm :
  (2 * p + n + (if odd then 1 else 0) ≤ 2 * length m)%nat → (cp + n ≤ length nm)%nat →
  ∃ p' nm', bit_digits m n odd p cp nm = Val (p', (cp + n)%nat, nm') ∧ length nm' = length nm ∧ (p ≤ p')%nat.
Proof.
  revert odd p cp nm. induction n as [|n IH]; intros odd p cp nm Hp Hcp; cbn [bit_digits].
  { exists p, nm. rewrite Nat.add_0_r. done. }
  destruct (rd_lt m p) as (b & _ & ->); [lia|]. rewrite bind_Val, wr_Val, bind_Val by lia.
  destruct (IH (negb odd) (if odd then S p else p) (S cp)
    (<[cp:=let dig := if odd then Z.land b 15 else Z.shiftr b 4 in if dig <? 10 then dig + 48 else dig + 55]> nm))
    as (p' & nm' & Hrun & Hlen & Hle).
  { destruct odd; cbn [negb]; lia. }
  { rewrite length_insert. lia. }
  exists p', nm'. rewrite length_insert in Hlen. cbv zeta in Hrun. rewrite Hrun. split; [do 3 f_equal; lia|].
  split; [done|]. destruct odd; lia.
Qed.

Lemma compare_label_safe m l p cp nm ret z :
  (p + l ≤ length m)%nat → (cp ≤ z)%nat → nm !! z = Some 0 → ret = 1 ∨ ret = 2 →
  ∃ cp' ret', compare_label m l p cp nm ret = Val (cp', ret') ∧ (cp ≤ cp' ≤ z)%nat ∧ (cp' ≤ cp + l)%nat ∧
    (ret' = 1 ∨ ret' = 2).
Proof.
  intros Hp Hcp Hz. pose proof (lookup_lt_Some _ _ _ Hz).
  revert p cp ret Hp Hcp. induction l as [|l IH]; intros p cp ret Hp Hcp Hret; cbn [compare_label].
  { exists cp, ret. split_and!; [done|lia..|done]. }
  destruct (rd_lt nm cp) as (c1 & Hc1 & ->); [lia|]. destruct (rd_lt m p) as (c2 & _ & ->); [lia|].
  rewrite !bind_Val. destruct (Z.eqb_spec c1 0) as [->|Hn].
  - destruct (IH (S p) cp 2) as (cp' & ret' & -> & ? & ? & ?); [lia|lia|by right|]. eexists _, _. split_and!; [done|lia..|done].
  - assert (cp ≠ z) by congruence.
    destruct (IH (S p) (S cp) (if negb (fold c1 =? fold c2) then 2 else ret)) as (cp' & ret' & -> & ? & ? & ?);
      [lia|lia|by destruct (negb _); [right|]|]. eexists _, _. split_and!; [done|lia..|done].
Qed.

(** ** extract_name is total and stays in its buffers *)
Section Safety.
Context (m : list Z) (plen : nat) (isExtract : bool) (extrabytes : nat) (z : nat).
(** one byte more than the message *)
Context (Hm : (plen < length m)%nat) (Hb : bytes m).

Definition xinv (s : xstate) : Prop :=
  (xcp s < MAXDNAME)%nat ∧ (MAXDNAME ≤ length (xname s))%nat ∧ (xhops s ≤ 255)%nat ∧
  (∀ q, xp1 s = Some q → (q ≤ plen)%nat) ∧ (xret s = 1 ∨ xret s = 2) ∧
  (isExtract = false → (xcp s ≤ z)%nat ∧ xname s !! z = Some 0).
Definition xmeasure (s : xstate) : nat := ((256 - xhops s) * (plen + 2) + (plen + 1 - xp s))%nat.
Definition xend (s : xstate) : nat := match xp1 s with Some p1 => p1 | None => xp s end.
Definition turn_ok (s : xstate) (t : turn) : Prop :=
  match t with
  | Go s' => xinv s' ∧ length (xname s') = length (xname s) ∧ (xmeasure s' < xmeasure s)%nat
  | Stop r s' => (r = 0 ∨ r = 1 ∨ r = 2) ∧ length (xname s') = length (xname s) ∧
      (r ≠ 0 → (xend s' ≤ plen)%nat ∧ 0 ∈ xname s')
  end ∧ (isExtract = false → xname (match t with Go s' | Stop _ s' => s' end) = xname s).
Definition turn_safe (s : xstate) (o : outcome turn) : Prop := ∃ t, o = Val t ∧ turn_ok s t.

Lemma turn_stop_ok s s' : length (xname s') = length (xname s) → (isExtract = false → xname s' = xname s) →
  turn_safe s (Val (Stop 0 s')).
Proof. intros Hl Hs. eexists. split; [done|]. unfold turn_ok. cbn. split_and!; [by left|done|done|done]. Qed.

Lemma end_marker_safe s :
  xinv s → (xp s ≤ plen)%nat → turn_safe s (end_marker plen isExtract extrabytes s).
Proof.
  intros (Hcp & Hn & _ & Hp1 & Hret & Hz) Hp. unfold end_marker.
  assert (Hend : (xend s ≤ plen)%nat) by (unfold xend; destruct (xp1 s); auto).
  destruct (CHECK_LEN _ _ _); cbn [negb]; [|by apply turn_stop_ok].
  destruct isExtract eqn:HE.
  - rewrite wr_Val by (destruct (xcp s =? 0)%nat; lia). rewrite bind_Val. eexists. split; [done|]. unfold turn_ok. cbn.
    rewrite length_insert. unfold xend in *. cbn. split_and!; [tauto|done| |by rewrite HE]. intros _. split; [done|].
    eapply list_elem_of_lookup_2, list_lookup_insert_eq. destruct (xcp s =? 0)%nat; lia.
  - destruct (Hz eq_refl) as [Hle Hz0]. pose proof (lookup_lt_Some _ _ _ Hz0).
    destruct (rd_lt (xname s) (xcp s)) as (c & _ & ->); [lia|]. rewrite bind_Val.
    eexists. split; [done|]. unfold turn_ok. cbn. split_and!; [destruct (negb _); tauto|done| |done].
    intros _. split; [done|by eapply list_elem_of_lookup_2].
Qed.

Lemma pointer_turn_safe l s :
  xinv s → (xp s ≤ plen)%nat → turn_safe s (pointer_turn m plen l s).
Proof.
  intros (Hcp & Hn & Hh & Hp1 & Hret & Hz) Hp. unfold pointer_turn, CHECK_LEN.
  destruct (Nat.leb_spec (xp s + 1) plen); cbn [negb]; [|by apply turn_stop_ok].
  destruct (rd_lt m (xp s)) as (b & _ & ->); [lia|]. rewrite bind_Val.
  destruct (Nat.ltb_spec 255 (S (xhops s))); [by apply turn_stop_ok|].
  eexists. split; [done|]. unfold turn_ok. cbn. split_and!; [|done| |done].
  - unfold xinv. cbn. split_and!; try done. intros q. destruct (xp1 s); [by apply Hp1|]. intros [= <-]. lia.
  - unfold xmeasure. cbn. replace (256 - xhops s)%nat with (S (256 - S (xhops s))) by lia. lia.
Qed.

Lemma label_turn_safe l s :
  0 < l < 64 → xinv s → (xp s ≤ plen)%nat → turn_safe s (label_turn m plen isExtract l s).
Proof.
  intros Hl (Hcp & Hn & Hh & Hp1 & Hret & Hz) Hp. unfold label_turn, CHECK_LEN.
  destruct (Nat.leb_spec MAXDNAME (xcp s + Z.to_nat l + 1)); [by apply turn_stop_ok|].
  destruct (Nat.leb_spec (xp s + Z.to_nat l) plen); cbn [negb]; [|by apply turn_stop_ok].
  destruct isExtract eqn:HE.
  - destruct (copy_label_safe m (Z.to_nat l) (xp s) (xcp s) (xname s)) as (ok & cp & nm & -> & Hlen & Hok); [lia|lia|].
    rewrite bind_Val. destruct ok; cbn [negb]; [|apply turn_stop_ok; [done|by rewrite HE]]. destruct (Hok eq_refl) as [-> _].
    rewrite wr_Val, bind_Val by lia. eexists. split; [done|]. unfold turn_ok. cbn. rewrite length_insert. split_and!; [|done| |by rewrite HE].
    + unfold xinv. cbn. rewrite length_insert. split_and!; try done; first [lia|congruence].
    + unfold xmeasure. cbn. lia.
  - destruct (Hz eq_refl) as [Hle Hz0]. pose proof (lookup_lt_Some _ _ _ Hz0).
    destruct (compare_label_safe m (Z.to_nat l) (xp s) (xcp s) (xname s) (xret s) z) as (cp & ret & -> & ? & ? & Hr); [lia|lia|done..|].
    rewrite bind_Val. destruct (rd_lt (xname s) cp) as (c & Hc & ->); [lia|]. rewrite bind_Val.
    destruct (Z.eqb_spec c 0) as [->|Hc0]; cbn [negb].
    + eexists. split; [done|]. unfold turn_ok. cbn. split_and!; [|done|unfold xmeasure; cbn; lia|done].
      unfold xinv. cbn. split_and!; try done; first [lia|intros _; split; [lia|done]].
    + assert (cp ≠ z) by congruence. eexists. split; [done|]. unfold turn_ok. cbn. split_and!; [|done|unfold xmeasure; cbn; lia|done].
      unfold xinv. cbn. split_and!; try done; [lia|destruct (negb _); tauto|intros _; split; [lia|done]].
Qed.

(** the bytes of a bitstring of [count] bits, its digits and the text of the count *)
Lemma bitstring_sizes b : is_u8 b →
  let count := if b =? 0 then 256 else b in
  let digs := Z.to_nat (Z.shiftr (count - 1) 2 + 1) in
  (digs ≤ 2 * Z.to_nat (Z.shiftr (count - 1) 3) + 2)%nat ∧ (length (decimal count) ≤ 3)%nat.
Proof.
  intros Hb'. apply (every_byte (λ b, let count := if b =? 0 then 256 else b in
    (Z.to_nat (Z.shiftr (count - 1) 2 + 1) <=? 2 * Z.to_nat (Z.shiftr (count - 1) 3) + 2)%nat &&
    (length (decimal count) <=? 3)%nat)) in Hb'; [|by vm_compute].
  cbv zeta in Hb' |- *. apply andb_true_iff in Hb' as [?%Nat.leb_le ?%Nat.leb_le]. done.
Qed.
(** the four kinds of the byte that starts a label *)
Lemma label_byte l : is_u8 l →
  Z.land l 0xc0 ≠ 0xc0 → Z.land l 0xc0 ≠ 0x80 → Z.land l 0xc0 ≠ 0x40 → l < 64 ∧ Z.land l 0x3f = l.
Proof.
  intros Hl. apply (every_byte (λ l, (Z.land l 0xc0 =? 0xc0) || (Z.land l 0xc0 =? 0x80) || (Z.land l 0xc0 =? 0x40) ||
    ((l <? 64) && (Z.land l 0x3f =? l)))) in Hl; [|by vm_compute].
  rewrite !orb_true_iff, !Z.eqb_eq, andb_true_iff, Z.ltb_lt, Z.eqb_eq in Hl. tauto.
Qed.

Lemma bitstring_turn_safe l s :
  xinv s → (xp s ≤ plen)%nat → turn_safe s (bitstring_turn m plen isExtract l s).
Proof.
  intros (Hcp & Hn & Hh & Hp1 & Hret & Hz) Hp. unfold bitstring_turn, CHECK_LEN.
  destruct (negb (_ =? 1)); [by apply turn_stop_ok|]. destruct isExtract eqn:HE; cbn [negb]; [|by apply turn_stop_ok].
  destruct (rd_lt m (xp s)) as (b & Hc & ->); [lia|]. rewrite bind_Val.
  pose proof (bitstring_sizes b (byte_at _ _ _ Hb Hc)) as [Hdigs Hdec]. cbv zeta in Hdigs, Hdec.
  set (count := if b =? 0 then 256 else b) in *. set (digs := Z.to_nat (Z.shiftr (count - 1) 2 + 1)) in *.
  destruct (Nat.leb_spec MAXDNAME (xcp s + digs + 9)); [by apply turn_stop_ok|].
  destruct (Nat.leb_spec (S (xp s) + Z.to_nat (Z.shiftr (count - 1) 3)) plen); cbn [negb]; [|by apply turn_stop_ok].
  rewrite put_Val, bind_Val by (cbn; lia).
  destruct (bit_digits_safe m digs false (S (xp s)) (xcp s + 3) (patch (xcp s) (codes "\[x") (xname s)))
    as (p & nm & -> & Hlen & Hle); [lia|rewrite length_patch by (cbn; lia); lia|].
  rewrite length_patch in Hlen by (cbn; lia). rewrite bind_Val.
  set (t := codes "/" ++ decimal count ++ codes "]").
  assert (Ht : (length t ≤ 5)%nat) by (unfold t; rewrite !length_app; cbn; lia).
  rewrite put_Val, bind_Val by (rewrite length_app; cbn [length]; lia).
  rewrite wr_Val, bind_Val by (rewrite length_patch by (rewrite length_app; cbn [length]; lia); lia).
  assert (Hfin : length (<[(xcp s + 3 + digs + length t)%nat := chr "."]> (patch (xcp s + 3 + digs) (t ++ [0]) nm)) = length (xname s)).
  { rewrite length_insert, length_patch; [done|rewrite length_app; cbn [length]; lia]. }
  eexists. split; [done|]. unfold turn_ok; cbn [xname]. rewrite Hfin. split_and!; [|done|unfold xmeasure; cbn; lia|by rewrite HE].
  unfold xinv. cbn [xcp xname xhops xp1 xret]. rewrite Hfin. split_and!; try done; first [lia|congruence].
Qed.

Lemma extract_turn_safe s : xinv s → turn_safe s (extract_turn m plen isExtract extrabytes s).
Proof.
  intros Hi. unfold extract_turn, CHECK_LEN.
  destruct (Nat.leb_spec (xp s + 1) plen); cbn [negb]; [|by apply turn_stop_ok].
  destruct (rd_lt m (xp s)) as (l & Hl & ->); [lia|]. rewrite bind_Val.
  set (s' := mk_x (S (xp s)) (xp1 s) (xcp s) (xhops s) (xname s) (xret s)).
  assert (Hup : ∀ o, turn_safe s' o → turn_safe s o).
  { intros o ([s2|r s2] & -> & Ht); eexists; (split; [done|]); [|exact Ht].
    destruct Ht as [(? & ? & Hlt) ?]. split_and!; [done|done| |done]. unfold xmeasure in *. cbn in Hlt. lia. }
  assert (Hi' : xinv s') by done. assert (Hp' : (xp s' ≤ plen)%nat) by (cbn; lia).
  destruct (Z.eqb_spec l 0); [by apply Hup, end_marker_safe|].
  destruct (Z.eqb_spec (Z.land l 0xc0) 0xc0); [by apply Hup, pointer_turn_safe|].
  destruct (Z.eqb_spec (Z.land l 0xc0) 0x80); [by apply turn_stop_ok|].
  destruct (Z.eqb_spec (Z.land l 0xc0) 0x40); [by apply Hup, bitstring_turn_safe|].
  apply Hup, label_turn_safe; [|done|done].
  pose proof (byte_at _ _ _ Hb Hl) as Hu. destruct (label_byte l Hu) as [? _]; [done..|]. unfold is_u8 in Hu. lia.
Qed.

Lemma extract_loop_safe fuel s :
  xinv s → (xmeasure s < fuel)%nat →
  ∃ r s', extract_loop m plen isExtract extrabytes fuel s = Val (r, s') ∧ (r = 0 ∨ r = 1 ∨ r = 2) ∧
    length (xname s') = length (xname s) ∧ (r ≠ 0 → (xend s' ≤ plen)%nat ∧ 0 ∈ xname s') ∧
    (isExtract = false → xname s' = xname s).
Proof.
  revert s. induction fuel as [|fuel IH]; intros s Hi Hf; [lia|]. cbn [extract_loop].
  destruct (extract_turn_safe s Hi) as ([s'|r s'] & -> & Ht); rewrite bind_Val;
    [|destruct Ht as [(? & ? & ?) ?]; by exists r, s'].
  destruct Ht as [(Hi' & Hlen & Hlt) Hsame]. destruct (IH s') as (r & s2 & -> & ? & ? & ? & Hsame'); [done|lia|].
  exists r, s2. split_and!; [done|done|congruence|done|]. intros HE. by rewrite Hsame', Hsame.
Qed.
End Safety.

Lemma extract_start plen p cp nm ret :
  (xmeasure plen (mk_x p None cp 0 nm ret) < extract_fuel plen)%nat.
Proof. unfold xmeasure, extract_fuel. cbn [xhops xp]. lia. Qed.

Lemma extract_name_total (m name : list Z) (plen pp extrabytes : nat) (isExtract : bool) :
  (plen < length m)%nat → bytes m → (MAXDNAME ≤ length name)%nat → (isExtract = false → 0 ∈ name) →
  ∃ r pp' name', extract_name m plen pp name isExtract extrabytes = Val (r, pp', name') ∧
    r ∈ [0; 1; 2] ∧ length name' = length name ∧ (r = 0 → pp' = pp) ∧ (r ≠ 0 → (pp' ≤ plen)%nat ∧ 0 ∈ name') ∧
    (isExtract = false → name' = name).
Proof.
  intros Hm Hb Hn H0. unfold extract_name. assert (0 < MAXDNAME)%nat by (unfold MAXDNAME; lia).
  set (nm := if isExtract then <[0%nat := 0]> name else name).
  assert (Hl : length nm = length name) by (unfold nm; destruct isExtract; by rewrite ?length_insert).
  assert (∃ z, isExtract = false → nm !! z = Some 0) as [z Hz].
  { unfold nm. destruct isExtract; [by exists O|]. destruct (list_elem_of_lookup_1 _ _ (H0 eq_refl)) as [z Hz]. by exists z. }
  replace (if isExtract then wr name 0 0 else Val name) with (Val nm)
    by (unfold nm; destruct isExtract; [by rewrite wr_Val by lia|done]).
  rewrite bind_Val.
  destruct (extract_loop_safe m plen isExtract extrabytes z Hm Hb (extract_fuel plen) (mk_x pp None 0 0 nm 1))
    as (r & s' & -> & Hr & Hlen & Hend & Hsame).
  - unfold xinv. cbn [xcp xname xhops xp1 xret]. split_and!; [lia|lia|lia|done|by left|].
    intros HE. split; [lia|by apply Hz].
  - apply extract_start.
  - rewrite bind_Val. eexists _, _, _. split; [done|]. cbn [xname] in Hlen. split_and!.
    + rewrite !elem_of_cons. tauto.
    + congruence.
    + by intros ->.
    + intros Hr0. destruct (Z.eqb_spec r 0); [done|]. by apply Hend.
    + intros HE. rewrite (Hsame HE). unfold nm. by rewrite HE.
Qed.

(** C18. extract_name is safe on any packet, however malformed, that has one more byte
    in the buffer behind its length: it ends, however its label pointers lead to one
    another, reads inside that buffer, writes inside a name buffer of MAXDNAME bytes
    (which for a comparison holds a terminated string), returns 0, 1 or 2, moves the
    caller's pointer to a place inside the packet on 1 and 2 and leaves it alone
    on 0. *)
Theorem extract_name_safe (m name : list Z) (plen pp extrabytes : nat) (isExtract : bool) :
  (plen < length m)%nat → bytes m → (MAXDNAME ≤ length name)%nat → (isExtract = false → 0 ∈ name) →
  ∃ r pp' name', extract_name m plen pp name isExtract extrabytes = Val (r, pp', name') ∧
    r ∈ [0; 1; 2] ∧ length name' = length name ∧ (r = 0 → pp' = pp) ∧ (r ≠ 0 → (pp' ≤ plen)%nat).
Proof.
  intros Hm Hb Hn H0. destruct (extract_name_total m name plen pp extrabytes isExtract Hm Hb Hn H0) as (r & pp' & name' & He & ? & ? & ? & Hr & _).
  exists r, pp', name'. split_and!; [done..|]. intros Hr0. by apply Hr.
Qed.
Lemma extract_name_safe_witness :
  ∃ r pp' name', extract_name [0xc0; 0; 7] 2 0 (repeat 0 1025) true 4 = Val (r, pp', name') ∧
    r ∈ [0; 1; 2] ∧ length name' = 1025%nat ∧ (r = 0 → pp' = O) ∧ (r ≠ 0 → (pp' ≤ 2)%nat).
Proof.
  apply (extract_name_safe [0xc0; 0; 7] (repeat 0 1025) 2 0 4 true).
  - cbn; lia.
  - repeat constructor; unfold is_u8; lia.
  - rewrite repeat_length. unfold MAXDNAME. lia.
  - done.
Defined.

(** ** What a name stands for

    The names of RFC 1035: labels, ended by a zero byte or a pointer to the rest of
    the name.  [wire p n ls e t]: at [p] is a name of the labels [ls] which takes
    [n] jumps; what follows it is at [e], the byte after its zero at [t]. *)
Definition pointer_target (hi lo : Z) : nat := Z.to_nat (Z.lor (Z.shiftl (Z.land hi 0x3f) 8) lo).
Inductive wire (m : list Z) (plen : nat) : nat → nat → list text → nat → nat → Prop :=
| wire_end p : m !! p = Some 0 → (p < plen)%nat → wire m plen p 0 [] (S p) (S p)
| wire_label p l n ls e t :
    m !! p = Some l → 0 < l < 64 → (S p + Z.to_nat l ≤ plen)%nat →
    wire m plen (S p + Z.to_nat l) n ls e t →
    wire m plen p n (sub (S p) (Z.to_nat l) m :: ls) e t
| wire_pointer p hi lo n ls e t :
    m !! p = Some hi → Z.land hi 0xc0 = 0xc0 → m !! S p = Some lo → (S p < plen)%nat →
    wire m plen (pointer_target hi lo) n ls e t →
    wire m plen p (S n) ls (S (S p)) t.

(** every label with the dot after it *)
Definition dotted (ls : list text) : text := ls ≫= λ l, l ++ [chr "."].
(** the text of a name: the final period is lost *)
Definition join (ls : list text) : text := removelast (dotted ls).
Lemma dotted_cons l ls : dotted (l :: ls) = l ++ chr "." :: dotted ls.
Proof. unfold dotted. cbn. by rewrite <- app_assoc. Qed.

Section Functional.
Context (m : list Z) (plen extrabytes : nat).
Context (Hm : (plen ≤ length m)%nat).

(** *** A turn at each kind of byte *)
Lemma turn_label isExtract p p1 cp hops nm ret l :
  m !! p = Some l → 0 < l < 64 → (p < plen)%nat →
  extract_turn m plen isExtract extrabytes (mk_x p p1 cp hops nm ret)
  = label_turn m plen isExtract l (mk_x (S p) p1 cp hops nm ret).
Proof.
  intros Hl Hr Hp. unfold extract_turn, CHECK_LEN. cbn [xp xp1 xcp xhops xname xret].
  destruct (Nat.leb_spec (p + 1) plen); [|lia]. cbn [negb]. rewrite (rd_Some _ _ _ Hl), bind_Val.
  destruct (Z.eqb_spec l 0); [lia|].
  assert (Hu : is_u8 l) by (unfold is_u8; lia).
  apply (every_byte (λ l, (64 <=? l) || (Z.land l 0xc0 =? 0)) eq_refl) in Hu.
  apply orb_true_iff in Hu as [Hu%Z.leb_le| ->%Z.eqb_eq]; [lia|done].
Qed.
Lemma turn_end isExtract p p1 cp hops nm ret :
  m !! p = Some 0 → (p < plen)%nat →
  extract_turn m plen isExtract extrabytes (mk_x p p1 cp hops nm ret)
  = end_marker plen isExtract extrabytes (mk_x (S p) p1 cp hops nm ret).
Proof.
  intros Hl Hp. unfold extract_turn, CHECK_LEN. cbn [xp xp1 xcp xhops xname xret].
  destruct (Nat.leb_spec (p + 1) plen); [|lia]. cbn [negb]. by rewrite (rd_Some _ _ _ Hl), bind_Val.
Qed.
Lemma turn_pointer isExtract p p1 cp hops nm ret hi lo :
  m !! p = Some hi → Z.land hi 0xc0 = 0xc0 → m !! S p = Some lo → (S p < plen)%nat → (hops < 255)%nat →
  extract_turn m plen isExtract extrabytes (mk_x p p1 cp hops nm ret)
  = Val (Go (mk_x (pointer_target hi lo) (Some (default (S (S p)) p1)) cp (S hops) nm ret)).
Proof.
  intros Hhi Hc Hlo Hp Hh. unfold extract_turn, CHECK_LEN. cbn [xp xp1 xcp xhops xname xret].
  destruct (Nat.leb_spec (p + 1) plen); [|lia]. cbn [negb]. rewrite (rd_Some _ _ _ Hhi), bind_Val, Hc.
  destruct (Z.eqb_spec hi 0) as [->|_]; [done|]. cbn [Z.eqb Pos.eqb]. unfold pointer_turn, CHECK_LEN. cbn [xp xp1 xcp xhops xname xret].
  destruct (Nat.leb_spec (S p + 1) plen); [|lia]. cbn [negb]. rewrite (rd_Some _ _ _ Hlo), bind_Val.
  destruct (Nat.ltb_spec 255 (S hops)); [lia|]. by destruct p1.
Qed.

(** *** Extraction *)
Definition good_labels (ls : list text) : Prop := Forall (λ l, forallb namechar l = true) ls.

Lemma extract_wire p n ls e t :
  wire m plen p n ls e t → ∀ p1 cp hops nm fuel,
  good_labels ls → (hops + n ≤ 255)%nat → (cp + length (dotted ls) < MAXDNAME)%nat → (MAXDNAME ≤ length nm)%nat →
  (t + extrabytes ≤ plen)%nat → (xmeasure plen (mk_x p p1 cp hops nm 1) < fuel)%nat →
  ∃ s', extract_loop m plen true extrabytes fuel (mk_x p p1 cp hops nm 1) = Val (1, s') ∧
    xend s' = default e p1 ∧
    xname s' = <[pred (cp + length (dotted ls)) := 0]> (patch cp (dotted ls) nm).
Proof.
  induction 1 as [p H0 Hp|p l n ls e t Hl Hr Hp Hw IH|p hi lo n ls e t Hhi Hc Hlo Hp Hw IH];
    intros p1 cp hops nm fuel Hg Hh Hcp Hn Ht Hf; (destruct fuel as [|fuel]; [lia|]); cbn [extract_loop].
  - rewrite turn_end by done. unfold end_marker, CHECK_LEN. cbn [xp xp1 xcp xhops xname xret].
    destruct (Nat.leb_spec (S p + extrabytes) plen); [|lia]. cbn [negb].
    rewrite wr_Val by (destruct (cp =? 0)%nat; lia). rewrite !bind_Val. eexists. split; [done|]. cbn [xname dotted].
    unfold xend. cbn [xp1 xp]. split; [by destruct p1|]. cbn. rewrite patch_nil, Nat.add_0_r. by destruct cp.
  - inversion Hg as [|?? Hg1 Hg2]; subst. rewrite dotted_cons, length_app, length_sub in Hcp by lia. cbn [length] in Hcp.
    rewrite (turn_label _ _ _ _ _ _ _ l) by (done || lia). unfold label_turn, CHECK_LEN. cbn [xp xp1 xcp xhops xname xret].
    destruct (Nat.leb_spec MAXDNAME (cp + Z.to_nat l + 1)); [lia|].
    destruct (Nat.leb_spec (S p + Z.to_nat l) plen); [|lia]. cbn [negb].
    rewrite copy_label_ok, bind_Val by (done || lia). cbn [negb].
    assert (Hls : length (sub (S p) (Z.to_nat l) m) = Z.to_nat l) by (rewrite length_sub; lia).
    assert (Hlp : length (patch cp (sub (S p) (Z.to_nat l) m) nm) = length nm) by (rewrite length_patch; lia).
    rewrite wr_Val, !bind_Val by lia. rewrite patch_one by lia.
    replace (cp + Z.to_nat l)%nat with (cp + length (sub (S p) (Z.to_nat l) m))%nat by lia.
    rewrite patch_patch by (cbn; lia).
    set (lab := sub (S p) (Z.to_nat l) m) in *.
    edestruct (IH p1 (S (cp + length lab)) hops (patch cp (lab ++ [chr "."]) nm) fuel) as (s' & Hrun & He & Hnm).
    + done.
    + done.
    + lia.
    + rewrite length_patch; [lia|rewrite length_app; cbn; lia].
    + done.
    + unfold xmeasure in *. cbn [xhops xp] in *. lia.
    + exists s'. split_and!; [exact Hrun|done|]. rewrite Hnm, dotted_cons, length_app. cbn [length].
      replace (S (cp + length lab)) with (cp + length (lab ++ [chr "."]))%nat by (rewrite length_app; cbn; lia).
      rewrite patch_patch by (rewrite length_app; cbn; lia). rewrite <- app_assoc. cbn [app].
      f_equal. rewrite length_app. cbn. lia.
  - rewrite (turn_pointer _ _ _ _ _ _ _ hi lo) by (done || lia). rewrite bind_Val.
    edestruct (IH (Some (default (S (S p)) p1)) cp (S hops) nm fuel) as (s' & Hrun & He & Hnm); [done|lia|done|done|done| |].
    + unfold xmeasure in *. cbn [xhops xp] in *. replace (256 - hops)%nat with (S (256 - S hops)) in Hf by lia. lia.
    + exists s'. split_and!; [exact Hrun|rewrite He; by destruct p1|done].
Qed.

(** An extended label (a bitstring) is reached. *)
Inductive extended : nat → Prop :=
| ext_here p l : m !! p = Some l → Z.land l 0xc0 = 0x40 → extended p
| ext_label p l : m !! p = Some l → 0 < l < 64 → extended (S p + Z.to_nat l) → extended p
| ext_pointer p hi lo : m !! p = Some hi → Z.land hi 0xc0 = 0xc0 → m !! S p = Some lo →
    extended (pointer_target hi lo) → extended p.

(** The reasons for a turn of an extraction that does not fail. *)
Lemma turn_sound s t :
  bytes m → (MAXDNAME ≤ length (xname s))%nat → extract_turn m plen true extrabytes s = Val t →
  match t with
  | Stop r s' => r = 0 ∨ extended (xp s) ∨ m !! xp s = Some 0 ∧ (xp s < plen)%nat ∧ (S (xp s) + extrabytes ≤ plen)%nat
  | Go s' => extended (xp s) ∨
      (∃ l, m !! xp s = Some l ∧ 0 < l < 64 ∧ (S (xp s) + Z.to_nat l ≤ plen)%nat ∧ xp s' = (S (xp s) + Z.to_nat l)%nat ∧
        forallb namechar (sub (S (xp s)) (Z.to_nat l) m) = true ∧ xhops s' = xhops s ∧
        xcp s' = (xcp s + Z.to_nat l + 1)%nat ∧ (xcp s' < MAXDNAME)%nat ∧ length (xname s') = length (xname s)) ∨
      (∃ hi lo, m !! xp s = Some hi ∧ Z.land hi 0xc0 = 0xc0 ∧ m !! S (xp s) = Some lo ∧ (S (xp s) < plen)%nat ∧
        xp s' = pointer_target hi lo ∧ xhops s' = S (xhops s) ∧ (xhops s' ≤ 255)%nat ∧ xcp s' = xcp s ∧
        length (xname s') = length (xname s))
  end.
Proof.
  intros Hb. destruct s as [p p1 cp hops nm ret]. unfold extract_turn, CHECK_LEN. cbn [xp xp1 xcp xhops xname xret].
  intros Hnm. destruct (Nat.leb_spec (p + 1) plen); cbn [negb]; [|intros [= <-]; by left].
  destruct (rd_lt m p) as (l & Hl & ->); [lia|]. rewrite bind_Val.
  destruct (Z.eqb_spec l 0) as [->|Hl0].
  { unfold end_marker, CHECK_LEN. cbn [xp xp1 xcp xhops xname xret].
    destruct (Nat.leb_spec (S p + extrabytes) plen); cbn [negb]; [|intros [= <-]; by left].
    intros (nm' & _ & [= <-])%outcome_bind_Val. right. right. split_and!; [done|lia..]. }
  destruct (Z.eqb_spec (Z.land l 0xc0) 0xc0) as [Hc|Hnc].
  { unfold pointer_turn, CHECK_LEN. cbn [xp xp1 xcp xhops xname xret].
    destruct (Nat.leb_spec (S p + 1) plen); cbn [negb]; [|intros [= <-]; by left].
    destruct (rd_lt m (S p)) as (lo & Hlo & ->); [lia|]. rewrite bind_Val.
    destruct (Nat.ltb_spec 255 (S hops)); intros [= <-]; [by left|]. right. right. exists l, lo.
    cbn [xp xhops xcp xname]. split_and!; (done || lia). }
  destruct (Z.eqb_spec (Z.land l 0xc0) 0x80) as [_|Hn8]; [intros [= <-]; by left|].
  destruct (Z.eqb_spec (Z.land l 0xc0) 0x40) as [H4|Hn4].
  { intros _. destruct t; [left|right; left]; by eapply ext_here. }
  destruct (label_byte l (byte_at _ _ _ Hb Hl)) as [Hlt _]; [done..|].
  assert (Hr : 0 < l < 64) by (pose proof (byte_at _ _ _ Hb Hl) as Hu; unfold is_u8 in Hu; lia).
  unfold label_turn, CHECK_LEN. cbn [xp xp1 xcp xhops xname xret].
  destruct (Nat.leb_spec MAXDNAME (cp + Z.to_nat l + 1)); [intros [= <-]; by left|].
  destruct (Nat.leb_spec (S p + Z.to_nat l) plen); cbn [negb]; [|intros [= <-]; by left].
  intros ([[ok cp'] nm'] & Hcopy & Ht)%outcome_bind_Val.
  destruct (copy_label_safe m (Z.to_nat l) (S p) cp nm) as (ok2 & cp2 & nm2 & Hcopy2 & Hlen & Hok); [lia..|].
  rewrite Hcopy in Hcopy2. injection Hcopy2 as <- <- <-. destruct ok; cbn [negb] in Ht; [|injection Ht as <-; by left].
  destruct (Hok eq_refl) as [-> Hg]. apply outcome_bind_Val in Ht as (nm3 & Hwr & [= <-]).
  right. left. exists l. cbn [xp xhops xcp xname]. unfold wr in Hwr. case_decide; [|done]. injection Hwr as <-.
  rewrite length_insert. split_and!; try done; lia.
Qed.

Lemma extract_sound fuel s r s' :
  bytes m → extract_loop m plen true extrabytes fuel s = Val (r, s') → r ≠ 0 →
  (xcp s < MAXDNAME ≤ length (xname s))%nat → (xhops s ≤ 255)%nat →
  extended (xp s) ∨ ∃ n ls e t, wire m plen (xp s) n ls e t ∧ good_labels ls ∧ (xhops s + n ≤ 255)%nat ∧
    (xcp s + length (dotted ls) < MAXDNAME)%nat ∧ (t + extrabytes ≤ plen)%nat.
Proof.
  intros Hb. revert s. induction fuel as [|fuel IH]; intros s; cbn [extract_loop]; [done|].
  intros (t & Hturn & Hrest)%outcome_bind_Val Hr Hcp Hh. apply turn_sound in Hturn; [|done|lia].
  destruct t as [s1|r1 s1].
  - specialize (IH s1 Hrest Hr).
    destruct Hturn as [?|[(l & Hl & Hlr & Hle & Hxp & Hg & Hxh & Hxc & Hlt & Hlen)|(hi & lo & Hhi & Hc & Hlo & Hlt & Hxp & Hxh & Hle & Hxc & Hlen)]];
      [by left| |].
    + destruct IH as [He|(n & ls & e & t & Hw & Hgl & Hn & Hd & Ht)]; [lia|lia| |].
      * left. rewrite Hxp in He. by eapply ext_label.
      * right. rewrite Hxp in Hw. exists n, (sub (S (xp s)) (Z.to_nat l) m :: ls), e, t.
        split_and!; [by eapply wire_label|by constructor|lia| |done].
        rewrite dotted_cons, length_app, length_sub by lia. cbn [length]. lia.
    + destruct IH as [He|(n & ls & e & t & Hw & Hgl & Hn & Hd & Ht)]; [lia|lia| |].
      * left. rewrite Hxp in He. by eapply ext_pointer.
      * right. rewrite Hxp in Hw. exists (S n), ls, (S (S (xp s))), t.
        split_and!; [by eapply wire_pointer|done|lia|lia|done].
  - injection Hrest as -> ->. destruct Hturn as [?|[?|(H0 & Hp & He)]]; [done|by left|]. right.
    exists O, [], (S (xp s)), (S (xp s)). split_and!; [by apply wire_end|constructor|lia|cbn; lia|lia].
Qed.
End Functional.

Lemma namechar_nonzero l : forallb namechar l = true → Forall (λ c, c ≠ 0) l.
Proof.
  rewrite forallb_forall. intros Hl. apply Forall_forall. intros c Hc%list_elem_of_In ->. by apply Hl in Hc.
Qed.
Lemma dotted_nonzero ls : good_labels ls → Forall (λ c, c ≠ 0) (dotted ls).
Proof.
  induction 1 as [|l ls Hl _ IH]; [constructor|]. rewrite dotted_cons.
  apply Forall_app. split; [by apply namechar_nonzero|]. by constructor.
Qed.
Lemma dotted_snoc ls : ls ≠ [] → dotted ls = join ls ++ [chr "."].
Proof.
  intros Hls. unfold join. destruct ls as [|l ls _] using rev_ind; [done|].
  unfold dotted. rewrite bind_app. cbn. rewrite app_nil_r, app_assoc, removelast_last. done.
Qed.
(** the string an extraction leaves in the buffer *)
Lemma str_extracted ls nm :
  good_labels ls → (length (dotted ls) < length nm)%nat →
  str_at (<[pred (0 + length (dotted ls)) := 0]> (patch 0 (dotted ls) nm)) 0 = Val (join ls).
Proof.
  intros Hg Hl. unfold str_at, patch. rewrite drop_0, take_0. cbn [app]. rewrite !Nat.add_0_l.
  pose proof (dotted_nonzero ls Hg) as Hz. destruct ls as [|l ls].
  - cbn in *. destruct nm; [cbn in Hl; lia|]. done.
  - rewrite dotted_snoc in * by done. rewrite length_app. cbn [length].
    replace (pred (length (join (l :: ls)) + 1)) with (length (join (l :: ls)) + 0)%nat by lia.
    rewrite <- app_assoc, insert_app_r. cbn [app insert list_insert]. apply until_nul_app.
    by apply Forall_app in Hz as [? _].
Qed.

(** A name the loop accepts: its labels, jumps and end are within the limits. *)
Definition accepted (m : list Z) (plen pp extrabytes : nat) (ls : list text) (e : nat) : Prop :=
  ∃ n t, wire m plen pp n ls e t ∧ good_labels ls ∧ (n ≤ 255)%nat ∧ (length (dotted ls) < MAXDNAME)%nat ∧
    (t + extrabytes ≤ plen)%nat.

Section Whole.
Context (m name : list Z) (plen pp extrabytes : nat).
Context (Hm : (plen ≤ length m)%nat) (Hn : (MAXDNAME ≤ length name)%nat).

Lemma extract_name_loop :
  extract_name m plen pp name true extrabytes =
  r ← extract_loop m plen true extrabytes (extract_fuel plen) (mk_x pp None 0 0 (<[0%nat:=0]> name) 1);
  Val (r.1, (if r.1 =? 0 then pp else xend r.2), xname r.2).
Proof.
  unfold extract_name. assert (0 < MAXDNAME)%nat by (unfold MAXDNAME; lia). rewrite wr_Val, bind_Val by lia.
  by destruct (extract_loop _ _ _ _ _ _) as [[r s]|].
Qed.
Lemma extract_name_complete ls e :
  accepted m plen pp extrabytes ls e →
  ∃ name', extract_name m plen pp name true extrabytes = Val (1, e, name') ∧ str_at name' 0 = Val (join ls) ∧
    length name' = length name.
Proof.
  intros (n & t & Hw & Hg & Hh & Hd & Ht).
  destruct (extract_wire m plen extrabytes Hm _ _ _ _ _ Hw None 0 0 (<[0%nat:=0]> name) (extract_fuel plen))
    as (s' & Hrun & He & Hnm); [done|lia|lia|by rewrite length_insert|done|apply extract_start|].
  exists (xname s'). rewrite extract_name_loop, Hrun, bind_Val. split_and!; [cbn; by rewrite He| |].
  - rewrite Hnm. apply str_extracted; [done|rewrite length_insert; lia].
  - rewrite Hnm, length_insert, length_patch; rewrite length_insert; lia.
Qed.
Lemma extract_name_sound r e name' :
  bytes m → ~ extended m pp → extract_name m plen pp name true extrabytes = Val (r, e, name') → r ≠ 0 →
  ∃ ls, accepted m plen pp extrabytes ls e ∧ r = 1 ∧ str_at name' 0 = Val (join ls).
Proof.
  intros Hb Hext Hx Hr. pose proof Hx as Hrun. rewrite extract_name_loop in Hrun.
  apply outcome_bind_Val in Hrun as ([r' s'] & Hrun & [= -> He Hnm]). assert (0 < MAXDNAME)%nat by (unfold MAXDNAME; lia).
  pose proof (extract_sound m plen extrabytes Hm _ _ _ _ Hb Hrun Hr) as Hs. cbn [xcp xname xhops xp] in Hs.
  destruct Hs as [?|(n & ls & e' & t & Hw & Hg & Hh & Hd & Ht)]; [rewrite length_insert; lia|lia|done|].
  assert (Hacc : accepted m plen pp extrabytes ls e') by (exists n, t; split_and!; done || lia).
  destruct (extract_name_complete ls e' Hacc) as (name2 & Hx2 & Hstr & _). rewrite Hx in Hx2. injection Hx2 as -> <- <-.
  by exists ls.
Qed.
End Whole.

(** C17. On names without extended labels, extract_name extracts exactly what the wire
    format of RFC 1035 says: it succeeds with a text and an end position when and only
    when there is a run of labels, at most 255 compression pointers deep, with
    characters that may be in a name, shorter than MAXDNAME and with the extra bytes
    behind its end, whose text, joined with dots, it is. *)
Theorem extract_name_spec (m name : list Z) (plen pp extrabytes e : nat) (txt : text) :
  (plen ≤ length m)%nat → bytes m → (MAXDNAME ≤ length name)%nat → ~ extended m pp →
  (∃ name', extract_name m plen pp name true extrabytes = Val (1, e, name') ∧ str_at name' 0 = Val txt) ↔
  (∃ ls, accepted m plen pp extrabytes ls e ∧ txt = join ls).
Proof.
  intros Hm Hb Hn Hext. split.
  - intros (name' & Hx & Hstr). destruct (extract_name_sound m name plen pp extrabytes Hm Hn 1 e name')
      as (ls & Hacc & _ & Hstr'); [done|done|done|lia|]. exists ls. split; [done|congruence].
  - intros (ls & Hacc & ->). destruct (extract_name_complete m name plen pp extrabytes Hm Hn ls e Hacc) as (name' & ? & ? & _).
    by exists name'.
Qed.
Lemma extract_name_spec_witness :
  ∃ name', extract_name [1; 97; 0; 0xc0; 0; 9] 6 3 (repeat 0 1025) true 1 = Val (1, 5%nat, name') ∧
    str_at name' 0 = Val [97].
Proof.
  apply (extract_name_spec [1; 97; 0; 0xc0; 0; 9] (repeat 0 1025) 6 3 1 5 [97]).
  - cbn; lia.
  - repeat constructor; unfold is_u8; lia.
  - rewrite repeat_length; unfold MAXDNAME; lia.
  - intros H. repeat (match goal with
      | H : extended _ _ |- _ => inversion H; clear H; simplify_eq/=; try lia
      end).
  - exists [[97]]. split; [|done]. exists 1%nat, 3%nat. split_and!; [|repeat constructor|lia|unfold MAXDNAME; cbn; lia|lia].
    eapply (wire_pointer _ _ 3 0xc0 0); [done|done|done|lia|].
    exact (wire_label [1; 97; 0; 0xc0; 0; 9] 6 0 1 0 [] 3 3 eq_refl ltac:(lia) ltac:(cbn; lia)
             (wire_end [1; 97; 0; 0xc0; 0; 9] 6 2 eq_refl ltac:(lia))).
Defined.

(** ** Comparison *)
Section Compare.
Context (m : list Z) (plen extrabytes : nat) (Hm : (plen ≤ length m)%nat).

(** the rest of a name and the labels that are left *)
Definition agrees (ls : list text) (rest : text) : Prop :=
  map fold rest = map fold (dotted ls) ∨ ls ≠ [] ∧ map fold rest ++ [chr "."] = map fold (dotted ls).
#[export] Instance agrees_dec ls rest : Decision (agrees ls rest).
Proof. apply _. Defined.

Lemma compare_label_spec l p pre rest post ret :
  (p + l ≤ length m)%nat → Forall (λ c, c ≠ 0) rest →
  compare_label m l p (length pre) (pre ++ rest ++ 0 :: post) ret =
  Val ((length pre + Nat.min l (length rest))%nat,
       if decide (map fold (take l rest) = map fold (sub p l m)) then ret else 2).
Proof.
  intros Hp Hr. revert p pre rest ret Hp Hr. induction l as [|l IH]; intros p pre rest ret Hp Hr; cbn [compare_label].
  { unfold sub. cbn. by rewrite Nat.add_0_r. }
  destruct (rd_lt m p) as (c2 & Hc2 & Hrd); [lia|]. rewrite (sub_cons _ _ _ _ Hc2).
  destruct Hr as [|c1 rest Hc1 Hr].
  - cbn [app]. rewrite (rd_Some _ (length pre) 0) by (by apply list_lookup_middle). rewrite bind_Val, Hrd, bind_Val.
    cbn [Z.eqb]. pose proof (IH (S p) pre [] 2 ltac:(lia) ltac:(constructor)) as IH'. cbn [app] in IH'. rewrite IH'.
    cbn [length]. rewrite Nat.min_0_r. cbn [take map]. by repeat case_decide.
  - rewrite (rd_Some _ (length pre) c1) by (by apply list_lookup_middle). rewrite bind_Val, Hrd, bind_Val.
    destruct (Z.eqb_spec c1 0) as [|_]; [done|].
    replace (S (length pre)) with (length (pre ++ [c1])) by (rewrite length_app; cbn; lia).
    replace (pre ++ (c1 :: rest) ++ 0 :: post) with ((pre ++ [c1]) ++ rest ++ 0 :: post) by (by rewrite <- app_assoc).
    rewrite IH by (lia || done). cbn [take map length]. f_equal. f_equal.
    + rewrite length_app. cbn. lia.
    + destruct (Z.eqb_spec (fold c1) (fold c2)) as [->|Hne]; cbn [negb].
      * apply decide_ext. split; [by intros ->|by intros [= ->]].
      * repeat case_decide; simplify_eq; done.
Qed.

Lemma fold_dot c : fold c = chr "." ↔ c = chr ".".
Proof. change (chr ".") with 46. unfold fold, is_upper, between. split_guards. Qed.
Lemma dotted_nil_inv ls : map fold (dotted ls) = [] → ls = [].
Proof. destruct ls as [|l ls]; [done|]. rewrite dotted_cons, map_app. by destruct l. Qed.
Lemma map_fold_length a b : map fold a = map fold b → length a = length b.
Proof. intros H%(f_equal length). by rewrite !length_map in H. Qed.

Lemma agrees_step lab ls rest :
  Forall (λ l, l ≠ []) ls →
  agrees (lab :: ls) rest ↔
  map fold (take (length lab) rest) = map fold lab ∧
  match drop (length lab) rest with
  | [] => agrees ls []
  | c :: rest' => c = chr "." ∧ agrees ls rest'
  end.
Proof.
  intros Hne. unfold agrees. rewrite dotted_cons, map_app. cbn [map]. replace (fold (chr ".")) with (chr ".") by done.
  rewrite <- (take_drop (length lab) rest) at 1 2. rewrite map_app.
  assert (Hlen : length (take (length lab) rest) = length lab ∨ drop (length lab) rest = []).
  { rewrite length_take. destruct (decide (length lab ≤ length rest)%nat); [left; lia|right; apply drop_ge; lia]. }
  set (a := take (length lab) rest) in *. destruct (drop (length lab) rest) as [|c r]; cbn [map app].
  - rewrite !app_nil_r. split.
    + intros [H|[_ H]].
      * apply (f_equal length) in H. rewrite length_app in H. cbn in H. rewrite !length_map in H.
        unfold a in H. rewrite length_take in H. lia.
      * assert (map fold (dotted ls) = []) as Hd.
        { apply (f_equal length) in H. rewrite !length_app in H. cbn in H. rewrite !length_map in H.
          unfold a in H. rewrite length_take in H. apply nil_length_inv. rewrite length_map. lia. }
        rewrite Hd in H |- *. apply app_inj_tail in H as [? _]. split; [done|by left].
    + intros [-> [H|[Hn H]]].
      * right. split; [done|]. by rewrite <- H.
      * destruct ls as [|l ls]; [done|]. inversion Hne as [|?? Hl _]; subst. rewrite dotted_cons, map_app in H.
        destruct l as [|x [|y l]]; [done|done|done].
  - assert (Ha : length (map fold a) = length (map fold lab)) by (rewrite !length_map; destruct Hlen; done).
    split.
    + intros [H|[_ H]].
      * apply app_inj_1 in H as [Hlab H]; [|done]. injection H as Hc H. apply (proj1 (fold_dot c)) in Hc.
        split_and!; [done|done|by left].
      * rewrite <- app_assoc in H. apply app_inj_1 in H as [Hlab H]; [|done]. injection H as Hc H. apply (proj1 (fold_dot c)) in Hc.
        split_and!; [done|done|]. right. split; [|done]. intros ->. cbn in H. by destruct (map fold r).
    + intros (Hlab & -> & [H|[_ H]]); rewrite Hlab; [left|right]; rewrite <- ?app_assoc; cbn; (rewrite H || rewrite <- H); done.
Qed.

Lemma wire_nonempty p n ls e t : wire m plen p n ls e t → Forall (λ l, l ≠ []) ls.
Proof.
  induction 1 as [|p l n ls e t Hl Hr Hp _ IH|]; [constructor|constructor; [|done]|done].
  intros Hx%(f_equal length). rewrite length_sub in Hx by lia. cbn in Hx. lia.
Qed.

Definition verdict (ls : list text) (rest : text) (ret : Z) : Z :=
  if decide (ret = 1 ∧ agrees ls rest) then 1 else 2.

(** What a label leaves of the name, and whether it agreed. *)
Lemma compare_turn p l p1 hops pre rest post ret :
  m !! p = Some l → 0 < l < 64 → (S p + Z.to_nat l ≤ plen)%nat → Forall (λ c, c ≠ 0) rest →
  (length pre + Z.to_nat l + 1 < MAXDNAME)%nat → ret = 1 ∨ ret = 2 →
  let lab := sub (S p) (Z.to_nat l) m in
  ∃ pre' rest' ret', pre ++ rest ++ 0 :: post = pre' ++ rest' ++ 0 :: post ∧
    extract_turn m plen false extrabytes (mk_x p p1 (length pre) hops (pre ++ rest ++ 0 :: post) ret)
      = Val (Go (mk_x (S p + Z.to_nat l) p1 (length pre') hops (pre' ++ rest' ++ 0 :: post) ret')) ∧
    Forall (λ c, c ≠ 0) rest' ∧ (length pre' ≤ length pre + Z.to_nat l + 1)%nat ∧ (ret' = 1 ∨ ret' = 2) ∧
    ∀ ls, Forall (λ l, l ≠ []) ls → verdict ls rest' ret' = verdict (lab :: ls) rest ret.
Proof.
  intros Hl Hr Hp Hz Hcp Hret lab.
  assert (Hlab : length lab = Z.to_nat l) by (unfold lab; rewrite length_sub; lia).
  rewrite turn_label with (l := l) by (done || lia). unfold label_turn, CHECK_LEN. cbn [xp xp1 xcp xhops xname xret].
  destruct (Nat.leb_spec MAXDNAME (length pre + Z.to_nat l + 1)); [lia|].
  destruct (Nat.leb_spec (S p + Z.to_nat l) plen); [|lia]. cbn [negb].
  rewrite compare_label_spec by (done || lia). rewrite bind_Val. fold lab.
  set (ret1 := if decide (map fold (take (Z.to_nat l) rest) = map fold lab) then ret else 2).
  assert (Hret1 : ret1 = 1 ∨ ret1 = 2) by (unfold ret1; case_decide; [done|by right]).
  assert (Hstep : ∀ ls, Forall (λ l, l ≠ []) ls → (ret1 = 1 ∧
     match drop (Z.to_nat l) rest with [] => agrees ls [] | c :: r => c = chr "." ∧ agrees ls r end) ↔
     ret = 1 ∧ agrees (lab :: ls) rest).
  { intros ls Hls. rewrite agrees_step, Hlab by done. unfold ret1. case_decide; intuition congruence. }
  set (a := take (Z.to_nat l) rest) in *.
  assert (Ha : length a = Nat.min (Z.to_nat l) (length rest)) by (unfold a; by rewrite length_take).
  assert (Hsplit : rest = a ++ drop (Z.to_nat l) rest) by (unfold a; by rewrite take_drop).
  clearbody a. rewrite <- Ha. replace (length pre + length a)%nat with (length (pre ++ a)) by apply length_app.
  destruct (drop (Z.to_nat l) rest) as [|c r].
  - rewrite app_nil_r in Hsplit. rewrite Hsplit.
    rewrite (rd_Some _ (length (pre ++ a)) 0) by (rewrite app_assoc; by apply list_lookup_middle).
    rewrite bind_Val. cbn [Z.eqb negb]. exists (pre ++ a), [], ret1. rewrite <- app_assoc. cbn [app].
    split_and!; [done|done|constructor|rewrite length_app; lia|done|].
    intros ls Hls. unfold verdict. apply decide_ext. rewrite Hstep by done. by rewrite Hsplit at 1.
  - rewrite Hsplit. rewrite (rd_Some _ (length (pre ++ a)) c)
      by (rewrite <- (app_assoc a), (app_assoc pre); by apply list_lookup_middle).
    rewrite bind_Val. rewrite Hsplit in Hz. apply Forall_app in Hz as [_ Hz].
    apply Forall_cons in Hz as [Hc Hz'].
    destruct (Z.eqb_spec c 0) as [|_]; [done|]. cbn [negb].
    exists (pre ++ a ++ [c]), r, (if negb (c =? chr ".") then 2 else ret1).
    replace (length (pre ++ a ++ [c])) with (S (length (pre ++ a))) by (rewrite !length_app; cbn; lia).
    split_and!; [by rewrite <- !app_assoc|by rewrite <- !app_assoc|done|rewrite length_app; lia|by destruct (negb _); [right|]|].
    intros ls Hls. unfold verdict. apply decide_ext. rewrite <- Hsplit, <- Hstep by done.
    destruct (Z.eqb_spec c (chr ".")); cbn [negb]; intuition congruence.
Qed.

Lemma compare_wire p n ls e t :
  wire m plen p n ls e t → ∀ p1 hops (pre rest post : text) ret fuel,
  Forall (λ c, c ≠ 0) rest → (hops + n ≤ 255)%nat → (length pre + length (dotted ls) < MAXDNAME)%nat →
  (t + extrabytes ≤ plen)%nat → ret = 1 ∨ ret = 2 →
  (xmeasure plen (mk_x p p1 (length pre) hops (pre ++ rest ++ 0%Z :: post) ret) < fuel)%nat →
  ∃ s', extract_loop m plen false extrabytes fuel (mk_x p p1 (length pre) hops (pre ++ rest ++ 0 :: post) ret)
        = Val (verdict ls rest ret, s') ∧ xend s' = default e p1 ∧ xname s' = pre ++ rest ++ 0 :: post.
Proof.
  induction 1 as [p H0 Hp|p l n ls e t Hl Hr Hp Hw IH|p hi lo n ls e t Hhi Hc Hlo Hp Hw IH];
    intros p1 hops pre rest post ret fuel Hz Hh Hcp Ht Hret Hf; (destruct fuel as [|fuel]; [lia|]); cbn [extract_loop].
  - rewrite turn_end by done. unfold end_marker, CHECK_LEN. cbn [xp xp1 xcp xhops xname xret].
    destruct (Nat.leb_spec (S p + extrabytes) plen); [|lia]. cbn [negb].
    set (s' := mk_x (S p) p1 (length pre) hops (pre ++ rest ++ 0 :: post) ret).
    assert (He : xend s' = default (S p) p1) by (unfold xend; by destruct p1).
    destruct Hz as [|c rest Hc Hz].
    + rewrite (rd_Some _ _ 0) by (by apply list_lookup_middle). rewrite !bind_Val. cbn [Z.eqb negb].
      exists s'. split_and!; [|done|done]. unfold verdict. do 2 f_equal.
      destruct Hret as [-> | ->]; [rewrite decide_True; [done|split; [done|by left]]|by rewrite decide_False by (by intros [??])].
    + rewrite (rd_Some _ _ c) by (by apply list_lookup_middle). rewrite !bind_Val. destruct (Z.eqb_spec c 0); [done|]. cbn [negb].
      exists s'. split_and!; [|done|done]. unfold verdict. rewrite decide_False; [done|]. by intros [_ [[=]|[? _]]].
  - rewrite dotted_cons, length_app, length_sub in Hcp by lia. cbn [length] in Hcp.
    destruct (compare_turn p l p1 hops pre rest post ret) as (pre' & rest' & ret' & Heq & Hturn & Hz' & Hlen & Hret' & Hv);
      [done|done|done|done|lia|done|].
    rewrite Hturn, bind_Val. destruct (IH p1 hops pre' rest' post ret' fuel) as (s' & Hrun & He & Hnm); [done|done|lia|done|done| |].
    + unfold xmeasure in *. cbn [xhops xp] in *. lia.
    + exists s'. rewrite Hrun, Hv, Heq by (by eapply wire_nonempty). done.
  - rewrite turn_pointer with (hi := hi) (lo := lo) by (done || lia). rewrite bind_Val.
    destruct (IH (Some (default (S (S p)) p1)) (S hops) pre rest post ret fuel) as (s' & Hrun & He & Hnm); [done|lia|done|done|done| |].
    + unfold xmeasure in *. cbn [xhops xp] in *. replace (256 - hops)%nat with (S (256 - S hops)) in Hf by lia. lia.
    + exists s'. split_and!; [exact Hrun|rewrite He; by destruct p1|done].
Qed.
End Compare.

Lemma extract_name_equal (m s post : list Z) (plen pp extrabytes n e t : nat) (ls : list text) :
  (plen ≤ length m)%nat → wire m plen pp n ls e t → (n ≤ 255)%nat → (length (dotted ls) < MAXDNAME)%nat →
  (t + extrabytes ≤ plen)%nat → Forall (λ c, c ≠ 0) s → good_labels ls →
  extract_name m plen pp (s ++ 0 :: post) false extrabytes =
  Val (if hostname_isequal s (join ls) || hostname_isequal s (dotted ls) then 1 else 2, e, s ++ 0 :: post).
Proof.
  intros Hm Hw Hn Hd Ht Hs Hg. unfold extract_name. rewrite bind_Val.
  destruct (compare_wire m plen extrabytes Hm pp n ls e t Hw None 0 [] s post 1 (extract_fuel plen))
    as (s' & Hrun & He & Hnm); [done|lia|cbn; lia|done|by left|apply extract_start|].
  cbn [app length] in Hrun, Hnm. rewrite Hrun, bind_Val, Hnm.
  pose proof (dotted_nonzero ls Hg) as Hdz.
  assert (Hjz : Forall (λ c, c ≠ 0) (join ls)).
  { destruct ls as [|l ls]; [constructor|]. rewrite dotted_snoc in Hdz by done. by apply Forall_app in Hdz as [? _]. }
  rewrite !hostname_isequal_fold by done.
  assert (Hag : agrees ls s ↔ map fold s = map fold (join ls) ∨ map fold s = map fold (dotted ls)).
  { unfold agrees. destruct ls as [|l ls]; [cbn; naive_solver|].
    rewrite (dotted_snoc (l :: ls)), !map_app by done. change (map fold [chr "."]) with [chr "."].
    split; [intros [?|[_ [? _]%app_inj_tail]]; tauto|]. intros [->|?]; [right|left]; done. }
  assert (Hv : verdict ls s 1 = if bool_decide (map fold s = map fold (join ls)) ||
    bool_decide (map fold s = map fold (dotted ls)) then 1 else 2).
  { unfold verdict. case_decide as Hdec.
    - destruct Hdec as [_ [Hj|Hj]%Hag]; rewrite (bool_decide_eq_true_2 _ Hj); [done|by rewrite orb_true_r].
    - rewrite !bool_decide_eq_false_2 by tauto. done. }
  rewrite Hv. unfold xend in He. cbn [default] in He. rewrite He.
  by destruct (_ || _).
Qed.

(** In its comparing mode extract_name answers, for a well-formed name on the wire
    and any string, 1 exactly when the string is the dotted name, in any case of its
    letters and with or without a final dot, and 2 otherwise; it leaves the string
    alone and steps over the name. *)
Theorem extract_name_compare (m s post : list Z) (plen pp extrabytes n e t : nat) (ls : list text) :
  (plen ≤ length m)%nat → wire m plen pp n ls e t → (n ≤ 255)%nat → (length (dotted ls) < MAXDNAME)%nat →
  (t + extrabytes ≤ plen)%nat → Forall (λ c, c ≠ 0) s → good_labels ls →
  extract_name m plen pp (s ++ 0 :: post) false extrabytes =
  Val (if hostname_isequal s (join ls) || hostname_isequal s (dotted ls) then 1 else 2, e, s ++ 0 :: post).
Proof. apply extract_name_equal. Qed.
Lemma extract_name_compare_witness :
  extract_name [3; 102; 79; 111; 0] 5 0 (codes "FoO" ++ [0]) false 0 = Val (1, 5%nat, codes "FoO" ++ [0]).
Proof.
  refine (extract_name_compare [3; 102; 79; 111; 0] (codes "FoO") [] 5 0 0 0 5 5 [[102; 79; 111]] _ _ _ _ _ _ _).
  - cbn; lia.
  - apply (wire_label [3; 102; 79; 111; 0] 5 0 3 0 [] 5 5); [done|lia|cbn; lia|]. by apply (wire_end _ 5 4); [|lia].
  - lia.
  - unfold MAXDNAME. cbn. lia.
  - lia.
  - by repeat constructor.
  - by repeat constructor.
Defined.

(** ** Skipping *)
Section Skip.
Context (m : list Z) (plen : nat) (Hm : (plen ≤ length m)%nat).

Lemma skip_wire p n ls e t fuel :
  wire m plen p n ls e t → (plen + 1 - p < fuel)%nat → skip_loop fuel m plen p = Val (Some e) ∧ (e ≤ plen)%nat.
Proof.
  intros Hw. revert fuel.
  induction Hw as [p H0 Hp|p l n ls e t Hl Hr Hp Hw IH|p hi lo n ls e t Hhi Hc Hlo Hp Hw IH];
    intros fuel Hf; (destruct fuel as [|fuel]; [lia|]); cbn [skip_loop]; unfold CHECK_LEN;
    (destruct (Nat.leb_spec (p + 1) plen); [|lia]); cbn [negb].
  - rewrite (rd_Some _ _ _ H0), bind_Val. unfold ADD_RDLEN. rewrite !Z.land_0_l. cbn [Z.eqb Z.to_nat Nat.eqb negb].
    split; [destruct (negb _); [done|do 2 f_equal; lia]|lia].
  - rewrite (rd_Some _ _ _ Hl), bind_Val.
    assert (Hu : is_u8 l) by (unfold is_u8; lia).
    apply (every_byte (λ l, (64 <=? l) || ((Z.land l 0xc0 =? 0) && (Z.land l 0x3f =? l))) eq_refl) in Hu.
    apply orb_true_iff in Hu as [Hu%Z.leb_le|[->%Z.eqb_eq ->%Z.eqb_eq]%andb_true_iff]; [lia|]. cbn [Z.eqb].
    unfold ADD_RDLEN, CHECK_LEN. destruct (Nat.leb_spec (S p + Z.to_nat l) plen); [|lia]. cbn [negb].
    destruct (Nat.eqb_spec (Z.to_nat l) 0); [lia|]. apply IH. lia.
  - rewrite (rd_Some _ _ _ Hhi), bind_Val, Hc. cbn [Z.eqb Pos.eqb]. split; [do 2 f_equal; lia|lia].
Qed.

Lemma skip_loop_safe p fuel :
  (plen + 1 - p < fuel)%nat → ∃ r, skip_loop fuel m plen p = Val r ∧ ∀ q, r = Some q → (p < q)%nat.
Proof.
  revert p. induction fuel as [|fuel IH]; intros p Hf; [lia|]. cbn [skip_loop]. unfold CHECK_LEN.
  destruct (Nat.leb_spec (p + 1) plen); cbn [negb]; [|by exists None].
  destruct (rd_lt m p) as (b & _ & ->); [lia|]. rewrite bind_Val.
  assert (Hgo : ∀ p', (p < p')%nat → ∃ r, skip_loop fuel m plen p' = Val r ∧ ∀ q, r = Some q → (p < q)%nat).
  { intros p' Hp'. destruct (IH p') as (r & Hr & Hq); [lia|]. exists r. split; [done|]. intros q Hrq. specialize (Hq q Hrq). lia. }
  destruct (Z.eqb_spec (Z.land b 0xc0) 0xc0); [eexists; split; [done|intros q [= <-]; lia]|].
  destruct (Z.eqb_spec (Z.land b 0xc0) 0x80); [by exists None|].
  destruct (Z.eqb_spec (Z.land b 0xc0) 0x40).
  - destruct (Nat.leb_spec (p + 2) plen); cbn [negb]; [|by exists None].
    destruct (negb (_ =? 1)); [by exists None|]. destruct (rd_lt m (S p)) as (c & _ & ->); [lia|]. rewrite bind_Val.
    apply Hgo. lia.
  - unfold ADD_RDLEN. destruct (CHECK_LEN _ _ _); cbn [negb]; destruct (Nat.eqb_spec (Z.to_nat (Z.land b 0x3f)) 0);
      try (apply Hgo; lia); (eexists; split; [done|intros q [= <-]; lia]).
Qed.

(** skip_name never reads outside the message *)
Lemma skip_name_safe p extrabytes :
  ∃ r, skip_name m plen p extrabytes = Val r ∧ ∀ q, r = Some q → (p < q ∧ q + extrabytes ≤ plen)%nat.
Proof.
  unfold skip_name. destruct (skip_loop_safe p (plen + 2)) as (r & -> & Hr); [lia|]. rewrite bind_Val.
  destruct r as [q|]; [|by exists None]. eexists. split; [done|]. intros q'. unfold CHECK_LEN.
  destruct (Nat.leb_spec (q + extrabytes) plen); [|done]. intros [= <-]. split; [by apply Hr|done].
Qed.
End Skip.

(** C31. On names without extended (bit-string) labels, neither in the name nor where its
    pointers lead, skip_name agrees with extract_name: for a name that extract_name
    extracts it steps to the same place, and fails exactly when the extra bytes are
    not there.  With extended labels the two may step differently. *)
Theorem skip_name_extract_name (m name name' : list Z) (plen pp extrabytes e : nat) :
  (plen ≤ length m)%nat → bytes m → (MAXDNAME ≤ length name)%nat → ~ extended m pp →
  extract_name m plen pp name true extrabytes = Val (1, e, name') →
  skip_name m plen pp extrabytes = Val (if (e + extrabytes <=? plen)%nat then Some e else None).
Proof.
  intros Hm Hb Hn Hext Hx.
  destruct (extract_name_sound m name plen pp extrabytes Hm Hn 1 e name') as (ls & (n & t & Hw & _) & _); [done|done|done|lia|].
  unfold skip_name. by destruct (skip_wire m plen Hm pp n ls e t (plen + 2) Hw) as [-> _]; [lia|].
Qed.
Lemma skip_name_extract_name_witness :
  skip_name [1; 97; 0; 0xc0; 0; 9] 6 3 1 = Val (Some 5%nat).
Proof.
  refine (skip_name_extract_name [1; 97; 0; 0xc0; 0; 9] (repeat 0 1025) _ 6 3 1 5 _ _ _ _ _).
  - cbn; lia.
  - repeat constructor; unfold is_u8; lia.
  - rewrite repeat_length; unfold MAXDNAME; lia.
  - intros H. repeat (match goal with
      | H : extended _ _ |- _ => inversion H; clear H; simplify_eq/=; try lia
      end).
  - vm_compute. reflexivity.
Defined.

(** ** What do_rfc1035_name writes *)
Definition label_bytes (l : text) : list Z := Z.of_nat (length l) :: l.
Lemma label_labels t : ∃ l rest, label t = (l, rest) ∧
  (rest = [] ∧ labels t = [l] ∧ t = l ∨ ∃ t', rest = chr "." :: t' ∧ labels t = l :: labels t' ∧ t = l ++ chr "." :: t').
Proof.
  induction t as [|c t IH]; cbn [label labels]; [exists [], []; auto|].
  destruct (Z.eqb_spec c (chr ".")) as [->|Hc].
  - exists [], (chr "." :: t). split; [done|]. right. by exists t.
  - destruct IH as (l & rest & -> & [(-> & -> & ->)|(t' & -> & -> & ->)]); eexists _, _; (split; [done|]); [by left|].
    right. by exists t'.
Qed.
Lemma rfc1035_labels fuel t :
  (length t ≤ fuel)%nat → Forall (λ l, l ≠ [] ∧ short l) (labels t) →
  rfc1035_bytes fuel t = labels t ≫= label_bytes.
Proof.
  revert t. induction fuel as [|fuel IH]; intros t Hf Hl.
  { destruct t; [|cbn in Hf; lia]. by inversion Hl as [|?? [? _]]. }
  destruct t as [|c t']; [by inversion Hl as [|?? [? _]]|]. set (t := c :: t') in *.
  assert (rfc1035_bytes (S fuel) t = let '(l, rest) := label t in
    u8 (Z.of_nat (length l)) :: l ++ rfc1035_bytes fuel (tail rest)) as -> by done.
  destruct (label_labels t) as (l & rest & -> & [(-> & Hls & _)|(t2 & -> & Hls & Ht)]); rewrite Hls in *;
    inversion Hl as [|?? [Hne Hsh] Hl2]; subst; unfold short, MAXLABEL in Hsh;
    unfold u8; rewrite Z.mod_small by lia; cbn [tail mbind list_bind]; unfold label_bytes at 1.
  - by destruct fuel.
  - rewrite IH; [done| |done]. apply (f_equal length) in Ht. rewrite length_app in Ht. cbn [length] in Ht. lia.
Qed.
Lemma dotted_labels t : dotted (labels t) = t ++ [chr "."].
Proof.
  induction t as [|c t IH]; cbn [labels]; [done|]. destruct (Z.eqb_spec c (chr ".")) as [->|Hc].
  - by rewrite dotted_cons, IH.
  - destruct (label_labels t) as (l & _ & _ & [(_ & Hls & _)|(t' & _ & Hls & _)]); rewrite Hls in *;
      cbn [List.hd List.tl]; rewrite dotted_cons in *; cbn [app]; by rewrite IH.
Qed.
Lemma join_labels t : join (labels t) = t.
Proof. unfold join. by rewrite dotted_labels, removelast_last. Qed.

Lemma wire_label_eq m plen p l lab n ls e t :
  m !! p = Some l → 0 < l < 64 → (S p + Z.to_nat l ≤ plen)%nat → sub (S p) (Z.to_nat l) m = lab →
  wire m plen (S p + Z.to_nat l) n ls e t → wire m plen p n (lab :: ls) e t.
Proof. intros ??? <- ?. by apply wire_label. Qed.
Lemma wire_labels ls pre post plen :
  Forall (λ l, l ≠ [] ∧ short l) ls →
  let e := (length pre + length (ls ≫= label_bytes) + 1)%nat in
  (e ≤ plen)%nat → wire (pre ++ (ls ≫= label_bytes) ++ 0 :: post) plen (length pre) 0 ls e e.
Proof.
  intros Hls. revert pre. induction Hls as [|l ls [Hne Hsh] _ IH]; intros pre e He; cbn [mbind list_bind] in *.
  - subst e. cbn [length app] in *. rewrite Nat.add_0_r, Nat.add_1_r. apply wire_end; [by apply list_lookup_middle|lia].
  - unfold short, MAXLABEL in Hsh. unfold label_bytes at 1.
    set (m := pre ++ ((Z.of_nat (length l) :: l) ++ (ls ≫= label_bytes)) ++ 0 :: post).
    assert (Hl : (0 < length l)%nat) by (destruct l; [done|cbn; lia]).
    assert (Hmid : ∀ x, sub (S (length pre)) (length l) (pre ++ x :: l ++ (ls ≫= label_bytes) ++ 0 :: post) = l).
    { intros x. unfold sub. rewrite cons_middle, app_assoc, drop_app_length' by (rewrite length_app; cbn; lia).
      apply take_app_length. }
    assert (Hm : m = pre ++ Z.of_nat (length l) :: l ++ (ls ≫= label_bytes) ++ 0 :: post).
    { unfold m. cbn [app]. by rewrite <- app_assoc. }
    subst e. rewrite length_app in *. change (length (label_bytes l)) with (S (length l)) in *.
    apply (wire_label_eq _ _ _ (Z.of_nat (length l))).
    + rewrite Hm. by apply list_lookup_middle.
    + lia.
    + rewrite Nat2Z.id. lia.
    + by rewrite Hm, Nat2Z.id.
    + rewrite Nat2Z.id, Hm. specialize (IH (pre ++ Z.of_nat (length l) :: l)). cbv zeta in IH.
      rewrite length_app in IH. cbn [length] in IH. rewrite <- app_assoc in IH. cbn [app] in IH.
      replace (S (length pre) + length l)%nat with (length pre + S (length l))%nat by lia.
      replace (length pre + (S (length l) + length (ls ≫= label_bytes)) + 1)%nat
        with (length pre + S (length l) + length (ls ≫= label_bytes) + 1)%nat by lia.
      apply IH. lia.
Qed.

(** C30. A host name written by do_rfc1035_name is read back by extract_name from the
    packet: the same text and the place behind the name, for every name whose labels
    are not empty, at most 63 characters long and of characters that may be in one. *)
Theorem rfc1035_name_roundtrip (pre post name : list Z) (txt : text) (plen extrabytes : nat) :
  Forall (λ l, l ≠ [] ∧ short l) (labels txt) → good_labels (labels txt) → (length txt + 1 < MAXDNAME)%nat →
  (MAXDNAME ≤ length name)%nat →
  let m := pre ++ do_rfc1035_name (Some txt) ++ 0 :: post in
  let e := (length pre + length txt + 2)%nat in
  (e + extrabytes ≤ plen ≤ length m)%nat →
  ∃ name', extract_name m plen (length pre) name true extrabytes = Val (1, e, name') ∧ str_at name' 0 = Val txt.
Proof.
  intros Hl Hg Hlen Hn m e He.
  assert (Hb : do_rfc1035_name (Some txt) = labels txt ≫= label_bytes) by (by apply rfc1035_labels).
  assert (Hsize : length (labels txt ≫= label_bytes) = (length txt + 1)%nat).
  { transitivity (length (dotted (labels txt))); [|by rewrite dotted_labels, length_app].
    clear. induction (labels txt) as [|l ls IH]; [done|]. rewrite dotted_cons, bind_cons, !length_app, IH.
    change (length (label_bytes l)) with (S (length l)). cbn [length]. lia. }
  destruct (extract_name_complete m name plen (length pre) extrabytes ltac:(lia) Hn (labels txt) e) as (name' & ? & Hstr & _).
  - exists O, e. split_and!; [|done|lia|rewrite dotted_labels, length_app; cbn; lia|lia].
    subst m. rewrite Hb in *. replace e with (length pre + length (labels txt ≫= label_bytes) + 1)%nat by lia.
    apply wire_labels; [done|lia].
  - exists name'. by rewrite join_labels in Hstr.
Qed.
Lemma rfc1035_name_roundtrip_witness :
  ∃ name', extract_name ([7; 7] ++ do_rfc1035_name (Some (codes "www.wiko.com")) ++ 0 :: [0; 1; 0; 1]) 20 2 (repeat 5 1025) true 4
    = Val (1, 16%nat, name') ∧ str_at name' 0 = Val (codes "www.wiko.com").
Proof.
  apply (rfc1035_name_roundtrip [7; 7] [0; 1; 0; 1] (repeat 5 1025) (codes "www.wiko.com") 20 4).
  - by vm_compute; repeat constructor.
  - by vm_compute; repeat constructor.
  - unfold MAXDNAME. apply Nat.ltb_lt. by vm_compute.
  - rewrite repeat_length. unfold MAXDNAME. lia.
  - split; [cbn [length]|]; apply Nat.leb_le; by vm_compute.
Defined.
End DnsName.
