(* ===== verification/DnsMsg.v ===== *)
(** * Sections, answers and reverse names (src/external/dnsmasq/src/rfc1035.c)

    What dnsmasq does with whole messages: the checksum of the questions, the
    pseudo header, the rewriting of addresses, the replies it builds, and the
    addresses that reverse names stand for.  An address in memory is the
    little-endian number of its bytes. *)
From S2P Require Import Prelude Runtime DriverRt DnsUtil DnsName.
Import DnsUtil DnsName.

Module DnsMsg.

Definition F_IMMORTAL : Z := 1.
Definition F_CONFIG : Z := 2.
Definition F_REVERSE : Z := 4.
Definition F_FORWARD : Z := 8.
Definition F_DHCP : Z := 16.
Definition F_NEG : Z := 32.
Definition F_HOSTS : Z := 64.
Definition F_IPV4 : Z := 128.
Definition F_IPV6 : Z := 256.
Definition F_BIGNAME : Z := 512.
Definition F_UPSTREAM : Z := 1024.
Definition F_SERVER : Z := 2048.
Definition F_NXDOMAIN : Z := 4096.
Definition F_QUERY : Z := 8192.
Definition F_CNAME : Z := 16384.
Definition F_NOERR : Z := 32768.
Definition has (flags f : Z) : bool := negb (Z.land flags f =? 0).

(** ** Reverse names *)
Definition MAXARPANAME : nat := 75.
Definition digit_value (t : text) : Z := u8 (i32 (Z.min (2 ^ 63 - 1) (digits 0 t))).
(** The loop over the octets of www.xxx.yyy.zzz.in-addr.arpa, the chunks before
    the last two; [None]: a chunk that is not digits. *)
Fixpoint arpa4 (chunks : list text) (addr : list Z) : bool * list Z :=
  match chunks with
  | [] => (true, addr)
  | c :: chunks' =>
      if forallb isdigit c
      then arpa4 chunks' (digit_value c :: take 3 addr ++ drop 4 addr)
      else (false, addr)
  end.
(** The digits of \[x<hex>/128]: [j] digits before; the rest of the text. *)
Fixpoint arpa6_bits (t : text) (j : nat) (addr : list Z) : nat * text * list Z :=
  match t with
  | c :: t' =>
      if isxdigit c && (j <? 32)%nat then
        let v := strtol16 [c] in
        let i := (j / 2)%nat in
        arpa6_bits t' (S j)
          (<[i := if Nat.odd j then u8 (Z.lor (nth i addr 0) v) else u8 (Z.shiftl v 4)]> addr)
      else (j, t, addr)
  | [] => (j, t, addr)
  end.
(** addr[j] = (addr[j] >> 4) | (addr[j-1] << 4), from the last octet to the first,
    whose predecessor is the new digit *)
Fixpoint nibble_in (prev : Z) (addr : list Z) : list Z :=
  match addr with
  | [] => []
  | a :: addr' => u8 (Z.lor (Z.shiftr a 4) (Z.shiftl prev 4)) :: nibble_in a addr'
  end.
Fixpoint arpa6 (chunks : list text) (addr : list Z) : bool * list Z :=
  match chunks with
  | [] => (true, addr)
  | [c] :: chunks' => if isxdigit c then arpa6 chunks' (nibble_in (strtol16 [c]) addr) else (false, addr)
  | _ :: _ => (false, addr)
  end.
(** The flag of the family, 0 for none, and *addrp; the name cut at its dots are
    the strings of the array name. *)
Definition in_arpa_name_2_addr (namein : text) (addrp : list Z) : Z * list Z :=
  if (MAXARPANAME <? length namein)%nat then (0, addrp) else
  let addr := repeat 0 16 in
  let chunks := labels namein in
  let j := length chunks in
  if (j <? 3)%nat then (0, addr) else
  let lastchunk := nth (j - 1) chunks [] in
  let penchunk := nth (j - 2) chunks [] in
  let front := take (j - 2) chunks in
  if hostname_isequal lastchunk (codes "arpa") && hostname_isequal penchunk (codes "in-addr") then
    let '(ok, addr) := arpa4 front addr in ((if ok then F_IPV4 else 0), addr)
  else if hostname_isequal penchunk (codes "ip6") &&
          (hostname_isequal lastchunk (codes "int") || hostname_isequal lastchunk (codes "arpa")) then
    let first := nth 0 chunks [] in
    if (nth 0 first 0 =? chr "\") && (nth 1 first 0 =? chr "[") &&
       ((nth 2 first 0 =? chr "x") || (nth 2 first 0 =? chr "X")) then
      let '(j, rest, addr) := arpa6_bits (drop 3 first) 0 addr in
      ((if (head rest =? chr "/") && (j =? 32)%nat then F_IPV6 else 0), addr)
    else let '(ok, addr) := arpa6 front addr in ((if ok then F_IPV6 else 0), addr)
  else (0, addr).

(** ** The checksum of the questions *)
Definition crc_shift (crc : Z) : Z :=
  if Z.testbit crc 31 then Z.lxor (u32 (Z.shiftl crc 1)) 0x04c11db7 else u32 (Z.shiftl crc 1).
Fixpoint crc_shifts (n : nat) (crc : Z) : Z := match n with O => crc | S n' => crc_shifts n' (crc_shift crc) end.
Definition crc_byte (crc c : Z) : Z := crc_shifts 8 (Z.lxor crc (u32 (Z.shiftl c 24))).
Fixpoint crc_questions (n : nat) (m : list Z) (plen p : nat) (name : list Z) (crc : Z) : outcome Z :=
  match n with
  | O => Val crc
  | S n' =>
      r ← extract_name m plen p name true 4;
      let '(ret, p, name) := r in
      if ret =? 0 then Val crc else
      t ← str_at name 0;
      let crc := foldl (λ crc c, crc_byte crc (fold c)) crc t in
      bs ← load p 4 m;
      let crc := foldl crc_byte crc bs in
      let p := (p + 4)%nat in
      if negb (CHECK_LEN p plen 0) then Val crc else crc_questions n' m plen p name crc
  end.
Definition questions_crc (m : list Z) (plen : nat) (name : list Z) : outcome Z :=
  q ← qdcount m; crc_questions (Z.to_nat q) m plen HEADER_SIZE name 0xffffffff.

(** ** The pseudo header *)

(** [pheader]: its offset, in the same memory; the new length and the message. *)
Definition resize_packet (m : list Z) (plen : nat) (pheader : option nat) (hlen : nat) : outcome (nat * list Z) :=
  r ← skip_questions m plen;
  match r with
  | None => Val (plen, m)
  | Some ansp =>
      an ← ancount m; ns ← nscount m; ar ← arcount m;
      r ← skip_section m plen ansp (Z.to_nat (an + ns + ar));
      match r, pheader with
      | None, _ => Val (plen, m)
      | Some ansp, Some ph =>
          if ar =? 0 then
            bs ← load ph hlen m;
            m ← put m ansp bs;
            m ← PUTSHORT m 1 10;
            Val ((ansp + hlen)%nat, m)
          else Val (ansp, m)
      | Some ansp, None => Val (ansp, m)
      end
  end.

(** The questions when is_sign is asked for: whether one is a TKEY query. *)
Fixpoint sign_questions (n : nat) (m : list Z) (plen ansp : nat) (is_sign : bool) : outcome (option nat * bool) :=
  match n with
  | O => Val (Some ansp, is_sign)
  | S n' =>
      r ← skip_name m plen ansp 4;
      match r with
      | None => Val (None, is_sign)
      | Some ansp =>
          type ← GETSHORT m ansp;
          class ← GETSHORT m (ansp + 2);
          sign_questions n' m plen (ansp + 4) (((class =? C_IN) && (type =? T_TKEY)) || is_sign)
      end
  end.
(** ret, *len and *p of find_pseudoheader *)
Abbreviation pseudo := (option (nat * nat * nat)).
Fixpoint find_opt (n : nat) (m : list Z) (plen ansp : nat) (want_sign is_sign : bool) (ret : pseudo) : outcome (pseudo * bool) :=
  match n with
  | O => Val (ret, is_sign)
  | S n' =>
      let start := ansp in
      r ← skip_name m plen ansp 10;
      match r with
      | None => Val (None, is_sign)
      | Some ansp =>
          type ← GETSHORT m ansp;
          class ← GETSHORT m (ansp + 2);
          rdlen ← GETSHORT m (ansp + 8);
          let save := (ansp + 2)%nat in
          let '(ok, ansp) := ADD_RDLEN (ansp + 10) plen (Z.to_nat rdlen) in
          if negb ok then Val (None, is_sign) else
          if type =? T_OPT then find_opt n' m plen ansp want_sign is_sign (Some (start, (ansp - start)%nat, save))
          else find_opt n' m plen ansp want_sign
                 (is_sign || want_sign && (n' =? 0)%nat && (class =? C_ANY) && ((type =? T_SIG) || (type =? T_TSIG))) ret
      end
  end.
(** [want_sign]: is_sign is not null. *)
Definition find_pseudoheader (m : list Z) (plen : nat) (want_sign : bool) : outcome (pseudo * bool) :=
  ar ← arcount m;
  op ← opcode m;
  r ← (if want_sign then
         if op =? QUERY then q ← qdcount m; sign_questions (Z.to_nat q) m plen HEADER_SIZE false
         else Val (Some HEADER_SIZE, false)
       else r ← skip_questions m plen; Val (r, false));
  match r with
  | (None, is_sign) => Val (None, is_sign)
  | (Some ansp, is_sign) =>
      if ar =? 0 then Val (None, is_sign) else
      an ← ancount m; ns ← nscount m;
      r ← skip_section m plen ansp (Z.to_nat (an + ns));
      match r with
      | None => Val (None, is_sign)
      | Some ansp => find_opt (Z.to_nat ar) m plen ansp want_sign is_sign None
      end
  end.

(** ** Addresses in answers *)
Definition private_net (addr : Z) : bool :=
  let ip_addr := ntohl addr in
  (Z.land ip_addr 0xFF000000 =? 0x7F000000) || (Z.land ip_addr 0xFFFF0000 =? 0xC0A80000) ||
  (Z.land ip_addr 0xFF000000 =? 0x0A000000) || (Z.land ip_addr 0xFFF00000 =? 0xAC100000) ||
  (Z.land ip_addr 0xFFFF0000 =? 0xA9FE0000).

Record doctor := mk_doctor { d_in : Z; d_end : Z; d_out : Z; d_mask : Z }.
(** whether the loop over the doctors stops at this one *)
Definition doctor_covers (addr : Z) (d : doctor) : bool :=
  if d_end d =? 0 then is_same_net (d_in d) addr (d_mask d)
  else negb ((ntohl addr <? ntohl (d_in d)) || (ntohl (d_end d) <? ntohl addr)).
Definition doctored (d : doctor) (addr : Z) : Z :=
  Z.lor (Z.land addr (Z.lxor (d_mask d) 0xffffffff)) (Z.land (d_out d) (d_mask d)).
Definition first_doctor (doctors : list doctor) (addr : Z) : option doctor :=
  List.find (doctor_covers addr) doctors.

Section Doctors.
Context (doctors : list doctor).
Fixpoint do_doctor (count : nat) (m : list Z) (p qlen : nat) : outcome (option nat * list Z) :=
  match count with
  | O => Val (Some p, m)
  | S count' =>
      r ← skip_name m qlen p 10;
      match r with
      | None => Val (None, m)
      | Some p =>
          qtype ← GETSHORT m p;
          qclass ← GETSHORT m (p + 2);
          _ ← GETLONG m (p + 4);
          rdlen ← GETSHORT m (p + 8);
          let p := (p + 10)%nat in
          let next m := let '(ok, p) := ADD_RDLEN p qlen (Z.to_nat rdlen) in
                        if negb ok then Val (None, m) else do_doctor count' m p qlen in
          if (qclass =? C_IN) && (qtype =? T_A) then
            if negb (CHECK_LEN p qlen 4) then Val (None, m) else
            bs ← load p 4 m;
            match first_doctor doctors (le_load bs) with
            | Some d =>
                m ← set_aa m false;
                m ← put m p (le_store 4 (doctored d (le_load bs)));
                next m
            | None => next m
            end
          else next m
      end
  end.

(** The authority section: found_soa and minttl. *)
Fixpoint soa_section (n : nat) (m : list Z) (qlen p : nat) (found : bool) (minttl : Z) : outcome (option (nat * bool * Z)) :=
  match n with
  | O => Val (Some (p, found, minttl))
  | S n' =>
      r ← skip_name m qlen p 10;
      match r with
      | None => Val None
      | Some p =>
          qtype ← GETSHORT m p;
          qclass ← GETSHORT m (p + 2);
          ttl ← GETLONG m (p + 4);
          rdlen ← GETSHORT m (p + 8);
          let p := (p + 10)%nat in
          if (qclass =? C_IN) && (qtype =? T_SOA) then
            let minttl := if ttl <? minttl then ttl else minttl in
            r ← skip_name m qlen p 0;
            match r with
            | None => Val None
            | Some p =>
                r ← skip_name m qlen p 20;
                match r with
                | None => Val None
                | Some p =>
                    ttl ← GETLONG m (p + 16);
                    soa_section n' m qlen (p + 20) true (if ttl <? minttl then ttl else minttl)
                end
            end
          else
            let '(ok, p) := ADD_RDLEN p qlen (Z.to_nat rdlen) in
            if negb ok then Val None else soa_section n' m qlen p found minttl
      end
  end.
Definition ULONG_MAX : Z := 2 ^ 64 - 1.
(** The ttl, 0 for a bad packet, and the message, its addresses rewritten. *)
Definition find_soa (neg_ttl : Z) (m : list Z) (qlen : nat) : outcome (Z * list Z) :=
  r ← skip_questions m qlen;
  match r with
  | None => Val (0, m)
  | Some p =>
      an ← ancount m;
      r ← do_doctor (Z.to_nat an) m p qlen;
      match r with
      | (None, m) => Val (0, m)
      | (Some p, m) =>
          ns ← nscount m;
          r ← soa_section (Z.to_nat ns) m qlen p false ULONG_MAX;
          match r with
          | None => Val (0, m)
          | Some (p, found, minttl) =>
              ar ← arcount m;
              r ← do_doctor (Z.to_nat ar) m p qlen;
              match r with
              | (None, m) => Val (0, m)
              | (Some _, m) => Val (i32 (if (found : bool) then minttl else neg_ttl), m)
              end
          end
      end
  end.
End Doctors.

(** ** Requests and replies *)

(** The flags, *typep and the name buffer. *)
Definition extract_request (m : list Z) (qlen : nat) (name : list Z) : outcome (Z * Z * list Z) :=
  q ← qdcount m;
  op ← opcode m;
  if negb (q =? 1) || negb (op =? QUERY) then Val (0, 0, name) else
  r ← extract_name m qlen HEADER_SIZE name true 4;
  let '(ret, p, name) := r in
  if ret =? 0 then Val (0, 0, name) else
  qtype ← GETSHORT m p;
  qclass ← GETSHORT m (p + 2);
  Val (if qclass =? C_IN then
         if qtype =? T_A then F_IPV4 else
         if qtype =? T_AAAA then F_IPV6 else
         if qtype =? T_ANY then Z.lor F_IPV4 F_IPV6 else
         if (qtype =? T_NS) || (qtype =? T_SOA) then Z.lor F_QUERY F_BIGNAME else F_QUERY
       else F_QUERY, qtype, name).

(** A letter of the format of add_resource_record with its arguments. *)
Inductive rr_arg :=
| Arg6 (addr : list Z) | Arg4 (addr : list Z) | ArgS (v : Z) | ArgL (v : Z)
| ArgD (name : option text) | ArgT (txt : list Z) | ArgZ (t : option text).
Definition rr_bytes (a : rr_arg) : list Z :=
  match a with
  | Arg6 addr => take 16 addr
  | Arg4 addr => take 4 addr
  | ArgS v => be_store 2 v
  | ArgL v => be_store 4 v
  | ArgD name => do_rfc1035_name name ++ [0]
  | ArgT txt => txt
  | ArgZ t => let usval := Nat.min (length (default [] t) mod 65536) 255 in
              Z.of_nat usval :: take usval (default [] t)
  end.
(** [offset]: what offset points at, [None] for a null pointer *)
Definition rr_offset (a : rr_arg) (p : nat) (offset : option nat) : option nat :=
  match a, offset with ArgD _, Some _ => Some p | _, _ => offset end.
Fixpoint put_args (args : list rr_arg) (m : list Z) (p : nat) (offset : option nat) : outcome (list Z * nat * option nat) :=
  match args with
  | [] => Val (m, p, offset)
  | a :: args' =>
      m ← put m p (rr_bytes a);
      put_args args' m (p + length (rr_bytes a)) (rr_offset a p offset)
  end.
(** [limit], [truncp]: [None] for null; the result, the message, *pp, *truncp and *offset *)
Definition add_resource_record (m : list Z) (limit : option nat) (truncp : option bool) (nameoffset : Z) (pp : nat)
    (ttl : Z) (offset : option nat) (type class : Z) (args : list rr_arg)
  : outcome (bool * list Z * nat * option bool * option nat) :=
  if default false truncp then Val (false, m, pp, truncp, offset) else
  m ← PUTSHORT m (Z.lor nameoffset 0xc000) pp;
  m ← PUTSHORT m type (pp + 2);
  m ← PUTSHORT m class (pp + 4);
  m ← PUTLONG m ttl (pp + 6);
  let sav := (pp + 10)%nat in
  m ← PUTSHORT m 0 sav;
  r ← put_args args m (sav + 2) offset;
  let '(m, p, offset) := r in
  m ← PUTSHORT m (Z.of_nat (p - sav - 2)) sav;
  if match limit with Some l => (l <? p)%nat | None => false end
  then Val (false, m, pp, match truncp with Some _ => Some true | None => None end, offset)
  else Val (true, m, p, truncp, offset).

(** The header of a reply without answers. *)
Definition reply_header (m : list Z) : outcome (list Z) :=
  m ← set_qr m true;
  m ← set_aa m false;
  m ← set_ra m true;
  m ← set_tc m false;
  m ← PUTSHORT m 0 8;
  m ← PUTSHORT m 0 10;
  PUTSHORT m 0 6.
Definition address_reply (m : list Z) (p : nat) (ttl type : Z) (arg : rr_arg) : outcome (nat * list Z) :=
  m ← set_rcode m NOERROR;
  m ← PUTSHORT m 1 6;
  m ← set_aa m true;
  r ← add_resource_record m None None (Z.of_nat HEADER_SIZE) p ttl None type C_IN [arg];
  let '(_, m, p, _, _) := r in Val (p, m).
(** The length and the reply; a null p gives no length, the difference of unrelated
    pointers. *)
Definition setup_reply (m : list Z) (qlen : nat) (addrp : list Z) (flags ttl : Z) : outcome (option nat * list Z) :=
  p ← skip_questions m qlen;
  m ← reply_header m;
  let refuse rc := (m ← set_rcode m rc; Val (p, m)) in
  if flags =? F_NEG then refuse SERVFAIL
  else if flags =? F_NOERR then refuse NOERROR
  else if flags =? F_NXDOMAIN then refuse NXDOMAIN
  else match p with
       | None => refuse REFUSED
       | Some q =>
           if flags =? F_IPV4 then r ← address_reply m q ttl T_A (Arg4 addrp); Val (Some r.1, r.2)
           else if flags =? F_IPV6 then r ← address_reply m q ttl T_AAAA (Arg6 addrp); Val (Some r.1, r.2)
           else refuse REFUSED
       end.

(** ** Walks over the sections stay in the message *)
Definition total {A} (o : outcome A) (Q : A → Prop) : Prop := ∃ a, o = Val a ∧ Q a.
Lemma total_ret {A} (a : A) (Q : A → Prop) : Q a → total (Val a) Q.
Proof. by exists a. Qed.
Lemma total_bind {A B} (o : outcome A) (f : A → outcome B) (P : A → Prop) (Q : B → Prop) :
  total o P → (∀ a, P a → total (f a) Q) → total (o ≫= f) Q.
Proof. intros (a & -> & Ha) Hf. by apply Hf. Qed.
Lemma total_mono {A} (o : outcome A) (P Q : A → Prop) : total o P → (∀ a, P a → Q a) → total o Q.
Proof. intros (a & -> & Ha) HPQ. exists a. auto. Qed.

Lemma load_total m p n : (p + n ≤ length m)%nat → total (load p n m) (λ bs, bs = sub p n m ∧ length bs = n).
Proof. intros Hp. eexists. split; [by apply load_Val|]. split; [done|by apply length_sub]. Qed.
Lemma GETSHORT_total m p : (p + 2 ≤ length m)%nat → total (GETSHORT m p) (λ v, v = be_load (sub p 2 m)).
Proof. intros Hp. eapply total_bind; [by apply load_total|]. intros bs [-> _]. by apply total_ret. Qed.
Lemma GETLONG_total m p : (p + 4 ≤ length m)%nat → total (GETLONG m p) (λ v, v = be_load (sub p 4 m)).
Proof. intros Hp. eapply total_bind; [by apply load_total|]. intros bs [-> _]. by apply total_ret. Qed.
Lemma put_total m p bs : (p + length bs ≤ length m)%nat → total (put m p bs) (λ m', m' = patch p bs m ∧ length m' = length m).
Proof. intros Hp. rewrite put_Val by done. apply total_ret. split; [done|by apply length_patch]. Qed.
Lemma set_field_total m b mask v : (b < length m)%nat → total (set_field m b mask v) (λ m', length m' = length m).
Proof.
  intros Hb. unfold set_field. destruct (rd_lt m b Hb) as (c & _ & ->). rewrite bind_Val, wr_Val by done.
  apply total_ret, length_insert.
Qed.
Lemma lor_u8 a b : is_u8 a → is_u8 b → is_u8 (Z.lor a b).
Proof.
  unfold is_u8. intros Ha Hb. split; [apply Z.lor_nonneg; lia|]. change 256 with (2 ^ 8). apply Z.log2_lt_cancel.
  destruct (decide (Z.lor a b = 0)) as [->|Hne]; [done|]. rewrite Z.log2_lor by lia. change (Z.log2 (2 ^ 8)) with 8.
  assert (Hl : ∀ c, 0 ≤ c < 256 → Z.log2 c < 8).
  { intros c Hc. destruct (decide (c = 0)) as [->|?]; [done|]. apply Z.log2_lt_pow2; lia. }
  apply Z.max_lub_lt; by apply Hl.
Qed.
Lemma land_u8 a b : is_u8 a → is_u8 (Z.land a b).
Proof.
  unfold is_u8. intros Ha. rewrite <- (Z.mod_small a (2 ^ 8)), <- Z.land_ones, <- Z.land_assoc, (Z.land_comm (Z.ones 8)), Z.land_assoc by lia.
  rewrite Z.land_ones by lia. by apply Z.mod_pos_bound.
Qed.
Lemma set_aa_total m v : (2 < length m)%nat → total (set_aa m v) (λ m', length m' = length m ∧ (bytes m → bytes m')).
Proof.
  intros Hl. unfold set_aa, set_field. destruct (rd_lt m 2 Hl) as (c & Hc & ->). rewrite bind_Val, wr_Val by done.
  apply total_ret. split; [apply length_insert|]. intros Hb. apply Forall_insert; [done|].
  apply lor_u8; [apply land_u8; by eapply byte_at|destruct v; unfold is_u8; lia].
Qed.
Lemma skip_name_total m plen p x :
  (plen ≤ length m)%nat → total (skip_name m plen p x) (λ r, ∀ q, r = Some q → (p < q ∧ q + x ≤ plen)%nat).
Proof. intros Hm. destruct (skip_name_safe m plen Hm p x) as (r & -> & Hr). by apply total_ret. Qed.

Lemma ADD_RDLEN_le p plen n : (p ≤ plen)%nat → (p ≤ (ADD_RDLEN p plen n).2 ≤ plen)%nat.
Proof. intros Hp. unfold ADD_RDLEN, CHECK_LEN. destruct (Nat.leb_spec (p + n) plen); cbn; lia. Qed.
(** The check never fails: the comma gives 1. *)
Lemma ADD_RDLEN_true p plen n : (ADD_RDLEN p plen n).1 = true.
Proof. done. Qed.

Section Walks.
Context (plen : nat).
(** where a walk may end *)
Definition inside (r : option nat) : Prop := ∀ q, r = Some q → (q ≤ plen)%nat.

Lemma skip_question_total n m p :
  (plen ≤ length m)%nat → (p ≤ plen)%nat → total (skip_question n m plen p) inside.
Proof.
  intros Hm. revert p. induction n as [|n IH]; intros p Hp; cbn [skip_question]; [apply total_ret; by intros ? [= <-]|].
  eapply total_bind; [by apply skip_name_total|]. intros [q|] Hq; [|by apply total_ret].
  apply IH. specialize (Hq q eq_refl). lia.
Qed.
Lemma skip_section_total n m p :
  (plen ≤ length m)%nat → (p ≤ plen)%nat → total (skip_section m plen p n) inside.
Proof.
  intros Hm. revert p. induction n as [|n IH]; intros p Hp; cbn [skip_section]; [apply total_ret; by intros ? [= <-]|].
  eapply total_bind; [by apply skip_name_total|]. intros [q|] Hq; [|by apply total_ret]. specialize (Hq q eq_refl).
  eapply total_bind; [apply GETSHORT_total; lia|]. intros v _.
  pose proof (ADD_RDLEN_le (q + 8 + 2) plen (Z.to_nat v) ltac:(lia)). pose proof (ADD_RDLEN_true (q + 8 + 2) plen (Z.to_nat v)).
  destruct (ADD_RDLEN _ _ _) as [ok q']. cbn in *. subst ok. cbn. apply IH. lia.
Qed.

(** The step over the data of a record: [next] is the rest of the walk. *)
Ltac rdlen_step v :=
  match goal with |- context [ADD_RDLEN ?p plen (Z.to_nat v)] =>
    pose proof (ADD_RDLEN_le p plen (Z.to_nat v) ltac:(lia));
    pose proof (ADD_RDLEN_true p plen (Z.to_nat v));
    destruct (ADD_RDLEN p plen (Z.to_nat v)) as [? ?]; cbn [fst snd] in *; subst; cbn [negb]
  end.
Ltac short_at := eapply total_bind; [apply GETSHORT_total; lia|intros ? _].

Lemma sign_questions_total n m p sg :
  (plen ≤ length m)%nat → (p ≤ plen)%nat → total (sign_questions n m plen p sg) (λ r, inside r.1).
Proof.
  intros Hm. revert p sg. induction n as [|n IH]; intros p sg Hp; cbn [sign_questions]; [apply total_ret; by intros ? [= <-]|].
  eapply total_bind; [by apply skip_name_total|]. intros [q|] Hq; [|by apply total_ret]. specialize (Hq q eq_refl).
  short_at. short_at. apply IH. lia.
Qed.
(** a pseudo header that was found lies in the message *)
Definition found_inside (r : pseudo) : Prop :=
  ∀ start len save, r = Some (start, len, save) → (start + len ≤ plen ∧ start < save ∧ save + 8 ≤ start + len)%nat.
Lemma find_opt_total n m p ws sg ret :
  (plen ≤ length m)%nat → (p ≤ plen)%nat → found_inside ret →
  total (find_opt n m plen p ws sg ret) (λ r, found_inside r.1).
Proof.
  intros Hm. revert p sg ret. induction n as [|n IH]; intros p sg ret Hp Hret; cbn [find_opt]; [by apply total_ret|].
  eapply total_bind; [by apply skip_name_total|]. intros [q|] Hq; [|by apply total_ret]. specialize (Hq q eq_refl).
  short_at. short_at. eapply total_bind; [apply GETSHORT_total; lia|intros v _]. rdlen_step v.
  destruct (_ =? T_OPT); apply IH; try lia; [|done]. intros start len save [= <- <- <-]. lia.
Qed.

Lemma skip_questions_total m :
  (plen ≤ length m)%nat → (HEADER_SIZE ≤ plen)%nat → total (skip_questions m plen) (inside).
Proof.
  intros Hm Hh. unfold HEADER_SIZE in *. unfold skip_questions, qdcount. eapply total_bind; [apply GETSHORT_total; lia|].
  intros q _. apply skip_question_total; [done|unfold HEADER_SIZE; lia].
Qed.
Lemma find_pseudoheader_total m ws :
  (plen ≤ length m)%nat → (HEADER_SIZE ≤ plen)%nat →
  total (find_pseudoheader m plen ws) (λ r, found_inside r.1).
Proof.
  intros Hm Hh. unfold find_pseudoheader, arcount, opcode. pose proof Hh as Hh'. unfold HEADER_SIZE in Hh'. short_at.
  destruct (rd_lt m 2) as (b & _ & ->); [lia|]. rewrite bind_Val. cbn [mbind outcome_mbind outcome_bind].
  eapply total_bind with (P := λ r, inside r.1).
  { destruct ws.
    - destruct (_ =? QUERY); [|apply total_ret; by intros ? [= <-]]. unfold qdcount. short_at. by apply sign_questions_total.
    - eapply total_bind; [by apply skip_questions_total|]. intros r Hr. by apply total_ret. }
  intros [[p|] sg] Hp; cbn in Hp; [|by apply total_ret]. specialize (Hp p eq_refl).
  destruct (_ =? 0); [by apply total_ret|]. unfold ancount, nscount. short_at. short_at.
  eapply total_bind; [by apply skip_section_total|]. intros [q|] Hq; [|by apply total_ret].
  apply find_opt_total; [done|by apply Hq|done].
Qed.

Lemma resize_packet_total m :
  (plen ≤ length m)%nat → (HEADER_SIZE ≤ plen)%nat →
  total (resize_packet m plen None 0) (λ r, (r.1 ≤ plen)%nat ∧ r.2 = m).
Proof.
  intros Hm Hh. unfold resize_packet. pose proof Hh as Hh'. unfold HEADER_SIZE in Hh'.
  eapply total_bind; [by apply skip_questions_total|]. intros [p|] Hp; [|by apply total_ret].
  unfold ancount, nscount, arcount. short_at. short_at. short_at.
  eapply total_bind; [apply skip_section_total; [done|by apply Hp]|]. intros [q|] Hq; apply total_ret; cbn; [|done].
  split; [by apply Hq|done].
Qed.

Section Rewriting.
Context (doctors : list doctor).
Definition same_length (m : list Z) (r : option nat * list Z) : Prop :=
  inside r.1 ∧ length r.2 = length m ∧ (bytes m → bytes r.2).

Lemma do_doctor_total n m p :
  (plen ≤ length m)%nat → (HEADER_SIZE ≤ plen)%nat → (p ≤ plen)%nat → total (do_doctor doctors n m p plen) (same_length m).
Proof.
  intros Hm Hh. unfold HEADER_SIZE in Hh. revert m Hm p. induction n as [|n IH]; intros m Hm p Hp; cbn [do_doctor].
  { apply total_ret. split; [by intros ? [= <-]|done]. }
  eapply total_bind; [by apply skip_name_total|]. intros [q|] Hq; [|by apply total_ret]. specialize (Hq q eq_refl).
  short_at. short_at. eapply total_bind; [apply GETLONG_total; lia|intros _ _].
  eapply total_bind; [apply GETSHORT_total; lia|intros v _].
  rdlen_step v. unfold CHECK_LEN. destruct (_ && _); [|apply IH; lia].
  destruct (Nat.leb_spec (q + 10 + 4) plen); cbn [negb]; [|by apply total_ret].
  eapply total_bind; [apply load_total; lia|]. intros bs [_ Hbs].
  destruct (first_doctor _ _) as [d|]; [|apply IH; lia].
  eapply total_bind; [apply set_aa_total; lia|]. intros m1 [Hm1 Hb1].
  eapply total_bind; [apply put_total; rewrite length_le_store; lia|]. intros m2 [-> Hm2].
  eapply total_mono; [apply IH; lia|]. intros r (? & Hr & Hb). split_and!; [done|congruence|].
  intros Hbm. by apply Hb, patch_bytes; [apply le_store_bytes|apply Hb1].
Qed.

Lemma soa_section_total n m p found minttl :
  (plen ≤ length m)%nat → (p ≤ plen)%nat →
  total (soa_section n m plen p found minttl) (λ r, ∀ q f t, r = Some (q, f, t) → (q ≤ plen)%nat).
Proof.
  intros Hm. revert p found minttl. induction n as [|n IH]; intros p found minttl Hp; cbn [soa_section].
  { apply total_ret. by intros ? ? ? [= <- <- <-]. }
  eapply total_bind; [by apply skip_name_total|]. intros [q|] Hq; [|by apply total_ret]. specialize (Hq q eq_refl).
  short_at. short_at. eapply total_bind; [apply GETLONG_total; lia|intros ? _].
  eapply total_bind; [apply GETSHORT_total; lia|intros v _].
  destruct (_ && _).
  - eapply total_bind; [by apply skip_name_total|]. intros [q1|] Hq1; [|by apply total_ret]. specialize (Hq1 q1 eq_refl).
    eapply total_bind; [by apply skip_name_total|]. intros [q2|] Hq2; [|by apply total_ret]. specialize (Hq2 q2 eq_refl).
    eapply total_bind; [apply GETLONG_total; lia|intros ? _]. apply IH. lia.
  - rdlen_step v. apply IH. lia.
Qed.
Lemma find_soa_total neg_ttl m :
  (plen ≤ length m)%nat → (HEADER_SIZE ≤ plen)%nat →
  total (find_soa doctors neg_ttl m plen) (λ r, length r.2 = length m ∧ (bytes m → bytes r.2)).
Proof.
  intros Hm Hh. unfold find_soa. pose proof Hh as Hh'. unfold HEADER_SIZE in Hh'.
  eapply total_bind; [by apply skip_questions_total|]. intros [p|] Hp; [|by apply total_ret].
  unfold ancount, nscount, arcount. short_at.
  eapply total_bind; [apply do_doctor_total; [done|done|by apply Hp]|].
  intros [[q|] m1] (Hq & Hm1 & Hb1); cbn [fst snd] in Hq, Hm1, Hb1; [|by apply total_ret].
  short_at. eapply total_bind; [apply soa_section_total; [lia|by apply Hq]|].
  intros [[[q1 f] t]|] Hq1; [|by apply total_ret]. short_at.
  eapply total_bind; [apply do_doctor_total; [lia|done|by eapply Hq1]|].
  intros [[q2|] m2] (_ & Hm2 & Hb2); cbn [snd] in Hm2, Hb2; apply total_ret; (split; [cbn; congruence|tauto]).
Qed.
End Rewriting.
End Walks.

(** The functions that walk the sections of a packet end and read inside its
    buffer for every packet of at least a header, whatever its counts, names and
    lengths: skip_questions and find_pseudoheader give places inside the packet,
    resize_packet gives no larger size, and find_soa, with any doctoring rules, keeps
    the size of the buffer it rewrites. *)
Theorem section_walks_safe (m : list Z) (plen : nat) (doctors : list doctor) (neg_ttl : Z) (want_sign : bool) :
  (HEADER_SIZE ≤ plen ≤ length m)%nat →
  (∃ r, skip_questions m plen = Val r ∧ inside plen r) ∧
  (∃ r sg, find_pseudoheader m plen want_sign = Val (r, sg) ∧ found_inside plen r) ∧
  (∃ n, resize_packet m plen None 0 = Val (n, m) ∧ (n ≤ plen)%nat) ∧
  (∃ ttl m', find_soa doctors neg_ttl m plen = Val (ttl, m') ∧ length m' = length m).
Proof.
  intros [Hh Hm]. split_and!.
  - by apply skip_questions_total.
  - destruct (find_pseudoheader_total plen m want_sign Hm Hh) as ([r sg] & Hr & Hf). by exists r, sg.
  - destruct (resize_packet_total plen m Hm Hh) as ([n m'] & Hr & Hn & Heq). cbn in *. subst. by exists n.
  - destruct (find_soa_total plen doctors neg_ttl m Hm Hh) as ([ttl m'] & Hr & Hl & _). by exists ttl, m'.
Qed.
Lemma section_walks_safe_witness :
  ∃ r sg, find_pseudoheader (repeat 255 40) 30 true = Val (r, sg) ∧ found_inside 30 r.
Proof. apply (section_walks_safe (repeat 255 40) 30 [] 0 true). rewrite repeat_length. unfold HEADER_SIZE. lia. Defined.

(** ** Records *)
Definition rr_data (args : list rr_arg) : list Z := args ≫= rr_bytes.
(** the bytes of a record with a compressed owner name *)
Definition rr_record (nameoffset type class ttl : Z) (data : list Z) : list Z :=
  (be_store 2 (Z.lor nameoffset 0xc000) ++ be_store 2 type ++ be_store 2 class ++ be_store 4 ttl) ++
  be_store 2 (Z.of_nat (length data)) ++ data.
Lemma length_be_store n v : length (be_store n v) = n.
Proof. unfold be_store. by rewrite length_reverse, length_le_store. Qed.
Lemma length_rr_record o t c ttl data : length (rr_record o t c ttl data) = (12 + length data)%nat.
Proof. unfold rr_record. rewrite !length_app, !length_be_store. lia. Qed.

Lemma put_patch m pp a bs :
  (pp + length a + length bs ≤ length m)%nat → put (patch pp a m) (pp + length a) bs = Val (patch pp (a ++ bs) m).
Proof.
  intros Hl. rewrite put_Val by (rewrite length_patch; lia). by rewrite patch_patch.
Qed.
Lemma patch_inner m pp a b b' c :
  length b = length b' → (pp + length (a ++ b ++ c) ≤ length m)%nat →
  patch (pp + length a) b' (patch pp (a ++ b ++ c) m) = patch pp (a ++ b' ++ c) m.
Proof.
  intros Hb Hl. rewrite !length_app in Hl. unfold patch at 2 3. rewrite !length_app, Hb.
  replace (take pp m ++ (a ++ b ++ c) ++ drop (pp + (length a + (length b' + length c))) m)
    with ((take pp m ++ a) ++ b ++ (c ++ drop (pp + (length a + (length b' + length c))) m)) by (by rewrite <- !app_assoc).
  rewrite patch_app; [by rewrite <- !app_assoc|rewrite length_app, length_take; lia|done].
Qed.
Lemma put_args_run args m pp a offset :
  (pp + length a + length (rr_data args) ≤ length m)%nat →
  ∃ offset', put_args args (patch pp a m) (pp + length a) offset =
    Val (patch pp (a ++ rr_data args) m, (pp + length a + length (rr_data args))%nat, offset').
Proof.
  revert a offset. induction args as [|x args IH]; intros a offset Hl; cbn [put_args].
  - exists offset. unfold rr_data. cbn. by rewrite app_nil_r, Nat.add_0_r.
  - unfold rr_data in *. rewrite bind_cons, length_app in Hl.
    rewrite put_patch, bind_Val by lia. rewrite <- Nat.add_assoc, <- length_app.
    destruct (IH (a ++ rr_bytes x) (rr_offset x (pp + length a) offset)) as [o' ->]; [rewrite length_app; lia|].
    exists o'. rewrite bind_cons, <- app_assoc, !length_app. do 3 f_equal. lia.
Qed.

Lemma add_rr_run m limit truncp nameoffset pp ttl offset type class args :
  default false truncp = false →
  (pp + 12 + length (rr_data args) ≤ length m)%nat →
  let e := (pp + 12 + length (rr_data args))%nat in
  let fits := match limit with Some l => (e <=? l)%nat | None => true end in
  ∃ offset', add_resource_record m limit truncp nameoffset pp ttl offset type class args =
    Val (fits, patch pp (rr_record nameoffset type class ttl (rr_data args)) m,
         (if fits then e else pp), (if fits then truncp else (λ _, true) <$> truncp), offset').
Proof.
  intros Ht Hl e fits. unfold add_resource_record, PUTSHORT, PUTLONG. rewrite Ht.
  rewrite put_Val, bind_Val by (rewrite length_be_store; lia).
  set (h1 := be_store 2 (Z.lor nameoffset 0xc000)).
  assert (L1 : length h1 = 2%nat) by apply length_be_store.
  replace (pp + 2)%nat with (pp + length h1)%nat by lia. rewrite put_patch, bind_Val by (rewrite !length_be_store; lia).
  set (h2 := h1 ++ be_store 2 type). assert (L2 : length h2 = 4%nat) by (unfold h2; rewrite length_app, L1, length_be_store; lia).
  replace (pp + 4)%nat with (pp + length h2)%nat by lia. rewrite put_patch, bind_Val by (rewrite !length_be_store; lia).
  set (h3 := h2 ++ be_store 2 class). assert (L3 : length h3 = 6%nat) by (unfold h3; rewrite length_app, L2, length_be_store; lia).
  replace (pp + 6)%nat with (pp + length h3)%nat by lia. rewrite put_patch, bind_Val by (rewrite !length_be_store; lia).
  set (h4 := h3 ++ be_store 4 ttl). assert (L4 : length h4 = 10%nat) by (unfold h4; rewrite length_app, L3, length_be_store; lia).
  replace (pp + 10)%nat with (pp + length h4)%nat by lia. rewrite put_patch, bind_Val by (rewrite !length_be_store; lia).
  set (h5 := h4 ++ be_store 2 0). assert (L5 : length h5 = 12%nat) by (unfold h5; rewrite length_app, L4, length_be_store; lia).
  replace (pp + length h4 + 2)%nat with (pp + length h5)%nat by lia.
  destruct (put_args_run args m pp h5 offset) as [o' ->]; [lia|]. rewrite bind_Val. exists o'.
  replace (pp + length h5 + length (rr_data args) - (pp + length h4) - 2)%nat with (length (rr_data args)) by lia.
  unfold h5. rewrite <- app_assoc.
  assert (Htot : (pp + length (h4 ++ be_store 2 0 ++ rr_data args) ≤ length m)%nat) by (rewrite !length_app, length_be_store; lia).
  rewrite put_Val by (rewrite length_patch by lia; rewrite length_be_store; lia). rewrite bind_Val.
  rewrite patch_inner by (rewrite ?length_be_store; lia || done).
  replace (h4 ++ be_store 2 (Z.of_nat (length (rr_data args))) ++ rr_data args)
    with (rr_record nameoffset type class ttl (rr_data args)) by (unfold rr_record, h4, h3, h2, h1; by rewrite <- !app_assoc).
  replace (pp + length (h4 ++ be_store 2 0) + length (rr_data args))%nat with e by (unfold e; rewrite length_app, length_be_store; lia).
  unfold fits. destruct limit as [l|]; [|done].
  destruct (Nat.ltb_spec l e), (Nat.leb_spec e l); try lia; [|done]. by destruct truncp.
Qed.

(** ** Replies *)

(** the header of a reply: the identifier, the opcode, rd, cd, ad and the number of
    questions are the request's *)
Definition reply_bytes (id1 id2 b2 b3 qd1 qd2 : Z) (aa : bool) (rc an : Z) : list Z :=
  [id1; id2; Z.lor (Z.land b2 0x79) (if aa then 0x84 else 0x80); Z.lor (Z.land b3 0x70) (Z.lor 0x80 rc);
   qd1; qd2; 0; an; 0; 0; 0; 0].
(** the rcode of a reply without an answer *)
Definition no_answer (flags : Z) (p : option nat) : option Z :=
  if flags =? F_NEG then Some SERVFAIL
  else if flags =? F_NOERR then Some NOERROR
  else if flags =? F_NXDOMAIN then Some NXDOMAIN
  else match p with
       | Some _ => if (flags =? F_IPV4) || (flags =? F_IPV6) then None else Some REFUSED
       | None => Some REFUSED
       end.

Section Reply.
Context (id1 id2 b2 b3 qd1 qd2 an1 an2 ns1 ns2 ar1 ar2 : Z) (rest : list Z).
Context (Hb2 : is_u8 b2) (Hb3 : is_u8 b3).
Definition request : list Z := [id1; id2; b2; b3; qd1; qd2; an1; an2; ns1; ns2; ar1; ar2] ++ rest.

Lemma set_field_run m b mask v c :
  m !! b = Some c → set_field m b mask v = Val (<[b := Z.lor (Z.land c (Z.lxor mask 255)) v]> m).
Proof.
  intros Hc. unfold set_field. rewrite (rd_Some _ _ _ Hc), bind_Val, wr_Val; [done|]. by apply lookup_lt_Some in Hc.
Qed.
Ltac field_step := erewrite set_field_run by reflexivity; rewrite ?bind_Val; cbn [app insert list_insert].
Ltac short_step := rewrite put_Val by (cbn; lia); rewrite ?bind_Val;
  unfold patch; cbn [be_store le_store length reverse rev_append app take drop Nat.add].
Definition header_byte2 (b : Z) : Z :=
  let f mask v b := Z.lor (Z.land b (Z.lxor mask 255)) v in f 2 0 (f 4 0 (f 128 128 b)).
Lemma header_byte2_eq b : is_u8 b → header_byte2 b = Z.lor (Z.land b 0x79) 0x80.
Proof. intros Hb. apply Z.eqb_eq. by apply (every_byte (λ b, header_byte2 b =? Z.lor (Z.land b 0x79) 0x80)) in Hb; [|by vm_compute]. Qed.
Lemma header_aa b : is_u8 b → Z.lor (Z.land (header_byte2 b) (Z.lxor 4 255)) 4 = Z.lor (Z.land b 0x79) 0x84.
Proof.
  intros Hb. apply Z.eqb_eq.
  by apply (every_byte (λ b, Z.lor (Z.land (header_byte2 b) (Z.lxor 4 255)) 4 =? Z.lor (Z.land b 0x79) 0x84)) in Hb; [|by vm_compute].
Qed.
Lemma header_rc b rc : is_u8 b → rc ∈ [0; 2; 3; 5] →
  Z.lor (Z.land (Z.lor (Z.land b (Z.lxor 128 255)) 128) (Z.lxor 15 255)) rc = Z.lor (Z.land b 0x70) (Z.lor 0x80 rc).
Proof.
  intros Hb Hrc. apply Z.eqb_eq.
  apply (every_byte (λ b, forallb (λ rc, Z.lor (Z.land (Z.lor (Z.land b (Z.lxor 128 255)) 128) (Z.lxor 15 255)) rc
    =? Z.lor (Z.land b 0x70) (Z.lor 0x80 rc)) [0; 2; 3; 5])) in Hb; [|by vm_compute].
  rewrite forallb_forall in Hb. by apply Hb, list_elem_of_In.
Qed.

Lemma reply_header_run :
  reply_header request = Val ([id1; id2; header_byte2 b2; Z.lor (Z.land b3 (Z.lxor 128 255)) 128; qd1; qd2; 0; 0; 0; 0; 0; 0] ++ rest).
Proof.
  unfold reply_header, request, set_qr, set_aa, set_ra, set_tc, PUTSHORT. cbn [app].
  do 4 field_step. change (be_store 2 0) with [0; 0]. do 3 short_step. done.
Qed.

(** the header with its code, without and with an answer *)
Lemma refuse_run rc : rc ∈ [0; 2; 3; 5] →
  (m ← reply_header request; set_rcode m rc) = Val (reply_bytes id1 id2 b2 b3 qd1 qd2 false rc 0 ++ rest).
Proof.
  intros Hrc. rewrite reply_header_run, bind_Val. unfold set_rcode. cbn [app]. field_step.
  unfold reply_bytes. by rewrite header_rc, header_byte2_eq.
Qed.
Lemma address_run q ttl type arg :
  (q + 12 + length (rr_bytes arg) ≤ length request)%nat →
  (m ← reply_header request; address_reply m q ttl type arg) =
  Val ((q + 12 + length (rr_bytes arg))%nat,
       patch q (rr_record (Z.of_nat HEADER_SIZE) type C_IN ttl (rr_bytes arg)) (reply_bytes id1 id2 b2 b3 qd1 qd2 true 0 1 ++ rest)).
Proof.
  intros Hq. rewrite reply_header_run, bind_Val. unfold address_reply, set_rcode, set_aa, PUTSHORT. cbn [app].
  field_step. change (be_store 2 1) with [0; 1]. short_step. field_step.
  rewrite header_aa, (header_rc b3 NOERROR) by (done || (by constructor)).
  set (m := id1 :: _). assert (Hm : m = reply_bytes id1 id2 b2 b3 qd1 qd2 true 0 1 ++ rest) by done.
  assert (Hd : rr_data [arg] = rr_bytes arg) by (unfold rr_data; cbn; apply app_nil_r).
  destruct (add_rr_run m None None (Z.of_nat HEADER_SIZE) q ttl None type C_IN [arg]) as [o Hrun]; [done| |].
  { rewrite Hd. unfold m. unfold request in Hq. cbn [length app] in *. lia. }
  rewrite Hrun, bind_Val, Hd. by rewrite Hm.
Qed.
End Reply.

(** setup_reply turns a query into exactly this reply: the id, the opcode and the
    questions of the query are kept; it is a response, recursion is available, the
    other counts are zero; with an IPv4 or IPv6 answer it is authoritative and carries
    one record for the name of the question with the address and time to live; else
    its code says, as the flags do, that the server failed, that the name has no data
    or that it does not exist, and for any other flags, or when the questions cannot
    be skipped, that the query is refused. *)
Theorem setup_reply_spec (id1 id2 b2 b3 qd1 qd2 an1 an2 ns1 ns2 ar1 ar2 : Z) (rest addr : list Z)
    (qlen : nat) (p : option nat) (flags ttl : Z) :
  is_u8 b2 → is_u8 b3 → length addr = 16%nat →
  let m := request id1 id2 b2 b3 qd1 qd2 an1 an2 ns1 ns2 ar1 ar2 rest in
  skip_questions m qlen = Val p → (∀ q, p = Some q → (q + 28 ≤ length m)%nat) →
  setup_reply m qlen addr flags ttl =
  match no_answer flags p, p with
  | None, Some q =>
      let '(type, data) := if flags =? F_IPV4 then (T_A, take 4 addr) else (T_AAAA, addr) in
      Val (Some (q + 12 + length data)%nat,
           patch q (rr_record (Z.of_nat HEADER_SIZE) type C_IN ttl data) (reply_bytes id1 id2 b2 b3 qd1 qd2 true NOERROR 1 ++ rest))
  | rc, _ => Val (p, reply_bytes id1 id2 b2 b3 qd1 qd2 false (default REFUSED rc) 0 ++ rest)
  end.
Proof.
  intros Hb2 Hb3 Haddr m Hskip Hroom. unfold setup_reply. rewrite Hskip, bind_Val.
  assert (Href : ∀ rc, rc ∈ [0; 2; 3; 5] →
    (m0 ← reply_header m; m1 ← set_rcode m0 rc; Val (p, m1)) = Val (p, reply_bytes id1 id2 b2 b3 qd1 qd2 false rc 0 ++ rest)).
  { intros rc Hrc. pose proof (refuse_run id1 id2 b2 b3 qd1 qd2 an1 an2 ns1 ns2 ar1 ar2 rest Hb2 Hb3 rc Hrc) as Hr.
    fold m in Hr. apply outcome_bind_Val in Hr as (m0 & -> & Hr). by rewrite bind_Val, Hr. }
  assert (Hans : ∀ q type arg, p = Some q → (length (rr_bytes arg) ≤ 16)%nat →
    (m0 ← reply_header m; r ← address_reply m0 q ttl type arg; Val (Some r.1, r.2)) =
    Val (Some (q + 12 + length (rr_bytes arg))%nat,
         patch q (rr_record (Z.of_nat HEADER_SIZE) type C_IN ttl (rr_bytes arg)) (reply_bytes id1 id2 b2 b3 qd1 qd2 true 0 1 ++ rest))).
  { intros q type arg Hp Hlen. specialize (Hroom q Hp).
    pose proof (address_run id1 id2 b2 b3 qd1 qd2 an1 an2 ns1 ns2 ar1 ar2 rest Hb2 Hb3 q ttl type arg) as Hr.
    fold m in Hr. specialize (Hr ltac:(lia)). apply outcome_bind_Val in Hr as (m0 & -> & Hr). by rewrite bind_Val, Hr. }
  assert (Hin : SERVFAIL ∈ [0; 2; 3; 5] ∧ NOERROR ∈ [0; 2; 3; 5] ∧ NXDOMAIN ∈ [0; 2; 3; 5] ∧ REFUSED ∈ [0; 2; 3; 5]).
  { unfold SERVFAIL, NOERROR, NXDOMAIN, REFUSED. rewrite !elem_of_cons. tauto. }
  destruct Hin as (H1 & H2 & H3 & H4). unfold no_answer. cbv zeta.
  destruct (flags =? F_NEG); [by rewrite Href|]. destruct (flags =? F_NOERR); [by rewrite Href|].
  destruct (flags =? F_NXDOMAIN); [by rewrite Href|]. destruct p as [q|]; [|by rewrite Href].
  destruct (flags =? F_IPV4); cbn [orb].
  { rewrite (Hans q T_A (Arg4 addr)); [done|done|]. cbn [rr_bytes]. rewrite length_take. lia. }
  destruct (flags =? F_IPV6); [|by rewrite Href].
  rewrite (Hans q T_AAAA (Arg6 addr)); [|done|cbn [rr_bytes]; rewrite length_take; lia].
  cbn [rr_bytes]. by rewrite take_ge by lia.
Qed.
Definition sample_query : list Z := [0; 1; 97; 0; 0; 1; 0; 1] ++ repeat 0 30.
Lemma setup_reply_spec_witness :
  setup_reply (request 7 8 1 0 0 1 0 0 0 0 0 0 (drop 1 sample_query)) 19 ([10; 0; 0; 1] ++ repeat 0 12) F_IPV4 60 =
  Val (Some (19 + 12 + 4)%nat, patch 19 (rr_record 12 T_A C_IN 60 [10; 0; 0; 1])
    (reply_bytes 7 8 1 0 0 1 true NOERROR 1 ++ drop 1 sample_query)).
Proof.
  apply (setup_reply_spec 7 8 1 0 0 1 0 0 0 0 0 0 (drop 1 sample_query) ([10; 0; 0; 1] ++ repeat 0 12) 19 (Some 19%nat) F_IPV4 60).
  - unfold is_u8; lia.
  - unfold is_u8; lia.
  - done.
  - by vm_compute.
  - intros q [= <-]. apply Nat.leb_le. by vm_compute.
Defined.

(** The wire format of a name in text: its labels between the dots, each behind its
    length, and a zero at the end; a dot at the end does not add a label. *)
Inductive name_wire : text → list Z → Prop :=
| nw_end : name_wire [] [0]
| nw_last l : l ≠ [] → chr "." ∉ l → name_wire l (Z.of_nat (length l) mod 256 :: l ++ [0])
| nw_label l t w : chr "." ∉ l → name_wire t w → name_wire (l ++ chr "." :: t) (Z.of_nat (length l) mod 256 :: l ++ w).
(** The wire format of an argument: addresses and ready data as they are, numbers with
    their highest byte first, a text behind its length, cut at 255 characters. *)
Inductive arg_wire : rr_arg → list Z → Prop :=
| aw_6 a : arg_wire (Arg6 a) (take 16 a)
| aw_4 a : arg_wire (Arg4 a) (take 4 a)
| aw_short v : arg_wire (ArgS v) [v / 256 mod 256; v mod 256]
| aw_long v : arg_wire (ArgL v) [v / 16777216 mod 256; v / 65536 mod 256; v / 256 mod 256; v mod 256]
| aw_name t w : name_wire (default [] t) w → arg_wire (ArgD t) w
| aw_data d : arg_wire (ArgT d) d
| aw_string t : (length (default [] t) ≤ 255)%nat → arg_wire (ArgZ t) (Z.of_nat (length (default [] t)) :: default [] t)
| aw_cut t : (255 < length t < 65536)%nat → arg_wire (ArgZ (Some t)) (255 :: take 255 t).
(** texts longer than the 16 bits of their length *)
Definition arg_ok (a : rr_arg) : Prop := match a with ArgZ t => (length (default [] t) < 65536)%nat | _ => True end.

Lemma label_dotless t l rest : label t = (l, rest) → chr "." ∉ l ∧ t = l ++ rest ∧ (rest = [] ∨ ∃ t', rest = chr "." :: t').
Proof.
  revert l rest. induction t as [|c t IH]; intros l rest; cbn [label]; [intros [= <- <-]; split_and!; [apply not_elem_of_nil|done|by left]|].
  destruct (Z.eqb_spec c (chr ".")) as [->|Hc]; [intros [= <- <-]; split_and!; [apply not_elem_of_nil|done|right; by eexists]|].
  destruct (label t) as [l' rest']. intros [= <- <-]. destruct (IH l' rest' eq_refl) as (H1 & -> & H3).
  split_and!; [rewrite not_elem_of_cons; by split|done|done].
Qed.
Lemma rfc1035_wire fuel t : (length t ≤ fuel)%nat → name_wire t (rfc1035_bytes fuel t ++ [0]).
Proof.
  revert t. induction fuel as [|fuel IH]; intros t Hf; [destruct t; [apply nw_end|cbn in Hf; lia]|].
  destruct t as [|c t']; [apply nw_end|]. set (t := c :: t') in *.
  assert (rfc1035_bytes (S fuel) t = let '(l, rest) := label t in
    u8 (Z.of_nat (length l)) :: l ++ rfc1035_bytes fuel (tail rest)) as -> by done.
  destruct (label t) as [l rest] eqn:El. destruct (label_dotless t l rest El) as (Hd & Ht & [->|[t2 ->]]); cbn [tail].
  - rewrite app_nil_r in Ht. rewrite Ht in *. destruct fuel; cbn [rfc1035_bytes app]; rewrite app_nil_r; apply nw_last; [|done| |done]; by rewrite <- Ht.
  - rewrite Ht. cbn [app]. rewrite <- app_assoc. apply nw_label; [done|]. apply IH. apply (f_equal length) in Ht. rewrite length_app in Ht. cbn [length] in Ht. lia.
Qed.
Lemma rr_bytes_wire a : arg_ok a → arg_wire a (rr_bytes a).
Proof.
  destruct a as [a|a|v|v|t|d|t]; cbn [arg_ok rr_bytes]; intros Ha.
  - apply aw_6.
  - apply aw_4.
  - apply aw_short.
  - replace (be_store 4 v) with [v / 256 / 256 / 256 mod 256; v / 256 / 256 mod 256; v / 256 mod 256; v mod 256] by done.
    rewrite !Z.div_div by lia. apply aw_long.
  - apply aw_name. destruct t as [t|]; [by apply rfc1035_wire|apply nw_end].
  - apply aw_data.
  - rewrite Nat.mod_small by done. destruct (Nat.le_gt_cases (length (default [] t)) 255) as [Hs|Hs].
    + rewrite Nat.min_l, firstn_all by done. by constructor.
    + rewrite Nat.min_r by lia. destruct t as [t|]; [|cbn in Hs; lia]. by constructor.
Qed.
Lemma rr_data_wire args : Forall arg_ok args → ∃ datas, Forall2 arg_wire args datas ∧ concat datas = rr_data args.
Proof.
  induction 1 as [|a args Ha _ (datas & IH & Hc)]; [by exists []|]. exists (rr_bytes a :: datas). split; [constructor; [by apply rr_bytes_wire|done]|].
  cbn. by rewrite Hc.
Qed.

(** C32. add_resource_record, for any arguments whose texts are shorter than 65536
    characters and a packet with room for the record: unless the reply was truncated
    before, it writes one record in the wire format, a pointer to its name, type,
    class, time to live, the length of the data and the data (numbers with the highest
    byte first, names as labels behind their lengths up to a zero, texts behind their
    length and cut at 255), and nothing else; it succeeds and steps over the record
    unless a limit is given that the record exceeds, in which case it steps back and
    sets the truncation flag.  When the flag is set already it does nothing and fails. *)
Theorem add_resource_record_spec (m : list Z) (limit : option nat) (truncp : option bool) (nameoffset : Z) (pp : nat)
    (ttl : Z) (offset : option nat) (type class : Z) (args : list rr_arg) :
  Forall arg_ok args →
  ∃ datas, Forall2 arg_wire args datas ∧
    if default false truncp then
      add_resource_record m limit truncp nameoffset pp ttl offset type class args = Val (false, m, pp, truncp, offset)
    else (pp + 12 + length (concat datas) ≤ length m)%nat →
      ∃ ok p truncp' offset', add_resource_record m limit truncp nameoffset pp ttl offset type class args =
          Val (ok, patch pp (rr_record nameoffset type class ttl (concat datas)) m, p, truncp', offset') ∧
        (if (ok : bool) then p = (pp + 12 + length (concat datas))%nat ∧ truncp' = truncp ∧ (∀ l, limit = Some l → (p ≤ l)%nat)
         else p = pp ∧ (truncp ≠ None → truncp' = Some true) ∧ ∃ l, limit = Some l ∧ (l < pp + 12 + length (concat datas))%nat).
Proof.
  intros Ha. destruct (rr_data_wire args Ha) as (datas & Hw & Hc). exists datas. split; [done|]. rewrite Hc.
  destruct (default false truncp) eqn:Ht; [unfold add_resource_record; by rewrite Ht|]. intros Hl.
  destruct (add_rr_run m limit truncp nameoffset pp ttl offset type class args Ht Hl) as [o Hrun].
  cbv zeta in Hrun. eexists _, _, _, _. split; [exact Hrun|]. destruct limit as [l|]; [|done].
  destruct (Nat.leb_spec (pp + 12 + length (rr_data args)) l).
  - split_and!; [done|done|]. by intros ? [= <-].
  - split_and!; [done|by destruct truncp|by exists l].
Qed.
Lemma add_resource_record_spec_witness :
  Forall arg_ok [ArgS 258; ArgD (Some [97; 46; 98])] ∧
  ∃ datas, Forall2 arg_wire [ArgS 258; ArgD (Some [97; 46; 98])] datas ∧
    ((5 + 12 + length (concat datas) ≤ length (repeat 0%Z 40))%nat →
      ∃ ok p truncp' offset', add_resource_record (repeat 0 40) (Some 20%nat) (Some false) 12 5 60 None 15 1 [ArgS 258; ArgD (Some [97; 46; 98])] =
          Val (ok, patch 5 (rr_record 12 15 1 60 (concat datas)) (repeat 0 40), p, truncp', offset') ∧
        (if (ok : bool) then p = (5 + 12 + length (concat datas))%nat ∧ truncp' = Some false ∧ (∀ l, Some 20%nat = Some l → (p ≤ l)%nat)
         else p = 5%nat ∧ (Some false ≠ None → truncp' = Some true) ∧ ∃ l, Some 20%nat = Some l ∧ (l < 5 + 12 + length (concat datas))%nat)).
Proof.
  assert (Ha : Forall arg_ok [ArgS 258; ArgD (Some [97; 46; 98])]) by (repeat constructor). split; [exact Ha|].
  exact (add_resource_record_spec (repeat 0 40) (Some 20%nat) (Some false) 12 5 60 None 15 1 [ArgS 258; ArgD (Some [97; 46; 98])] Ha).
Defined.

(** ** Reverse names stand for the addresses they are made from *)
Definition nibbles (l : list Z) : list Z := l ≫= λ a, [a / 16; a mod 16].
Definition arpa4_name (a b c d : Z) : text :=
  decimal d ++ chr "." :: decimal c ++ chr "." :: decimal b ++ chr "." :: decimal a ++ codes ".in-addr.arpa".
Definition arpa6_name (addr : list Z) : text :=
  (reverse (nibbles addr) ≫= λ v, [hex_char v; chr "."]) ++ codes "ip6.arpa".

Lemma labels_app l t : forallb (λ c, negb (c =? chr ".")) l = true → labels (l ++ chr "." :: t) = l :: labels t.
Proof.
  induction l as [|c l IH]; intros Hl; [done|]. cbn [forallb] in Hl. apply andb_true_iff in Hl as [Hc Hl].
  cbn [app labels]. apply negb_true_iff in Hc. by rewrite Hc, (IH Hl).
Qed.
Lemma decimal_ok b : is_u8 b →
  forallb isdigit (decimal b) = true ∧ forallb (λ c, negb (c =? chr ".")) (decimal b) = true ∧
  digit_value (decimal b) = b ∧ (length (decimal b) ≤ 3)%nat.
Proof.
  intros Hb. apply (every_byte (λ b, forallb isdigit (decimal b) && forallb (λ c, negb (c =? chr ".")) (decimal b) &&
    (digit_value (decimal b) =? b) && (length (decimal b) <=? 3)%nat)) in Hb; [|by vm_compute].
  repeat (apply andb_true_iff in Hb as [Hb ?]). rewrite Z.eqb_eq, Nat.leb_le in *. done.
Qed.

Lemma arpa4_name_spec a b c d x :
  is_u8 a → is_u8 b → is_u8 c → is_u8 d →
  in_arpa_name_2_addr (arpa4_name a b c d) x = (F_IPV4, [a; b; c; d] ++ repeat 0 12).
Proof.
  intros (Ha1 & Ha2 & Ha3 & Ha4)%decimal_ok (Hb1 & Hb2 & Hb3 & Hb4)%decimal_ok
    (Hc1 & Hc2 & Hc3 & Hc4)%decimal_ok (Hd1 & Hd2 & Hd3 & Hd4)%decimal_ok.
  assert (Hl : labels (arpa4_name a b c d) = [decimal d; decimal c; decimal b; decimal a; codes "in-addr"; codes "arpa"]).
  { unfold arpa4_name. change (codes ".in-addr.arpa") with (chr "." :: codes "in-addr.arpa").
    rewrite !labels_app by done. done. }
  unfold in_arpa_name_2_addr. rewrite Hl. replace (MAXARPANAME <? length (arpa4_name a b c d))%nat with false.
  - cbn -[decimal digit_value isdigit codes hostname_isequal]. change (hostname_isequal (codes "arpa") (codes "arpa")) with true.
    change (hostname_isequal (codes "in-addr") (codes "in-addr")) with true. cbn [andb].
    rewrite Hd1, Hc1, Hb1, Ha1, Ha3, Hb3, Hc3, Hd3. done.
  - symmetry. apply Nat.ltb_ge. unfold arpa4_name, MAXARPANAME. rewrite !length_app. cbn [length].
    rewrite !length_app. cbn [length]. rewrite !length_app. cbn [length]. rewrite !length_app. cbn. lia.
Qed.

Lemma shifted_nibbles prev a : is_u8 prev → is_u8 a →
  let v := u8 (Z.lor (Z.shiftr a 4) (Z.shiftl prev 4)) in v / 16 = prev mod 16 ∧ v mod 16 = a / 16.
Proof.
  intros Hp Ha. apply (every_byte (λ prev, forallb (λ a, let v := u8 (Z.lor (Z.shiftr a 4) (Z.shiftl prev 4)) in
    (v / 16 =? prev mod 16) && (v mod 16 =? a / 16)) (seqZ 0 256))) in Hp; [|by vm_compute].
  pose proof (every_byte _ Hp a Ha) as Hv. cbv zeta beta in Hv. apply andb_true_iff in Hv as [?%Z.eqb_eq ?%Z.eqb_eq]. done.
Qed.
Lemma nibble_in_nibbles prev l : is_u8 prev → bytes l →
  ∃ x, nibbles (nibble_in prev l) ++ [x] = prev mod 16 :: nibbles l.
Proof.
  intros Hp Hl. revert prev Hp. induction Hl as [|a l Ha Hl IH]; intros prev Hp; [by exists (prev mod 16)|].
  destruct (IH a Ha) as [x Hx]. exists x. cbn [nibble_in]. unfold nibbles in *. rewrite !bind_cons, <- app_assoc, Hx.
  destruct (shifted_nibbles prev a Hp Ha) as [-> ->]. done.
Qed.
Lemma nibble_in_bytes prev l : bytes (nibble_in prev l).
Proof.
  revert prev. induction l as [|a l IH]; intros prev; cbn [nibble_in]; constructor; [|apply IH].
  unfold is_u8, u8. apply Z.mod_pos_bound. lia.
Qed.
Lemma length_nibble_in prev l : length (nibble_in prev l) = length l.
Proof. revert prev. induction l as [|a l IH]; intros prev; cbn; [done|]. by rewrite IH. Qed.
Lemma length_nibbles l : length (nibbles l) = (2 * length l)%nat.
Proof. unfold nibbles. induction l as [|a l IH]; [done|]. rewrite bind_cons, length_app, IH. cbn. lia. Qed.
Lemma nibble_in_take v l : 0 ≤ v < 16 → bytes l → nibbles (nibble_in v l) = take (2 * length l) (v :: nibbles l).
Proof.
  intros Hv Hl. destruct (nibble_in_nibbles v l) as [x Hx]; [unfold is_u8; lia|done|].
  rewrite Z.mod_small in Hx by lia. rewrite <- Hx. rewrite take_app_length'; [done|].
  by rewrite length_nibbles, length_nibble_in.
Qed.
Lemma take_app_take {A} n (a b : list A) : take n (a ++ take n b) = take n (a ++ b).
Proof. rewrite !firstn_app, take_take. do 2 f_equal. lia. Qed.
Lemma fold_nibbles vs l :
  Forall (λ v, 0 ≤ v < 16) vs → bytes l →
  nibbles (foldl (λ l v, nibble_in v l) l vs) = take (2 * length l) (reverse vs ++ nibbles l).
Proof.
  intros Hvs. revert l. induction Hvs as [|v vs Hv _ IH]; intros l Hl; cbn [foldl].
  - cbn [reverse rev_append app]. rewrite take_ge; [done|rewrite length_nibbles; lia].
  - rewrite IH by apply nibble_in_bytes. rewrite length_nibble_in, nibble_in_take, take_app_take by done.
    rewrite reverse_cons, <- app_assoc. done.
Qed.
Lemma nibbles_inj a b : bytes a → bytes b → nibbles a = nibbles b → a = b.
Proof.
  intros Ha. revert b. induction Ha as [|x a Hx Ha IH]; intros [|y b] Hb; unfold nibbles in *; rewrite ?bind_cons; try done.
  intros Heq. inversion Hb as [|?? Hy Hb']; subst. cbn in Heq. injection Heq as Hd Hm Heq. f_equal; [|by apply IH].
  rewrite (Z.div_mod x 16), (Z.div_mod y 16) by lia. by rewrite Hd, Hm.
Qed.
Lemma nibbles_range l : bytes l → Forall (λ v, 0 ≤ v < 16) (nibbles l).
Proof.
  induction 1 as [|a l Ha _ IH]; [constructor|]. unfold nibbles. rewrite bind_cons. unfold is_u8 in Ha. cbn.
  constructor; [split; [apply Z.div_pos; lia|apply Z.div_lt_upper_bound; lia]|].
  constructor; [apply Z.mod_pos_bound; lia|done].
Qed.
Lemma hex_char_ok v : 0 ≤ v < 16 →
  isxdigit (hex_char v) = true ∧ strtol16 [hex_char v] = v ∧ (hex_char v =? chr ".") = false.
Proof.
  intros Hv. assert (Hb : is_u8 v) by (unfold is_u8; lia).
  apply (every_byte (λ v, (16 <=? v) || (isxdigit (hex_char v) && (strtol16 [hex_char v] =? v) && negb (hex_char v =? chr ".")))) in Hb;
    [|by vm_compute].
  apply orb_true_iff in Hb as [?%Z.leb_le|Hb]; [lia|]. repeat (apply andb_true_iff in Hb as [Hb ?]).
  rewrite Z.eqb_eq, negb_true_iff in *. done.
Qed.
Lemma arpa6_fold vs l : Forall (λ v, 0 ≤ v < 16) vs →
  arpa6 (map (λ v, [hex_char v]) vs) l = (true, foldl (λ l v, nibble_in v l) l vs).
Proof.
  intros Hvs. revert l. induction Hvs as [|v vs Hv _ IH]; intros l; cbn [map arpa6 foldl]; [done|].
  destruct (hex_char_ok v Hv) as (-> & -> & _). apply IH.
Qed.
Lemma labels_nibbles vs t : Forall (λ v, 0 ≤ v < 16) vs →
  labels ((vs ≫= λ v, [hex_char v; chr "."]) ++ t) = map (λ v, [hex_char v]) vs ++ labels t.
Proof.
  induction 1 as [|v vs Hv _ IH]; [done|]. rewrite bind_cons, <- app_assoc. cbn [app map].
  change (hex_char v :: chr "." :: ?x) with ([hex_char v] ++ chr "." :: x). rewrite labels_app; [by rewrite IH|].
  cbn [forallb]. by destruct (hex_char_ok v Hv) as (_ & _ & ->).
Qed.

Lemma arpa6_name_spec addr x :
  bytes addr → length addr = 16%nat → in_arpa_name_2_addr (arpa6_name addr) x = (F_IPV6, addr).
Proof.
  intros Hb Hl. set (vs := reverse (nibbles addr)).
  assert (Hvs : Forall (λ v, 0 ≤ v < 16) vs) by (by apply Forall_reverse, nibbles_range).
  assert (Hlen : length vs = 32%nat) by (unfold vs; rewrite length_reverse, length_nibbles; lia).
  assert (Hlab : labels (arpa6_name addr) = map (λ v, [hex_char v]) vs ++ [codes "ip6"; codes "arpa"]).
  { unfold arpa6_name. fold vs. rewrite labels_nibbles by done. done. }
  assert (Hsize : length (arpa6_name addr) = 72%nat).
  { unfold arpa6_name. fold vs. rewrite length_app.
    assert (∀ l, length (l ≫= λ v, [hex_char v; chr "."]) = (2 * length l)%nat) as ->; [|rewrite Hlen; done].
    clear. induction l as [|v l IH]; [done|]. rewrite bind_cons, length_app, IH. cbn. lia. }
  unfold in_arpa_name_2_addr. rewrite Hsize, Hlab, length_app, length_map, Hlen.
  change (MAXARPANAME <? 72)%nat with false. change (32 + length [codes "ip6"; codes "arpa"])%nat with 34%nat.
  change (34 <? 3)%nat with false. cbv iota zeta. change (34 - 1)%nat with 33%nat. change (34 - 2)%nat with 32%nat.
  rewrite (app_nth2 _ _ [] (n := 33)), (app_nth2 _ _ [] (n := 32)) by (rewrite length_map; lia).
  rewrite length_map, Hlen. rewrite take_app_length' by (by rewrite length_map). cbn [Nat.sub nth].
  change (hostname_isequal (codes "arpa") (codes "arpa")) with true.
  change (hostname_isequal (codes "ip6") (codes "in-addr")) with false.
  change (hostname_isequal (codes "ip6") (codes "ip6")) with true. rewrite orb_true_r. cbn [andb].
  assert (nth 0 (map (λ v, [hex_char v]) vs ++ [codes "ip6"; codes "arpa"]) [] = [hex_char (nth 0 vs 0)]) as ->
    by (by destruct vs).
  cbn [nth]. change (0 =? chr "[") with false. rewrite andb_false_r. cbn [andb].
  rewrite arpa6_fold by done. f_equal. apply nibbles_inj; [|done|].
  - destruct vs as [|v vs' _] using rev_ind; [done|]. rewrite foldl_app. apply nibble_in_bytes.
  - rewrite fold_nibbles by (done || by repeat constructor). rewrite repeat_length.
    unfold vs. rewrite reverse_involutive. rewrite take_app_length'; [done|]. rewrite length_nibbles. lia.
Qed.

(** The name in in-addr.arpa of an IPv4 address, in decimal with the bytes
    reversed, and the name in ip6.arpa of an IPv6 address, in hexadecimal digits
    reversed, are read back by in_arpa_name_2_addr as that address and its kind. *)
Theorem arpa_name_roundtrip (x : list Z) :
  (∀ a b c d, bytes [a; b; c; d] →
     in_arpa_name_2_addr (arpa4_name a b c d) x = (F_IPV4, [a; b; c; d] ++ repeat 0 12)) ∧
  (∀ addr, bytes addr → length addr = 16%nat → in_arpa_name_2_addr (arpa6_name addr) x = (F_IPV6, addr)).
Proof.
  split; [|intros; by apply arpa6_name_spec]. intros a b c d Hb.
  repeat (apply Forall_cons in Hb as [? Hb]). by apply arpa4_name_spec.
Qed.
Lemma arpa_name_roundtrip_witness :
  in_arpa_name_2_addr (codes "1.0.168.192.in-addr.arpa") [] = (F_IPV4, [192; 168; 0; 1] ++ repeat 0 12).
Proof. apply (proj1 (arpa_name_roundtrip []) 192 168 0 1). repeat constructor; unfold is_u8; lia. Defined.

(** ** The checksum depends on the questions only

    A question is its name, its letters in lower case, and the four bytes of its type
    and class; neither compression nor case enters. *)
Inductive questions (m : list Z) (plen : nat) : nat → nat → list (text * list Z) → Prop :=
| q_nil p : questions m plen 0 p []
| q_cons n p ls e qs :
    accepted m plen p 4 ls e → (e + 4 ≤ plen)%nat → questions m plen n (e + 4) qs →
    questions m plen (S n) p ((map fold (join ls), sub e 4 m) :: qs).
Definition crc_question (crc : Z) (q : text * list Z) : Z := foldl crc_byte (foldl crc_byte crc q.1) q.2.

Lemma foldl_fold crc t : foldl (λ crc c, crc_byte crc (fold c)) crc t = foldl crc_byte crc (map fold t).
Proof. revert crc. induction t as [|c t IH]; intros crc; cbn; [done|]. apply IH. Qed.
Lemma crc_questions_run m plen n p qs name crc :
  (plen ≤ length m)%nat → (MAXDNAME ≤ length name)%nat → questions m plen n p qs →
  crc_questions n m plen p name crc = Val (foldl crc_question crc qs).
Proof.
  intros Hm Hn Hq. revert name crc Hn. induction Hq as [p|n p ls e qs Hacc He _ IH]; intros name crc Hn; cbn [crc_questions]; [done|].
  destruct (extract_name_complete m name plen p 4 Hm Hn ls e Hacc) as (name' & -> & Hstr & Hlen). rewrite bind_Val.
  cbn [Z.eqb]. rewrite Hstr, bind_Val, foldl_fold.
  assert (load e 4 m = Val (sub e 4 m)) as -> by (apply load_Val; split; [lia|done]). rewrite bind_Val.
  unfold CHECK_LEN. destruct (Nat.leb_spec (e + 4 + 0) plen); [|lia]. cbn [negb foldl]. apply IH. lia.
Qed.

(** questions_crc is a function of the questions alone: for a packet whose
    questions can be read it is the 32-bit cyclic redundancy sum of their names in
    lower case, types and classes, so that two packets with the same questions,
    compressed and capitalised in different ways, have the same sum and a reply can
    be matched with its query. *)
Theorem questions_crc_spec (m1 m2 name1 name2 : list Z) (plen1 plen2 n : nat) (qs : list (text * list Z)) :
  (plen1 ≤ length m1)%nat → (plen2 ≤ length m2)%nat →
  (MAXDNAME ≤ length name1)%nat → (MAXDNAME ≤ length name2)%nat →
  qdcount m1 = Val (Z.of_nat n) → qdcount m2 = Val (Z.of_nat n) →
  questions m1 plen1 n HEADER_SIZE qs → questions m2 plen2 n HEADER_SIZE qs →
  questions_crc m1 plen1 name1 = Val (foldl crc_question 0xffffffff qs) ∧
  questions_crc m2 plen2 name2 = questions_crc m1 plen1 name1.
Proof.
  intros Hm1 Hm2 Hn1 Hn2 Hq1 Hq2 HQ1 HQ2. unfold questions_crc. rewrite Hq1, Hq2, !bind_Val, !Nat2Z.id.
  by rewrite !(crc_questions_run _ _ _ _ qs) by done.
Qed.
Definition sample_question (c : Z) (tl : list Z) : list Z := repeat 0 5 ++ [1] ++ repeat 0 6 ++ [1; c; 0; 0; 1; 0; 1] ++ tl.
Lemma sample_questions c tl : namechar c = true →
  questions (sample_question c tl) 19 1 HEADER_SIZE [([fold c], [0; 1; 0; 1])].
Proof.
  intros Hc. refine (q_cons (sample_question c tl) 19 0 12 [[c]] 15 [] _ _ _); [|lia|constructor]. exists O, 15%nat.
  split_and!; [|repeat constructor; cbn [forallb]; by rewrite Hc|lia|unfold MAXDNAME; cbn; lia|lia].
  apply (wire_label_eq _ _ 12 1); [done|lia|cbn; lia|done|]. apply (wire_end _ _ 14); [done|lia].
Qed.
Lemma questions_crc_spec_witness :
  questions_crc (sample_question 65 []) 19 (repeat 0 1025) = questions_crc (sample_question 97 [9]) 19 (repeat 0 1025).
Proof.
  apply (questions_crc_spec (sample_question 97 [9]) (sample_question 65 []) (repeat 0 1025) (repeat 0 1025) 19 19 1 [([97], [0; 1; 0; 1])]).
  - cbn; lia.
  - cbn; lia.
  - rewrite repeat_length; unfold MAXDNAME; lia.
  - rewrite repeat_length; unfold MAXDNAME; lia.
  - done.
  - done.
  - by apply (sample_questions 97).
  - by apply (sample_questions 65).
Defined.
End DnsMsg.
