(* ===== verification/DnsCache.v ===== *)
(** * The cache of dnsmasq (src/external/dnsmasq/src/cache.c)

    The entries live in a heap and are named by their place in it.  The doubly
    linked list from cache_head to cache_tail, the singly linked hash chains and
    new_chain are the lists of the entries they link, in order; that cache_link,
    cache_unlink and cache_free keep the pointers of the doubly linked list so is
    proved in Section [Lru] on the pointers themselves.  The next field of an
    entry that is in neither list, one of a hosts file or a lease, is [hnext]. *)
From stdpp Require Import gmap sorting.
From S2P Require Import Prelude Runtime DriverRt DnsUtil DnsName DnsMsg.
Import DnsUtil DnsMsg.

Module DnsCache.

(** ** The doubly linked list *)
Record links := mk_links { lnext : option nat; lprev : option nat }.
Record lru_state := mk_lru { cache_head : option nat; cache_tail : option nat; cells : gmap nat links }.
Definition cell (s : lru_state) (p : nat) : links := default (mk_links None None) (cells s !! p).
Definition set_next (p : nat) (v : option nat) (s : lru_state) : lru_state :=
  mk_lru (cache_head s) (cache_tail s) (<[p := mk_links v (lprev (cell s p))]> (cells s)).
Definition set_prev (p : nat) (v : option nat) (s : lru_state) : lru_state :=
  mk_lru (cache_head s) (cache_tail s) (<[p := mk_links (lnext (cell s p)) v]> (cells s)).
Definition set_head (v : option nat) (s : lru_state) : lru_state := mk_lru v (cache_tail s) (cells s).
Definition set_tail (v : option nat) (s : lru_state) : lru_state := mk_lru (cache_head s) v (cells s).

(** insert a new cache entry at the head of the list (youngest entry) *)
Definition cache_link (crecp : nat) (s : lru_state) : lru_state :=
  let s := match cache_head s with Some h => set_prev h (Some crecp) s | None => s end in
  let s := set_next crecp (cache_head s) s in
  let s := set_prev crecp None s in
  let s := set_head (Some crecp) s in
  match cache_tail s with None => set_tail (Some crecp) s | Some _ => s end.
(** remove an arbitrary cache entry for promotion *)
Definition cache_unlink (crecp : nat) (s : lru_state) : lru_state :=
  let s := match lprev (cell s crecp) with
           | Some p => set_next p (lnext (cell s crecp)) s
           | None => set_head (lnext (cell s crecp)) s
           end in
  match lnext (cell s crecp) with
  | Some n => set_prev n (lprev (cell s crecp)) s
  | None => set_tail (lprev (cell s crecp)) s
  end.
(** the pointers of cache_free: at the tail, oldest *)
Definition cache_append (crecp : nat) (s : lru_state) : lru_state :=
  let s := match cache_tail s with Some t => set_next t (Some crecp) s | None => set_head (Some crecp) s end in
  let s := set_prev crecp (cache_tail s) s in
  let s := set_next crecp None s in
  set_tail (Some crecp) s.

(** ** Entries *)
Inductive cname_addr := Addr (bytes : list Z) | Cname (cache : option nat) (uid : Z).
(** [cname]: the string that cache_get_name finds in the member of the union the
    flags select *)
Record crec := mk_crec { ttd : Z; uid : Z; addr : cname_addr; flags : Z; cname : text; hnext : option nat }.
Definition crec0 : crec := mk_crec 0 0 (Addr []) 0 [] None.
Definition cache_get_name (c : crec) : text := cname c.

Record cache := mk_cache {
  heap : gmap nat crec; lru : list nat; hash_table : list (list nat); new_chain : list nat;
  insert_error : bool; big_free : nat; bignames_left : Z; uid_ctr : Z; cache_inserted : Z; cache_live_freed : Z
}.
Definition entry (s : cache) (id : nat) : crec := default crec0 (heap s !! id).
Definition eflags (s : cache) (id : nat) : Z := flags (entry s id).
Definition hash_size (s : cache) : nat := length (hash_table s).

Definition set_heap h s := mk_cache h (lru s) (hash_table s) (new_chain s) (insert_error s) (big_free s)
  (bignames_left s) (uid_ctr s) (cache_inserted s) (cache_live_freed s).
Definition set_lru l s := mk_cache (heap s) l (hash_table s) (new_chain s) (insert_error s) (big_free s)
  (bignames_left s) (uid_ctr s) (cache_inserted s) (cache_live_freed s).
Definition set_table t s := mk_cache (heap s) (lru s) t (new_chain s) (insert_error s) (big_free s)
  (bignames_left s) (uid_ctr s) (cache_inserted s) (cache_live_freed s).
Definition set_new_chain l s := mk_cache (heap s) (lru s) (hash_table s) l (insert_error s) (big_free s)
  (bignames_left s) (uid_ctr s) (cache_inserted s) (cache_live_freed s).
Definition set_insert_error e s := mk_cache (heap s) (lru s) (hash_table s) (new_chain s) e (big_free s)
  (bignames_left s) (uid_ctr s) (cache_inserted s) (cache_live_freed s).
Definition set_bignames f l s := mk_cache (heap s) (lru s) (hash_table s) (new_chain s) (insert_error s) f
  l (uid_ctr s) (cache_inserted s) (cache_live_freed s).
Definition set_uid_ctr u s := mk_cache (heap s) (lru s) (hash_table s) (new_chain s) (insert_error s) (big_free s)
  (bignames_left s) u (cache_inserted s) (cache_live_freed s).
Definition set_counts i f s := mk_cache (heap s) (lru s) (hash_table s) (new_chain s) (insert_error s) (big_free s)
  (bignames_left s) (uid_ctr s) i f.
Definition set_entry id c s := set_heap (<[id := c]> (heap s)) s.
Definition set_chain i ch s := set_table (<[i := ch]> (hash_table s)) s.

Definition with_flags f c := mk_crec (ttd c) (uid c) (addr c) f (cname c) (hnext c).
Definition with_uid u c := mk_crec (ttd c) u (addr c) (flags c) (cname c) (hnext c).
Definition with_hnext n c := mk_crec (ttd c) (uid c) (addr c) (flags c) (cname c) n.
(** flags &= ~f *)
Definition clear (fl f : Z) : Z := Z.ldiff fl f.

Section Cache.
(** the bytes of typestr, which hold pointers *)
Context (mix_tab : list Z).

Fixpoint hash_val (name : text) (val : Z) : Z :=
  match name with
  | [] => val
  | c :: name' =>
      let c := fold c in
      hash_val name' (u32 (ROTATE val 7 + Z.lxor (nth (Z.to_nat (Z.land (u32 (val + c)) 0x3F)) mix_tab 0) c))
  end.
(** the index of the bucket *)
Definition hash_bucket (size : nat) (name : text) : nat :=
  let val := hash_val name 7989 (* 017465 *) in
  Z.to_nat (Z.land (Z.lxor val (Z.shiftr val 16)) (Z.of_nat size - 1)).

(** The chain with the entry: after those with F_REVERSE unless it has it, and
    before the immortal ones unless it is one. *)
Fixpoint before_immortal (s : cache) (crecp : nat) (chain : list nat) : list nat :=
  match chain with
  | up :: chain' => if negb (has (eflags s up) F_IMMORTAL) then up :: before_immortal s crecp chain' else crecp :: chain
  | [] => [crecp]
  end.
Fixpoint after_reverse (s : cache) (imm : bool) (crecp : nat) (chain : list nat) : list nat :=
  match chain with
  | up :: chain' =>
      if has (eflags s up) F_REVERSE then up :: after_reverse s imm crecp chain'
      else if imm then before_immortal s crecp chain else crecp :: chain
  | [] => [crecp]
  end.
Definition cache_hash (crecp : nat) (s : cache) : cache :=
  let up := hash_bucket (hash_size s) (cache_get_name (entry s crecp)) in
  let chain := nth up (hash_table s) [] in
  set_chain up (if negb (has (eflags s crecp) F_REVERSE)
                then after_reverse s (has (eflags s crecp) F_IMMORTAL) crecp chain
                else crecp :: chain) s.

(** [room]: whether whine_malloc gives the table; the first one is given. *)
Fixpoint table_size (fuel : nat) (new_size size : Z) : Z :=
  match fuel with
  | O => new_size
  | S fuel' => if new_size <? size / 10 then table_size fuel' (Z.shiftl new_size 1) size else new_size
  end.
Definition rehash (room : bool) (size : Z) (s : cache) : cache :=
  let new_size := Z.to_nat (table_size 32 64 size) in
  let old := hash_table s in
  if (0 <? length old)%nat && ((new_size <=? length old)%nat || negb room) then s else
  foldl (λ s p, cache_hash p s) (set_table (repeat [] new_size) s) (concat old).

(** The list and the entry after cache_free. *)
Definition cache_free (crecp : nat) (s : cache) : cache :=
  let c := entry s crecp in
  let big := has (flags c) F_BIGNAME in
  let c := with_flags (clear (clear (clear (flags c) F_FORWARD) F_REVERSE) F_BIGNAME) (with_uid (uid_ctr s) c) in
  let s := set_uid_ctr (i32 (uid_ctr s + 1)) s in
  let s := set_lru (lru s ++ [crecp]) s in
  let s := if big then set_bignames (S (big_free s)) (bignames_left s) s else s in
  set_entry crecp c s.
Definition unlink (crecp : nat) (s : cache) : cache := set_lru (filter (.≠ crecp) (lru s)) s.
Definition link (crecp : nat) (s : cache) : cache := set_lru (crecp :: lru s) s.

(** the loop of cache_init over the array of entries *)
Definition init_entry (i : nat) (s : cache) : cache :=
  let s := link i s in set_uid_ctr (i32 (uid_ctr s + 1)) (set_entry i (with_uid (uid_ctr s) crec0) s).
Definition cache_init (cachesize : nat) : cache :=
  let s := mk_cache ∅ [] [] [] false 0 (Z.of_nat cachesize / 10) 0 0 0 in
  let s := foldl (λ s i, init_entry i s) s (seq 0 cachesize) in
  rehash true (Z.of_nat cachesize) s.

Definition is_outdated_cname_pointer (s : cache) (crecp : nat) : bool :=
  if negb (has (eflags s crecp) F_CNAME) then false else
  match addr (entry s crecp) with
  | Cname (Some c) u => negb (u =? uid (entry s c))
  | _ => true
  end.
Definition is_expired (now : Z) (c : crec) : bool :=
  if has (flags c) F_IMMORTAL then false else negb (now <? ttd c).
Definition immune (fl : Z) : bool := has fl (Z.lor F_HOSTS F_DHCP).

(** Taking an entry off its chain: entries of hosts files and leases are not in the
    list. *)
Definition drop_entry (crecp : nat) (s : cache) : cache :=
  if negb (immune (eflags s crecp)) then cache_free crecp (unlink crecp s) else s.
Definition addr_bytes (a : cname_addr) : list Z := match a with Addr b => b | Cname _ _ => [] end.
(** memcmp(&crecp->addr.addr, addr, addrlen) == 0 *)
Definition same_addr (len : nat) (a : cname_addr) (b : list Z) : bool :=
  bool_decide (take len (addr_bytes a) = take len b).

(** The loop of cache_scan_free over the bucket of the name: what is left of the
    chain, and the result. *)
Fixpoint scan_name (chain : list nat) (name : text) (now fl : Z) (s : cache) : bool * list nat * cache :=
  match chain with
  | [] => (true, [], s)
  | crecp :: chain' =>
      let f := eflags s crecp in
      if is_expired now (entry s crecp) || is_outdated_cname_pointer s crecp then
        scan_name chain' name now fl (drop_entry crecp s)
      else if has f F_FORWARD &&
              (negb (Z.land (Z.land fl f) (Z.lor F_IPV4 F_IPV6) =? 0) || has (Z.lor f fl) F_CNAME) &&
              hostname_isequal (cache_get_name (entry s crecp)) name then
        if immune f then (false, chain, s)
        else scan_name chain' name now fl (cache_free crecp (unlink crecp s))
      else let '(ok, kept, s) := scan_name chain' name now fl s in (ok, crecp :: kept, s)
  end.
(** The loop over one bucket of the whole cache. *)
Fixpoint scan_addr (chain : list nat) (a : list Z) (now fl : Z) (s : cache) : list nat * cache :=
  match chain with
  | [] => ([], s)
  | crecp :: chain' =>
      let f := eflags s crecp in
      if negb (has f F_REVERSE) && has f F_IMMORTAL then (chain, s)
      else if is_expired now (entry s crecp) then scan_addr chain' a now fl (drop_entry crecp s)
      else if negb (immune f) && has (Z.land fl f) F_REVERSE &&
              negb (Z.land (Z.land fl f) (Z.lor F_IPV4 F_IPV6) =? 0) &&
              same_addr (if has fl F_IPV6 then 16 else 4) (addr (entry s crecp)) a then
        scan_addr chain' a now fl (cache_free crecp (unlink crecp s))
      else let '(kept, s) := scan_addr chain' a now fl s in (crecp :: kept, s)
  end.
Fixpoint scan_buckets (n i : nat) (a : list Z) (now fl : Z) (s : cache) : cache :=
  match n with
  | O => s
  | S n' => let '(kept, s) := scan_addr (nth i (hash_table s) []) a now fl s in
            scan_buckets n' (S i) a now fl (set_chain i kept s)
  end.
Definition cache_scan_free (name : text) (a : list Z) (now fl : Z) (s : cache) : bool * cache :=
  if has fl F_FORWARD then
    let b := hash_bucket (hash_size s) name in
    let '(ok, kept, s) := scan_name (nth b (hash_table s) []) name now fl s in
    (ok, set_chain b kept s)
  else (true, scan_buckets (hash_size s) 0 a now fl s).

(** ** Insertion *)
Definition cache_start_insert (s : cache) : cache :=
  let s := foldl (λ s id, cache_free id s) s (new_chain s) in
  set_insert_error false (set_new_chain [] s).

Definition SMALLDNAME : nat := 40.
(** The long name of an entry: [None] when there is no memory for it. *)
Definition take_bigname (room : bool) (name : text) (s : cache) : option (bool * cache) :=
  if (SMALLDNAME - 1 <? length name)%nat then
    if (0 <? big_free s)%nat then Some (true, set_bignames (pred (big_free s)) (bignames_left s) s)
    else if (bignames_left s =? 0) || negb room then None
    else Some (true, set_bignames (big_free s) (bignames_left s - 1) s)
  else Some (false, s).
(** while (1) of cache_insert: an entry at the end of the list that is not in use;
    each turn sets freed_all or free_avail, so four turns are enough. *)
Fixpoint grab (fuel : nat) (room : bool) (name : text) (now : Z) (freed_all free_avail : bool) (s : cache)
  : option (nat * bool) * cache :=
  match fuel, last (lru s) with
  | O, _ | _, None => (None, set_insert_error true s)
  | S fuel', Some new =>
      let c := entry s new in
      if has (flags c) (Z.lor F_FORWARD F_REVERSE) then
        if free_avail then (None, set_insert_error true s) else
        if freed_all then
          let s := (cache_scan_free (cache_get_name c) (addr_bytes (addr c)) now (flags c) s).2 in
          grab fuel' room name now freed_all true (set_counts (cache_inserted s) (cache_live_freed s + 1) s)
        else grab fuel' room name now true free_avail (cache_scan_free [] [] now 0 s).2
      else
        match take_bigname room name s with
        | None => (None, set_insert_error true s)
        | Some (big, s) => (Some (new, big), unlink new s)
        end
  end.
(** [name], [a]: [None] for null *)
Definition cache_insert (room : bool) (name : option text) (a : option (list Z)) (now ttl fl : Z) (s : cache)
  : option nat * cache :=
  let freed_all := has fl F_REVERSE in
  let fl := clear fl F_CONFIG in
  if insert_error s then (None, s) else
  let '(ok, s) := cache_scan_free (default [] name) (default [] a) now fl s in
  if negb ok then (None, set_insert_error true s) else
  match grab 4 room (default [] name) now freed_all false s with
  | (None, s) => (None, s)
  | (Some (new, big), s) =>
      let fl := if (big : bool) then Z.lor fl F_BIGNAME else fl in
      let c := mk_crec (now + ttl) (uid (entry s new)) (match a with Some b => Addr b | None => Cname None 0 end) fl
                 (default [] name) None in
      (Some new, set_new_chain (new :: new_chain s) (set_entry new c s))
  end.
(** cpp->addr.cname.cache = newc; cpp->addr.cname.uid = newc->uid *)
Definition point_cname (cpp newc : nat) (s : cache) : cache :=
  let c := entry s cpp in
  set_entry cpp (mk_crec (ttd c) (uid c) (Cname (Some newc) (uid (entry s newc))) (flags c) (cname c) (hnext c)) s.

Definition commit (id : nat) (s : cache) : cache :=
  if is_outdated_cname_pointer s id then cache_free id s
  else let s := link id (cache_hash id s) in set_counts (cache_inserted s + 1) (cache_live_freed s) s.
Definition cache_end_insert (s : cache) : cache :=
  if insert_error s then s else
  set_new_chain [] (foldl (λ s id, commit id s) s (new_chain s)).

(** ** Entries of hosts files and leases *)

(** The loops of cache_reload: entries of hosts files are freed, those of the list are
    set free in their place in it, those of leases stay. *)
Fixpoint flush_chain (chain : list nat) (s : cache) : list nat * cache :=
  match chain with
  | [] => ([], s)
  | id :: chain' =>
      let f := eflags s id in
      if has f F_HOSTS then flush_chain chain' s
      else if negb (has f F_DHCP) then
        let s := if has f F_BIGNAME then set_bignames (S (big_free s)) (bignames_left s) s else s in
        flush_chain chain' (set_entry id (with_flags 0 (entry s id)) s)
      else let '(kept, s) := flush_chain chain' s in (id :: kept, s)
  end.
Fixpoint flush_buckets (n i : nat) (s : cache) : cache :=
  match n with
  | O => s
  | S n' => let '(kept, s) := flush_chain (nth i (hash_table s) []) s in flush_buckets n' (S i) (set_chain i kept s)
  end.
Definition cache_flush (s : cache) : cache := flush_buckets (hash_size s) 0 (set_counts 0 0 s).

(** The entries of leases, which go to dhcp_spare, the last one first. *)
Fixpoint unhash_chain (s : cache) (chain spare : list nat) : list nat * list nat :=
  match chain with
  | [] => ([], spare)
  | id :: chain' =>
      if has (eflags s id) F_DHCP then unhash_chain s chain' (id :: spare)
      else let '(kept, spare) := unhash_chain s chain' spare in (id :: kept, spare)
  end.
Fixpoint unhash_buckets (n i : nat) (spare : list nat) (s : cache) : list nat * cache :=
  match n with
  | O => (spare, s)
  | S n' => let '(kept, spare) := unhash_chain s (nth i (hash_table s) []) spare in unhash_buckets n' (S i) spare (set_chain i kept s)
  end.
Definition cache_unhash_dhcp (spare : list nat) (s : cache) : list nat * cache := unhash_buckets (hash_size s) 0 spare s.

(** cache_hash of an entry that is in neither list, filled in before *)
Definition hash_entry (id : nat) (c : crec) (s : cache) : cache := cache_hash id (set_entry id c s).

(** ** Lookup *)

(** crecp->next *)
Fixpoint successor (id : nat) (l : list nat) : option nat :=
  match l with
  | x :: l' => if (x =? id)%nat then hd_error l' else successor id l'
  | [] => None
  end.
Definition next (s : cache) (id : nat) : option nat :=
  if immune (eflags s id) then hnext (entry s id) else successor id (lru s).
(** *chainp of the entries [ids], then the head of the list *)
Fixpoint chain_up (ids : list nat) (s : cache) : option nat * cache :=
  match ids with
  | [] => (hd_error (lru s), s)
  | id :: ids' => let '(n, s) := chain_up ids' s in (Some id, set_entry id (with_hnext n (entry s id)) s)
  end.

Section FindByName.
Context (name : text) (now prot : Z).
Definition name_matches (s : cache) (id : nat) : bool :=
  has (eflags s id) F_FORWARD && has (eflags s id) prot && hostname_isequal (cache_get_name (entry s id)) name.
Definition order_flags (fl : Z) : Z := Z.land fl (Z.lor F_REVERSE F_IMMORTAL).

(** The loop: [pre] is the chain up to insert, [moved] what was put there, [post] the
    rest up to [up], [ins] the ins_flags once insert is set, [hosts] the chain of answers. *)
Fixpoint find_loop (chain pre moved post : list nat) (ins : option Z) (hosts : list nat) (s : cache)
  : list nat * list nat * cache :=
  match chain with
  | [] => (pre ++ moved ++ post, hosts, s)
  | crecp :: chain' =>
      if negb (is_expired now (entry s crecp)) && negb (is_outdated_cname_pointer s crecp) then
        if name_matches s crecp then
          let '(hosts, s) := if immune (eflags s crecp) then (hosts ++ [crecp], s)
                             else (hosts, link crecp (unlink crecp s)) in
          let fl := order_flags (eflags s crecp) in
          match ins with
          | Some f => if fl =? f then find_loop chain' pre (moved ++ [crecp]) post ins hosts s
                      else find_loop chain' pre moved (post ++ [crecp]) ins hosts s
          | None => find_loop chain' pre moved (post ++ [crecp]) (Some fl) hosts s
          end
        else match ins with
             | Some _ => find_loop chain' pre moved (post ++ [crecp]) ins hosts s
             | None => find_loop chain' (pre ++ [crecp]) moved post ins hosts s
             end
      else find_loop chain' pre moved post ins hosts (drop_entry crecp s)
  end.
(** [crecp]: [None] starts a search, an entry continues it. *)
Definition cache_find_by_name (crecp : option nat) (s : cache) : option nat * cache :=
  let '(ans, s) := match crecp with
    | Some id => (next s id, s)
    | None =>
        let b := hash_bucket (hash_size s) name in
        let '(chain, hosts, s) := find_loop (nth b (hash_table s) []) [] [] [] None [] s in
        chain_up hosts (set_chain b chain s)
    end in
  (match ans with Some id => if name_matches s id then Some id else None | None => None end, s).
End FindByName.

Section FindByAddr.
Context (a : list Z) (now prot : Z).
Definition addr_len : nat := if prot =? F_IPV6 then 16 else 4.
Definition addr_matches (s : cache) (id : nat) : bool :=
  has (eflags s id) prot && same_addr addr_len (addr (entry s id)) a.
Fixpoint find_reverse (chain : list nat) (hosts : list nat) (s : cache) : list nat * list nat * cache :=
  match chain with
  | [] => ([], hosts, s)
  | crecp :: chain' =>
      if negb (has (eflags s crecp) F_REVERSE) then (chain, hosts, s) else
      if negb (is_expired now (entry s crecp)) then
        let '(hosts, s) := if addr_matches s crecp then
                             if immune (eflags s crecp) then (hosts ++ [crecp], s)
                             else (hosts, link crecp (unlink crecp s))
                           else (hosts, s) in
        let '(kept, hosts, s) := find_reverse chain' hosts s in (crecp :: kept, hosts, s)
      else find_reverse chain' hosts (drop_entry crecp s)
  end.
Fixpoint find_buckets (n i : nat) (hosts : list nat) (s : cache) : list nat * cache :=
  match n with
  | O => (hosts, s)
  | S n' => let '(kept, hosts, s) := find_reverse (nth i (hash_table s) []) hosts s in
            find_buckets n' (S i) hosts (set_chain i kept s)
  end.
Definition cache_find_by_addr (crecp : option nat) (s : cache) : option nat * cache :=
  let '(ans, s) := match crecp with
    | Some id => (next s id, s)
    | None => let '(hosts, s) := find_buckets (hash_size s) 0 [] s in chain_up hosts s
    end in
  (match ans with
   | Some id => if has (eflags s id) F_REVERSE && addr_matches s id then Some id else None
   | None => None end, s).
End FindByAddr.
End Cache.

(** ** The pointers refine the list *)
Section Lru.
(** what a neighbour's pointer holds *)
Definition front (l : list nat) (n : option nat) : option nat := match l with x :: _ => Some x | [] => n end.
Definition back (l : list nat) (p : option nat) : option nat := match last l with Some x => Some x | None => p end.
(** the cells of [l] are linked, between [p] and [n] *)
Fixpoint seg (c : gmap nat links) (p : option nat) (l : list nat) (n : option nat) : Prop :=
  match l with
  | [] => True
  | x :: l' => c !! x = Some (mk_links (front l' n) p) ∧ seg c (Some x) l' n
  end.
Definition dll (s : lru_state) (l : list nat) : Prop :=
  NoDup l ∧ cache_head s = front l None ∧ cache_tail s = back l None ∧ seg (cells s) None l None.

Lemma back_snoc l x p : back (l ++ [x]) p = Some x.
Proof. unfold back. by rewrite last_snoc. Qed.
Lemma back_cons x l p : back (x :: l) p = back l (Some x).
Proof. unfold back. rewrite last_cons. by destruct (last l). Qed.
Lemma seg_app c p l1 l2 n : seg c p (l1 ++ l2) n ↔ seg c p l1 (front l2 n) ∧ seg c (back l1 p) l2 n.
Proof.
  revert p. induction l1 as [|x l1 IH]; intros p; cbn [seg app]; [unfold back; cbn; tauto|].
  rewrite IH, back_cons. replace (front (l1 ++ l2) n) with (front l1 (front l2 n)) by (by destruct l1). tauto.
Qed.
Lemma seg_insert c p l n x v : x ∉ l → seg (<[x := v]> c) p l n ↔ seg c p l n.
Proof.
  revert p. induction l as [|y l IH]; intros p Hx; cbn [seg]; [done|].
  apply not_elem_of_cons in Hx as [Hne Hx]. rewrite lookup_insert_ne by done. by rewrite IH.
Qed.
Lemma cell_some s x v : cells s !! x = Some v → cell s x = v.
Proof. unfold cell. by intros ->. Qed.

Lemma set_both x a b s : set_prev x a (set_next x b s) = mk_lru (cache_head s) (cache_tail s) (<[x := mk_links b a]> (cells s)).
Proof. unfold set_prev, set_next, cell. cbn. by rewrite lookup_insert_eq, insert_insert_eq. Qed.
Lemma set_both' x a b s : set_next x b (set_prev x a s) = mk_lru (cache_head s) (cache_tail s) (<[x := mk_links b a]> (cells s)).
Proof. unfold set_prev, set_next, cell. cbn. by rewrite lookup_insert_eq, insert_insert_eq. Qed.

Lemma cache_link_dll s l x : dll s l → x ∉ l → dll (cache_link x s) (x :: l).
Proof.
  intros (Hnd & Hh & Ht & Hs) Hx. unfold cache_link. rewrite Hh. rewrite set_both.
  destruct l as [|h l]; cbn [front].
  - cbn in Ht. unfold set_head. cbn. rewrite Hh, Ht. unfold dll. cbn. rewrite lookup_insert_eq.
    split_and!; [by apply NoDup_singleton|done..].
  - destruct Hs as [Hc Hs]. apply not_elem_of_cons in Hx as [Hxh Hx]. pose proof Hnd as [Hh' _]%NoDup_cons.
    unfold set_prev, set_head. cbn. rewrite Hh, Ht, (cell_some _ _ _ Hc).
    unfold dll. rewrite (back_cons x), (back_cons h), (back_cons h).
    replace (back l (Some h)) with (Some (default h (last l))) by (unfold back; by destruct (last l)). cbn. split_and!.
    + apply NoDup_cons. rewrite not_elem_of_cons. done.
    + done.
    + done.
    + by rewrite lookup_insert_eq.
    + by rewrite lookup_insert_ne, lookup_insert_eq by done.
    + by rewrite !seg_insert.
Qed.

Lemma cache_append_dll s l x : dll s l → x ∉ l → dll (cache_append x s) (l ++ [x]).
Proof.
  intros (Hnd & Hh & Ht & Hs) Hx. unfold cache_append. rewrite Ht, set_both'.
  destruct l as [|y l' _] using rev_ind.
  - unfold back; cbn. unfold set_tail, set_head, dll. cbn in *. rewrite Ht, lookup_insert_eq.
    split_and!; [by apply NoDup_singleton|done..].
  - rewrite back_snoc in *. apply seg_app in Hs as [Hs1 [Hc _]]. cbn [front] in Hc.
    unfold set_next, set_tail. cbn. rewrite Ht, (cell_some _ _ _ Hc). cbn [lprev].
    apply not_elem_of_app in Hx as [Hx Hxy]. apply not_elem_of_cons in Hxy as [Hxy _].
    pose proof Hnd as (_ & Hdis & _)%NoDup_app. assert (y ∉ l') by (intros Hy; apply (Hdis y Hy); by constructor).
    unfold dll. rewrite back_snoc. cbn. split_and!.
    + apply NoDup_app. split; [done|]. split; [|by apply NoDup_singleton].
      intros z Hz ->%list_elem_of_singleton. apply elem_of_app in Hz as [?|?%list_elem_of_singleton]; done.
    + rewrite Hh. by destruct l'.
    + done.
    + rewrite <- app_assoc. apply seg_app. cbn [front app seg]. rewrite !seg_insert by done. split; [done|].
      rewrite lookup_insert_ne, !lookup_insert_eq by done. done.
Qed.

Lemma cache_unlink_dll s l1 l2 x : dll s (l1 ++ x :: l2) → dll (cache_unlink x s) (l1 ++ l2).
Proof.
  intros (Hnd & Hh & Ht & Hs). apply seg_app in Hs as [Hs1 [Hc Hs2]]. cbn [front] in Hs1.
  unfold cache_unlink. rewrite (cell_some _ _ _ Hc). cbn [lnext lprev].
  apply NoDup_app in Hnd as (Hnd1 & Hdis & [Hx2 Hnd2]%NoDup_cons).
  assert (Hx1 : x ∉ l1) by (intros Hx; apply (Hdis x Hx); by constructor).
  assert (Hd12 : ∀ y, y ∈ l1 → y ∉ l2) by (intros y Hy Hy2; apply (Hdis y Hy); by constructor).
  assert (Hnd : NoDup (l1 ++ l2)) by (apply NoDup_app; done).
  (* the pointer of the predecessor *)
  set (s1 := match back l1 None with Some p => set_next p (front l2 None) s | None => set_head (front l2 None) s end).
  assert (H1 : cells s1 !! x = cells s !! x ∧ seg (cells s1) None l1 (front l2 None) ∧ seg (cells s1) (Some x) l2 None ∧
    cache_head s1 = front (l1 ++ l2) None ∧ cache_tail s1 = cache_tail s).
  { unfold s1. destruct l1 as [|p l1' _] using rev_ind; [by cbn|]. rewrite back_snoc.
    apply seg_app in Hs1 as [Hs1 [Hcp _]]. cbn [front] in *. unfold set_next. cbn. rewrite (cell_some _ _ _ Hcp). cbn [lprev].
    apply not_elem_of_app in Hx1 as [Hx1 Hxp]. apply not_elem_of_cons in Hxp as [Hxp _].
    assert (p ∉ l1') by (apply NoDup_app in Hnd1 as (_ & Hd & _); intros Hp; apply (Hd p Hp); by constructor).
    assert (p ∉ l2) by (apply Hd12, elem_of_app; right; by constructor).
    rewrite lookup_insert_ne by done. rewrite (seg_insert _ (Some x)) by done. split_and!; [done| |done| |done].
    - apply seg_app. rewrite seg_insert by done. cbn [front seg]. by rewrite lookup_insert_eq.
    - rewrite Hh. by destruct l1'. }
  destruct H1 as (Hx & H1 & H2 & H3 & H4). rewrite Hc in Hx. rewrite (cell_some s1 x _ Hx). cbn [lnext lprev].
  destruct l2 as [|n l2]; cbn [front].
  - unfold set_tail, dll. cbn. rewrite app_nil_r in *. done.
  - destruct H2 as [Hcn H2]. cbn [front] in *. unfold set_prev, dll. cbn. rewrite (cell_some _ _ _ Hcn). cbn [lnext].
    apply NoDup_cons in Hnd2 as [Hn2 _]. assert (n ∉ l1) by (intros Hn; apply (Hd12 n Hn); by constructor).
    split_and!; [done|done| |].
    + rewrite H4, Ht. unfold back. by rewrite !last_app_cons, last_cons_cons.
    + apply seg_app. cbn [front seg]. rewrite !seg_insert by done. by rewrite lookup_insert_eq.
Qed.

(** The operations on the list that the cache performs, and what they mean. *)
Inductive lru_op := Link (x : nat) | Unlink (x : nat) | Append (x : nat).
Definition pointer_op (o : lru_op) (s : lru_state) : lru_state :=
  match o with Link x => cache_link x s | Unlink x => cache_unlink x s | Append x => cache_append x s end.
Definition list_op (o : lru_op) (l : list nat) : option (list nat) :=
  match o with
  | Link x => if decide (x ∈ l) then None else Some (x :: l)
  | Unlink x => if decide (x ∈ l) then Some (filter (.≠ x) l) else None
  | Append x => if decide (x ∈ l) then None else Some (l ++ [x])
  end.
Lemma filter_ne_notin (l : list nat) x : x ∉ l → filter (.≠ x) l = l.
Proof.
  induction l as [|y l IH]; [done|]. intros [Hne Hx]%not_elem_of_cons.
  rewrite filter_cons_True by (by apply not_eq_sym). by rewrite IH.
Qed.
Lemma filter_ne_middle (l1 l2 : list nat) x : x ∉ l1 → x ∉ l2 → filter (.≠ x) (l1 ++ x :: l2) = l1 ++ l2.
Proof.
  intros H1 H2. rewrite filter_app, filter_cons_False by (intros Hn; by apply Hn). by rewrite !filter_ne_notin.
Qed.
Lemma list_op_dll o s l l' : dll s l → list_op o l = Some l' → dll (pointer_op o s) l'.
Proof.
  intros Hd. destruct o as [x|x|x]; cbn; case_decide as Hx; intros [= <-].
  - by apply cache_link_dll.
  - apply list_elem_of_split in Hx as (l1 & l2 & ->). pose proof Hd as [(_ & Hdis & [Hx2 _]%NoDup_cons)%NoDup_app _].
    rewrite filter_ne_middle; [by apply cache_unlink_dll| |done]. intros Hx1. apply (Hdis x Hx1). by constructor.
  - by apply cache_append_dll.
Qed.
End Lru.

(** C26. cache_link, cache_unlink and the end of cache_free refine a list: as long as
    the callers link and append only entries that are not in the list and unlink only
    entries that are, every sequence of them keeps the head and tail pointers and the
    next and prev fields of all entries those of the list that the sequence gives. *)
Theorem lru_pointers_refine_list (ops : list lru_op) (s : lru_state) (l l' : list nat) :
  dll s l → foldl (λ ol o, ol ≫= list_op o) (Some l) ops = Some l' → dll (foldl (λ s o, pointer_op o s) s ops) l'.
Proof.
  revert s l. induction ops as [|o ops IH]; intros s l Hd; cbn [foldl]; [by intros [= <-]|].
  destruct (list_op o l) as [l1|] eqn:Ho; cbn [mbind option_bind]; rewrite ?Ho.
  - apply IH. by eapply list_op_dll.
  - intros Hf. exfalso. revert Hf. clear. induction ops as [|o' ops IH]; [done|]. apply IH.
Qed.
Lemma lru_pointers_refine_list_witness :
  dll (foldl (λ s o, pointer_op o s) (mk_lru None None ∅) [Link 1; Link 2; Link 3; Unlink 2; Append 2]) [3; 1; 2]%nat.
Proof.
  apply (lru_pointers_refine_list [Link 1; Link 2; Link 3; Unlink 2; Append 2] (mk_lru None None ∅) [] [3; 1; 2]%nat);
    [|by vm_compute]. split_and!; [constructor|done..].
Defined.
End DnsCache.
