(* ===== verification/DnsCacheInv.v ===== *)
(** * Invariants and lookups of the cache (src/external/dnsmasq/src/cache.c)

    The entries of the list that are in use are those of the hash chains, each on
    the chain of its name, once; a chain has its reverse entries first and its
    other immortal entries last.  Every operation of the cache keeps this.  On it
    rest the theorems on lookups. *)
From stdpp Require Import gmap sorting.
From S2P Require Import Prelude Runtime DriverRt DnsUtil DnsName DnsMsg DnsCache.
Import DnsUtil DnsMsg DnsCache.

Module DnsCacheInv.

(** ** Flags *)
Definition FR : Z := Z.lor F_FORWARD F_REVERSE.
Lemma has_false fl f : has fl f = false ↔ Z.land fl f = 0.
Proof. unfold has. by rewrite negb_false_iff, Z.eqb_eq. Qed.
Lemma has_true fl f : has fl f = true ↔ Z.land fl f ≠ 0.
Proof. unfold has. by rewrite negb_true_iff, Z.eqb_neq. Qed.
Lemma land_ldiff a b c : Z.land (Z.ldiff a b) c = Z.ldiff (Z.land a c) b.
Proof.
  apply Z.bits_inj'. intros n Hn. rewrite !Z.land_spec, !Z.ldiff_spec, Z.land_spec.
  by destruct (Z.testbit a n), (Z.testbit b n), (Z.testbit c n).
Qed.
Lemma has_clear fl f g : has fl f = false → has (clear fl g) f = false.
Proof. unfold clear. rewrite !has_false, land_ldiff. intros ->. done. Qed.
Lemma has_clear_ne fl f g : Z.land f g = 0 → has (clear fl g) f = has fl f.
Proof.
  intros Hfg. unfold has, clear. do 2 f_equal. rewrite land_ldiff. apply Z.bits_inj'. intros n Hn.
  rewrite Z.ldiff_spec, Z.land_spec. pose proof (f_equal (λ z, Z.testbit z n) Hfg) as Hb. cbv beta in Hb.
  rewrite Z.land_spec, Z.bits_0 in Hb. by destruct (Z.testbit fl n), (Z.testbit f n), (Z.testbit g n).
Qed.
(** what cache_free leaves of the flags *)
Definition freed_flags (fl : Z) : Z := clear (clear (clear fl F_FORWARD) F_REVERSE) F_BIGNAME.
Lemma freed_unused fl : has (freed_flags fl) FR = false.
Proof.
  unfold freed_flags, clear. rewrite has_false. apply Z.bits_inj'. intros n Hn. unfold FR.
  rewrite Z.land_spec, !Z.ldiff_spec, Z.lor_spec, Z.bits_0.
  by destruct (Z.testbit fl n), (Z.testbit F_FORWARD n), (Z.testbit F_REVERSE n), (Z.testbit F_BIGNAME n).
Qed.
Lemma freed_plain fl : immune fl = false → immune (freed_flags fl) = false.
Proof. intros Hi. by repeat apply has_clear. Qed.
Section Invariant.
Context (mix_tab : list Z).

(** ** The invariant *)
Definition bucket (s : cache) (id : nat) : nat := hash_bucket mix_tab (hash_size s) (cache_get_name (entry s id)).
Definition in_tbl (tbl : list (list nat)) (id : nat) : Prop := ∃ i ch, tbl !! i = Some ch ∧ id ∈ ch.
(** <reverse>, <other>, <immortal> *)
Definition rank (fl : Z) : nat := if has fl F_REVERSE then 0 else if has fl F_IMMORTAL then 2 else 1.
Definition before (s : cache) (a b : nat) : Prop := (rank (eflags s a) ≤ rank (eflags s b))%nat.

Record chain_ok (s : cache) (i : nat) (ch : list nat) : Prop := {
  chain_nodup : NoDup ch;
  chain_bucket : Forall (λ id, bucket s id = i) ch;
  chain_order : StronglySorted (before s) ch;
  chain_owner : Forall (λ id, id ∈ lru s ∨ immune (eflags s id) = true) ch
}.
(** with [tbl] for the hash table, whose chains the loops change at their end *)
Record cinv_at (s : cache) (tbl : list (list nat)) : Prop := {
  inv_size : length tbl = hash_size s ∧ ∃ k, hash_size s = (2 ^ k)%nat;
  inv_lists : NoDup (lru s ++ new_chain s);
  inv_plain : ∀ id, id ∈ lru s ++ new_chain s → immune (eflags s id) = false;
  inv_used : ∀ id, id ∈ lru s → has (eflags s id) FR = true ↔ in_tbl tbl id;
  inv_new : ∀ id, id ∈ new_chain s → ¬ in_tbl tbl id ∧ has (eflags s id) FR = true;
  inv_chains : ∀ i ch, tbl !! i = Some ch → chain_ok s i ch
}.
Definition cinv (s : cache) : Prop := cinv_at s (hash_table s).

(** *** What an operation may change *)
Lemma chain_ok_frame s s' i ch :
  chain_ok s i ch → hash_size s' = hash_size s → (∀ id, id ∈ ch → id ∈ lru s → id ∈ lru s') →
  (∀ id, id ∈ ch → eflags s' id = eflags s id ∧ cache_get_name (entry s' id) = cache_get_name (entry s id)) → chain_ok s' i ch.
Proof.
  intros [Hnd Hb Ho Hw] Hsize Hlru Hsame. split; [done| | |].
  - apply Forall_forall. intros id Hid. rewrite Forall_forall in Hb. unfold bucket in *.
    destruct (Hsame id Hid) as [_ ->]. rewrite Hsize. by apply Hb.
  - clear Hnd Hb Hw Hlru. induction Ho as [|a ch Ho IH Ha]; constructor.
    + apply IH. intros id Hid. apply Hsame. by constructor.
    + apply Forall_forall. intros b Hb. rewrite Forall_forall in Ha. unfold before in *.
      rewrite (proj1 (Hsame a ltac:(by constructor))), (proj1 (Hsame b ltac:(by constructor))). by apply Ha.
  - apply Forall_forall. intros id Hid. rewrite Forall_forall in Hw. rewrite (proj1 (Hsame id Hid)).
    destruct (Hw id Hid); [left; by apply Hlru|by right].
Qed.
Lemma sorted_remove {A} (R : A → A → Prop) pre x rest : StronglySorted R (pre ++ x :: rest) → StronglySorted R (pre ++ rest).
Proof.
  induction pre as [|a pre IH]; cbn; intros H; [by inversion H|]. inversion H as [|?? Hs Hf]; subst. constructor; [by apply IH|].
  apply Forall_app in Hf as [? [_ ?]%Forall_cons]. by apply Forall_app.
Qed.
Lemma chain_ok_remove s i pre id rest : chain_ok s i (pre ++ id :: rest) → chain_ok s i (pre ++ rest) ∧ id ∉ pre ++ rest.
Proof.
  intros [Hnd Hb Ho Hw]. apply Forall_app in Hb as [? [_ ?]%Forall_cons]. apply Forall_app in Hw as [? [_ ?]%Forall_cons].
  assert (Hp : id :: (pre ++ rest) ≡ₚ pre ++ id :: rest) by (by rewrite Permutation_middle).
  rewrite <- Hp in Hnd. apply NoDup_cons in Hnd as [? ?]. split; [|done].
  split; [done|by apply Forall_app|by eapply sorted_remove|by apply Forall_app].
Qed.
(** an entry is on one chain *)
Lemma in_tbl_remove s tbl b pre id rest x :
  (∀ i ch, tbl !! i = Some ch → chain_ok s i ch) → tbl !! b = Some (pre ++ id :: rest) →
  in_tbl (<[b := pre ++ rest]> tbl) x ↔ in_tbl tbl x ∧ x ≠ id.
Proof.
  intros Hok Hb. pose proof (lookup_lt_Some _ _ _ Hb) as Hlt.
  destruct (chain_ok_remove s b pre id rest (Hok _ _ Hb)) as [_ Hni].
  assert (Hbid : bucket s id = b).
  { pose proof (chain_bucket _ _ _ (Hok _ _ Hb)) as Hf. rewrite Forall_forall in Hf. apply Hf.
    apply elem_of_app. right. by constructor. }
  split.
  - intros (i & ch & Hi & Hx). destruct (decide (i = b)) as [->|Hne].
    + rewrite list_lookup_insert_eq in Hi by done. injection Hi as <-. split.
      * exists b, (pre ++ id :: rest). split; [done|]. apply elem_of_app in Hx. rewrite elem_of_app, elem_of_cons. tauto.
      * by intros ->.
    + rewrite list_lookup_insert_ne in Hi by done. split; [by exists i, ch|]. intros ->.
      pose proof (chain_bucket _ _ _ (Hok _ _ Hi)) as Hf. rewrite Forall_forall in Hf. apply Hne. rewrite <- (Hf id Hx). done.
  - intros [(i & ch & Hi & Hx) Hne]. destruct (decide (i = b)) as [->|Hib].
    + rewrite Hb in Hi. injection Hi as <-. exists b, (pre ++ rest). rewrite list_lookup_insert_eq by done. split; [done|].
      apply elem_of_app in Hx as [?|[?|?]%elem_of_cons]; [| |]; apply elem_of_app; tauto.
    + exists i, ch. by rewrite list_lookup_insert_ne.
Qed.

(** *** Freeing *)
Lemma entry_set_entry s id c x : entry (set_entry id c s) x = if decide (id = x) then c else entry s x.
Proof.
  unfold entry, set_entry, set_heap. cbn. case_decide as H; [subst; by rewrite lookup_insert_eq|by rewrite lookup_insert_ne].
Qed.
Lemma cache_free_facts id s :
  let s' := cache_free id s in
  lru s' = lru s ++ [id] ∧ new_chain s' = new_chain s ∧ hash_table s' = hash_table s ∧ insert_error s' = insert_error s ∧
  (∀ x, x ≠ id → entry s' x = entry s x) ∧ eflags s' id = freed_flags (eflags s id) ∧
  cache_get_name (entry s' id) = cache_get_name (entry s id).
Proof.
  unfold cache_free. cbv zeta. set (c := with_flags _ _).
  assert (Hc : flags c = freed_flags (eflags s id) ∧ cname c = cname (entry s id)) by done. clearbody c.
  destruct (has (flags (entry s id)) F_BIGNAME);
    (split_and!; [done|done|done|done|intros x Hx; rewrite entry_set_entry; by rewrite decide_False by auto|..]);
    unfold eflags, cache_get_name; rewrite entry_set_entry, decide_True by done; apply Hc.
Qed.
Lemma perm_free (l : list nat) id : NoDup l → id ∈ l → filter (.≠ id) l ++ [id] ≡ₚ l.
Proof.
  intros Hnd Hin. apply list_elem_of_split in Hin as (l1 & l2 & ->).
  apply NoDup_app in Hnd as (_ & Hdis & [Hx2 _]%NoDup_cons).
  rewrite filter_ne_middle; [|intros Hx; apply (Hdis id Hx); by constructor|done].
  rewrite <- app_assoc. by rewrite (Permutation_app_comm l2 [id]).
Qed.

(** an operation that leaves the lists as sets, and the entries but one *)
Record near (id : nat) (s s' : cache) : Prop := {
  near_lru : lru s' ≡ₚ lru s;
  near_new : new_chain s' = new_chain s;
  near_table : hash_table s' = hash_table s;
  near_error : insert_error s' = insert_error s;
  near_entry : ∀ x, x ≠ id → entry s' x = entry s x
}.
Lemma free_near id s : NoDup (lru s) → id ∈ lru s → near id s (cache_free id (unlink id s)).
Proof.
  intros Hnd Hin. destruct (cache_free_facts id (unlink id s)) as (H1 & H2 & H3 & H4 & H5 & _).
  split; [|done..]. rewrite H1. cbn. by apply perm_free.
Qed.

(** An entry taken off its chain. *)
Lemma chains_remove s (tbl : list (list nat)) (b : nat) pre id rest :
  (∀ i ch, tbl !! i = Some ch → chain_ok s i ch) → tbl !! b = Some (pre ++ id :: rest) →
  ∀ i ch, <[b := pre ++ rest]> tbl !! i = Some ch → chain_ok s i ch ∧ id ∉ ch.
Proof.
  intros Hc Hb i ch Hi. pose proof (lookup_lt_Some _ _ _ Hb) as Hlt.
  assert (¬ in_tbl (<[b := pre ++ rest]> tbl) id) as Hnot.
  { intros Ht. apply (in_tbl_remove s tbl b pre id rest id Hc Hb) in Ht as [_ ?]. done. }
  split; [|intros Hx; apply Hnot; by exists i, ch]. destruct (decide (i = b)) as [->|Hne].
  - rewrite list_lookup_insert_eq in Hi by done. injection Hi as <-. by destruct (chain_ok_remove s b pre id rest (Hc _ _ Hb)).
  - rewrite list_lookup_insert_ne in Hi by done. by apply Hc.
Qed.
(** one of a hosts file or lease, which is in neither list *)
Lemma cinv_forget s tbl b pre id rest :
  cinv_at s tbl → tbl !! b = Some (pre ++ id :: rest) → immune (eflags s id) = true → cinv_at s (<[b := pre ++ rest]> tbl).
Proof.
  intros [[Hlen Hsize] Hl Hp Hu Hn Hc] Hb Himm.
  split; [by rewrite length_insert|done|done| | |intros i ch Hi; by apply (chains_remove s tbl b pre id rest Hc Hb)].
  - intros x Hx. rewrite (in_tbl_remove s tbl b pre id rest x Hc Hb), (Hu x Hx).
    split; [intros ?; split; [done|]|tauto]. intros ->. rewrite Hp in Himm; [done|]. apply elem_of_app. by left.
  - intros x Hx. destruct (Hn x Hx) as [Hnt ?]. split; [|done].
    intros [? _]%(in_tbl_remove s tbl b pre id rest x Hc Hb). done.
Qed.
(** one of the list, which is then not in use *)
Lemma cinv_release s s' tbl b pre id rest :
  cinv_at s tbl → tbl !! b = Some (pre ++ id :: rest) → id ∈ lru s → near id s s' →
  has (eflags s' id) FR = false → immune (eflags s' id) = false → cinv_at s' (<[b := pre ++ rest]> tbl).
Proof.
  intros [[Hlen Hsize] Hl Hp Hu Hn Hc] Hb Hid [Nl Nn Nt _ Ne] Hun Hpl. pose proof Hl as (Hndl & Hdis & _)%NoDup_app.
  assert (Hfl : ∀ x, x ≠ id → eflags s' x = eflags s x) by (intros x Hx; unfold eflags; by rewrite Ne).
  split.
  - unfold hash_size. rewrite Nt, length_insert. done.
  - by rewrite Nl, Nn.
  - intros x Hx. rewrite Nl, Nn in Hx. destruct (decide (x = id)) as [->|Hne]; [done|]. rewrite Hfl by done. by apply Hp.
  - intros x Hx. rewrite Nl in Hx. rewrite (in_tbl_remove s tbl b pre id rest x Hc Hb).
    destruct (decide (x = id)) as [->|Hne]; [rewrite Hun; naive_solver|]. rewrite Hfl, (Hu x Hx) by done. tauto.
  - intros x Hx. rewrite Nn in Hx. destruct (Hn x Hx) as [Hnt ?].
    assert (x ≠ id) by (intros ->; by apply (Hdis id)). rewrite Hfl by done. split; [|done].
    intros [? _]%(in_tbl_remove s tbl b pre id rest x Hc Hb). done.
  - intros i ch Hi. destruct (chains_remove s tbl b pre id rest Hc Hb i ch Hi) as [Hok Hnot].
    eapply chain_ok_frame; [exact Hok|by unfold hash_size; rewrite Nt| |].
    + intros x _. by rewrite Nl.
    + intros x Hx. assert (x ≠ id) by (by intros ->). rewrite Hfl by done. by rewrite Ne.
Qed.
Lemma cinv_owner s tbl b pre id rest :
  cinv_at s tbl → tbl !! b = Some (pre ++ id :: rest) → id ∈ lru s ∨ immune (eflags s id) = true.
Proof.
  intros Hi Hb. pose proof (chain_owner _ _ _ (inv_chains _ _ Hi _ _ Hb)) as Hf. rewrite Forall_forall in Hf.
  apply Hf, elem_of_app. right. by constructor.
Qed.
Lemma cinv_drop s tbl b pre id rest :
  cinv_at s tbl → tbl !! b = Some (pre ++ id :: rest) → cinv_at (drop_entry id s) (<[b := pre ++ rest]> tbl).
Proof.
  intros Hi Hb. unfold drop_entry. destruct (immune (eflags s id)) eqn:Himm; cbn [negb]; [by eapply cinv_forget|].
  destruct (cinv_owner s tbl b pre id rest Hi Hb) as [Hid|?]; [|congruence]. pose proof (inv_lists _ _ Hi) as (Hndl & _)%NoDup_app.
  destruct (cache_free_facts id (unlink id s)) as (_ & _ & _ & _ & _ & Ff & _).
  apply (cinv_release s _ tbl b pre id rest); [done|done|done|by apply free_near|rewrite Ff; apply freed_unused|rewrite Ff; by apply freed_plain].
Qed.

(** *** What a scan leaves alone *)
Definition unused (s : cache) (x : nat) : Prop := has (eflags s x) FR = false.
Record frame (s s' : cache) : Prop := {
  fr_lru : lru s' ≡ₚ lru s;
  fr_new : new_chain s' = new_chain s;
  fr_table : hash_table s' = hash_table s;
  fr_error : insert_error s' = insert_error s;
  fr_name : ∀ x, cache_get_name (entry s' x) = cache_get_name (entry s x);
  fr_entry : ∀ x, entry s' x = entry s x ∨ x ∈ lru s ∧ unused s' x
}.
Lemma frame_refl s : frame s s.
Proof. split; [done..|]. by left. Qed.
Lemma frame_trans s1 s2 s3 : frame s1 s2 → frame s2 s3 → frame s1 s3.
Proof.
  intros [A1 A2 A3 A4 A6 A5] [B1 B2 B3 B4 B6 B5]. split; [by rewrite B1|congruence..|intros x; by rewrite B6|].
  intros x. destruct (B5 x) as [Hb|[Hin Hb]].
  - destruct (A5 x) as [Ha|[Hin Ha]]; [left; congruence|right]. split; [done|]. unfold unused, eflags in *. by rewrite Hb.
  - right. split; [by rewrite A1 in Hin|done].
Qed.
Lemma drop_frame id s : NoDup (lru s) → id ∈ lru s ∨ immune (eflags s id) = true → frame s (drop_entry id s).
Proof.
  intros Hnd Hown. unfold drop_entry. destruct (immune (eflags s id)) eqn:Himm; cbn [negb]; [apply frame_refl|].
  destruct Hown as [Hid|?]; [|done]. destruct (free_near id s Hnd Hid) as [Nl Nn Nt Nerr Ne]. split; [done..| |].
  { intros x. destruct (decide (x = id)) as [->|Hne]; [|by rewrite Ne].
    by destruct (cache_free_facts id (unlink id s)) as (_ & _ & _ & _ & _ & _ & ->). }
  intros x. destruct (decide (x = id)) as [->|Hne]; [right|by left; apply Ne]. split; [done|].
  unfold unused. destruct (cache_free_facts id (unlink id s)) as (_ & _ & _ & _ & _ & -> & _). apply freed_unused.
Qed.
Lemma cinv_chain_owner s tbl b ch id : cinv_at s tbl → tbl !! b = Some ch → id ∈ ch → id ∈ lru s ∨ immune (eflags s id) = true.
Proof. intros Hi Hb Hx. pose proof (chain_owner _ _ _ (inv_chains _ _ Hi _ _ Hb)) as Hf. rewrite Forall_forall in Hf. by apply Hf. Qed.
Lemma cinv_nodup_lru s tbl : cinv_at s tbl → NoDup (lru s).
Proof. intros Hi. by pose proof (inv_lists _ _ Hi) as (? & _)%NoDup_app. Qed.
Lemma cinv_drop_frame s tbl b pre id rest :
  cinv_at s tbl → tbl !! b = Some (pre ++ id :: rest) → frame s (drop_entry id s).
Proof.
  intros Hi Hb. apply drop_frame; [by eapply cinv_nodup_lru|]. eapply cinv_chain_owner; [done|done|].
  apply elem_of_app. right. by constructor.
Qed.
Lemma cinv_set_table s tbl : cinv_at s tbl → cinv (set_table tbl s).
Proof.
  intros [[Hlen Hk] Hl Hp Hu Hn Hc]. split; [|done..|].
  - unfold hash_size. cbn. rewrite Hlen. done.
  - intros i ch Hi. eapply chain_ok_frame; [by apply Hc|exact Hlen|done|done].
Qed.
Lemma cinv_same_chain s tbl b ch : tbl !! b = Some ch → cinv_at s tbl → cinv_at s (<[b := ch]> tbl).
Proof. intros Hb. by rewrite list_insert_id. Qed.

(** *** Scans *)
Lemma not_immune_drop id s : immune (eflags s id) = false → cache_free id (unlink id s) = drop_entry id s.
Proof. intros Hi. unfold drop_entry. by rewrite Hi. Qed.

Lemma scan_name_inv chain name now fl pre s tbl b :
  cinv_at s tbl → tbl !! b = Some (pre ++ chain) →
  let '(_, kept, s') := scan_name chain name now fl s in cinv_at s' (<[b := pre ++ kept]> tbl) ∧ frame s s'.
Proof.
  revert pre s tbl. induction chain as [|id chain IH]; intros pre s tbl Hi Hb; cbn [scan_name].
  { split; [by apply cinv_same_chain|apply frame_refl]. }
  assert (Hdrop : let '(_, kept, s') := scan_name chain name now fl (drop_entry id s) in
    cinv_at s' (<[b := pre ++ kept]> tbl) ∧ frame s s').
  { pose proof (IH pre (drop_entry id s) (<[b := pre ++ chain]> tbl)) as H.
    destruct (scan_name chain name now fl (drop_entry id s)) as [[ok kept] s'].
    destruct H as [H1 H2]; [by apply cinv_drop|apply list_lookup_insert_eq; by eapply lookup_lt_Some|].
    rewrite list_insert_insert_eq in H1. split; [done|]. eapply frame_trans; [by eapply cinv_drop_frame|done]. }
  destruct (_ || _); [exact Hdrop|]. destruct (_ && _ && _).
  - destruct (immune (eflags s id)) eqn:Himm; [split; [by apply cinv_same_chain|apply frame_refl]|].
    rewrite not_immune_drop by done. exact Hdrop.
  - pose proof (IH (pre ++ [id]) s tbl Hi) as H. rewrite <- app_assoc in H. specialize (H Hb).
    destruct (scan_name chain name now fl s) as [[ok kept] s']. by rewrite <- app_assoc in H.
Qed.
Lemma scan_addr_inv chain a now fl pre s tbl b :
  cinv_at s tbl → tbl !! b = Some (pre ++ chain) →
  let '(kept, s') := scan_addr chain a now fl s in cinv_at s' (<[b := pre ++ kept]> tbl) ∧ frame s s'.
Proof.
  revert pre s tbl. induction chain as [|id chain IH]; intros pre s tbl Hi Hb; cbn [scan_addr].
  { split; [by apply cinv_same_chain|apply frame_refl]. }
  assert (Hdrop : let '(kept, s') := scan_addr chain a now fl (drop_entry id s) in
    cinv_at s' (<[b := pre ++ kept]> tbl) ∧ frame s s').
  { pose proof (IH pre (drop_entry id s) (<[b := pre ++ chain]> tbl)) as H.
    destruct (scan_addr chain a now fl (drop_entry id s)) as [kept s'].
    destruct H as [H1 H2]; [by apply cinv_drop|apply list_lookup_insert_eq; by eapply lookup_lt_Some|].
    rewrite list_insert_insert_eq in H1. split; [done|]. eapply frame_trans; [by eapply cinv_drop_frame|done]. }
  destruct (negb _ && _); [split; [by apply cinv_same_chain|apply frame_refl]|].
  destruct (is_expired _ _); [exact Hdrop|]. destruct (immune (eflags s id)) eqn:Himm; cbn [negb andb]; [|destruct (_ && _)].
  2: { rewrite not_immune_drop by done. exact Hdrop. }
  all: pose proof (IH (pre ++ [id]) s tbl Hi) as H; rewrite <- app_assoc in H; specialize (H Hb);
    destruct (scan_addr chain a now fl s) as [kept s']; by rewrite <- app_assoc in H.
Qed.

(** what is left of a chain *)
Lemma scan_name_sub chain name now fl s x : x ∈ (scan_name chain name now fl s).1.2 → x ∈ chain.
Proof.
  revert s. induction chain as [|id chain IH]; intros s; cbn [scan_name]; [done|].
  destruct (_ || _); [intros ?%IH; by constructor|]. destruct (_ && _ && _).
  - case_match; [done|]. intros ?%IH. by constructor.
  - specialize (IH s). destruct (scan_name chain name now fl s) as [[ok kept] s']. cbn [fst snd] in *. rewrite !elem_of_cons. tauto.
Qed.
Lemma scan_addr_sub chain a now fl s x : x ∈ (scan_addr chain a now fl s).1 → x ∈ chain.
Proof.
  revert s. induction chain as [|id chain IH]; intros s; cbn [scan_addr]; [done|].
  destruct (negb _ && _); [done|]. destruct (is_expired _ _); [intros ?%IH; by constructor|].
  destruct (_ && _ && _ && _); [intros ?%IH; by constructor|].
  specialize (IH s). destruct (scan_addr chain a now fl s) as [kept s']. cbn [fst] in *. rewrite !elem_of_cons. tauto.
Qed.

(** the same when the chains may lose entries *)
Record wframe (s s' : cache) : Prop := {
  wf_lru : lru s' ≡ₚ lru s;
  wf_new : new_chain s' = new_chain s;
  wf_size : hash_size s' = hash_size s;
  wf_sub : ∀ x, in_tbl (hash_table s') x → in_tbl (hash_table s) x;
  wf_error : insert_error s' = insert_error s;
  wf_name : ∀ x, cache_get_name (entry s' x) = cache_get_name (entry s x);
  wf_entry : ∀ x, entry s' x = entry s x ∨ x ∈ lru s ∧ unused s' x
}.
Lemma wframe_refl s : wframe s s.
Proof. split; [done..|]. by left. Qed.
Lemma wframe_trans s1 s2 s3 : wframe s1 s2 → wframe s2 s3 → wframe s1 s3.
Proof.
  intros [A1 A2 A3 A7 A4 A6 A5] [B1 B2 B3 B7 B4 B6 B5].
  split; [by rewrite B1|congruence|congruence|intros x Hx; by apply A7, B7|congruence|intros x; by rewrite B6|].
  intros x. destruct (B5 x) as [Hb|[Hin Hb]].
  - destruct (A5 x) as [Ha|[Hin Ha]]; [left; congruence|right]. split; [done|]. unfold unused, eflags in *. by rewrite Hb.
  - right. split; [by rewrite A1 in Hin|done].
Qed.
Lemma frame_set_chain s s' b ch ch' :
  frame s s' → hash_table s !! b = Some ch → (∀ x, x ∈ ch' → x ∈ ch) → wframe s (set_chain b ch' s').
Proof.
  intros [A1 A2 A3 A4 A6 A5] Hb Hsub. split; [done|done| | |done|exact A6|exact A5].
  - unfold hash_size. cbn. by rewrite length_insert, A3.
  - cbn. rewrite A3. intros x (i & c & Hi & Hx). destruct (decide (i = b)) as [->|Hne].
    + rewrite list_lookup_insert_eq in Hi by (by eapply lookup_lt_Some). injection Hi as <-. exists b, ch. split; [done|by apply Hsub].
    + rewrite list_lookup_insert_ne in Hi by done. by exists i, c.
Qed.

Lemma bucket_lt size name : (∃ k, size = 2 ^ k)%nat → (hash_bucket mix_tab size name < size)%nat.
Proof.
  intros [k ->]. unfold hash_bucket. set (v := Z.lxor _ _).
  replace (Z.of_nat (2 ^ k) - 1) with (Z.ones (Z.of_nat k)).
  - rewrite Z.land_ones by lia. pose proof (Z.mod_pos_bound v (2 ^ Z.of_nat k) ltac:(apply Z.pow_pos_nonneg; lia)).
    rewrite <- (Nat2Z.id (2 ^ k)), Nat2Z.inj_pow. apply Z2Nat.inj_lt; lia.
  - rewrite Z.ones_equiv, Nat2Z.inj_pow. lia.
Qed.
Lemma nth_chain (tbl : list (list nat)) b : (b < length tbl)%nat → tbl !! b = Some (nth b tbl []).
Proof. intros Hb. destruct (lookup_lt_is_Some_2 tbl b Hb) as [ch Hch]. by rewrite nth_lookup, Hch. Qed.

(** A loop over one chain, put back at its end. *)
Lemma cinv_put_chain s s' b ch :
  frame s s' → cinv_at s' (<[b := ch]> (hash_table s)) → cinv (set_chain b ch s').
Proof. intros Hf Hi. unfold set_chain. rewrite (fr_table _ _ Hf). by apply cinv_set_table. Qed.

Lemma scan_buckets_inv n i a now fl s :
  cinv s → (i + n ≤ hash_size s)%nat → cinv (scan_buckets n i a now fl s) ∧ wframe s (scan_buckets n i a now fl s).
Proof.
  revert i s. induction n as [|n IH]; intros i s Hi Hn; cbn [scan_buckets]; [split; [done|apply wframe_refl]|].
  assert (Hlt : (i < length (hash_table s))%nat) by (unfold hash_size in Hn; lia).
  pose proof (scan_addr_inv (nth i (hash_table s) []) a now fl [] s (hash_table s) i Hi (nth_chain _ _ Hlt)) as H.
  pose proof (scan_addr_sub (nth i (hash_table s) []) a now fl s) as Hsub.
  destruct (scan_addr _ a now fl s) as [kept s']. destruct H as [H1 H2]. cbn [app fst] in *.
  pose proof (frame_set_chain s s' i _ kept H2 (nth_chain _ _ Hlt) Hsub) as Hf.
  destruct (IH (S i) (set_chain i kept s')) as [? ?]; [by eapply cinv_put_chain|rewrite (wf_size _ _ Hf); lia|].
  split; [done|]. by eapply wframe_trans.
Qed.
Lemma cache_scan_free_inv name a now fl s :
  cinv s → cinv (cache_scan_free mix_tab name a now fl s).2 ∧ wframe s (cache_scan_free mix_tab name a now fl s).2.
Proof.
  intros Hi. unfold cache_scan_free. destruct (has fl F_FORWARD); [|cbn [snd]; by apply scan_buckets_inv].
  set (b := hash_bucket mix_tab (hash_size s) name).
  assert (Hb : (b < hash_size s)%nat) by (apply bucket_lt, (inv_size _ _ Hi)).
  pose proof (scan_name_inv (nth b (hash_table s) []) name now fl [] s (hash_table s) b Hi (nth_chain _ _ Hb)) as H.
  pose proof (scan_name_sub (nth b (hash_table s) []) name now fl s) as Hsub.
  destruct (scan_name _ name now fl s) as [[ok kept] s']. destruct H as [H1 H2]. cbn [fst snd app] in *.
  split; [by eapply cinv_put_chain|by eapply frame_set_chain, Hsub; [|apply nth_chain]].
Qed.

(** ** Insertion *)

(** the entry at the end of the list, taken *)
Lemma unlink_last s new : NoDup (lru s) → last (lru s) = Some new → lru s = lru (unlink new s) ++ [new].
Proof.
  intros Hnd [l Hl]%last_Some. cbn. rewrite Hl in *. apply NoDup_app in Hnd as (_ & Hdis & _).
  rewrite filter_ne_middle; [by rewrite app_nil_r| |apply not_elem_of_nil].
  intros Hx. apply (Hdis new Hx). by constructor.
Qed.
(** A new entry: off the list, on new_chain. *)
Lemma cinv_take_new s new c :
  cinv s → last (lru s) = Some new → has (eflags s new) FR = false →
  immune (flags c) = false → has (flags c) FR = true →
  cinv (set_new_chain (new :: new_chain s) (set_entry new c (unlink new s))).
Proof.
  intros Hi Hlast Hun Himm HFR. pose proof (unlink_last s new (cinv_nodup_lru _ _ Hi) Hlast) as Hl.
  set (s' := set_new_chain _ _). destruct Hi as [Hsz Hnd Hp Hu Hn Hc].
  assert (Hlru : lru s' = lru (unlink new s)) by done.
  assert (Hnt : ¬ in_tbl (hash_table s) new).
  { rewrite <- Hu; [congruence|]. rewrite Hl. apply elem_of_app. right. by constructor. }
  assert (Hperm : lru s' ++ new_chain s' ≡ₚ lru s ++ new_chain s).
  { rewrite Hl, Hlru. cbn [new_chain s' set_new_chain]. by rewrite <- app_assoc. }
  assert (Hent : ∀ x, x ≠ new → entry s' x = entry s x).
  { intros x Hx. unfold s'. change (entry (set_new_chain _ ?q) x) with (entry q x). rewrite entry_set_entry.
    by rewrite decide_False by auto. }
  assert (Hnew : eflags s' new = flags c).
  { unfold eflags, s'. change (entry (set_new_chain _ ?q) new) with (entry q new). by rewrite entry_set_entry, decide_True. }
  assert (Hin : ∀ x, x ∈ lru s' → x ∈ lru s ∧ x ≠ new).
  { intros x Hx. split; [rewrite Hl; apply elem_of_app; by left|]. intros ->. rewrite Hlru in Hx. cbn in Hx.
    by apply list_elem_of_filter in Hx as [? _]. }
  split; cbn [hash_table new_chain].
  - exact Hsz.
  - by rewrite Hperm.
  - intros x Hx. destruct (decide (x = new)) as [->|Hne]; [by rewrite Hnew|]. unfold eflags. rewrite Hent by done.
    apply Hp. by rewrite <- Hperm.
  - intros x Hx. destruct (Hin x Hx). unfold eflags. rewrite Hent by done. by apply Hu.
  - intros x Hx. apply elem_of_cons in Hx as [->|Hx]; [by rewrite Hnew|].
    assert (x ≠ new).
    { intros ->. apply NoDup_app in Hnd as (_ & Hd & _). apply (Hd new); [|done]. rewrite Hl. apply elem_of_app. right. by constructor. }
    unfold eflags. rewrite Hent by done. by apply Hn.
  - intros i ch Hch. assert (Hx : new ∉ ch) by (intros ?; apply Hnt; by exists i, ch).
    apply (chain_ok_frame s); [by apply Hc|done| |].
    + intros x Hxc Hlx. rewrite Hlru. cbn. apply list_elem_of_filter. split; [by intros ->|done].
    + intros x Hxc. unfold eflags. rewrite Hent; [done|by intros ->].
Qed.

(** The other fields do not matter. *)
Definition core (s : cache) := (heap s, lru s, hash_table s, new_chain s).
Lemma cinv_core s s' : core s' = core s → cinv s → cinv s'.
Proof.
  destruct s, s'. cbn. intros [= -> -> -> ->] [A B C D E F]. split; [done..|].
  intros i ch Hi. destruct (F i ch Hi). by split.
Qed.
Lemma has_lor_l fl f g : Z.land g f = 0 → has (Z.lor fl g) f = has fl f.
Proof. intros Hgf. unfold has. by rewrite Z.land_lor_distr_l, Hgf, Z.lor_0_r. Qed.

(** what grab takes: the entry at the end of the list of a good cache *)
Definition grabbed (s : cache) (new : nat) (s' : cache) : Prop :=
  ∃ s0, cinv s0 ∧ wframe s s0 ∧ last (lru s0) = Some new ∧ has (eflags s0 new) FR = false ∧
    core s' = core (unlink new s0) ∧ insert_error s' = insert_error s0.
Lemma take_bigname_core room name s big s' : take_bigname room name s = Some (big, s') → core s' = core s ∧ insert_error s' = insert_error s.
Proof. unfold take_bigname. repeat case_match; intros; simplify_eq; done. Qed.
(** a grab that fails *)
Definition failed (s s' : cache) : Prop := ∃ s0, cinv s0 ∧ wframe s s0 ∧ s' = set_insert_error true s0.
Lemma failed_here s : cinv s → failed s (set_insert_error true s).
Proof. intros Hi. exists s. split_and!; [done|apply wframe_refl|done]. Qed.
Lemma failed_inv s s' : failed s s' → cinv s' ∧ ∀ x, cache_get_name (entry s' x) = cache_get_name (entry s x).
Proof. intros (s0 & Hi & Hw & ->). split; [by apply (cinv_core s0)|]. exact (wf_name _ _ Hw). Qed.
Lemma grab_inv fuel room name now freed_all free_avail s :
  cinv s →
  match grab mix_tab fuel room name now freed_all free_avail s with
  | (Some (new, _), s') => grabbed s new s'
  | (None, s') => failed s s'
  end.
Proof.
  revert freed_all free_avail s. induction fuel as [|fuel IH]; intros fa av s Hi; cbn [grab]; [by apply failed_here|].
  destruct (last (lru s)) as [new|] eqn:Hlast; [|by apply failed_here].
  assert (Hgo : ∀ s1 fa av, cinv s1 → wframe s s1 →
    match grab mix_tab fuel room name now fa av s1 with (Some (new, _), s') => grabbed s new s' | (None, s') => failed s s' end).
  { intros s1 fa' av' H1 Hf. specialize (IH fa' av' s1 H1). destruct (grab _ _ _ _ _ _ _ s1) as [[[n b]|] s'];
      destruct IH as (s0 & ? & Hf0 & ?); exists s0; (split; [done|split; [by eapply wframe_trans|done]]). }
  destruct (has _ _) eqn:Hused.
  - destruct av; [by apply failed_here|]. destruct fa.
    + destruct (cache_scan_free_inv (cache_get_name (entry s new)) (addr_bytes (addr (entry s new))) now (flags (entry s new)) s Hi) as [H1 Hf].
      apply Hgo; [by eapply cinv_core; [|exact H1]|]. destruct Hf. by split.
    + destruct (cache_scan_free_inv [] [] now 0 s Hi) as [H1 Hf]. by apply Hgo.
  - destruct (take_bigname room name s) as [[big s1]|] eqn:Htb; [|by apply failed_here].
    apply take_bigname_core in Htb as [Hcore Herr]. exists s. split_and!; [done|apply wframe_refl|done|done| |done].
    destruct s, s1. cbn in *. by injection Hcore as -> -> -> ->.
Qed.

Lemma cache_insert_inv room name a now ttl fl s :
  cinv s → immune fl = false → has fl FR = true → cinv (cache_insert mix_tab room name a now ttl fl s).2.
Proof.
  intros Hi Himm HFR. unfold cache_insert. destruct (insert_error s); [done|].
  destruct (cache_scan_free_inv (default [] name) (default [] a) now (clear fl F_CONFIG) s Hi) as [H1 Hf].
  destruct (cache_scan_free _ _ _ _ _ s) as [ok s1]. cbn [snd] in *. destruct ok; cbn [negb]; [|by apply (cinv_core s1)].
  pose proof (grab_inv 4 room (default [] name) now (has fl F_REVERSE) false s1 H1) as Hg.
  destruct (grab _ _ _ _ _ _ _ s1) as [[[new big]|] s2]; [|by eapply failed_inv].
  destruct Hg as (s0 & H0 & _ & Hlast & Hun & Hcore & _). cbn [snd].
  set (c := mk_crec _ _ _ _ _ _).
  eapply cinv_core; [|apply (cinv_take_new s0 new c H0 Hlast Hun)].
  - destruct s2, s0. cbn in *. by injection Hcore as -> -> -> ->.
  - unfold c. cbn [flags]. destruct big; [unfold immune; rewrite has_lor_l by done|]; by apply has_clear.
  - unfold c. cbn [flags]. destruct big; [rewrite has_lor_l by done|]; by rewrite has_clear_ne.
Qed.

(** *** The place of an entry on its chain *)
Definition hashed (s : cache) (id : nat) (chain : list nat) : list nat :=
  if negb (has (eflags s id) F_REVERSE) then after_reverse s (has (eflags s id) F_IMMORTAL) id chain else id :: chain.
Definition placed (s : cache) (id : nat) (chain res : list nat) : Prop :=
  ∃ pre post, chain = pre ++ post ∧ res = pre ++ id :: post ∧
    Forall (λ x, before s x id) pre ∧ Forall (before s id) post.
Lemma placed_here s id chain : Forall (before s id) chain → placed s id chain (id :: chain).
Proof. intros Hf. by exists [], chain. Qed.
Lemma placed_next s id x chain res : before s x id → placed s id chain res → placed s id (x :: chain) (x :: res).
Proof. intros Hx (pre & post & -> & -> & ? & ?). exists (x :: pre), post. by repeat constructor. Qed.
Lemma before_head s id x chain : StronglySorted (before s) (x :: chain) → before s id x → Forall (before s id) (x :: chain).
Proof.
  intros [_ Hf]%StronglySorted_inv Hx. constructor; [done|]. eapply Forall_impl; [exact Hf|].
  intros y Hy. unfold before in *. lia.
Qed.
Lemma hashed_placed s id chain : StronglySorted (before s) chain → placed s id chain (hashed s id chain).
Proof.
  intros Hs. unfold hashed. destruct (has (eflags s id) F_REVERSE) eqn:Hrev; cbn [negb].
  { apply placed_here. apply Forall_forall. intros x _. unfold before, rank. rewrite Hrev. lia. }
  assert (Himm : ∀ ch, StronglySorted (before s) ch → Forall (λ x, (1 ≤ rank (eflags s x))%nat) ch →
    has (eflags s id) F_IMMORTAL = true → placed s id ch (before_immortal s id ch)).
  { intros ch Hch H1 Hi. induction ch as [|x ch IH]; cbn [before_immortal]; [by apply placed_here|].
    apply Forall_cons in H1 as [Hx1 H1]. pose proof Hch as [Hch' _]%StronglySorted_inv.
    destruct (has (eflags s x) F_IMMORTAL) eqn:Hx; cbn [negb].
    - apply placed_here, before_head; [done|]. unfold before, rank in *. rewrite Hrev, Hi, Hx in *. case_match; lia.
    - apply placed_next; [unfold before, rank; rewrite Hrev, Hi; repeat case_match; lia|]. by apply IH. }
  induction chain as [|x chain IH]; cbn [after_reverse]; [by apply placed_here|].
  pose proof Hs as [Hs' Hf]%StronglySorted_inv. destruct (has (eflags s x) F_REVERSE) eqn:Hxr.
  { apply placed_next; [unfold before, rank; rewrite Hxr; lia|by apply IH]. }
  assert (H1 : Forall (λ y, (1 ≤ rank (eflags s y))%nat) (x :: chain)).
  { assert (1 ≤ rank (eflags s x))%nat by (unfold rank; rewrite Hxr; case_match; lia).
    constructor; [done|]. eapply Forall_impl; [exact Hf|]. intros y Hy. unfold before in Hy. lia. }
  destruct (has (eflags s id) F_IMMORTAL) eqn:Hi; [by apply Himm|].
  apply placed_here. eapply Forall_impl; [exact H1|]. intros y Hy. unfold before. unfold rank at 1. rewrite Hrev, Hi. done.
Qed.
Lemma hashed_ext s s' id ch : (∀ x, eflags s' x = eflags s x) → hashed s' id ch = hashed s id ch.
Proof.
  intros He. unfold hashed. rewrite He. destruct (has (eflags s id) F_REVERSE); cbn [negb]; [done|].
  assert (Hb : ∀ c, before_immortal s' id c = before_immortal s id c).
  { intros c. induction c as [|x c IH]; cbn; [done|]. by rewrite He, IH. }
  induction ch as [|x ch IH]; cbn [after_reverse]; [done|]. by rewrite He, IH, Hb.
Qed.
Lemma placed_sorted s id chain res : placed s id chain res → StronglySorted (before s) chain → StronglySorted (before s) res ∧ res ≡ₚ id :: chain.
Proof.
  intros (pre & post & -> & -> & Hpre & Hpost) Hs. split; [|by rewrite Permutation_middle].
  induction Hpre as [|x pre Hx Hpre IH]; cbn in *; [by constructor|].
  apply StronglySorted_inv in Hs as [Hs Hf]. constructor; [by apply IH|].
  apply Forall_app in Hf as [? ?]. apply Forall_app. split; [done|]. by constructor.
Qed.
Lemma chain_ok_hashed s b ch id :
  chain_ok s b ch → bucket s id = b → id ∉ ch → id ∈ lru s ∨ immune (eflags s id) = true → chain_ok s b (hashed s id ch).
Proof.
  intros [C1 C2 C3 C4] Hb Hni Hown.
  destruct (placed_sorted s id ch (hashed s id ch) (hashed_placed s id ch C3) C3) as [Hs Hp].
  split; [rewrite Hp; by apply NoDup_cons|rewrite Hp; by constructor|done|rewrite Hp; by constructor].
Qed.
Lemma hashed_elem s b ch id x : chain_ok s b ch → x ∈ hashed s id ch ↔ x = id ∨ x ∈ ch.
Proof.
  intros [_ _ C3 _]. destruct (placed_sorted s id ch (hashed s id ch) (hashed_placed s id ch C3) C3) as [_ ->].
  apply elem_of_cons.
Qed.

(** *** Out of new_chain *)
Lemma cinv_free_new s id rest : cinv (set_new_chain (id :: rest) s) → cinv (set_new_chain rest (cache_free id s)).
Proof.
  intros [Hsz Hnd Hp Hu Hn Hc]. cbn [lru new_chain hash_table set_new_chain] in *.
  destruct (cache_free_facts id s) as (F1 & F2 & F3 & _ & F5 & F6 & _). set (s' := set_new_chain rest (cache_free id s)).
  assert (Hent : ∀ x, x ≠ id → entry s' x = entry s x) by exact F5.
  assert (Hfid : has (eflags s' id) FR = false ∧ immune (eflags s' id) = false).
  { change (eflags s' id) with (eflags (cache_free id s) id). rewrite F6. split; [apply freed_unused|apply freed_plain].
    apply (Hp id). apply elem_of_app. right. by constructor. }
  assert (Hperm : lru s' ++ new_chain s' ≡ₚ lru s ++ id :: rest).
  { change (lru s') with (lru (cache_free id s)). rewrite F1, <- app_assoc. done. }
  destruct (Hn id) as [Hnt _]; [by constructor|].
  unfold cinv. change (hash_table s') with (hash_table (cache_free id s)). rewrite F3. split.
  - change (hash_size s') with (length (hash_table (cache_free id s))). by rewrite F3.
  - by rewrite Hperm.
  - intros x Hx. destruct (decide (x = id)) as [->|Hne]; [apply Hfid|]. unfold eflags. rewrite Hent by done.
    apply Hp. by rewrite <- Hperm.
  - intros x Hx. destruct (decide (x = id)) as [->|Hne]; [rewrite (proj1 Hfid); naive_solver|].
    unfold eflags. rewrite Hent by done. apply Hu. change (lru s') with (lru (cache_free id s)) in Hx. rewrite F1 in Hx.
    apply elem_of_app in Hx as [?|?%list_elem_of_singleton]; done.
  - intros x Hx. apply NoDup_app in Hnd as (_ & _ & [Hid _]%NoDup_cons).
    assert (x ≠ id) by (by intros ->). unfold eflags. rewrite Hent by done. apply (Hn x). by constructor.
  - intros i ch Hch. apply (chain_ok_frame (set_new_chain (id :: rest) s)); [by apply Hc| | |].
    + change (hash_size s') with (length (hash_table (cache_free id s))). by rewrite F3.
    + intros x _ Hx. change (lru s') with (lru (cache_free id s)). rewrite F1. apply elem_of_app. by left.
    + intros x Hx. unfold eflags. rewrite Hent; [done|]. intros ->. apply Hnt. by exists i, ch.
Qed.

(** An entry that is on no chain, put on its chain. *)
Lemma in_tbl_insert (tbl : list (list nat)) b ch ch' x :
  tbl !! b = Some ch → (∀ y, y ∈ ch → y ∈ ch') → in_tbl (<[b := ch']> tbl) x ↔ x ∈ ch' ∨ in_tbl tbl x.
Proof.
  intros Hb Hsub. assert (Hlt : (b < length tbl)%nat) by (by eapply lookup_lt_Some). split.
  - intros (i & c & Hi & Hx). destruct (decide (i = b)) as [->|Hne].
    + rewrite list_lookup_insert_eq in Hi by done. left. by injection Hi as <-.
    + rewrite list_lookup_insert_ne in Hi by done. right. by exists i, c.
  - intros [Hx|(i & c & Hi & Hx)]; [exists b, ch'; by rewrite list_lookup_insert_eq|].
    destruct (decide (i = b)) as [->|Hne]; [|exists i, c; by rewrite list_lookup_insert_ne].
    rewrite Hb in Hi. injection Hi as <-. exists b, ch'. rewrite list_lookup_insert_eq by done. split; [done|by apply Hsub].
Qed.
Definition chains_ok (s : cache) : Prop :=
  (∃ k, hash_size s = (2 ^ k)%nat) ∧ ∀ i ch, hash_table s !! i = Some ch → chain_ok s i ch.
Lemma cache_hash_chains s id :
  chains_ok s → ¬ in_tbl (hash_table s) id → id ∈ lru s ∨ immune (eflags s id) = true →
  let s' := cache_hash mix_tab id s in
  chains_ok s' ∧ hash_size s' = hash_size s ∧ (∀ x, in_tbl (hash_table s') x ↔ x = id ∨ in_tbl (hash_table s) x) ∧
  s' = set_table (hash_table s') s.
Proof.
  intros [Hk Hc] Hnt Hown s'. set (b := bucket s id). assert (Hb : (b < length (hash_table s))%nat) by (by apply bucket_lt).
  set (ch := nth b (hash_table s) []). pose proof (nth_chain _ _ Hb) as Hch. fold ch in Hch.
  assert (Htab : hash_table s' = <[b := hashed s' id ch]> (hash_table s)) by (by rewrite (hashed_ext s s')).
  assert (Hsize : hash_size s' = hash_size s) by (unfold hash_size; by rewrite Htab, length_insert).
  assert (Hok : ∀ i c, hash_table s !! i = Some c → chain_ok s' i c) by (intros i c Hi; apply (chain_ok_frame s); [by apply Hc|done..]).
  pose proof (hashed_elem s' b ch id) as Hel. split_and!; [|done| |done].
  - split; [by rewrite Hsize|]. intros i c Hi. rewrite Htab in Hi. destruct (decide (i = b)) as [->|Hne].
    + rewrite list_lookup_insert_eq in Hi by done. injection Hi as <-.
      apply (chain_ok_hashed s' b ch id); [by apply Hok|unfold bucket; by rewrite Hsize| |done]. intros Hx. apply Hnt. by exists b, ch.
    + rewrite list_lookup_insert_ne in Hi by done. by apply Hok.
  - intros x. rewrite Htab, (in_tbl_insert _ b ch) by first [done|intros y Hy; apply Hel; [by apply Hok|by right]].
    rewrite Hel by (by apply Hok). split; [|tauto]. intros [[?|?]|?]; [by left| |by right]. right. by exists b, ch.
Qed.
Lemma cinv_chains s : cinv s → chains_ok s.
Proof. intros Hi. split; [apply (inv_size _ _ Hi)|apply (inv_chains _ _ Hi)]. Qed.

Lemma cinv_commit_new s id rest :
  cinv (set_new_chain (id :: rest) s) → cinv (set_new_chain rest (link id (cache_hash mix_tab id s))).
Proof.
  intros Hi. pose proof (cinv_chains _ Hi) as [Hk Hc]. destruct Hi as [_ Hnd Hp Hu Hn _].
  cbn [lru new_chain hash_table set_new_chain] in *.
  set (s0 := set_new_chain rest (link id s)). destruct (Hn id) as [Hnt HFR]; [by constructor|].
  destruct (cache_hash_chains s0 id) as ([Hk' Hc'] & Hsize & Hmem & Hs').
  { split; [done|]. intros i c Hi. apply (chain_ok_frame (set_new_chain (id :: rest) s)); [by apply Hc|done| |done].
    intros x _ Hx. by constructor. }
  { done. }
  { left. by constructor. }
  assert (set_new_chain rest (link id (cache_hash mix_tab id s)) = cache_hash mix_tab id s0) as ->.
  { change (cache_hash mix_tab id s0) with (set_chain (bucket s id) (hashed s0 id (nth (bucket s id) (hash_table s) [])) s0).
    by rewrite (hashed_ext s s0). }
  set (s' := cache_hash mix_tab id s0) in *.
  assert (Hlru : lru s' = id :: lru s) by done.
  assert (Hperm : lru s' ++ new_chain s' ≡ₚ lru s ++ id :: rest) by (rewrite Hlru; cbn; by rewrite Permutation_middle).
  split; [done| | | | |done].
  - by rewrite Hperm.
  - intros x Hx. rewrite Hperm in Hx. by apply Hp.
  - intros x Hx. rewrite Hmem. rewrite Hlru in Hx. apply elem_of_cons in Hx as [->|Hx]; [tauto|].
    change (has (eflags s x) FR = true ↔ x = id ∨ in_tbl (hash_table s) x). rewrite <- (Hu x Hx).
    split; [tauto|]. by intros [->|?].
  - intros x Hx. rewrite Hmem. apply NoDup_app in Hnd as (_ & _ & [Hid _]%NoDup_cons). destruct (Hn x) as [? ?]; [by constructor|].
    split; [|done]. intros [->|?]; done.
Qed.
Lemma cinv_commit s id rest : cinv (set_new_chain (id :: rest) s) → cinv (set_new_chain rest (commit mix_tab id s)).
Proof.
  intros Hi. unfold commit. destruct (is_outdated_cname_pointer s id); [by apply cinv_free_new|].
  eapply cinv_core; [|apply cinv_commit_new; exact Hi]. done.
Qed.

Lemma fold_new (f : nat → cache → cache) l s :
  (∀ id rest s, cinv (set_new_chain (id :: rest) s) → cinv (set_new_chain rest (f id s))) →
  cinv (set_new_chain l s) → cinv (set_new_chain [] (foldl (λ s id, f id s) s l)).
Proof. intros Hf. revert s. induction l as [|id l IH]; intros s Hi; cbn [foldl]; [done|]. by apply IH, Hf. Qed.
Lemma self_new s : set_new_chain (new_chain s) s = s.
Proof. by destruct s. Qed.

Lemma cache_start_insert_inv s : cinv s → cinv (cache_start_insert s).
Proof.
  intros Hi. unfold cache_start_insert. eapply cinv_core; [|apply (fold_new cache_free (new_chain s) s)]; [done| |by rewrite self_new].
  intros id rest s0. apply cinv_free_new.
Qed.
Lemma cache_end_insert_inv s : cinv s → cinv (cache_end_insert mix_tab s).
Proof.
  intros Hi. unfold cache_end_insert. destruct (insert_error s); [done|].
  apply (fold_new (commit mix_tab) (new_chain s) s); [|by rewrite self_new]. intros id rest s0. apply cinv_commit.
Qed.

(** ** Lookup by name *)
Lemma perm_promote (l : list nat) id : NoDup l → id ∈ l → id :: filter (.≠ id) l ≡ₚ l.
Proof. intros Hnd Hin. by rewrite Permutation_cons_append, perm_free. Qed.
(** a change of the order of the list only *)
Lemma cinv_reorder s s' tbl :
  cinv_at s tbl → heap s' = heap s → hash_table s' = hash_table s → new_chain s' = new_chain s → lru s' ≡ₚ lru s → cinv_at s' tbl.
Proof.
  intros [Hsz Hnd Hp Hu Hn Hc] Hh Ht Hnew Hl.
  assert (He : ∀ x, entry s' x = entry s x) by (intros x; unfold entry; by rewrite Hh).
  assert (Hf : ∀ x, eflags s' x = eflags s x) by (intros x; unfold eflags; by rewrite He).
  split.
  - unfold hash_size. by rewrite Ht.
  - by rewrite Hl, Hnew.
  - intros x Hx. rewrite Hl, Hnew in Hx. rewrite Hf. by apply Hp.
  - intros x Hx. rewrite Hl in Hx. rewrite Hf. by apply Hu.
  - intros x Hx. rewrite Hnew in Hx. rewrite Hf. by apply Hn.
  - intros i ch Hi. apply (chain_ok_frame s); [by apply Hc|unfold hash_size; by rewrite Ht|intros x _; by rewrite Hl|].
    intros x _. by rewrite Hf, He.
Qed.
Lemma promote_perm s tbl id : cinv_at s tbl → id ∈ lru s → lru (link id (unlink id s)) ≡ₚ lru s.
Proof. intros Hi Hid. apply perm_promote; [by eapply cinv_nodup_lru|done]. Qed.
Lemma cinv_promote s tbl id : cinv_at s tbl → id ∈ lru s → cinv_at (link id (unlink id s)) tbl.
Proof. intros Hi Hid. apply (cinv_reorder s); [done..|]. by eapply promote_perm. Qed.
Lemma promote_frame s tbl id : cinv_at s tbl → id ∈ lru s → frame s (link id (unlink id s)).
Proof. intros Hi Hid. split; [by eapply promote_perm|done..|]. by left. Qed.

Lemma rank_order fl1 fl2 : order_flags fl1 = order_flags fl2 → rank fl1 = rank fl2.
Proof.
  unfold order_flags, rank, has. intros Ho.
  assert (Hb : ∀ f, Z.land f (Z.lor F_REVERSE F_IMMORTAL) = f → Z.land fl1 f = Z.land fl2 f).
  { intros f Hf. rewrite <- Hf, (Z.land_comm f), !Z.land_assoc. by rewrite Ho. }
  by rewrite !(Hb F_REVERSE), !(Hb F_IMMORTAL).
Qed.
Lemma sorted_prefix {A} (R : A → A → Prop) (l1 : list A) x l2 : StronglySorted R (l1 ++ x :: l2) → Forall (λ y, R y x) l1 ∧ Forall (R x) l2.
Proof.
  induction l1 as [|y l1 IH]; cbn; intros [Hs Hf]%StronglySorted_inv; [done|].
  destruct (IH Hs) as [? ?]. apply Forall_app in Hf as [? [? ?]%Forall_cons]. split; [by constructor|done].
Qed.
(** Moving an entry before another of its rank. *)
Lemma chain_ok_move s i A m P c C :
  chain_ok s i (A ++ m :: P ++ c :: C) → rank (eflags s m) = rank (eflags s c) → chain_ok s i (A ++ c :: m :: P ++ C).
Proof.
  intros Hok Hr. destruct Hok as [C1 C2 C3 C4].
  assert (Hp : A ++ c :: m :: P ++ C ≡ₚ A ++ m :: P ++ c :: C).
  { apply Permutation_app_head. exact (Permutation_middle (m :: P) C c). }
  split; [by rewrite Hp|by rewrite Hp| |by rewrite Hp].
  destruct (sorted_prefix _ _ _ _ C3) as [HA Hm].
  assert (Hs : StronglySorted (before s) (A ++ m :: P ++ C)).
  { change (A ++ m :: P ++ C) with (A ++ (m :: P) ++ C). rewrite app_assoc. apply (sorted_remove _ (A ++ m :: P) c C).
    by rewrite <- app_assoc. }
  apply (placed_sorted s c (A ++ m :: P ++ C)); [|done]. exists A, (m :: P ++ C). split_and!; [done|done| |].
  - eapply Forall_impl; [exact HA|]. intros x Hx. unfold before in *. lia.
  - destruct (sorted_prefix _ _ _ _ Hs) as [_ Hm']. constructor; [unfold before; lia|].
    eapply Forall_impl; [exact Hm'|]. intros x Hx. unfold before in *. lia.
Qed.
Lemma cinv_move s tbl b A m P c C :
  cinv_at s (<[b := A ++ m :: P ++ c :: C]> tbl) → (b < length tbl)%nat → rank (eflags s m) = rank (eflags s c) →
  cinv_at s (<[b := A ++ c :: m :: P ++ C]> tbl).
Proof.
  intros [Hsz Hnd Hp Hu Hn Hc] Hb Hr.
  assert (Hmem : ∀ x, in_tbl (<[b := A ++ c :: m :: P ++ C]> tbl) x ↔ in_tbl (<[b := A ++ m :: P ++ c :: C]> tbl) x).
  { assert (Hiff : ∀ x, x ∈ A ++ c :: m :: P ++ C ↔ x ∈ A ++ m :: P ++ c :: C).
    { intros x. rewrite !elem_of_app, !elem_of_cons, !elem_of_app, !elem_of_cons. tauto. }
    intros x. split; intros (i & ch & Hi & Hx); (destruct (decide (i = b)) as [->|Hne];
      [rewrite list_lookup_insert_eq in Hi by done; injection Hi as <-; eexists b, _; rewrite list_lookup_insert_eq by done;
        split; [done|by apply Hiff]
      |rewrite list_lookup_insert_ne in Hi by done; exists i, ch; by rewrite list_lookup_insert_ne]). }
  split; [by rewrite length_insert in *|done|done| | |].
  - intros x Hx. by rewrite Hmem, Hu.
  - intros x Hx. rewrite Hmem. by apply Hn.
  - intros i ch Hi. destruct (decide (i = b)) as [->|Hne].
    + rewrite list_lookup_insert_eq in Hi by done. injection Hi as <-. apply chain_ok_move; [|done].
      apply Hc. by rewrite list_lookup_insert_eq.
    + rewrite list_lookup_insert_ne in Hi by done. apply Hc. by rewrite list_lookup_insert_ne.
Qed.

Lemma drop_entry_ne id s x : x ≠ id → entry (drop_entry id s) x = entry s x.
Proof.
  intros Hx. unfold drop_entry. destruct (negb _); [|done].
  destruct (cache_free_facts id (unlink id s)) as (_ & _ & _ & _ & He & _). by rewrite He.
Qed.
Lemma drop_table id s : hash_table (drop_entry id s) = hash_table s.
Proof. unfold drop_entry. destruct (negb _); [|done]. by destruct (cache_free_facts id (unlink id s)) as (_ & _ & -> & _). Qed.
Lemma filter_ne_app (l1 l2 : list nat) x : x ∉ l1 → filter (.≠ x) (l1 ++ l2) = l1 ++ filter (.≠ x) l2.
Proof. intros Hx. by rewrite filter_app, filter_ne_notin. Qed.
Lemma drop_entry_lru id s prom rest : id ∉ prom → lru s = prom ++ rest → ∃ rest', lru (drop_entry id s) = prom ++ rest'.
Proof.
  intros Hid Hl. unfold drop_entry. destruct (negb _); [|by exists rest].
  destruct (cache_free_facts id (unlink id s)) as (-> & _). cbn. rewrite Hl, filter_ne_app, <- app_assoc by done. by eexists.
Qed.

(** *** What a search knows of the entries it has kept *)
Section Scanned.
(** the test of an entry, which does not look at its next field *)
Context (mt : crec → bool) (now : Z).
Abbreviation yes s x := (mt (entry s x) = true).

Record scanned (s : cache) (proc hosts : list nat) : Prop := {
  sc_live : ∀ x, x ∈ proc → is_expired now (entry s x) = false;
  sc_nodup : NoDup hosts;
  sc_hosts : ∀ x, x ∈ hosts ↔ x ∈ proc ∧ yes s x ∧ immune (eflags s x) = true;
  sc_promoted : ∃ prom rest, lru s = prom ++ rest ∧ ∀ x, x ∈ prom ↔ x ∈ proc ∧ yes s x ∧ immune (eflags s x) = false
}.
Lemma scanned_nil s : scanned s [] [].
Proof.
  assert (Hno : ∀ x P, x ∈ ([] : list nat) ↔ x ∈ ([] : list nat) ∧ P) by (intros x P; rewrite elem_of_nil; tauto).
  split; [intros x Hx; by apply not_elem_of_nil in Hx|constructor|intros x; apply Hno|].
  exists [], (lru s). split; [done|]. intros x. apply Hno.
Qed.
(** The same entries in another order. *)
Lemma scanned_same s proc proc' hosts : (∀ x, x ∈ proc' ↔ x ∈ proc) → scanned s proc hosts → scanned s proc' hosts.
Proof.
  intros Heq [S2 Sn S3 (prom & rest & Hl & S4)]. split; [|done| |].
  - intros x Hx%Heq. by apply S2.
  - intros x. rewrite Heq. apply S3.
  - exists prom, rest. split; [done|]. intros x. rewrite Heq. apply S4.
Qed.
(** The states agree on what is kept. *)
Lemma scanned_eq s s' proc hosts :
  (∀ x, x ∈ proc → entry s' x = entry s x) →
  (∀ prom rest, lru s = prom ++ rest → (∀ x, x ∈ prom → x ∈ proc) → ∃ rest', lru s' = prom ++ rest') →
  scanned s proc hosts → scanned s' proc hosts.
Proof.
  intros He Hlru [S2 Sn S3 (prom & rest & Hl & S4)].
  assert (Hf : ∀ x, x ∈ proc → eflags s' x = eflags s x) by (intros x Hx; unfold eflags; by rewrite He).
  split; [|done| |].
  - intros x Hx. rewrite He by done. by apply S2.
  - intros x. rewrite S3. split; intros (Hx & ? & ?); rewrite ?He, ?Hf in * by done; done.
  - destruct (Hlru prom rest Hl) as [rest' Hl']; [intros x Hx; by apply S4|]. exists prom, rest'. split; [done|].
    intros x. rewrite S4. split; intros (Hx & ? & ?); rewrite ?He, ?Hf in * by done; done.
Qed.
Lemma scanned_drop s id proc hosts : id ∉ proc → scanned s proc hosts → scanned (drop_entry id s) proc hosts.
Proof.
  intros Hid. apply scanned_eq.
  - intros x Hx. apply drop_entry_ne. by intros ->.
  - intros prom rest Hl Hsub. apply (drop_entry_lru id s prom rest); [|done]. intros Hx. by apply Hid, Hsub.
Qed.
Lemma scanned_frame_eq s s' proc hosts : lru s' = lru s → (∀ x, entry s' x = entry s x) → scanned s proc hosts → scanned s' proc hosts.
Proof. intros Hl He. apply scanned_eq; [by intros x _|]. intros prom rest Hp _. exists rest. by rewrite Hl. Qed.
Lemma scanned_keep s proc hosts id :
  is_expired now (entry s id) = false → mt (entry s id) = false → scanned s proc hosts → scanned s (id :: proc) hosts.
Proof.
  intros Hlive Hno [S2 Sn S3 (prom & rest & Hl & S4)]. split; [|done| |exists prom, rest; split; [done|]].
  - intros x [->|?]%elem_of_cons; [done|by apply S2].
  - intros x. rewrite S3, elem_of_cons. split; [tauto|]. intros ([->|?] & ? & ?); [congruence|done].
  - intros x. rewrite S4, elem_of_cons. split; [tauto|]. intros ([->|?] & ? & ?); [congruence|done].
Qed.
Lemma scanned_host s proc hosts id :
  id ∉ proc → is_expired now (entry s id) = false → yes s id → immune (eflags s id) = true →
  scanned s proc hosts → scanned s (id :: proc) (hosts ++ [id]).
Proof.
  intros Hid Hlive Hyes Himm [S2 Sn S3 (prom & rest & Hl & S4)]. split; [| | |exists prom, rest; split; [done|]].
  - intros x [->|?]%elem_of_cons; [done|by apply S2].
  - apply NoDup_app. split; [done|]. split; [|by apply NoDup_singleton]. intros x [Hx _]%S3 ->%list_elem_of_singleton. done.
  - intros x. rewrite elem_of_app, list_elem_of_singleton, S3, elem_of_cons. split; [|tauto].
    intros [?| ->]; tauto.
  - intros x. rewrite S4, elem_of_cons. split; [tauto|]. intros ([->|?] & ? & ?); [congruence|done].
Qed.
Lemma scanned_promote s proc hosts id :
  id ∉ proc → is_expired now (entry s id) = false → yes s id → immune (eflags s id) = false →
  scanned s proc hosts → scanned (link id (unlink id s)) (id :: proc) hosts.
Proof.
  intros Hid Hlive Hyes Himm [S2 Sn S3 (prom & rest & Hl & S4)].
  assert (He : ∀ x, entry (link id (unlink id s)) x = entry s x ∧ eflags (link id (unlink id s)) x = eflags s x) by done.
  split; [|done| |].
  - intros x [->|?]%elem_of_cons; [done|by apply S2].
  - intros x. destruct (He x) as [-> ->]. rewrite S3, elem_of_cons. split; [tauto|].
    intros ([->|?] & ? & ?); [congruence|done].
  - exists (id :: prom), (filter (.≠ id) rest). split; [cbn; rewrite Hl, filter_ne_app; [done|intros [? _]%S4; done]|].
    intros x. destruct (He x) as [-> ->]. rewrite !elem_of_cons, S4. split; [intros [->|?]; tauto|tauto].
Qed.
(** An entry that is kept: answers of hosts files are chained, others promoted. *)
Lemma scanned_answer s tbl b ch proc hosts id :
  cinv_at s tbl → tbl !! b = Some ch → id ∈ ch → id ∉ proc → is_expired now (entry s id) = false → yes s id → scanned s proc hosts →
  let '(hosts1, s1) := if immune (eflags s id) then (hosts ++ [id], s) else (hosts, link id (unlink id s)) in
  cinv_at s1 tbl ∧ scanned s1 (id :: proc) hosts1 ∧ frame s s1 ∧ ∀ x, entry s1 x = entry s x.
Proof.
  intros Hi Hb Hin Hnew Hlive Hyes Hs. destruct (immune (eflags s id)) eqn:Himm.
  - split_and!; [done|by apply scanned_host|apply frame_refl|done].
  - destruct (cinv_chain_owner s tbl b ch id Hi Hb Hin) as [Hid|?]; [|congruence].
    split_and!; [by apply cinv_promote|by apply scanned_promote|by eapply promote_frame|done].
Qed.
End Scanned.

(** *** Names and their buckets *)
Definition strings (s : cache) : Prop := ∀ x, Forall (λ c, c ≠ 0) (cache_get_name (entry s x)).
Lemma hash_fold a b val : map fold a = map fold b → hash_val mix_tab a val = hash_val mix_tab b val.
Proof.
  revert b val. induction a as [|x a IH]; intros [|y b] val; try done. cbn [map hash_val]. intros [= -> Hab]. by apply IH.
Qed.
Lemma bucket_equal size a b :
  Forall (λ c, c ≠ 0) a → Forall (λ c, c ≠ 0) b → hostname_isequal a b = true → hash_bucket mix_tab size a = hash_bucket mix_tab size b.
Proof.
  intros Ha Hb. rewrite hostname_isequal_fold by done. intros He%bool_decide_eq_true. unfold hash_bucket. by rewrite (hash_fold a b).
Qed.

(** chain_up writes the next fields only. *)
Definition touched (s s' : cache) : Prop :=
  lru s' = lru s ∧ new_chain s' = new_chain s ∧ hash_table s' = hash_table s ∧ insert_error s' = insert_error s ∧
  ∀ x, ∃ n, entry s' x = with_hnext n (entry s x).
Lemma chain_up_spec hosts s :
  let '(ans, s') := chain_up hosts s in ans = front hosts (hd_error (lru s)) ∧ touched s s'.
Proof.
  induction hosts as [|h hosts IH]; cbn [chain_up].
  { split; [done|]. split_and!; [done..|]. intros x. exists (hnext (entry s x)). by destruct (entry s x). }
  destruct (chain_up hosts s) as [n s1]. destruct IH as (_ & H1 & H2 & H3 & H4 & H5). split; [done|].
  split_and!; [done..|]. intros x. rewrite entry_set_entry. case_decide as Hx; [|apply H5]. subst.
  destruct (H5 x) as [k ->]. exists n. by destruct (entry s x).
Qed.
Lemma touched_flags s s' x : touched s s' → eflags s' x = eflags s x ∧ cache_get_name (entry s' x) = cache_get_name (entry s x) ∧
  ttd (entry s' x) = ttd (entry s x) ∧ uid (entry s' x) = uid (entry s x) ∧ addr (entry s' x) = addr (entry s x).
Proof. intros (_ & _ & _ & _ & Ht). unfold eflags. destruct (Ht x) as [n ->]. done. Qed.
Lemma cinv_ext s s' :
  lru s' = lru s → new_chain s' = new_chain s → hash_table s' = hash_table s →
  (∀ x, eflags s' x = eflags s x ∧ cache_get_name (entry s' x) = cache_get_name (entry s x)) → cinv s → cinv s'.
Proof.
  intros T1 T2 T3 Hx [Hsz Hnd Hp Hu Hn Hc].
  assert (Hf : ∀ x, eflags s' x = eflags s x) by (intros x; by apply Hx).
  unfold cinv. split; rewrite ?T1, ?T2, ?T3.
  - unfold hash_size. by rewrite T3.
  - done.
  - intros x Hin. rewrite Hf. by apply Hp.
  - intros x Hin. rewrite Hf. by apply Hu.
  - intros x Hin. rewrite Hf. by apply Hn.
  - intros i ch Hi. apply (chain_ok_frame s); [by apply Hc|unfold hash_size; by rewrite T3|by rewrite T1|]. intros x _. apply Hx.
Qed.
Lemma touched_cinv s s' : touched s s' → cinv s → cinv s'.
Proof.
  intros Ht. pose proof Ht as (T1 & T2 & T3 & _ & _). apply cinv_ext; [done..|].
  intros x. by destruct (touched_flags s s' x Ht) as (? & ? & _).
Qed.
Lemma touched_expired now s s' x : touched s s' → is_expired now (entry s' x) = is_expired now (entry s x).
Proof.
  intros Ht. destruct (touched_flags s s' x Ht) as (Hf & _ & Hd & _). unfold is_expired.
  change (flags (entry ?a x)) with (eflags a x). by rewrite Hf, Hd.
Qed.


(** *** The answers of a search, one after the other *)
(** the entries that pass the test from [o] on, along the next fields *)
Fixpoint trail (mt : crec → bool) (s : cache) (o : option nat) (l : list nat) : Prop :=
  match l with
  | [] => match o with Some y => mt (entry s y) = false | None => True end
  | x :: l' => o = Some x ∧ mt (entry s x) = true ∧ trail mt s (next s x) l'
  end.
Record answers_are (mt : crec → bool) (now : Z) (s : cache) (o : option nat) (l : list nat) : Prop := {
  an_nodup : NoDup l;
  an_all : ∀ x, x ∈ l ↔ in_tbl (hash_table s) x ∧ mt (entry s x) = true;
  an_live : ∀ x, x ∈ l → is_expired now (entry s x) = false;
  an_trail : trail mt s o l
}.
Lemma successor_middle l1 x l2 : NoDup (l1 ++ x :: l2) → successor x (l1 ++ x :: l2) = hd_error l2.
Proof.
  induction l1 as [|y l1 IH]; cbn [app successor]; [by rewrite Nat.eqb_refl|]. intros [Hy Hnd]%NoDup_cons.
  destruct (Nat.eqb_spec y x) as [->|?]; [|by apply IH]. exfalso. apply Hy, elem_of_app. right. by constructor.
Qed.
Lemma front_hd l n : front l n = match hd_error l with Some x => Some x | None => n end.
Proof. by destruct l. Qed.
(** along the list *)
Lemma trail_lru mt s pre prom rest :
  NoDup (lru s) → lru s = pre ++ prom ++ rest → (∀ x, x ∈ prom → mt (entry s x) = true ∧ immune (eflags s x) = false) →
  (∀ y, y ∈ rest → mt (entry s y) = false) → trail mt s (hd_error (prom ++ rest)) prom.
Proof.
  intros Hnd. revert pre. induction prom as [|x prom IH]; intros pre Hl Hp Hr; cbn [trail app].
  { destruct rest as [|y rest]; [done|]. apply Hr. by constructor. }
  destruct (Hp x) as [Hm Him]; [by constructor|]. split_and!; [done|done|].
  unfold next. rewrite Him, Hl. cbn [app]. rewrite successor_middle by (by rewrite Hl in Hnd).
  apply (IH (pre ++ [x])); [by rewrite <- app_assoc|intros y Hy; apply Hp; by constructor|done].
Qed.
(** along the hosts *)
Fixpoint hosts_linked (s : cache) (hosts : list nat) (n : option nat) : Prop :=
  match hosts with [] => True | h :: hosts' => hnext (entry s h) = front hosts' n ∧ hosts_linked s hosts' n end.
Lemma hosts_linked_ne s h c hosts n : h ∉ hosts → hosts_linked s hosts n → hosts_linked (set_entry h c s) hosts n.
Proof.
  induction hosts as [|x hosts IH]; cbn [hosts_linked]; [done|]. intros [Hne Hni]%not_elem_of_cons [Hx Hl].
  rewrite entry_set_entry, decide_False by done. split; [done|by apply IH].
Qed.
Lemma chain_up_linked hosts s : NoDup hosts → hosts_linked (chain_up hosts s).2 hosts (hd_error (lru s)).
Proof.
  induction hosts as [|h hosts IH]; intros Hnd; cbn [chain_up]; [done|]. apply NoDup_cons in Hnd as [Hh Hnd].
  specialize (IH Hnd). pose proof (chain_up_spec hosts s) as Hup. destruct (chain_up hosts s) as [n s1]. destruct Hup as [-> _]. cbn [snd] in *.
  cbn [hosts_linked]. rewrite entry_set_entry, decide_True by done. split; [done|by apply hosts_linked_ne].
Qed.
Lemma trail_hosts mt s hosts n l :
  hosts_linked s hosts n → (∀ x, x ∈ hosts → mt (entry s x) = true ∧ immune (eflags s x) = true) →
  trail mt s n l → trail mt s (front hosts n) (hosts ++ l).
Proof.
  intros Hl Hh Ht. induction hosts as [|h hosts IH]; [done|]. destruct Hl as [Hn Hl]. destruct (Hh h) as [Hm Him]; [by constructor|].
  cbn [front app trail]. split_and!; [done|done|]. unfold next. rewrite Him, Hn. apply IH; [done|]. intros x Hx. apply Hh. by constructor.
Qed.

(** The answers of a search from what it has kept. *)
Lemma answer_spec (mt : crec → bool) now s kept hosts :
  (∀ n c, mt (with_hnext n c) = mt c) → (∀ c, mt c = true → has (flags c) FR = true) →
  cinv s → scanned mt now s kept hosts →
  (∀ x, x ∈ kept → in_tbl (hash_table s) x) → (∀ x, in_tbl (hash_table s) x → mt (entry s x) = true → x ∈ kept) →
  let '(ans, s') := chain_up hosts s in cinv s' ∧ touched s s' ∧ ∃ l, answers_are mt now s' ans l.
Proof.
  intros Hnext HFR Hi [S2 Sn S3 (prom & rest & Hl & S4)] Hin Hkept.
  pose proof (chain_up_spec hosts s) as Hup. pose proof (chain_up_linked hosts s Sn) as Hlk.
  destruct (chain_up hosts s) as [ans s']. destruct Hup as [-> Ht]. cbn [snd] in Hlk.
  pose proof (touched_cinv _ _ Ht Hi) as H3. pose proof Ht as (T1 & _ & T3 & _ & T5). split; [done|]. split; [done|].
  assert (Hm : ∀ x, mt (entry s' x) = mt (entry s x)) by (intros x; destruct (T5 x) as [n ->]; apply Hnext).
  assert (Hf : ∀ x, eflags s' x = eflags s x) by (intros x; by apply touched_flags).
  pose proof (cinv_nodup_lru s _ Hi) as Hnd. pose proof Hnd as Hndl. rewrite Hl in Hndl. apply NoDup_app in Hndl as (Hndp & Hdis & _).
  assert (Hall : ∀ x, x ∈ hosts ++ prom ↔ in_tbl (hash_table s) x ∧ mt (entry s x) = true).
  { intros x. rewrite elem_of_app, S3, S4. split; [intros [(? & ? & _)|(? & ? & _)]; (split; [by apply Hin|done])|].
    intros [Ht' Hx]. specialize (Hkept x Ht' Hx). destruct (immune (eflags s x)) eqn:He; [by left|by right]. }
  exists (hosts ++ prom). split.
  - apply NoDup_app. split_and!; [done| |done]. intros x (_ & _ & ?)%S3 (_ & _ & ?)%S4. congruence.
  - intros x. rewrite T3, Hm. apply Hall.
  - intros x [Hx Hy]%Hall. rewrite (touched_expired now s s' x Ht). by apply S2, Hkept.
  - apply (trail_hosts mt s' hosts); [done| |].
    { intros x (_ & ? & ?)%S3. by rewrite Hm, Hf. }
    rewrite Hl. apply (trail_lru mt s' []); [by rewrite T1|by rewrite T1| |].
    + intros x (_ & ? & ?)%S4. by rewrite Hm, Hf.
    + intros y Hy. rewrite Hm. destruct (mt (entry s y)) eqn:Hmy; [|done]. exfalso.
      assert (Hyl : y ∈ lru s) by (rewrite Hl; apply elem_of_app; by right).
      assert (Ht' : in_tbl (hash_table s) y) by (apply (inv_used _ _ Hi); [done|by apply HFR]).
      apply (Hdis y); [|done]. apply S4. split; [by apply Hkept|]. split; [done|]. apply (inv_plain _ _ Hi), elem_of_app. by left.
Qed.
(** The last test of a search drops the end of the trail. *)
Lemma answers_test mt now s ans l :
  answers_are mt now s ans l →
  answers_are mt now s (match ans with Some id => if mt (entry s id) then Some id else None | None => None end) l.
Proof.
  intros [A1 A2 A3 A4]. split; [done..|]. destruct l as [|x l]; cbn [trail] in *.
  - destruct ans as [y|]; [|done]. by rewrite A4.
  - destruct A4 as (-> & Hx & A4). by rewrite Hx.
Qed.

Section FindByName.
Context (name : text) (now prot : Z).
Definition name_test (c : crec) : bool :=
  has (flags c) F_FORWARD && has (flags c) prot && hostname_isequal (cache_get_name c) name.
Abbreviation scanned_ := (scanned name_test now).

Lemma name_test_used c : name_test c = true → has (flags c) FR = true.
Proof.
  unfold name_test. intros [[HF _]%andb_true_iff _]%andb_true_iff. apply has_true. apply has_true in HF.
  unfold FR. rewrite Z.land_lor_distr_r. intros Hz%Z.lor_eq_0_iff. by destruct Hz.
Qed.
(** where the entries for the round robin go *)
Definition ins_ok (s : cache) (moved post : list nat) (ins : option Z) : Prop :=
  match ins with
  | None => moved = [] ∧ post = []
  | Some f => ∃ m P, post = m :: P ∧ order_flags (eflags s m) = f
  end.
Record looping (s0 s : cache) (tbl : list (list nat)) (b : nat) (chain pre moved post : list nat) (ins : option Z)
    (hosts : list nat) : Prop := {
  lp_cinv : cinv_at s (<[b := pre ++ moved ++ post ++ chain]> tbl);
  lp_scanned : scanned_ s (pre ++ moved ++ post) hosts;
  lp_frame : frame s0 s;
  lp_ins : ins_ok s moved post ins
}.

Lemma looping_lookup s0 s tbl b id chain pre moved post ins hosts :
  (b < length tbl)%nat → looping s0 s tbl b (id :: chain) pre moved post ins hosts →
  <[b := pre ++ moved ++ post ++ id :: chain]> tbl !! b = Some ((pre ++ moved ++ post) ++ id :: chain) ∧
  id ∉ pre ++ moved ++ post ∧ (id ∈ lru s ∨ immune (eflags s id) = true).
Proof.
  intros Hb [L1 _ _ _].
  assert (Hl : <[b := pre ++ moved ++ post ++ id :: chain]> tbl !! b = Some ((pre ++ moved ++ post) ++ id :: chain)).
  { rewrite list_lookup_insert_eq by done. by rewrite <- !app_assoc. }
  split; [done|]. split.
  - pose proof (chain_nodup _ _ _ (inv_chains _ _ L1 _ _ Hl)) as (_ & Hd & _)%NoDup_app. intros Hx. apply (Hd id Hx). by constructor.
  - eapply cinv_chain_owner; [exact L1|exact Hl|]. apply elem_of_app. right. by constructor.
Qed.

(** The entry joins the chain at one of the three places. *)
Lemma looping_place s0 s1 tbl b id chain pre moved post ins hosts1 :
  (b < length tbl)%nat →
  cinv_at s1 (<[b := pre ++ moved ++ post ++ id :: chain]> tbl) →
  scanned_ s1 (id :: (pre ++ moved ++ post)) hosts1 → frame s0 s1 → ins_ok s1 moved post ins →
  (ins = None → looping s0 s1 tbl b chain (pre ++ [id]) moved post ins hosts1 ∧
                looping s0 s1 tbl b chain pre moved (post ++ [id]) (Some (order_flags (eflags s1 id))) hosts1) ∧
  (∀ f, ins = Some f → looping s0 s1 tbl b chain pre moved (post ++ [id]) ins hosts1) ∧
  (∀ f, ins = Some f → order_flags (eflags s1 id) = f → looping s0 s1 tbl b chain pre (moved ++ [id]) post ins hosts1).
Proof.
  intros Hb Hc Hs Hfr Hins.
  assert (Hpost : cinv_at s1 (<[b := pre ++ moved ++ (post ++ [id]) ++ chain]> tbl)) by (by rewrite <- app_assoc).
  assert (Hperm : ∀ proc, proc ≡ₚ id :: pre ++ moved ++ post → scanned_ s1 proc hosts1).
  { intros proc Hp. eapply scanned_same; [|exact Hs]. intros x. by rewrite Hp. }
  assert (Hsp : scanned_ s1 (pre ++ moved ++ post ++ [id]) hosts1).
  { apply Hperm. by rewrite !(app_assoc), <- Permutation_cons_append. }
  split_and!.
  - intros ->. destruct Hins as [-> ->]. cbn [app] in *. split; (split; [|apply Hperm; cbn [app]; rewrite ?app_nil_r; symmetry; apply Permutation_cons_append|done|]).
    + by rewrite <- app_assoc.
    + done.
    + done.
    + by exists id, [].
  - intros f ->. split; [done|done|done|]. destruct Hins as (m & P & -> & Hf). by exists m, (P ++ [id]).
  - intros f -> Hf. destruct Hins as (m & P & -> & Hm). split.
    + rewrite <- !app_assoc, !(app_assoc pre moved) in *. cbn [app] in *.
      by apply cinv_move; [|done|apply rank_order; congruence].
    + apply Hperm. rewrite <- !app_assoc. cbn [app]. rewrite (app_assoc pre moved (m :: P)), (app_assoc pre moved).
      by rewrite <- Permutation_middle.
    + done.
    + by exists m, P.
Qed.

Lemma find_loop_inv s0 tbl b chain : (b < length tbl)%nat → ∀ s pre moved post ins hosts,
  looping s0 s tbl b chain pre moved post ins hosts →
  let '(kept, hosts', s') := find_loop name now prot chain pre moved post ins hosts s in
  cinv_at s' (<[b := kept]> tbl) ∧ scanned_ s' kept hosts' ∧ frame s0 s'.
Proof.
  intros Hb. induction chain as [|id chain IH]; intros s pre moved post ins hosts L; cbn [find_loop].
  { destruct L as [L1 L2 L4 _]. by rewrite app_nil_r in L1. }
  destruct (looping_lookup s0 s tbl b id chain pre moved post ins hosts Hb L) as (Hl & Hni & Hown).
  destruct L as [L1 L2 L4 L3].
  destruct (is_expired now (entry s id)) eqn:Hexp; cbn [negb andb]; [|destruct (is_outdated_cname_pointer s id); cbn [negb]].
  1, 2: apply IH; split; [|by apply scanned_drop|eapply frame_trans; [exact L4|by eapply cinv_drop_frame]|].
  1, 3: pose proof (cinv_drop s _ b _ id chain L1 Hl) as H; rewrite list_insert_insert_eq, <- !app_assoc in H; exact H.
  1, 2: destruct ins as [f|]; [|done]; destruct L3 as (m & P & -> & Hf); exists m, P; split; [done|];
    unfold eflags; rewrite drop_entry_ne; [done|]; intros ->; apply Hni; rewrite !elem_of_app; right; right; by constructor.
  destruct (name_matches name prot s id) eqn:Hm.
  - assert (Hid : id ∈ (pre ++ moved ++ post) ++ id :: chain) by (apply elem_of_app; right; by constructor).
    pose proof (scanned_answer name_test now s _ b _ _ hosts id L1 Hl Hid Hni Hexp Hm L2) as Hstep.
    destruct (if immune (eflags s id) then _ else _) as [hosts1 s1]. destruct Hstep as (Hc1 & Hs1 & Hf1 & He1).
    assert (Hi1 : ins_ok s1 moved post ins).
    { destruct ins as [f|]; [|done]. destruct L3 as (m & P & ? & ?). exists m, P. unfold eflags in *. by rewrite He1. }
    pose proof (frame_trans _ _ _ L4 Hf1) as Hfr.
    destruct (looping_place s0 s1 tbl b id chain pre moved post ins hosts1 Hb Hc1 Hs1 Hfr Hi1) as (P1 & P2 & P3).
    destruct ins as [f|]; [destruct (Z.eqb_spec (order_flags (eflags s1 id)) f)|]; apply IH; [by eapply P3|by eapply P2|by apply P1].
  - destruct (looping_place s0 s tbl b id chain pre moved post ins hosts Hb L1 (scanned_keep _ _ _ _ _ _ Hexp Hm L2) L4 L3) as (P1 & P2 & _).
    destruct ins as [f|]; apply IH; [by eapply P2|by apply P1].
Qed.

Lemma find_loop_table chain pre moved post ins hosts s :
  hash_table (find_loop name now prot chain pre moved post ins hosts s).2 = hash_table s.
Proof.
  revert pre moved post ins hosts s. induction chain as [|id chain IH]; intros pre moved post ins hosts s; cbn [find_loop]; [done|].
  destruct (negb _ && negb _); [|by rewrite IH, drop_table]. destruct (name_matches name prot s id).
  - destruct (immune (eflags s id)); destruct ins as [f|]; try destruct (_ =? f); by rewrite IH.
  - destruct ins; by rewrite IH.
Qed.

Lemma find_loop_sub chain pre moved post ins hosts s x :
  x ∈ (find_loop name now prot chain pre moved post ins hosts s).1.1 → x ∈ pre ++ moved ++ post ++ chain.
Proof.
  revert pre moved post ins hosts s. induction chain as [|id chain IH]; intros pre moved post ins hosts s; cbn [find_loop].
  { by rewrite app_nil_r. }
  destruct (negb _ && negb _); [destruct (name_matches name prot s id);
    [destruct (immune (eflags s id)); destruct ins as [f|]; try destruct (_ =? f)|destruct ins]|];
    intros Hx%IH; rewrite !elem_of_app, !elem_of_cons, ?elem_of_nil in *; tauto.
Qed.

(** The search as a whole: the state it leaves, and its answer before the last test. *)
Lemma find_search s :
  cinv s → strings s → Forall (λ c, c ≠ 0) name →
  let '(r, s') := cache_find_by_name mix_tab name now prot None s in
  cinv s' ∧ (∃ s1, wframe s s1 ∧ touched s1 s') ∧
  ∃ l, answers_are name_test now s' r l.
Proof.
  intros Hi Hstr Hname. unfold cache_find_by_name.
  set (b := hash_bucket mix_tab (hash_size s) name).
  assert (Hb : (b < hash_size s)%nat) by (apply bucket_lt, (inv_size _ _ Hi)).
  pose proof (find_loop_inv s (hash_table s) b (nth b (hash_table s) []) Hb s [] [] [] None []) as H.
  pose proof (find_loop_sub (nth b (hash_table s) []) [] [] [] None [] s) as Hsub.
  destruct (find_loop name now prot _ [] [] [] None [] s) as [[kept hosts] s1]. cbn [app fst] in *.
  destruct H as (H1 & S2 & S1).
  { split; [|apply scanned_nil|apply frame_refl|done]. cbn. rewrite list_insert_id; [done|by apply nth_chain]. }
  pose proof (cinv_put_chain s s1 b kept S1 H1) as H2. set (s2 := set_chain b kept s1) in *.
  assert (Htab : hash_table s2 = <[b := kept]> (hash_table s)) by (unfold s2; cbn; by rewrite (fr_table _ _ S1)).
  assert (Hat : hash_table s2 !! b = Some kept) by (rewrite Htab; by apply list_lookup_insert_eq).
  assert (Hnames : ∀ x, cache_get_name (entry s2 x) = cache_get_name (entry s x)) by (intros x; apply (fr_name _ _ S1)).
  pose proof (answer_spec name_test now s2 kept hosts) as Hans. destruct (chain_up hosts s2) as [ans s'].
  destruct Hans as (H3 & Ht & Hr); [done| |done|by apply (scanned_frame_eq _ _ s1)|intros x Hx; by exists b, kept| |].
  { apply name_test_used. }
  { intros id (i & ch & Hch & Hid) Hm. pose proof (chain_bucket _ _ _ (inv_chains _ _ H2 _ _ Hch)) as Hf.
    rewrite Forall_forall in Hf. specialize (Hf id Hid). unfold bucket in Hf.
    assert (Hsz : hash_size s2 = hash_size s) by (unfold hash_size; by rewrite Htab, length_insert).
    unfold name_test in Hm. apply andb_true_iff in Hm as [_ Hm].
    rewrite (bucket_equal _ _ name), Hsz in Hf; [|by rewrite Hnames|done|done].
    assert (i = b) as -> by done. rewrite Hat in Hch. by injection Hch as <-. }
  split; [done|]. split; [|destruct Hr as [l Hr]; exists l; exact (answers_test _ _ _ _ _ Hr)].
  exists s2. split; [|done]. by eapply frame_set_chain, Hsub; [|apply nth_chain].
Qed.
End FindByName.

(** ** Lookup by address *)
Section FindByAddr.
Context (a : list Z) (now prot : Z).
Definition addr_test (c : crec) : bool :=
  has (flags c) F_REVERSE && (has (flags c) prot && same_addr (addr_len prot) (addr c) a).
Abbreviation scanned_ := (scanned addr_test now).
Abbreviation reverse_ s x := (has (eflags s x) F_REVERSE = true).

(** The rest of a chain after an entry without F_REVERSE has none with it. *)
Lemma no_more_reverse s tbl b pre id rest :
  cinv_at s tbl → tbl !! b = Some (pre ++ id :: rest) → has (eflags s id) F_REVERSE = false →
  ∀ x, x ∈ id :: rest → has (eflags s x) F_REVERSE = false.
Proof.
  intros Hi Hb Hid x [->|Hx]%elem_of_cons; [done|].
  destruct (sorted_prefix _ _ _ _ (chain_order _ _ _ (inv_chains _ _ Hi _ _ Hb))) as [_ Hf].
  rewrite Forall_forall in Hf. specialize (Hf x Hx). unfold before, rank in Hf. rewrite Hid in Hf.
  destruct (has (eflags s x) F_REVERSE); [|done]. destruct (has (eflags s id) F_IMMORTAL); lia.
Qed.

Lemma find_reverse_inv b chain : ∀ pre s tbl proc hosts,
  cinv_at s tbl → tbl !! b = Some (pre ++ chain) → scanned_ s proc hosts → (∀ x, x ∈ chain → x ∉ proc) →
  let '(kept, hosts', s') := find_reverse a now prot chain hosts s in
  cinv_at s' (<[b := pre ++ kept]> tbl) ∧ frame s s' ∧
  ∃ new, scanned_ s' (new ++ proc) hosts' ∧ (∀ x, x ∈ new → x ∈ kept) ∧ (∀ x, x ∈ kept → reverse_ s' x → x ∈ new).
Proof.
  induction chain as [|id chain IH]; intros pre s tbl proc hosts Hi Hb Hs Hnot; cbn [find_reverse].
  { split_and!; [by apply cinv_same_chain|apply frame_refl|]. exists []. split_and!; [done|done|].
    intros x Hx. by apply not_elem_of_nil in Hx. }
  assert (Hlt : (b < length tbl)%nat) by (by eapply lookup_lt_Some).
  destruct (has (eflags s id) F_REVERSE) eqn:Hrev; cbn [negb].
  2: { split_and!; [by apply cinv_same_chain|apply frame_refl|]. exists []. split_and!; [done| |].
    - intros x Hx. by apply not_elem_of_nil in Hx.
    - intros x Hx Hr. rewrite (no_more_reverse s tbl b pre id chain Hi Hb Hrev x Hx) in Hr. done. }
  pose proof (chain_nodup _ _ _ (inv_chains _ _ Hi _ _ Hb)) as (_ & _ & [Hidc Hndc]%NoDup_cons)%NoDup_app.
  assert (Hidp : id ∉ proc) by (apply Hnot; by constructor).
  destruct (is_expired now (entry s id)) eqn:Hexp; cbn [negb].
  - pose proof (IH pre (drop_entry id s) (<[b := pre ++ chain]> tbl) proc hosts) as H.
    destruct (find_reverse a now prot chain hosts (drop_entry id s)) as [[kept hosts'] s'].
    destruct H as (H1 & H2 & new & H3); [by apply cinv_drop|by apply list_lookup_insert_eq|by apply scanned_drop|
      intros x Hx; apply Hnot; by constructor|].
    rewrite list_insert_insert_eq in H1. split_and!; [done|eapply frame_trans; [by eapply cinv_drop_frame|done]|by exists new].
  - assert (Hstep : ∃ hosts1 s1,
      (if addr_matches a prot s id then if immune (eflags s id) then (hosts ++ [id], s) else (hosts, link id (unlink id s))
       else (hosts, s)) = (hosts1, s1) ∧
      cinv_at s1 tbl ∧ scanned_ s1 (id :: proc) hosts1 ∧ frame s s1 ∧ ∀ x, entry s1 x = entry s x).
    { assert (Htest : addr_test (entry s id) = addr_matches a prot s id) by (unfold addr_test; change (flags (entry s id)) with (eflags s id); by rewrite Hrev).
      destruct (addr_matches a prot s id) eqn:Hm.
      - assert (Hin : id ∈ pre ++ id :: chain) by (apply elem_of_app; right; by constructor).
        pose proof (scanned_answer addr_test now s tbl b _ proc hosts id Hi Hb Hin Hidp Hexp Htest Hs) as H.
        destruct (if immune (eflags s id) then _ else _) as [hosts1 s1]. by exists hosts1, s1.
      - exists hosts, s. split_and!; [done|done|by apply scanned_keep|apply frame_refl|done]. }
    destruct Hstep as (hosts1 & s1 & -> & Hi1 & Hs1 & Hf1 & He1).
    pose proof (IH (pre ++ [id]) s1 tbl (id :: proc) hosts1) as H. rewrite <- app_assoc in H.
    destruct (find_reverse a now prot chain hosts1 s1) as [[kept hosts'] s'].
    destruct H as (H1 & H2 & new & H3 & H4 & H5); [done|done|done| |].
    { intros x Hx [->|Hp]%elem_of_cons; [done|]. apply (Hnot x); [by constructor|done]. }
    rewrite <- app_assoc in H1. split_and!; [done|by eapply frame_trans|]. exists (new ++ [id]). split_and!.
    + by rewrite <- app_assoc.
    + intros x [Hx|Hx%list_elem_of_singleton]%elem_of_app; apply elem_of_cons; [right; by apply H4|by left].
    + intros x [->|Hx]%elem_of_cons Hr; apply elem_of_app; [right; by constructor|left; by apply H5].
Qed.

Lemma find_reverse_sub chain hosts s x : x ∈ (find_reverse a now prot chain hosts s).1.1 → x ∈ chain.
Proof.
  revert hosts s. induction chain as [|id chain IH]; intros hosts s; cbn [find_reverse]; [done|].
  destruct (negb _); [done|]. destruct (negb _); [|intros ?%IH; by constructor].
  destruct (if addr_matches a prot s id then _ else _) as [hosts1 s1]. specialize (IH hosts1 s1).
  destruct (find_reverse a now prot chain hosts1 s1) as [[kept hosts2] s2]. cbn [fst] in *. rewrite !elem_of_cons. tauto.
Qed.
Lemma find_reverse_table chain hosts s : hash_table (find_reverse a now prot chain hosts s).2 = hash_table s.
Proof.
  revert hosts s. induction chain as [|id chain IH]; intros hosts s; cbn [find_reverse]; [done|].
  destruct (negb _); [done|]. destruct (negb _); [|by rewrite IH, drop_table].
  transitivity (hash_table (if addr_matches a prot s id then if immune (eflags s id) then (hosts ++ [id], s) else (hosts, link id (unlink id s)) else (hosts, s)).2);
    [|destruct (addr_matches a prot s id), (immune (eflags s id)); done].
  destruct (if addr_matches a prot s id then _ else _) as [hosts1 s1]. specialize (IH hosts1 s1).
  by destruct (find_reverse a now prot chain hosts1 s1) as [[kept hosts2] s2].
Qed.
Lemma reverse_used fl : has fl F_REVERSE = true → has fl FR = true.
Proof.
  rewrite !has_true. unfold FR. rewrite Z.land_lor_distr_r. intros Hr Hz%Z.lor_eq_0_iff. by destruct Hz.
Qed.
Lemma addr_test_used c : addr_test c = true → has (flags c) FR = true.
Proof. unfold addr_test. intros [HR _]%andb_true_iff. by apply reverse_used. Qed.
Lemma bucket_of_chain s tbl i ch x : cinv_at s tbl → tbl !! i = Some ch → x ∈ ch → bucket s x = i.
Proof. intros Hi Hch Hx. pose proof (chain_bucket _ _ _ (inv_chains _ _ Hi _ _ Hch)) as Hf. rewrite Forall_forall in Hf. by apply Hf. Qed.
Lemma wframe_bucket s s' x : wframe s s' → bucket s' x = bucket s x.
Proof. intros Hf. unfold bucket. by rewrite (wf_size _ _ Hf), (wf_name _ _ Hf). Qed.

(** Buckets below [i] are done: [proc] are their entries with F_REVERSE. *)
Definition swept (s : cache) (i : nat) (proc : list nat) : Prop :=
  (∀ x, x ∈ proc → (bucket s x < i)%nat ∧ in_tbl (hash_table s) x) ∧
  (∀ j ch x, (j < i)%nat → hash_table s !! j = Some ch → x ∈ ch → reverse_ s x → x ∈ proc).

Lemma swept_step s s1 i kept proc new :
  cinv s → cinv (set_chain i kept s1) → frame s s1 → wframe s (set_chain i kept s1) → (i < hash_size s)%nat → swept s i proc →
  (∀ x, x ∈ new → x ∈ kept) → (∀ x, x ∈ kept → reverse_ s1 x → x ∈ new) →
  swept (set_chain i kept s1) (S i) (new ++ proc).
Proof.
  intros Hi H2 Hf Hw Hlt [Hp Hc] Hnew Hall.
  assert (Htab : hash_table (set_chain i kept s1) = <[i := kept]> (hash_table s)) by (cbn; by rewrite (fr_table _ _ Hf)).
  assert (Hat : hash_table (set_chain i kept s1) !! i = Some kept) by (rewrite Htab; by apply list_lookup_insert_eq).
  split.
  - intros x [Hx|Hx]%elem_of_app.
    + specialize (Hnew x Hx). split; [rewrite (bucket_of_chain _ _ i kept x H2 Hat Hnew); lia|by exists i, kept].
    + destruct (Hp x Hx) as [Hb (j & ch & Hj & Hxj)]. split; [rewrite (wframe_bucket _ _ _ Hw); lia|].
      exists j, ch. rewrite Htab, list_lookup_insert_ne; [done|]. pose proof (bucket_of_chain s _ j ch x Hi Hj Hxj). lia.
  - intros j ch x Hj Hch Hx Hr. apply elem_of_app. destruct (decide (j = i)) as [->|Hne].
    + rewrite Hat in Hch. injection Hch as <-. left. by apply Hall.
    + right. rewrite Htab, list_lookup_insert_ne in Hch by done. apply (Hc j ch); [lia|done|done|].
      change (reverse_ s1 x) in Hr. destruct (fr_entry _ _ Hf x) as [He|[_ Hu]]; [unfold eflags in *; congruence|].
      apply reverse_used in Hr. unfold unused in Hu. congruence.
Qed.

Lemma find_buckets_inv n : ∀ i s proc hosts,
  cinv s → (i + n = hash_size s)%nat → scanned_ s proc hosts → swept s i proc →
  let '(hosts', s') := find_buckets a now prot n i hosts s in
  cinv s' ∧ wframe s s' ∧ ∃ proc', scanned_ s' proc' hosts' ∧ swept s' (hash_size s') proc'.
Proof.
  induction n as [|n IH]; intros i s proc hosts Hi Hn Hs Hsw; cbn [find_buckets].
  { split_and!; [done|apply wframe_refl|]. exists proc. split; [done|]. by rewrite <- Hn, Nat.add_0_r. }
  assert (Hlt : (i < hash_size s)%nat) by lia. pose proof (nth_chain (hash_table s) i Hlt) as Hch.
  pose proof (find_reverse_inv i (nth i (hash_table s) []) [] s (hash_table s) proc hosts Hi Hch Hs) as H.
  pose proof (find_reverse_sub (nth i (hash_table s) []) hosts s) as Hsub.
  destruct (find_reverse a now prot _ hosts s) as [[kept hosts1] s1].
  destruct H as (H1 & Hf & new & H3 & H4 & H5).
  { intros x Hx Hp. destruct Hsw as [Hp' _]. destruct (Hp' x Hp) as [Hb _]. rewrite (bucket_of_chain s _ i _ x Hi Hch Hx) in Hb. lia. }
  cbn [app] in H1. pose proof (cinv_put_chain s s1 i kept Hf H1) as H2. pose proof (frame_set_chain s s1 i _ kept Hf Hch Hsub) as Hw.
  pose proof (IH (S i) (set_chain i kept s1) (new ++ proc) hosts1) as IH'.
  destruct (find_buckets a now prot n (S i) hosts1 (set_chain i kept s1)) as [hosts' s'].
  destruct IH' as (R1 & R2 & R3); [done|rewrite (wf_size _ _ Hw); lia|by apply (scanned_frame_eq _ _ s1)|by apply (swept_step s)|].
  split_and!; [done|by eapply wframe_trans|done].
Qed.

Lemma find_addr_search s :
  cinv s →
  let '(r, s') := cache_find_by_addr a now prot None s in
  cinv s' ∧ (∃ s1, wframe s s1 ∧ touched s1 s') ∧
  ∃ l, answers_are addr_test now s' r l.
Proof.
  intros Hi. unfold cache_find_by_addr.
  pose proof (find_buckets_inv (hash_size s) 0 s [] [] Hi eq_refl (scanned_nil _ _ s)) as H.
  destruct (find_buckets a now prot (hash_size s) 0 [] s) as [hosts s1].
  destruct H as (H1 & Hw & proc & Hs & [Hp Hc]); [split; [intros x Hx; by apply not_elem_of_nil in Hx|intros; lia]|].
  pose proof (answer_spec addr_test now s1 proc hosts) as Hans. destruct (chain_up hosts s1) as [ans s'].
  destruct Hans as (H3 & Ht & Hr); [done| |done|done|intros x Hx; by apply Hp| |].
  { apply addr_test_used. }
  { intros x (j & ch & Hj & Hx) Hm. apply (Hc j ch); [by eapply lookup_lt_Some|done|done|].
    unfold addr_test in Hm. by apply andb_true_iff in Hm as [? _]. }
  split; [done|]. split; [|destruct Hr as [l Hr]; exists l; exact (answers_test _ _ _ _ _ Hr)]. by exists s1.
Qed.
End FindByAddr.
End Invariant.
End DnsCacheInv.
