(* ===== verification/DnsCacheSpec.v ===== *)
(** * What the cache promises (src/external/dnsmasq/src/cache.c)

    The runs of the cache from cache_init on, and the theorems on lookups and on an
    insertion followed by a lookup, on the invariant of DnsCacheInv.v. *)
From stdpp Require Import gmap sorting.
From S2P Require Import Prelude Runtime DriverRt DnsUtil DnsName DnsMsg DnsCache DnsCacheInv.
Import DnsUtil DnsMsg DnsCache DnsCacheInv.

Module DnsCacheSpec.
Section Spec.
Context (mix_tab : list Z).
Abbreviation cinv := (cinv mix_tab).
Abbreviation chains_ok := (chains_ok mix_tab).

(** ** The hash table made larger *)
Definition power2 (z : Z) : Prop := ∃ k, z = Z.of_nat (2 ^ k).
Lemma table_size_power fuel n size : power2 n → power2 (table_size fuel n size).
Proof.
  revert n. induction fuel as [|fuel IH]; intros n Hn; cbn [table_size]; [done|]. case_match; [|done]. apply IH.
  destruct Hn as [k ->]. exists (S k). rewrite Z.shiftl_mul_pow2 by lia. rewrite Nat.pow_succ_r'. lia.
Qed.
Lemma in_tbl_concat tbl x : x ∈ concat tbl ↔ in_tbl tbl x.
Proof.
  rewrite list_elem_of_In, in_concat. split.
  - intros (ch & [i Hi]%list_elem_of_In%list_elem_of_lookup & Hx%list_elem_of_In). by exists i, ch.
  - intros (i & ch & Hi & Hx). exists ch. split; apply list_elem_of_In; [by eapply list_elem_of_lookup_2|done].
Qed.
Lemma chains_nodup s : chains_ok s → NoDup (concat (hash_table s)).
Proof.
  intros [_ Hc]. assert (Hb : ∀ i ch x, hash_table s !! i = Some ch → x ∈ ch → bucket mix_tab s x = i).
  { intros i ch x Hi Hx. pose proof (chain_bucket _ _ _ _ (Hc i ch Hi)) as Hf. rewrite Forall_forall in Hf. by apply Hf. }
  assert (Hn : ∀ i ch, hash_table s !! i = Some ch → NoDup ch) by (intros i ch Hi; apply (chain_nodup _ _ _ _ (Hc i ch Hi))).
  clear Hc. revert Hb Hn. generalize (bucket mix_tab s) as f. induction (hash_table s) as [|ch tbl IH]; intros f Hb Hn; [by constructor|].
  cbn [concat]. apply NoDup_app. split_and!; [by apply (Hn 0%nat)| |].
  - intros x Hx (i & c & Hi & Hxc)%in_tbl_concat. pose proof (Hb 0%nat ch x eq_refl Hx). pose proof (Hb (S i) c x Hi Hxc). lia.
  - apply (IH (λ x, pred (f x))); intros i c; [intros x Hi Hx; by rewrite (Hb (S i) c x Hi Hx)|by apply (Hn (S i))].
Qed.
Lemma fold_hash ids s :
  chains_ok s → NoDup ids → (∀ x, x ∈ ids → ¬ in_tbl (hash_table s) x ∧ (x ∈ lru s ∨ immune (eflags s x) = true)) →
  let s' := foldl (λ s p, cache_hash mix_tab p s) s ids in
  chains_ok s' ∧ (∀ x, in_tbl (hash_table s') x ↔ x ∈ ids ∨ in_tbl (hash_table s) x) ∧ s' = set_table (hash_table s') s.
Proof.
  revert s. induction ids as [|id ids IH]; intros s Hc Hnd Hids; cbn [foldl].
  { split_and!; [done| |by destruct s]. intros x. rewrite elem_of_nil. tauto. }
  apply NoDup_cons in Hnd as [Hid Hnd]. destruct (Hids id) as [Hnt Hown]; [by constructor|].
  destruct (cache_hash_chains mix_tab s id Hc Hnt Hown) as (H1 & _ & H2 & H3).
  destruct (IH (cache_hash mix_tab id s)) as (R1 & R2 & R3); [done|done| |].
  - intros x Hx. rewrite H2. split; [|by apply Hids; constructor]. intros [->|Hin]; [done|]. apply (Hids x); [by constructor|done].
  - split_and!; [done| |].
    + intros x. rewrite R2, H2, elem_of_cons. tauto.
    + rewrite R3 at 1. by rewrite H3.
Qed.
Lemma chains_empty s n : chains_ok (set_table (repeat [] (2 ^ n)) s).
Proof.
  split; [exists n; unfold hash_size; cbn; by rewrite repeat_length|]. intros i ch Hi.
  assert (ch = []) as ->; [|split; constructor]. cbn in Hi. apply list_elem_of_lookup_2, list_elem_of_In, repeat_spec in Hi. done.
Qed.
Lemma repeat_none n x : ¬ in_tbl (repeat [] n) x.
Proof.
  intros (i & ch & Hi & Hx). apply list_elem_of_lookup_2, list_elem_of_In, repeat_spec in Hi. subst. by apply not_elem_of_nil in Hx.
Qed.
(** what rehash needs of the table it has, which may be none *)
Record tabled (s : cache) : Prop := {
  tb_nodup : NoDup (concat (hash_table s));
  tb_owner : ∀ x, in_tbl (hash_table s) x → x ∈ lru s ∨ immune (eflags s x) = true
}.
Lemma cinv_tabled s : cinv s → tabled s.
Proof.
  intros Hi. split; [by apply chains_nodup, cinv_chains|]. intros x (i & ch & Hch & Hx). by apply (cinv_chain_owner mix_tab s _ i ch x Hi).
Qed.
Lemma rehash_table s size room :
  tabled s → let s' := rehash mix_tab room size s in
  s' = s ∨ chains_ok s' ∧ (∀ x, in_tbl (hash_table s') x ↔ in_tbl (hash_table s) x) ∧ s' = set_table (hash_table s') s.
Proof.
  intros [Hnd Hown]. unfold rehash. case_match; [by left|right].
  destruct (table_size_power 32 64 size) as [k Hk]; [by exists 6%nat|]. rewrite Hk, Nat2Z.id.
  set (s0 := set_table (repeat [] (2 ^ k)) s).
  destruct (fold_hash (concat (hash_table s)) s0) as (R1 & R2 & R3); [apply chains_empty|done| |].
  - intros x Hx%in_tbl_concat. split; [apply repeat_none|by apply Hown].
  - split_and!; [done| |by rewrite R3 at 1]. intros x. rewrite R2, in_tbl_concat. split; [|by left].
    intros [?|?%repeat_none]; done.
Qed.
Lemma rehash_inv room size s : cinv s → cinv (rehash mix_tab room size s).
Proof.
  intros Hi. destruct (rehash_table s size room (cinv_tabled s Hi)) as [->|([Hk Hc] & Hmem & Hs)]; [done|].
  set (s' := rehash mix_tab room size s) in *. destruct Hi as [_ Hnd Hp Hu Hn _].
  assert (Hl : lru s' = lru s) by (by rewrite Hs). assert (Hnc : new_chain s' = new_chain s) by (by rewrite Hs).
  assert (Hf : ∀ x, eflags s' x = eflags s x) by (intros x; by rewrite Hs).
  split; [done| | | | |done].
  - by rewrite Hl, Hnc.
  - intros x. rewrite Hl, Hnc, Hf. apply Hp.
  - intros x. rewrite Hl, Hf, Hmem. apply Hu.
  - intros x. rewrite Hnc, Hf, Hmem. apply Hn.
Qed.

(** ** The runs of the cache *)
Lemma init_fold ids s :
  let s' := foldl (λ s i, init_entry i s) s ids in
  lru s' = rev ids ++ lru s ∧ new_chain s' = new_chain s ∧ hash_table s' = hash_table s ∧
  ∀ x, (flags (entry s x) = 0 ∧ cname (entry s x) = []) → flags (entry s' x) = 0 ∧ cname (entry s' x) = [].
Proof.
  revert s. induction ids as [|id ids IH]; intros s; cbn [foldl rev]; [done|].
  destruct (IH (init_entry id s)) as (-> & -> & -> & H4).
  split_and!; [cbn; by rewrite <- app_assoc|done|done|]. intros x Hx. apply H4.
  change (entry (init_entry id s) x) with (entry (set_entry id (with_uid (uid_ctr s) crec0) (link id s)) x).
  rewrite entry_set_entry. by case_decide.
Qed.
Lemma cache_init_inv n : cinv (cache_init mix_tab n) ∧ strings (cache_init mix_tab n).
Proof.
  unfold cache_init. set (e := mk_cache ∅ [] [] [] false 0 (Z.of_nat n / 10) 0 0 0).
  set (s := foldl (λ s i, init_entry i s) e (seq 0 n)).
  destruct (init_fold (seq 0 n) e) as (Hl & Hn & Ht & Hx). fold s in Hl, Hn, Ht, Hx.
  assert (He : ∀ x, flags (entry s x) = 0 ∧ cname (entry s x) = []) by (intros x; apply Hx; done).
  assert (Htab : tabled s).
  { split; rewrite Ht; [constructor|]. intros x (i & ch & Hi & _). done. }
  unfold rehash. rewrite Ht. cbn [length concat foldl hash_table e Nat.ltb Nat.leb andb].
  destruct (table_size_power 32 64 (Z.of_nat n)) as [k Hk]; [by exists 6%nat|]. rewrite Hk, Nat2Z.id.
  split; [|intros x; unfold cache_get_name; change (entry (set_table _ s) x) with (entry s x); destruct (He x) as [_ ->]; constructor].
  destruct (chains_empty s k) as [Hp Hc].
  split; [done| | | | |done]; unfold eflags; change (lru (set_table _ s)) with (lru s); change (new_chain (set_table _ s)) with (new_chain s);
    rewrite ?Hl, ?Hn; cbn [lru new_chain e]; rewrite ?app_nil_r.
  - rewrite NoDup_ListNoDup. apply NoDup_rev, seq_NoDup.
  - intros x _. change (entry (set_table _ s) x) with (entry s x). by destruct (He x) as [-> _].
  - intros x _. change (entry (set_table _ s) x) with (entry s x). destruct (He x) as [-> _]. split; [done|]. by intros ?%repeat_none.
  - intros x Hin. by apply not_elem_of_nil in Hin.
Qed.
Lemma point_cname_inv cpp newc s : cinv s → cinv (point_cname cpp newc s).
Proof.
  apply cinv_ext; [done..|]. intros x. unfold eflags, point_cname. rewrite entry_set_entry. by case_decide; subst.
Qed.

(** *** Names stay *)
Definition names_kept (s s' : cache) : Prop := ∀ x, cache_get_name (entry s' x) = cache_get_name (entry s x).
Lemma names_refl s : names_kept s s.
Proof. done. Qed.
Lemma names_trans s1 s2 s3 : names_kept s1 s2 → names_kept s2 s3 → names_kept s1 s3.
Proof. intros H1 H2 x. by rewrite H2. Qed.
Lemma names_strings s s' : names_kept s s' → strings s → strings s'.
Proof. intros Hn Hs x. rewrite Hn. apply Hs. Qed.
Lemma free_names id s : names_kept s (cache_free id s).
Proof.
  destruct (cache_free_facts id s) as (_ & _ & _ & _ & H & _ & Hid). intros x. destruct (decide (x = id)) as [->|Hne]; [done|by rewrite H].
Qed.
Lemma fold_names (f : nat → cache → cache) ids s : (∀ id s, names_kept s (f id s)) → names_kept s (foldl (λ s id, f id s) s ids).
Proof. intros Hf. revert s. induction ids as [|id ids IH]; intros s; cbn [foldl]; [done|]. by eapply names_trans. Qed.
Lemma commit_names id s : names_kept s (commit mix_tab id s).
Proof. unfold commit. case_match; [apply free_names|done]. Qed.
Lemma start_names s : names_kept s (cache_start_insert s).
Proof. apply (fold_names cache_free), free_names. Qed.
Lemma end_names s : names_kept s (cache_end_insert mix_tab s).
Proof. unfold cache_end_insert. destruct (insert_error s); [done|]. apply (fold_names (commit mix_tab)), commit_names. Qed.
Lemma rehash_names room size s : tabled s → names_kept s (rehash mix_tab room size s).
Proof. intros Ht. destruct (rehash_table s size room Ht) as [->|(_ & _ & ->)]; done. Qed.
Lemma search_names s s1 s' : wframe s s1 → touched s1 s' → names_kept s s'.
Proof. intros Hw Ht x. destruct (touched_flags s1 s' x Ht) as (_ & -> & _). apply (wf_name _ _ Hw). Qed.
Lemma cache_insert_strings room name a now ttl fl s :
  cinv s → Forall (λ c, c ≠ 0) (default [] name) → strings s → strings (cache_insert mix_tab room name a now ttl fl s).2.
Proof.
  intros Hi Hname Hs. unfold cache_insert. destruct (insert_error s); [done|].
  destruct (cache_scan_free_inv mix_tab (default [] name) (default [] a) now (clear fl F_CONFIG) s Hi) as [H1 Hf].
  destruct (cache_scan_free _ _ _ _ _ s) as [ok s1]. cbn [snd] in *.
  assert (Hs1 : strings s1) by (eapply names_strings; [exact (wf_name _ _ Hf)|done]). destruct ok; cbn [negb]; [|done].
  pose proof (grab_inv mix_tab 4 room (default [] name) now (has fl F_REVERSE) false s1 H1) as Hg.
  destruct (grab _ _ _ _ _ _ _ s1) as [[[new big]|] s2]; [|eapply names_strings; [exact (proj2 (failed_inv mix_tab s1 s2 Hg))|done]].
  destruct Hg as (s0 & _ & Hf0 & _ & _ & Hcore & _). cbn [snd]. intros x.
  change (entry (set_new_chain _ ?q) x) with (entry q x). rewrite entry_set_entry. case_decide; [done|].
  replace (entry s2 x) with (entry s0 x) by (unfold entry; destruct s0, s2; cbn in *; by injection Hcore as -> _ _ _).
  rewrite (wf_name _ _ Hf0). apply Hs1.
Qed.

(** *** Entries of hosts files and leases *)
Definition loose (s : cache) (id : nat) : Prop := id ∉ lru s ++ new_chain s ∧ ¬ in_tbl (hash_table s) id.
Lemma cinv_set_loose s id c : cinv s → loose s id → cinv (set_entry id c s).
Proof.
  intros [Hsz Hnd Hp Hu Hn Hc] [Hl Ht].
  assert (He : ∀ x, x ≠ id → entry (set_entry id c s) x = entry s x) by (intros x Hx; by rewrite entry_set_entry, decide_False).
  assert (Hx : ∀ x, x ∈ lru s ++ new_chain s → eflags (set_entry id c s) x = eflags s x).
  { intros x Hx. unfold eflags. rewrite He; [done|by intros ->]. }
  split; [done|done| | | |].
  - intros x Hin. rewrite Hx by done. by apply Hp.
  - intros x Hin. rewrite Hx by (apply elem_of_app; by left). by apply Hu.
  - intros x Hin. rewrite Hx by (apply elem_of_app; by right). by apply Hn.
  - intros i ch Hi. apply (chain_ok_frame mix_tab s); [by apply Hc|done|done|]. intros x Hxc.
    assert (x ≠ id) by (intros ->; apply Ht; by exists i, ch). unfold eflags. by rewrite He.
Qed.
Lemma cinv_hash_immune s id : cinv s → loose s id → immune (eflags s id) = true → cinv (cache_hash mix_tab id s).
Proof.
  intros Hi [Hl Ht] Himm. destruct (cache_hash_chains mix_tab s id (cinv_chains _ _ Hi) Ht (or_intror Himm)) as ([Hk Hc] & _ & Hmem & Hs).
  destruct Hi as [_ Hnd Hp Hu Hn _]. set (s' := cache_hash mix_tab id s) in *. split; [done|done|done| | |done].
  - intros x Hx. change (lru s') with (lru s) in Hx. rewrite Hmem. change (eflags s' x) with (eflags s x). rewrite (Hu x Hx).
    split; [by right|]. intros [->|?]; [|done]. exfalso. apply Hl, elem_of_app. by left.
  - intros x Hx. change (new_chain s') with (new_chain s) in Hx. rewrite Hmem. destruct (Hn x Hx). split; [|done].
    intros [->|?]; [|done]. apply Hl, elem_of_app. by right.
Qed.
Lemma hash_entry_inv s id c : cinv s → loose s id → immune (flags c) = true → cinv (hash_entry mix_tab id c s).
Proof.
  intros Hi Hl Himm. apply cinv_hash_immune; [by apply cinv_set_loose|done|]. unfold eflags. by rewrite entry_set_entry, decide_True.
Qed.

Lemma flush_chain_inv chain pre s tbl b :
  cinv_at mix_tab s tbl → tbl !! b = Some (pre ++ chain) →
  let '(kept, s') := flush_chain chain s in
  cinv_at mix_tab s' (<[b := pre ++ kept]> tbl) ∧ names_kept s s' ∧ hash_table s' = hash_table s.
Proof.
  revert pre s tbl. induction chain as [|id chain IH]; intros pre s tbl Hi Hb; cbn [flush_chain].
  { split_and!; [by rewrite list_insert_id|done|done]. }
  assert (Hlt : (b < length tbl)%nat) by (by eapply lookup_lt_Some).
  assert (Hrest : ∀ s1, cinv_at mix_tab s1 (<[b := pre ++ chain]> tbl) → names_kept s s1 → hash_table s1 = hash_table s →
    let '(kept, s') := flush_chain chain s1 in
    cinv_at mix_tab s' (<[b := pre ++ kept]> tbl) ∧ names_kept s s' ∧ hash_table s' = hash_table s).
  { intros s1 H1 Hn Ht. pose proof (IH pre s1 (<[b := pre ++ chain]> tbl) H1 (list_lookup_insert_eq _ _ _ Hlt)) as H.
    destruct (flush_chain chain s1) as [kept s']. destruct H as (H & ? & ?). rewrite list_insert_insert_eq in H.
    split_and!; [done|by eapply names_trans|congruence]. }
  destruct (has (eflags s id) F_HOSTS) eqn:Hh.
  - apply Hrest; [|done|done]. eapply cinv_forget; [done|exact Hb|]. unfold immune. rewrite has_true in *.
    rewrite Z.land_lor_distr_r. intros [? _]%Z.lor_eq_0_iff. done.
  - destruct (has (eflags s id) F_DHCP) eqn:Hd; cbn [negb].
    + pose proof (IH (pre ++ [id]) s tbl Hi) as H. rewrite <- app_assoc in H. specialize (H Hb).
      destruct (flush_chain chain s) as [kept s']. rewrite <- app_assoc in H. exact H.
    + set (s1 := if has (eflags s id) F_BIGNAME then _ else _).
      assert (Hs1 : lru s1 = lru s ∧ new_chain s1 = new_chain s ∧ hash_table s1 = hash_table s ∧ insert_error s1 = insert_error s ∧ ∀ x, entry s1 x = entry s x)
        by (unfold s1; by destruct (has (eflags s id) F_BIGNAME)).
      destruct Hs1 as (E1 & E2 & E3 & E4 & E5).
      apply Hrest; [|intros x; rewrite entry_set_entry; case_decide; [subst|]; by rewrite E5|done].
      assert (Himm : immune (eflags s id) = false).
      { unfold immune. rewrite has_false in *. by rewrite Z.land_lor_distr_r, Hh, Hd. }
      destruct (cinv_owner mix_tab s tbl b pre id chain Hi Hb) as [Hid|?]; [|congruence].
      apply (cinv_release mix_tab s _ tbl b pre id chain); [done|done|done| | |]; unfold eflags; rewrite ?entry_set_entry, ?decide_True by done; [|done|done].
      split; cbn; [by rewrite E1|done|done|done|]. intros x Hx. rewrite entry_set_entry, decide_False by done. apply E5.
Qed.
Lemma flush_buckets_inv n i s :
  cinv s → (i + n ≤ hash_size s)%nat → cinv (flush_buckets n i s) ∧ names_kept s (flush_buckets n i s).
Proof.
  revert i s. induction n as [|n IH]; intros i s Hi Hn; cbn [flush_buckets]; [done|].
  assert (Hlt : (i < length (hash_table s))%nat) by (unfold hash_size in Hn; lia).
  pose proof (flush_chain_inv (nth i (hash_table s) []) [] s (hash_table s) i Hi (nth_chain _ _ Hlt)) as H.
  destruct (flush_chain _ s) as [kept s']. destruct H as (H1 & H2 & H3). cbn [app] in H1.
  assert (Hi' : cinv (set_chain i kept s')) by (unfold set_chain; rewrite H3; by apply cinv_set_table).
  destruct (IH (S i) (set_chain i kept s') Hi') as [? ?]; [unfold hash_size in *; cbn; rewrite length_insert, H3; lia|].
  split; [done|by eapply names_trans].
Qed.
Lemma cache_flush_inv s : cinv s → cinv (cache_flush s) ∧ names_kept s (cache_flush s).
Proof. intros Hi. apply flush_buckets_inv; [by apply (cinv_core mix_tab s)|done]. Qed.

Lemma unhash_chain_inv chain spare pre s tbl b :
  cinv_at mix_tab s tbl → tbl !! b = Some (pre ++ chain) →
  cinv_at mix_tab s (<[b := pre ++ (unhash_chain s chain spare).1]> tbl).
Proof.
  revert spare pre tbl. induction chain as [|id chain IH]; intros spare pre tbl Hi Hb; cbn [unhash_chain].
  { cbn. by rewrite list_insert_id. }
  assert (Hlt : (b < length tbl)%nat) by (by eapply lookup_lt_Some).
  destruct (has (eflags s id) F_DHCP) eqn:Hd.
  - assert (Himm : immune (eflags s id) = true).
    { unfold immune. rewrite has_true in *. rewrite Z.land_lor_distr_r. intros [_ ?]%Z.lor_eq_0_iff. done. }
    pose proof (IH (id :: spare) pre _ (cinv_forget mix_tab s tbl b pre id chain Hi Hb Himm) (list_lookup_insert_eq _ _ _ Hlt)) as H.
    by rewrite list_insert_insert_eq in H.
  - pose proof (IH spare (pre ++ [id]) tbl Hi) as H. rewrite <- app_assoc in H. specialize (H Hb).
    destruct (unhash_chain s chain spare) as [kept sp]. by rewrite <- app_assoc in H.
Qed.
Lemma unhash_buckets_inv n i spare s :
  cinv s → (i + n ≤ hash_size s)%nat → let s' := (unhash_buckets n i spare s).2 in cinv s' ∧ heap s' = heap s.
Proof.
  revert i spare s. induction n as [|n IH]; intros i spare s Hi Hn; cbn [unhash_buckets]; [done|].
  assert (Hlt : (i < length (hash_table s))%nat) by (unfold hash_size in Hn; lia).
  pose proof (unhash_chain_inv (nth i (hash_table s) []) spare [] s (hash_table s) i Hi (nth_chain _ _ Hlt)) as H.
  destruct (unhash_chain s _ spare) as [kept sp]. cbn [app fst] in H. destruct (IH (S i) sp (set_chain i kept s)) as [? Hh].
  - unfold set_chain. by apply cinv_set_table.
  - unfold hash_size in *. cbn. rewrite length_insert. lia.
  - split; [done|]. by rewrite Hh.
Qed.
Lemma cache_unhash_dhcp_inv spare s :
  cinv s → cinv (cache_unhash_dhcp spare s).2 ∧ names_kept s (cache_unhash_dhcp spare s).2.
Proof.
  intros Hi. destruct (unhash_buckets_inv (hash_size s) 0 spare s Hi (Nat.le_refl _)) as [? Hh]. split; [done|].
  intros x. unfold entry, cache_unhash_dhcp. by rewrite Hh.
Qed.

(** The operations of the cache, in any order and with any arguments: an entry that
    is inserted is not one of a hosts file or a lease, is for some direction, and
    has a name that is a string; the entries of hosts files and leases are their own. *)
Inductive cache_step : cache → cache → Prop :=
  | Start s : cache_step s (cache_start_insert s)
  | Insert room name a now ttl fl s : immune fl = false → has fl FR = true → Forall (λ c, c ≠ 0) (default [] name) →
      cache_step s (cache_insert mix_tab room name a now ttl fl s).2
  | Point cpp newc s : cache_step s (point_cname cpp newc s)
  | End_ s : cache_step s (cache_end_insert mix_tab s)
  | FindName name now prot crecp s : Forall (λ c, c ≠ 0) name →
      cache_step s (cache_find_by_name mix_tab name now prot crecp s).2
  | FindAddr a now prot crecp s : cache_step s (cache_find_by_addr a now prot crecp s).2
  | ScanFree name a now fl s : cache_step s (cache_scan_free mix_tab name a now fl s).2
  | Rehash room size s : cache_step s (rehash mix_tab room size s)
  | HashEntry id c s : loose s id → immune (flags c) = true → Forall (λ c, c ≠ 0) (cname c) →
      cache_step s (hash_entry mix_tab id c s)
  | UnhashDhcp spare s : cache_step s (cache_unhash_dhcp spare s).2
  | Flush s : cache_step s (cache_flush s)
  | NextUid s : cache_step s (set_uid_ctr (i32 (uid_ctr s + 1)) s).
Definition reachable (cachesize : nat) (s : cache) : Prop := rtc cache_step (cache_init mix_tab cachesize) s.

Lemma step_inv s s' : cache_step s s' → cinv s ∧ strings s → cinv s' ∧ strings s'.
Proof.
  intros Hstep [Hi Hs]. destruct Hstep.
  - split; [by apply cache_start_insert_inv|by eapply names_strings; [apply start_names|]].
  - split; [by apply cache_insert_inv|by apply cache_insert_strings].
  - split; [by apply point_cname_inv|]. intros x. unfold point_cname. rewrite entry_set_entry. case_decide; [subst|]; apply Hs.
  - split; [by apply cache_end_insert_inv|by eapply names_strings; [apply end_names|]].
  - destruct crecp as [id|]; [done|]. pose proof (find_search mix_tab name now prot s Hi Hs H) as Hf.
    destruct (cache_find_by_name _ _ _ _ _ s) as [r s']. destruct Hf as (? & (s1 & Hw & Ht) & _). split; [done|]. by eapply names_strings, Hs; eapply search_names.
  - destruct crecp as [id|]; [done|]. pose proof (find_addr_search mix_tab a now prot s Hi) as Hf.
    destruct (cache_find_by_addr _ _ _ _ s) as [r s']. destruct Hf as (? & (s1 & Hw & Ht) & _). split; [done|]. by eapply names_strings, Hs; eapply search_names.
  - destruct (cache_scan_free_inv mix_tab name a now fl s Hi) as [? Hf]. split; [done|]. eapply names_strings; [exact (wf_name _ _ Hf)|done].
  - split; [by apply rehash_inv|]. eapply names_strings; [by eapply rehash_names, cinv_tabled|done].
  - split; [by apply hash_entry_inv|]. intros x. change (entry (hash_entry mix_tab id c s) x) with (entry (set_entry id c s) x).
    rewrite entry_set_entry. by case_decide.
  - destruct (cache_unhash_dhcp_inv spare s Hi) as [? ?]. split; [done|by eapply names_strings].
  - destruct (cache_flush_inv s Hi) as [? ?]. split; [done|by eapply names_strings].
  - split; [by apply (cinv_core mix_tab s)|exact Hs].
Qed.
Lemma steps_inv s s' : rtc cache_step s s' → cinv s ∧ strings s → cinv s' ∧ strings s'.
Proof. induction 1 as [|x y z Hxy _ IH]; [done|]. intros Hx. by apply IH, (step_inv x). Qed.
Lemma reachable_inv n s : reachable n s → cinv s ∧ strings s.
Proof. intros Hr. eapply steps_inv; [exact Hr|apply cache_init_inv]. Qed.

(** ** All the answers of a lookup *)
Section Answers.
(** the loop of a caller over the answers, until there is none *)
Context (find : option nat → cache → option nat * cache) (mt : crec → bool).
Fixpoint answers (fuel : nat) (crecp : option nat) (s : cache) : list nat :=
  match fuel with
  | O => []
  | S fuel' => match find crecp s with (Some id, s') => id :: answers fuel' (Some id) s' | (None, _) => [] end
  end.
Context (Hfind : ∀ x s, find (Some x) s =
  (match next s x with Some id => if mt (entry s id) then Some id else None | None => None end, s)).
Lemma answers_trail l fuel x s : trail mt s (next s x) l → (length l < fuel)%nat → answers fuel (Some x) s = l.
Proof.
  revert fuel x. induction l as [|y l IH]; intros [|fuel] x Ht Hf; cbn [length] in Hf; try lia; cbn [answers]; rewrite Hfind; cbn [trail] in Ht.
  - destruct (next s x) as [z|]; [by rewrite Ht|done].
  - destruct Ht as (-> & -> & Ht). f_equal. apply IH; [done|lia].
Qed.
Lemma answers_search l fuel s r s' :
  find None s = (r, s') → trail mt s' r l → (∀ y, r = Some y → mt (entry s' y) = true) → (length l < fuel)%nat → answers fuel None s = l.
Proof.
  destruct fuel as [|fuel]; [lia|]. intros Hs Ht Hr Hf. cbn [answers]. rewrite Hs. destruct l as [|y l]; cbn [trail] in Ht.
  - destruct r as [y|]; [|done]. by rewrite (Hr y eq_refl) in Ht.
  - destruct Ht as (-> & _ & Ht). f_equal. apply answers_trail; [done|]. cbn [length] in Hf. lia.
Qed.
End Answers.

(** *** Entries that are not out of date stay *)
Lemma drop_keeps now s x id :
  is_expired now (entry s id) = false → is_expired now (entry s x) = true → entry (drop_entry x s) id = entry s id.
Proof. intros Hid Hx. apply drop_entry_ne. intros ->. congruence. Qed.
Definition current (now : Z) (c : crec) : Prop := is_expired now c = false ∧ has (flags c) F_CNAME = false.
Lemma find_loop_keeps name now prot id chain pre moved post ins hosts s :
  current now (entry s id) →
  let '(kept, _, s') := find_loop name now prot chain pre moved post ins hosts s in
  entry s' id = entry s id ∧ (id ∈ pre ++ moved ++ post ++ chain → id ∈ kept).
Proof.
  revert pre moved post ins hosts s. induction chain as [|x chain IH]; intros pre moved post ins hosts s Hc; cbn [find_loop].
  { split; [done|]. by rewrite app_nil_r. }
  destruct (negb _ && negb _) eqn:Hlive.
  - assert (Hgo : ∀ pre' moved' post' ins' hosts' s', entry s' id = entry s id →
      (id ∈ pre ++ moved ++ post ++ x :: chain → id ∈ pre' ++ moved' ++ post' ++ chain) →
      let '(kept, _, s') := find_loop name now prot chain pre' moved' post' ins' hosts' s' in
      entry s' id = entry s id ∧ (id ∈ pre ++ moved ++ post ++ x :: chain → id ∈ kept)).
    { intros pre' moved' post' ins' hosts' s' He Hin. specialize (IH pre' moved' post' ins' hosts' s').
      rewrite He in IH. destruct (find_loop _ _ _ _ _ _ _ _ _ s') as [[kept h] s2]. destruct (IH Hc) as [-> ?]. tauto. }
    destruct (name_matches name prot s x).
    + destruct (immune (eflags s x)); destruct ins as [f|]; try destruct (_ =? f);
        (apply Hgo; [done|rewrite !elem_of_app, !elem_of_cons, ?elem_of_nil; tauto]).
    + destruct ins; (apply Hgo; [done|rewrite !elem_of_app, !elem_of_cons, ?elem_of_nil; tauto]).
  - assert (Hne : x ≠ id).
    { intros ->. destruct Hc as [He Hn]. unfold is_outdated_cname_pointer in Hlive. change (eflags s id) with (flags (entry s id)) in Hlive.
      by rewrite He, Hn in Hlive. }
    specialize (IH pre moved post ins hosts (drop_entry x s)). rewrite drop_entry_ne in IH by done.
    destruct (find_loop _ _ _ _ _ _ _ _ _ (drop_entry x s)) as [[kept h] s2]. destruct (IH Hc) as [-> Hin]. split; [done|].
    rewrite !elem_of_app, elem_of_cons in *. intros [?|[?|[?|[?|?]]]]; [tauto..|done|tauto].
Qed.
Lemma find_reverse_keeps a now prot id chain hosts s :
  is_expired now (entry s id) = false →
  let '(kept, _, s') := find_reverse a now prot chain hosts s in entry s' id = entry s id ∧ (id ∈ chain → id ∈ kept).
Proof.
  revert hosts s. induction chain as [|x chain IH]; intros hosts s Hc; cbn [find_reverse]; [done|].
  destruct (negb (has _ _)); [done|]. destruct (is_expired now (entry s x)) eqn:Hx; cbn [negb].
  - pose proof (drop_keeps now s x id Hc Hx) as He. specialize (IH hosts (drop_entry x s)). rewrite He in IH.
    destruct (find_reverse _ _ _ _ _ (drop_entry x s)) as [[kept h] s2]. destruct (IH Hc) as [-> Hin]. split; [done|].
    intros [->|?]%elem_of_cons; [congruence|tauto].
  - assert (Hgo : ∀ hosts1 s1, entry s1 id = entry s id →
      let '(kept, _, s') := (let '(kept, hosts, s) := find_reverse a now prot chain hosts1 s1 in (x :: kept, hosts, s)) in
      entry s' id = entry s id ∧ (id ∈ x :: chain → id ∈ kept)).
    { intros hosts1 s1 He. specialize (IH hosts1 s1). rewrite He in IH.
      destruct (find_reverse a now prot chain hosts1 s1) as [[kept h] s2]. destruct (IH Hc) as [-> ?]. rewrite !elem_of_cons. tauto. }
    destruct (addr_matches a prot s x); [destruct (immune (eflags s x))|]; by apply Hgo.
Qed.
Lemma find_buckets_keeps a now prot id n i hosts s :
  (i + n ≤ hash_size s)%nat → is_expired now (entry s id) = false →
  let '(_, s') := find_buckets a now prot n i hosts s in
  entry s' id = entry s id ∧ (in_tbl (hash_table s) id → in_tbl (hash_table s') id).
Proof.
  revert i hosts s. induction n as [|n IH]; intros i hosts s Hn Hc; cbn [find_buckets]; [done|].
  assert (Hlt : (i < length (hash_table s))%nat) by (unfold hash_size in Hn; lia). pose proof (nth_chain _ _ Hlt) as Hch.
  pose proof (find_reverse_keeps a now prot id (nth i (hash_table s) []) hosts s Hc) as Hk.
  pose proof (find_reverse_table a now prot (nth i (hash_table s) []) hosts s) as Ht.
  destruct (find_reverse _ _ _ _ _ s) as [[kept h] s1]. destruct Hk as [He Hin]. cbn [snd] in Ht.
  specialize (IH (S i) h (set_chain i kept s1)). change (entry (set_chain i kept s1) id) with (entry s1 id) in IH. rewrite He in IH.
  destruct (find_buckets _ _ _ _ _ _ (set_chain i kept s1)) as [h' s']. destruct IH as [-> Hin'].
  - unfold hash_size in *. cbn. rewrite length_insert, Ht. lia.
  - done.
  - split; [done|]. intros (j & ch & Hj & Hx). apply Hin'. cbn. rewrite Ht. destruct (decide (j = i)) as [->|Hne].
    + rewrite Hch in Hj. injection Hj as <-. exists i, kept. rewrite list_lookup_insert_eq by done. split; [done|by apply Hin].
    + exists j, ch. by rewrite list_lookup_insert_ne.
Qed.

(** *** A lookup by name, by address *)
(** [good]: the entries that a search is sure to keep *)
Record lookup_ok (good : crec → Prop) (mt : crec → bool) (now : Z) (find : option nat → cache → option nat * cache) (s : cache) (l : list nat) : Prop := {
  lk_nodup : NoDup l;
  lk_sound : ∀ x, x ∈ l → in_tbl (hash_table s) x ∧ mt (entry s x) = true ∧ is_expired now (entry s x) = false;
  lk_complete : ∀ x, in_tbl (hash_table s) x → good (entry s x) → mt (entry s x) = true → x ∈ l;
  lk_answers : ∀ fuel, (length l < fuel)%nat → answers find fuel None s = l
}.
Lemma lookup_intro (good : crec → Prop) (mt : crec → bool) now (find : option nat → cache → option nat * cache) s r s' l :
  (∀ n c, mt (with_hnext n c) = mt c) → (∀ c, mt c = true → has (flags c) FR = true) →
  (∃ s1, wframe s s1 ∧ touched s1 s') →
  (∀ x s, find (Some x) s = (match next s x with Some id => if mt (entry s id) then Some id else None | None => None end, s)) →
  find None s = (r, s') → answers_are mt now s' r l →
  (∀ y, r = Some y → mt (entry s' y) = true) →
  (∀ x, good (entry s x) →
    (in_tbl (hash_table s) x → in_tbl (hash_table s') x) ∧ ∃ n, entry s' x = with_hnext n (entry s x)) →
  lookup_ok good mt now find s l.
Proof.
  intros Hmt HFR (s1 & Hw & Ht) Hfind Hr [A1 A2 A3 A4] Htest Hkeep. split; [done| | |].
  - intros x Hx. pose proof Hx as [Hin Hm]%A2. specialize (A3 x Hx). rewrite (touched_expired _ _ _ x Ht) in A3.
    pose proof Ht as (_ & _ & T3 & _ & T5). destruct (T5 x) as [n He]. rewrite T3 in Hin. rewrite He, Hmt in Hm.
    destruct (wf_entry _ _ Hw x) as [Hx'|[_ Hu]]; [|specialize (HFR _ Hm); unfold unused, eflags in Hu; congruence].
    rewrite Hx' in *. split_and!; [by apply (wf_sub _ _ Hw)|done|done].
  - intros x Htx Hc Hm. destruct (Hkeep x Hc) as [Hin [n Hx]]. apply A2. rewrite Hx, Hmt. split; [by apply Hin|done].
  - intros fuel Hfuel. by eapply (answers_search _ mt).
Qed.
Lemma find_by_name_keeps name now prot s x :
  cinv s → current now (entry s x) → let s' := (cache_find_by_name mix_tab name now prot None s).2 in
  (in_tbl (hash_table s) x → in_tbl (hash_table s') x) ∧ ∃ n, entry s' x = with_hnext n (entry s x).
Proof.
  intros Hi Hc. unfold cache_find_by_name. set (b := hash_bucket mix_tab (hash_size s) name).
  assert (Hb : (b < hash_size s)%nat) by (apply bucket_lt, (inv_size _ _ _ Hi)). pose proof (nth_chain _ _ Hb) as Hch.
  pose proof (find_loop_keeps name now prot x (nth b (hash_table s) []) [] [] [] None [] s Hc) as Hk.
  pose proof (find_loop_table name now prot (nth b (hash_table s) []) [] [] [] None [] s) as Ht.
  destruct (find_loop _ _ _ _ _ _ _ _ _ s) as [[kept hosts] s1]. destruct Hk as [He Hin]. cbn [app snd] in *.
  pose proof (chain_up_spec hosts (set_chain b kept s1)) as Hup. destruct (chain_up hosts _) as [ans s'].
  destruct Hup as [_ (_ & _ & T3 & _ & T5)]. cbn [snd]. split; [|destruct (T5 x) as [n Hx]; exists n; rewrite Hx; by rewrite <- He].
  intros (j & ch & Hj & Hx). rewrite T3. cbn. rewrite Ht. destruct (decide (j = b)) as [->|Hne].
  - rewrite Hch in Hj. injection Hj as <-. exists b, kept. rewrite list_lookup_insert_eq by done. split; [done|by apply Hin].
  - exists j, ch. by rewrite list_lookup_insert_ne.
Qed.
Lemma find_by_name_ok name now prot s :
  cinv s → strings s → Forall (λ c, c ≠ 0) name →
  ∃ l, lookup_ok (current now) (name_test name prot) now (cache_find_by_name mix_tab name now prot) s l.
Proof.
  intros Hi Hs Hn. pose proof (find_search mix_tab name now prot s Hi Hs Hn) as Hf.
  pose proof (λ x, find_by_name_keeps name now prot s x Hi) as Hkeep.
  destruct (cache_find_by_name mix_tab name now prot None s) as [r s'] eqn:Hr. destruct Hf as (_ & Hw & l & Ha). cbn [snd] in Hkeep.
  exists l. apply (lookup_intro _ _ _ _ _ r s'); [done|apply name_test_used|done..| |done]. intros y ->.
  unfold cache_find_by_name in Hr. repeat (case_match; simplify_eq). done.
Qed.
Lemma find_by_addr_keeps a now prot s x :
  is_expired now (entry s x) = false → let s' := (cache_find_by_addr a now prot None s).2 in
  (in_tbl (hash_table s) x → in_tbl (hash_table s') x) ∧ ∃ n, entry s' x = with_hnext n (entry s x).
Proof.
  intros Hc. unfold cache_find_by_addr.
  pose proof (find_buckets_keeps a now prot x (hash_size s) 0 [] s (Nat.le_refl _) Hc) as Hk.
  destruct (find_buckets _ _ _ _ _ _ s) as [hosts s1]. destruct Hk as [He Hin].
  pose proof (chain_up_spec hosts s1) as Hup. destruct (chain_up hosts _) as [ans s'].
  destruct Hup as [_ (_ & _ & T3 & _ & T5)]. cbn [snd]. rewrite T3. split; [done|]. destruct (T5 x) as [n Hx]. exists n. by rewrite Hx, He.
Qed.
Lemma find_by_addr_ok a now prot s :
  cinv s → ∃ l, lookup_ok (λ c, is_expired now c = false) (addr_test a prot) now (cache_find_by_addr a now prot) s l.
Proof.
  intros Hi. pose proof (find_addr_search mix_tab a now prot s Hi) as Hf.
  pose proof (find_by_addr_keeps a now prot s) as Hkeep.
  destruct (cache_find_by_addr a now prot None s) as [r s'] eqn:Hr. destruct Hf as (_ & Hw & l & Ha). cbn [snd] in Hkeep.
  exists l. apply (lookup_intro _ _ _ _ _ r s'); [done|apply addr_test_used|done..| |done]. intros y ->.
  unfold cache_find_by_addr in Hr. repeat (case_match; simplify_eq). done.
Qed.

(** ** A lookup after an insertion *)
Section InsertFind.
Context (name : text) (fl : Z).
(** the entries that an insertion of the name removes *)
Definition clash (c : crec) : bool :=
  has (flags c) F_FORWARD &&
  (negb (Z.land (Z.land fl (flags c)) (Z.lor F_IPV4 F_IPV6) =? 0) || has (Z.lor (flags c) fl) F_CNAME) &&
  hostname_isequal (cache_get_name c) name.
Lemma unused_clash c : has (flags c) FR = false → clash c = false.
Proof.
  intros Hu. unfold clash. replace (has (flags c) F_FORWARD) with false; [done|]. symmetry. rewrite has_false in *.
  unfold FR in Hu. rewrite Z.land_lor_distr_r in Hu. by apply Z.lor_eq_0_iff in Hu as [? _].
Qed.
Lemma scan_name_clean now b chain pre s tbl :
  cinv_at mix_tab s tbl → tbl !! b = Some (pre ++ chain) →
  let '(ok, kept, s') := scan_name chain name now fl s in ok = true → ∀ x, x ∈ kept → clash (entry s' x) = false.
Proof.
  revert pre s tbl. induction chain as [|id chain IH]; intros pre s tbl Hi Hb; cbn [scan_name].
  { intros _ x Hx. by apply not_elem_of_nil in Hx. }
  assert (Hlt : (b < length tbl)%nat) by (by eapply lookup_lt_Some).
  assert (Hdrop := IH pre (drop_entry id s) (<[b := pre ++ chain]> tbl) (cinv_drop mix_tab s tbl b pre id chain Hi Hb)
                      (list_lookup_insert_eq _ _ _ Hlt)).
  destruct (_ || _); [exact Hdrop|]. fold (clash (entry s id)). change (_ && _ && _) with (clash (entry s id)).
  destruct (clash (entry s id)) eqn:Hcl.
  - destruct (immune (eflags s id)) eqn:Himm; [done|]. rewrite not_immune_drop by done. exact Hdrop.
  - assert (Hb' : tbl !! b = Some ((pre ++ [id]) ++ chain)) by (by rewrite <- app_assoc).
    pose proof (IH (pre ++ [id]) s tbl Hi Hb') as H. pose proof (scan_name_inv mix_tab chain name now fl (pre ++ [id]) s tbl b Hi Hb') as Hf.
    destruct (scan_name chain name now fl s) as [[ok kept] s']. destruct Hf as [_ Hf]. intros Hok x [->|Hx]%elem_of_cons; [|by apply H].
    destruct (fr_entry _ _ Hf id) as [->|[_ Hu]]; [done|by apply unused_clash].
Qed.
Definition no_clash (s : cache) : Prop := ∀ x, in_tbl (hash_table s) x → clash (entry s x) = false.
Lemma no_clash_wframe s s' : wframe s s' → no_clash s → no_clash s'.
Proof.
  intros Hw Hn x Hx%(wf_sub _ _ Hw). destruct (wf_entry _ _ Hw x) as [->|[_ Hu]]; [by apply Hn|by apply unused_clash].
Qed.
Lemma cache_scan_free_clean a now s :
  cinv s → strings s → Forall (λ c, c ≠ 0) name → has fl F_FORWARD = true →
  let '(ok, s') := cache_scan_free mix_tab name a now fl s in ok = true → no_clash s'.
Proof.
  intros Hi Hs Hname HF. destruct (cache_scan_free_inv mix_tab name a now fl s Hi) as [Hi' Hw].
  unfold cache_scan_free in *. rewrite HF in *. set (b := hash_bucket mix_tab (hash_size s) name) in *.
  assert (Hb : (b < hash_size s)%nat) by (apply bucket_lt, (inv_size _ _ _ Hi)). pose proof (nth_chain _ _ Hb) as Hch.
  pose proof (scan_name_clean now b (nth b (hash_table s) []) [] s (hash_table s) Hi Hch) as Hc.
  pose proof (scan_name_inv mix_tab (nth b (hash_table s) []) name now fl [] s (hash_table s) b Hi Hch) as Hf.
  destruct (scan_name _ name now fl s) as [[ok kept] s1]. cbn [snd] in *. destruct Hf as [_ Hf]. intros Hok x (i & c & Hxi & Hx).
  destruct (clash (entry s1 x)) eqn:Hcl; [|done]. exfalso.
  assert (i = b) as ->.
  { pose proof (bucket_of_chain mix_tab _ _ i c x Hi' Hxi Hx) as <-. unfold bucket. rewrite (wf_size _ _ Hw), (wf_name _ _ Hw).
    apply bucket_equal; [apply Hs|done|]. unfold clash in Hcl. rewrite (fr_name _ _ Hf) in Hcl. by apply andb_true_iff in Hcl as [_ ?]. }
  cbn in Hxi. rewrite (fr_table _ _ Hf), list_lookup_insert_eq in Hxi by done. injection Hxi as <-. rewrite Hc in Hcl; done.
Qed.
End InsertFind.
Lemma start_clean s : new_chain (cache_start_insert s) = [] ∧ insert_error (cache_start_insert s) = false.
Proof. done. Qed.
(** What an insertion that succeeds leaves. *)
Lemma cache_insert_some room name a now ttl fl s new s1 :
  cinv s → strings s → Forall (λ c, c ≠ 0) name → has fl F_FORWARD = true →
  cache_insert mix_tab room (Some name) (Some a) now ttl fl s = (Some new, s1) →
  insert_error s1 = insert_error s ∧ new_chain s1 = new :: new_chain s ∧ no_clash name (clear fl F_CONFIG) s1 ∧
  ∃ u f, entry s1 new = mk_crec (now + ttl) u (Addr a) f name None ∧
    (f = clear fl F_CONFIG ∨ f = Z.lor (clear fl F_CONFIG) F_BIGNAME).
Proof.
  intros Hi Hs Hn HF. unfold cache_insert. destruct (insert_error s) eqn:Herr; [done|]. cbn [default].
  destruct (cache_scan_free_inv mix_tab name a now (clear fl F_CONFIG) s Hi) as [H1 Hw].
  pose proof (cache_scan_free_clean name (clear fl F_CONFIG) a now s Hi Hs Hn) as Hc.
  rewrite has_clear_ne in Hc by done. specialize (Hc HF). cbv [id] in *.
  destruct (cache_scan_free _ _ _ _ _ s) as [ok s2]. cbn [snd] in *. destruct ok; cbn [negb]; [|done]. specialize (Hc eq_refl).
  pose proof (grab_inv mix_tab 4 room name now (has fl F_REVERSE) false s2 H1) as Hg.
  destruct (grab _ _ _ _ _ _ _ s2) as [[[new' big]|] s3]; [|done]. intros [= -> <-].
  destruct Hg as (s0 & H0 & Hw0 & Hlast & Hun & Hcore & He).
  assert (Hh : heap s3 = heap s0 ∧ hash_table s3 = hash_table s0 ∧ new_chain s3 = new_chain s0)
    by (destruct s3, s0; cbn in *; by injection Hcore as -> _ -> ->).
  destruct Hh as (Hh & Ht & Hnc). split_and!.
  - cbn. by rewrite He, (wf_error _ _ Hw0), (wf_error _ _ Hw).
  - cbn. by rewrite Hnc, (wf_new _ _ Hw0), (wf_new _ _ Hw).
  - intros x Hx. change (in_tbl (hash_table s3) x) in Hx. rewrite Ht in Hx. change (entry (set_new_chain _ ?q) x) with (entry q x).
    assert (x ≠ new).
    { intros ->. apply (inv_used _ _ _ H0) in Hx; [congruence|]. apply last_Some in Hlast as [l ->]. apply elem_of_app. right. by constructor. }
    rewrite entry_set_entry, decide_False by done. unfold entry. rewrite Hh. by apply (no_clash_wframe _ _ s2 s0).
  - eexists _, _. change (entry (set_new_chain _ ?q) new) with (entry q new). rewrite entry_set_entry, decide_True by done.
    split; [done|]. destruct big; [by right|by left].
Qed.

(** A single new entry, committed. *)
Lemma commit_one s new :
  cinv s → insert_error s = false → new_chain s = [new] → has (eflags s new) F_CNAME = false →
  let s' := cache_end_insert mix_tab s in
  (∀ x, in_tbl (hash_table s') x ↔ x = new ∨ in_tbl (hash_table s) x) ∧ ∀ x, entry s' x = entry s x.
Proof.
  intros Hi He Hn Hc. unfold cache_end_insert. rewrite He, Hn. cbn [foldl]. unfold commit, is_outdated_cname_pointer. rewrite Hc. cbn [negb].
  split; [|done]. pose proof (inv_new _ _ _ Hi new) as [Hnt _]; [rewrite Hn; by constructor|].
  set (s0 := link new s). destruct (cache_hash_chains mix_tab s0 new) as (_ & _ & Hmem & _).
  - split; [apply (inv_size _ _ _ Hi)|]. intros i c Hic. apply (chain_ok_frame mix_tab s); [by apply (inv_chains _ _ _ Hi)|done| |done].
    intros x _ Hx. by constructor.
  - done.
  - left. by constructor.
  - intros x. etransitivity; [|exact (Hmem x)].
    change (cache_hash mix_tab new s0) with (set_chain (bucket mix_tab s new) (hashed s0 new (nth (bucket mix_tab s new) (hash_table s) [])) s0).
    by rewrite (hashed_ext s s0).
Qed.
(** An entry that answers is one that an insertion removes. *)
Lemma has_bit fl k : 0 ≤ k → has fl (2 ^ k) = Z.testbit fl k.
Proof.
  intros Hk. unfold has. destruct (Z.testbit fl k) eqn:Ht.
  - apply negb_true_iff, Z.eqb_neq. intros Hz. apply (f_equal (λ z, Z.testbit z k)) in Hz.
    rewrite Z.land_spec, Ht, Z.pow2_bits_true, Z.bits_0 in Hz by done. done.
  - apply negb_false_iff, Z.eqb_eq. apply Z.bits_inj'. intros n Hn. rewrite Z.land_spec, Z.bits_0.
    destruct (decide (n = k)) as [->|Hne]; [by rewrite Ht|]. rewrite Z.pow2_bits_false by done. apply andb_false_r.
Qed.
Lemma has_union a b f : has (Z.lor a b) f = has a f || has b f.
Proof.
  unfold has. rewrite Z.land_lor_distr_l. destruct (Z.eqb_spec (Z.land a f) 0) as [->|?]; [by rewrite Z.lor_0_l|].
  apply negb_true_iff, Z.eqb_neq. by intros [? _]%Z.lor_eq_0_iff.
Qed.
Lemma has_either fl f g : has fl (Z.lor f g) = has fl f || has fl g.
Proof.
  unfold has. rewrite Z.land_lor_distr_r. destruct (Z.eqb_spec (Z.land fl f) 0) as [->|?]; [by rewrite Z.lor_0_l|].
  apply negb_true_iff, Z.eqb_neq. by intros [? _]%Z.lor_eq_0_iff.
Qed.
Lemma answer_clash name asked fl fam prot c :
  fam = F_IPV4 ∨ fam = F_IPV6 → prot = fam ∨ prot = Z.lor fam F_CNAME → has fl fam = true →
  Forall (λ c, c ≠ 0) name → Forall (λ c, c ≠ 0) asked → Forall (λ c, c ≠ 0) (cache_get_name c) → map fold asked = map fold name →
  name_test asked prot c = true → clash name fl c = true.
Proof.
  intros Hp Hpr Hfl Hn Ha Hc0 Heq. unfold name_test, clash. rewrite !hostname_isequal_fold, Heq by done.
  intros [[-> Hc]%andb_true_iff ->]%andb_true_iff. rewrite andb_true_r. cbn [andb]. apply orb_true_iff. rewrite (has_union _ fl F_CNAME).
  assert (has (flags c) fam = true ∨ has (flags c) F_CNAME = true) as [Hc'|Hc'].
  { destruct Hpr as [->| ->]; [by left|]. rewrite has_either in Hc. by apply orb_true_iff in Hc. }
  2: { right. by rewrite Hc'. }
  clear Hc. rename Hc' into Hc. clear Hpr prot. rename fam into prot. left. apply negb_true_iff, Z.eqb_neq. intros Hz.
  assert (∃ k, 0 ≤ k ∧ prot = 2 ^ k ∧ Z.testbit (Z.lor F_IPV4 F_IPV6) k = true) as (k & Hk & -> & Hb).
  { destruct Hp as [->| ->]; [exists 7|exists 8]; done. }
  rewrite has_bit in * by done. apply (f_equal (λ z, Z.testbit z k)) in Hz. rewrite !Z.land_spec, Hfl, Hc, Hb, Z.bits_0 in Hz. done.
Qed.
End Spec.

(** ** The theorems *)

(** Whatever sequence of operations the cache goes through from cache_init on
    (transactions of insertions with CNAMEs pointed at their targets, abandoned or
    committed, lookups by name and by address, scans, a larger hash table, entries of
    hosts files and leases put in, leases taken out, the flush of a reload), its
    invariant holds: the hash table has a power of two of buckets; the list and the
    chain of new entries have no entry twice and none in common; an entry of the list
    is in use exactly when it is on a hash chain; no new entry is on one yet; and
    every chain holds entries of its own bucket only, none twice, with the reverse
    entries first and the other immortal ones last.  All names stay strings. *)
Theorem cache_reachable_invariant (mix_tab : list Z) (cachesize : nat) (s : cache) :
  reachable mix_tab cachesize s → cinv mix_tab s ∧ strings s.
Proof. apply reachable_inv. Qed.
Definition example_name : text := [119; 119; 119; 46; 97; 46; 98].
Definition example_cache : cache :=
  let s := cache_start_insert (cache_init [] 3) in
  let s := (cache_insert [] true (Some example_name) (Some [10; 0; 0; 1]) 100 60 (Z.lor F_FORWARD F_IPV4) s).2 in
  cache_end_insert [] s.
Lemma example_reachable : reachable [] 3 example_cache.
Proof.
  unfold example_cache. eapply rtc_r; [|apply End_]. eapply rtc_r; [|apply (Insert [] true (Some example_name)); [done|done|]].
  - eapply rtc_r; [apply rtc_refl|apply Start].
  - repeat constructor; done.
Defined.
Lemma cache_reachable_invariant_witness : cinv [] example_cache ∧ strings example_cache.
Proof. apply (cache_reachable_invariant [] 3 example_cache). apply example_reachable. Defined.

(** C10. A lookup by name in a cache that its operations have led to, with the loop
    of its callers that asks for the next answer until there is none, ends and gives a
    list without duplicates.  Every answer is an entry of the cache for the name, in
    any case of its letters, in the forward direction and of the type asked for, that
    has not expired; and every such entry that is not a CNAME is among them.  The
    answers chained from hosts files come first and lead into the list. *)
Theorem cache_find_by_name_spec (mix_tab : list Z) (cachesize : nat) (s : cache) (name : text) (now prot : Z) :
  reachable mix_tab cachesize s → Forall (λ c, c ≠ 0) name →
  ∃ l, NoDup l ∧
    (∀ fuel, (length l < fuel)%nat → answers (cache_find_by_name mix_tab name now prot) fuel None s = l) ∧
    (∀ x, x ∈ l → in_tbl (hash_table s) x ∧ name_matches name prot s x = true ∧ is_expired now (entry s x) = false) ∧
    (∀ x, in_tbl (hash_table s) x → name_matches name prot s x = true → is_expired now (entry s x) = false →
          has (eflags s x) F_CNAME = false → x ∈ l).
Proof.
  intros Hr Hn. destruct (reachable_inv mix_tab cachesize s Hr) as [Hi Hs].
  destruct (find_by_name_ok mix_tab name now prot s Hi Hs Hn) as [l [L1 L2 L3 L4]].
  exists l. split_and!; [done|done|done|]. intros x Ht Hm He Hc. by apply L3.
Qed.
Lemma cache_find_by_name_spec_witness :
  ∃ l, NoDup l ∧
    (∀ fuel, (length l < fuel)%nat → answers (cache_find_by_name [] example_name 150 F_IPV4) fuel None example_cache = l) ∧
    (∀ x, x ∈ l → in_tbl (hash_table example_cache) x ∧ name_matches example_name F_IPV4 example_cache x = true ∧
       is_expired 150 (entry example_cache x) = false) ∧
    (∀ x, in_tbl (hash_table example_cache) x → name_matches example_name F_IPV4 example_cache x = true →
       is_expired 150 (entry example_cache x) = false → has (eflags example_cache x) F_CNAME = false → x ∈ l).
Proof.
  apply (cache_find_by_name_spec [] 3 example_cache example_name 150 F_IPV4); [apply example_reachable|].
  repeat constructor; done.
Defined.

(** an entry that has not come to its end at [now] *)
Definition in_time (now : Z) (c : crec) : Prop := has (flags c) F_IMMORTAL = true ∨ now < ttd c.
(** an entry for the reverse direction, of the type [prot] and with the address [a] *)
Definition names_address (a : list Z) (prot : Z) (c : crec) : Prop :=
  has (flags c) F_REVERSE = true ∧ has (flags c) prot = true ∧
  let n := if decide (prot = F_IPV6) then 16%nat else 4%nat in take n (addr_bytes (addr c)) = take n a.
Lemma in_time_spec now c : in_time now c ↔ is_expired now c = false.
Proof. unfold in_time, is_expired. destruct (has (flags c) F_IMMORTAL); [by split; auto|]. rewrite negb_false_iff, Z.ltb_lt. split; [by intros [?|?]|by right]. Qed.
Lemma names_address_spec a prot s x : names_address a prot (entry s x) ↔ has (eflags s x) F_REVERSE = true ∧ addr_matches a prot s x = true.
Proof.
  unfold names_address, addr_matches, same_addr, addr_len, eflags. rewrite andb_true_iff, bool_decide_eq_true. case_decide as Hp; [subst prot; done|].
  apply Z.eqb_neq in Hp as ->. done.
Qed.
(** C40. A lookup by address sweeps every bucket and gives up on a chain at its first
    entry that is not for the reverse direction; still its answers, in the loop of its
    callers, are, without duplicates, exactly the entries on the chains for the reverse
    direction that have the type asked for, the 4 or, for IPv6, 16 bytes of the address,
    and have not come to their end: they are immortal or it lies in the future. *)
Theorem cache_find_by_addr_spec (mix_tab : list Z) (cachesize : nat) (s : cache) (a : list Z) (now prot : Z) :
  reachable mix_tab cachesize s →
  ∃ l, NoDup l ∧
    (∀ fuel, (length l < fuel)%nat → answers (cache_find_by_addr a now prot) fuel None s = l) ∧
    ∀ x, x ∈ l ↔ in_tbl (hash_table s) x ∧ names_address a prot (entry s x) ∧ in_time now (entry s x).
Proof.
  intros Hr. destruct (reachable_inv mix_tab cachesize s Hr) as [Hi _].
  destruct (find_by_addr_ok mix_tab a now prot s Hi) as [l [L1 L2 L3 L4]]. exists l. split_and!; [done|done|].
  intros x. rewrite names_address_spec, in_time_spec. split.
  - intros Hx. destruct (L2 x Hx) as (? & [? ?]%andb_true_iff & ?). done.
  - intros (Ht & [Hv Hm] & He). apply L3; [done|done|]. apply andb_true_iff. done.
Qed.
(** the name of an address and, behind it on the list of use, an address of a name *)
Definition reverse_cache : cache :=
  cache_end_insert [] (cache_insert [] true (Some example_name) (Some [10; 0; 0; 1]) 100 60 (Z.lor F_REVERSE F_IPV4) (cache_start_insert example_cache)).2.
Lemma reverse_reachable : reachable [] 3 reverse_cache.
Proof.
  unfold reverse_cache. eapply rtc_r; [|apply End_]. eapply rtc_r; [|apply (Insert [] true (Some example_name)); [done|done|]].
  - eapply rtc_r; [apply example_reachable|apply Start].
  - repeat constructor; done.
Qed.
Example reverse_found : answers (cache_find_by_addr [10; 0; 0; 1] 150 F_IPV4) 2 None reverse_cache = [1]%nat.
Proof. by vm_compute. Qed.
Lemma cache_find_by_addr_spec_witness :
  ∃ l, NoDup l ∧
    (∀ fuel, (length l < fuel)%nat → answers (cache_find_by_addr [10; 0; 0; 1] 150 F_IPV4) fuel None reverse_cache = l) ∧
    ∀ x, x ∈ l ↔ in_tbl (hash_table reverse_cache) x ∧ names_address [10; 0; 0; 1] F_IPV4 (entry reverse_cache x) ∧ in_time 150 (entry reverse_cache x).
Proof. apply (cache_find_by_addr_spec [] 3 reverse_cache [10; 0; 0; 1] 150 F_IPV4). apply reverse_reachable. Defined.

(** The name may be asked for in any case of its letters, and with CNAMEs allowed. *)
Lemma insert_ask (mix_tab : list Z) (cachesize : nat) (s s1 : cache) (room : bool) (name asked : text) (a : list Z)
    (now ttl fl now' fam prot : Z) (new fuel : nat) :
  reachable mix_tab cachesize s → Forall (λ c, c ≠ 0) name → Forall (λ c, c ≠ 0) asked → map fold asked = map fold name →
  immune fl = false → has fl F_FORWARD = true → has fl F_CNAME = false →
  fam = F_IPV4 ∨ fam = F_IPV6 → prot = fam ∨ prot = Z.lor fam F_CNAME → has fl fam = true →
  cache_insert mix_tab room (Some name) (Some a) now ttl fl (cache_start_insert s) = (Some new, s1) →
  now' < now + ttl → (1 < fuel)%nat →
  answers (cache_find_by_name mix_tab asked now' prot) fuel None (cache_end_insert mix_tab s1) = [new] ∧
  (∃ u f, entry (cache_end_insert mix_tab s1) new = mk_crec (now + ttl) u (Addr a) f name None ∧
     ∀ g, Z.land g F_CONFIG = 0 → Z.land F_BIGNAME g = 0 → has f g = has fl g) ∧
  in_tbl (hash_table (cache_end_insert mix_tab s1)) new.
Proof.
  intros Hr Hn Hasked Heq Himm HF HC Hp Hpr Hfp Hins Hnow Hfuel.
  assert (Hr1 : reachable mix_tab cachesize s1 ∧ reachable mix_tab cachesize (cache_start_insert s)).
  { assert (Hst : reachable mix_tab cachesize (cache_start_insert s)) by (eapply rtc_r; [exact Hr|apply Start]). split; [|done].
    replace s1 with (cache_insert mix_tab room (Some name) (Some a) now ttl fl (cache_start_insert s)).2 by (by rewrite Hins).
    eapply rtc_r; [exact Hst|apply Insert; [done| |done]]. unfold FR. apply has_true. apply has_true in HF.
    rewrite Z.land_lor_distr_r. intros [? _]%Z.lor_eq_0_iff. done. }
  destruct Hr1 as [Hr1 Hst]. assert (Hr2 : reachable mix_tab cachesize (cache_end_insert mix_tab s1)) by (eapply rtc_r; [exact Hr1|apply End_]).
  destruct (reachable_inv _ _ _ Hst) as [Hi0 Hs0]. destruct (reachable_inv _ _ _ Hr1) as [Hi1 _]. destruct (reachable_inv _ _ _ Hr2) as [Hi2 Hs2].
  destruct (cache_insert_some mix_tab room name a now ttl fl _ new s1 Hi0 Hs0 Hn HF Hins) as (He & Hnew & Hnc & u & f & Hent & Hf).
  destruct (start_clean s) as [Hn0 He0]. rewrite Hn0 in Hnew. rewrite He0 in He.
  assert (Hhas : ∀ g, Z.land g F_CONFIG = 0 → Z.land F_BIGNAME g = 0 → has f g = has fl g).
  { intros g G1 G2. destruct Hf as [->| ->]; [|rewrite has_lor_l by done]; by apply has_clear_ne. }
  assert (Hg : Z.land fam F_CONFIG = 0 ∧ Z.land F_BIGNAME fam = 0) by (destruct Hp as [->| ->]; done).
  assert (Hnt : name_test asked prot (entry s1 new) = true).
  { rewrite Hent. unfold name_test. cbn [flags cache_get_name cname]. rewrite (Hhas F_FORWARD eq_refl eq_refl), HF.
    assert (has f prot = true) as ->.
    { destruct Hpr as [->| ->]; rewrite ?has_either, (Hhas fam (proj1 Hg) (proj2 Hg)), Hfp; done. }
    cbn [andb]. rewrite hostname_isequal_fold, Heq by done. by apply bool_decide_eq_true. }
  destruct (commit_one mix_tab s1 new Hi1 He Hnew) as [Hmem Hsame]; [unfold eflags; rewrite Hent; cbn [flags]; by rewrite Hhas|].
  destruct (find_by_name_ok mix_tab asked now' prot _ Hi2 Hs2 Hasked) as [l [L1 L2 L3 L4]]. rewrite Hsame, Hent. split; [|split; [by exists u, f|apply Hmem; by left]].
  assert (Hl : ∀ x, x ∈ l ↔ x = new).
  { intros x. split.
    - intros (Ht & Hm & _)%L2. apply Hmem in Ht as [?|Ht]; [done|]. rewrite Hsame in Hm. specialize (Hnc x Ht).
      rewrite (answer_clash name asked _ fam prot) in Hnc; [done|done|done| |done|done| |done|done]; [by rewrite has_clear_ne by apply Hg|].
      rewrite <- Hsame. apply Hs2.
    - intros ->. apply L3; [apply Hmem; by left| |by rewrite Hsame]. rewrite Hsame, Hent. split; cbn [flags]; [|by rewrite Hhas].
      unfold is_expired. cbn [flags ttd]. case_match; [done|]. by apply negb_false_iff, Z.ltb_lt. }
  assert (l = [new]) as ->; [|by apply L4]. apply Permutation_singleton_r, NoDup_Permutation; [done|apply NoDup_singleton|].
  intros x. by rewrite Hl, list_elem_of_singleton.
Qed.

Lemma insert_lookup (mix_tab : list Z) (cachesize : nat) (s s1 : cache) (room : bool) (name : text) (a : list Z)
    (now ttl fl now' prot : Z) (new fuel : nat) :
  reachable mix_tab cachesize s → Forall (λ c, c ≠ 0) name →
  immune fl = false → has fl F_FORWARD = true → has fl F_CNAME = false →
  prot = F_IPV4 ∨ prot = F_IPV6 → has fl prot = true →
  cache_insert mix_tab room (Some name) (Some a) now ttl fl (cache_start_insert s) = (Some new, s1) →
  now' < now + ttl → (1 < fuel)%nat →
  answers (cache_find_by_name mix_tab name now' prot) fuel None (cache_end_insert mix_tab s1) = [new] ∧
  addr (entry (cache_end_insert mix_tab s1) new) = Addr a.
Proof.
  intros. destruct (insert_ask mix_tab cachesize s s1 room name name a now ttl fl now' prot prot new fuel) as (? & (u & f & -> & _) & _); by auto.
Qed.

(** C11. Insert, then look up.  In a cache that its operations have led to, start a
    transaction, insert an address for a name in the forward direction, and commit; if
    the insertion found an entry for it then, until its time to live is over, the loop
    of a caller over the answers for the name and the type gives that entry and nothing
    else, with the address: whatever the cache knew before of the name is gone, and
    the new entry is not lost however full the cache was. *)
Theorem insert_then_lookup (mix_tab : list Z) (cachesize : nat) (s s1 : cache) (room : bool) (name : text) (a : list Z)
    (now ttl fl now' prot : Z) (new fuel : nat) :
  reachable mix_tab cachesize s → Forall (λ c, c ≠ 0) name →
  immune fl = false → has fl F_FORWARD = true → has fl F_CNAME = false →
  prot = F_IPV4 ∨ prot = F_IPV6 → has fl prot = true →
  cache_insert mix_tab room (Some name) (Some a) now ttl fl (cache_start_insert s) = (Some new, s1) →
  now' < now + ttl → (1 < fuel)%nat →
  answers (cache_find_by_name mix_tab name now' prot) fuel None (cache_end_insert mix_tab s1) = [new] ∧
  addr (entry (cache_end_insert mix_tab s1) new) = Addr a.
Proof. apply insert_lookup. Qed.
Lemma insert_then_lookup_witness :
  let r := cache_insert [] true (Some example_name) (Some [10; 0; 0; 2]) 150 60 (Z.lor F_FORWARD F_IPV4) (cache_start_insert example_cache) in
  answers (cache_find_by_name [] example_name 200 F_IPV4) 5 None (cache_end_insert [] r.2) = [0]%nat ∧
  addr (entry (cache_end_insert [] r.2) 0) = Addr [10; 0; 0; 2].
Proof.
  cbv zeta. eapply (insert_then_lookup [] 3 example_cache _ true example_name [10; 0; 0; 2] 150 60 (Z.lor F_FORWARD F_IPV4) 200 F_IPV4 0 5);
    [apply example_reachable|repeat constructor; done|done|done|done|by left|done|by vm_compute|lia|lia].
Defined.
End DnsCacheSpec.
