(* ===== verification/DnsCacheRoom.v ===== *)
(** * Room for a new entry (src/external/dnsmasq/src/cache.c)

    When cache_insert takes an entry: the scans put what they free at the end of the
    list, the loop of cache_insert finds it there, or makes the entry that is there
    free. *)
From stdpp Require Import gmap sorting.
From S2P Require Import Prelude Runtime DriverRt DnsUtil DnsName DnsMsg DnsCache DnsCacheInv DnsCacheSpec.
Import DnsUtil DnsMsg DnsCache DnsCacheInv DnsCacheSpec.

Module DnsCacheRoom.
Lemma free_table x s : hash_table (cache_free x (unlink x s)) = hash_table s.
Proof. unfold cache_free. by destruct (has _ F_BIGNAME). Qed.
Lemma scan_name_table name now fl chain s : hash_table (scan_name chain name now fl s).2 = hash_table s.
Proof.
  revert s. induction chain as [|y chain IH]; intros s; cbn [scan_name]; [done|].
  destruct (_ || _); [by rewrite IH, drop_table|]. destruct (_ && _ && _).
  - destruct (immune _); [done|]. by rewrite IH, free_table.
  - specialize (IH s). by destruct (scan_name chain name now fl s) as [[ok kept] s'].
Qed.
Lemma scan_addr_table a now fl chain s : hash_table (scan_addr chain a now fl s).2 = hash_table s.
Proof.
  revert s. induction chain as [|y chain IH]; intros s; cbn [scan_addr]; [done|].
  destruct (negb _ && _); [done|]. destruct (is_expired _ _); [by rewrite IH, drop_table|]. destruct (_ && _ && _).
  - by rewrite IH, free_table.
  - specialize (IH s). by destruct (scan_addr chain a now fl s) as [kept s'].
Qed.

Section Room.
Context (mix_tab : list Z).
Abbreviation cinv := (cinv mix_tab).

(** ** What the scans free *)
Definition tail_free (s : cache) : Prop := ∃ x, last (lru s) = Some x ∧ unused s x.
(** nothing changed in the list, or its end is free; the memory for long names only grows *)
Definition frees (s s' : cache) : Prop :=
  (lru s' = lru s ∧ heap s' = heap s ∨ tail_free s') ∧ (big_free s ≤ big_free s')%nat ∧ bignames_left s' = bignames_left s.
Lemma tail_free_same s s' : lru s' = lru s → heap s' = heap s → tail_free s → tail_free s'.
Proof. intros Hl Hh (x & Hx & Hu). exists x. unfold unused, eflags, entry in *. by rewrite Hl, Hh. Qed.
Lemma frees_refl s : frees s s.
Proof. split; [by left|done]. Qed.
Lemma frees_trans s1 s2 s3 : frees s1 s2 → frees s2 s3 → frees s1 s3.
Proof.
  intros (A1 & A2 & A3) (B1 & B2 & B3). split; [|split; [lia|congruence]]. destruct B1 as [[B4 B5]|B1]; [|by right].
  destruct A1 as [[A4 A5]|A1]; [left; split; congruence|right; by eapply tail_free_same].
Qed.
Lemma frees_tail s s' : frees s s' → tail_free s → tail_free s'.
Proof. intros ([[Hl Hh]|Ht] & _) Hs; [by eapply tail_free_same|done]. Qed.
Lemma frees_chain s s' b ch : frees s s' → frees s (set_chain b ch s').
Proof. done. Qed.
Lemma free_frees x s : tail_free (cache_free x s) ∧ (big_free s ≤ big_free (cache_free x s))%nat ∧ bignames_left (cache_free x s) = bignames_left s.
Proof.
  split.
  - destruct (cache_free_facts x s) as (Hl & _ & _ & _ & _ & Hf & _). exists x. rewrite Hl, last_snoc. split; [done|].
    unfold unused. rewrite Hf. apply freed_unused.
  - unfold cache_free. destruct (has _ F_BIGNAME); cbn; lia.
Qed.
Lemma drop_plain x s : immune (eflags s x) = false → tail_free (drop_entry x s).
Proof. intros Hi. rewrite <- not_immune_drop by done. apply free_frees. Qed.
Lemma drop_frees x s : frees s (drop_entry x s).
Proof.
  unfold drop_entry. destruct (immune _); cbn [negb]; [apply frees_refl|]. destruct (free_frees x (unlink x s)) as (H1 & H2 & H3).
  split; [by right|done].
Qed.
Lemma scan_name_frees name now fl chain s : frees s (scan_name chain name now fl s).2.
Proof.
  revert s. induction chain as [|y chain IH]; intros s; cbn [scan_name]; [apply frees_refl|].
  destruct (_ || _); [eapply frees_trans, IH; apply drop_frees|]. destruct (_ && _ && _).
  - destruct (immune (eflags s y)) eqn:Hy; [apply frees_refl|]. rewrite not_immune_drop by done. eapply frees_trans, IH. apply drop_frees.
  - specialize (IH s). by destruct (scan_name chain name now fl s) as [[ok kept] s'].
Qed.
Lemma scan_addr_frees a now fl chain s : frees s (scan_addr chain a now fl s).2.
Proof.
  revert s. induction chain as [|y chain IH]; intros s; cbn [scan_addr]; [apply frees_refl|].
  destruct (negb _ && _); [apply frees_refl|]. destruct (is_expired _ _); [eapply frees_trans, IH; apply drop_frees|].
  destruct (immune (eflags s y)) eqn:Hy; cbn [negb andb]; [specialize (IH s); by destruct (scan_addr chain a now fl s) as [kept s']|].
  destruct (_ && _ && _); [rewrite not_immune_drop by done; eapply frees_trans, IH; apply drop_frees|].
  specialize (IH s). by destruct (scan_addr chain a now fl s) as [kept s'].
Qed.
Lemma scan_buckets_frees a now fl n : ∀ i s, frees s (scan_buckets n i a now fl s).
Proof.
  induction n as [|n IH]; intros i s; cbn [scan_buckets]; [apply frees_refl|].
  pose proof (scan_addr_frees a now fl (nth i (hash_table s) []) s) as Hf. destruct (scan_addr _ a now fl s) as [kept s'].
  eapply frees_trans, IH. by apply frees_chain.
Qed.
Lemma cache_scan_free_frees name a now fl s : frees s (cache_scan_free mix_tab name a now fl s).2.
Proof.
  unfold cache_scan_free. destruct (has fl F_FORWARD); [|apply scan_buckets_frees].
  pose proof (scan_name_frees name now fl (nth (hash_bucket mix_tab (hash_size s) name) (hash_table s) []) s) as Hf.
  destruct (scan_name _ name now fl s) as [[ok kept] s']. by apply frees_chain.
Qed.

(** ** A scan by name succeeds when no hosts file and no lease has the name *)
Definition unclaimed (name : text) (s : cache) : Prop :=
  ∀ y, in_tbl (hash_table s) y → immune (eflags s y) = true → hostname_isequal (cache_get_name (entry s y)) name = false.
Definition unclaimed_b (name : text) (s : cache) : bool :=
  forallb (λ y, negb (immune (eflags s y)) || negb (hostname_isequal (cache_get_name (entry s y)) name)) (concat (hash_table s)).
Lemma unclaimed_ok name s : unclaimed_b name s = true → unclaimed name s.
Proof.
  unfold unclaimed_b. rewrite List.forallb_forall. intros H y Hy%in_tbl_concat%list_elem_of_In Hi. specialize (H y Hy). rewrite Hi in H.
  by apply negb_true_iff in H.
Qed.
Lemma scan_name_ok name now fl chain s :
  (∀ y, y ∈ chain → immune (eflags s y) = true → hostname_isequal (cache_get_name (entry s y)) name = false) →
  (scan_name chain name now fl s).1.1 = true.
Proof.
  revert s. induction chain as [|y chain IH]; intros s Hun; cbn [scan_name]; [done|].
  assert (Hdrop : (scan_name chain name now fl (drop_entry y s)).1.1 = true).
  { apply IH. intros z Hz. unfold drop_entry. destruct (immune (eflags s y)) eqn:Hy; cbn [negb]; [apply Hun; by constructor|].
    destruct (cache_free_facts y (unlink y s)) as (_ & _ & _ & _ & He & Hf & _). destruct (decide (z = y)) as [->|Hne].
    - rewrite Hf. change (eflags (unlink y s) y) with (eflags s y). by rewrite freed_plain.
    - unfold eflags. rewrite He by done. apply Hun. by constructor. }
  destruct (_ || _); [done|]. destruct (_ && _ && _) eqn:Hcl.
  - destruct (immune (eflags s y)) eqn:Hy; [|by rewrite not_immune_drop].
    rewrite (Hun y) in Hcl; [|by constructor|done]. by rewrite andb_false_r in Hcl.
  - specialize (IH s (λ z Hz, Hun z ltac:(by constructor))). by destruct (scan_name chain name now fl s) as [[ok kept] s'].
Qed.
Lemma scan_free_ok name a now fl s : cinv s → unclaimed name s → (cache_scan_free mix_tab name a now fl s).1 = true.
Proof.
  intros Hi Hun. unfold cache_scan_free. destruct (has fl F_FORWARD); [|done]. set (b := hash_bucket mix_tab (hash_size s) name).
  assert (Hb : (b < hash_size s)%nat) by (apply bucket_lt, (inv_size _ _ _ Hi)).
  pose proof (scan_name_ok name now fl (nth b (hash_table s) []) s) as Hok. destruct (scan_name _ name now fl s) as [[ok kept] s'].
  apply Hok. intros y Hy. apply Hun. exists b, (nth b (hash_table s) []). split; [by apply nth_chain|done].
Qed.

(** ** A scan by address takes what has expired and what is for the address *)
Definition goes (a : list Z) (now fl : Z) (c : crec) : Prop :=
  is_expired now c = true ∨
  has (Z.land fl (flags c)) F_REVERSE && negb (Z.land (Z.land fl (flags c)) (Z.lor F_IPV4 F_IPV6) =? 0) &&
  same_addr (if has fl F_IPV6 then 16 else 4) (addr c) a = true.
Definition in_reach (fl : Z) : Prop := negb (has fl F_REVERSE) && has fl F_IMMORTAL = false.
Lemma reach_before s x y : before s y x → in_reach (eflags s x) → in_reach (eflags s y).
Proof.
  unfold before, rank, in_reach. destruct (has (eflags s x) F_REVERSE), (has (eflags s x) F_IMMORTAL), (has (eflags s y) F_REVERSE),
    (has (eflags s y) F_IMMORTAL); cbn; done || lia.
Qed.
Lemma scan_addr_takes a now fl x chain s :
  StronglySorted (before s) chain → x ∈ chain → immune (eflags s x) = false → in_reach (eflags s x) → goes a now fl (entry s x) →
  tail_free (scan_addr chain a now fl s).2.
Proof.
  induction chain as [|y chain IH]; intros Hs Hin Himm Hr Hg; [by apply not_elem_of_nil in Hin|]. cbn [scan_addr].
  apply StronglySorted_inv in Hs as [Hs Hy].
  assert (Hry : in_reach (eflags s y)).
  { apply elem_of_cons in Hin as [->|Hin]; [done|]. rewrite Forall_forall in Hy. by eapply reach_before; [apply Hy|]. }
  unfold in_reach in Hry. rewrite Hry.
  assert (Hplain : immune (eflags s y) = false → tail_free (scan_addr chain a now fl (drop_entry y s)).2).
  { intros H. eapply frees_tail; [apply scan_addr_frees|]. by apply drop_plain. }
  assert (Hnext : x ≠ y → tail_free (scan_addr chain a now fl s).2).
  { intros Hne. apply IH; try done. by apply elem_of_cons in Hin as [->|?]. }
  destruct (decide (x = y)) as [->|Hne].
  - destruct Hg as [Hg|Hg]; [rewrite Hg; by apply Hplain|]. destruct (is_expired _ _); [by apply Hplain|].
    rewrite Himm. cbn [negb andb]. change (flags (entry s y)) with (eflags s y) in Hg. rewrite Hg, not_immune_drop by done. by apply Hplain.
  - specialize (Hnext Hne). destruct (immune (eflags s y)) eqn:Hyi.
    + assert (Hd : drop_entry y s = s) by (unfold drop_entry; by rewrite Hyi). destruct (is_expired _ _); [by rewrite Hd|]. cbn [negb andb].
      by destruct (scan_addr chain a now fl s) as [kept s'].
    + destruct (is_expired _ _); [by apply Hplain|]. cbn [negb andb]. destruct (_ && _ && _); [rewrite not_immune_drop by done; by apply Hplain|].
      by destruct (scan_addr chain a now fl s) as [kept s'].
Qed.
Lemma scan_buckets_takes a now fl x j ch n : ∀ i s,
  hash_table s !! j = Some ch → (i ≤ j < i + n)%nat → StronglySorted (before s) ch → x ∈ ch →
  immune (eflags s x) = false → in_reach (eflags s x) → goes a now fl (entry s x) → tail_free (scan_buckets n i a now fl s).
Proof.
  induction n as [|n IH]; intros i s Hj Hij Hs Hin Himm Hr Hg; [lia|]. cbn [scan_buckets].
  destruct (decide (i = j)) as [->|Hne].
  - pose proof (scan_addr_takes a now fl x ch s Hs Hin Himm Hr Hg) as Ht. rewrite (nth_lookup_Some _ _ _ _ Hj).
    destruct (scan_addr ch a now fl s) as [kept s']. eapply frees_tail; [apply scan_buckets_frees|exact Ht].
  - pose proof (scan_addr_frees a now fl (nth i (hash_table s) []) s) as (Hf & _). pose proof (scan_addr_table a now fl (nth i (hash_table s) []) s) as Ht.
    destruct (scan_addr _ a now fl s) as [kept s']. cbn [snd] in *. destruct Hf as [[Hl Hh]|Hf]; [|eapply frees_tail; [apply scan_buckets_frees|exact Hf]].
    assert (He : ∀ y, entry (set_chain i kept s') y = entry s y) by (intros y; unfold entry; cbn; by rewrite Hh).
    apply IH; unfold eflags; rewrite ?He; try done; [|lia|].
    + cbn. rewrite list_lookup_insert_ne by done. by rewrite Ht.
    + clear - Hs He. induction Hs as [|y l _ IH Hy]; constructor; [done|]. eapply Forall_impl; [exact Hy|]. intros z. unfold before, eflags. by rewrite !He.
Qed.

(** ** The end of the list *)

(** An entry that the loop of cache_insert can take or make free: not in use, expired, for
    a name that no hosts file and no lease has, or for the reverse direction. *)
Definition evictable (now : Z) (s : cache) (x : nat) : Prop :=
  has (eflags s x) FR = false ∨ is_expired now (entry s x) = true ∨
  (has (eflags s x) F_FORWARD = true ∧ has (eflags s x) (Z.lor (Z.lor F_IPV4 F_IPV6) F_CNAME) = true ∧ unclaimed (cache_get_name (entry s x)) s) ∨
  (has (eflags s x) F_FORWARD = false ∧ has (eflags s x) (Z.lor F_IPV4 F_IPV6) = true).
Lemma lru_reach s x : cinv s → x ∈ lru s → has (eflags s x) FR = true →
  immune (eflags s x) = false ∧ ∃ j ch, hash_table s !! j = Some ch ∧ x ∈ ch ∧ (j < hash_size s)%nat ∧ StronglySorted (before s) ch.
Proof.
  intros Hi Hx Hu. split; [apply (inv_plain _ _ _ Hi), elem_of_app; by left|]. apply (inv_used _ _ _ Hi x Hx) in Hu as (j & ch & Hj & Hin).
  exists j, ch. split_and!; [done|done|by eapply lookup_lt_Some|by apply (chain_order _ _ _ _ (inv_chains _ _ _ Hi j ch Hj))].
Qed.
Lemma sweep_takes a now fl s x :
  cinv s → x ∈ lru s → has (eflags s x) FR = true → has fl F_FORWARD = false → in_reach (eflags s x) → goes a now fl (entry s x) →
  ∀ name, tail_free (cache_scan_free mix_tab name a now fl s).2.
Proof.
  intros Hi Hx Hu HF Hr Hg name. destruct (lru_reach s x Hi Hx Hu) as (Himm & j & ch & Hj & Hin & Hlt & Hs).
  unfold cache_scan_free. rewrite HF. cbn [snd]. eapply (scan_buckets_takes _ _ _ x j ch); [done|lia|done..].
Qed.
Lemma expired_reach now s x : is_expired now (entry s x) = true → in_reach (eflags s x).
Proof. unfold is_expired, in_reach, eflags. destruct (has _ F_IMMORTAL); [done|]. by rewrite andb_false_r. Qed.
Lemma own_clash s x : strings s → has (eflags s x) F_FORWARD = true → has (eflags s x) (Z.lor (Z.lor F_IPV4 F_IPV6) F_CNAME) = true →
  clash (cache_get_name (entry s x)) (eflags s x) (entry s x) = true.
Proof.
  intros Hs HF Hk. unfold clash. change (flags (entry s x)) with (eflags s x). rewrite HF, Z.land_diag, Z.lor_diag.
  rewrite has_either in Hk. change (negb (Z.land (eflags s x) (Z.lor F_IPV4 F_IPV6) =? 0)) with (has (eflags s x) (Z.lor F_IPV4 F_IPV6)). rewrite Hk.
  rewrite hostname_isequal_fold by apply Hs. by rewrite bool_decide_eq_true_2.
Qed.
(** the second scan of the loop takes the entry itself *)
Lemma evicted now s x :
  cinv s → strings s → x ∈ lru s → has (eflags s x) FR = true → is_expired now (entry s x) = false → evictable now s x →
  tail_free (cache_scan_free mix_tab (cache_get_name (entry s x)) (addr_bytes (addr (entry s x))) now (eflags s x) s).2.
Proof.
  intros Hi Hs Hx Hu He Hev. set (name := cache_get_name (entry s x)). set (a := addr_bytes (addr (entry s x))).
  destruct Hev as [?|[?|[(HF & Hk & Hun)|[HF Hk]]]]; [congruence|congruence| |].
  - destruct (cache_scan_free_frees name a now (eflags s x) s) as [[[Hl Hh]|?] _]; [exfalso|done].
    pose proof (scan_free_ok name a now (eflags s x) s Hi Hun) as Hok. destruct (cache_scan_free_inv mix_tab name a now (eflags s x) s Hi) as [Hi' _].
    pose proof (cache_scan_free_clean mix_tab name (eflags s x) a now s Hi Hs ltac:(apply Hs) HF) as Hc.
    destruct (cache_scan_free mix_tab name a now (eflags s x) s) as [ok s']. cbn [fst snd] in *. specialize (Hc Hok).
    assert (Hent : entry s' x = entry s x) by (unfold entry; by rewrite Hh). assert (Hin : in_tbl (hash_table s') x).
    { apply (inv_used _ _ _ Hi' x); [by rewrite Hl|]. unfold eflags. by rewrite Hent. }
    specialize (Hc x Hin). rewrite Hent in Hc. unfold name in Hc. by rewrite own_clash in Hc.
  - assert (HR : has (eflags s x) F_REVERSE = true) by (unfold FR in Hu; by rewrite has_either, HF in Hu).
    eapply (sweep_takes _ _ _ s x); [done..| |]; [unfold in_reach; by rewrite HR|right].
    change (flags (entry s x)) with (eflags s x). rewrite Z.land_diag, HR.
    change (negb (Z.land (eflags s x) (Z.lor F_IPV4 F_IPV6) =? 0)) with (has (eflags s x) (Z.lor F_IPV4 F_IPV6)). rewrite Hk.
    unfold same_addr. by rewrite bool_decide_eq_true_2.
Qed.

(** ** The loop of cache_insert *)

(** memory for the name, when it is a long one *)
Definition name_room (room : bool) (name : text) (s : cache) : Prop :=
  (length name < SMALLDNAME)%nat ∨ (0 < big_free s)%nat ∨ bignames_left s ≠ 0 ∧ room = true.
Lemma name_room_frees room name s s' : frees s s' → name_room room name s → name_room room name s'.
Proof. intros (_ & Hb & Hl) [?|[?|?]]; [by left|right; left; lia|right; right; by rewrite Hl]. Qed.
Lemma take_bigname_room room name s : name_room room name s → take_bigname room name s ≠ None.
Proof.
  unfold name_room, take_bigname. intros H. destruct (Nat.ltb_spec (SMALLDNAME - 1) (length name)); [|done].
  destruct (Nat.ltb_spec 0 (big_free s)); [done|]. destruct H as [?|[?|[Hl ->]]]; [unfold SMALLDNAME in *; lia|lia|].
  apply Z.eqb_neq in Hl as ->. done.
Qed.
Lemma grab_tail fuel room name now fa av s : tail_free s → name_room room name s → (grab mix_tab (S fuel) room name now fa av s).1 ≠ None.
Proof.
  intros (x & Hx & Hu) Hr%take_bigname_room. cbn [grab]. rewrite Hx. unfold unused, FR in Hu. change (flags (entry s x)) with (eflags s x). rewrite Hu.
  by destruct (take_bigname room name s) as [[big s']|].
Qed.
(** one turn, with an entry in use at the end *)
Lemma grab_sweep fuel room name now s x : last (lru s) = Some x → has (eflags s x) FR = true →
  grab mix_tab (S fuel) room name now false false s = grab mix_tab fuel room name now true false (cache_scan_free mix_tab [] [] now 0 s).2.
Proof. intros Hx Hu. cbn [grab]. rewrite Hx. change (flags (entry s x)) with (eflags s x). unfold FR in Hu. by rewrite Hu. Qed.
Lemma grab_evict fuel room name now s x : last (lru s) = Some x → has (eflags s x) FR = true →
  let s' := (cache_scan_free mix_tab (cache_get_name (entry s x)) (addr_bytes (addr (entry s x))) now (eflags s x) s).2 in
  grab mix_tab (S fuel) room name now true false s = grab mix_tab fuel room name now true true (set_counts (cache_inserted s') (cache_live_freed s' + 1) s').
Proof. intros Hx Hu. cbn [grab]. rewrite Hx. change (flags (entry s x)) with (eflags s x). unfold FR in Hu. by rewrite Hu. Qed.
Lemma counts_frees s i f : frees s (set_counts i f s).
Proof. split; [by left|done]. Qed.
Lemma last_lru s x : last (lru s) = Some x → x ∈ lru s.
Proof. intros (l & ->)%last_Some. apply elem_of_app. right. by constructor. Qed.
Lemma evictable_same now s s' x :
  wframe s s' → heap s' = heap s → evictable now s x → evictable now s' x.
Proof.
  intros Hw Hh Hev. assert (He : ∀ y, entry s' y = entry s y) by (intros y; unfold entry; by rewrite Hh).
  unfold evictable, eflags in *. rewrite !He. destruct Hev as [?|[?|[(H1 & H2 & H3)|?]]]; [tauto|tauto| |tauto].
  right. right. left. split_and!; [done|done|]. intros y Hy. unfold eflags. rewrite He. apply H3. by apply (wf_sub _ _ Hw).
Qed.
Lemma grab_succeeds room name now s :
  cinv s → strings s → name_room room name s → (∃ x, last (lru s) = Some x ∧ evictable now s x) →
  (grab mix_tab 4 room name now false false s).1 ≠ None.
Proof.
  intros Hi Hs Hr (x & Hx & Hev). destruct (has (eflags s x) FR) eqn:Hu; [|apply grab_tail; [by exists x|done]].
  pose proof (last_lru s x Hx) as Hin. rewrite (grab_sweep 3 _ _ _ _ x) by done.
  pose proof (cache_scan_free_frees [] [] now 0 s) as Hf. destruct (cache_scan_free_inv mix_tab [] [] now 0 s Hi) as [H1 Hw].
  assert (Hex : is_expired now (entry s x) = true → tail_free (cache_scan_free mix_tab [] [] now 0 s).2).
  { intros He. apply (sweep_takes [] now 0 s x); [done..|by eapply expired_reach|by left]. }
  set (s1 := (cache_scan_free mix_tab [] [] now 0 s).2) in *. clearbody s1. pose proof (name_room_frees _ _ _ _ Hf Hr) as Hr1.
  pose proof Hf as ([[Hl Hh]|Ht] & _); [|by apply grab_tail].
  destruct (is_expired now (entry s x)) eqn:He; [apply grab_tail; [by apply Hex|done]|].
  assert (Hent : entry s1 x = entry s x) by (unfold entry; by rewrite Hh).
  assert (Hs1 : strings s1) by (by eapply names_strings; [exact (wf_name _ _ Hw)|]).
  assert (Hu1 : has (eflags s1 x) FR = true) by (unfold eflags; by rewrite Hent).
  rewrite (grab_evict 2 _ _ _ _ x) by (done || by rewrite Hl). apply grab_tail.
  - eapply frees_tail; [apply counts_frees|]. apply evicted; [done|done|by rewrite Hl|done|by rewrite Hent|by eapply evictable_same].
  - eapply name_room_frees; [apply counts_frees|]. eapply name_room_frees; [apply cache_scan_free_frees|done].
Qed.

(** ** A new entry for an address is taken *)

(** cache_start_insert frees what an abandoned transaction left *)
Lemma start_frees s : frees s (cache_start_insert s).
Proof.
  unfold cache_start_insert. assert (Hf : ∀ l s, frees s (foldl (λ s id, cache_free id s) s l)).
  { induction l as [|x l IH]; intros s0; cbn [foldl]; [apply frees_refl|]. eapply frees_trans, IH.
    destruct (free_frees x s0) as (H1 & H2 & H3). split; [by right|done]. }
  eapply frees_trans; [apply Hf|]. split; [by left|done].
Qed.
Lemma start_others s : cinv s → hash_table (cache_start_insert s) = hash_table s ∧
  ∀ y, immune (eflags (cache_start_insert s) y) = true → entry (cache_start_insert s) y = entry s y.
Proof.
  intros Hi. assert (Hf : ∀ l s0, (∀ y, y ∈ l → immune (eflags s0 y) = false) →
    let s1 := foldl (λ s id, cache_free id s) s0 l in hash_table s1 = hash_table s0 ∧ ∀ y, immune (eflags s1 y) = true → entry s1 y = entry s0 y).
  { induction l as [|x l IH]; intros s0 Hp; cbn [foldl]; [done|]. destruct (cache_free_facts x s0) as (_ & _ & Ht & _ & He & Hf & _).
    assert (Hx : immune (eflags (cache_free x s0) x) = false) by (rewrite Hf; apply freed_plain, Hp; by constructor).
    destruct (IH (cache_free x s0)) as [H1 H2].
    { intros y Hy. destruct (decide (y = x)) as [->|Hne]; [done|]. unfold eflags. rewrite He by done. apply Hp. by constructor. }
    split; [congruence|]. intros y Hy. rewrite (H2 y Hy). apply He. intros ->. unfold eflags in Hy. rewrite (H2 x Hy) in Hy. unfold eflags in Hx. congruence. }
  destruct (Hf (new_chain s) s) as [H1 H2]; [intros y Hy; apply (inv_plain _ _ _ Hi), elem_of_app; by right|]. by split.
Qed.

(** Inserting a name into a cache for which no hosts file and no lease has it, with memory
    for a long name and an entry at the end of the list that can be taken, succeeds. *)
Lemma cache_insert_succeeds room name a now ttl fl s :
  cinv s → strings s → Forall (λ c, c ≠ 0) name → has fl F_REVERSE = false →
  unclaimed name s → name_room room name s → (∃ x, last (lru s) = Some x ∧ evictable now s x) →
  ∃ new s1, cache_insert mix_tab room (Some name) (Some a) now ttl fl (cache_start_insert s) = (Some new, s1).
Proof.
  intros Hi Hs Hn HR Hun Hroom (x & Hx & Hev).
  assert (Hi0 : cinv (cache_start_insert s)) by (by apply cache_start_insert_inv).
  assert (Hs0 : strings (cache_start_insert s)) by (by eapply names_strings; [apply start_names|]).
  destruct (start_others s Hi) as [Ht0 He0]. pose proof (start_frees s) as Hf0. destruct (start_clean s) as [Hnc Herr].
  assert (Hsame : lru (cache_start_insert s) = lru s ∧ heap (cache_start_insert s) = heap s ∨ tail_free (cache_start_insert s)) by apply Hf0.
  set (s0 := cache_start_insert s) in *. clearbody s0. pose proof (name_room_frees _ _ _ _ Hf0 Hroom) as Hr0.
  assert (Hun' : ∀ t, unclaimed t s → unclaimed t s0).
  { intros t Ht y Hy Hyi. rewrite (He0 y Hyi). apply Ht; [by rewrite <- Ht0|]. unfold eflags in *. by rewrite <- (He0 y Hyi). }
  assert (Hev0 : tail_free s0 ∨ ∃ x, last (lru s0) = Some x ∧ evictable now s0 x).
  { destruct Hsame as [[Hl Hh]|?]; [right|by left]. exists x. rewrite Hl. split; [done|].
    assert (He : entry s0 x = entry s x) by (unfold entry; by rewrite Hh). unfold evictable, eflags in *. rewrite He.
    destruct Hev as [?|[?|[(? & ? & ?)|?]]]; [tauto|tauto| |tauto]. right. right. left. split_and!; [done|done|by apply Hun']. }
  unfold cache_insert. rewrite Herr. cbv zeta iota. change (default [] (Some name)) with name. change (default [] (Some a)) with a.
  pose proof (scan_free_ok name a now (clear fl F_CONFIG) s0 Hi0 (Hun' _ Hun)) as Hok.
  destruct (cache_scan_free_inv mix_tab name a now (clear fl F_CONFIG) s0 Hi0) as [Hi1 Hw].
  pose proof (cache_scan_free_frees name a now (clear fl F_CONFIG) s0) as Hf1.
  destruct (cache_scan_free mix_tab name a now (clear fl F_CONFIG) s0) as [ok s1]. cbn [fst snd] in *. rewrite Hok, HR. cbn [negb].
  pose proof (name_room_frees _ _ _ _ Hf1 Hr0) as Hr1. assert (Hs1 : strings s1) by (by eapply names_strings; [exact (wf_name _ _ Hw)|]).
  assert (Hg : (grab mix_tab 4 room name now false false s1).1 ≠ None).
  { destruct Hev0 as [Ht|(y & Hy & Hevy)]; [apply grab_tail; [by eapply frees_tail|done]|].
    pose proof Hf1 as ([[Hl Hh]|Ht] & _); [|by apply grab_tail]. apply grab_succeeds; [done..|]. exists y. rewrite Hl. split; [done|by eapply evictable_same]. }
  destruct (grab mix_tab 4 room name now false false s1) as [[[new big]|] s2]; [|done]. by eexists _, _.
Qed.
End Room.
End DnsCacheRoom.
