(* ===== verification/DnsReply.v ===== *)
(** * From replies to the cache (src/external/dnsmasq/src/rfc1035.c)

    What dnsmasq learns from the reply of an upstream server: extract_addresses with
    the CNAME chains it follows, check_for_bogus_wildcard, and check_for_local_domain,
    which asks the cache.  The options of the daemon are parameters: the doctoring
    rules, the time to live of negative entries and the two option bits.  [room]: the
    memory allocator as the cache finds it at a call; the calls of one packet meet
    different states of the cache. *)
From stdpp Require Import gmap sorting.
From S2P Require Import Prelude Runtime DriverRt DnsUtil DnsName DnsMsg DnsCache DnsCacheInv DnsCacheSpec.
Import DnsUtil DnsName DnsMsg DnsCache DnsCacheInv DnsCacheSpec.

Module DnsReply.

Section Reply.
Context (mix_tab : list Z) (room : cache → bool) (doctors : list doctor) (neg_ttl : Z) (no_neg no_rebind : bool)
  (now : Z) (qlen : nat).

(** The locals of extract_addresses that live through its loops, with the packet, the
    name buffer and the cache. *)
Record reply_state := mk_reply {
  packet : list Z; namebuf : list Z; dns_cache : cache; searched_soa : bool; soa_ttl : Z; all_addr : list Z
}.
Definition set_name nm st := mk_reply (packet st) nm (dns_cache st) (searched_soa st) (soa_ttl st) (all_addr st).
Definition set_cache s st := mk_reply (packet st) (namebuf st) s (searched_soa st) (soa_ttl st) (all_addr st).
Definition set_addr a st := mk_reply (packet st) (namebuf st) (dns_cache st) (searched_soa st) (soa_ttl st) a.
Definition set_soa m t st := mk_reply m (namebuf st) (dns_cache st) true t (all_addr st).

(** Type, class, ttl and length of the data of the record at [p]. *)
Definition rr_head (m : list Z) (p : nat) : outcome (Z * Z * Z * Z) :=
  aqtype ← GETSHORT m p;
  aqclass ← GETSHORT m (p + 2);
  attl ← GETLONG m (p + 4);
  ardlen ← GETSHORT m (p + 8);
  Val (aqtype, aqclass, attl, ardlen).
Definition learn (name : option text) (a : option (list Z)) (ttl fl : Z) (st : reply_state) : option nat * reply_state :=
  let '(newc, s) := cache_insert mix_tab (room (dns_cache st)) name a now ttl fl (dns_cache st) in (newc, set_cache s st).
(** if (newc && cpp) { cpp->addr.cname.cache = newc; ... } *)
Definition chain_cname (cpp newc : option nat) (st : reply_state) : reply_state :=
  match newc, cpp with Some n, Some c => set_cache (point_cname c n (dns_cache st)) st | _, _ => st end.
(** if (!searched_soa) { searched_soa = 1; ttl = find_soa(header, qlen); } *)
Definition lazy_soa (st : reply_state) : outcome reply_state :=
  if searched_soa st then Val st else
  r ← find_soa doctors neg_ttl (packet st) qlen; let '(t, m) := r in Val (set_soa m t st).

(** How a walk over the answers ends: with a return, or at their end. *)
Inductive walk := Quit (ret : Z) | Done (found : bool) (cttl : Z) (cpp : option nat).

(** One answer to a PTR question, the record at [p1].  [again] is the jump to
    cname_loop while cname_count lasts, [next_rr] the next turn of the loop. *)
Definition ptr_record (namep : nat) (name_encoding : Z)
    (again : option (Z → bool → reply_state → outcome (walk * reply_state)))
    (next_rr : nat → Z → bool → reply_state → outcome (walk * reply_state))
    (p1 : nat) (cttl : Z) (found : bool) (st : reply_state) : outcome (walk * reply_state) :=
  r ← extract_name (packet st) qlen namep (namebuf st) true 0;
  let '(r, _, nm) := r in
  let st := set_name nm st in
  if r =? 0 then Val (Quit 0, st) else
  res ← extract_name (packet st) qlen p1 (namebuf st) false 10;
  let '(res, p1, nm) := res in
  let st := set_name nm st in
  if res =? 0 then Val (Quit 0, st) else
  h ← rr_head (packet st) p1;
  let '(aqtype, aqclass, attl, ardlen) := h in
  let p1 := (p1 + 10)%nat in
  let endrr := (p1 + Z.to_nat ardlen)%nat in
  let cttl := if attl <? cttl then attl else cttl in
  if (aqclass =? C_IN) && negb (res =? 2) && ((aqtype =? T_CNAME) || (aqtype =? T_PTR)) then
    r ← extract_name (packet st) qlen p1 (namebuf st) true 0;
    let '(r, _, nm) := r in
    let st := set_name nm st in
    if r =? 0 then Val (Quit 0, st) else
    if aqtype =? T_CNAME then
      match again with None => Val (Quit 0, st) | Some k => k cttl found st end
    else
      name ← str_at (namebuf st) 0;
      let st := (learn (Some name) (Some (all_addr st)) cttl (Z.lor name_encoding F_REVERSE) st).2 in
      if negb (CHECK_LEN endrr qlen 0) then Val (Quit 0, st) else next_rr endrr cttl true st
  else
    if negb (CHECK_LEN endrr qlen 0) then Val (Quit 0, st) else next_rr endrr cttl found st.
(** The answers from [p1] with [j] left; [count] is cname_count, [an] their number. *)
Fixpoint ptr_answers (count : nat) (an namep : nat) (name_encoding : Z) {struct count}
  : nat → nat → Z → bool → reply_state → outcome (walk * reply_state) :=
  fix loop (j p1 : nat) (cttl : Z) (found : bool) (st : reply_state) {struct j} : outcome (walk * reply_state) :=
    match j with
    | O => Val (Done found cttl None, st)
    | S j' =>
        ptr_record namep name_encoding
          (match count with
           | O => None
           | S count' => Some (λ cttl found st,
               q ← skip_questions (packet st) qlen;
               match q with
               | None => Val (Quit 0, st)
               | Some p1 => ptr_answers count' an namep name_encoding an p1 cttl found st
               end)
           end)
          (λ p1 cttl found st, loop j' p1 cttl found st) p1 cttl found st
    end.

(** [None]: go on with the next question *)
Definition ptr_question (namep : nat) (flags : Z) (st : reply_state) : outcome (option Z * reply_state) :=
  name ← str_at (namebuf st) 0;
  let '(name_encoding, a) := in_arpa_name_2_addr name (all_addr st) in
  let st := set_addr a st in
  if name_encoding =? 0 then Val (None, st) else
  w ← (if has flags F_NXDOMAIN then Val (Done false ULONG_MAX None, st) else
       q ← skip_questions (packet st) qlen;
       match q with
       | None => Val (Quit 0, st)
       | Some p1 => an ← ancount (packet st);
                    ptr_answers 5 (Z.to_nat an) namep name_encoding (Z.to_nat an) p1 ULONG_MAX false st
       end);
  match w with
  | (Quit r, st) => Val (Some r, st)
  | (Done found _ _, st) =>
      if negb found && negb no_neg then
        st ← lazy_soa st;
        if soa_ttl st =? 0 then Val (None, st)
        else Val (None, (learn None (Some (all_addr st)) (soa_ttl st)
                           (Z.lor (Z.lor (Z.lor name_encoding F_REVERSE) F_NEG) flags) st).2)
      else Val (None, st)
  end.

(** One answer to a question for addresses. *)
Definition address_record (qtype : Z) (addrlen : nat) (flags : Z)
    (again : option (Z → option nat → bool → reply_state → outcome (walk * reply_state)))
    (next_rr : nat → Z → option nat → bool → reply_state → outcome (walk * reply_state))
    (p1 : nat) (cttl : Z) (cpp : option nat) (found : bool) (st : reply_state) : outcome (walk * reply_state) :=
  res ← extract_name (packet st) qlen p1 (namebuf st) false 10;
  let '(res, p1, nm) := res in
  let st := set_name nm st in
  if res =? 0 then Val (Quit 0, st) else
  h ← rr_head (packet st) p1;
  let '(aqtype, aqclass, attl, ardlen) := h in
  let p1 := (p1 + 10)%nat in
  let endrr := (p1 + Z.to_nat ardlen)%nat in
  if (aqclass =? C_IN) && negb (res =? 2) && ((aqtype =? T_CNAME) || (aqtype =? qtype)) then
    if aqtype =? T_CNAME then
      match again with
      | None => Val (Quit 0, st)
      | Some k =>
          name ← str_at (namebuf st) 0;
          let '(newc, st) := learn (Some name) None attl (Z.lor F_CNAME F_FORWARD) st in
          let st := chain_cname cpp newc st in
          let cttl := if attl <? cttl then attl else cttl in
          r ← extract_name (packet st) qlen p1 (namebuf st) true 0;
          let '(r, _, nm) := r in
          let st := set_name nm st in
          if r =? 0 then Val (Quit 0, st) else k cttl newc found st
      end
    else
      if negb (CHECK_LEN p1 qlen addrlen) then Val (Quit 0, st) else
      bs ← load p1 addrlen (packet st);
      let st := set_addr (patch 0 bs (all_addr st)) st in
      if no_rebind && has flags F_IPV4 && private_net (le_load (take 4 (all_addr st))) then Val (Quit 1, st) else
      name ← str_at (namebuf st) 0;
      let '(newc, st) := learn (Some name) (Some (all_addr st)) attl (Z.lor flags F_FORWARD) st in
      let st := chain_cname cpp newc st in
      if negb (CHECK_LEN endrr qlen 0) then Val (Quit 0, st) else next_rr endrr cttl None true st
  else
    if negb (CHECK_LEN endrr qlen 0) then Val (Quit 0, st) else next_rr endrr cttl cpp found st.
Fixpoint address_answers (count : nat) (an : nat) (qtype : Z) (addrlen : nat) (flags : Z) {struct count}
  : nat → nat → Z → option nat → bool → reply_state → outcome (walk * reply_state) :=
  fix loop (j p1 : nat) (cttl : Z) (cpp : option nat) (found : bool) (st : reply_state) {struct j}
    : outcome (walk * reply_state) :=
    match j with
    | O => Val (Done found cttl cpp, st)
    | S j' =>
        address_record qtype addrlen flags
          (match count with
           | O => None
           | S count' => Some (λ cttl newc found st,
               q ← skip_questions (packet st) qlen;
               match q with
               | None => Val (Quit 0, st)
               | Some p1 => address_answers count' an qtype addrlen flags an p1 cttl newc found st
               end)
           end)
          (λ p1 cttl cpp found st, loop j' p1 cttl cpp found st) p1 cttl cpp found st
    end.

Definition address_question (qtype : Z) (addrlen : nat) (flags : Z) (st : reply_state) : outcome (option Z * reply_state) :=
  w ← (if has flags F_NXDOMAIN then Val (Done false ULONG_MAX None, st) else
       q ← skip_questions (packet st) qlen;
       match q with
       | None => Val (Quit 0, st)
       | Some p1 => an ← ancount (packet st);
                    address_answers 5 (Z.to_nat an) qtype addrlen flags (Z.to_nat an) p1 ULONG_MAX None false st
       end);
  match w with
  | (Quit r, st) => Val (Some r, st)
  | (Done found cttl cpp, st) =>
      if negb found && negb no_neg then
        st ← lazy_soa st;
        if negb (soa_ttl st =? 0) || bool_decide (cpp ≠ None) then
          name ← str_at (namebuf st) 0;
          let '(newc, st) := learn (Some name) None (if negb (soa_ttl st =? 0) then soa_ttl st else cttl)
                               (Z.lor (Z.lor F_FORWARD F_NEG) flags) st in
          Val (None, chain_cname cpp newc st)
        else Val (None, st)
      else Val (None, st)
  end.

Fixpoint reply_questions (i : nat) (p : nat) (st : reply_state) : outcome (option Z * reply_state) :=
  match i with
  | O => Val (None, st)
  | S i' =>
      rc ← rcode (packet st);
      let flags := if rc =? NXDOMAIN then F_NXDOMAIN else 0 in
      let namep := p in
      r ← extract_name (packet st) qlen p (namebuf st) true 4;
      let '(r, p, nm) := r in
      let st := set_name nm st in
      if r =? 0 then Val (Some 0, st) else
      qtype ← GETSHORT (packet st) p;
      qclass ← GETSHORT (packet st) (p + 2);
      let p := (p + 4)%nat in
      w ← (if negb (qclass =? C_IN) then Val (None, st)
           else if qtype =? T_PTR then ptr_question namep flags st
           else if qtype =? T_A then address_question T_A 4 (Z.lor flags F_IPV4) st
           else if qtype =? T_AAAA then address_question T_AAAA 16 (Z.lor flags F_IPV6) st
           else Val (None, st));
      match w with
      | (Some r, st) => Val (Some r, st)
      | (None, st) => reply_questions i' p st
      end
  end.

(** [junk]: the uninitialised addr. *)
Definition extract_addresses (junk : list Z) (m name : list Z) (s : cache) : outcome (Z * reply_state) :=
  let st := mk_reply m name (cache_start_insert s) false 0 junk in
  st ← (if bool_decide (doctors = []) then Val st else lazy_soa st);
  q ← qdcount (packet st);
  w ← reply_questions (Z.to_nat q) HEADER_SIZE st;
  match w with
  | (Some r, st) => Val (r, st)
  | (None, st) =>
      trunc ← DnsName.tc (packet st);
      Val (0, if (trunc : bool) then st else set_cache (cache_end_insert mix_tab (dns_cache st)) st)
  end.

(** ** The other users of the cache *)
Fixpoint bogus_answers (baddr : list (list Z)) (i p : nat) (m name : list Z) (s : cache) : outcome (Z * list Z * cache) :=
  match i with
  | O => Val (0, name, s)
  | S i' =>
      r ← extract_name m qlen p name true 10;
      let '(r, p, name) := r in
      if r =? 0 then Val (0, name, s) else
      h ← rr_head m p;
      let '(qtype, qclass, ttl, rdlen) := h in
      let p := (p + 10)%nat in
      let next_rr := let '(ok, p) := ADD_RDLEN p qlen (Z.to_nat rdlen) in
                     if negb ok then Val (0, name, s) else bogus_answers baddr i' p m name s in
      if (qclass =? C_IN) && (qtype =? T_A) then
        if negb (CHECK_LEN p qlen 4) then Val (0, name, s) else
        bs ← load p 4 m;
        if bool_decide (bs ∈ baddr) then
          t ← str_at name 0;
          let s := cache_start_insert s in
          let s := (cache_insert mix_tab (room s) (Some t) None now ttl
                      (Z.lor (Z.lor (Z.lor (Z.lor F_IPV4 F_FORWARD) F_NEG) F_NXDOMAIN) F_CONFIG) s).2 in
          Val (1, name, cache_end_insert mix_tab s)
        else next_rr
      else next_rr
  end.
(** [baddr]: the bytes of the addresses of the list *)
Definition check_for_bogus_wildcard (baddr : list (list Z)) (m name : list Z) (s : cache) : outcome (Z * list Z * cache) :=
  q ← skip_questions m qlen;
  match q with
  | None => Val (0, name, s)
  | Some p => an ← ancount m; bogus_answers baddr (Z.to_nat an) p m name s
  end.

(** the names of the local MX, SRV, TXT, interface and PTR records, in this order *)
Definition check_for_local_domain (name : text) (mxnames txt int_names ptr : list text) (s : cache) : bool * cache :=
  let '(crecp, s) := cache_find_by_name mix_tab name now (Z.lor F_IPV4 F_IPV6) None s in
  (match crecp with Some id => immune (eflags s id) | None => false end ||
   existsb (hostname_isequal name) (mxnames ++ txt ++ int_names ++ ptr), s).
Definition crec_ttl (local_ttl : Z) (c : crec) : Z :=
  if has (flags c) (Z.lor F_IMMORTAL F_DHCP) then local_ttl else ttd c - now.
End Reply.
End DnsReply.
