(* ===== verification/DnsReplySpec.v ===== *)
(** * What a reply does to the cache (src/external/dnsmasq/src/rfc1035.c)

    extract_addresses on any packet: it is safe, it ends, it moves the cache along its
    operations, and what it adds is visible to lookups only when the whole packet was
    good. *)
From stdpp Require Import gmap sorting.
From S2P Require Import Prelude Runtime DriverRt DnsUtil DnsName DnsMsg DnsCache DnsCacheInv DnsCacheSpec DnsReply.
Import DnsUtil DnsName DnsMsg DnsCache DnsCacheInv DnsCacheSpec DnsReply.

Module DnsReplySpec.
Section Effects.
Context (mix_tab : list Z).
Abbreviation cinv := (cinv mix_tab).

(** ** What a transaction shows before its end *)

(** Lookups in [s'] find what they found in [s], or less. *)
Definition visible (s s' : cache) : Prop := ∀ x, in_tbl (hash_table s') x → in_tbl (hash_table s) x ∧ entry s' x = entry s x.
Lemma visible_refl s : visible s s.
Proof. done. Qed.
Lemma visible_trans s1 s2 s3 : visible s1 s2 → visible s2 s3 → visible s1 s3.
Proof. intros H12 H23 x [Hx He]%H23. destruct (H12 x Hx) as [? He']. split; [done|congruence]. Qed.
Lemma visible_wframe s s' : cinv s' → wframe s s' → visible s s'.
Proof.
  intros Hi Hw x Hx. split; [by apply (wf_sub _ _ Hw)|]. destruct (wf_entry _ _ Hw x) as [?|[Hl Hu]]; [done|]. exfalso.
  assert (Hl' : x ∈ lru s') by (by rewrite (wf_lru _ _ Hw)). apply (inv_used _ _ _ Hi x Hl') in Hx. unfold unused in Hu. congruence.
Qed.
(** a change of an entry that is not on a chain *)
Lemma visible_set_entry s id c : ¬ in_tbl (hash_table s) id → visible s (set_entry id c s).
Proof. intros Hid x Hx. change (in_tbl (hash_table s) x) in Hx. split; [done|]. rewrite entry_set_entry, decide_False; [done|by intros ->]. Qed.
Lemma start_visible s : cinv s → visible s (cache_start_insert s).
Proof.
  intros Hi. unfold cache_start_insert.
  assert (Hf : ∀ ids s, (∀ x, x ∈ ids → ¬ in_tbl (hash_table s) x) → let s' := foldl (λ s id, cache_free id s) s ids in
    hash_table s' = hash_table s ∧ ∀ x, x ∉ ids → entry s' x = entry s x).
  { induction ids as [|id ids IH]; intros s0 Hids; cbn [foldl]; [done|].
    destruct (cache_free_facts id s0) as (_ & _ & Ht & _ & He & _ & _).
    destruct (IH (cache_free id s0)) as [IH1 IH2]; [intros x Hx; rewrite Ht; apply Hids; by constructor|].
    split; [by rewrite IH1, Ht|]. intros x [Hne Hx]%not_elem_of_cons. by rewrite IH2, He. }
  destruct (Hf (new_chain s) s) as [Ht He]; [intros x Hx; by apply (inv_new _ _ _ Hi x)|].
  intros x Hx. change (in_tbl (hash_table (foldl (λ s id, cache_free id s) s (new_chain s))) x) in Hx. rewrite Ht in Hx.
  split; [done|]. apply He. intros Hn. by apply (inv_new _ _ _ Hi x Hn).
Qed.

(** an entry as it was inserted *)
Definition made (name : text) (a : cname_addr) (due fl : Z) (c : crec) : Prop :=
  cname c = name ∧ addr c = a ∧ ttd c = due ∧ (flags c = clear fl F_CONFIG ∨ flags c = Z.lor (clear fl F_CONFIG) F_BIGNAME).
Lemma made_has name a due fl c f :
  made name a due fl c → Z.land f F_CONFIG = 0 → Z.land F_BIGNAME f = 0 → has (flags c) f = has fl f.
Proof. intros (_ & _ & _ & [->| ->]) Hc Hb; [|rewrite has_lor_l by done]; by apply has_clear_ne. Qed.
Lemma new_not_lru s x : cinv s → x ∈ new_chain s → x ∉ lru s.
Proof. intros Hi Hn Hl. pose proof (inv_lists _ _ _ Hi) as (_ & Hd & _)%NoDup_app. by apply (Hd x). Qed.
(** the new entries as they were *)
Definition pending (s s' : cache) : Prop := ∀ x, x ∈ new_chain s → x ∈ new_chain s' ∧ entry s' x = entry s x.
Lemma pending_wframe s s' : cinv s → wframe s s' → pending s s'.
Proof.
  intros Hi Hw x Hx. split; [by rewrite (wf_new _ _ Hw)|]. destruct (wf_entry _ _ Hw x) as [?|[Hl _]]; [done|].
  by destruct (new_not_lru s x Hi Hx).
Qed.
Lemma pending_trans s1 s2 s3 : pending s1 s2 → pending s2 s3 → pending s1 s3.
Proof. intros H12 H23 x [Hx He]%H12. destruct (H23 x Hx) as [? He']. split; [done|congruence]. Qed.

Lemma core_parts s s' : core s' = core s →
  hash_table s' = hash_table s ∧ new_chain s' = new_chain s ∧ lru s' = lru s ∧ ∀ x, entry s' x = entry s x.
Proof. destruct s, s'. unfold entry. cbn. by intros [= -> -> -> ->]. Qed.

(** What an insertion shows: nothing; a new entry as it was asked for. *)
Lemma cache_insert_effect rm name a now ttl fl s :
  cinv s →
  let '(r, s') := cache_insert mix_tab rm name a now ttl fl s in
  visible s s' ∧ pending s s' ∧
  match r with
  | None => new_chain s' = new_chain s
  | Some n => new_chain s' = n :: new_chain s ∧
      made (default [] name) (match a with Some b => Addr b | None => Cname None 0 end) (now + ttl) fl (entry s' n)
  end.
Proof.
  intros Hi. unfold cache_insert. destruct (insert_error s); [done|].
  destruct (cache_scan_free_inv mix_tab (default [] name) (default [] a) now (clear fl F_CONFIG) s Hi) as [H1 Hw].
  destruct (cache_scan_free _ _ _ _ _ s) as [ok s1]. cbn [snd] in *.
  pose proof (visible_wframe s s1 H1 Hw) as Hv. pose proof (pending_wframe s s1 Hi Hw) as Hp.
  destruct ok; cbn [negb]; [|split_and!; [done|done|by apply (wf_new _ _ Hw)]].
  pose proof (grab_inv mix_tab 4 rm (default [] name) now (has fl F_REVERSE) false s1 H1) as Hg.
  destruct (grab _ _ _ _ _ _ _ s1) as [[[n big]|] s2]; cbn [fst snd] in *.
  - destruct Hg as (s0 & H0 & Hw0 & Hlast & Hun & Hcore & _). destruct (core_parts _ _ Hcore) as (C1 & C2 & _ & C4).
    change (new_chain (unlink n s0)) with (new_chain s0) in C2. change (hash_table (unlink n s0)) with (hash_table s0) in C1.
    assert (Hnl : n ∈ lru s0) by (apply last_Some in Hlast as [l ->]; apply elem_of_app; right; by constructor).
    assert (Hnt : ¬ in_tbl (hash_table s0) n) by (intros Hx; apply (inv_used _ _ _ H0 n Hnl) in Hx; congruence).
    set (c := mk_crec _ _ _ _ _ _). split_and!.
    + eapply visible_trans; [exact Hv|]. eapply visible_trans; [by apply (visible_wframe s1 s0)|].
      intros x Hx. change (in_tbl (hash_table s2) x) in Hx. rewrite C1 in Hx. split; [done|].
      change (entry (set_new_chain _ ?q) x) with (entry q x). rewrite entry_set_entry, decide_False; [apply C4|by intros ->].
    + eapply pending_trans; [exact Hp|]. eapply pending_trans; [by apply (pending_wframe s1 s0)|].
      intros x Hx. split; [cbn; rewrite C2; by constructor|].
      change (entry (set_new_chain _ ?q) x) with (entry q x). rewrite entry_set_entry, decide_False; [apply C4|].
      intros ->. by destruct (new_not_lru s0 x H0 Hx).
    + cbn. by rewrite C2, (wf_new _ _ Hw0), (wf_new _ _ Hw).
    + change (entry (set_new_chain _ ?q) n) with (entry q n). rewrite entry_set_entry, decide_True by done.
      unfold c, made. cbn. split_and!; [done..|]. destruct big; [by right|by left].
  - destruct Hg as (s0 & H0 & Hw0 & ->). split_and!.
    + eapply visible_trans; [exact Hv|]. by apply (visible_wframe s1 s0).
    + eapply pending_trans; [exact Hp|]. by apply (pending_wframe s1 s0).
    + change (new_chain s0 = new_chain s). by rewrite (wf_new _ _ Hw0), (wf_new _ _ Hw).
Qed.

(** What a commit shows: the new entries, as they were. *)
Lemma end_effect s :
  cinv s → ∀ x, in_tbl (hash_table (cache_end_insert mix_tab s)) x →
  entry (cache_end_insert mix_tab s) x = entry s x ∧ (in_tbl (hash_table s) x ∨ x ∈ new_chain s).
Proof.
  intros Hi. unfold cache_end_insert. destruct (insert_error s); [by auto|].
  cut (∀ l s, cinv (set_new_chain l s) → ∀ x, in_tbl (hash_table (foldl (λ s id, commit mix_tab id s) s l)) x →
    entry (foldl (λ s id, commit mix_tab id s) s l) x = entry s x ∧ (in_tbl (hash_table s) x ∨ x ∈ l)).
  { intros H x Hx. apply (H (new_chain s) s); [by rewrite self_new|done]. }
  clear s Hi. induction l as [|id l IH]; intros s Hi x Hx; cbn [foldl] in *; [by auto|].
  pose proof (cinv_commit mix_tab s id l Hi) as Hc. destruct (IH (commit mix_tab id s) Hc x Hx) as [He Hin]. clear IH.
  pose proof (inv_new _ _ _ Hi id) as [Hnt _]; [by constructor|]. change (¬ in_tbl (hash_table s) id) in Hnt.
  pose proof (inv_lists _ _ _ Hi) as (_ & _ & [Hidl _]%NoDup_cons)%NoDup_app.
  rewrite He. clear He Hx. unfold commit in *. destruct (is_outdated_cname_pointer s id).
  - destruct (cache_free_facts id s) as (_ & _ & Ht & _ & He & _ & _). rewrite Ht in Hin.
    assert (x ≠ id) by (intros ->; by destruct Hin). rewrite He by done. rewrite elem_of_cons. tauto.
  - split; [done|]. rewrite elem_of_cons. destruct Hin as [Hin|?]; [|tauto].
    set (s0 := set_new_chain l (link id s)). destruct (cache_hash_chains mix_tab s0 id) as (_ & _ & Hmem & _).
    + destruct (cinv_chains _ _ Hi) as [Hk Hch]. split; [done|]. intros i ch Hich. apply (chain_ok_frame mix_tab (set_new_chain (id :: l) s)); [by apply Hch|done| |done].
      intros y _ Hy. by constructor.
    + done.
    + left. by constructor.
    + assert (Hx : in_tbl (hash_table (cache_hash mix_tab id s0)) x).
      { change (cache_hash mix_tab id s0) with (set_chain (bucket mix_tab s id) (hashed s0 id (nth (bucket mix_tab s id) (hash_table s) [])) s0).
        by rewrite (hashed_ext s s0). }
      apply Hmem in Hx as [->|?]; [right; by left|by left].
Qed.
End Effects.

(** ** The loops of extract_addresses *)
Lemma str_total nm : 0 ∈ nm → total (str_at nm 0) (Forall (λ c, c ≠ 0)).
Proof.
  intros H0. unfold str_at. rewrite drop_0. induction nm as [|c nm IH]; [by apply not_elem_of_nil in H0|]. cbn [until_nul].
  destruct (Z.eqb_spec c 0); [by apply total_ret|]. eapply total_bind; [apply IH; apply elem_of_cons in H0 as [?|?]; congruence|].
  intros t Ht. apply total_ret. by constructor.
Qed.
Lemma rr_head_total m p : (p + 10 ≤ length m)%nat → total (rr_head m p) (λ _, True).
Proof.
  intros Hp. unfold rr_head. repeat (eapply total_bind; [first [apply GETSHORT_total|apply GETLONG_total]; lia|intros ? _]). by apply total_ret.
Qed.
(** a bind whose continuation knows the outcome *)
Lemma total_bind_eq {A B} (o : outcome A) (f : A → outcome B) (P : A → Prop) (Q : B → Prop) :
  total o P → (∀ a, o = Val a → P a → total (f a) Q) → total (o ≫= f) Q.
Proof. intros (a & Ha & Hp) Hf. eapply (total_bind _ _ (λ b, b = a ∧ P b)); [by exists a|]. intros b [-> _]. by apply Hf. Qed.

(** ** Good packets
    What a reply has to be like for anything of it to be learnt: its names can be read,
    its records end inside it, no more than five CNAMEs are followed.  The packet is read
    here as RFC 1035 lays it out, one record behind the other, with no cache and no
    state. *)
Section Good.
Context (no_rebind : bool) (m : list Z) (qlen : nat).
(** a record in class IN that is about the name ([r]: the result of the comparison of the
    names, 2 for other names), a CNAME or of the type [qtype] *)
Definition concerns (qtype r type class : Z) : Prop := class = C_IN ∧ r ≠ 2 ∧ (type = T_CNAME ∨ type = qtype).
(** the record at [p], compared with the name [nm]: the comparison and the end of the
    name, the type, the class and the end of the data *)
Definition record_at (p : nat) (nm : list Z) (r : Z) (e : nat) (type class : Z) (fin : nat) : Prop :=
  extract_name m qlen p nm false 10 = Val (r, e, nm) ∧ r ≠ 0 ∧
  ∃ ttl len, rr_head m e = Val (type, class, ttl, len) ∧ fin = (e + 10 + Z.to_nat len)%nat.
Definition name_readable (p : nat) (nm nm' : list Z) (x : nat) (e : nat) : Prop :=
  ∃ r, extract_name m qlen p nm true x = Val (r, e, nm') ∧ r ≠ 0.
(** The [j] answers from [p] on, read for addresses of [nm], when [count] more CNAMEs
    are followed: after a CNAME of the name the [an] answers are read again from
    [start] on, for the name it gives. *)
Inductive answers_good (qtype : Z) (addrlen start an : nat) : nat → list Z → nat → nat → Prop :=
  | good_end count nm p : answers_good qtype addrlen start an count nm 0 p
  | good_other count nm j p r e type class fin :
      record_at p nm r e type class fin → ¬ concerns qtype r type class → (fin ≤ qlen)%nat →
      answers_good qtype addrlen start an count nm j fin → answers_good qtype addrlen start an count nm (S j) p
  | good_address count nm j p r e class fin a :
      record_at p nm r e qtype class fin → concerns qtype r qtype class → qtype ≠ T_CNAME →
      (e + 10 + addrlen ≤ qlen)%nat → load (e + 10) addrlen m = Val a →
      (no_rebind = true → qtype = T_A → private_net (le_load (take 4 a)) = false) → (fin ≤ qlen)%nat →
      answers_good qtype addrlen start an count nm j fin → answers_good qtype addrlen start an count nm (S j) p
  | good_cname count nm j p r e class fin e' nm' :
      record_at p nm r e T_CNAME class fin → concerns qtype r T_CNAME class → name_readable (e + 10) nm nm' 0 e' →
      answers_good qtype addrlen start an count nm' an start → answers_good qtype addrlen start an (S count) nm (S j) p.
(** The answers read for names of an address: the name of the question, at [namep], is
    read again for each of them. *)
Inductive ptr_good (namep start an : nat) : nat → nat → nat → Prop :=
  | ptr_end count p : ptr_good namep start an count 0 p
  | ptr_other count j p nm0 nm e0 r e type class fin :
      name_readable namep nm0 nm 0 e0 → record_at p nm r e type class fin → (fin ≤ qlen)%nat →
      (concerns T_PTR r type class → type = T_PTR ∧ ∃ nm' e', name_readable (e + 10) nm nm' 0 e') →
      ptr_good namep start an count j fin → ptr_good namep start an count (S j) p
  | ptr_cname count j p nm0 nm e0 r e class fin nm' e' :
      name_readable namep nm0 nm 0 e0 → record_at p nm r e T_CNAME class fin → concerns T_PTR r T_CNAME class →
      name_readable (e + 10) nm nm' 0 e' →
      ptr_good namep start an count an start → ptr_good namep start an (S count) (S j) p.
Definition answer_section (start an : nat) : Prop := skip_questions m qlen = Val (Some start) ∧ ∃ n, ancount m = Val n ∧ an = Z.to_nat n.
(** the answers to a question for the name [nm] at [namep]; without any when the name
    does not exist *)
Definition question_good (rc : Z) (namep : nat) (nm : list Z) (qtype : Z) : Prop := rc ≠ NXDOMAIN →
  (qtype = T_PTR → (∀ t a, str_at nm 0 = Val t → (in_arpa_name_2_addr t a).1 ≠ 0) →
     ∃ start an, answer_section start an ∧ ptr_good namep start an 5 an start) ∧
  (qtype = T_A → ∃ start an, answer_section start an ∧ answers_good T_A 4 start an 5 nm an start) ∧
  (qtype = T_AAAA → ∃ start an, answer_section start an ∧ answers_good T_AAAA 16 start an 5 nm an start).
Inductive questions_good (rc : Z) : nat → nat → Prop :=
  | questions_end p : questions_good rc 0 p
  | questions_next i p nm0 nm e qtype qclass :
      name_readable p nm0 nm 4 e → GETSHORT m e = Val qtype → GETSHORT m (e + 2) = Val qclass →
      (qclass = C_IN → question_good rc p nm qtype) → questions_good rc i (e + 4) → questions_good rc (S i) p.
Definition good_packet : Prop := DnsName.tc m = Val false ∧
  ∃ rc q, rcode m = Val rc ∧ qdcount m = Val q ∧ questions_good rc (Z.to_nat q) HEADER_SIZE.
End Good.

(** without rules find_soa leaves the packet alone *)
Lemma do_doctor_none count : ∀ m p qlen r, do_doctor [] count m p qlen = Val r → r.2 = m.
Proof.
  induction count as [|count IH]; intros m p qlen r; cbn [do_doctor]; [by intros [= <-]|].
  intros ([q|] & _ & H)%outcome_bind_Val; [|by injection H as <-]. do 4 (apply outcome_bind_Val in H as (? & _ & H)). unfold ADD_RDLEN in H.
  destruct (_ && _) in H; [|exact (IH _ _ _ _ H)]. destruct (negb (CHECK_LEN _ _ 4)) in H; [by injection H as <-|].
  apply outcome_bind_Val in H as (? & _ & H). exact (IH _ _ _ _ H).
Qed.
Lemma find_soa_none neg_ttl m qlen r : find_soa [] neg_ttl m qlen = Val r → r.2 = m.
Proof.
  unfold find_soa. intros ([p|] & _ & H)%outcome_bind_Val; [|by injection H as <-]. apply outcome_bind_Val in H as (an & _ & H).
  apply outcome_bind_Val in H as ([[q|] m1] & Hm%do_doctor_none & H); cbn [snd] in Hm; subst m1; [|by injection H as <-].
  apply outcome_bind_Val in H as (ns & _ & H). apply outcome_bind_Val in H as ([[[q1 f] mt]|] & _ & H); [|by injection H as <-].
  apply outcome_bind_Val in H as (ar & _ & H). by apply outcome_bind_Val in H as ([[q2|] m2] & Hm%do_doctor_none & [= <-]).
Qed.

Section Reply.
Context (mix_tab : list Z) (room : cache → bool) (doctors : list doctor) (neg_ttl : Z) (no_neg no_rebind : bool)
  (now : Z) (qlen : nat).
(** the packet's buffer holds ten bytes more than the packet *)
Context (len : nat) (Hq : (HEADER_SIZE ≤ qlen)%nat) (Hlen : (qlen + 10 ≤ len)%nat).
Context (s0 : cache) (Hs0 : cinv mix_tab s0 ∧ strings s0).
(** [mp]: the packet, once its addresses are rewritten *)
Context (mp : list Z).

(** An entry of the packet is no IPv4 address of a private network when these are
    to be refused. *)
Definition fresh (c : crec) : Prop :=
  no_rebind = true → has (flags c) F_FORWARD = true → has (flags c) F_IPV4 = true → has (flags c) F_NEG = false →
  ∃ a, addr c = Addr a ∧ private_net (le_load (take 4 a)) = false.
Record rinv (st : reply_state) : Prop := {
  ri_len : length (packet st) = len;
  ri_bytes : bytes (packet st);
  ri_name : (MAXDNAME ≤ length (namebuf st))%nat;
  ri_steps : rtc (cache_step mix_tab) s0 (dns_cache st);
  ri_visible : visible s0 (dns_cache st);
  ri_fresh : ∀ x, x ∈ new_chain (dns_cache st) → fresh (entry (dns_cache st) x);
  ri_packet : packet st = mp;
  ri_soa : searched_soa st = true ∨ doctors = []
}.
Definition named (st : reply_state) : Prop := 0 ∈ namebuf st.
(** cpp is a new CNAME *)
Definition cpp_ok (st : reply_state) (cpp : option nat) : Prop :=
  ∀ c, cpp = Some c → c ∈ new_chain (dns_cache st) ∧ has (eflags (dns_cache st) c) F_IPV4 = false.
Lemma rinv_cinv st : rinv st → cinv mix_tab (dns_cache st) ∧ strings (dns_cache st).
Proof. intros Hr. by eapply steps_inv; [exact (ri_steps _ Hr)|]. Qed.
(** The other fields change freely. *)
Lemma rinv_set_name st nm : rinv st → length nm = length (namebuf st) → rinv (set_name nm st).
Proof. intros [R1 R2 R3 R4 R5 R6 R7 R8] Hl. split; [done|done|cbn; lia|done..]. Qed.
Lemma rinv_set_addr st a : rinv st → rinv (set_addr a st).
Proof. intros [R1 R2 R3 R4 R5 R6 R7 R8]. by split. Qed.

Lemma extract_total st p x (e : bool) :
  rinv st → (e = false → named st) →
  total (extract_name (packet st) qlen p (namebuf st) e x)
    (λ '(r, p', nm), rinv (set_name nm st) ∧ (r ≠ 0 → (p' ≤ qlen)%nat ∧ named (set_name nm st)) ∧ (e = false → nm = namebuf st)).
Proof.
  intros Hr He. pose proof Hr as [R1 R2 R3 _ _ _ _ _].
  destruct (extract_name_total (packet st) (namebuf st) qlen p x e) as (r & p' & nm & -> & _ & Hl & _ & Hok & Hsame); [lia|done|done|done|].
  apply total_ret. split_and!; [by apply rinv_set_name|done|done].
Qed.
Lemma skip_questions_ok st : rinv st → total (skip_questions (packet st) qlen) (inside qlen).
Proof. intros [R1 _ _ _ _ _ _ _]. apply skip_questions_total; [lia|done]. Qed.
Lemma ancount_ok st : rinv st → total (ancount (packet st)) (λ _, True).
Proof. intros [R1 _ _ _ _ _ _ _]. unfold HEADER_SIZE in Hq. eapply total_mono; [apply GETSHORT_total; lia|done]. Qed.
Lemma lazy_soa_total st : rinv st →
  total (lazy_soa doctors neg_ttl qlen st) (λ st', rinv st' ∧ namebuf st' = namebuf st ∧ dns_cache st' = dns_cache st).
Proof.
  intros Hr. unfold lazy_soa. destruct (searched_soa st) eqn:Hsoa; [by apply total_ret|]. destruct Hr as [R1 R2 R3 R4 R5 R6 R7 R8].
  destruct R8 as [?| ->]; [congruence|]. eapply total_bind_eq; [apply find_soa_total; [lia|done]|]. intros [t m] Hf [Hl Hb].
  apply find_soa_none in Hf. cbn [snd] in *. subst m. apply total_ret. split_and!; [|done|done]. split; try done. by left.
Qed.

(** *** Insertions *)
Definition plain (fl : Z) : Prop := immune fl = false ∧ has fl FR = true.
Lemma learn_ok name a ttl fl st cpp :
  rinv st → plain fl → Forall (λ c, c ≠ 0) (default [] name) → cpp_ok st cpp →
  (∀ c, made (default [] name) (match a with Some b => Addr b | None => Cname None 0 end) (now + ttl) fl c → fresh c) →
  let '(newc, st') := learn mix_tab room now name a ttl fl st in
  rinv st' ∧ namebuf st' = namebuf st ∧ packet st' = packet st ∧ cpp_ok st' cpp ∧
  (has fl F_IPV4 = false → cpp_ok st' newc).
Proof.
  intros Hr [Hp1 Hp2] Hn Hcpp Hf. pose proof (rinv_cinv st Hr) as [Hi Hs]. destruct Hr as [R1 R2 R3 R4 R5 R6 R7 R8]. unfold learn.
  pose proof (cache_insert_effect mix_tab (room (dns_cache st)) name a now ttl fl (dns_cache st) Hi) as He.
  pose proof (Insert mix_tab (room (dns_cache st)) name a now ttl fl (dns_cache st) Hp1 Hp2 Hn) as Hstep.
  destruct (cache_insert _ _ _ _ _ _ _ (dns_cache st)) as [newc s']. destruct He as (Hv & Hpend & Hnew). cbn [snd] in Hstep.
  assert (Hfresh : ∀ x, x ∈ new_chain s' → fresh (entry s' x)).
  { intros x Hx. destruct newc as [n|].
    - destruct Hnew as [Hc Hm]. rewrite Hc in Hx. apply elem_of_cons in Hx as [->|Hx]; [by apply Hf|].
      destruct (Hpend x Hx) as [_ ->]. by apply R6.
    - rewrite Hnew in Hx. destruct (Hpend x Hx) as [_ ->]. by apply R6. }
  split_and!; [|done|done| |].
  - split; [done|done|done|by eapply rtc_r|by eapply visible_trans|done|done|done].
  - intros c ->. destruct (Hcpp c eq_refl) as [Hc Hv4]. destruct (Hpend c Hc) as [? He]. split; [done|].
    unfold eflags in *. cbn. by rewrite He.
  - intros Hfl c ->. destruct Hnew as [Hc Hm]. cbn. split; [rewrite Hc; by constructor|].
    unfold eflags. by rewrite (made_has _ _ _ _ _ F_IPV4 Hm).
Qed.
Lemma chain_ok_inv cpp newc other st : rinv st → cpp_ok st cpp → cpp_ok st other →
  let st' := chain_cname cpp newc st in rinv st' ∧ namebuf st' = namebuf st ∧ packet st' = packet st ∧ cpp_ok st' other.
Proof.
  intros Hr Hcpp Hoth. unfold chain_cname. destruct newc as [n|]; [|done]. destruct cpp as [c|]; [|done].
  destruct (Hcpp c eq_refl) as [Hc Hv4]. pose proof (rinv_cinv st Hr) as [Hi _]. destruct Hr as [R1 R2 R3 R4 R5 R6 R7 R8].
  split_and!; [|done|done|].
  - split; [done|done|done|eapply rtc_r; [exact R4|apply Point]| | |done|done].
    + eapply visible_trans; [exact R5|]. apply visible_set_entry. by apply (inv_new _ _ _ Hi).
    + intros x Hx. cbn in *. unfold point_cname. rewrite entry_set_entry. case_decide as Heq; [subst c|by apply R6].
      intros _ _ H4. unfold eflags in Hv4. cbn [flags] in H4. congruence.
  - intros d ->. destruct (Hoth d eq_refl) as [Hd Hd4]. split; [done|]. unfold eflags in *. cbn. unfold point_cname.
    rewrite entry_set_entry. by case_decide; [subst|].
Qed.

(** *** The answers *)
(** at their end the packet has been good: [G] *)
Definition walk_ok (G : Prop) (r : walk * reply_state) : Prop :=
  rinv r.2 ∧ match r.1 with Quit v => v = 0 ∨ v = 1 | Done _ _ cpp => named r.2 ∧ cpp_ok r.2 cpp ∧ G end.
Lemma quit_ok v st G : rinv st → v = 0 ∨ v = 1 → total (Val (Quit v, st)) (walk_ok G).
Proof. intros Hr Hv. apply total_ret. done. Qed.
Lemma walk_mono (o : outcome (walk * reply_state)) (G G' : Prop) : (G → G') → total o (walk_ok G) → total o (walk_ok G').
Proof. intros H Ho. eapply total_mono; [exact Ho|]. intros [[v|f c cpp] st] [Hr Hw]; cbn in *; [done|]. destruct Hw as (? & ? & ?). split; [done|]. cbn. auto. Qed.
(** the end of a record *)
Lemma endrr_total p (o : outcome (walk * reply_state)) st G :
  rinv st → ((p ≤ qlen)%nat → total o (walk_ok G)) → total (if negb (CHECK_LEN p qlen 0) then Val (Quit 0, st) else o) (walk_ok G).
Proof.
  intros Hr Ho. unfold CHECK_LEN. destruct (Nat.leb_spec (p + 0) qlen); cbn [negb]; [apply Ho; lia|by apply quit_ok; [|left]].
Qed.
Lemma made_forward name a due fl c : made name a due fl c → has fl F_FORWARD = false → fresh c.
Proof. intros Hm Hf _ HF. rewrite (made_has _ _ _ _ _ F_FORWARD Hm) in HF by done. congruence. Qed.
Lemma made_no_ipv4 name a due fl c : made name a due fl c → has fl F_IPV4 = false → fresh c.
Proof. intros Hm Hf _ _ HF. rewrite (made_has _ _ _ _ _ F_IPV4 Hm) in HF by done. congruence. Qed.
Lemma made_negative name a due fl c : made name a due fl c → has fl F_NEG = true → fresh c.
Proof. intros Hm Hf _ _ _ HF. rewrite (made_has _ _ _ _ _ F_NEG Hm) in HF by done. congruence. Qed.
Lemma no_cpp st : cpp_ok st None.
Proof. by intros c. Qed.

Lemma concerns_spec qtype r type class :
  reflect (concerns qtype r type class) ((class =? C_IN) && negb (r =? 2) && ((type =? T_CNAME) || (type =? qtype))).
Proof.
  unfold concerns. destruct (Z.eqb_spec class C_IN), (Z.eqb_spec r 2), (Z.eqb_spec type T_CNAME), (Z.eqb_spec type qtype); cbn; constructor; tauto.
Qed.
Lemma ptr_record_total namep start an count j enc again next_rr p1 cttl found st :
  enc = F_IPV4 ∨ enc = F_IPV6 → rinv st →
  (∀ k, again = Some k → ∃ count', count = S count' ∧
     ∀ cttl found st, rinv st → named st → total (k cttl found st) (walk_ok (ptr_good mp qlen namep start an count' an start))) →
  (∀ p cttl found st, (p ≤ qlen)%nat → rinv st → named st → total (next_rr p cttl found st) (walk_ok (ptr_good mp qlen namep start an count j p))) →
  total (ptr_record mix_tab room now qlen namep enc again next_rr p1 cttl found st) (walk_ok (ptr_good mp qlen namep start an count (S j) p1)).
Proof.
  intros Henc Hr Hagain Hnext. unfold ptr_record.
  eapply total_bind_eq; [by apply extract_total|]. intros [[r p'] nm] He1 (Hr1 & Hok1 & _). rewrite (ri_packet _ Hr) in He1.
  destruct (Z.eqb_spec r 0); [by apply quit_ok; [|left]|]. destruct (Hok1 ltac:(done)) as [_ Hn1].
  eapply total_bind_eq; [by apply extract_total|]. intros [[res p2] nm2] He2 (Hr2 & Hok2 & Hsame). specialize (Hsame eq_refl). cbn [namebuf set_name] in Hsame. subst nm2.
  rewrite (ri_packet _ Hr1) in He2.
  destruct (Z.eqb_spec res 0); [by apply quit_ok; [|left]|]. destruct (Hok2 ltac:(done)) as [Hp2 Hn2]. set (st2 := set_name nm _) in *.
  eapply total_bind_eq; [apply rr_head_total; rewrite (ri_len _ Hr2); lia|]. intros [[[aqtype aqclass] attl] ardlen] Hh _. rewrite (ri_packet _ Hr2) in Hh.
  assert (Hrd : name_readable mp qlen namep (namebuf st) nm 0 p') by (by exists r).
  assert (Hrec : record_at mp qlen p1 nm res p2 aqtype aqclass (p2 + 10 + Z.to_nat ardlen)) by (split_and!; [done|done|by exists attl, ardlen]).
  destruct (concerns_spec T_PTR res aqtype aqclass) as [Hc|Hc].
  2: { apply endrr_total; [done|]. intros Hp. eapply walk_mono; [|by apply Hnext]. intros Hg. by eapply ptr_other. }
  eapply total_bind_eq; [by apply extract_total|]. intros [[r3 p3] nm3] He3 (Hr3 & Hok3 & _). rewrite (ri_packet _ Hr2) in He3.
  destruct (Z.eqb_spec r3 0); [by apply quit_ok; [|left]|]. destruct (Hok3 ltac:(done)) as [_ Hn3]. set (st3 := set_name nm3 _) in *.
  assert (Ht3 : name_readable mp qlen (p2 + 10) nm nm3 0 p3) by (by exists r3).
  destruct (Z.eqb_spec aqtype T_CNAME) as [->|Hty].
  { destruct again as [k|]; [|by apply quit_ok; [|left]]. destruct (Hagain k eq_refl) as (count' & -> & Hk).
    eapply walk_mono; [|by apply Hk]. intros Hg. by eapply ptr_cname. }
  eapply total_bind; [by apply str_total|]. intros t Ht.
  pose proof (learn_ok (Some t) (Some (all_addr st3)) (if attl <? cttl then attl else cttl) (Z.lor enc F_REVERSE) st3 None Hr3) as Hl.
  destruct (learn _ _ _ _ _ _ _ st3) as [newc st4]. destruct Hl as (Hr4 & Hn4 & _ & _ & _).
  - by destruct Henc as [->| ->].
  - done.
  - apply no_cpp.
  - intros c Hm. eapply made_forward; [exact Hm|]. by destruct Henc as [->| ->].
  - cbn [snd]. apply endrr_total; [done|]. intros Hp. eapply walk_mono; [|apply Hnext; [done|done|unfold named in *; by rewrite Hn4]].
    intros Hg. eapply ptr_other; [done|done|done| |done]. intros (_ & _ & [?|?]); [done|]. by eauto.
Qed.
Lemma ptr_answers_total count an namep start enc : enc = F_IPV4 ∨ enc = F_IPV6 → skip_questions mp qlen = Val (Some start) → ∀ j p1 cttl found st,
  rinv st → named st →
  total (ptr_answers mix_tab room now qlen count an namep enc j p1 cttl found st) (walk_ok (ptr_good mp qlen namep start an count j p1)).
Proof.
  intros Henc Hsk. induction count as [|count IHc]; (induction j as [|j IHj]; intros p1 cttl found st Hr Hn;
    [apply total_ret; split; [done|]; by split_and!; [|apply no_cpp|constructor]|]); cbn [ptr_answers];
    (apply ptr_record_total; [done|done| |by intros p cttl' found' st' _; apply IHj]).
  - done.
  - intros k [= <-]. exists count. split; [done|]. intros cttl' found' st' Hr' Hn'. rewrite (ri_packet _ Hr'), Hsk, bind_Val. by apply IHc.
Qed.

(** the flags of a question for addresses *)
Definition address_flags (flags : Z) : Prop :=
  flags = F_IPV4 ∨ flags = F_IPV6 ∨ flags = Z.lor F_NXDOMAIN F_IPV4 ∨ flags = Z.lor F_NXDOMAIN F_IPV6.
(** and the type they are for *)
Definition address_type (qtype : Z) (addrlen : nat) (flags : Z) : Prop :=
  qtype = T_A ∧ addrlen = 4%nat ∧ has flags F_IPV4 = true ∨ qtype = T_AAAA ∧ addrlen = 16%nat ∧ has flags F_IPV4 = false.
Lemma type_private qtype addrlen flags bs junk : address_type qtype addrlen flags → length bs = addrlen →
  no_rebind && has flags F_IPV4 && private_net (le_load (take 4 (patch 0 bs junk))) = false →
  no_rebind = true → qtype = T_A → private_net (le_load (take 4 bs)) = false.
Proof.
  intros [(_ & -> & ->)|(-> & _)] Hl Hp Hreb Hqt; [|done]. rewrite Hreb in Hp. cbn [andb] in Hp.
  change (patch 0 bs junk) with (bs ++ drop (length bs) junk) in Hp. by rewrite take_app_le in Hp by lia.
Qed.
Lemma address_record_total qtype addrlen flags start an count j again next_rr p1 cttl cpp found st :
  address_flags flags → address_type qtype addrlen flags → rinv st → named st → cpp_ok st cpp →
  (∀ k, again = Some k → ∃ count', count = S count' ∧ ∀ cttl cpp found st, rinv st → named st → cpp_ok st cpp →
     total (k cttl cpp found st) (walk_ok (answers_good no_rebind mp qlen qtype addrlen start an count' (namebuf st) an start))) →
  (∀ p cttl cpp found st, (p ≤ qlen)%nat → rinv st → named st → cpp_ok st cpp →
     total (next_rr p cttl cpp found st) (walk_ok (answers_good no_rebind mp qlen qtype addrlen start an count (namebuf st) j p))) →
  total (address_record mix_tab room no_rebind now qlen qtype addrlen flags again next_rr p1 cttl cpp found st)
    (walk_ok (answers_good no_rebind mp qlen qtype addrlen start an count (namebuf st) (S j) p1)).
Proof.
  intros Hfl Hty Hr Hn Hcpp Hagain Hnext. unfold address_record.
  eapply total_bind_eq; [by apply extract_total|]. intros [[res p2] nm2] He2 (Hr2 & Hok2 & Hsame). specialize (Hsame eq_refl). subst nm2.
  rewrite (ri_packet _ Hr) in He2.
  destruct (Z.eqb_spec res 0); [by apply quit_ok; [|left]|]. destruct (Hok2 ltac:(done)) as [Hp2 Hn2]. set (st2 := set_name _ st) in *.
  eapply total_bind_eq; [apply rr_head_total; rewrite (ri_len _ Hr2); lia|]. intros [[[aqtype aqclass] attl] ardlen] Hh _. rewrite (ri_packet _ Hr2) in Hh.
  assert (Hrec : record_at mp qlen p1 (namebuf st) res p2 aqtype aqclass (p2 + 10 + Z.to_nat ardlen)) by (split_and!; [done|done|by exists attl, ardlen]).
  destruct (concerns_spec qtype res aqtype aqclass) as [Hc|Hc].
  2: { apply endrr_total; [done|]. intros Hp. eapply walk_mono; [|by apply Hnext]. intros Hg. by eapply good_other. }
  destruct (Z.eqb_spec aqtype T_CNAME) as [->|Hnc].
  - destruct again as [k|]; [|by apply quit_ok; [|left]]. destruct (Hagain k eq_refl) as (count' & -> & Hk).
    eapply total_bind; [by apply str_total|]. intros t Ht.
    pose proof (learn_ok (Some t) None attl (Z.lor F_CNAME F_FORWARD) st2 cpp Hr2) as Hl.
    destruct (learn _ _ _ _ _ _ _ st2) as [newc st3]. destruct Hl as (Hr3 & Hb3 & _ & Hc3 & Hnew);
      [done|done|done|intros c Hm; by eapply made_no_ipv4|]. specialize (Hnew eq_refl).
    destruct (chain_ok_inv cpp newc newc st3 Hr3 Hc3 Hnew) as (Hr4 & Hb4 & _ & Hc4).
    eapply total_bind_eq; [by apply extract_total|]. intros [[r5 p5] nm5] He5 (Hr5 & Hok5 & _). rewrite (ri_packet _ Hr4), Hb4, Hb3 in He5.
    destruct (Z.eqb_spec r5 0); [by apply quit_ok; [|left]|]. destruct (Hok5 ltac:(done)) as [_ Hn5]. eapply walk_mono; [|by apply Hk].
    intros Hg. eapply good_cname; [exact Hrec|exact Hc|by exists r5|exact Hg].
  - assert (aqtype = qtype) as -> by (destruct Hc as (_ & _ & [?|?]); congruence).
    unfold CHECK_LEN at 1. destruct (Nat.leb_spec (p2 + 10 + addrlen) qlen); cbn [negb]; [|by apply quit_ok; [|left]].
    eapply total_bind_eq; [apply load_total; rewrite (ri_len _ Hr2); lia|]. intros bs Hld [_ Hbl]. rewrite (ri_packet _ Hr2) in Hld.
    pose proof (rinv_set_addr st2 (patch 0 bs (all_addr st2)) Hr2) as Hr3. set (st3 := set_addr _ st2) in *.
    destruct (no_rebind && _ && _) eqn:Hpriv; [by apply quit_ok; [|right]|].
    pose proof (type_private _ _ _ _ _ Hty Hbl Hpriv) as Hok.
    eapply total_bind; [by apply str_total|]. intros t Ht.
    pose proof (learn_ok (Some t) (Some (all_addr st3)) attl (Z.lor flags F_FORWARD) st3 cpp Hr3) as Hl.
    destruct (learn _ _ _ _ _ _ _ st3) as [newc st4]. destruct Hl as (Hr4 & Hn4 & _ & Hc4 & _).
    + destruct Hfl as [->|[->|[->| ->]]]; done.
    + done.
    + done.
    + intros c Hm Hreb _ H4 _. rewrite (made_has _ _ _ _ _ F_IPV4 Hm) in H4 by done. destruct Hm as (_ & Ha & _).
      exists (all_addr st3). split; [done|]. rewrite Hreb in Hpriv. rewrite has_lor_l in H4 by done. by rewrite H4 in Hpriv.
    + destruct (chain_ok_inv cpp newc None st4 Hr4 Hc4 (no_cpp _)) as (Hr5 & Hn5 & _ & _). rewrite Hn4 in Hn5.
      apply endrr_total; [done|]. intros Hp. eapply walk_mono; [|apply Hnext; [done|done|unfold named in *; by rewrite Hn5|apply no_cpp]].
      rewrite Hn5. intros Hg. by eapply good_address.
Qed.
Lemma address_answers_total count an start qtype addrlen flags :
  address_flags flags → address_type qtype addrlen flags → skip_questions mp qlen = Val (Some start) → ∀ j p1 cttl cpp found st,
  rinv st → named st → cpp_ok st cpp →
  total (address_answers mix_tab room no_rebind now qlen count an qtype addrlen flags j p1 cttl cpp found st)
    (walk_ok (answers_good no_rebind mp qlen qtype addrlen start an count (namebuf st) j p1)).
Proof.
  intros Hfl Hty Hsk. induction count as [|count IHc]; (induction j as [|j IHj]; intros p1 cttl cpp found st Hr Hn Hcpp;
    [apply total_ret; split; [done|]; by split_and!; [| |constructor]|]); cbn [address_answers];
    (apply address_record_total; [done|done|done|done|done| |by intros p cttl' cpp' found' st' _; apply IHj]).
  - done.
  - intros k [= <-]. exists count. split; [done|]. intros cttl' cpp' found' st' Hr' Hn' Hcpp'. rewrite (ri_packet _ Hr'), Hsk, bind_Val. by apply IHc.
Qed.

(** *** The questions *)
Definition question_ok (G : Prop) (r : option Z * reply_state) : Prop :=
  rinv r.2 ∧ match r.1 with Some v => v = 0 ∨ v = 1 | None => G end.
Lemma go_on_ok st (G : Prop) : rinv st → G → total (Val (None, st)) (question_ok G).
Proof. intros Hr HG. apply total_ret. by split. Qed.
(** the end of the answers, then what is said of the rest of the question *)
Lemma answers_then (w : outcome (walk * reply_state)) (f : walk * reply_state → outcome (option Z * reply_state)) (G : Prop) :
  total w (walk_ok G) → (∀ v st, f (Quit v, st) = Val (Some v, st)) →
  (∀ found cttl cpp st, rinv st → named st → cpp_ok st cpp → G → total (f (Done found cttl cpp, st)) (question_ok G)) →
  total (w ≫= f) (question_ok G).
Proof.
  intros Hw Hquit Hf. eapply total_bind; [exact Hw|]. intros [[v|found cttl cpp] st] [Hr Hd]; cbn [fst snd] in *.
  - rewrite Hquit. apply total_ret. by split.
  - destruct Hd as (? & ? & ?). by apply Hf.
Qed.
Lemma arpa_kind t a : (in_arpa_name_2_addr t a).1 = 0 ∨ (in_arpa_name_2_addr t a).1 = F_IPV4 ∨ (in_arpa_name_2_addr t a).1 = F_IPV6.
Proof. unfold in_arpa_name_2_addr. repeat (case_match; try (cbn; tauto)). Qed.
Definition rcode_flags (flags : Z) : Prop := flags = 0 ∨ flags = F_NXDOMAIN.

(** what a question asks of the answers, with the result code and its flags *)
Definition ptr_ok (flags : Z) (namep : nat) (nm : list Z) : Prop := has flags F_NXDOMAIN = false →
  (∀ t a, str_at nm 0 = Val t → (in_arpa_name_2_addr t a).1 ≠ 0) → ∃ start an, answer_section mp qlen start an ∧ ptr_good mp qlen namep start an 5 an start.
Definition address_ok (qtype : Z) (addrlen : nat) (flags : Z) (nm : list Z) : Prop := has flags F_NXDOMAIN = false →
  ∃ start an, answer_section mp qlen start an ∧ answers_good no_rebind mp qlen qtype addrlen start an 5 nm an start.
Lemma ptr_question_total namep flags st :
  rcode_flags flags → rinv st → named st →
  total (ptr_question mix_tab room doctors neg_ttl no_neg now qlen namep flags st) (question_ok (ptr_ok flags namep (namebuf st))).
Proof.
  intros Hfl Hr Hn. unfold ptr_question. eapply total_bind_eq; [by apply str_total|]. intros t Hstr Ht.
  pose proof (arpa_kind t (all_addr st)) as Hk. destruct (in_arpa_name_2_addr t (all_addr st)) as [enc a] eqn:Harpa. cbn [fst] in Hk.
  pose proof (rinv_set_addr st a Hr) as Hr1. set (st1 := set_addr a st) in *.
  destruct (Z.eqb_spec enc 0) as [->|Hne]; [apply go_on_ok; [done|]; intros _ H; specialize (H t (all_addr st) Hstr); by rewrite Harpa in H|].
  destruct Hk as [?|Henc]; [done|]. apply answers_then; [|done|].
  - unfold ptr_ok. destruct (has flags F_NXDOMAIN); [apply total_ret; split; [done|]; by split_and!; [|apply no_cpp|]|].
    eapply total_bind_eq; [by apply skip_questions_ok|]. intros [q|] Hsk _; [|by apply quit_ok; [|left]]. rewrite (ri_packet _ Hr1) in Hsk.
    eapply total_bind_eq; [by apply ancount_ok|]. intros an Han _. rewrite (ri_packet _ Hr1) in Han.
    eapply walk_mono; [|by apply ptr_answers_total]. intros Hg _ _. exists q, (Z.to_nat an). split; [split; [done|by exists an]|done].
  - intros found cttl cpp st2 Hr2 Hn2 _ HG. destruct (negb found && negb no_neg); [|by apply go_on_ok].
    eapply total_bind; [by apply lazy_soa_total|]. intros st3 (Hr3 & _ & _). destruct (soa_ttl st3 =? 0); [by apply go_on_ok|].
    pose proof (learn_ok None (Some (all_addr st3)) (soa_ttl st3) (Z.lor (Z.lor (Z.lor enc F_REVERSE) F_NEG) flags) st3 None Hr3) as Hl.
    destruct (learn _ _ _ _ _ _ _ st3) as [newc st4]. destruct Hl as (Hr4 & _); [| | | |by apply go_on_ok].
    + destruct Henc as [->| ->], Hfl as [->| ->]; done.
    + constructor.
    + apply no_cpp.
    + intros c Hm. eapply made_forward; [exact Hm|]. destruct Henc as [->| ->], Hfl as [->| ->]; done.
Qed.
Lemma address_question_total qtype addrlen flags st :
  address_flags flags → address_type qtype addrlen flags → rinv st → named st →
  total (address_question mix_tab room doctors neg_ttl no_neg no_rebind now qlen qtype addrlen flags st)
    (question_ok (address_ok qtype addrlen flags (namebuf st))).
Proof.
  intros Hfl Hty Hr Hn. unfold address_question. apply answers_then; [|done|].
  - unfold address_ok. destruct (has flags F_NXDOMAIN); [apply total_ret; split; [done|]; by split_and!; [|apply no_cpp|]|].
    eapply total_bind_eq; [by apply skip_questions_ok|]. intros [q|] Hsk _; [|by apply quit_ok; [|left]]. rewrite (ri_packet _ Hr) in Hsk.
    eapply total_bind_eq; [by apply ancount_ok|]. intros an Han _. rewrite (ri_packet _ Hr) in Han.
    eapply walk_mono; [|apply (address_answers_total 5 (Z.to_nat an) q); [done|done|done|done|done|apply no_cpp]].
    intros Hg _. exists q, (Z.to_nat an). split; [split; [done|by exists an]|done].
  - intros found cttl cpp st2 Hr2 Hn2 Hc2 HG. destruct (negb found && negb no_neg); [|by apply go_on_ok].
    eapply total_bind; [by apply lazy_soa_total|]. intros st3 (Hr3 & Hn3 & Hc3). destruct (_ || _); [|by apply go_on_ok].
    eapply total_bind; [apply str_total; by rewrite Hn3|]. intros t Ht.
    assert (Hc : cpp_ok st3 cpp) by (intros c Hcpp; rewrite Hc3; by apply Hc2).
    pose proof (learn_ok (Some t) None (if negb (soa_ttl st3 =? 0) then soa_ttl st3 else cttl) (Z.lor (Z.lor F_FORWARD F_NEG) flags) st3 cpp Hr3) as Hl.
    destruct (learn _ _ _ _ _ _ _ st3) as [newc st4]. destruct Hl as (Hr4 & _ & _ & Hc4 & _); [|done|done| |].
    + destruct Hfl as [->|[->|[->| ->]]]; done.
    + intros c Hm. eapply made_negative; [exact Hm|]. destruct Hfl as [->|[->|[->| ->]]]; done.
    + apply go_on_ok; [|done]. by destruct (chain_ok_inv cpp newc None st4 Hr4 Hc4 (no_cpp _)) as (? & _).
Qed.
Definition rc_flags (rc : Z) : Z := if rc =? NXDOMAIN then F_NXDOMAIN else 0.
(** one question, by its type *)
Lemma question_total rc namep qtype st :
  rinv st → named st →
  total (if qtype =? T_PTR then ptr_question mix_tab room doctors neg_ttl no_neg now qlen namep (rc_flags rc) st
         else if qtype =? T_A then address_question mix_tab room doctors neg_ttl no_neg no_rebind now qlen T_A 4 (Z.lor (rc_flags rc) F_IPV4) st
         else if qtype =? T_AAAA then address_question mix_tab room doctors neg_ttl no_neg no_rebind now qlen T_AAAA 16 (Z.lor (rc_flags rc) F_IPV6) st
         else Val (None, st)) (question_ok (question_good no_rebind mp qlen rc namep (namebuf st) qtype)).
Proof.
  intros Hr Hn. unfold question_good, rc_flags.
  assert (Hmono : ∀ o (G G' : Prop), (G → G') → total o (question_ok G) → total o (question_ok G')).
  { intros o G G' H Ho. eapply total_mono; [exact Ho|]. intros [[v|] st'] [? ?]; split; cbn in *; auto. }
  destruct (Z.eqb_spec qtype T_PTR) as [->|H1].
  { eapply Hmono; [|apply ptr_question_total; [|done|done]; destruct (_ =? _); [by right|by left]].
    intros HG Hrc. apply Z.eqb_neq in Hrc. unfold ptr_ok in HG. rewrite Hrc in HG. split_and!; [intros _; by apply HG|done|done]. }
  destruct (Z.eqb_spec qtype T_A) as [->|H2].
  { eapply Hmono; [|apply address_question_total; [| |done|done]]; [|destruct (_ =? _); unfold address_flags; tauto|left; by destruct (_ =? _)].
    intros HG Hrc. apply Z.eqb_neq in Hrc. unfold address_ok in HG. rewrite Hrc in HG. split_and!; [done|intros _; by apply HG|done]. }
  destruct (Z.eqb_spec qtype T_AAAA) as [->|H3]; [|by apply go_on_ok].
  eapply Hmono; [|apply address_question_total; [| |done|done]]; [|destruct (_ =? _); unfold address_flags; tauto|right; by destruct (_ =? _)].
  intros HG Hrc. apply Z.eqb_neq in Hrc. unfold address_ok in HG. rewrite Hrc in HG. split_and!; [done|done|intros _; by apply HG].
Qed.
Lemma reply_questions_total rc i p st :
  rcode mp = Val rc → rinv st →
  total (reply_questions mix_tab room doctors neg_ttl no_neg no_rebind now qlen i p st) (question_ok (questions_good no_rebind mp qlen rc i p)).
Proof.
  intros Hrc. revert p st. induction i as [|i IH]; intros p st Hr; cbn [reply_questions]; [apply go_on_ok; [done|constructor]|].
  assert (Hrc' : rcode (packet st) = Val rc) by (by rewrite (ri_packet _ Hr)). rewrite Hrc', bind_Val.
  eapply total_bind_eq; [by apply extract_total|]. intros [[r p2] nm] He (Hr2 & Hok & _). rewrite (ri_packet _ Hr) in He. set (st2 := set_name nm st) in *.
  destruct (Z.eqb_spec r 0); [apply total_ret; split; [done|by left]|]. destruct (Hok ltac:(done)) as [Hp Hn].
  eapply total_bind_eq; [apply GETSHORT_total; rewrite (ri_len _ Hr2); lia|]. intros qtype Hqt _. rewrite (ri_packet _ Hr2) in Hqt.
  eapply total_bind_eq; [apply GETSHORT_total; rewrite (ri_len _ Hr2); lia|]. intros qclass Hqc _. rewrite (ri_packet _ Hr2) in Hqc.
  eapply (total_bind _ _ (question_ok (qclass = C_IN → question_good no_rebind mp qlen rc p nm qtype))).
  - destruct (Z.eqb_spec qclass C_IN) as [->|Hcl]; cbn [negb]; [|by apply go_on_ok].
    eapply total_mono; [by apply (question_total rc p qtype st2)|]. intros [[v|] st3] [? HG]; (split; [done|]); [exact HG|intros _; exact HG].
  - intros [[v|] st3] [Hr3 Hv]; cbn [fst snd] in *; [apply total_ret; by split|].
    eapply total_mono; [apply IH; exact Hr3|].
    intros [[w|] st4] [Hr4 Hg]; (split; [exact Hr4|]); [exact Hg|]. cbn [fst] in *.
    eapply questions_next; [exists r; split; [exact He|done]|exact Hqt|exact Hqc|exact Hv|exact Hg].
Qed.
End Reply.

(** *** A whole packet *)
Section Packet.
Context (mix_tab : list Z) (room : cache → bool) (doctors : list doctor) (neg_ttl : Z) (no_neg no_rebind : bool)
  (now : Z) (qlen : nat).
Definition packet_ok (s : cache) (m : list Z) (r : Z * reply_state) : Prop :=
  let '(ret, st) := r in
  (ret = 0 ∨ ret = 1) ∧ length (packet st) = length m ∧ rtc (cache_step mix_tab) s (dns_cache st) ∧
  ∀ x, in_tbl (hash_table (dns_cache st)) x →
    in_tbl (hash_table s) x ∧ entry (dns_cache st) x = entry s x ∨
    ret = 0 ∧ (doctors = [] → packet st = m) ∧ good_packet no_rebind (packet st) qlen ∧ fresh no_rebind (entry (dns_cache st) x).
Lemma extract_addresses_total (junk m name : list Z) (s : cache) :
  (HEADER_SIZE ≤ qlen)%nat → (qlen + 10 ≤ length m)%nat → bytes m → (MAXDNAME ≤ length name)%nat → cinv mix_tab s → strings s →
  total (extract_addresses mix_tab room doctors neg_ttl no_neg no_rebind now qlen junk m name s) (packet_ok s m).
Proof.
  intros Hq Hlen Hb Hname Hi Hs. unfold extract_addresses.
  set (st0 := mk_reply m name (cache_start_insert s) false 0 junk). set (rinv_ := rinv mix_tab doctors no_rebind (length m) s).
  assert (Hr0 : ∀ st mp, length mp = length m → bytes mp → packet st = mp → namebuf st = name → dns_cache st = cache_start_insert s →
    searched_soa st = true ∨ doctors = [] → rinv_ mp st).
  { intros st mp Hl Hmb Hp Hn Hc Hsoa. split; rewrite ?Hp, ?Hn, ?Hc; [done|done|done|apply rtc_once, Start|by apply (start_visible mix_tab)|intros x Hx; by apply not_elem_of_nil in Hx|done|done]. }
  eapply (total_bind _ _ (λ st, rinv_ (packet st) st ∧ (doctors = [] → packet st = m))).
  { case_bool_decide as Hd; [apply total_ret; split; [|done]; by apply Hr0; [| | | | |right]|]. cbn [lazy_soa searched_soa st0].
    eapply total_bind; [apply find_soa_total; [cbn; lia|done]|]. intros [t m'] [Hl Hb']. cbn [snd] in *. apply total_ret. split; [|done].
    apply Hr0; [done|by apply Hb'|done..|by left]. }
  intros st1 [Hr1 Hsame]. set (mp := packet st1) in *. clearbody mp. assert (Hlm : length mp = length m) by (rewrite <- (ri_packet _ _ _ _ _ _ _ Hr1); apply Hr1).
  unfold HEADER_SIZE in Hq. destruct (GETSHORT_total mp 4) as (q & Hqd & _); [lia|]. destruct (rd_lt mp 3) as (c3 & _ & Hc3); [lia|].
  destruct (rd_lt mp 2) as (c2 & _ & Hc2); [lia|]. assert (Hrc : rcode mp = Val (Z.land c3 15)) by (unfold rcode; by rewrite Hc3).
  assert (Htc : DnsName.tc mp = Val (Z.testbit c2 1)) by (unfold DnsName.tc; by rewrite Hc2).
  unfold qdcount at 1. rewrite Hqd, bind_Val.
  eapply total_bind; [by apply (reply_questions_total mix_tab room doctors neg_ttl no_neg no_rebind now qlen (length m) ltac:(unfold HEADER_SIZE; lia) Hlen s (conj Hi Hs) mp)|].
  intros [[v|] st2] [Hr2 Hv]; cbn [fst snd] in *.
  { apply total_ret. split_and!; [done|by apply Hr2|by apply Hr2|]. intros x Hx. left. by apply (ri_visible _ _ _ _ _ _ _ Hr2). }
  pose proof Hr2 as [R1 R2 R3 R4 R5 R6 R7 R8]. rewrite R7, Htc, bind_Val.
  destruct (Z.testbit c2 1); apply total_ret; unfold packet_ok; cbn [packet dns_cache set_cache].
  { split_and!; [by left|done|done|]. intros x Hx. left. by apply R5. }
  split_and!; [by left|done|eapply rtc_r; [exact R4|apply End_]|]. intros x Hx.
  destruct (rinv_cinv mix_tab doctors no_rebind (length m) s (conj Hi Hs) mp st2 Hr2) as [Hi2 _].
  destruct (end_effect mix_tab (dns_cache st2) Hi2 x Hx) as [He [Hin|Hin]]; rewrite He.
  - left. by apply R5.
  - right. rewrite R7. split_and!; [done|done| |by apply R6]. split; [done|]. by exists (Z.land c3 15), q.
Qed.
End Packet.

(** ** Bogus wildcards *)
Section Bogus.
Context (mix_tab : list Z) (room : cache → bool) (now : Z) (qlen : nat) (baddr : list (list Z)) (m : list Z) (s : cache).
Context (Hq : (HEADER_SIZE ≤ qlen)%nat) (Hlen : (qlen + 10 ≤ length m)%nat) (Hb : bytes m).
Definition bogus_ok (r : Z * list Z * cache) : Prop :=
  let '(ret, _, s') := r in ret = 0 ∧ s' = s ∨ ret = 1 ∧ rtc (cache_step mix_tab) s s'.
Lemma bogus_answers_total i p name :
  (MAXDNAME ≤ length name)%nat → total (bogus_answers mix_tab room now qlen baddr i p m name s) bogus_ok.
Proof.
  revert p name. induction i as [|i IH]; intros p name Hn; cbn [bogus_answers]; [apply total_ret; by left|].
  destruct (extract_name_total m name qlen p 10 true) as (r & p' & nm & -> & _ & Hl & _ & Hok & _); [lia|done|done|done|]. rewrite bind_Val.
  destruct (Z.eqb_spec r 0); [apply total_ret; by left|]. destruct (Hok ltac:(done)) as [Hp' Hz].
  eapply total_bind; [apply rr_head_total; lia|]. intros [[[qtype qclass] ttl] rdlen] _.
  assert (Hnext : total (let '(ok, p) := ADD_RDLEN (p' + 10) qlen (Z.to_nat rdlen) in
    if negb ok then Val (0, nm, s) else bogus_answers mix_tab room now qlen baddr i p m nm s) bogus_ok).
  { unfold ADD_RDLEN. cbn [negb]. apply IH. lia. }
  destruct (_ && _); [|apply Hnext]. unfold CHECK_LEN. destruct (Nat.leb_spec (p' + 10 + 4) qlen); cbn [negb]; [|apply total_ret; by left].
  eapply total_bind; [apply load_total; lia|]. intros bs _. destruct (bool_decide _); [|apply Hnext].
  eapply total_bind; [by apply str_total|]. intros t Ht. apply total_ret. right. split; [done|].
  eapply rtc_r; [|apply End_]. eapply rtc_r; [apply rtc_once, Start|]. by apply (Insert mix_tab (room (cache_start_insert s)) (Some t) None).
Qed.
(** A packet with a bogus address takes the cache along its operations, any other
    leaves it alone. *)
Lemma check_for_bogus_wildcard_total name :
  (MAXDNAME ≤ length name)%nat → total (check_for_bogus_wildcard mix_tab room now qlen baddr m name s) bogus_ok.
Proof.
  intros Hn. unfold check_for_bogus_wildcard. eapply total_bind; [apply skip_questions_total; [lia|done]|].
  intros [p|] _; [|apply total_ret; by left]. unfold HEADER_SIZE in Hq. eapply total_bind; [apply GETSHORT_total; lia|]. intros an _.
  by apply bogus_answers_total.
Qed.
End Bogus.

(** ** A reply with one address *)
Section OneAddress.
Context (m : list Z) (qlen : nat) (Hm : (qlen ≤ length m)%nat).
(** a question of type [qtype] for the name with the labels [ls], and an answer for the
    same name with the address [a] *)
Record address_packet (qtype : Z) (ls : list text) (ttl : Z) (a : list Z) : Prop := {
  ap_qdcount : qdcount m = Val 1;
  ap_ancount : ancount m = Val 1;
  ap_rcode : ∃ rc, rcode m = Val rc ∧ rc ≠ NXDOMAIN;
  ap_tc : DnsName.tc m = Val false;
  ap_records : ∃ e ls' e', accepted m qlen HEADER_SIZE 4 ls e ∧ (e + 4 ≤ qlen)%nat ∧
    GETSHORT m e = Val qtype ∧ GETSHORT m (e + 2) = Val C_IN ∧
    accepted m qlen (e + 4) 10 ls' e' ∧ map fold (join ls') = map fold (join ls) ∧
    rr_head m e' = Val (qtype, C_IN, ttl, Z.of_nat (length a)) ∧ (e' + 10 + length a ≤ qlen)%nat ∧
    load (e' + 10) (length a) m = Val a
}.
Lemma until_nul_split nm t : until_nul nm = Val t → ∃ post, nm = t ++ 0 :: post.
Proof.
  revert t. induction nm as [|c nm IH]; intros t; cbn [until_nul]; [done|]. destruct (Z.eqb_spec c 0) as [->|Hc].
  - intros [= <-]. by exists nm.
  - destruct (until_nul nm) as [t'|]; [|done]. intros [= <-]. destruct (IH t' eq_refl) as [post ->]. by exists post.
Qed.
Lemma join_nonzero ls : good_labels ls → Forall (λ c, c ≠ 0) (join ls).
Proof.
  intros Hg. pose proof (dotted_nonzero ls Hg) as Hd. destruct ls as [|l ls]; [constructor|].
  rewrite dotted_snoc in Hd by done. by apply Forall_app in Hd as [? _].
Qed.
(** the name of the answer against the name in the buffer *)
Lemma compare_accepted ls ls' p x e nm :
  accepted m qlen p x ls' e → good_labels ls → map fold (join ls') = map fold (join ls) → str_at nm 0 = Val (join ls) →
  extract_name m qlen p nm false x = Val (1, e, nm).
Proof.
  intros (n & t & Hw & Hg' & Hn & Hd & Ht) Hg Heq Hstr. unfold str_at in Hstr. rewrite drop_0 in Hstr.
  apply until_nul_split in Hstr as [post ->].
  rewrite (extract_name_equal m (join ls) post qlen p x n e t ls') by (done || by apply join_nonzero).
  rewrite hostname_isequal_fold by (by apply join_nonzero). by rewrite bool_decide_eq_true_2.
Qed.
Lemma skip_one ls e : qdcount m = Val 1 → accepted m qlen HEADER_SIZE 4 ls e → (e + 4 ≤ qlen)%nat →
  skip_questions m qlen = Val (Some (e + 4)%nat).
Proof.
  intros Hqd (n & t & Hw & _) He. unfold skip_questions. rewrite Hqd, bind_Val. change (Z.to_nat 1) with 1%nat. cbn [skip_question].
  unfold skip_name. destruct (skip_wire m qlen Hm HEADER_SIZE n ls e t (qlen + 2) Hw) as [-> _]; [unfold HEADER_SIZE; lia|].
  rewrite !bind_Val. unfold CHECK_LEN. destruct (Nat.leb_spec (e + 4) qlen); [done|lia].
Qed.
End OneAddress.

Lemma extract_one_address mix_tab (room : cache → bool) neg_ttl (no_neg no_rebind : bool) now qlen (junk m name a : list Z) s
    qtype ls ttl fl new s1 :
  (qlen ≤ length m)%nat → (MAXDNAME ≤ length name)%nat →
  (qtype = T_A ∧ fl = F_IPV4 ∧ length a = 4%nat) ∨ (qtype = T_AAAA ∧ fl = F_IPV6 ∧ length a = 16%nat) →
  address_packet m qlen qtype ls ttl a →
  no_rebind && has fl F_IPV4 && private_net (le_load (take 4 (patch 0 a junk))) = false →
  cache_insert mix_tab (room (cache_start_insert s)) (Some (join ls)) (Some (patch 0 a junk)) now ttl (Z.lor fl F_FORWARD)
    (cache_start_insert s) = (Some new, s1) →
  ∃ st, extract_addresses mix_tab room [] neg_ttl no_neg no_rebind now qlen junk m name s = Val (0, st) ∧
    dns_cache st = cache_end_insert mix_tab s1.
Proof.
  intros Hm Hname Hkind [Hqd Han (rc & Hrc & Hnx) Htc (e & ls' & e' & Hacc & He & Hty & Hcl & Hacc' & Heq & Hrr & He' & Hload)] Hpriv Hins.
  pose proof Hacc as (_ & _ & _ & Hg & _).
  unfold extract_addresses. rewrite bool_decide_eq_true_2 by done. rewrite bind_Val. cbn [packet].
  rewrite Hqd, bind_Val. change (Z.to_nat 1) with 1%nat. cbn [reply_questions packet namebuf].
  rewrite Hrc, bind_Val. destruct (Z.eqb_spec rc NXDOMAIN); [done|].
  destruct (extract_name_complete m name qlen HEADER_SIZE 4 Hm Hname ls e Hacc) as (nm & -> & Hstr & Hl). rewrite bind_Val.
  cbn [Z.eqb]. set (st1 := set_name nm _). change (packet st1) with m. rewrite Hty, bind_Val, Hcl, bind_Val. cbn [Z.eqb Pos.eqb negb].
  assert (Hans : address_question mix_tab room [] neg_ttl no_neg no_rebind now qlen qtype (length a) fl st1 =
    Val (None, set_cache s1 (set_addr (patch 0 a junk) st1))).
  { unfold address_question. replace (has fl F_NXDOMAIN) with false by (by destruct Hkind as [(_ & -> & _)|(_ & -> & _)]).
    change (packet st1) with m. rewrite (skip_one m qlen Hm ls e Hqd Hacc He), bind_Val, Han, bind_Val. change (Z.to_nat 1) with 1%nat.
    cbn [address_answers]. unfold address_record. change (packet st1) with m. change (namebuf st1) with nm.
    rewrite (compare_accepted m qlen Hm ls ls' (e + 4) 10 e' nm Hacc' Hg Heq Hstr), bind_Val. cbn [Z.eqb].
    change (packet (set_name nm st1)) with m. rewrite Hrr, bind_Val.
    assert ((qtype =? T_CNAME) = false ∧ (qtype =? qtype) = true) as [-> ->] by (destruct Hkind as [(-> & _)|(-> & _)]; done).
    change (C_IN =? C_IN) with true. cbn [Pos.eqb negb andb orb].
    unfold CHECK_LEN. destruct (Nat.leb_spec (e' + 10 + length a) qlen); [|lia]. cbn [negb]. rewrite Hload, bind_Val.
    cbn [all_addr namebuf set_addr set_name st1]. rewrite Hpriv. rewrite Hstr, bind_Val.
    unfold learn. cbn [dns_cache set_addr set_name all_addr]. change (dns_cache st1) with (cache_start_insert s). rewrite Hins, Nat2Z.id.
    destruct (Nat.leb_spec (e' + 10 + length a + 0) qlen); [|lia]. done. }
  change (Z.lor 0 F_IPV4) with F_IPV4. change (Z.lor 0 F_IPV6) with F_IPV6.
  match goal with |- context [if ?q =? T_PTR then _ else ?rest] => assert (Hsel : (q =? T_PTR) = false ∧ rest = Val (None, set_cache s1 (set_addr (patch 0 a junk) st1))) end.
  { destruct Hkind as [(-> & -> & Ha)|(-> & -> & Ha)]; rewrite Ha in Hans; (split; [done|exact Hans]). }
  destruct Hsel as [-> ->]. change (negb (C_IN =? C_IN)) with false. cbv iota. rewrite !bind_Val. change (packet (set_cache s1 (set_addr (patch 0 a junk) st1))) with m.
  rewrite Htc, bind_Val. by eexists.
Qed.

(** ** The theorems *)

(** C12. extract_addresses is safe on every packet, however malformed, when the buffer
    holds ten bytes more than the packet: it ends, whatever CNAMEs the packet chains
    or loops, reads and writes inside its buffers, returns 0 or 1, and takes the cache
    from a state that its operations lead to to another such state. *)
Theorem extract_addresses_safe (mix_tab : list Z) (room : cache → bool) (doctors : list doctor) (neg_ttl : Z)
    (no_neg no_rebind : bool) (now : Z) (qlen cachesize : nat) (junk m name : list Z) (s : cache) :
  (HEADER_SIZE ≤ qlen)%nat → (qlen + 10 ≤ length m)%nat → bytes m → (MAXDNAME ≤ length name)%nat →
  reachable mix_tab cachesize s →
  ∃ ret st, extract_addresses mix_tab room doctors neg_ttl no_neg no_rebind now qlen junk m name s = Val (ret, st) ∧
    (ret = 0 ∨ ret = 1) ∧ length (packet st) = length m ∧ reachable mix_tab cachesize (dns_cache st).
Proof.
  intros Hq Hl Hb Hn Hr. destruct (reachable_inv mix_tab cachesize s Hr) as [Hi Hs].
  destruct (extract_addresses_total mix_tab room doctors neg_ttl no_neg no_rebind now qlen junk m name s)
    as ([ret st] & He & Hret & Hlen & Hst & _); [done..|]. exists ret, st. split_and!; [done..|]. unfold reachable. by transitivity s.
Qed.
Definition dns_header (an : Z) : list Z := [0; 1; 0x80; 0; 0; 1; 0; an; 0; 0; 0; 0].
(** an answer to a question for the addresses of a.b *)
Definition sample_reply (a : list Z) : list Z :=
  dns_header 1 ++ [1; 97; 1; 98; 0; 0; 1; 0; 1] ++ [0xc0; 12; 0; 1; 0; 1; 0; 0; 0; 60; 0; 4] ++ a ++ repeat 0 10.
Lemma extract_addresses_safe_witness :
  ∃ ret st, extract_addresses [] (λ _, true) [] 0 false true 100 37 [] (sample_reply [10; 0; 0; 1]) (repeat 0 1025) example_cache = Val (ret, st) ∧
    (ret = 0 ∨ ret = 1) ∧ length (packet st) = 47%nat ∧ reachable [] 3 (dns_cache st).
Proof.
  apply (extract_addresses_safe [] (λ _, true) [] 0 false true 100 37 3 [] (sample_reply [10; 0; 0; 1]) (repeat 0 1025) example_cache);
    [unfold HEADER_SIZE; lia|cbn; lia|repeat constructor; unfold is_u8; lia|by rewrite repeat_length|apply example_reachable].
Defined.

(** C8. What a packet adds to the cache it adds as a whole or not at all.  Every entry on
    a hash chain after extract_addresses was there before, unchanged, or the result is
    0 and the packet, its addresses as the rules of --alias rewrite them (unchanged when
    there are none), is a good one: it is not truncated, the names of all its questions
    can be read, and for every question for addresses or for the name of an address
    that is not answered by NXDOMAIN all the answers can be read one after the other to
    the end of the last inside the packet, the names that CNAMEs give and the addresses
    for the name included, after at most five CNAMEs, and with the protection against
    rebinding on no IPv4 address for the name is one of a private network.  So a bad,
    refused or truncated packet adds nothing, not even what came before the place that
    is bad; and with the protection on, no IPv4 address of a private network enters the
    cache as an answer for a name. *)
Theorem reply_adds_soundly (mix_tab : list Z) (room : cache → bool) (doctors : list doctor) (neg_ttl : Z)
    (no_neg no_rebind : bool) (now : Z) (qlen cachesize : nat) (junk m name : list Z) (s : cache) (ret : Z) (st : reply_state) (x : nat) :
  (HEADER_SIZE ≤ qlen)%nat → (qlen + 10 ≤ length m)%nat → bytes m → (MAXDNAME ≤ length name)%nat →
  reachable mix_tab cachesize s →
  extract_addresses mix_tab room doctors neg_ttl no_neg no_rebind now qlen junk m name s = Val (ret, st) →
  in_tbl (hash_table (dns_cache st)) x →
  in_tbl (hash_table s) x ∧ entry (dns_cache st) x = entry s x ∨
  ret = 0 ∧ (doctors = [] → packet st = m) ∧ good_packet no_rebind (packet st) qlen ∧
  (no_rebind = true → has (eflags (dns_cache st) x) F_FORWARD = true → has (eflags (dns_cache st) x) F_IPV4 = true →
   has (eflags (dns_cache st) x) F_NEG = false →
   ∃ a, addr (entry (dns_cache st) x) = Addr a ∧ private_net (le_load (take 4 a)) = false).
Proof.
  intros Hq Hl Hb Hn Hr He Hx. destruct (reachable_inv mix_tab cachesize s Hr) as [Hi Hs].
  destruct (extract_addresses_total mix_tab room doctors neg_ttl no_neg no_rebind now qlen junk m name s)
    as ([ret' st'] & He' & _ & _ & _ & Hall); [done..|]. rewrite He in He'. injection He' as <- <-. exact (Hall x Hx).
Qed.
Definition after_reply (m : list Z) (qlen : nat) : reply_state :=
  match extract_addresses [] (λ _, true) [] 0 false true 100 qlen [] m (repeat 0 1025) example_cache with
  | Val (_, st) => st
  | UB => mk_reply [] [] example_cache false 0 []
  end.
Abbreviation learnt := (after_reply (sample_reply [1; 2; 3; 4]) 37).
(** the address of [sample_reply] is in the entry 1 *)
Lemma reply_adds_soundly_witness :
  in_tbl (hash_table example_cache) 1 ∧ entry (dns_cache learnt) 1 = entry example_cache 1 ∨
  0 = 0 ∧ (@nil doctor = [] → packet learnt = sample_reply [1; 2; 3; 4]) ∧ good_packet true (packet learnt) 37 ∧
  (true = true → has (eflags (dns_cache learnt) 1) F_FORWARD = true → has (eflags (dns_cache learnt) 1) F_IPV4 = true →
   has (eflags (dns_cache learnt) 1) F_NEG = false →
   ∃ a, addr (entry (dns_cache learnt) 1) = Addr a ∧ private_net (le_load (take 4 a)) = false).
Proof.
  apply (reply_adds_soundly [] (λ _, true) [] 0 false true 100 37 3 [] (sample_reply [1; 2; 3; 4]) (repeat 0 1025) example_cache 0 learnt 1);
    [unfold HEADER_SIZE; lia|cbn; lia|repeat constructor; unfold is_u8; lia|by rewrite repeat_length|apply example_reachable|
     vm_compute; reflexivity|].
  apply in_tbl_concat. vm_compute. by left.
Defined.
(** the same reply that promises a second answer and ends in the middle of it, and one
    whose second address is private *)
Example bad_packet_adds_nothing :
  let cut := dns_header 2 ++ drop 12 (sample_reply [1; 2; 3; 4]) in
  let private := dns_header 2 ++ take 25 (drop 12 (sample_reply [1; 2; 3; 4])) ++ drop 21 (sample_reply [10; 0; 0; 1]) in
  hash_table (dns_cache (after_reply cut 37)) = hash_table example_cache ∧
  hash_table (dns_cache (after_reply private 53)) = hash_table example_cache ∧
  hash_table (dns_cache learnt) ≠ hash_table example_cache.
Proof. by vm_compute. Qed.

(** From the wire to the answer.  A good reply that answers its question for the
    IPv4 or IPv6 addresses of a name with one record, the name compressed or not and in
    any case, is learnt: when the cache has room for it (and the name is not one of a
    hosts file or lease), extract_addresses returns 0 and from then until the time to
    live is over a lookup of the name, as the question has it, gives the new entry and
    no other, and the entry holds the address of the record. *)
Theorem address_reply_cached (mix_tab : list Z) (room : cache → bool) (neg_ttl : Z) (no_neg no_rebind : bool)
    (now now' ttl qtype fl : Z) (qlen cachesize fuel new : nat) (junk m name a : list Z) (ls : list text) (s s1 : cache) :
  (qlen ≤ length m)%nat → (MAXDNAME ≤ length name)%nat → reachable mix_tab cachesize s →
  (qtype = T_A ∧ fl = F_IPV4 ∧ length a = 4%nat) ∨ (qtype = T_AAAA ∧ fl = F_IPV6 ∧ length a = 16%nat) →
  address_packet m qlen qtype ls ttl a →
  no_rebind && has fl F_IPV4 && private_net (le_load (take 4 a)) = false →
  cache_insert mix_tab (room (cache_start_insert s)) (Some (join ls)) (Some (patch 0 a junk)) now ttl (Z.lor fl F_FORWARD)
    (cache_start_insert s) = (Some new, s1) →
  now' < now + ttl → (1 < fuel)%nat →
  ∃ st, extract_addresses mix_tab room [] neg_ttl no_neg no_rebind now qlen junk m name s = Val (0, st) ∧
    answers (cache_find_by_name mix_tab (join ls) now' fl) fuel None (dns_cache st) = [new] ∧
    ∃ rest, addr (entry (dns_cache st) new) = Addr (a ++ rest).
Proof.
  intros Hm Hname Hr Hkind Hp Hpriv Hins Hnow Hfuel.
  assert (Hpatch : patch 0 a junk = a ++ drop (length a) junk) by done.
  destruct (extract_one_address mix_tab room neg_ttl no_neg no_rebind now qlen junk m name a s qtype ls ttl fl new s1) as (st & He & Hst);
    [done|done|done|done| |done|].
  { rewrite Hpatch, take_app_le; [done|]. destruct Hkind as [(_ & _ & ->)|(_ & _ & ->)]; lia. }
  exists st. split; [done|]. rewrite Hst.
  destruct (insert_lookup mix_tab cachesize s s1 (room (cache_start_insert s)) (join ls) (patch 0 a junk) now ttl (Z.lor fl F_FORWARD) now' fl new fuel)
    as [Hans Ha]; [done| | | | | | |done|done|done|].
  - destruct Hp as [_ _ _ _ (e & ? & ? & (_ & _ & _ & Hg & _) & _)]. by apply join_nonzero.
  - by destruct Hkind as [(_ & -> & _)|(_ & -> & _)].
  - by destruct Hkind as [(_ & -> & _)|(_ & -> & _)].
  - by destruct Hkind as [(_ & -> & _)|(_ & -> & _)].
  - destruct Hkind as [(_ & -> & _)|(_ & -> & _)]; [by left|by right].
  - by destruct Hkind as [(_ & -> & _)|(_ & -> & _)].
  - split; [done|]. exists (drop (length a) junk). by rewrite Ha, Hpatch.
Qed.
Lemma sample_packet : address_packet (sample_reply [1; 2; 3; 4]) 37 T_A [[97]; [98]] 60 [1; 2; 3; 4].
Proof.
  split; [done|done|by exists 0|done|]. exists 17%nat, [[97]; [98]], 23%nat.
  assert (Hw : wire (sample_reply [1; 2; 3; 4]) 37 12 0 [[97]; [98]] 17 17).
  { apply (wire_label_eq _ 37 12 1); [done|lia|cbn; lia|done|]. apply (wire_label_eq _ 37 14 1); [done|lia|cbn; lia|done|].
    by apply (wire_end _ 37 16); [|lia]. }
  split_and!; [|lia|done|done| |done|done|cbn; lia|done].
  - exists 0%nat, 17%nat. split_and!; [done|by repeat constructor|lia|unfold MAXDNAME; cbn; lia|lia].
  - exists 1%nat, 17%nat. split_and!; [|by repeat constructor|lia|unfold MAXDNAME; cbn; lia|lia].
    by apply (wire_pointer _ 37 21 0xc0 12 0 [[97]; [98]] 17 17); [| | |lia|].
Qed.
Lemma address_reply_cached_witness :
  ∃ st, extract_addresses [] (λ _, true) [] 0 false true 100 37 [] (sample_reply [1; 2; 3; 4]) (repeat 0 1025) example_cache = Val (0, st) ∧
    answers (cache_find_by_name [] [97; 46; 98] 120 F_IPV4) 2 None (dns_cache st) = [1%nat] ∧
    ∃ rest, addr (entry (dns_cache st) 1) = Addr ([1; 2; 3; 4] ++ rest).
Proof.
  eapply (address_reply_cached [] (λ _, true) 0 false true 100 120 60 T_A F_IPV4 37 3 2 1 [] (sample_reply [1; 2; 3; 4]) (repeat 0 1025)
    [1; 2; 3; 4] [[97]; [98]] example_cache);
    [cbn; lia|by rewrite repeat_length|apply example_reachable|by left|apply sample_packet|done|vm_compute; reflexivity|lia|lia].
Defined.

(** The name of the question is extracted again before each answer is compared with
    it, also after a CNAME was followed: an answer to a PTR question that comes through
    a CNAME, as delegation in parts of a network makes it, is never learnt.  The packet
    asks for 4.3.2.1.in-addr.arpa, a CNAME for x.in-addr.arpa, whose name is h. *)
Definition ptr_cname_reply : list Z :=
  dns_header 2 ++ [1; 52; 1; 51; 1; 50; 1; 49; 7; 105; 110; 45; 97; 100; 100; 114; 4; 97; 114; 112; 97; 0; 0; 12; 0; 1] ++
  [0xc0; 12; 0; 5; 0; 1; 0; 0; 0; 60; 0; 4; 1; 120; 0xc0; 20] ++ [0xc0; 50; 0; 12; 0; 1; 0; 0; 0; 60; 0; 3; 1; 104; 0] ++ repeat 0 10.
Example ptr_cname_not_learnt :
  match extract_addresses [] (λ _, true) [] 0 false true 100 69 (repeat 0 16) ptr_cname_reply (repeat 0 1025) (cache_init [] 3) with
  | Val (ret, st) => ret = 0 ∧ concat (hash_table (dns_cache st)) = [] ∧ new_chain (dns_cache st) = []
  | UB => False
  end.
Proof. by vm_compute. Qed.
(** The ten bytes are needed: after a compressed name the check is made behind the name
    that the pointer leads to, and the record's head is read behind the pointer. *)
Example compressed_name_overread :
  let m := dns_header 2 ++ [1; 97; 1; 98; 0; 0; 1; 0; 1] ++ [0xc0; 12; 0; 1; 0; 1; 0; 0; 0; 60; 0; 4; 1; 2; 3; 4] ++ [0xc0; 12] in
  extract_addresses [] (λ _, true) [] 0 false false 100 39 [] m (repeat 0 1025) (cache_init [] 3) = UB.
Proof. by vm_compute. Qed.
End DnsReplySpec.
