(* ===== verification/DnsHosts.v ===== *)
(** * Hosts files and leases in the cache (src/external/dnsmasq/src/cache.c)

    The entries that the cache does not expire by itself: add_hosts_entry with the
    aliases of the configuration, the reader of hosts files, cache_reload, and the
    entries of DHCP leases.  A file is the list of its bytes.  Memory comes from
    [mallocs], the answers of whine_malloc to come: the place of an entry, or none;
    [inet_pton4] and [inet_pton6] are inet_pton for the two families.  The fields that
    the code leaves uninitialised and does not read are 0. *)
From stdpp Require Import gmap sorting.
From S2P Require Import Prelude Runtime DriverRt DnsUtil DnsName DnsMsg DnsCache DnsCacheInv DnsCacheSpec.
Import DnsUtil DnsMsg DnsCache DnsCacheInv DnsCacheSpec.

Module DnsHosts.

(** ** Tokens *)
Definition isspace (c : Z) : bool := between 9 13 c || (c =? 32).
Definition EOF : Z := -1.
(** The value and the rest of the file; [comment]: inside the loop that skips one. *)
Fixpoint eatspace (f : list Z) (nl : Z) (comment : bool) : Z * list Z :=
  match f with
  | [] => (1, [])
  | c :: f' =>
      if comment then if c =? 10 then eatspace f' 1 false else eatspace f' nl true
      else if c =? chr "#" then eatspace f' nl true
      else if negb (isspace c) then (nl, f)
      else eatspace f' (if c =? 10 then 1 else nl) false
  end.
(** The value, the token and the rest of the file. *)
Fixpoint gettok (f : list Z) (token : text) : Z * text * list Z :=
  match f with
  | [] => ((if (length token =? 0)%nat then EOF else 1), token, [])
  | c :: f' =>
      if isspace c || (c =? chr "#") then let '(nl, f) := eatspace f 0 false in (nl, token, f)
      else gettok f' (if (length token <? MAXDNAME - 1)%nat then token ++ [c] else token)
  end.
(** the string in a buffer with these characters *)
Fixpoint cstring (t : text) : text :=
  match t with [] => [] | c :: t' => if c =? 0 then [] else c :: cstring t' end.

Section Hosts.
Context (mix_tab : list Z) (inet_pton4 inet_pton6 : text → option (list Z)) (canon_room : text → bool) (rehash_room : bool).
(** daemon->cnames: alias and target; daemon->cond_domain: start, end (as numbers) and
    domain; daemon->domain_suffix; the options *)
Context (cnames : list (text * text)) (cond_domain : list (Z * Z * text)) (domain_suffix : option text) (opt_expand : bool).

Record hosts_state := mk_hosts { hcache : cache; dhcp_spare : list nat; mallocs : list (option nat) }.
Definition set_hcache s st := mk_hosts s (dhcp_spare st) (mallocs st).
Definition whine_malloc (st : hosts_state) : option nat * hosts_state :=
  match mallocs st with [] => (None, st) | o :: l => (o, mk_hosts (hcache st) (dhcp_spare st) l) end.
(** if ((crec = dhcp_spare)) dhcp_spare = dhcp_spare->next; else crec = whine_malloc *)
Definition spare_crec (st : hosts_state) : option nat * hosts_state :=
  match dhcp_spare st with
  | id :: l => (Some id, mk_hosts (hcache st) l (mallocs st))
  | [] => whine_malloc st
  end.

(** The loop over the aliases of a name, with memory from [get]. *)
Fixpoint add_aliases (get : hosts_state → option nat * hosts_state) (name : text) (due fl : Z) (target : nat) (u : Z)
    (l : list (text * text)) (st : hosts_state) : hosts_state :=
  match l with
  | [] => st
  | (alias, tgt) :: l' =>
      let st := if hostname_isequal name tgt then
                  match get st with
                  | (Some id, st) => set_hcache (hash_entry mix_tab id (mk_crec due 0 (Cname (Some target) u) fl alias None) (hcache st)) st
                  | (None, st) => st
                  end
                else st in
      add_aliases get name due fl target u l' st
  end.

(** whether an entry of a hosts file has the address already *)
Definition host_address (a : list Z) (addrlen : nat) (flags : Z) (s : cache) (id : nat) : bool :=
  has (eflags s id) F_HOSTS && negb (Z.land (Z.land (eflags s id) flags) (Z.lor F_IPV4 F_IPV6) =? 0) &&
  same_addr addrlen (addr (entry s id)) a.
Definition add_hosts_entry (id : nat) (name : text) (a : list Z) (addrlen : nat) (flags index : Z) (addr_dup : bool)
    (st : hosts_state) : hosts_state :=
  let '(lookup, s) := cache_find_by_name mix_tab name 0 (Z.land flags (Z.lor F_IPV4 F_IPV6)) None (hcache st) in
  let st := set_hcache s st in
  let nameexists := match lookup with Some l => has (eflags s l) F_HOSTS | None => false end in
  if nameexists && match lookup with Some l => same_addr addrlen (addr (entry s l)) a | None => false end then st else
  let flags := if addr_dup then clear flags F_REVERSE
               else if existsb (host_address a addrlen flags s) (concat (hash_table s)) then clear flags F_REVERSE
               else flags in
  let st := set_hcache (hash_entry mix_tab id (mk_crec 0 index (Addr (take addrlen a)) flags name None) s) st in
  if nameexists then st
  else add_aliases whine_malloc name 0 (Z.lor (Z.lor (Z.lor (Z.lor F_FORWARD F_IMMORTAL) F_CONFIG) F_HOSTS) F_CNAME)
         id index cnames st.

Definition get_domain (a : list Z) : option text :=
  match List.find (λ '(lo, hi, _), (lo <=? ntohl (le_load a)) && (ntohl (le_load a) <=? hi)) cond_domain with
  | Some (_, _, d) => Some d
  | None => domain_suffix
  end.

(** ** A hosts file *)

(** The names of a line: the loop while (atnl == 0); [fuel]: one for each token.  The
    result is atnl, addr_dup and name_count, and the rest of the file. *)
Definition host_name (canon : text) (suffix : option text) (fqdn : bool) (a : list Z) (addrlen : nat) (flags index : Z)
    (addr_dup : bool) (name_count : Z) (st : hosts_state) : bool * Z * hosts_state :=
  let '(addr_dup, name_count, st) :=
    match suffix with
    | Some d => if opt_expand && negb fqdn then
                  match whine_malloc st with
                  | (Some id, st) => (true, name_count + 1, add_hosts_entry id (canon ++ chr "." :: d) a addrlen flags index addr_dup st)
                  | (None, st) => (addr_dup, name_count, st)
                  end
                else (addr_dup, name_count, st)
    | None => (addr_dup, name_count, st)
    end in
  match whine_malloc st with
  | (Some id, st) => (addr_dup, name_count + 1, add_hosts_entry id canon a addrlen flags index addr_dup st)
  | (None, st) => (addr_dup, name_count, st)
  end.
Fixpoint host_names (fuel : nat) (atnl : Z) (f : list Z) (suffix : option text) (a : list Z) (addrlen : nat) (flags index : Z)
    (addr_dup : bool) (name_count : Z) (st : hosts_state) : Z * list Z * Z * hosts_state :=
  match fuel with
  | O => (atnl, f, name_count, st)
  | S fuel' =>
      if negb (atnl =? 0) then (atnl, f, name_count, st) else
      let '(atnl, token, f) := gettok f [] in
      if atnl =? EOF then (atnl, f, name_count, st) else
      let token := cstring token in
      let fqdn := existsb (Z.eqb (chr ".")) token in
      match (canonicalise (canon_room token) token).1.1 with
      | Some canon =>
          let '(addr_dup, name_count, st) := host_name canon suffix fqdn a addrlen flags index addr_dup name_count st in
          host_names fuel' atnl f suffix a addrlen flags index addr_dup name_count st
      | None => host_names fuel' atnl f suffix a addrlen flags index addr_dup name_count st
      end
  end.
(** while (atnl == 0) atnl = gettok(f, token) after a bad address *)
Fixpoint skip_line (fuel : nat) (atnl : Z) (f : list Z) : list Z :=
  match fuel with
  | O => f
  | S fuel' => if negb (atnl =? 0) then f else let '(atnl, _, f) := gettok f [] in skip_line fuel' atnl f
  end.
(** The flags, the length and the bytes of an address, and the domain of its names. *)
Definition host_addr (token : text) : option (Z * nat * list Z * option text) :=
  match inet_pton4 token with
  | Some a => Some (Z.lor (Z.lor (Z.lor (Z.lor F_HOSTS F_IMMORTAL) F_FORWARD) F_REVERSE) F_IPV4, 4%nat, a, get_domain a)
  | None =>
      match inet_pton6 token with
      | Some a => Some (Z.lor (Z.lor (Z.lor (Z.lor F_HOSTS F_IMMORTAL) F_FORWARD) F_REVERSE) F_IPV6, 16%nat, a, domain_suffix)
      | None => None
      end
  end.
(** [saved]: saved_flags and saved_addr *)
Fixpoint host_lines (fuel : nat) (f : list Z) (index : Z) (cache_size name_count : Z) (saved : Z * list Z) (st : hosts_state)
  : Z * hosts_state :=
  match fuel with
  | O => (name_count, st)
  | S fuel' =>
      let '(atnl, token, f) := gettok f [] in
      if atnl =? EOF then (name_count, st) else
      match host_addr (cstring token) with
      | None => host_lines fuel' (skip_line (length f) atnl f) index cache_size name_count saved st
      | Some (flags, addrlen, a, suffix) =>
          let addr_dup := (saved.1 =? flags) && bool_decide (take addrlen a = take addrlen saved.2) in
          let saved := if addr_dup then saved else (flags, a) in
          let '(cache_size, st) := if 1000 <? name_count - cache_size
                                   then (name_count, set_hcache (rehash mix_tab rehash_room name_count (hcache st)) st)
                                   else (cache_size, st) in
          let '(_, f, name_count, st) := host_names (length f) atnl f suffix a addrlen flags index addr_dup name_count st in
          host_lines fuel' f index cache_size name_count saved st
      end
  end.
(** The number of names; [None]: the file cannot be opened. *)
Definition read_hostsfile (file : option (list Z)) (index cache_size : Z) (st : hosts_state) : Z * hosts_state :=
  match file with
  | None => (0, st)
  | Some f =>
      let '(_, f) := eatspace f 0 false in
      let '(name_count, st) := host_lines (S (length f)) f index cache_size cache_size (0, []) st in
      (name_count, set_hcache (rehash mix_tab rehash_room name_count (hcache st)) st)
  end.

(** [hosts]: the hosts file unless it is not to be read, [addn]: the active additional
    files with their indices, those found in directories included. *)
Definition cache_reload (hosts : option (option (list Z))) (addn : list (Z * option (list Z))) (cachesize : Z)
    (st : hosts_state) : hosts_state :=
  let st := set_hcache (cache_flush (hcache st)) st in
  let '(total_size, st) := match hosts with
                           | Some file => read_hostsfile file 0 cachesize st
                           | None => (cachesize, st)
                           end in
  (foldl (λ '(total_size, st) '(index, file), read_hostsfile file index total_size st) (total_size, st) addn).2.

(** ** Leases *)

(** The loop over the addresses of the name: [None] when the function returns in it.
    The bytes of the pointer of an alias are taken for no address. *)
Fixpoint lease_name (fuel : nat) (crecp : option nat) (host : text) (host_address : list Z) (in_hosts : bool) (s : cache)
  : option bool * cache :=
  match fuel with
  | O => (None, s)
  | S fuel' =>
      match cache_find_by_name mix_tab host 0 (Z.lor F_IPV4 F_CNAME) crecp s with
      | (None, s) => (Some in_hosts, s)
      | (Some id, s) =>
          let f := eflags s id in
          if has f F_HOSTS then
            if negb (same_addr 4 (addr (entry s id)) host_address) then (None, s)
            else lease_name fuel' (Some id) host host_address true s
          else if negb (has f F_DHCP) then
            (Some in_hosts, (cache_scan_free mix_tab host [] 0 (Z.land f (Z.lor (Z.lor F_IPV4 F_CNAME) F_FORWARD)) s).2)
          else lease_name fuel' (Some id) host host_address in_hosts s
      end
  end.
(** The entry of the lease and those of its aliases. *)
Definition hash_lease (host : text) (host_address : list Z) (due : Z) (st : hosts_state) : hosts_state :=
  let flags := Z.lor (Z.lor (Z.lor F_DHCP F_FORWARD) F_IPV4) F_REVERSE in
  let '(crecp, s) := cache_find_by_addr host_address 0 F_IPV4 None (hcache st) in
  let '(flags, s) := match crecp with
    | Some id => if has (eflags s id) F_NEG then (flags, (cache_scan_free mix_tab [] host_address 0 (Z.lor F_IPV4 F_REVERSE) s).2)
                 else (clear flags F_REVERSE, s)
    | None => (flags, s)
    end in
  match spare_crec (set_hcache s st) with
  | (None, st) => st
  | (Some id, st) =>
      let immortal fl := if due =? 0 then Z.lor fl F_IMMORTAL else fl in
      let u := uid_ctr (hcache st) in
      let s := set_uid_ctr (i32 (u + 1)) (hcache st) in
      let st := set_hcache (hash_entry mix_tab id (mk_crec due u (Addr host_address) (immortal flags) host None) s) st in
      add_aliases spare_crec host due (immortal (Z.lor (Z.lor (Z.lor F_FORWARD F_CONFIG) F_DHCP) F_CNAME)) id u cnames st
  end.
Definition cache_add_dhcp_entry (host : text) (host_address : list Z) (due : Z) (st : hosts_state) : hosts_state :=
  let fuel := (2 + length (lru (hcache st)) + length (concat (hash_table (hcache st))))%nat in
  let '(r, s) := lease_name fuel None host host_address false (hcache st) in
  let st := set_hcache s st in
  match r with
  | None | Some true => st
  | Some false => hash_lease host host_address due st
  end.
End Hosts.
End DnsHosts.
