(* ===== verification/DnsHostsSpec.v ===== *)
(** * What hosts files and leases promise (src/external/dnsmasq/src/cache.c)

    Reading hosts files and adding leases are runs of the cache of DnsCacheSpec.v; an
    entry from a hosts file is found by lookups and is not replaced by replies. *)
From stdpp Require Import gmap sorting.
From S2P Require Import Prelude Runtime DriverRt DnsUtil DnsName DnsMsg DnsCache DnsCacheInv DnsCacheSpec DnsCacheRoom DnsHosts.
Import DnsUtil DnsMsg DnsCache DnsCacheInv DnsCacheSpec DnsCacheRoom DnsHosts.

Module DnsHostsSpec.
Abbreviation string_ t := (Forall (λ c, c ≠ 0) t).

(** ** Tokens *)
Definition plain (c : Z) : bool := negb (isspace c) && negb (c =? chr "#") && negb (c =? 0).
Definition word (t : text) : Prop := t ≠ [] ∧ Forall (λ c, plain c = true) t ∧ (length t < MAXDNAME)%nat.
Definition starts (f : list Z) : Prop := match f with [] => True | c :: _ => plain c = true end.
Lemma plain_sep c : plain c = true → isspace c || (c =? chr "#") = false.
Proof. unfold plain. intros [[->%negb_true_iff ->%negb_true_iff]%andb_true_iff _]%andb_true_iff. done. Qed.
Lemma word_string t : Forall (λ c, plain c = true) t → string_ t.
Proof. intros H. eapply Forall_impl; [exact H|]. intros c. unfold plain. rewrite !andb_true_iff. intros [_ ?%negb_true_iff%Z.eqb_neq]. done. Qed.
Lemma cstring_string t : string_ t → cstring t = t.
Proof. induction 1 as [|c t Hc _ IH]; [done|]. cbn. apply Z.eqb_neq in Hc as ->. by rewrite IH. Qed.
Lemma cstring_nonzero t : string_ (cstring t).
Proof. induction t as [|c t IH]; cbn; [constructor|]. destruct (Z.eqb_spec c 0); by constructor. Qed.
Lemma gettok_word t acc c rest :
  Forall (λ c, plain c = true) t → (length acc + length t < MAXDNAME)%nat → isspace c = true →
  gettok (t ++ c :: rest) acc = let '(nl, f) := eatspace (c :: rest) 0 false in (nl, acc ++ t, f).
Proof.
  intros Ht. revert acc. induction Ht as [|x t Hx _ IH]; intros acc Hl Hc; cbn [app gettok length] in *.
  - rewrite Hc. cbn [orb]. by rewrite app_nil_r.
  - rewrite (plain_sep x Hx). replace (length acc <? MAXDNAME - 1)%nat with true by (symmetry; apply Nat.ltb_lt; lia).
    rewrite IH; [by rewrite <- app_assoc| |done]. rewrite length_app. cbn. lia.
Qed.
Lemma eatspace_starts f nl : starts f → eatspace f nl false = (match f with [] => 1 | _ => nl end, f).
Proof. destruct f as [|c f]; [done|]. cbn [eatspace starts]. intros [-> ->]%plain_sep%orb_false_iff. done. Qed.
Lemma eatspace_shorter f nl cm : (length (eatspace f nl cm).2 ≤ length f)%nat.
Proof.
  revert nl cm. induction f as [|c f IH]; intros nl cm; cbn [eatspace]; [done|].
  repeat case_match; cbn [snd length]; try (etransitivity; [apply IH|lia]); done.
Qed.

(** *** A hosts file, printed *)
Definition print_names (names : list text) : list Z := concat (map (λ n, 32 :: n) names) ++ [10].
Definition print_line (l : text * list text) : list Z := l.1 ++ print_names l.2.
Definition print_hosts (lines : list (text * list text)) : list Z := concat (map print_line lines).
Definition good_line (l : text * list text) : Prop := word l.1 ∧ l.2 ≠ [] ∧ Forall word l.2.
Lemma word_starts t rest : word t → starts (t ++ rest).
Proof. intros (Hne & Ht & _). destruct t as [|c t]; [done|]. by inversion Ht. Qed.
Lemma print_starts lines : Forall good_line lines → starts (print_hosts lines).
Proof. destruct 1 as [|l lines Hl _]; [done|]. cbn. unfold print_line. rewrite <- app_assoc. by apply word_starts, Hl. Qed.
(** The next token of a line: the names that follow and whether the line is over. *)
Lemma gettok_line t names rest :
  word t → Forall word names → starts rest →
  gettok (t ++ print_names names ++ rest) [] =
  match names with [] => (1, t, rest) | n :: names' => (0, t, n ++ print_names names' ++ rest) end.
Proof.
  intros (_ & Ht & Hl) Hw Hr. unfold print_names. destruct Hw as [|n names Hn Hw]; cbn [concat map app].
  - rewrite gettok_word by done. cbn [eatspace isspace between]. cbn. rewrite eatspace_starts by done. by destruct rest.
  - rewrite gettok_word by done. cbn. rewrite <- !app_assoc. pose proof (word_starts n (concat (map (λ n, 32 :: n) names) ++ 10 :: rest) Hn) as Hs.
    cbn in Hs |- *. rewrite eatspace_starts by done. destruct n as [|c n]; [by destruct Hn|done].
Qed.

(** ** The memory for entries *)
Definition pool (st : hosts_state) : list nat := dhcp_spare st ++ omap id (mallocs st).
Definition fresh (st : hosts_state) : Prop := NoDup (pool st) ∧ ∀ x, x ∈ pool st → loose (hcache st) x.
(** no entry of a hosts file is one of a lease or one that can expire; only aliases are
    CNAMEs *)
Definition host_flags (f : Z) : Prop :=
  has f F_HOSTS = true → has f F_DHCP = false ∧ has f F_IMMORTAL = true ∧ (has f F_CNAME = false ∨ has f (Z.lor F_IPV4 F_IPV6) = false).
Definition typed (s : cache) : Prop := ∀ x, in_tbl (hash_table s) x → host_flags (eflags s x).

Lemma loose_search s s1 s' x : wframe s s1 → touched s1 s' → loose s x → loose s' x.
Proof.
  intros Hw (T1 & T2 & T3 & _) [Hl Ht]. split; [|rewrite T3; by intros ?%(wf_sub _ _ Hw)].
  rewrite T1, T2, (wf_new _ _ Hw). intros Hx. apply Hl. rewrite <- (wf_lru _ _ Hw). done.
Qed.
Lemma hnext_self c : ∃ n, c = with_hnext n c.
Proof. exists (hnext c). by destruct c. Qed.
Lemma touched_refl s : touched s s.
Proof. split_and!; [done..|]. intros x. apply hnext_self. Qed.
Lemma immune_hosts f : immune f = false → has f F_HOSTS = false.
Proof. unfold immune. rewrite !has_false, Z.land_lor_distr_r, Z.lor_eq_0_iff. tauto. Qed.
Lemma hosts_immune f : has f F_HOSTS = true → immune f = true.
Proof. intros Hh. destruct (immune f) eqn:Hi; [done|]. apply immune_hosts in Hi. congruence. Qed.
Lemma typed_search mix_tab s s1 s' : cinv mix_tab s' → wframe s s1 → touched s1 s' → typed s → typed s'.
Proof.
  intros Hi Hw Ht Hty x Hx. destruct (touched_flags _ _ x Ht) as [Hf _]. destruct Ht as (T1 & _ & T3 & _).
  destruct (wf_entry _ _ Hw x) as [He|[Hl _]].
  - rewrite Hf. unfold eflags. rewrite He. apply Hty, (wf_sub _ _ Hw). by rewrite <- T3.
  - intros Hh. exfalso. rewrite <- (wf_lru _ _ Hw), <- T1 in Hl. assert (Hp := inv_plain _ _ _ Hi x).
    rewrite elem_of_app in Hp. specialize (Hp (or_introl Hl)). apply immune_hosts in Hp. congruence.
Qed.

(** *** Entries of hosts files that stay *)
Definition pinned (s : cache) (x : nat) : Prop :=
  in_tbl (hash_table s) x ∧ has (eflags s x) F_IMMORTAL = true ∧ has (eflags s x) F_HOSTS = true ∧ has (eflags s x) F_CNAME = false.
Definition stays (s s' : cache) (x : nat) : Prop := pinned s' x ∧ ∃ n, entry s' x = with_hnext n (entry s x).
Lemma pinned_current now s x : pinned s x → current now (entry s x).
Proof. intros (_ & Hi & _ & Hc). split; [|done]. unfold is_expired. change (flags (entry s x)) with (eflags s x). by rewrite Hi. Qed.
Lemma stays_intro s s' x : pinned s x → in_tbl (hash_table s') x → (∃ n, entry s' x = with_hnext n (entry s x)) → stays s s' x.
Proof.
  intros (_ & H1 & H2 & H3) Hx [n He]. split; [|by exists n]. unfold pinned. change (eflags s' x) with (flags (entry s' x)). rewrite He. done.
Qed.
Lemma stays_trans s1 s2 s3 x : stays s1 s2 x → (pinned s2 x → stays s2 s3 x) → stays s1 s3 x.
Proof. intros [Hp [n He]] H. destruct (H Hp) as [Hp' [m He']]. split; [done|]. exists m. rewrite He', He. done. Qed.

(** *** A scan leaves the entries of hosts files and leases that have not expired *)
Definition kept_by (x : nat) (s s' : cache) (chain kept : list nat) : Prop := entry s' x = entry s x ∧ (x ∈ chain → x ∈ kept).
Lemma kept_drop x y s s' chain kept :
  x ≠ y → kept_by x (drop_entry y s) s' chain kept → kept_by x s s' (y :: chain) kept.
Proof. intros Hne [He Hk]. rewrite drop_entry_ne in He by done. split; [done|]. intros [->|?]%elem_of_cons; [done|by apply Hk]. Qed.
Lemma kept_skip x y s s' chain kept : kept_by x s s' chain kept → kept_by x s s' (y :: chain) (y :: kept).
Proof. intros [He Hk]. split; [done|]. rewrite !elem_of_cons. tauto. Qed.
(** Not expired and, when it is an alias, not out of date and of an entry of a hosts
    file or a lease. *)
Definition lasts (now : Z) (s : cache) (x : nat) : Prop :=
  is_expired now (entry s x) = false ∧
  (has (eflags s x) F_CNAME = true → ∃ c u, addr (entry s x) = Cname (Some c) u ∧ uid (entry s c) = u ∧ immune (eflags s c) = true).
Lemma current_lasts now s x : current now (entry s x) → lasts now s x.
Proof. intros [He Hc]. split; [done|]. unfold eflags. by rewrite Hc. Qed.
Lemma lasts_not_outdated now s x : lasts now s x → is_expired now (entry s x) || is_outdated_cname_pointer s x = false.
Proof.
  intros [-> Hc]. unfold is_outdated_cname_pointer. cbn [orb]. destruct (has (eflags s x) F_CNAME); [|done]. cbn [negb].
  destruct (Hc eq_refl) as (c & u & -> & <- & _). by rewrite Z.eqb_refl.
Qed.
Lemma drop_entry_immune x y s : immune (eflags s x) = true → entry (drop_entry y s) x = entry s x.
Proof.
  intros Himm. destruct (decide (x = y)) as [->|Hne]; [|by apply drop_entry_ne]. unfold drop_entry. by rewrite Himm.
Qed.
Lemma lasts_drop now x y s : immune (eflags s x) = true → lasts now s x → lasts now (drop_entry y s) x.
Proof.
  intros Himm [He Hc]. unfold lasts, eflags in *. rewrite drop_entry_immune by done. split; [done|]. intros H.
  destruct (Hc H) as (c & u & Ha & Hu & Hi). exists c, u. by rewrite drop_entry_immune.
Qed.
Lemma scan_name_hits name now fl x chain s :
  lasts now s x → immune (eflags s x) = true →
  let '(ok, kept, s') := scan_name chain name now fl s in
  kept_by x s s' chain kept ∧ (x ∈ chain → clash name fl (entry s x) = true → ok = false).
Proof.
  revert s. induction chain as [|y chain IH]; intros s Hc Himm; cbn [scan_name].
  { split; [done|]. intros Hx. by apply not_elem_of_nil in Hx. }
  assert (Hdrop : x ≠ y → let '(ok, kept, s') := scan_name chain name now fl (drop_entry y s) in
    kept_by x s s' (y :: chain) kept ∧ (x ∈ y :: chain → clash name fl (entry s x) = true → ok = false)).
  { intros Hne. specialize (IH (drop_entry y s) (lasts_drop now x y s Himm Hc)).
    unfold eflags in *. rewrite drop_entry_ne in IH by done. specialize (IH Himm).
    destruct (scan_name chain name now fl (drop_entry y s)) as [[ok kept] s']. destruct IH as [Hk Hok]. split; [by apply kept_drop|].
    intros [->|?]%elem_of_cons; [done|by apply Hok]. }
  destruct (_ || _) eqn:Hout.
  { apply Hdrop. intros ->. by rewrite (lasts_not_outdated now s y Hc) in Hout. }
  change (_ && _ && _) with (clash name fl (entry s y)). destruct (clash name fl (entry s y)) eqn:Hcl.
  - destruct (immune (eflags s y)) eqn:Hy; [done|]. rewrite not_immune_drop by done. apply Hdrop. intros ->. congruence.
  - specialize (IH s Hc Himm). destruct (scan_name chain name now fl s) as [[ok kept] s']. destruct IH as [Hk Hok].
    split; [by apply kept_skip|]. intros [->|?]%elem_of_cons; [congruence|by apply Hok].
Qed.
Lemma scan_addr_keeps a now fl x chain s :
  is_expired now (entry s x) = false → immune (eflags s x) = true →
  let '(kept, s') := scan_addr chain a now fl s in kept_by x s s' chain kept.
Proof.
  revert s. induction chain as [|y chain IH]; intros s Hc Himm; cbn [scan_addr]; [done|].
  assert (Hdrop : x ≠ y → let '(kept, s') := scan_addr chain a now fl (drop_entry y s) in kept_by x s s' (y :: chain) kept).
  { intros Hne. specialize (IH (drop_entry y s)). unfold eflags in *. rewrite drop_entry_ne in IH by done. specialize (IH Hc Himm).
    destruct (scan_addr chain a now fl (drop_entry y s)) as [kept s']. by apply kept_drop. }
  destruct (negb _ && _); [done|]. destruct (is_expired now (entry s y)) eqn:Hy; [apply Hdrop; intros ->; congruence|].
  destruct (immune (eflags s y)) eqn:Hyi; cbn [negb andb].
  - specialize (IH s Hc Himm). destruct (scan_addr chain a now fl s) as [kept s']. by apply kept_skip.
  - rewrite not_immune_drop by done. destruct (_ && _ && _); [apply Hdrop; intros ->; congruence|].
    specialize (IH s Hc Himm). destruct (scan_addr chain a now fl s) as [kept s']. by apply kept_skip.
Qed.
Lemma kept_put x s s' b kept :
  hash_table s' = hash_table s → (b < hash_size s)%nat → kept_by x s s' (nth b (hash_table s) []) kept →
  entry (set_chain b kept s') x = entry s x ∧ (in_tbl (hash_table s) x → in_tbl (hash_table (set_chain b kept s')) x).
Proof.
  intros Ht Hb [He Hk]. split; [done|]. intros (j & ch & Hj & Hx). cbn. rewrite Ht. destruct (decide (j = b)) as [->|Hne].
  - rewrite nth_chain in Hj by done. injection Hj as <-. exists b, kept. rewrite list_lookup_insert_eq by done. split; [done|by apply Hk].
  - exists j, ch. by rewrite list_lookup_insert_ne.
Qed.
Lemma scan_buckets_keeps a now fl x n i s :
  (i + n ≤ hash_size s)%nat → is_expired now (entry s x) = false → immune (eflags s x) = true →
  let s' := scan_buckets n i a now fl s in entry s' x = entry s x ∧ (in_tbl (hash_table s) x → in_tbl (hash_table s') x).
Proof.
  revert i s. induction n as [|n IH]; intros i s Hn Hc Himm; cbn [scan_buckets]; [done|].
  pose proof (scan_addr_keeps a now fl x (nth i (hash_table s) []) s Hc Himm) as Hk.
  pose proof (scan_addr_table a now fl (nth i (hash_table s) []) s) as Ht.
  destruct (scan_addr _ a now fl s) as [kept s']. cbn [snd] in Ht.
  destruct (kept_put x s s' i kept Ht) as [He Hin]; [lia|done|].
  destruct (IH (S i) (set_chain i kept s')) as [He' Hin'].
  - unfold hash_size in *. cbn. rewrite length_insert, Ht. lia.
  - by rewrite He.
  - unfold eflags. by rewrite He.
  - rewrite He'. tauto.
Qed.

Lemma cache_scan_free_keeps mix_tab name a now fl x s :
  cinv mix_tab s → lasts now s x → immune (eflags s x) = true →
  let s' := (cache_scan_free mix_tab name a now fl s).2 in entry s' x = entry s x ∧ (in_tbl (hash_table s) x → in_tbl (hash_table s') x).
Proof.
  intros Hi Hc Himm. unfold cache_scan_free. destruct (has fl F_FORWARD); [|cbn [snd]; apply scan_buckets_keeps; [lia|apply Hc|done]].
  set (b := hash_bucket mix_tab (hash_size s) name). assert (Hb : (b < hash_size s)%nat) by (apply bucket_lt, (inv_size _ _ _ Hi)).
  pose proof (scan_name_hits name now fl x (nth b (hash_table s) []) s Hc Himm) as Hk.
  pose proof (scan_name_table name now fl (nth b (hash_table s) []) s) as Ht.
  destruct (scan_name _ name now fl s) as [[ok kept] s']. destruct Hk as [Hk _]. by apply kept_put.
Qed.
Lemma cache_scan_free_refuses mix_tab name a now fl x s :
  cinv mix_tab s → strings s → string_ name → has fl F_FORWARD = true →
  lasts now s x → immune (eflags s x) = true → in_tbl (hash_table s) x → clash name fl (entry s x) = true →
  (cache_scan_free mix_tab name a now fl s).1 = false.
Proof.
  intros Hi Hs Hn HF Hc Himm (j & ch & Hj & Hx) Hcl. unfold cache_scan_free. rewrite HF.
  set (b := hash_bucket mix_tab (hash_size s) name). assert (Hb : (b < hash_size s)%nat) by (apply bucket_lt, (inv_size _ _ _ Hi)).
  assert (j = b) as ->.
  { rewrite <- (bucket_of_chain mix_tab _ _ j ch x Hi Hj Hx). apply bucket_equal; [apply Hs|done|].
    unfold clash in Hcl. by apply andb_true_iff in Hcl as [_ ?]. }
  rewrite nth_chain in Hj by done. injection Hj as <-.
  pose proof (scan_name_hits name now fl x (nth b (hash_table s) []) s Hc Himm) as Hk.
  destruct (scan_name _ name now fl s) as [[ok kept] s']. destruct Hk as [_ Hok]. by apply Hok.
Qed.

(** *** What the other operations do to entries that are not their own *)
Definition owned (s : cache) (x : nat) : Prop := x ∈ lru s ++ new_chain s.
Record bystander (s s' : cache) : Prop := {
  by_owned : ∀ x, owned s' x ↔ owned s x;
  by_table : ∀ x, ¬ owned s x → in_tbl (hash_table s') x → in_tbl (hash_table s) x;
  by_flags : ∀ x, ¬ owned s x → eflags s' x = eflags s x
}.
Lemma bystander_refl s : bystander s s.
Proof. done. Qed.
Lemma bystander_error e s : bystander s (set_insert_error e s).
Proof. done. Qed.
Lemma bystander_trans s1 s2 s3 : bystander s1 s2 → bystander s2 s3 → bystander s1 s3.
Proof.
  intros [A1 A2 A3] [B1 B2 B3]. split.
  - intros x. by rewrite B1.
  - intros x Hx Ht. apply A2; [done|]. apply B2; [by rewrite A1|done].
  - intros x Hx. rewrite B3 by (by rewrite A1). by apply A3.
Qed.
Lemma bystander_search s s1 s' : wframe s s1 → touched s1 s' → bystander s s'.
Proof.
  intros Hw Ht. pose proof Ht as (T1 & T2 & T3 & _). split.
  - intros x. unfold owned. by rewrite T1, T2, (wf_lru _ _ Hw), (wf_new _ _ Hw).
  - intros x _. rewrite T3. apply (wf_sub _ _ Hw).
  - intros x Hx. destruct (touched_flags _ _ x Ht) as [-> _]. unfold eflags. destruct (wf_entry _ _ Hw x) as [->|[Hl _]]; [done|].
    exfalso. apply Hx, elem_of_app. by left.
Qed.
Lemma bystander_loose s s' x : bystander s s' → loose s x → loose s' x.
Proof. intros [B1 B2 _] [Hl Ht]. split; [by rewrite (B1 x)|]. intros Hx. apply Ht. by apply B2. Qed.
Lemma bystander_typed mix_tab s s' : cinv mix_tab s' → bystander s s' → typed s → typed s'.
Proof.
  intros Hi [B1 B2 B3] Ht x Hx Hh. assert (Hx' : ¬ owned s x).
  { rewrite <- B1. intros Ho%(inv_plain _ _ _ Hi)%immune_hosts. congruence. }
  rewrite B3 in * by done. apply Ht; [by apply B2|done].
Qed.
Lemma free_fold_by ids s :
  let s' := foldl (λ s id, cache_free id s) s ids in
  lru s' = lru s ++ ids ∧ hash_table s' = hash_table s ∧ ∀ x, x ∉ ids → entry s' x = entry s x.
Proof.
  revert s. induction ids as [|id ids IH]; intros s; cbn [foldl]; [by rewrite app_nil_r|].
  destruct (IH (cache_free id s)) as (-> & -> & H). destruct (cache_free_facts id s) as (F1 & _ & F3 & _ & F5 & _).
  rewrite F1, F3, <- app_assoc. split_and!; [done|done|]. intros x [Hne Hx]%not_elem_of_cons. rewrite H by done. by apply F5.
Qed.
Lemma start_by s : bystander s (cache_start_insert s).
Proof.
  destruct (free_fold_by (new_chain s) s) as (Hl & Ht & He). split; unfold owned, cache_start_insert.
  - intros x. cbn. by rewrite Hl, app_nil_r.
  - intros x _. cbn. by rewrite Ht.
  - intros x [_ Hx]%not_elem_of_app. unfold eflags. change (entry (set_insert_error _ (set_new_chain _ ?q)) x) with (entry q x). by rewrite He.
Qed.
Lemma in_set_chain b ch s x : in_tbl (hash_table (set_chain b ch s)) x → in_tbl (hash_table s) x ∨ x ∈ ch.
Proof.
  intros (j & c & Hj & Hx). cbn in Hj. destruct (decide (j = b)) as [->|Hne].
  - right. apply list_lookup_insert_Some in Hj as [(_ & -> & _)|[? _]]; done.
  - left. rewrite list_lookup_insert_ne in Hj by done. by exists j, c.
Qed.
Lemma in_nth b (tbl : list (list nat)) x : x ∈ nth b tbl [] → in_tbl tbl x.
Proof.
  intros Hx. destruct (decide (b < length tbl)%nat) as [Hlt|Hge].
  - exists b, (nth b tbl []). split; [by apply nth_chain|done].
  - rewrite nth_overflow in Hx by lia. by apply not_elem_of_nil in Hx.
Qed.
Lemma before_immortal_elem s id chain x : x ∈ before_immortal s id chain → x = id ∨ x ∈ chain.
Proof.
  induction chain as [|y chain IH]; cbn [before_immortal]; [rewrite !elem_of_cons; tauto|].
  destruct (negb _); rewrite !elem_of_cons; [|tauto]. intros [->|[->|?]%IH]; auto.
Qed.
Lemma after_reverse_elem s imm id chain x : x ∈ after_reverse s imm id chain → x = id ∨ x ∈ chain.
Proof.
  induction chain as [|y chain IH]; cbn [after_reverse]; [rewrite !elem_of_cons; tauto|].
  destruct (has _ _); [rewrite !elem_of_cons; intros [->|[->|?]%IH]; auto|]. destruct imm; [apply before_immortal_elem|rewrite !elem_of_cons; tauto].
Qed.
Lemma cache_hash_elem mix_tab id s x : in_tbl (hash_table (cache_hash mix_tab id s)) x → x = id ∨ in_tbl (hash_table s) x.
Proof.
  unfold cache_hash. intros [?|Hx]%in_set_chain; [by right|]. destruct (negb _).
  - apply after_reverse_elem in Hx as [?|?%in_nth]; auto.
  - apply elem_of_cons in Hx as [?|?%in_nth]; auto.
Qed.
Lemma commit_by mix_tab id s :
  (∀ x, x ∈ lru (commit mix_tab id s) ↔ x = id ∨ x ∈ lru s) ∧
  (∀ x, in_tbl (hash_table (commit mix_tab id s)) x → x = id ∨ in_tbl (hash_table s) x) ∧
  (∀ x, x ≠ id → entry (commit mix_tab id s) x = entry s x).
Proof.
  unfold commit. destruct (is_outdated_cname_pointer s id).
  - destruct (cache_free_facts id s) as (F1 & _ & F3 & _ & F5 & _). rewrite F1, F3. split_and!; [|tauto|done].
    intros x. rewrite elem_of_app, list_elem_of_singleton. tauto.
  - split_and!; [intros x; cbn; by rewrite elem_of_cons|apply cache_hash_elem|done].
Qed.
Lemma commit_fold_by mix_tab ids s :
  let s' := foldl (λ s id, commit mix_tab id s) s ids in
  (∀ x, x ∈ lru s' ↔ x ∈ ids ∨ x ∈ lru s) ∧
  (∀ x, in_tbl (hash_table s') x → x ∈ ids ∨ in_tbl (hash_table s) x) ∧ ∀ x, x ∉ ids → entry s' x = entry s x.
Proof.
  revert s. induction ids as [|id ids IH]; intros s; cbn [foldl].
  { split_and!; [intros x; rewrite elem_of_nil; tauto|by right|done]. }
  destruct (IH (commit mix_tab id s)) as (H1 & H2 & H3). destruct (commit_by mix_tab id s) as (C1 & C2 & C3). split_and!.
  - intros x. rewrite H1, C1, elem_of_cons. tauto.
  - intros x [?|[?|?]%C2]%H2; rewrite elem_of_cons; tauto.
  - intros x [Hne Hx]%not_elem_of_cons. rewrite H3 by done. by apply C3.
Qed.
Lemma end_by mix_tab s : bystander s (cache_end_insert mix_tab s).
Proof.
  unfold cache_end_insert. destruct (insert_error s); [done|]. destruct (commit_fold_by mix_tab (new_chain s) s) as (H1 & H2 & H3).
  split; unfold owned.
  - intros x. cbn. rewrite app_nil_r, H1, elem_of_app. tauto.
  - intros x [_ Hx]%not_elem_of_app. intros [?|?]%H2; done.
  - intros x [_ Hx]%not_elem_of_app. unfold eflags. change (entry (set_new_chain _ ?q) x) with (entry q x). by rewrite H3.
Qed.
Lemma insert_by mix_tab room name a now ttl fl s : cinv mix_tab s → bystander s (cache_insert mix_tab room name a now ttl fl s).2.
Proof.
  intros Hi. unfold cache_insert. destruct (insert_error s); [done|].
  destruct (cache_scan_free_inv mix_tab (default [] name) (default [] a) now (clear fl F_CONFIG) s Hi) as [H1 Hw].
  destruct (cache_scan_free _ _ _ _ _ s) as [ok s1]. cbn [snd] in *. pose proof (bystander_search s s1 s1 Hw (touched_refl s1)) as B1.
  destruct ok; cbn [negb]; [|exact (bystander_trans _ _ _ B1 (bystander_error true s1))].
  pose proof (grab_inv mix_tab 4 room (default [] name) now (has fl F_REVERSE) false s1 H1) as Hg.
  destruct (grab _ _ _ _ _ _ _ s1) as [[[new big]|] s2]; cbn [snd].
  - destruct Hg as (s0 & H0 & Hw0 & Hlast & _ & Hcore & _).
    assert (Hs2 : heap s2 = heap s0 ∧ hash_table s2 = hash_table s0 ∧ new_chain s2 = new_chain s0 ∧ lru s2 = lru (unlink new s0))
      by (destruct s2, s0; cbn in *; by injection Hcore as -> -> -> ->). destruct Hs2 as (Eh & Et & En & El).
    eapply bystander_trans; [exact B1|]. eapply bystander_trans; [by eapply bystander_search, touched_refl|].
    pose proof (unlink_last s0 new (cinv_nodup_lru _ _ _ H0) Hlast) as Hl. split; unfold owned.
    + intros x. cbn. rewrite En, El, Hl, !elem_of_app, elem_of_cons, list_elem_of_singleton. tauto.
    + intros x _ Hx. change (in_tbl (hash_table s2) x) in Hx. by rewrite Et in Hx.
    + intros x Hx. unfold eflags. change (entry (set_new_chain _ ?q) x) with (entry q x). rewrite entry_set_entry, decide_False.
      * unfold entry. by rewrite Eh.
      * intros ->. apply Hx. rewrite Hl, !elem_of_app, list_elem_of_singleton. tauto.
  - destruct Hg as (s0 & _ & Hw0 & ->). eapply bystander_trans; [exact B1|].
    exact (bystander_trans _ _ _ (bystander_search s1 s0 s0 Hw0 (touched_refl s0)) (bystander_error true s0)).
Qed.

(** *** Replies leave the entries of hosts files *)
Lemma before_immortal_keeps s id chain x : x ∈ chain → x ∈ before_immortal s id chain.
Proof.
  induction chain as [|y chain IH]; cbn [before_immortal]; [intros Hx; by apply not_elem_of_nil in Hx|].
  destruct (negb _); rewrite !elem_of_cons; tauto.
Qed.
Lemma after_reverse_keeps s imm id chain x : x ∈ chain → x ∈ after_reverse s imm id chain.
Proof.
  induction chain as [|y chain IH]; cbn [after_reverse]; [intros Hx; by apply not_elem_of_nil in Hx|].
  destruct (has _ _); [rewrite !elem_of_cons; tauto|]. destruct imm; [apply before_immortal_keeps|rewrite !elem_of_cons; tauto].
Qed.
Lemma cache_hash_keeps mix_tab id s x : in_tbl (hash_table s) x → in_tbl (hash_table (cache_hash mix_tab id s)) x.
Proof.
  intros (j & ch & Hj & Hx). unfold cache_hash. set (b := hash_bucket _ _ _). cbn. destruct (decide (j = b)) as [->|Hne].
  - exists b. rewrite list_lookup_insert_eq by (by eapply lookup_lt_Some). eexists. split; [done|].
    rewrite (nth_lookup_Some _ _ _ _ Hj). destruct (negb _); [by apply after_reverse_keeps|rewrite elem_of_cons; by right].
  - exists j, ch. by rewrite list_lookup_insert_ne.
Qed.
(** an entry that is in the table and stays as it is *)
Definition untouched (s s' : cache) (x : nat) : Prop :=
  entry s' x = entry s x ∧ (in_tbl (hash_table s) x → in_tbl (hash_table s') x).
Lemma untouched_trans s1 s2 s3 x : untouched s1 s2 x → untouched s2 s3 x → untouched s1 s3 x.
Proof. intros [H1 H2] [H3 H4]. split; [congruence|tauto]. Qed.
Lemma untouched_stays s s' x : untouched s s' x → pinned s x → stays s s' x.
Proof. intros [He Ht] Hp. apply stays_intro; [done|apply Ht, Hp|]. rewrite He. apply hnext_self. Qed.
Lemma pinned_untouched s s' x : untouched s s' x → pinned s x → pinned s' x.
Proof. intros Hu Hp. by apply (untouched_stays s s' x). Qed.
Lemma scan_untouched mix_tab name a now fl s x :
  cinv mix_tab s → pinned s x → untouched s (cache_scan_free mix_tab name a now fl s).2 x.
Proof. intros Hi Hp. apply cache_scan_free_keeps; [done|by apply current_lasts, pinned_current|apply hosts_immune, Hp]. Qed.
Lemma grab_untouched mix_tab fuel room name now fa av s x :
  cinv mix_tab s → pinned s x → untouched s (grab mix_tab fuel room name now fa av s).2 x.
Proof.
  revert fa av s. induction fuel as [|fuel IH]; intros fa av s Hi Hp; cbn [grab]; [by destruct (last (lru s))|].
  destruct (last (lru s)) as [new|]; [|done]. destruct (has _ _).
  - destruct av; [done|]. destruct fa.
    + pose proof (scan_untouched mix_tab (cache_get_name (entry s new)) (addr_bytes (addr (entry s new))) now (flags (entry s new)) s x Hi Hp) as Hu.
      eapply untouched_trans; [exact Hu|].
      destruct (cache_scan_free_inv mix_tab (cache_get_name (entry s new)) (addr_bytes (addr (entry s new))) now (flags (entry s new)) s Hi) as [Hi1 _].
      set (s1 := (cache_scan_free _ _ _ _ _ s).2) in *. refine (IH true true (set_counts _ _ s1) _ _); [by apply (cinv_core mix_tab s1)|].
      exact (pinned_untouched s s1 x Hu Hp).
    + pose proof (scan_untouched mix_tab [] [] now 0 s x Hi Hp) as Hu. eapply untouched_trans; [exact Hu|].
      destruct (cache_scan_free_inv mix_tab [] [] now 0 s Hi) as [Hi1 _]. apply IH; [done|by eapply (pinned_untouched s)].
  - destruct (take_bigname room name s) as [[big s1]|] eqn:Htb; [|done]. apply take_bigname_core in Htb as [Hcore _].
    cbn [snd]. split; [unfold entry|]; destruct s, s1; cbn in *; by injection Hcore as -> -> -> ->.
Qed.
Lemma insert_untouched mix_tab room name a now ttl fl s x :
  cinv mix_tab s → pinned s x → untouched s (cache_insert mix_tab room name a now ttl fl s).2 x.
Proof.
  intros Hi Hp. unfold cache_insert. destruct (insert_error s); [done|].
  pose proof (scan_untouched mix_tab (default [] name) (default [] a) now (clear fl F_CONFIG) s x Hi Hp) as Hu.
  destruct (cache_scan_free_inv mix_tab (default [] name) (default [] a) now (clear fl F_CONFIG) s Hi) as [H1 _].
  destruct (cache_scan_free _ _ _ _ _ s) as [ok s1]. cbn [snd] in *. destruct ok; cbn [negb]; [|exact Hu].
  pose proof (pinned_untouched _ _ _ Hu Hp) as Hp1.
  pose proof (grab_untouched mix_tab 4 room (default [] name) now (has fl F_REVERSE) false s1 x H1 Hp1) as Hu2.
  pose proof (grab_inv mix_tab 4 room (default [] name) now (has fl F_REVERSE) false s1 H1) as Hg.
  destruct (grab _ _ _ _ _ _ _ s1) as [[[new big]|] s2]; cbn [snd] in *; [|by eapply untouched_trans].
  eapply untouched_trans; [exact Hu|]. eapply untouched_trans; [exact Hu2|]. split; [|done].
  change (entry (set_new_chain _ ?q) x) with (entry q x). rewrite entry_set_entry, decide_False; [done|]. intros ->.
  destruct Hg as (s0 & H0 & Hw0 & Hlast & _). assert (Ho : x ∈ lru s1).
  { rewrite <- (wf_lru _ _ Hw0). apply last_Some in Hlast as [l ->]. apply elem_of_app. right. by constructor. }
  pose proof (inv_plain _ _ _ H1 x) as Hpl. rewrite elem_of_app in Hpl. specialize (Hpl (or_introl Ho)).
  pose proof (hosts_immune _ (proj1 (proj2 (proj2 Hp1)))). congruence.
Qed.
Lemma pinned_not_owned mix_tab s x : cinv mix_tab s → pinned s x → ¬ owned s x.
Proof. intros Hi (_ & _ & Hh & _) Ho%(inv_plain _ _ _ Hi)%immune_hosts. congruence. Qed.
Lemma start_untouched s x : ¬ owned s x → untouched s (cache_start_insert s) x.
Proof.
  intros [_ Hx]%not_elem_of_app. destruct (free_fold_by (new_chain s) s) as (_ & Ht & He). split; unfold cache_start_insert.
  - change (entry (set_insert_error _ (set_new_chain _ ?q)) x) with (entry q x). by apply He.
  - cbn. by rewrite Ht.
Qed.
Lemma commit_fold_keeps mix_tab ids s x :
  in_tbl (hash_table s) x → in_tbl (hash_table (foldl (λ s id, commit mix_tab id s) s ids)) x.
Proof.
  revert s. induction ids as [|id ids IH]; intros s Hx; cbn [foldl]; [done|]. apply IH. unfold commit.
  destruct (is_outdated_cname_pointer s id); [|by apply cache_hash_keeps]. by destruct (cache_free_facts id s) as (_ & _ & -> & _).
Qed.
Lemma end_untouched mix_tab s x : ¬ owned s x → untouched s (cache_end_insert mix_tab s) x.
Proof.
  intros [_ Hx]%not_elem_of_app. unfold cache_end_insert. destruct (insert_error s); [done|].
  destruct (commit_fold_by mix_tab (new_chain s) s) as (_ & _ & He). split; [by apply He|apply commit_fold_keeps].
Qed.

(** *** Leases that go to the spare entries *)
Lemma unhash_chain_filter s chain spare :
  let '(kept, spare') := unhash_chain s chain spare in
  spare' ≡ₚ filter (λ x, has (eflags s x) F_DHCP = true) chain ++ spare ∧ kept = filter (λ x, ¬ has (eflags s x) F_DHCP = true) chain.
Proof.
  revert spare. induction chain as [|x chain IH]; intros spare; cbn [unhash_chain]; [done|]. destruct (has (eflags s x) F_DHCP) eqn:Hx.
  - specialize (IH (x :: spare)). destruct (unhash_chain s chain (x :: spare)) as [kept sp]. destruct IH as [-> ->].
    rewrite filter_cons_True, filter_cons_False by (rewrite ?Hx; auto). split; [|done]. by rewrite <- Permutation_middle.
  - specialize (IH spare). destruct (unhash_chain s chain spare) as [kept sp]. destruct IH as [-> ->].
    rewrite filter_cons_False, filter_cons_True by (by rewrite Hx). done.
Qed.
Definition set_aside (s : cache) (l : list nat) : Prop := NoDup l ∧ ∀ x, x ∈ l → loose s x.
Lemma unhash_chain_aside mix_tab s i spare more :
  cinv mix_tab s → (i < hash_size s)%nat → set_aside s (spare ++ more) →
  let '(kept, spare') := unhash_chain s (nth i (hash_table s) []) spare in set_aside (set_chain i kept s) (spare' ++ more).
Proof.
  intros Hi Hlt [Hnd Hl]. pose proof (nth_chain _ _ Hlt) as Hch. set (chain := nth i (hash_table s) []) in *.
  pose proof (unhash_chain_filter s chain spare) as H. destruct (unhash_chain s chain spare) as [kept spare']. destruct H as [Hsp ->].
  assert (Hin : ∀ x, x ∈ chain → in_tbl (hash_table s) x) by (intros x Hx; by exists i, chain). split.
  - rewrite Hsp, <- app_assoc. apply NoDup_app. split_and!; [|intros x [_ Hx]%list_elem_of_filter Hin'; by apply (Hl x Hin'), Hin|done].
    apply NoDup_filter, (chain_nodup _ _ _ _ (inv_chains _ _ _ Hi i chain Hch)).
  - intros x. rewrite Hsp, <- app_assoc, elem_of_app. intros [[Hd Hx]%list_elem_of_filter|Hx].
    + split.
      * intros Ho%(inv_plain _ _ _ Hi). unfold immune in Ho. apply has_true in Hd. rewrite has_false, Z.land_lor_distr_r in Ho.
        by apply Z.lor_eq_0_iff in Ho as [_ ?].
      * intros (j & c & Hj & Hc). cbn in Hj. destruct (decide (j = i)) as [->|Hne].
        -- rewrite list_lookup_insert_eq in Hj by done. injection Hj as <-. by apply list_elem_of_filter in Hc as [? _].
        -- rewrite list_lookup_insert_ne in Hj by done. apply Hne. rewrite <- (bucket_of_chain mix_tab _ _ j c x Hi Hj Hc).
           by apply (bucket_of_chain mix_tab _ _ i chain x Hi Hch).
    + destruct (Hl x Hx) as [? Ht]. split; [done|]. intros [?|[_ ?]%list_elem_of_filter]%in_set_chain; [done|by apply Ht, Hin].
Qed.
Lemma unhash_buckets_aside mix_tab n i spare more s :
  cinv mix_tab s → (i + n ≤ hash_size s)%nat → set_aside s (spare ++ more) →
  let '(spare', s') := unhash_buckets n i spare s in
  set_aside s' (spare' ++ more) ∧ heap s' = heap s ∧ (∀ x, in_tbl (hash_table s') x → in_tbl (hash_table s) x) ∧
  ∀ x, has (eflags s x) F_DHCP = false → in_tbl (hash_table s) x → in_tbl (hash_table s') x.
Proof.
  revert i spare s. induction n as [|n IH]; intros i spare s Hi Hn Ha; cbn [unhash_buckets]; [done|].
  assert (Hlt : (i < length (hash_table s))%nat) by (unfold hash_size in Hn; lia).
  pose proof (unhash_chain_aside mix_tab s i spare more Hi Hlt Ha) as H1.
  pose proof (unhash_chain_inv mix_tab (nth i (hash_table s) []) spare [] s (hash_table s) i Hi (nth_chain _ _ Hlt)) as H2.
  pose proof (unhash_chain_filter s (nth i (hash_table s) []) spare) as H3.
  destruct (unhash_chain s _ spare) as [kept sp]. cbn [app fst] in H2. destruct H3 as [_ Hk].
  specialize (IH (S i) sp (set_chain i kept s)). destruct (unhash_buckets n (S i) sp _) as [sp' s']. destruct IH as (R1 & R2 & R3 & R4).
  - unfold set_chain. by apply cinv_set_table.
  - unfold hash_size in *. cbn. rewrite length_insert. lia.
  - done.
  - split_and!; [done|done| |].
    + intros x [?|Hx]%R3%in_set_chain; [done|]. rewrite Hk in Hx. apply list_elem_of_filter in Hx as [_ ?]. by eapply in_nth.
    + intros x Hd Hx. apply R4; [done|]. apply (kept_put x s s i kept eq_refl Hlt); [|done]. split; [done|]. intros Hin. rewrite Hk.
      apply list_elem_of_filter. split; [by rewrite Hd|done].
Qed.

Section Hosts.
Context (mix_tab : list Z) (inet_pton4 inet_pton6 : text → option (list Z)) (canon_room : text → bool) (rehash_room : bool).
Context (cnames : list (text * text)) (cond_domain : list (Z * Z * text)) (domain_suffix : option text) (opt_expand : bool).
Abbreviation cinv := (cinv mix_tab).

(** the state that the operations keep, and what one of them does *)
Record good (st : hosts_state) : Prop := {
  gd_cinv : cinv (hcache st);
  gd_strings : strings (hcache st);
  gd_fresh : fresh st;
  gd_typed : typed (hcache st)
}.
Record along (st st' : hosts_state) : Prop := {
  al_steps : rtc (cache_step mix_tab) (hcache st) (hcache st');
  al_good : good st';
  al_stays : ∀ x, pinned (hcache st) x → stays (hcache st) (hcache st') x;
  al_memory : mallocs st' ≠ [] → mallocs st ≠ [];
  al_some : Forall is_Some (mallocs st) → Forall is_Some (mallocs st')
}.
Lemma along_refl st : good st → along st st.
Proof. intros Hg. split; [apply rtc_refl|done| |done|done]. intros x Hp. apply stays_intro; [done|apply Hp|]. apply hnext_self. Qed.
Lemma along_trans st1 st2 st3 : along st1 st2 → along st2 st3 → along st1 st3.
Proof.
  intros [A1 A2 A3 A4 A5] [B1 B2 B3 B4 B5]. split; [by etrans|done| |tauto|tauto].
  intros x Hp. eapply stays_trans; [by apply A3|apply B3].
Qed.
(** A step that leaves the memory alone. *)
Lemma along_step st s' :
  good st → cache_step mix_tab (hcache st) s' → (∀ x, loose (hcache st) x → loose s' x) → typed s' →
  (∀ x, pinned (hcache st) x → stays (hcache st) s' x) → along st (set_hcache s' st).
Proof.
  intros [G1 G2 [G3 G4] G5] Hs Hl Ht Hp. destruct (step_inv mix_tab _ _ Hs (conj G1 G2)) as [? ?].
  split; [by apply rtc_once| |done|done|done]. split; [done|done| |done]. split; [done|]. intros x Hx. by apply Hl, G4.
Qed.
Lemma along_find st name now prot :
  good st → string_ name →
  along st (set_hcache (cache_find_by_name mix_tab name now prot None (hcache st)).2 st).
Proof.
  intros Hg Hn. pose proof Hg as [G1 G2 _ G5]. pose proof (find_search mix_tab name now prot (hcache st) G1 G2 Hn) as Hf.
  pose proof (λ x H, find_by_name_keeps mix_tab name now prot (hcache st) x G1 (pinned_current now _ _ H)) as Hk.
  pose proof (FindName mix_tab name now prot None (hcache st) Hn) as Hstep.
  destruct (cache_find_by_name mix_tab name now prot None (hcache st)) as [r s']. destruct Hf as (Hi & (s1 & Hw & Ht) & _).
  apply along_step; [done|done| | |].
  - intros x. by eapply loose_search.
  - by eapply typed_search.
  - intros x Hp. destruct (Hk x Hp) as [Hin He]. apply stays_intro; [done|by apply Hin, Hp|done].
Qed.
Lemma along_rehash st size : good st → along st (set_hcache (rehash mix_tab rehash_room size (hcache st)) st).
Proof.
  intros Hg. pose proof Hg as [G1 G2 _ G5]. pose proof (Rehash mix_tab rehash_room size (hcache st)) as Hstep.
  destruct (rehash_table mix_tab (hcache st) size rehash_room (cinv_tabled mix_tab _ G1)) as [->|(_ & Hm & Hs)].
  { replace (set_hcache (hcache st) st) with st by (by destruct st). by apply along_refl. }
  set (s' := rehash _ _ _ _) in *. assert (He : ∀ x, entry s' x = entry (hcache st) x) by (intros x; by rewrite Hs).
  apply along_step; [done|done| | |].
  - intros x [Hl Ht]. split; [by rewrite Hs|by rewrite Hm].
  - intros x Hx%Hm. unfold eflags. rewrite He. by apply G5.
  - intros x Hp. apply stays_intro; [done|apply Hm, Hp|]. rewrite He. apply hnext_self.
Qed.
Lemma along_find_addr st a now prot :
  good st → along st (set_hcache (cache_find_by_addr a now prot None (hcache st)).2 st).
Proof.
  intros Hg. pose proof Hg as [G1 G2 _ G5]. pose proof (find_addr_search mix_tab a now prot (hcache st) G1) as Hf.
  pose proof (λ x H, find_by_addr_keeps a now prot (hcache st) x (proj1 (pinned_current now _ x H))) as Hk.
  pose proof (FindAddr mix_tab a now prot None (hcache st)) as Hstep.
  destruct (cache_find_by_addr a now prot None (hcache st)) as [r s']. destruct Hf as (Hi & (s1 & Hw & Ht) & _).
  apply along_step; [done|done| | |].
  - intros x. by eapply loose_search.
  - by eapply typed_search.
  - intros x Hp. destruct (Hk x Hp) as [Hin He]. apply stays_intro; [done|by apply Hin, Hp|done].
Qed.
Lemma along_scan st name a now fl : good st → along st (set_hcache (cache_scan_free mix_tab name a now fl (hcache st)).2 st).
Proof.
  intros Hg. pose proof Hg as [G1 G2 _ G5]. destruct (cache_scan_free_inv mix_tab name a now fl (hcache st) G1) as [Hi Hw].
  apply along_step; [done|apply ScanFree| | |].
  - intros x. by eapply loose_search, touched_refl.
  - by eapply typed_search, G5; [| |apply touched_refl].
  - intros x Hp. destruct (cache_scan_free_keeps mix_tab name a now fl x (hcache st) G1) as [He Hin].
    + by apply current_lasts, pinned_current.
    + apply hosts_immune, Hp.
    + apply stays_intro; [done|by apply Hin, Hp|]. rewrite He. apply hnext_self.
Qed.
Lemma along_uid st : good st → along st (set_hcache (set_uid_ctr (i32 (uid_ctr (hcache st) + 1)) (hcache st)) st).
Proof.
  intros Hg. apply along_step; [done|apply NextUid|done|apply Hg|]. intros x Hp. apply stays_intro; [done|apply Hp|].
  exact (hnext_self (entry (hcache st) x)).
Qed.

(** *** Memory that is taken and used *)
Definition held (st : hosts_state) (id : nat) : Prop := loose (hcache st) id ∧ id ∉ pool st.
Lemma held_search st s1 s' id :
  wframe (hcache st) s1 → touched s1 s' → held st id → held (set_hcache s' st) id.
Proof. intros Hw Ht [Hl Hp]. split; [by eapply loose_search|done]. Qed.
Lemma hash_entry_table s id c : cinv s → loose s id → immune (flags c) = true →
  ∀ x, in_tbl (hash_table (hash_entry mix_tab id c s)) x ↔ x = id ∨ in_tbl (hash_table s) x.
Proof.
  intros Hi Hl Himm. pose proof (cinv_set_loose mix_tab s id c Hi Hl) as Hi1.
  destruct (cache_hash_chains mix_tab (set_entry id c s) id) as (_ & _ & Hmem & _); [by apply cinv_chains|apply Hl| |exact Hmem].
  right. unfold eflags. by rewrite entry_set_entry, decide_True.
Qed.
Lemma along_hash st id c :
  good st → held st id → immune (flags c) = true → host_flags (flags c) → string_ (cname c) →
  along st (set_hcache (hash_entry mix_tab id c (hcache st)) st).
Proof.
  intros Hg [Hl Hp] Himm Hf Hn. pose proof Hg as [G1 G2 [G3 G4] G5]. pose proof (hash_entry_table _ id c G1 Hl Himm) as Ht.
  assert (Hs := HashEntry mix_tab id c (hcache st) Hl Himm Hn). set (s' := hash_entry _ _ _ _) in *.
  assert (He : ∀ x, x ≠ id → entry s' x = entry (hcache st) x).
  { intros x Hx. change (entry s' x) with (entry (set_entry id c (hcache st)) x). by rewrite entry_set_entry, decide_False. }
  assert (Hid : entry s' id = c) by (change (entry s' id) with (entry (set_entry id c (hcache st)) id); by rewrite entry_set_entry, decide_True).
  destruct (step_inv mix_tab _ _ Hs (conj G1 G2)) as [? ?]. split; [by apply rtc_once| | |done|done].
  - split; [done|done| |].
    + split; [done|]. intros x Hx. destruct (G4 x Hx) as [Hlx Htx]. split; [exact Hlx|]. rewrite (Ht x). intros [->|?]; [by apply Hp|done].
    + intros x Hx%Ht. unfold eflags. cbn [hcache set_hcache]. destruct (decide (x = id)) as [->|Hne]; [by rewrite Hid|]. rewrite He by done. destruct Hx as [?|Hx]; [done|by apply G5].
  - intros x Hpin. assert (x ≠ id) by (intros ->; by apply Hl, Hpin). apply stays_intro; [done|apply Ht; right; apply Hpin|].
    cbn [hcache set_hcache]. rewrite He by done. apply hnext_self.
Qed.
Definition takes (get : hosts_state → option nat * hosts_state) : Prop :=
  ∀ st o st1, good st → get st = (o, st1) → along st st1 ∧ hcache st1 = hcache st ∧ ∀ id, o = Some id → held st1 id.
Lemma along_take st st1 :
  good st → hcache st1 = hcache st → sublist (pool st1) (pool st) →
  (mallocs st1 ≠ [] → mallocs st ≠ []) → (Forall is_Some (mallocs st) → Forall is_Some (mallocs st1)) → along st st1.
Proof.
  intros Hg Hc Hsub Hm Hs. destruct (along_refl st Hg) as [A1 [G1 G2 [G3 G4] G5] A3 _ _]. split; [by rewrite Hc| |by rewrite Hc|done|done].
  split; [by rewrite Hc..| |by rewrite Hc]. split; [by eapply sublist_NoDup|]. rewrite Hc. intros x Hx. apply G4. by eapply elem_of_sublist.
Qed.
Lemma held_taken st st1 id : good st → hcache st1 = hcache st → pool st ≡ₚ id :: pool st1 → held st1 id.
Proof.
  intros [_ _ [G3 G4] _] Hc Hp. rewrite Hp in G3. apply NoDup_cons in G3 as [? _]. split; [|done]. rewrite Hc. apply G4. rewrite Hp. by constructor.
Qed.
Lemma whine_malloc_takes : takes whine_malloc.
Proof.
  intros st o st1 Hg. unfold whine_malloc. destruct (mallocs st) as [|o' l] eqn:Hm; intros [= <- <-].
  { split_and!; [by apply along_refl|done|done]. }
  assert (Hpool : pool st = dhcp_spare st ++ omap id (o' :: l)) by (unfold pool; by rewrite Hm). split_and!; [|done|].
  - apply along_take; [done|done| |by rewrite Hm|rewrite Hm; by inversion 1]. rewrite Hpool. unfold pool. cbn.
    apply sublist_app; [done|]. by destruct o'; [apply sublist_cons|].
  - intros y ->. apply (held_taken st); [done|done|]. rewrite Hpool. unfold pool. cbn. by rewrite Permutation_middle.
Qed.
Lemma spare_crec_takes : takes spare_crec.
Proof.
  intros st o st1 Hg. unfold spare_crec. destruct (dhcp_spare st) as [|y l] eqn:Hm; [by apply whine_malloc_takes|]. intros [= <- <-].
  assert (Hpool : pool st = y :: l ++ omap id (mallocs st)) by (unfold pool; by rewrite Hm). split_and!; [|done|].
  - apply along_take; [done|done| |done|done]. rewrite Hpool. by apply sublist_cons.
  - intros z [= ->]. apply (held_taken st); [done|done|]. by rewrite Hpool.
Qed.
Lemma spare_crec_same s st : (spare_crec (set_hcache s st)).1 = (spare_crec st).1.
Proof. unfold spare_crec, whine_malloc. cbn. repeat case_match; done. Qed.
(** Memory that is not at its end was given. *)
Lemma whine_malloc_some st o st1 : whine_malloc st = (o, st1) → Forall is_Some (mallocs st) → mallocs st1 ≠ [] → is_Some o.
Proof. unfold whine_malloc. destruct (mallocs st) as [|o' l] eqn:Hm; intros [= <- <-]; [by rewrite Hm|]. by inversion 1. Qed.

Lemma along_aliases get name due fl target u l st :
  takes get → good st → immune fl = true → host_flags fl → Forall (λ p, string_ p.1) l →
  along st (add_aliases mix_tab get name due fl target u l st).
Proof.
  intros Hget Hg Himm Hf Hl. revert st Hg. induction Hl as [|[alias tgt] l Ha _ IH]; intros st Hg; cbn [add_aliases]; [by apply along_refl|].
  set (st1 := if hostname_isequal name tgt then _ else _).
  assert (H1 : along st st1); [|by eapply along_trans, IH; [|apply H1]]. unfold st1.
  destruct (hostname_isequal name tgt); [|by apply along_refl]. destruct (get st) as [o st0] eqn:Hst.
  destruct (Hget _ _ _ Hg Hst) as (H0 & _ & Hheld). destruct o as [id|]; [|done]. eapply along_trans; [exact H0|].
  apply along_hash; [apply H0|by apply Hheld|done..].
Qed.
(** *** A name of a hosts file *)
Definition hosted (s : cache) (name : text) (prot : Z) (len : nat) (a : list Z) : Prop :=
  ∃ x, pinned s x ∧ name_test name prot (entry s x) = true ∧ same_addr len (addr (entry s x)) a = true.
Lemma hosted_along st st' name prot len a : along st st' → hosted (hcache st) name prot len a → hosted (hcache st') name prot len a.
Proof. intros Ha (x & Hp & Hn & Hs). destruct (al_stays _ _ Ha x Hp) as [Hp' [n He]]. exists x. split; [done|]. rewrite He. done. Qed.
Lemma find_first name now prot s l s' :
  cinv s → strings s → string_ name → cache_find_by_name mix_tab name now prot None s = (Some l, s') →
  in_tbl (hash_table s') l ∧ name_test name prot (entry s' l) = true.
Proof.
  intros Hi Hs Hn Hf. pose proof (find_search mix_tab name now prot s Hi Hs Hn) as H. rewrite Hf in H. destruct H as (_ & _ & ans & [_ A2 _ A4]).
  assert (Ht : name_test name prot (entry s' l) = true) by (unfold cache_find_by_name in Hf; repeat (case_match; simplify_eq); done).
  destruct ans as [|y ans]; cbn [trail] in A4; [by rewrite Ht in A4|]. destruct A4 as ([= ->] & _ & _). apply A2. by constructor.
Qed.
(** the flags of a line of a hosts file *)
Definition line_flags (prot : Z) : Z := Z.lor (Z.lor (Z.lor (Z.lor F_HOSTS F_IMMORTAL) F_FORWARD) F_REVERSE) prot.
Lemma entry_flags prot f :
  prot = F_IPV4 ∨ prot = F_IPV6 → f = line_flags prot ∨ f = clear (line_flags prot) F_REVERSE →
  immune f = true ∧ host_flags f ∧ has f F_IMMORTAL = true ∧ has f F_HOSTS = true ∧ has f F_CNAME = false ∧
  has f F_FORWARD = true ∧ has f prot = true ∧ Z.land (line_flags prot) (Z.lor F_IPV4 F_IPV6) = prot.
Proof. intros [->| ->] [->| ->]; split_and!; try done; intros _; split_and!; try done; by left. Qed.
Context (Hcnames : Forall (λ p : text * text, string_ p.1) cnames).
Lemma hostname_refl t : string_ t → hostname_isequal t t = true.
Proof. intros Ht. rewrite hostname_isequal_fold by done. by apply bool_decide_eq_true. Qed.
Lemma add_hosts_entry_run id name a len prot index dup st :
  good st → held st id → string_ name → prot = F_IPV4 ∨ prot = F_IPV6 →
  let st' := add_hosts_entry mix_tab cnames id name a len (line_flags prot) index dup st in
  along st st' ∧ hosted (hcache st') name prot len a.
Proof.
  intros Hg Hh Hn Hp. unfold add_hosts_entry. destruct (entry_flags prot _ Hp (or_introl eq_refl)) as (_ & _ & _ & _ & _ & _ & _ & ->).
  pose proof (along_find st name 0 prot Hg Hn) as Hf. pose proof Hg as [G1 G2 _ _]. pose proof (find_search mix_tab name 0 prot _ G1 G2 Hn) as Hsr.
  pose proof (λ l s', find_first name 0 prot (hcache st) l s' G1 G2 Hn) as Hfst.
  destruct (cache_find_by_name mix_tab name 0 prot None (hcache st)) as [lookup s1]. destruct Hsr as (Hi1 & (s0 & Hw & Ht) & _). cbn [snd] in Hf.
  set (st1 := set_hcache s1 st) in *. assert (Hh1 : held st1 id) by (by eapply held_search).
  set (ne := match lookup with Some l => has (eflags s1 l) F_HOSTS | None => false end).
  set (f := if dup then _ else _).
  assert (Hff : f = line_flags prot ∨ f = clear (line_flags prot) F_REVERSE) by (unfold f; repeat case_match; tauto).
  destruct (entry_flags prot f Hp Hff) as (E1 & E2 & E3 & E4 & E5 & E6 & E7 & _).
  destruct (ne && _) eqn:Hdup.
  - split; [done|]. apply andb_true_iff in Hdup as [Hne Hsame]. unfold ne in Hne. destruct lookup as [l|]; [|done].
    destruct (Hfst l s1 eq_refl) as [Hin Htest]. exists l. split; [|done].
    destruct (gd_typed _ (al_good _ _ Hf) l Hin Hne) as (_ & ? & Hc). split_and!; [done..|]. destruct Hc as [?|Hc]; [done|]. exfalso.
    apply andb_true_iff in Htest as [[_ Hpr]%andb_true_iff _]. change (flags (entry s1 l)) with (eflags s1 l) in Hpr.
    cbn [hcache st1 set_hcache] in Hc. rewrite has_false, Z.land_lor_distr_r in Hc. apply Z.lor_eq_0_iff in Hc as [??]. apply has_true in Hpr.
    by destruct Hp as [->| ->].
  - set (c := mk_crec 0 index (Addr (take len a)) f name None). set (st2 := set_hcache (hash_entry mix_tab id c s1) st1).
    assert (H2 : along st1 st2) by (apply along_hash; [apply Hf|done..]).
    assert (Hhost : hosted (hcache st2) name prot len a).
    { exists id. assert (He : entry (hcache st2) id = c) by (change (entry (set_entry id c s1) id = c); by rewrite entry_set_entry, decide_True).
      split; [|rewrite He].
      - split; [apply (hash_entry_table s1 id c Hi1 (proj1 Hh1) E1); by left|]. unfold eflags. by rewrite He.
      - split; [unfold name_test; cbn; rewrite E6, E7; by apply hostname_refl|]. unfold same_addr. cbn.
        rewrite take_take, Nat.min_id. by apply bool_decide_eq_true. }
    pose proof (along_trans _ _ _ Hf H2) as H12. destruct ne; [done|].
    assert (Ha : along st2 (add_aliases mix_tab whine_malloc name 0 (Z.lor (Z.lor (Z.lor (Z.lor F_FORWARD F_IMMORTAL) F_CONFIG) F_HOSTS) F_CNAME) id index cnames st2)).
    { apply along_aliases; [apply whine_malloc_takes|apply H2|done| |done]. intros _. split_and!; [done|done|by right]. }
    split; [by eapply along_trans|by eapply hosted_along].
Qed.
(** *** The names of a line, the lines of a file *)
Context (Hdomain : string_ (default [] domain_suffix)) (Hcond : Forall (λ '(_, _, d), string_ d) cond_domain).
Abbreviation host_name_ := (host_name mix_tab cnames opt_expand).
Abbreviation host_names_ := (host_names mix_tab canon_room cnames opt_expand).
Abbreviation host_addr_ := (host_addr inet_pton4 inet_pton6 cond_domain domain_suffix).
Abbreviation host_lines_ := (host_lines mix_tab inet_pton4 inet_pton6 canon_room rehash_room cnames cond_domain domain_suffix opt_expand).
Abbreviation read_hostsfile_ := (read_hostsfile mix_tab inet_pton4 inet_pton6 canon_room rehash_room cnames cond_domain domain_suffix opt_expand).

Lemma canon_string room t c : string_ t → (canonicalise room t).1.1 = Some c → string_ c.
Proof.
  unfold canonicalise, check_name. intros Ht. repeat case_match; simplify_eq; cbn; intros [= <-]; try done.
  destruct t as [|x t _] using rev_ind; [done|]. rewrite removelast_last. by apply Forall_app in Ht as [? _].
Qed.
Lemma host_addr_some token f len a suffix :
  host_addr_ token = Some (f, len, a, suffix) →
  ∃ prot, (prot = F_IPV4 ∨ prot = F_IPV6) ∧ f = line_flags prot ∧ string_ (default [] suffix).
Proof.
  unfold host_addr. destruct (inet_pton4 token) as [b|]; [|destruct (inet_pton6 token) as [b|]; [|done]]; intros [= <- <- <- <-].
  - exists F_IPV4. split_and!; [by left|done|]. unfold get_domain. destruct (List.find _ cond_domain) as [[[lo hi] d]|] eqn:Hf; [|done].
    apply find_some in Hf as [Hin _]. rewrite Forall_forall in Hcond. apply list_elem_of_In in Hin. apply (Hcond _ Hin).
  - exists F_IPV6. split_and!; [by right|done|done].
Qed.

(** One more name from the memory: what either call of add_hosts_entry does. *)
Lemma add_name_run name a len prot index dup st o st0 :
  good st → string_ name → prot = F_IPV4 ∨ prot = F_IPV6 → whine_malloc st = (o, st0) →
  let st' := match o with Some id => add_hosts_entry mix_tab cnames id name a len (line_flags prot) index dup st0 | None => st0 end in
  along st st' ∧ (Forall is_Some (mallocs st) → mallocs st' ≠ [] → hosted (hcache st') name prot len a).
Proof.
  intros Hg Hn Hp Hm. destruct (whine_malloc_takes _ _ _ Hg Hm) as (H0 & _ & Hheld). destruct o as [id|].
  - destruct (add_hosts_entry_run id name a len prot index dup st0 (al_good _ _ H0) (Hheld id eq_refl) Hn Hp) as [? ?].
    split; [by eapply along_trans|done].
  - split; [done|]. intros Hs Hne. by destruct (whine_malloc_some _ _ _ Hm Hs Hne).
Qed.
Lemma host_name_run canon suffix fqdn a len prot index dup count st :
  good st → string_ canon → string_ (default [] suffix) → prot = F_IPV4 ∨ prot = F_IPV6 →
  let st' := (host_name_ canon suffix fqdn a len (line_flags prot) index dup count st).2 in
  along st st' ∧ (Forall is_Some (mallocs st) → mallocs st' ≠ [] → hosted (hcache st') canon prot len a).
Proof.
  intros Hg Hn Hsuf Hp. unfold host_name. set (r := match suffix with Some _ => _ | None => _ end).
  assert (H1 : along st r.2).
  { unfold r. destruct suffix as [d|]; [|by apply along_refl]. destruct (opt_expand && negb fqdn); [|by apply along_refl].
    destruct (whine_malloc st) as [o st0] eqn:Hm.
    destruct (add_name_run (canon ++ chr "." :: d) a len prot index dup st o st0 Hg) as [? _]; [|done|done|by destruct o].
    apply Forall_app. split; [done|]. by constructor. }
  clearbody r. destruct r as [[dup1 count1] st1]. cbn [snd] in H1. destruct (whine_malloc st1) as [o st0] eqn:Hm.
  destruct (add_name_run canon a len prot index dup1 st1 o st0 (al_good _ _ H1) Hn Hp Hm) as [H2 Hh].
  destruct o; (split; [by eapply along_trans|intros Hs; apply Hh; by apply (al_some _ _ H1)]).
Qed.
(** a name is found, unless it is not a legal one *)
Definition resolves (s : cache) (prot : Z) (len : nat) (a : list Z) (m : text) : Prop :=
  ∀ canon, (canonicalise (canon_room m) m).1.1 = Some canon → hosted s canon prot len a.
Lemma resolves_along st st' prot len a m : along st st' → resolves (hcache st) prot len a m → resolves (hcache st') prot len a m.
Proof. intros Ha Hr canon Hc. eapply hosted_along; [done|by apply Hr]. Qed.
(** One turn of the loop over the names of a line. *)
Lemma host_names_turn fuel nl token f0 f suffix a len prot index dup count st :
  gettok f0 [] = (nl, token, f) → nl ≠ EOF → good st → string_ (default [] suffix) → prot = F_IPV4 ∨ prot = F_IPV6 →
  ∃ dup' count' st', along st st' ∧
    (Forall is_Some (mallocs st) → mallocs st' ≠ [] → resolves (hcache st') prot len a (cstring token)) ∧
    host_names_ (S fuel) 0 f0 suffix a len (line_flags prot) index dup count st =
    host_names_ fuel nl f suffix a len (line_flags prot) index dup' count' st'.
Proof.
  intros Hf Hnl Hg Hsuf Hp. cbn [host_names Z.eqb negb]. rewrite Hf. apply Z.eqb_neq in Hnl as ->. set (m := cstring token).
  destruct (canonicalise (canon_room m) m).1.1 as [canon|] eqn:Hc.
  - assert (Hcs : string_ canon) by (eapply canon_string; [apply cstring_nonzero|exact Hc]).
    pose proof (host_name_run canon suffix (existsb (Z.eqb (chr ".")) m) a len prot index dup count st Hg Hcs Hsuf Hp) as [H1 Hh].
    destruct (host_name _ _ _ _ _ _ _ _ _ _ _ _ st) as [[dup1 count1] st1]. exists dup1, count1, st1. split_and!; [done| |done].
    intros Hs Hne c Hc'. rewrite Hc in Hc'. injection Hc' as <-. by apply Hh.
  - exists dup, count, st. split_and!; [by apply along_refl| |done]. intros _ _ c Hc'. congruence.
Qed.
Lemma host_names_run fuel atnl f suffix a len prot index dup count st :
  good st → string_ (default [] suffix) → prot = F_IPV4 ∨ prot = F_IPV6 →
  along st (host_names_ fuel atnl f suffix a len (line_flags prot) index dup count st).2.
Proof.
  revert atnl f dup count st. induction fuel as [|fuel IH]; intros atnl f dup count st Hg Hsuf Hp; [by apply along_refl|].
  destruct (Z.eq_dec atnl 0) as [->|Hnz]; [|cbn [host_names]; apply Z.eqb_neq in Hnz as ->; by apply along_refl].
  destruct (gettok f []) as [[nl token] f'] eqn:Hf. destruct (Z.eq_dec nl EOF) as [->|Hnl].
  { cbn [host_names Z.eqb negb]. rewrite Hf. cbn. by apply along_refl. }
  destruct (host_names_turn fuel nl token f f' suffix a len prot index dup count st Hf Hnl Hg Hsuf Hp) as (dup' & count' & st' & H1 & _ & ->).
  eapply along_trans; [exact H1|]. apply IH; [apply H1|done..].
Qed.
Lemma grow_run (b : bool) x size count st : good st →
  along st (if b then (x, set_hcache (rehash mix_tab rehash_room size (hcache st)) st) else (count, st) : Z * hosts_state).2.
Proof. intros Hg. destruct b; [by apply along_rehash|by apply along_refl]. Qed.
Lemma host_lines_run fuel f index size count saved st : good st → along st (host_lines_ fuel f index size count saved st).2.
Proof.
  revert f size count saved st. induction fuel as [|fuel IH]; intros f size count saved st Hg; cbn [host_lines]; [by apply along_refl|].
  destruct (gettok f []) as [[nl token] f']. destruct (nl =? EOF); [by apply along_refl|].
  destruct (host_addr_ (cstring token)) as [[[[fl len] a] suffix]|] eqn:Ha; [|by apply IH].
  apply host_addr_some in Ha as (prot & Hp & -> & Hsuf). set (dup := _ && _).
  pose proof (grow_run (1000 <? count - size) count count size st Hg) as H1. destruct (if 1000 <? count - size then _ else _) as [size1 st1].
  pose proof (host_names_run (length f') nl f' suffix a len prot index dup count st1 (al_good _ _ H1) Hsuf Hp) as H2.
  destruct (host_names _ _ _ _ _ _ _ _ _ _ _ _ _ _ st1) as [[[nl2 f2] count2] st2].
  eapply along_trans; [exact H1|]. eapply along_trans; [exact H2|]. apply IH, H2.
Qed.
Lemma read_hostsfile_run file index size st : good st → along st (read_hostsfile_ file index size st).2.
Proof.
  intros Hg. unfold read_hostsfile. destruct file as [f|]; [|by apply along_refl]. destruct (eatspace f 0 false) as [nl f'].
  pose proof (host_lines_run (S (length f')) f' index size size (0, []) st Hg) as H1.
  destruct (host_lines _ _ _ _ _ _ _ _ _ _ _ _ _ _ _ st) as [count st1]. eapply along_trans; [exact H1|]. apply along_rehash, H1.
Qed.
(** *** The names of a printed file are found *)
Lemma host_names_found names : ∀ m fuel rest suffix a len prot index dup count st,
  word m → Forall word names → starts rest → (length names < fuel)%nat →
  good st → string_ (default [] suffix) → prot = F_IPV4 ∨ prot = F_IPV6 →
  let '(_, f, _, st') := host_names_ fuel 0 (m ++ print_names names ++ rest) suffix a len (line_flags prot) index dup count st in
  f = rest ∧ (Forall is_Some (mallocs st) → mallocs st' ≠ [] → Forall (resolves (hcache st') prot len a) (m :: names)).
Proof.
  induction names as [|n names IH]; intros m [|fuel] rest suffix a len prot index dup count st Hm Hns Hrest Hfuel Hg Hsuf Hp;
    cbn [length] in Hfuel; try lia; pose proof (gettok_line m _ rest Hm Hns Hrest) as Hf;
    destruct (host_names_turn fuel _ _ _ _ suffix a len prot index dup count st Hf ltac:(done) Hg Hsuf Hp)
      as (dup' & count' & st' & H1 & Hres & ->); rewrite cstring_string in Hres by (by apply word_string, Hm).
  - destruct fuel; (split; [done|]; intros Hs Hne; by repeat constructor; apply Hres).
  - inversion Hns as [|?? Hn Hns']; subst. pose proof (al_good _ _ H1) as Hg1.
    pose proof (IH n fuel rest suffix a len prot index dup' count' st' Hn Hns' Hrest ltac:(lia) Hg1 Hsuf Hp) as Hi.
    pose proof (host_names_run fuel 0 (n ++ print_names names ++ rest) suffix a len prot index dup' count' st' Hg1 Hsuf Hp) as H2.
    destruct (host_names _ _ _ _ _ _ _ _ _ _ _ _ _ _ st') as [[[nl f] cnt] st2]. destruct Hi as [-> Hi]. split; [done|]. intros Hs Hne.
    constructor; [|by apply Hi; [apply (al_some _ _ H1)|]]. apply (resolves_along st'); [done|]. apply Hres; [done|]. by apply (al_memory _ _ H2).
Qed.
Lemma skip_line_names names : ∀ m fuel rest,
  word m → Forall word names → starts rest → (length names < fuel)%nat → skip_line fuel 0 (m ++ print_names names ++ rest) = rest.
Proof.
  induction names as [|n names IH]; intros m [|fuel] rest Hm Hns Hrest Hfuel; cbn [length] in Hfuel; try lia;
    cbn [skip_line Z.eqb negb]; rewrite gettok_line by done.
  - by destruct fuel.
  - inversion Hns; subst. apply IH; [done..|lia].
Qed.
Lemma names_length names : (length names < length (print_names names))%nat.
Proof. unfold print_names. induction names as [|n names IH]; cbn; [lia|]. rewrite !length_app in *. cbn in *. lia. Qed.
Lemma lines_length lines : (length lines ≤ length (print_hosts lines))%nat.
Proof.
  induction lines as [|l lines IH]; [done|]. cbn. fold (print_hosts lines). unfold print_line. rewrite !length_app. pose proof (names_length l.2). lia.
Qed.
(** the names of a line with an address are found, with that address *)
Definition line_found (s : cache) (l : text * list text) : Prop :=
  ∀ fl len a suffix, host_addr_ l.1 = Some (fl, len, a, suffix) → Forall (resolves s (Z.land fl (Z.lor F_IPV4 F_IPV6)) len a) l.2.
Lemma line_found_along st st' l : along st st' → line_found (hcache st) l → line_found (hcache st') l.
Proof. intros Ha Hl fl len a suffix Hx. eapply Forall_impl; [by eapply Hl|]. intros m. by apply resolves_along. Qed.
Lemma host_lines_found lines : ∀ fuel index size count saved st,
  Forall good_line lines → (length lines < fuel)%nat → good st →
  let st' := (host_lines_ fuel (print_hosts lines) index size count saved st).2 in
  Forall is_Some (mallocs st) → mallocs st' ≠ [] → Forall (line_found (hcache st')) lines.
Proof.
  induction lines as [|[t names] lines IH]; intros [|fuel] index size count saved st Hgl Hfuel Hg; cbn [length] in Hfuel; try lia; [done|].
  inversion Hgl as [|?? (Ht & Hne & Hns) Hgl']; subst. cbn [fst snd] in *. pose proof (print_starts lines Hgl') as Hrest.
  destruct names as [|n names]; [done|]. inversion Hns as [|?? Hn Hns']; subst.
  replace (print_hosts ((t, n :: names) :: lines)) with (t ++ print_names (n :: names) ++ print_hosts lines) by (by rewrite app_assoc).
  cbn [host_lines]. rewrite gettok_line by done. change (0 =? EOF) with false. rewrite cstring_string by (by apply word_string, Ht).
  assert (Hlen : (length names < length (n ++ print_names names ++ print_hosts lines))%nat).
  { rewrite !length_app. pose proof (names_length names). lia. }
  destruct (host_addr_ t) as [[[[fl len] a] suffix]|] eqn:Ha.
  - destruct (host_addr_some _ _ _ _ _ Ha) as (prot & Hp & -> & Hsuf). set (dup := _ && _).
    pose proof (grow_run (1000 <? count - size) count count size st Hg) as H1. destruct (if 1000 <? count - size then _ else _) as [size1 st1].
    cbn [snd] in H1. pose proof (al_good _ _ H1) as G1. set (F := n ++ _) in *.
    pose proof (host_names_found names n (length F) (print_hosts lines) suffix a len prot index dup count st1 Hn Hns' Hrest Hlen G1 Hsuf Hp) as Hf.
    pose proof (host_names_run (length F) 0 F suffix a len prot index dup count st1 G1 Hsuf Hp) as H2.
    fold F in Hf. destruct (host_names _ _ _ _ _ _ _ _ _ _ _ _ _ _ st1) as [[[nl2 f2] count2] st2]. destruct Hf as [-> Hf]. cbn [snd] in H2.
    intros Hs Hmem. pose proof (host_lines_run fuel (print_hosts lines) index size1 count2 (if dup then saved else (line_flags prot, a)) st2 (al_good _ _ H2)) as H3.
    constructor; [|apply IH; [done|lia|apply H2| |done]; by apply (al_some _ _ H2), (al_some _ _ H1)].
    apply (line_found_along st2); [done|]. intros fl' len' a' suffix' Hx. cbn [fst snd] in *. rewrite Ha in Hx. injection Hx as <- <- <- <-.
    destruct (entry_flags prot _ Hp (or_introl eq_refl)) as (_ & _ & _ & _ & _ & _ & _ & ->).
    apply Hf; [by apply (al_some _ _ H1)|by apply (al_memory _ _ H3)].
  - rewrite skip_line_names by done. intros Hs Hmem. constructor; [|apply IH; [done|lia|done..]]. intros ????. cbn [fst]. congruence.
Qed.
Lemma read_hostsfile_found lines index size st :
  Forall good_line lines → good st →
  let st' := (read_hostsfile_ (Some (print_hosts lines)) index size st).2 in
  Forall is_Some (mallocs st) → mallocs st' ≠ [] → Forall (line_found (hcache st')) lines.
Proof.
  intros Hl Hg. unfold read_hostsfile. rewrite eatspace_starts by (by apply print_starts).
  pose proof (lines_length lines) as Hlen.
  pose proof (host_lines_found lines (S (length (print_hosts lines))) index size size (0, []) st Hl ltac:(lia) Hg) as Hf.
  pose proof (host_lines_run (S (length (print_hosts lines))) (print_hosts lines) index size size (0, []) st Hg) as H1.
  destruct (host_lines _ _ _ _ _ _ _ _ _ _ _ _ _ _ _ st) as [count st1]. cbn [snd] in *. intros Hs Hne.
  pose proof (along_rehash st1 count (al_good _ _ H1)) as H2. eapply Forall_impl; [by apply Hf|]. intros l. by apply line_found_along.
Qed.
(** *** A reload *)
Lemma flush_chain_hosts chain s :
  let '(kept, s') := flush_chain chain s in
  (∀ x, x ∈ kept → has (eflags s x) F_HOSTS = false) ∧ (∀ x, eflags s' x = eflags s x ∨ eflags s' x = 0) ∧ hash_table s' = hash_table s.
Proof.
  revert s. induction chain as [|y chain IH]; intros s; cbn [flush_chain].
  { split_and!; [intros x Hx; by apply not_elem_of_nil in Hx|by left|done]. }
  destruct (has (eflags s y) F_HOSTS) eqn:Hh; [apply IH|]. destruct (negb (has (eflags s y) F_DHCP)).
  - set (s1 := if has (eflags s y) F_BIGNAME then _ else _).
    set (s2 := set_entry y (with_flags 0 (entry s1 y)) s1).
    assert (Ht : hash_table s2 = hash_table s) by (unfold s2, s1; by destruct (has _ F_BIGNAME)).
    assert (Hf : ∀ x, eflags s2 x = eflags s x ∨ eflags s2 x = 0).
    { intros x. unfold s2, s1, eflags. rewrite entry_set_entry. case_decide; [by right|left]. by destruct (has _ F_BIGNAME). }
    specialize (IH s2). destruct (flush_chain chain s2) as [kept s']. destruct IH as (H1 & H2 & H3). split_and!; [| |congruence].
    + intros x Hx. specialize (H1 x Hx). destruct (Hf x) as [<-|H0]; [done|]. destruct (decide (x = y)) as [->|Hne]; [done|].
      replace (eflags s x) with (eflags s2 x); [done|]. unfold s2, s1, eflags. rewrite entry_set_entry, decide_False by done. by destruct (has _ F_BIGNAME).
    + intros x. destruct (H2 x) as [->|?]; [apply Hf|by right].
  - specialize (IH s). destruct (flush_chain chain s) as [kept s']. destruct IH as (H1 & H2 & H3). split_and!; [|done|done].
    intros x [->|Hx]%elem_of_cons; [done|by apply H1].
Qed.
Definition swept_hosts (i : nat) (s : cache) : Prop :=
  ∀ j ch x, hash_table s !! j = Some ch → (j < i)%nat → x ∈ ch → has (eflags s x) F_HOSTS = false.
Lemma flush_buckets_hosts n i s :
  (i + n = hash_size s)%nat → swept_hosts i s → typed (flush_buckets n i s).
Proof.
  revert i s. induction n as [|n IH]; intros i s Hn Hsw; cbn [flush_buckets].
  { intros x (j & ch & Hj & Hx) Hh. rewrite (Hsw j ch x Hj) in Hh; [done| |done]. apply lookup_lt_Some in Hj. unfold hash_size in Hn. lia. }
  pose proof (flush_chain_hosts (nth i (hash_table s) []) s) as H. destruct (flush_chain _ s) as [kept s']. destruct H as (H1 & H2 & H3).
  apply IH; [unfold hash_size in *; cbn; rewrite length_insert, H3; lia|]. intros j ch x Hj Hlt Hx. change (eflags (set_chain i kept s') x) with (eflags s' x).
  assert (has (eflags s x) F_HOSTS = false) as Hs; [|by destruct (H2 x) as [->| ->]]. cbn in Hj. rewrite H3 in Hj.
  destruct (decide (j = i)) as [->|Hne].
  - rewrite list_lookup_insert_eq in Hj by (unfold hash_size in Hn; lia). injection Hj as <-. by apply H1.
  - rewrite list_lookup_insert_ne in Hj by done. apply (Hsw j ch x Hj); [lia|done].
Qed.
Lemma cache_flush_good st :
  cinv (hcache st) → strings (hcache st) → fresh (set_hcache (cache_flush (hcache st)) st) → good (set_hcache (cache_flush (hcache st)) st).
Proof.
  intros Hi Hs Hf. destruct (cache_flush_inv mix_tab _ Hi) as [? ?]. split; [done|by eapply names_strings|done|].
  cbn [hcache set_hcache]. unfold cache_flush. apply flush_buckets_hosts; [done|]. intros j ch x _ Hlt. lia.
Qed.
Abbreviation cache_reload_ := (cache_reload mix_tab inet_pton4 inet_pton6 canon_room rehash_room cnames cond_domain domain_suffix opt_expand).
Lemma reload_more_run addn total st :
  good st → along st (foldl (λ '(total_size, st) '(index, file), read_hostsfile_ file index total_size st) (total, st) addn).2.
Proof.
  revert total st. induction addn as [|[index file] addn IH]; intros total st Hg; cbn [foldl]; [by apply along_refl|].
  pose proof (read_hostsfile_run file index total st Hg) as H2. destruct (read_hostsfile _ _ _ _ _ _ _ _ _ _ _ _ st) as [total3 st3].
  eapply along_trans; [exact H2|]. apply IH, H2.
Qed.
Lemma cache_reload_run hosts addn size st :
  good (set_hcache (cache_flush (hcache st)) st) → along (set_hcache (cache_flush (hcache st)) st) (cache_reload_ hosts addn size st).
Proof.
  intros Hg. unfold cache_reload. set (st1 := set_hcache (cache_flush (hcache st)) st) in *.
  set (r := match hosts with Some _ => _ | None => _ end).
  assert (H1 : along st1 r.2) by (unfold r; destruct hosts; [by apply read_hostsfile_run|by apply along_refl]).
  clearbody r. destruct r as [total st2]. cbn [snd] in H1. eapply along_trans; [exact H1|]. apply reload_more_run, H1.
Qed.
(** *** Leases *)
Lemma set_hcache_self st : set_hcache (hcache st) st = st.
Proof. by destruct st. Qed.
Lemma set_hcache_twice s s' st : set_hcache s (set_hcache s' st) = set_hcache s st.
Proof. done. Qed.
Lemma find_next name now prot id s : (cache_find_by_name mix_tab name now prot (Some id) s).2 = s.
Proof. done. Qed.
Lemma lease_name_run fuel crecp host a in_hosts st :
  good st → string_ host → along st (set_hcache (lease_name mix_tab fuel crecp host a in_hosts (hcache st)).2 st).
Proof.
  revert crecp in_hosts st. induction fuel as [|fuel IH]; intros crecp in_hosts st Hg Hn; cbn [lease_name].
  { cbn. rewrite set_hcache_self. by apply along_refl. }
  assert (Hf : along st (set_hcache (cache_find_by_name mix_tab host 0 (Z.lor F_IPV4 F_CNAME) crecp (hcache st)).2 st)).
  { destruct crecp; [rewrite find_next, set_hcache_self; by apply along_refl|by apply along_find]. }
  destruct (cache_find_by_name _ _ _ _ _ (hcache st)) as [[id|] s1]; [|done]. cbn [snd] in Hf. pose proof (al_good _ _ Hf) as Hg1.
  assert (Hgo : ∀ b, along st (set_hcache (lease_name mix_tab fuel (Some id) host a b s1).2 st)).
  { intros b. eapply along_trans; [exact Hf|]. exact (IH (Some id) b _ Hg1 Hn). }
  destruct (has (eflags s1 id) F_HOSTS); [destruct (negb _); [done|apply Hgo]|].
  destruct (negb _); [|apply Hgo]. eapply along_trans; [exact Hf|]. exact (along_scan _ host [] 0 _ Hg1).
Qed.
Lemma lease_flags f : has f F_HOSTS = false → host_flags f.
Proof. intros Hf Ht. congruence. Qed.
Lemma aliases_keep get name due fl target u l st x :
  takes get → good st → immune fl = true → host_flags fl → Forall (λ p, string_ p.1) l →
  in_tbl (hash_table (hcache st)) x → untouched (hcache st) (hcache (add_aliases mix_tab get name due fl target u l st)) x.
Proof.
  intros Hget Hg Himm Hf Hl. revert st Hg. induction Hl as [|[alias tgt] l Ha _ IH]; intros st Hg Hx; cbn [add_aliases]; [done|].
  set (st1 := if hostname_isequal name tgt then _ else _).
  assert (H1 : good st1 ∧ untouched (hcache st) (hcache st1) x); [|destruct H1 as [? Hu]; eapply untouched_trans; [exact Hu|by apply IH; [|apply Hu]]].
  unfold st1. destruct (hostname_isequal name tgt); [|done]. destruct (get st) as [o st0] eqn:Hst.
  destruct (Hget _ _ _ Hg Hst) as (H0 & Hc & Hheld). destruct o as [id|]; [|by rewrite Hc; split; [apply H0|]].
  destruct (Hheld id eq_refl) as [Hlo Hpo]. pose proof (al_good _ _ H0) as Hg0. set (c := mk_crec _ _ _ _ _ _).
  pose proof (along_hash st0 id c Hg0 (conj Hlo Hpo) Himm Hf Ha) as H2. split; [apply H2|]. rewrite <- Hc in Hx |- *.
  assert (x ≠ id) by (intros ->; by apply Hlo). split.
  - change (entry (set_entry id c (hcache st0)) x = entry (hcache st0) x). by rewrite entry_set_entry, decide_False.
  - intros _. apply (hash_entry_table (hcache st0) id c (gd_cinv _ Hg0) Hlo Himm). by right.
Qed.
Definition lease_crec (host : text) (a : list Z) (due : Z) (c : crec) : Prop :=
  cname c = host ∧ addr c = Addr a ∧ ttd c = due ∧ has (flags c) F_DHCP = true ∧ has (flags c) F_FORWARD = true ∧ has (flags c) F_IPV4 = true ∧
  has (flags c) F_CNAME = false ∧ (due = 0 → has (flags c) F_IMMORTAL = true).
Lemma hash_lease_run host a due st :
  good st → string_ host →
  let st' := hash_lease mix_tab cnames host a due st in
  along st st' ∧ ((spare_crec st).1 ≠ None → ∃ x, in_tbl (hash_table (hcache st')) x ∧ lease_crec host a due (entry (hcache st') x)).
Proof.
  intros Hg Hn. unfold hash_lease. pose proof (along_find_addr st a 0 F_IPV4 Hg) as H2.
  destruct (cache_find_by_addr a 0 F_IPV4 None (hcache st)) as [crecp s2]. cbn [snd] in H2. pose proof (al_good _ _ H2) as G2.
  set (base := Z.lor (Z.lor (Z.lor F_DHCP F_FORWARD) F_IPV4) F_REVERSE). set (r := match crecp with Some _ => _ | None => _ end).
  assert (H3 : along st (set_hcache r.2 st) ∧ (r.1 = base ∨ r.1 = clear base F_REVERSE)).
  { unfold r. destruct crecp as [id|]; [|by auto]. destruct (has (eflags s2 id) F_NEG); [|by auto]. split; [|by left].
    eapply along_trans; [exact H2|]. exact (along_scan _ [] a 0 _ G2). }
  clearbody r. destruct r as [fl s3]. cbn [fst snd] in H3. destruct H3 as [H3 Hfl]. set (st3 := set_hcache s3 st) in *.
  pose proof (spare_crec_same s3 st) as Hsame. fold st3 in Hsame.
  destruct (spare_crec st3) as [o st4] eqn:Hsp. destruct (spare_crec_takes _ _ _ (al_good _ _ H3) Hsp) as (H4 & _ & Hheld).
  cbn [fst] in Hsame. rewrite <- Hsame. pose proof (along_trans _ _ _ H3 H4) as H34. destruct o as [id|]; [|done].
  pose proof (along_uid st4 (al_good _ _ H4)) as H5. set (st5 := set_hcache _ st4) in H5.
  assert (Hdue : ∀ f, immune f = true → has f F_HOSTS = false → let f' := if due =? 0 then Z.lor f F_IMMORTAL else f in immune f' = true ∧ host_flags f').
  { intros f Hf Hh f'. split; [|apply lease_flags]; unfold f', immune in *; destruct (due =? 0); rewrite ?has_lor_l by done; done. }
  destruct (Hdue fl) as [E1 E2]; [by destruct Hfl as [->| ->]..|]. destruct (Hdue (Z.lor (Z.lor (Z.lor F_FORWARD F_CONFIG) F_DHCP) F_CNAME) eq_refl eq_refl) as [E3 E4].
  set (u := uid_ctr (hcache st4)). set (c := mk_crec due u (Addr a) _ host None). destruct (Hheld id eq_refl) as [Hl Hp].
  assert (Hc : lease_crec host a due c).
  { unfold lease_crec. cbn. destruct Hfl as [->| ->], (Z.eqb_spec due 0); split_and!; done. }
  pose proof (along_hash st5 id c (al_good _ _ H5) (conj Hl Hp) E1 E2 Hn) as H6. set (st6 := set_hcache _ st5) in H6.
  assert (Hid : in_tbl (hash_table (hcache st6)) id ∧ entry (hcache st6) id = c).
  { split; [apply (hash_entry_table (hcache st5) id c (gd_cinv _ (al_good _ _ H5)) Hl E1); by left|].
    change (entry (set_entry id c (hcache st5)) id = c). by rewrite entry_set_entry, decide_True. }
  pose proof (along_trans _ _ _ H34 (along_trans _ _ _ H5 H6)) as H06. split.
  - eapply along_trans; [exact H06|]. apply along_aliases; [apply spare_crec_takes|apply H06|done|done|done].
  - intros _. exists id. destruct Hid as [Hin He].
    destruct (aliases_keep spare_crec host due _ id u cnames st6 id spare_crec_takes (al_good _ _ H06) E3 E4 Hcnames Hin) as [He' Hin'].
    split; [by apply Hin'|]. exact (eq_ind_r (lease_crec host a due) Hc (eq_trans He' He)).
Qed.
Lemma cache_add_dhcp_entry_run host a due st :
  good st → string_ host → along st (cache_add_dhcp_entry mix_tab cnames host a due st).
Proof.
  intros Hg Hn. unfold cache_add_dhcp_entry. set (fuel := (2 + _ + _)%nat). pose proof (lease_name_run fuel None host a false st Hg Hn) as H1.
  destruct (lease_name _ _ _ _ _ _ _) as [r s1]. cbn [snd] in H1. destruct r as [[|]|]; [done| |done].
  eapply along_trans; [exact H1|]. by apply hash_lease_run; [apply H1|].
Qed.

(** ** The runs with hosts files and leases *)
(** A transaction's steps and lookups. *)
Inductive dns_step : cache → cache → Prop :=
  | DStart s : dns_step s (cache_start_insert s)
  | DInsert room name a now ttl fl s : immune fl = false → has fl FR = true → string_ (default [] name) →
      dns_step s (cache_insert mix_tab room name a now ttl fl s).2
  | DPoint cpp newc s : cpp ∈ new_chain s → dns_step s (point_cname cpp newc s)
  | DEnd s : dns_step s (cache_end_insert mix_tab s)
  | DFindName name now prot crecp s : string_ name → dns_step s (cache_find_by_name mix_tab name now prot crecp s).2
  | DFindAddr a now prot crecp s : dns_step s (cache_find_by_addr a now prot crecp s).2.
Lemma dns_cache_step s s' : dns_step s s' → cache_step mix_tab s s'.
Proof. destruct 1; by constructor. Qed.
Lemma dns_bystander s s' : cinv s → strings s → dns_step s s' → bystander s s'.
Proof.
  intros Hi Hs. destruct 1.
  - apply start_by.
  - by apply insert_by.
  - split; [done|done|]. intros x _. unfold eflags, point_cname. rewrite entry_set_entry. by case_decide; subst.
  - apply end_by.
  - destruct crecp as [id|]; [done|]. pose proof (find_search mix_tab name now prot s Hi Hs H) as Hf.
    destruct (cache_find_by_name _ _ _ _ _ s) as [r s']. destruct Hf as (_ & (s1 & Hw & Ht) & _). by eapply bystander_search.
  - destruct crecp as [id|]; [done|]. pose proof (find_addr_search mix_tab a now prot s Hi) as Hf.
    destruct (cache_find_by_addr _ _ _ _ s) as [r s']. destruct Hf as (_ & (s1 & Hw & Ht) & _). by eapply bystander_search.
Qed.
Lemma dns_stays s s' x : cinv s → strings s → dns_step s s' → pinned s x → stays s s' x.
Proof.
  intros Hi Hs Hd Hp. pose proof (pinned_not_owned mix_tab s x Hi Hp) as Ho. destruct Hd as [s|room name a now ttl fl s _ _ _|cpp newc s Hcpp|s|name now prot crecp s Hn|a now prot crecp s].
  - apply untouched_stays; [by apply start_untouched|done].
  - apply untouched_stays; [by apply (insert_untouched mix_tab)|done].
  - apply untouched_stays; [|done]. split; [|done]. unfold point_cname. rewrite entry_set_entry, decide_False; [done|]. intros ->.
    apply Ho, elem_of_app. by right.
  - apply untouched_stays; [by apply end_untouched|done].
  - destruct crecp; [by apply untouched_stays|]. destruct (find_by_name_keeps mix_tab name now prot s x Hi) as [Hin He]; [by apply pinned_current|].
    apply stays_intro; [done|by apply Hin, Hp|done].
  - destruct crecp; [by apply untouched_stays|]. destruct (find_by_addr_keeps a now prot s x) as [Hin He]; [by apply pinned_current|].
    apply stays_intro; [done|by apply Hin, Hp|done].
Qed.
(** What happens to the cache, with its memory, between two reloads: replies and
    lookups, a lease that is added, all leases taken out, and a change of what the
    allocator will answer, which is memory that is not in use. *)
Inductive serve_step : hosts_state → hosts_state → Prop :=
  | HDns s' st : dns_step (hcache st) s' → serve_step st (set_hcache s' st)
  | HLease host a due st : string_ host → serve_step st (cache_add_dhcp_entry mix_tab cnames host a due st)
  | HUnhash st : serve_step st (let '(spare, s) := cache_unhash_dhcp (dhcp_spare st) (hcache st) in mk_hosts s spare (mallocs st))
  | HMemory ms st : fresh (mk_hosts (hcache st) (dhcp_spare st) ms) → serve_step st (mk_hosts (hcache st) (dhcp_spare st) ms).
Inductive hosts_step : hosts_state → hosts_state → Prop :=
  | HServe st st' : serve_step st st' → hosts_step st st'
  | HReload hosts addn size st : fresh (set_hcache (cache_flush (hcache st)) st) → hosts_step st (cache_reload_ hosts addn size st).
Record served (st st' : hosts_state) : Prop := {
  sv_good : good st';
  sv_steps : rtc (cache_step mix_tab) (hcache st) (hcache st');
  sv_stays : ∀ x, pinned (hcache st) x → stays (hcache st) (hcache st') x
}.
Lemma serve_step_served st st' : serve_step st st' → good st → served st st'.
Proof.
  intros Hstep Hg. pose proof Hg as [G1 G2 [G3 G4] G5]. destruct Hstep as [s' st Hd|host a due st Hh|st|ms st Hf].
  - pose proof (dns_bystander _ _ G1 G2 Hd) as Hb. pose proof (dns_cache_step _ _ Hd) as Hc. destruct (step_inv mix_tab _ _ Hc (conj G1 G2)) as [? ?].
    split; [|by apply rtc_once|intros x; by apply dns_stays]. split; [done|done| |by eapply bystander_typed].
    split; [done|]. intros x Hx. by eapply bystander_loose, G4.
  - pose proof (cache_add_dhcp_entry_run host a due st Hg Hh) as Ha. split; apply Ha.
  - pose proof (unhash_buckets_aside mix_tab (hash_size (hcache st)) 0 (dhcp_spare st) (omap id (mallocs st)) (hcache st) G1 ltac:(lia) (conj G3 G4)) as Ha.
    pose proof (UnhashDhcp mix_tab (dhcp_spare st) (hcache st)) as Hc. destruct (step_inv mix_tab _ _ Hc (conj G1 G2)) as [Hi Hs].
    unfold cache_unhash_dhcp in *. destruct (unhash_buckets _ _ _ _) as [spare s']. destruct Ha as (Ha & Hh & Ht & Hk). cbn [snd] in *.
    split; [|by apply rtc_once|intros x Hp; apply untouched_stays; [|done]; split; [unfold entry; cbn [hcache]; by rewrite Hh|];
      intros Hx; apply Hk; [by apply G5, Hp|done]]. split; [done|done|exact Ha|]. intros x Hx%Ht. unfold eflags, entry. cbn [hcache]. rewrite Hh. by apply G5.
  - split; [|apply rtc_refl|intros x; by apply untouched_stays]. by split.
Qed.
Lemma serve_steps_served st st' : rtc serve_step st st' → good st → served st st'.
Proof.
  induction 1 as [st|x y z Hxy _ IH]; intros Hg; [split; [done|apply rtc_refl|intros x; by apply untouched_stays]|].
  destruct (serve_step_served _ _ Hxy Hg) as [Hg' Hr Hst]. destruct (IH Hg') as [? Hr' Hst'].
  split; [done|by etrans|]. intros v Hv. eapply stays_trans; [by apply Hst|apply Hst'].
Qed.
Lemma hosts_steps_good st st' : rtc hosts_step st st' → good st → good st' ∧ rtc (cache_step mix_tab) (hcache st) (hcache st').
Proof.
  induction 1 as [|x y z Hxy _ IH]; intros Hg; [split; [done|apply rtc_refl]|].
  assert (H1 : good y ∧ rtc (cache_step mix_tab) (hcache x) (hcache y)).
  { destruct Hxy as [st st' Hs|hosts addn size st Hf]; [by destruct (serve_step_served _ _ Hs Hg)|]. pose proof Hg as [G1 G2 _ _].
    pose proof (cache_reload_run hosts addn size st (cache_flush_good st G1 G2 Hf)) as Ha. split; [apply Ha|].
    eapply rtc_l; [apply Flush|]. exact (al_steps _ _ Ha). }
  destruct H1 as [Hg' ?]. destruct (IH Hg') as [? ?]. split; [done|by etrans].
Qed.
(** ** Lookups *)
(** the loop over the answers to a lookup ends, and one of them is such an entry *)
Definition finds (s : cache) (name : text) (now prot : Z) (P : crec → Prop) : Prop :=
  ∃ l x, (∀ fuel, (length l < fuel)%nat → answers (cache_find_by_name mix_tab name now prot) fuel None s = l) ∧
    NoDup l ∧ x ∈ l ∧ name_test name prot (entry s x) = true ∧ P (entry s x).
Lemma current_finds s name now prot x (P : crec → Prop) :
  cinv s → strings s → string_ name → in_tbl (hash_table s) x → current now (entry s x) → name_test name prot (entry s x) = true →
  P (entry s x) → finds s name now prot P.
Proof.
  intros Hi Hs Hn Ht Hc Hm HP. destruct (find_by_name_ok mix_tab name now prot s Hi Hs Hn) as [l [L1 L2 L3 L4]].
  exists l, x. split_and!; [done|done|by apply L3|done|done].
Qed.
Lemma hosted_finds st st' name now prot len a :
  good st → served st st' → string_ name → hosted (hcache st) name prot len a →
  finds (hcache st') name now prot (λ c, has (flags c) F_HOSTS = true ∧ same_addr len (addr c) a = true).
Proof.
  intros Hg [Hg' _ Hst] Hn (x & Hp & Hm & Ha). destruct (Hst x Hp) as [Hp' [n He]]. pose proof Hg' as [G1 G2 _ _].
  apply (current_finds _ _ _ _ x); [done|done|done|apply Hp'|by apply pinned_current|by rewrite He|]. split; [apply Hp'|by rewrite He].
Qed.

(** *** A lease *)
Abbreviation lease_prot := (Z.lor F_IPV4 F_CNAME).
Lemma lease_name_ends host a l : ∀ fuel id b s,
  trail (name_test host lease_prot) s (next s id) l → (length l < fuel)%nat → (∀ x, x ∈ l → has (eflags s x) F_HOSTS = false) →
  (lease_name mix_tab fuel (Some id) host a b s).1 = Some b.
Proof.
  induction l as [|y l IH]; intros [|fuel] id b s Ht Hl Hh; cbn [length] in Hl; try lia; cbn [lease_name]; unfold cache_find_by_name; cbn [trail] in Ht.
  - destruct (next s id) as [z|]; [|done]. change (name_matches host lease_prot s z) with (name_test host lease_prot (entry s z)). by rewrite Ht.
  - destruct Ht as (-> & Hm & Ht). change (name_matches host lease_prot s y) with (name_test host lease_prot (entry s y)). rewrite Hm.
    rewrite (Hh y) by (by constructor). destruct (negb _); [done|]. apply IH; [done|lia|]. intros x Hx. apply Hh. by constructor.
Qed.
Lemma chains_length l s :
  NoDup l → (∀ x, x ∈ l → in_tbl (hash_table s) x) → (length l ≤ length (concat (hash_table s)))%nat.
Proof. intros Hnd Hin. apply submseteq_length, NoDup_submseteq; [done|]. intros x Hx. by apply in_tbl_concat, Hin. Qed.
Lemma lease_name_open host a s fuel :
  cinv s → strings s → string_ host → (1 + length (concat (hash_table s)) < fuel)%nat →
  (∀ x, in_tbl (hash_table s) x → name_test host lease_prot (entry s x) = true → has (eflags s x) F_HOSTS = false) →
  (lease_name mix_tab fuel None host a false s).1 = Some false.
Proof.
  intros Hi Hs Hn Hfuel Hno. destruct fuel as [|fuel]; [lia|]. pose proof (find_search mix_tab host 0 lease_prot s Hi Hs Hn) as Hf.
  cbn [lease_name]. destruct (cache_find_by_name mix_tab host 0 lease_prot None s) as [r s'] eqn:Hr.
  destruct Hf as (_ & (s1 & Hw & Ht) & l & [A1 A2 _ A4]).
  assert (Hback : ∀ x, x ∈ l → in_tbl (hash_table s) x ∧ has (eflags s' x) F_HOSTS = false).
  { intros x [Hx Hm]%A2. pose proof (touched_flags _ _ x Ht) as (Hfx & Hnx & _). destruct Ht as (_ & _ & T3 & _). rewrite T3 in Hx. apply (wf_sub _ _ Hw) in Hx.
    split; [done|]. rewrite Hfx. unfold name_test in Hm. change (flags (entry s' x)) with (eflags s' x) in Hm. rewrite Hfx, Hnx in Hm.
    destruct (wf_entry _ _ Hw x) as [He|[_ Hu]].
    - unfold eflags in *. rewrite He in *. by apply Hno.
    - exfalso. apply andb_true_iff in Hm as [[HF _]%andb_true_iff _]. unfold unused in Hu.
      apply has_true in HF. apply has_false in Hu. unfold FR in Hu. rewrite Z.land_lor_distr_r in Hu. by apply Z.lor_eq_0_iff in Hu as [? _]. }
  destruct r as [id|]; [|done]. destruct l as [|y l]; cbn [trail] in A4.
  { exfalso. unfold cache_find_by_name in Hr. repeat (case_match; simplify_eq). unfold name_matches in *. unfold name_test, eflags in *. congruence. }
  destruct A4 as ([= ->] & _ & A4). destruct (Hback y) as [_ ->]; [by constructor|]. destruct (negb _); [done|].
  pose proof (chains_length (y :: l) s A1 (λ x Hx, proj1 (Hback x Hx))) as Hlen. cbn [length] in Hlen.
  apply (lease_name_ends host a l); [done|lia|]. intros x Hx. apply Hback. by constructor.
Qed.
Lemma lease_added host a due st :
  good st → string_ host → (spare_crec st).1 ≠ None →
  (∀ x, in_tbl (hash_table (hcache st)) x → name_test host lease_prot (entry (hcache st) x) = true → has (eflags (hcache st) x) F_HOSTS = false) →
  let s' := hcache (cache_add_dhcp_entry mix_tab cnames host a due st) in
  ∃ x, in_tbl (hash_table s') x ∧ lease_crec host a due (entry s' x).
Proof.
  intros Hg Hn Hmem Hno. pose proof Hg as [G1 G2 _ _]. unfold cache_add_dhcp_entry. set (fuel := (2 + _ + _)%nat).
  pose proof (lease_name_run fuel None host a false st Hg Hn) as H1.
  pose proof (lease_name_open host a (hcache st) fuel G1 G2 Hn ltac:(unfold fuel; lia) Hno) as Hr.
  destruct (lease_name _ _ _ _ _ _ _) as [r s1]. cbn [fst snd] in *. subst r.
  destruct (hash_lease_run host a due (set_hcache s1 st) (al_good _ _ H1) Hn) as [_ Hx]. apply Hx. by rewrite spare_crec_same.
Qed.
Lemma lease_finds host a due now st :
  good st → string_ host → (spare_crec st).1 ≠ None → due = 0 ∨ now < due →
  (∀ x, in_tbl (hash_table (hcache st)) x → name_test host lease_prot (entry (hcache st) x) = true → has (eflags (hcache st) x) F_HOSTS = false) →
  finds (hcache (cache_add_dhcp_entry mix_tab cnames host a due st)) host now F_IPV4 (lease_crec host a due).
Proof.
  intros Hg Hn Hmem Hdue Hno. destruct (lease_added host a due st Hg Hn Hmem Hno) as (x & Hin & Hc).
  pose proof (al_good _ _ (cache_add_dhcp_entry_run host a due st Hg Hn)) as [G1 G2 _ _].
  set (s' := hcache (cache_add_dhcp_entry _ _ _ _ _ _)) in *. pose proof Hc as (C1 & _ & C3 & _ & C5 & C6 & C7 & C8).
  apply (current_finds _ _ _ _ x); [done|done|done|done| | |done].
  - split; [|done]. unfold is_expired. destruct (has (flags (entry s' x)) F_IMMORTAL) eqn:Hi; [done|]. rewrite C3.
    apply negb_false_iff, Z.ltb_lt. destruct Hdue as [Hd|?]; [|lia]. specialize (C8 Hd). congruence.
  - unfold name_test, cache_get_name. rewrite C1, C5, C6. by apply hostname_refl.
Qed.
Lemma cache_reload_found lines addn size st :
  Forall good_line lines → good (set_hcache (cache_flush (hcache st)) st) →
  let st' := cache_reload_ (Some (Some (print_hosts lines))) addn size st in
  Forall is_Some (mallocs st) → mallocs st' ≠ [] → Forall (line_found (hcache st')) lines.
Proof.
  intros Hl Hg. unfold cache_reload. set (st1 := set_hcache (cache_flush (hcache st)) st) in *.
  pose proof (read_hostsfile_run (Some (print_hosts lines)) 0 size st1 Hg) as H1.
  pose proof (read_hostsfile_found lines 0 size st1 Hl Hg) as Hf.
  destruct (read_hostsfile _ _ _ _ _ _ _ _ _ _ _ _ st1) as [total st2]. cbn [snd] in *.
  pose proof (reload_more_run addn total st2 (al_good _ _ H1)) as H2. intros Hs Hne.
  eapply Forall_impl; [apply Hf; [done|by apply (al_memory _ _ H2)]|]. intros l. by apply line_found_along.
Qed.
(** a lookup of a name of a file that was read, later *)
Lemma file_name_finds lines addn size now st st2 t names m fl len a suffix canon :
  Forall good_line lines → good (set_hcache (cache_flush (hcache st)) st) → Forall is_Some (mallocs st) →
  let st1 := cache_reload_ (Some (Some (print_hosts lines))) addn size st in
  mallocs st1 ≠ [] → rtc serve_step st1 st2 →
  (t, names) ∈ lines → m ∈ names → host_addr_ t = Some (fl, len, a, suffix) → (canonicalise (canon_room m) m).1.1 = Some canon →
  finds (hcache st2) canon now (Z.land fl (Z.lor F_IPV4 F_IPV6)) (λ c, has (flags c) F_HOSTS = true ∧ same_addr len (addr c) a = true).
Proof.
  intros Hl Hg Hs st1 Hne Hrun Hin Hm Ha Hc. pose proof (cache_reload_found lines addn size st Hl Hg Hs Hne) as Hf.
  pose proof (cache_reload_run (Some (Some (print_hosts lines))) addn size st Hg) as H1. fold st1 in H1, Hf.
  rewrite Forall_forall in Hf. specialize (Hf _ Hin fl len a suffix Ha). rewrite Forall_forall in Hf. specialize (Hf m Hm canon Hc).
  apply (hosted_finds st1); [apply H1|by apply serve_steps_served; [|apply H1]| |done].
  eapply canon_string; [|exact Hc]. rewrite Forall_forall in Hl. destruct (Hl _ Hin) as (_ & _ & Hw). rewrite Forall_forall in Hw.
  by apply word_string, (Hw m Hm).
Qed.
(** the texts of the configuration are strings *)
Definition config_strings : Prop :=
  Forall (λ p : text * text, string_ p.1) cnames ∧ string_ (default [] domain_suffix) ∧ Forall (λ '(_, _, d), string_ d) cond_domain.
End Hosts.

Lemma init_good mix_tab n st : hcache st = cache_init mix_tab n → fresh st → good mix_tab st.
Proof.
  intros Hc Hf. destruct (cache_init_inv mix_tab n) as [Hi Hs]. split; rewrite ?Hc; [done|done|done|].
  intros x Hx Hh. exfalso. rewrite <- Hc in *. revert Hx Hh. rewrite Hc. unfold cache_init. set (e := mk_cache _ _ _ _ _ _ _ _ _ _).
  destruct (init_fold (seq 0 n) e) as (_ & _ & Ht & Hx). set (s := foldl _ e _) in *.
  assert (Htab : tabled s) by (split; rewrite Ht; [constructor|intros x' (j & ch & Hj & _); done]).
  destruct (rehash_table mix_tab s (Z.of_nat n) true Htab) as [->|(_ & Hm & Hs')].
  - rewrite Ht. intros (j & ch & Hj & _). done.
  - rewrite Hm, Ht. intros (j & ch & Hj & _). done.
Qed.
Lemma hosts_steps_reachable mix_tab inet_pton4 inet_pton6 canon_room rehash_room cnames cond_domain domain_suffix opt_expand n st st' :
  config_strings cnames cond_domain domain_suffix → hcache st = cache_init mix_tab n → fresh st →
  rtc (hosts_step mix_tab inet_pton4 inet_pton6 canon_room rehash_room cnames cond_domain domain_suffix opt_expand) st st' →
  good mix_tab st' ∧ reachable mix_tab n (hcache st').
Proof.
  intros (H1 & H2 & H3) Hc Hf Hrun. unfold reachable. rewrite <- Hc. eapply hosts_steps_good; [done..|]. by eapply init_good.
Qed.
(** memory that is not in use, decided *)
Lemma fresh_decided st :
  bool_decide (NoDup (pool st)) && forallb (λ x, bool_decide (x ∉ lru (hcache st) ++ new_chain (hcache st)) && bool_decide (x ∉ concat (hash_table (hcache st)))) (pool st) = true →
  fresh st.
Proof.
  intros [Hnd%bool_decide_eq_true Hl]%andb_true_iff. split; [done|]. intros x Hx. rewrite forallb_forall in Hl.
  apply list_elem_of_In, Hl, andb_true_iff in Hx as [H1%bool_decide_eq_true H2%bool_decide_eq_true]. split; [done|]. by rewrite <- in_tbl_concat.
Qed.

(** ** The theorems *)

(** C1. From cache_init on, whatever happens to the cache in any order (replies
    cached in transactions, lookups, reloads of the hosts files with the entries they
    free, leases added and all taken out, and the allocator answering with memory that
    is not in use, or with none), its invariant holds, all names are strings, the
    spare entries and the memory to come are apart from each other and in no list and
    on no chain, and no entry of a hosts file on a chain can expire.  So no entry is
    put on a chain twice and no entry in use is given out again. *)
Theorem hosts_and_leases_invariant mix_tab inet_pton4 inet_pton6 canon_room rehash_room cnames cond_domain domain_suffix opt_expand
    (cachesize : nat) (st st' : hosts_state) :
  config_strings cnames cond_domain domain_suffix → hcache st = cache_init mix_tab cachesize → fresh st →
  rtc (hosts_step mix_tab inet_pton4 inet_pton6 canon_room rehash_room cnames cond_domain domain_suffix opt_expand) st st' →
  reachable mix_tab cachesize (hcache st') ∧ cinv mix_tab (hcache st') ∧ strings (hcache st') ∧ fresh st' ∧ typed (hcache st').
Proof.
  intros Hs Hc Hf Hrun. by destruct (hosts_steps_reachable _ _ _ _ _ _ _ _ _ _ _ _ Hs Hc Hf Hrun) as [[G1 G2 G3 G4] Hr].
Qed.
Definition example_addr (t : text) : option (list Z) := if bool_decide (t = [49; 46; 50]) then Some [10; 0; 0; 1] else None.
Definition example_line : text * list text := ([49; 46; 50], [[119; 119; 119]; [97; 46; 98]]).
Definition example_start : hosts_state := mk_hosts (cache_init [] 3) [] [Some 10; Some 11; Some 12]%nat.
Abbreviation example_reload :=
  (cache_reload [] example_addr (λ _, None) (λ _, true) true [] [] None false (Some (Some (print_hosts [example_line]))) [] 3 example_start).
Definition example_lease : hosts_state := cache_add_dhcp_entry [] [] [104] [10; 0; 0; 2] 0 example_reload.
Abbreviation example_step := (hosts_step [] example_addr (λ _, None) (λ _, true) true [] [] None false).
Lemma example_strings : config_strings [] [] None.
Proof. split_and!; constructor. Qed.
Lemma example_fresh : fresh example_start.
Proof. apply fresh_decided. by vm_compute. Qed.
Lemma example_flushed : fresh (set_hcache (cache_flush (hcache example_start)) example_start).
Proof. apply fresh_decided. by vm_compute. Qed.
Lemma example_reload_step : example_step example_start example_reload.
Proof. apply HReload, example_flushed. Qed.
Lemma example_lease_step : serve_step [] [] example_reload example_lease.
Proof. unfold example_lease. apply HLease. by constructor. Qed.
Lemma example_run : rtc example_step example_start example_lease.
Proof.
  apply (rtc_l _ _ example_reload); [apply example_reload_step|]. apply rtc_once, HServe, example_lease_step.
Qed.
Lemma hosts_and_leases_invariant_witness :
  reachable [] 3 (hcache example_lease) ∧ cinv [] (hcache example_lease) ∧ strings (hcache example_lease) ∧ fresh example_lease ∧ typed (hcache example_lease).
Proof.
  apply (hosts_and_leases_invariant [] example_addr (λ _, None) (λ _, true) true [] [] None false 3 example_start example_lease);
    [apply example_strings|reflexivity|apply example_fresh|apply example_run].
Defined.

(** C9. Reading a hosts file is the inverse of printing one: after a reload of a file
    of lines with an address and names, each name that is legal is found, at any time
    and in any case of its letters, with the address of its line among the answers and
    as an entry of a hosts file; and this still holds after any replies, lookups and
    leases up to the next reload, so no reply from the network replaces it.  Lines
    whose address cannot be parsed do no harm to the others.  Memory has not run out
    during the reload. *)
Theorem hosts_file_roundtrip mix_tab inet_pton4 inet_pton6 canon_room rehash_room cnames cond_domain domain_suffix opt_expand
    (cachesize : nat) (st0 st st2 : hosts_state) (lines : list (text * list text)) (addn : list (Z * option (list Z))) (size now : Z)
    (t : text) (names : list text) (m : text) (fl : Z) (len : nat) (a : list Z) (suffix : option text) (canon : text) :
  config_strings cnames cond_domain domain_suffix → hcache st0 = cache_init mix_tab cachesize → fresh st0 →
  rtc (hosts_step mix_tab inet_pton4 inet_pton6 canon_room rehash_room cnames cond_domain domain_suffix opt_expand) st0 st →
  fresh (set_hcache (cache_flush (hcache st)) st) → Forall is_Some (mallocs st) → Forall good_line lines →
  let st1 := cache_reload mix_tab inet_pton4 inet_pton6 canon_room rehash_room cnames cond_domain domain_suffix opt_expand
               (Some (Some (print_hosts lines))) addn size st in
  mallocs st1 ≠ [] → rtc (serve_step mix_tab cnames) st1 st2 →
  (t, names) ∈ lines → m ∈ names → host_addr inet_pton4 inet_pton6 cond_domain domain_suffix t = Some (fl, len, a, suffix) →
  (canonicalise (canon_room m) m).1.1 = Some canon →
  finds mix_tab (hcache st2) canon now (Z.land fl (Z.lor F_IPV4 F_IPV6)) (λ c, has (flags c) F_HOSTS = true ∧ same_addr len (addr c) a = true).
Proof.
  intros (H1 & H2 & H3) Hc Hf Hrun Hf' Hs Hl st1 Hne Hserve Hin Hm Ha Hcan.
  destruct (hosts_steps_reachable _ _ _ _ _ _ _ _ _ _ _ _ (conj H1 (conj H2 H3)) Hc Hf Hrun) as [[G1 G2 _ _] _].
  by eapply (file_name_finds _ _ _ _ _ _ _ _ _ H1 H2 H3 lines addn size now st st2 t names m); [|apply cache_flush_good|..].
Qed.
Lemma hosts_file_roundtrip_witness :
  finds [] (hcache example_lease) [119; 119; 119] 500 F_IPV4 (λ c, has (flags c) F_HOSTS = true ∧ same_addr 4 (addr c) [10; 0; 0; 1] = true).
Proof.
  apply (hosts_file_roundtrip [] example_addr (λ _, None) (λ _, true) true [] [] None false 3 example_start example_start example_lease
    [example_line] [] 3 500 [49; 46; 50] [[119; 119; 119]; [97; 46; 98]] [119; 119; 119] (line_flags F_IPV4) 4 [10; 0; 0; 1] None [119; 119; 119]);
    [apply example_strings|reflexivity|apply example_fresh|apply rtc_refl|apply example_flushed| | |by vm_compute| | | |reflexivity|reflexivity].
  - repeat constructor; by eexists.
  - repeat constructor; done.
  - exact (rtc_once _ _ example_lease_step).
  - by constructor.
  - by constructor.
Defined.

Lemma immune_or f : has f F_HOSTS = true ∨ has f F_DHCP = true → immune f = true.
Proof.
  intros Hf. unfold immune. apply has_true. rewrite Z.land_lor_distr_r. intros [H1 H2]%Z.lor_eq_0_iff.
  by destruct Hf as [Hf|Hf]; apply has_true in Hf.
Qed.
(** when the code sees a clash, in terms of the types *)
Lemma clash_kinds name fl c :
  has (flags c) F_FORWARD = true → hostname_isequal (cache_get_name c) name = true →
  has (flags c) F_CNAME = true ∨ has fl F_CNAME = true ∨
    has fl F_IPV4 = true ∧ has (flags c) F_IPV4 = true ∨ has fl F_IPV6 = true ∧ has (flags c) F_IPV6 = true →
  clash name (clear fl F_CONFIG) c = true.
Proof.
  intros HF Heq Hk. unfold clash. rewrite HF, Heq, andb_true_r. cbn [andb]. apply orb_true_iff.
  rewrite <- (has_clear_ne fl F_CNAME F_CONFIG), <- (has_clear_ne fl F_IPV4 F_CONFIG), <- (has_clear_ne fl F_IPV6 F_CONFIG) in Hk by done.
  set (g := clear fl F_CONFIG) in *. clearbody g.
  assert (Hbit : ∀ k, 0 ≤ k → Z.testbit (Z.lor F_IPV4 F_IPV6) k = true → has g (2 ^ k) = true → has (flags c) (2 ^ k) = true →
    negb (Z.land (Z.land g (flags c)) (Z.lor F_IPV4 F_IPV6) =? 0) = true).
  { intros k Hk0 Hm Hg Hf. rewrite has_bit in Hg, Hf by done. apply negb_true_iff, Z.eqb_neq. intros H0.
    pose proof (f_equal (λ z, Z.testbit z k) H0) as Hx. cbv beta in Hx. by rewrite !Z.land_spec, Hg, Hf, Hm, Z.bits_0 in Hx. }
  destruct Hk as [Hk|[Hk|[[H1 H2]|[H1 H2]]]].
  - right. apply has_true. rewrite Z.land_lor_distr_l. intros [? _]%Z.lor_eq_0_iff. by apply has_true in Hk.
  - right. apply has_true. rewrite Z.land_lor_distr_l. intros [_ ?]%Z.lor_eq_0_iff. by apply has_true in Hk.
  - left. by apply (Hbit 7).
  - left. by apply (Hbit 8).
Qed.

(** C25. A reply does not override the hosts files and leases: inserting a name for
    which a chain has an entry of a hosts file or a lease that has not expired, for
    the same kind of address, or of any kind when the entry is an alias (not out of
    date, of an entry of a hosts file or a lease) or a CNAME is to be inserted, fails;
    the transaction is then in error, so that its end commits nothing, and the entry
    stays as it was. *)
Theorem hosts_not_overridden (mix_tab : list Z) (cachesize : nat) (s : cache) (room : bool) (name : text) (a : option (list Z))
    (now ttl fl : Z) (x : nat) :
  reachable mix_tab cachesize s → string_ name → has fl F_FORWARD = true → insert_error s = false →
  in_tbl (hash_table s) x → has (eflags s x) F_HOSTS = true ∨ has (eflags s x) F_DHCP = true →
  is_expired now (entry s x) = false →
  (has (eflags s x) F_CNAME = true → ∃ c u, addr (entry s x) = Cname (Some c) u ∧ uid (entry s c) = u ∧ immune (eflags s c) = true) →
  has (eflags s x) F_FORWARD = true → hostname_isequal (cache_get_name (entry s x)) name = true →
  has (eflags s x) F_CNAME = true ∨ has fl F_CNAME = true ∨
    has fl F_IPV4 = true ∧ has (eflags s x) F_IPV4 = true ∨ has fl F_IPV6 = true ∧ has (eflags s x) F_IPV6 = true →
  let '(r, s') := cache_insert mix_tab room (Some name) a now ttl fl s in
  r = None ∧ insert_error s' = true ∧ cache_end_insert mix_tab s' = s' ∧ new_chain s' = new_chain s ∧
  in_tbl (hash_table s') x ∧ entry s' x = entry s x.
Proof.
  intros Hr Hn HF He Hin Hkind Hexp Hcn HxF Heq Htype. destruct (reachable_inv mix_tab cachesize s Hr) as [Hi Hs].
  assert (Himm : immune (eflags s x) = true) by (by apply immune_or).
  assert (Hcl : clash name (clear fl F_CONFIG) (entry s x) = true) by (by apply clash_kinds).
  assert (Hcur : lasts now s x) by done. unfold cache_insert. rewrite He. cbn [default].
  pose proof (cache_scan_free_refuses mix_tab name (default [] a) now (clear fl F_CONFIG) x s Hi Hs Hn) as Hno.
  pose proof (cache_scan_free_keeps mix_tab name (default [] a) now (clear fl F_CONFIG) x s Hi Hcur Himm) as [Hk1 Hk2].
  destruct (cache_scan_free_inv mix_tab name (default [] a) now (clear fl F_CONFIG) s Hi) as [_ Hw]. cbv [id] in *.
  destruct (cache_scan_free _ _ _ _ _ s) as [ok s1]. cbn [fst snd] in *. rewrite Hno; [|by rewrite has_clear_ne|done..]. cbn [negb].
  split_and!; [done|done|done|by apply (wf_new _ _ Hw)|by apply Hk2|done].
Qed.
Lemma hosts_not_overridden_witness :
  let '(r, s') := cache_insert [] true (Some [119; 119; 119]) (Some [6; 6; 6; 6]) 100 60 (Z.lor F_FORWARD F_IPV4) (hcache example_reload) in
  r = None ∧ insert_error s' = true ∧ cache_end_insert [] s' = s' ∧ new_chain s' = new_chain (hcache example_reload) ∧
  in_tbl (hash_table s') 10 ∧ entry s' 10 = entry (hcache example_reload) 10.
Proof.
  apply (hosts_not_overridden [] 3 (hcache example_reload) true [119; 119; 119] (Some [6; 6; 6; 6]) 100 60 (Z.lor F_FORWARD F_IPV4) 10);
    [|by (repeat constructor)|reflexivity|by vm_compute| |left; by vm_compute|by vm_compute|by vm_compute|by vm_compute|by vm_compute|right; right; left; by vm_compute].
  - apply (hosts_steps_reachable [] example_addr (λ _, None) (λ _, true) true [] [] None false 3 example_start);
      [apply example_strings|reflexivity|apply example_fresh|apply rtc_once, example_reload_step].
  - apply in_tbl_concat. apply (bool_decide_unpack _). by vm_compute.
Defined.

(** A lease is found by its name: after cache_add_dhcp_entry, as long as the lease
    lasts, or for ever when it has no end, a lookup of the name has among its answers
    an entry of a lease with the address, provided no hosts file has the name, with an
    address or as an alias, and there is a spare entry or memory for one.  In
    particular the loop over the answers ends, and what the cache had from replies for
    the name does not keep the lease out. *)
Theorem lease_found mix_tab inet_pton4 inet_pton6 canon_room rehash_room cnames cond_domain domain_suffix opt_expand
    (cachesize : nat) (st0 st : hosts_state) (host : text) (a : list Z) (due now : Z) :
  config_strings cnames cond_domain domain_suffix → hcache st0 = cache_init mix_tab cachesize → fresh st0 →
  rtc (hosts_step mix_tab inet_pton4 inet_pton6 canon_room rehash_room cnames cond_domain domain_suffix opt_expand) st0 st →
  string_ host → (spare_crec st).1 ≠ None → due = 0 ∨ now < due →
  (∀ x, in_tbl (hash_table (hcache st)) x → name_matches host (Z.lor F_IPV4 F_CNAME) (hcache st) x = true → has (eflags (hcache st) x) F_HOSTS = false) →
  finds mix_tab (hcache (cache_add_dhcp_entry mix_tab cnames host a due st)) host now F_IPV4 (lease_crec host a due).
Proof.
  intros (H1 & H2 & H3) Hc Hf Hrun Hn Hmem Hdue Hno.
  destruct (hosts_steps_reachable _ _ _ _ _ _ _ _ _ _ _ _ (conj H1 (conj H2 H3)) Hc Hf Hrun) as [Hg _]. by apply lease_finds.
Qed.
Lemma lease_found_witness :
  finds [] (hcache (cache_add_dhcp_entry [] [] [104] [10; 0; 0; 2] 900 example_start)) [104] 500 F_IPV4 (lease_crec [104] [10; 0; 0; 2] 900).
Proof.
  apply (lease_found [] example_addr (λ _, None) (λ _, true) true [] [] None false 3 example_start example_start [104] [10; 0; 0; 2] 900 500);
    [apply example_strings|reflexivity|apply example_fresh|apply rtc_refl|by constructor|by vm_compute|by right|].
  intros x Hx%in_tbl_concat. assert (Hnil : concat (hash_table (hcache example_start)) = []) by (by vm_compute).
  rewrite Hnil in Hx. by apply not_elem_of_nil in Hx.
Defined.
End DnsHostsSpec.
