(* ===== verification/DnsAnswer.v ===== *)
(** * Answers from the cache (src/external/dnsmasq/src/rfc1035.c)

    answer_request: the reply to a query from the local configuration and the cache, or
    none.  The lists and options of the daemon are the record [config]; [get_ifaddr] is
    the address of an interface (the four bytes, 255 each when there is none),
    [inet_addr] that function (none for -1), [alias_word] what the first four bytes of
    the address of an entry hold when it is a CNAME, a part of a pointer.  Queries are
    only logged by log_query, which has no definition. *)
From stdpp Require Import gmap sorting.
From S2P Require Import Prelude Runtime DriverRt DnsUtil DnsName DnsMsg DnsCache DnsCacheInv DnsCacheSpec DnsReply.
Import DnsUtil DnsName DnsMsg DnsCache DnsCacheInv DnsCacheSpec DnsReply.

Module DnsAnswer.
Definition T_MX : Z := 15.
Definition T_TXT : Z := 16.
Definition T_SRV : Z := 33.
Definition T_NAPTR : Z := 35.
Definition T_MAILB : Z := 253.

Record txt_record := mk_txt { txt_name : text; txt_class : Z; txt_data : list Z }.
Record ptr_record := mk_ptr { ptr_name : text; ptr_ptr : text }.
Record interface_name := mk_intr { in_name : text; in_intr : text }.
Record mx_srv_record := mk_mx { mx_name : text; mx_target : option text; issrv : bool; srvport : Z; priority : Z; weight : Z }.
Record naptr := mk_naptr { na_name : text; na_replace : option text; na_regexp : option text; na_services : option text;
  na_flags : option text; na_order : Z; na_pref : Z }.
Record config := mk_config {
  txts : list txt_record; ptrs : list ptr_record; int_names : list interface_name; mxnames : list mx_srv_record;
  naptrs : list naptr; mxtarget : option text; local_ttl : Z; edns_pktsz : Z;
  opt_boguspriv : bool; opt_localise : bool; opt_selfmx : bool; opt_localmx : bool; opt_filter : bool
}.

Section Answer.
Context (mix_tab : list Z) (cfg : config) (get_ifaddr : text → list Z) (inet_addr : text → option (list Z))
  (alias_word : option nat → Z).
Context (limit qlen : nat) (local_addr local_netmask now : Z).

(** The locals of answer_request that live through its loops, with the packet, the name
    buffer, the cache and the offsets of the MX and SRV records. *)
Record ans_state := mk_ans {
  apacket : list Z; abuf : list Z; acache : cache; ansp : nat; nameoffset : Z; trunc : bool; anscount : Z;
  auth : bool; nxdomain : bool; aaddr : list Z; offsets : list nat
}.
Definition set_abuf b st := mk_ans (apacket st) b (acache st) (ansp st) (nameoffset st) (trunc st) (anscount st)
  (auth st) (nxdomain st) (aaddr st) (offsets st).
Definition set_acache s st := mk_ans (apacket st) (abuf st) s (ansp st) (nameoffset st) (trunc st) (anscount st)
  (auth st) (nxdomain st) (aaddr st) (offsets st).
Definition set_nameoffset o st := mk_ans (apacket st) (abuf st) (acache st) (ansp st) o (trunc st) (anscount st)
  (auth st) (nxdomain st) (aaddr st) (offsets st).
Definition set_auth b st := mk_ans (apacket st) (abuf st) (acache st) (ansp st) (nameoffset st) (trunc st) (anscount st)
  b (nxdomain st) (aaddr st) (offsets st).
Definition set_nxdomain b st := mk_ans (apacket st) (abuf st) (acache st) (ansp st) (nameoffset st) (trunc st) (anscount st)
  (auth st) b (aaddr st) (offsets st).
Definition set_aaddr a st := mk_ans (apacket st) (abuf st) (acache st) (ansp st) (nameoffset st) (trunc st) (anscount st)
  (auth st) (nxdomain st) a (offsets st).
Definition set_offset i o st := mk_ans (apacket st) (abuf st) (acache st) (ansp st) (nameoffset st) (trunc st) (anscount st)
  (auth st) (nxdomain st) (aaddr st) (<[i := o]> (offsets st)).

(** if (add_resource_record(header, limit, &trunc, nameoffset, &ansp, ttl, offset, ...))
    anscount++, with *offset *)
Definition answer (ttl : Z) (offset : option nat) (type class : Z) (args : list rr_arg) (st : ans_state)
  : outcome (bool * option nat * ans_state) :=
  r ← add_resource_record (apacket st) (Some limit) (Some (trunc st)) (nameoffset st) (ansp st) ttl offset type class args;
  let '(ok, m, p, tr, offset) := r in
  Val (ok, offset, mk_ans m (abuf st) (acache st) p (nameoffset st) (default false tr)
                     (if (ok : bool) then anscount st + 1 else anscount st) (auth st) (nxdomain st) (aaddr st) (offsets st)).
(** if (!dryrun) with a record that has no offset *)
Definition answer_unless (dryrun : bool) (ttl type class : Z) (args : list rr_arg) (st : ans_state) : outcome ans_state :=
  if dryrun then Val st else r ← answer ttl None type class args st; Val r.2.

(** ** Local records *)
Fixpoint txt_answers (dryrun : bool) (qclass : Z) (name : text) (l : list txt_record) (ans : bool) (st : ans_state)
  : outcome (bool * ans_state) :=
  match l with
  | [] => Val (ans, st)
  | t :: l' =>
      if (txt_class t =? qclass) && hostname_isequal name (txt_name t) then
        st ← answer_unless dryrun (local_ttl cfg) T_TXT (txt_class t) [ArgT (txt_data t)] st;
        txt_answers dryrun qclass name l' true st
      else txt_answers dryrun qclass name l' ans st
  end.
(** The interface with the address; those of one interface that follow each other are
    asked for once. *)
Fixpoint find_intr (a : list Z) (last : option text) (l : list interface_name) : option interface_name :=
  match l with
  | [] => None
  | i :: l' =>
      if bool_decide (last = Some (in_intr i)) then find_intr a last l'
      else if bool_decide (take 4 a = take 4 (get_ifaddr (in_intr i))) then Some i
      else find_intr a (Some (in_intr i)) l'
  end.
Fixpoint ptr_locals (name : text) (l : list ptr_record) (st : ans_state) : outcome ans_state :=
  match l with
  | [] => Val st
  | p :: l' =>
      if hostname_isequal name (ptr_name p) then
        r ← answer (local_ttl cfg) None T_PTR C_IN [ArgD (Some (ptr_ptr p))] st;
        ptr_locals name l' r.2
      else ptr_locals name l' st
  end.

(** *** Entries for an address *)
Definition host_or_lease (fl : Z) : bool := immune fl.
Definition addr_entry (dryrun sec_reqd : bool) (qtype : Z) (c : crec) (ans : bool) (st : ans_state) : outcome (bool * ans_state) :=
  let fl := flags c in
  if (qtype =? T_ANY) && negb (host_or_lease fl) then Val (ans, st) else
  if has fl F_NEG then
    let st := set_auth false st in
    Val (true, if has fl F_NXDOMAIN then set_nxdomain true st else st)
  else if host_or_lease fl || negb sec_reqd then
    let st := if host_or_lease fl then st else set_auth false st in
    st ← answer_unless dryrun (crec_ttl now (local_ttl cfg) c) T_PTR C_IN [ArgD (Some (cache_get_name c))] st;
    Val (true, st)
  else Val (ans, st).
(** The loop over the entries: [fuel] is one for each. *)
Fixpoint addr_entries (fuel : nat) (dryrun sec_reqd : bool) (qtype is_arpa : Z) (crecp : nat) (ans : bool) (st : ans_state)
  : outcome (bool * ans_state) :=
  match fuel with
  | O => UB
  | S fuel' =>
      r ← addr_entry dryrun sec_reqd qtype (entry (acache st) crecp) ans st;
      let '(ans, st) := r in
      match (cache_find_by_addr (aaddr st) now is_arpa (Some crecp) (acache st)).1 with
      | Some id => addr_entries fuel' dryrun sec_reqd qtype is_arpa id ans st
      | None => Val (ans, st)
      end
  end.
Definition entries_fuel (s : cache) : nat := S (length (concat (hash_table s))).
Definition answer_ptr (dryrun sec_reqd : bool) (qtype : Z) (name : text) (ans : bool) (st : ans_state) : outcome (bool * ans_state) :=
  let '(is_arpa, a) := in_arpa_name_2_addr name (aaddr st) in
  let st := set_aaddr a st in
  match (if is_arpa =? F_IPV4 then find_intr a None (int_names cfg) else None) with
  | Some intr => st ← answer_unless dryrun (local_ttl cfg) T_PTR C_IN [ArgD (Some (in_name intr))] st; Val (true, st)
  | None =>
      if existsb (λ p, hostname_isequal name (ptr_name p)) (ptrs cfg) then
        st ← (if dryrun then Val st else ptr_locals name (ptrs cfg) st); Val (true, st)
      else
        let '(crecp, s) := cache_find_by_addr a now is_arpa None (acache st) in
        let st := set_acache s st in
        match crecp with
        | Some id => addr_entries (entries_fuel s) dryrun sec_reqd qtype is_arpa id ans st
        | None =>
            if (is_arpa =? F_IPV4) && opt_boguspriv cfg && private_net (le_load (take 4 a)) then Val (true, set_nxdomain true st)
            else Val (ans, st)
        end
  end.

(** ** Entries for a name *)
Definition in_addr_of (a : cname_addr) : Z := match a with Addr b => le_load (take 4 b) | Cname c _ => alias_word c end.
Definition on_net (c : crec) : bool := is_same_net (in_addr_of (addr c)) local_addr local_netmask.
(** the loop that sets localise *)
Fixpoint find_local (fuel : nat) (name : text) (prot : Z) (crecp : nat) (s : cache) : bool :=
  match fuel with
  | O => false
  | S fuel' =>
      if has (eflags s crecp) F_HOSTS && on_net (entry s crecp) then true
      else match (cache_find_by_name mix_tab name now prot (Some crecp) s).1 with
           | Some id => find_local fuel' name prot id s
           | None => false
           end
  end.
(** How the loop over the entries goes on after one: with the next entry, it is left, or
    it starts again with the target of a CNAME. *)
Inductive step := Next | Break | Restart.
Definition name_entry (dryrun sec_reqd localise : bool) (qtype type : Z) (crecp : nat) (ans : bool) (st : ans_state)
  : outcome (step * bool * ans_state) :=
  let c := entry (acache st) crecp in
  let fl := flags c in
  if (qtype =? T_ANY) && negb (host_or_lease fl) then Val (Break, ans, st) else
  if has fl F_CNAME then
    match addr c with
    | Cname (Some t) _ =>
        let target := cache_get_name (entry (acache st) t) in
        st ← (if dryrun then Val st else
              r ← answer (crec_ttl now (local_ttl cfg) c) (Some (Z.to_nat (nameoffset st))) T_CNAME C_IN [ArgD (Some target)] st;
              Val (set_nameoffset (Z.of_nat (default 0%nat r.1.2)) r.2));
        b ← put (abuf st) 0 (target ++ [0]);
        Val (Restart, ans, set_abuf b st)
    | _ => UB
    end
  else if has fl F_NEG then
    let st := set_auth false st in
    Val (Next, true, if has fl F_NXDOMAIN then set_nxdomain true st else st)
  else if host_or_lease fl || negb sec_reqd then
    if localise && has fl F_HOSTS && negb (on_net c) then Val (Next, ans, st) else
    let st := if host_or_lease fl then st else set_auth false st in
    st ← answer_unless dryrun (crec_ttl now (local_ttl cfg) c) type C_IN
           [if type =? T_A then Arg4 (addr_bytes (addr c)) else Arg6 (addr_bytes (addr c))] st;
    Val (Next, true, st)
  else Val (Next, ans, st).
Fixpoint name_entries (fuel : nat) (dryrun sec_reqd localise : bool) (qtype type : Z) (name : text) (prot : Z) (crecp : nat)
    (ans : bool) (st : ans_state) : outcome (bool * bool * ans_state) :=
  match fuel with
  | O => UB
  | S fuel' =>
      r ← name_entry dryrun sec_reqd localise qtype type crecp ans st;
      let '(k, ans, st) := r in
      match k with
      | Break => Val (false, ans, st)
      | Restart => Val (true, ans, st)
      | Next => match (cache_find_by_name mix_tab name now prot (Some crecp) (acache st)).1 with
                | Some id => name_entries fuel' dryrun sec_reqd localise qtype type name prot id ans st
                | None => Val (false, ans, st)
                end
      end
  end.
(** cname_restart: [None] when the CNAMEs have led on [hops] times *)
Fixpoint chase (hops : nat) (dryrun sec_reqd : bool) (qtype flag type : Z) (ans : bool) (st : ans_state)
  : outcome (option (bool * ans_state)) :=
  match hops with
  | O => Val None
  | S hops' =>
      name ← str_at (abuf st) 0;
      let prot := Z.lor flag F_CNAME in
      let '(crecp, s) := cache_find_by_name mix_tab name now prot None (acache st) in
      let st := set_acache s st in
      match crecp with
      | None => Val (Some (ans, st))
      | Some id =>
          let localise := negb (local_addr =? 0) && opt_localise cfg && (flag =? F_IPV4) && find_local (entries_fuel s) name prot id s in
          r ← name_entries (entries_fuel s) dryrun sec_reqd localise qtype type name prot id ans st;
          let '(again, ans, st) := r in
          if (again : bool) then chase hops' dryrun sec_reqd qtype flag type ans st else Val (Some (ans, st))
      end
  end.
(** The body of the loop over the two flags. *)
Definition answer_addr (hops : nat) (dryrun sec_reqd : bool) (qtype flag : Z) (ans : bool) (st : ans_state)
  : outcome (option (bool * ans_state)) :=
  let type := if flag =? F_IPV6 then T_AAAA else T_A in
  if negb (qtype =? type) && negb (qtype =? T_ANY) then Val (Some (ans, st)) else
  name ← str_at (abuf st) 0;
  let number := if qtype =? T_A then inet_addr name else None in
  (* the assignment in the condition, also of -1 *)
  let st := if qtype =? T_A then set_aaddr (patch 0 (default (repeat 255 4) number) (aaddr st)) st else st in
  match number with
  | Some a => st ← answer_unless dryrun (local_ttl cfg) type C_IN [Arg4 (aaddr st)] st; Val (Some (true, st))
  | None =>
      match (if qtype =? T_A then List.find (λ i, hostname_isequal name (in_name i)) (int_names cfg) else None) with
      | Some intr =>
          if dryrun then Val (Some (true, st)) else
          let a := get_ifaddr (in_intr intr) in
          let st := set_aaddr (patch 0 a (aaddr st)) st in
          if bool_decide (take 4 a = repeat 255 4) then Val (Some (true, st))
          else st ← answer_unless false (local_ttl cfg) type C_IN [Arg4 (aaddr st)] st; Val (Some (true, st))
      | None => chase hops dryrun sec_reqd qtype flag type ans st
      end
  end.

(** ** MX, SRV and NAPTR records *)
Definition mx_args (r : mx_srv_record) : list rr_arg :=
  if issrv r then [ArgS (priority r); ArgS (weight r); ArgS (srvport r); ArgD (mx_target r)] else [ArgS (weight r); ArgD (mx_target r)].
(** The loop over the records from the [i]th on, those for MX or those for SRV; the
    result has found beside ans. *)
Fixpoint mx_answers (dryrun srv : bool) (name : text) (l : list mx_srv_record) (i : nat) (found ans : bool) (st : ans_state)
  : outcome (bool * bool * ans_state) :=
  match l with
  | [] => Val (found, ans, st)
  | r :: l' =>
      if Bool.eqb (issrv r) srv && hostname_isequal name (mx_name r) then
        st ← (if dryrun then Val st else
              a ← answer (local_ttl cfg) (Some 0%nat) (if srv then T_SRV else T_MX) C_IN (mx_args r) st;
              let '(ok, offset, st) := a in
              Val (if ok && match mx_target r with Some _ => true | None => false end then set_offset i (default 0%nat offset) st else st));
        mx_answers dryrun srv name l' (S i) true true st
      else mx_answers dryrun srv name l' (S i) found ans st
  end.
Definition answer_mx (dryrun : bool) (name : text) (ans : bool) (st : ans_state) : outcome (bool * ans_state) :=
  r ← mx_answers dryrun false name (mxnames cfg) 0 false ans st;
  let '(found, ans, st) := r in
  if negb found && (opt_selfmx cfg || opt_localmx cfg) then
    let '(crecp, s) := cache_find_by_name mix_tab name now (Z.lor F_HOSTS F_DHCP) None (acache st) in
    let st := set_acache s st in
    match crecp with
    | None => Val (ans, st)
    | Some _ =>
        st ← answer_unless dryrun (local_ttl cfg) T_MX C_IN [ArgS 1; ArgD (if opt_selfmx cfg then Some name else mxtarget cfg)] st;
        Val (true, st)
    end
  else Val (ans, st).
Definition answer_srv (dryrun : bool) (qtype : Z) (name : text) (ans : bool) (st : ans_state) : outcome (bool * ans_state) :=
  r ← mx_answers dryrun true name (mxnames cfg) 0 false ans st;
  let '(found, ans, st) := r in
  if negb found && opt_filter cfg && ((qtype =? T_SRV) || (qtype =? T_ANY) && existsb (Z.eqb (chr "_")) name) then Val (true, st)
  else Val (ans, st).
Fixpoint naptr_answers (dryrun : bool) (name : text) (l : list naptr) (ans : bool) (st : ans_state) : outcome (bool * ans_state) :=
  match l with
  | [] => Val (ans, st)
  | n :: l' =>
      if hostname_isequal name (na_name n) then
        st ← answer_unless dryrun (local_ttl cfg) T_NAPTR C_IN
               [ArgS (na_order n); ArgS (na_pref n); ArgZ (na_flags n); ArgZ (na_services n); ArgZ (na_regexp n); ArgD (na_replace n)] st;
        naptr_answers dryrun name l' true st
      else naptr_answers dryrun name l' ans st
  end.

(** ** A question *)
(** if (c) { ... } *)
Definition when (c : bool) (f : text → bool → ans_state → outcome (bool * ans_state)) (r : bool * ans_state) : outcome (bool * ans_state) :=
  let '(ans, st) := r in
  if c then name ← str_at (abuf st) 0; f name ans st else Val (ans, st).
(** The types of class IN. *)
Definition answer_in (hops : nat) (dryrun sec_reqd : bool) (qtype : Z) (ans : bool) (st : ans_state) : outcome (option (bool * ans_state)) :=
  let asks t := (qtype =? t) || (qtype =? T_ANY) in
  r ← when (asks T_PTR) (answer_ptr dryrun sec_reqd qtype) (ans, st);
  r ← answer_addr hops dryrun sec_reqd qtype F_IPV4 r.1 r.2;
  match r with
  | None => Val None
  | Some r =>
      r ← answer_addr hops dryrun sec_reqd qtype F_IPV6 r.1 r.2;
      match r with
      | None => Val None
      | Some r =>
          r ← when (asks T_MX) (answer_mx dryrun) r;
          r ← when (asks T_SRV) (answer_srv dryrun qtype) r;
          r ← when (asks T_NAPTR) (λ name, naptr_answers dryrun name (naptrs cfg)) r;
          let '(ans, st) := r in
          let '(ans, st) := if qtype =? T_MAILB then (true, set_nxdomain true st) else (ans, st) in
          Val (Some (if (qtype =? T_SOA) && opt_filter cfg then true else ans, st))
      end
  end.
(** How a pass over the questions ends: [Some false]: without an answer to one of them
    or with a bad packet; [None]: CNAMEs that lead on too often. *)
Fixpoint answer_questions (q hops : nat) (dryrun sec_reqd : bool) (p : nat) (st : ans_state) : outcome (option bool * ans_state) :=
  match q with
  | O => Val (Some true, st)
  | S q' =>
      let st := set_nameoffset (Z.of_nat p) st in
      r ← extract_name (apacket st) qlen p (abuf st) true 4;
      let '(r, p, b) := r in
      let st := set_abuf b st in
      if r =? 0 then Val (Some false, st) else
      qtype ← GETSHORT (apacket st) p;
      qclass ← GETSHORT (apacket st) (p + 2);
      r ← when ((qtype =? T_TXT) || (qtype =? T_ANY)) (λ name, txt_answers dryrun qclass name (txts cfg)) (false, st);
      r ← (if qclass =? C_IN then answer_in hops dryrun sec_reqd qtype r.1 r.2 else Val (Some r));
      match r with
      | None => Val (None, st)
      | Some (ans, st) => if negb ans then Val (Some false, st) else answer_questions q' hops dryrun sec_reqd (p + 4) st
      end
  end.
(** rerun: [p] is not moved by the records, which are written behind the questions *)
Definition answer_pass (hops : nat) (dryrun sec_reqd : bool) (st : ans_state) : outcome (option bool * ans_state) :=
  e ← skip_questions (apacket st) qlen;
  match e with
  | None => Val (Some false, st)
  | Some ansp =>
      let st := mk_ans (apacket st) (abuf st) (acache st) ansp (nameoffset st) (trunc st) (anscount st) (auth st) (nxdomain st)
                  (aaddr st) (offsets st) in
      q ← qdcount (apacket st);
      answer_questions (Z.to_nat q) hops dryrun sec_reqd HEADER_SIZE st
  end.

(** ** The additional section *)
(** the offsets of later records with the same target *)
Fixpoint squash (target : option text) (l : list mx_srv_record) (os : list nat) : list nat :=
  match l, os with
  | r :: l', o :: os' =>
      (if negb (o =? 0)%nat && match target, mx_target r with Some a, Some b => hostname_isequal a b | _, _ => false end then 0%nat else o)
      :: squash target l' os'
  | _, _ => os
  end.
Fixpoint more_entries (fuel : nat) (offset : nat) (name : text) (crecp : nat) (m : list Z) (p : nat) (count : Z) (s : cache)
  : outcome (list Z * nat * Z) :=
  match fuel with
  | O => UB
  | S fuel' =>
      let c := entry s crecp in
      let v4 := has (flags c) F_IPV4 in
      r ← (if has (flags c) F_NEG then Val (m, p, count) else
           r ← add_resource_record m (Some limit) None (Z.of_nat offset) p (crec_ttl now (local_ttl cfg) c) None
                 (if v4 then T_A else T_AAAA) C_IN [if v4 then Arg4 (addr_bytes (addr c)) else Arg6 (addr_bytes (addr c))];
           let '(ok, m, p, _, _) := r in Val (m, p, if (ok : bool) then count + 1 else count));
      let '(m, p, count) := r in
      match (cache_find_by_name mix_tab name now (Z.lor F_IPV4 F_IPV6) (Some crecp) s).1 with
      | Some id => more_entries fuel' offset name id m p count s
      | None => Val (m, p, count)
      end
  end.
Fixpoint additional (l : list mx_srv_record) (os : list nat) (m : list Z) (p : nat) (count : Z) (s : cache)
  : outcome (list Z * nat * Z * cache) :=
  match l, os with
  | r :: l', o :: os' =>
      if (o =? 0)%nat then additional l' os' m p count s else
      let os' := squash (mx_target r) l' os' in
      match mx_target r with
      | None => UB
      | Some name =>
          let '(crecp, s) := cache_find_by_name mix_tab name now (Z.lor F_IPV4 F_IPV6) None s in
          a ← match crecp with
              | None => Val (m, p, count)
              | Some id => more_entries (entries_fuel s) o name id m p count s
              end;
          let '(m, p, count) := a in additional l' os' m p count s
      end
  | _, _ => Val (m, p, count, s)
  end.
Definition answer_header (st : ans_state) (m : list Z) (addncount : Z) : outcome (list Z) :=
  m ← set_qr m true;
  m ← set_aa m (auth st);
  m ← set_ra m true;
  m ← set_tc m (trunc st);
  m ← set_rcode m (if (anscount st =? 0) && nxdomain st then NXDOMAIN else NOERROR);
  m ← PUTSHORT m (anscount st) 6;
  m ← PUTSHORT m 0 8;
  PUTSHORT m addncount 10.

(** ** answer_request *)

(** The pseudo header: whether there is one, the do bit, and the packet. *)
Definition edns_request (m : list Z) : outcome (bool * bool * list Z) :=
  r ← find_pseudoheader m qlen true;
  match r with
  | (None, _) => Val (false, false, m)
  | (Some (_, _, pheader), is_sign) =>
      udpsz ← GETSHORT m pheader;
      flags ← GETSHORT m (pheader + 4);
      m ← (if negb is_sign && (edns_pktsz cfg <? udpsz) then PUTSHORT m (edns_pktsz cfg) pheader else Val m);
      Val (true, has flags 0x8000, m)
  end.
(** A pass that ends without an answer. *)
Definition unanswered (r : option bool * ans_state) : outcome (option nat * list Z * list Z * cache) :=
  Val (match r.1 with None => None | Some _ => Some 0%nat end, apacket r.2, abuf r.2, acache r.2).
(** The length of the reply, 0 for none, with the packet, the name buffer and the cache;
    [None] for the length when CNAMEs lead on [hops] times.  [junk]: the uninitialised
    addr. *)
Definition answer_request (hops : nat) (m name junk : list Z) (s : cache) : outcome (option nat * list Z * list Z * cache) :=
  e ← edns_request m;
  let '(dryrun, sec_reqd, m) := e in
  q ← qdcount m;
  op ← opcode m;
  if (q =? 0) || negb (op =? QUERY) then Val (Some 0%nat, m, name, s) else
  let st := mk_ans m name s 0 0 false 0 true false junk ((λ _, 0%nat) <$> mxnames cfg) in
  r ← (if (dryrun : bool) then answer_pass hops true sec_reqd st else Val (Some true, st));
  match r with
  | (Some true, st) =>
      r ← answer_pass hops false sec_reqd st;
      match r with
      | (Some true, st) =>
          a ← additional (mxnames cfg) (offsets st) (apacket st) (ansp st) 0 (acache st);
          let '(m, p, addncount, s) := a in
          m ← answer_header st m addncount;
          Val (Some p, m, abuf st, s)
      | r => unanswered r
      end
  | r => unanswered r
  end.
End Answer.
End DnsAnswer.
