(* ===== verification/DnsAnswerSpec.v ===== *)
(** * What answers promise (src/external/dnsmasq/src/rfc1035.c)

    answer_request on any packet: it stays in its buffers and ends when the CNAMEs of
    the cache do; what the cache knows is what it answers. *)
From stdpp Require Import gmap sorting.
From S2P Require Import Prelude Runtime DriverRt DnsUtil DnsName DnsMsg DnsCache DnsCacheInv DnsCacheSpec DnsReply DnsReplySpec DnsHosts DnsHostsSpec DnsAnswer.
Import DnsUtil DnsName DnsMsg DnsCache DnsCacheInv DnsCacheSpec DnsReply DnsHosts DnsHostsSpec DnsAnswer.

Module DnsAnswerSpec.
Abbreviation string_ t := (Forall (λ c, c ≠ 0) t).

(** ** What a lookup gives *)
(** a CNAME has a target *)
Definition has_target (c : crec) : Prop := has (flags c) F_CNAME = true → ∃ t u, addr c = Cname (Some t) u.
Lemma live_target s x : is_outdated_cname_pointer s x = false → has_target (entry s x).
Proof.
  unfold is_outdated_cname_pointer, has_target. change (flags (entry s x)) with (eflags s x). intros Ho Hc. rewrite Hc in Ho. cbn in Ho.
  destruct (addr (entry s x)) as [b|[t|] u]; [done|by eauto|done].
Qed.
Lemma find_loop_targets name now prot chain : ∀ pre moved post ins hosts s,
  NoDup (pre ++ moved ++ post ++ chain) → (∀ x, x ∈ pre ++ moved ++ post → has_target (entry s x)) →
  let '(kept, _, s') := find_loop name now prot chain pre moved post ins hosts s in ∀ x, x ∈ kept → has_target (entry s' x).
Proof.
  induction chain as [|x chain IH]; intros pre moved post ins hosts s Hnd Ht; cbn [find_loop]; [done|].
  assert (Hperm : pre ++ moved ++ post ++ x :: chain ≡ₚ x :: pre ++ moved ++ post ++ chain).
  { by rewrite !app_assoc, <- Permutation_middle. }
  destruct (negb (is_expired now (entry s x)) && _) eqn:Hlive.
  - apply andb_true_iff in Hlive as [_ Hlive%negb_true_iff%live_target].
    assert (Hgo : ∀ pre' moved' post' ins' hosts' s', (∀ y, entry s' y = entry s y) →
      pre' ++ moved' ++ post' ≡ₚ x :: pre ++ moved ++ post →
      let '(kept, _, s') := find_loop name now prot chain pre' moved' post' ins' hosts' s' in ∀ x, x ∈ kept → has_target (entry s' x)).
    { intros pre' moved' post' ins' hosts' s' He Hp. apply IH.
      - replace (pre' ++ moved' ++ post' ++ chain) with ((pre' ++ moved' ++ post') ++ chain) by (by rewrite <- !app_assoc).
        rewrite Hp. rewrite Hperm in Hnd. cbn. by rewrite <- !app_assoc.
      - intros y. rewrite Hp, He. intros [->|Hy]%elem_of_cons; [done|by apply Ht]. }
    assert (Hmid : pre ++ moved ++ post ++ [x] ≡ₚ x :: pre ++ moved ++ post) by (by rewrite !app_assoc, Permutation_app_comm).
    assert (Hmoved : pre ++ (moved ++ [x]) ++ post ≡ₚ x :: pre ++ moved ++ post).
    { rewrite <- app_assoc. cbn. by rewrite (app_assoc pre moved), <- Permutation_middle, <- app_assoc. }
    destruct (name_matches name prot s x).
    + destruct (immune (eflags s x)); destruct ins as [f|]; try destruct (_ =? f); (apply Hgo; [done|]; first [exact Hmid|exact Hmoved]).
    + destruct ins; (apply Hgo; [done|]); [exact Hmid|]. rewrite <- app_assoc. cbn. by rewrite <- Permutation_middle.
  - rewrite Hperm in Hnd. apply NoDup_cons in Hnd as [Hx Hnd]. apply IH; [done|]. intros y Hy. rewrite drop_entry_ne; [by apply Ht|].
    intros ->. apply Hx. rewrite !elem_of_app in *. tauto.
Qed.
(** The answers of a lookup by name, in the cache as the lookup leaves it. *)
Record listed (mt : crec → bool) (s s' : cache) (l : list nat) : Prop := {
  ls_nodup : NoDup l;
  ls_count : (length l ≤ length (concat (hash_table s')))%nat;
  ls_table : ∀ x, x ∈ l → in_tbl (hash_table s) x ∧ in_tbl (hash_table s') x;
  ls_test : ∀ x, x ∈ l → mt (entry s' x) = true;
  ls_same : ∀ x, x ∈ l → ∃ n, entry s' x = with_hnext n (entry s x)
}.
Lemma listed_intro mt now s s1 s' r l :
  (∀ c, mt c = true → has (flags c) FR = true) → (∀ n c, mt (with_hnext n c) = mt c) →
  wframe s s1 → touched s1 s' → answers_are mt now s' r l → listed mt s s' l.
Proof.
  intros Hu Hmt Hw Ht [A1 A2 _ _]. pose proof Ht as (_ & _ & T3 & _ & T5). split; [done|..].
  - apply chains_length; [done|]. intros x Hx. by apply A2.
  - intros x [Hx _]%A2. split; [|done]. apply (wf_sub _ _ Hw). by rewrite <- T3.
  - intros x Hx. by apply A2.
  - intros x [_ Hm]%A2. destruct (T5 x) as [n He]. destruct (wf_entry _ _ Hw x) as [<-|[_ Hun]]; [by exists n|].
    rewrite He, Hmt in Hm. apply Hu in Hm. unfold unused, eflags in Hun. congruence.
Qed.
(** The entries of a lookup, one after the other. *)
Fixpoint walk (mt : crec → bool) (s : cache) (l : list nat) : Prop :=
  match l with
  | [] => True
  | x :: l' => mt (entry s x) = true ∧ walk mt s l' ∧
               match next s x with Some y => if mt (entry s y) then hd_error l' = Some y else l' = [] | None => l' = [] end
  end.
Lemma trail_walk mt s l : ∀ o, trail mt s o l → walk mt s l.
Proof.
  induction l as [|x l IH]; intros o; cbn [trail walk]; [done|]. intros (-> & Hm & Ht). split_and!; [done|by eapply IH|].
  destruct l as [|y l]; cbn [trail] in Ht.
  - destruct (next s x) as [z|]; [by rewrite Ht|done].
  - destruct Ht as (-> & -> & _). done.
Qed.
Lemma walk_next_name mix_tab name now prot s x l :
  walk (name_test name prot) s (x :: l) → (cache_find_by_name mix_tab name now prot (Some x) s).1 = hd_error l.
Proof.
  intros (_ & _ & Hn). unfold cache_find_by_name. cbn [fst]. destruct (next s x) as [y|]; [|by subst].
  change (name_matches name prot s y) with (name_test name prot (entry s y)). destruct (name_test _ _ _); [done|by subst].
Qed.
Lemma walk_next_addr a now prot s x l :
  walk (addr_test a prot) s (x :: l) → (cache_find_by_addr a now prot (Some x) s).1 = hd_error l.
Proof.
  intros (_ & _ & Hn). unfold cache_find_by_addr. cbn [fst]. destruct (next s x) as [y|]; [|by subst].
  change (has (eflags s y) F_REVERSE && addr_matches a prot s y) with (addr_test a prot (entry s y)). destruct (addr_test _ _ _); [done|by subst].
Qed.
Lemma find_by_name_listed mix_tab name now prot s :
  cinv mix_tab s → strings s → string_ name →
  let '(r, s') := cache_find_by_name mix_tab name now prot None s in
  cinv mix_tab s' ∧ (∃ s1, wframe s s1 ∧ touched s1 s') ∧
  ∃ l, r = hd_error l ∧ walk (name_test name prot) s' l ∧ listed (name_test name prot) s s' l ∧ ∀ x, x ∈ l → has_target (entry s' x).
Proof.
  intros Hi Hs Hn. pose proof (find_search mix_tab name now prot s Hi Hs Hn) as Hf.
  assert (Hhit : ∀ id s', cache_find_by_name mix_tab name now prot None s = (Some id, s') → name_test name prot (entry s' id) = true).
  { intros id s' Hr. unfold cache_find_by_name in Hr. repeat (case_match; simplify_eq). done. }
  assert (Htg : ∀ x, let s' := (cache_find_by_name mix_tab name now prot None s).2 in
    in_tbl (hash_table s') x → name_test name prot (entry s' x) = true → cinv mix_tab s' → strings s' → hash_size s' = hash_size s → has_target (entry s' x)).
  { intros x. unfold cache_find_by_name. set (b := hash_bucket mix_tab (hash_size s) name).
    assert (Hb : (b < hash_size s)%nat) by (apply bucket_lt, (inv_size _ _ _ Hi)). pose proof (nth_chain _ _ Hb) as Hch.
    pose proof (find_loop_targets name now prot (nth b (hash_table s) []) [] [] [] None [] s) as Hk.
    pose proof (find_loop_table name now prot (nth b (hash_table s) []) [] [] [] None [] s) as Ht.
    destruct (find_loop _ _ _ _ _ _ _ _ _ s) as [[kept hosts] s1]. cbn [app snd] in *.
    specialize (Hk (chain_nodup _ _ _ _ (inv_chains _ _ _ Hi b _ Hch))).
    pose proof (chain_up_spec hosts (set_chain b kept s1)) as Hup. destruct (chain_up hosts _) as [ans s'].
    destruct Hup as [_ (_ & _ & T3 & _ & T5)]. cbn [snd]. intros (j & ch & Hj & Hx) Hm Hi' Hs' Hsz.
    assert (j = b) as ->.
    { rewrite <- (bucket_of_chain mix_tab _ _ j ch x Hi' Hj Hx). unfold bucket, b. rewrite Hsz. apply bucket_equal; [apply Hs'|done|].
      unfold name_test in Hm. by apply andb_true_iff in Hm as [_ ?]. }
    rewrite T3 in Hj. cbn in Hj. rewrite Ht, list_lookup_insert_eq in Hj by done. injection Hj as <-.
    destruct (T5 x) as [n ->]. apply Hk; [|done]. intros y Hy. by apply not_elem_of_nil in Hy. }
  destruct (cache_find_by_name mix_tab name now prot None s) as [r s']. destruct Hf as (Hi' & (s1 & Hw & Ht) & l & Ha). cbn [snd] in Htg.
  split; [done|]. split; [by exists s1|]. exists l. pose proof Ha as [_ A2 _ A4].
  split_and!; [|by eapply trail_walk|by eapply listed_intro; [apply name_test_used| |..]|].
  - destruct l as [|y l]; [|by destruct A4 as [-> _]]. destruct r as [id|]; [|done]. cbn in A4. by rewrite (Hhit id s') in A4.
  - intros x [Hx Hm]%A2. apply Htg; [done|done|done| |].
    + intros y. rewrite (search_names s s1 s' Hw Ht). apply Hs.
    + pose proof Ht as (_ & _ & T3 & _). unfold hash_size. rewrite T3. apply (wf_size _ _ Hw).
Qed.
Lemma find_by_addr_listed mix_tab a now prot s :
  cinv mix_tab s →
  let '(r, s') := cache_find_by_addr a now prot None s in
  cinv mix_tab s' ∧ (∃ s1, wframe s s1 ∧ touched s1 s') ∧
  ∃ l, r = hd_error l ∧ walk (addr_test a prot) s' l ∧ listed (addr_test a prot) s s' l.
Proof.
  intros Hi. pose proof (find_addr_search mix_tab a now prot s Hi) as Hf.
  assert (Hhit : ∀ id s', cache_find_by_addr a now prot None s = (Some id, s') → addr_test a prot (entry s' id) = true).
  { intros id s' Hr. unfold cache_find_by_addr in Hr. repeat (case_match; simplify_eq). done. }
  destruct (cache_find_by_addr a now prot None s) as [r s']. destruct Hf as (Hi' & (s1 & Hw & Ht) & l & Ha).
  split; [done|]. split; [by exists s1|]. exists l. pose proof Ha as [_ A2 _ A4].
  split_and!; [|by eapply trail_walk|by eapply listed_intro; [apply addr_test_used| |..]].
  destruct l as [|y l]; [|by destruct A4 as [-> _]]. destruct r as [id|]; [|done]. cbn in A4. by rewrite (Hhit id s') in A4.
Qed.

(** ** Bytes *)
Lemma u8_byte z : is_u8 (u8 z).
Proof. unfold is_u8, u8. apply Z.mod_pos_bound. lia. Qed.
Lemma store_bytes n v : bytes (be_store n v).
Proof. unfold be_store. apply Forall_reverse. revert v. induction n as [|n IH]; intros v; cbn; constructor; [apply u8_byte|apply IH]. Qed.
Lemma label_split t : let '(l, rest) := label t in t = l ++ rest.
Proof. induction t as [|c t IH]; cbn [label]; [done|]. destruct (c =? _); [done|]. destruct (label t) as [l rest]. cbn. by f_equal. Qed.
Lemma rfc1035_length fuel t : (length (rfc1035_bytes fuel t) ≤ S (length t))%nat.
Proof.
  revert t. induction fuel as [|fuel IH]; intros [|c t]; cbn [rfc1035_bytes]; try (cbn; lia).
  pose proof (label_split (c :: t)) as Hl. destruct (label (c :: t)) as [l rest]. rewrite Hl. cbn [length]. rewrite !length_app.
  destruct rest as [|d rest]; cbn [tail].
  - destruct fuel; cbn [rfc1035_bytes length]; lia.
  - specialize (IH rest). cbn [length] in *. lia.
Qed.
Lemma rfc1035_are_bytes fuel t : bytes t → bytes (rfc1035_bytes fuel t).
Proof.
  revert t. induction fuel as [|fuel IH]; intros [|c t] Ht; cbn [rfc1035_bytes]; try by constructor.
  pose proof (label_split (c :: t)) as Hl. destruct (label (c :: t)) as [l rest]. rewrite Hl in Ht. apply Forall_app in Ht as [Hl1 Hr].
  constructor; [apply u8_byte|]. apply Forall_app. split; [done|]. apply IH. destruct rest; [done|by inversion Hr].
Qed.

(** What extract_name leaves in the name buffer are bytes: [may o P] holds of what [o]
    gives, if it gives anything. *)
Definition may {A} (o : outcome A) (P : A → Prop) : Prop := ∀ a, o = Val a → P a.
Lemma may_ret {A} (a : A) (P : A → Prop) : P a → may (Val a) P.
Proof. by intros ? ? [= <-]. Qed.
Lemma may_bind {A B} (o : outcome A) (f : A → outcome B) (P : A → Prop) (Q : B → Prop) :
  may o P → (∀ a, P a → may (f a) Q) → may (o ≫= f) Q.
Proof. intros Ho Hf b (a & Ha & Hb)%outcome_bind_Val. by eapply Hf; [apply Ho|]. Qed.
Lemma may_rd m p : bytes m → may (rd m p) is_u8.
Proof. intros Hm c. unfold rd. destruct (m !! p) eqn:He; [|done]. intros [= <-]. by eapply byte_at. Qed.
Lemma may_wr m p v : bytes m → is_u8 v → may (wr m p v) (λ m', bytes m').
Proof. intros Hm Hv m'. unfold wr. case_decide; [|done]. intros [= <-]. by apply Forall_insert. Qed.
Lemma may_put m p a : bytes m → bytes a → may (put m p a) (λ m', bytes m').
Proof. intros Hm Ha m'. unfold put. case_decide; [|done]. intros [= <-]. by apply patch_bytes. Qed.
Lemma codes_bytes s : bytes (codes s).
Proof.
  unfold codes. apply Forall_fmap, Forall_true. intros c. pose proof (Ascii.nat_ascii_bounded c). unfold is_u8. cbn. lia.
Qed.

Lemma copy_label_bytes m l p cp nm : bytes m → bytes nm → may (copy_label m l p cp nm) (λ r, bytes r.2).
Proof.
  intros Hm. revert p cp nm. induction l as [|l IH]; intros p cp nm Hn; cbn [copy_label]; [by apply may_ret|].
  eapply may_bind; [by apply may_rd|]. intros c Hc. destruct (_ && _ && _); [|by apply may_ret].
  eapply may_bind; [by apply may_wr|]. intros nm' Hn'. by apply IH.
Qed.
Lemma bit_digits_bytes m n odd p cp nm : bytes m → bytes nm → may (bit_digits m n odd p cp nm) (λ r, bytes r.2).
Proof.
  intros Hm. revert odd p cp nm. induction n as [|n IH]; intros odd p cp nm Hn; cbn [bit_digits]; [by apply may_ret|].
  eapply may_bind; [by apply may_rd|]. intros b Hb. eapply may_bind; [apply may_wr; [done|]|intros nm' Hn'; by apply IH].
  assert (Hd : 0 ≤ (if odd then Z.land b 15 else Z.shiftr b 4) < 16).
  { unfold is_u8 in Hb. destruct odd; [change 15 with (Z.ones 4); rewrite Z.land_ones by lia; apply Z.mod_pos_bound; lia|].
    rewrite Z.shiftr_div_pow2 by lia. split; [apply Z.div_pos; lia|apply Z.div_lt_upper_bound; lia]. }
  unfold is_u8. destruct (_ <? 10); lia.
Qed.
Definition turn_bytes (t : turn) : Prop := match t with Go s | Stop _ s => bytes (xname s) end.
Lemma extract_turn_bytes m plen ex extra s : bytes m → bytes (xname s) → may (extract_turn m plen ex extra s) turn_bytes.
Proof.
  intros Hm Hs. unfold extract_turn. destruct (negb _); [by apply may_ret|].
  eapply may_bind; [by apply may_rd|]. intros l _. set (s1 := mk_x _ _ _ _ _ _).
  destruct (l =? 0).
  { unfold end_marker. destruct (negb _); [by apply may_ret|]. destruct ex.
    - eapply may_bind; [apply may_wr; [done|unfold is_u8; lia]|]. intros nm Hn. by apply may_ret.
    - eapply may_bind; [by apply may_rd|]. intros c _. by apply may_ret. }
  destruct (_ =? 0xc0).
  { unfold pointer_turn. destruct (negb _); [by apply may_ret|]. eapply may_bind; [by apply may_rd|]. intros b _. destruct (_ <? _)%nat; by apply may_ret. }
  destruct (_ =? 0x80); [by apply may_ret|]. destruct (_ =? 0x40).
  { unfold bitstring_turn. repeat (destruct (negb _); [by apply may_ret|]). eapply may_bind; [by apply may_rd|]. intros b _.
    cbv zeta. destruct (_ <=? _)%nat; [by apply may_ret|]. destruct (negb _); [by apply may_ret|].
    eapply may_bind; [apply may_put; [done|apply codes_bytes]|]. intros nm Hn.
    eapply may_bind; [by apply bit_digits_bytes|]. intros [[p cp] nm'] Hn'. cbn [snd] in Hn'.
    eapply may_bind; [apply may_put; [done|]|intros nm2 Hn2].
    { rewrite !Forall_app. split_and!; try apply codes_bytes. constructor; [unfold is_u8; lia|constructor]. }
    eapply may_bind; [apply may_wr; [done|by vm_compute]|]. intros nm3 Hn3. by apply may_ret. }
  unfold label_turn. destruct (_ <=? _)%nat; [by apply may_ret|]. destruct (negb _); [by apply may_ret|]. destruct ex.
  - eapply may_bind; [by apply copy_label_bytes|]. intros [[ok cp] nm] Hn. cbn [snd] in Hn. destruct (negb ok); [by apply may_ret|].
    eapply may_bind; [apply may_wr; [done|by vm_compute]|]. intros nm2 Hn2. by apply may_ret.
  - eapply (may_bind _ _ (λ _, True)); [done|]. intros [cp ret] _. eapply may_bind; [by apply may_rd|]. intros c _. destruct (negb _); by apply may_ret.
Qed.
Lemma extract_name_bytes m plen p nm ex extra : bytes m → bytes nm → may (extract_name m plen p nm ex extra) (λ r, bytes r.2).
Proof.
  intros Hm Hn. unfold extract_name. eapply (may_bind _ _ (λ nm, bytes nm)).
  { destruct ex; [apply may_wr; [done|unfold is_u8; lia]|by apply may_ret]. }
  intros nm1 Hn1. eapply (may_bind _ _ (λ r, bytes (xname r.2))).
  - assert (∀ fuel s, bytes (xname s) → may (extract_loop m plen ex extra fuel s) (λ r, bytes (xname r.2))) as Hl; [|by apply Hl].
    induction fuel as [|fuel IH]; intros s Hs; cbn [extract_loop]; [done|]. eapply may_bind; [by apply extract_turn_bytes|].
    intros [s'|r s'] Ht; [by apply IH|by apply may_ret].
  - intros [r s'] Hs. by apply may_ret.
Qed.
Lemma arpa_bytes name a : bytes a → bytes (in_arpa_name_2_addr name a).2.
Proof.
  intros Ha. assert (H0 : bytes (repeat 0 16)) by (cbn; repeat (constructor; [unfold is_u8; lia|]); constructor).
  assert (H4 : ∀ chunks a, bytes a → bytes (arpa4 chunks a).2).
  { induction chunks as [|c chunks IH]; intros b Hb; cbn [arpa4]; [done|]. destruct (forallb _ _); [|done]. apply IH.
    constructor; [apply u8_byte|]. apply Forall_app. split; [by apply Forall_take|by apply Forall_drop]. }
  assert (H6 : ∀ chunks a, bytes a → bytes (arpa6 chunks a).2).
  { induction chunks as [|c chunks IH]; intros b Hb; cbn [arpa6]; [done|]. destruct c as [|d [|]]; [done| |done].
    destruct (isxdigit d); [|done]. apply IH, nibble_in_bytes. }
  assert (Hbits : ∀ t j a, bytes a → bytes (arpa6_bits t j a).2).
  { induction t as [|c t IH]; intros j b Hb; cbn [arpa6_bits]; [done|]. destruct (_ && _); [|done]. apply IH, Forall_insert; [done|].
    destruct (Nat.odd j); apply u8_byte. }
  unfold in_arpa_name_2_addr. destruct (_ <? _)%nat; [done|]. cbv zeta. destruct (_ <? 3)%nat; [done|]. destruct (_ && _).
  { specialize (H4 (take (length (labels name) - 2) (labels name)) _ H0). by destruct (arpa4 _ _). }
  destruct (_ && _); [|done]. destruct (_ && _ && _).
  - specialize (Hbits (drop 3 (nth 0 (labels name) [])) 0%nat _ H0). by destruct (arpa6_bits _ _ _) as [[? ?] ?].
  - specialize (H6 (take (length (labels name) - 2) (labels name)) _ H0). by destruct (arpa6 _ _).
Qed.
Lemma str_at_split m : 0 ∈ m → ∃ t, str_at m 0 = Val t ∧ string_ t ∧ (length t < length m)%nat ∧ (bytes m → bytes t).
Proof.
  unfold str_at. rewrite drop_0. induction m as [|c m IH]; [by intros ?%not_elem_of_nil|]. intros H0. cbn [until_nul].
  destruct (Z.eqb_spec c 0) as [->|Hc]; [exists []; cbn; split_and!; [done|by constructor|lia|constructor]|].
  apply elem_of_cons in H0 as [?|H0]; [done|]. destruct (IH H0) as (t & -> & Hs & Hl & Hb). exists (c :: t).
  split_and!; [done|by constructor|cbn; lia|]. intros Hm. inversion Hm. constructor; auto.
Qed.

(** ** What lookups keep *)
(** A lookup from its start, at the time [now]. *)
Inductive cache_lookup (mix_tab : list Z) (now : Z) : cache → cache → Prop :=
  | LookupName name prot s : string_ name → cache_lookup mix_tab now s (cache_find_by_name mix_tab name now prot None s).2
  | LookupAddr a prot s : cache_lookup mix_tab now s (cache_find_by_addr a now prot None s).2.
Lemma lookups_steps mix_tab now s s' : rtc (cache_lookup mix_tab now) s s' → rtc (cache_step mix_tab) s s'.
Proof. induction 1 as [|s1 s2 s3 H _ IH]; [done|]. eapply rtc_l; [|exact IH]. destruct H; by constructor. Qed.
(** what the entries of the cache hold fits the buffers of a reply: names of at most [L]
    characters, addresses of bytes *)
Definition stored (L : nat) (s : cache) : Prop := ∀ x,
  bytes (cache_get_name (entry s x)) ∧ (length (cache_get_name (entry s x)) ≤ L)%nat ∧
  (in_tbl (hash_table s) x → has (eflags s x) FR = true → bytes (addr_bytes (addr (entry s x)))).
(** names fall along the CNAMEs of the cache *)
Definition falls (rk : text → nat) (s : cache) : Prop := ∀ x t u n,
  in_tbl (hash_table s) x → has (eflags s x) FR = true → addr (entry s x) = Cname (Some t) u →
  hostname_isequal (cache_get_name (entry s x)) n = true → (rk (cache_get_name (entry s t)) < rk n)%nat.
Lemma search_entry s s1 s' x : wframe s s1 → touched s1 s' → has (eflags s' x) FR = true →
  in_tbl (hash_table s') x → in_tbl (hash_table s) x ∧ eflags s' x = eflags s x ∧ addr (entry s' x) = addr (entry s x).
Proof.
  intros Hw (_ & _ & T3 & _ & T5) Hf Hx. rewrite T3 in Hx. split; [by apply (wf_sub _ _ Hw)|]. destruct (T5 x) as [n He].
  unfold eflags in *. rewrite He in *. cbn in *. destruct (wf_entry _ _ Hw x) as [->|[_ Hu]]; [done|]. unfold unused, eflags in Hu. congruence.
Qed.
Lemma search_stored L s s1 s' : wframe s s1 → touched s1 s' → stored L s → stored L s'.
Proof.
  intros Hw Ht Hs x. destruct (Hs x) as (Hb & Hl & Ha). rewrite (search_names s s1 s' Hw Ht). split_and!; [done..|].
  intros Hx Hf. destruct (search_entry s s1 s' x Hw Ht Hf Hx) as (Hx' & Hf' & ->). rewrite Hf' in Hf. auto.
Qed.
Lemma search_falls rk s s1 s' : wframe s s1 → touched s1 s' → falls rk s → falls rk s'.
Proof.
  intros Hw Ht Hs x t u n Hx Hf. destruct (search_entry s s1 s' x Hw Ht Hf Hx) as (Hx' & Hf' & ->). rewrite Hf' in Hf.
  rewrite !(search_names s s1 s' Hw Ht). by apply Hs.
Qed.

Section Safe.
Context (mix_tab : list Z) (cfg : config) (get_ifaddr : text → list Z) (inet_addr : text → option (list Z))
  (alias_word : option nat → Z).
Context (limit qlen : nat) (local_addr local_netmask now : Z).
(** [K]: the room for the data of a record; [L]: the length of the longest name of the cache *)
Context (K L : nat) (size : nat) (s0 : cache).

Definition fits (args : list rr_arg) : Prop := (length (rr_data args) ≤ K)%nat ∧ bytes (rr_data args).
Record config_fits : Prop := {
  cf_txt : ∀ t, t ∈ txts cfg → fits [ArgT (txt_data t)];
  cf_ptr : ∀ p, p ∈ ptrs cfg → fits [ArgD (Some (ptr_ptr p))];
  cf_intr : ∀ i, i ∈ int_names cfg → fits [ArgD (Some (in_name i))];
  cf_mx : ∀ r, r ∈ mxnames cfg → fits (mx_args r);
  cf_target : fits [ArgS 1; ArgD (mxtarget cfg)];
  cf_strings : ∀ r, r ∈ mxnames cfg → string_ (default [] (mx_target r));
  cf_naptr : ∀ n, n ∈ naptrs cfg →
    fits [ArgS (na_order n); ArgS (na_pref n); ArgZ (na_flags n); ArgZ (na_services n); ArgZ (na_regexp n); ArgD (na_replace n)]
}.
Definition top : nat := Nat.max limit qlen.
Context (Hcfg : config_fits) (Hroom : (top + 12 + K ≤ size)%nat) (HK : (L + 4 ≤ K ∧ 16 ≤ K ∧ L < MAXDNAME)%nat) (Hq : (HEADER_SIZE ≤ qlen)%nat).
Context (Hif : ∀ i, bytes (get_ifaddr i)) (Hinet : ∀ t a, inet_addr t = Some a → bytes a).

Record ainv (st : ans_state) : Prop := {
  ai_length : length (apacket st) = size;
  ai_bytes : bytes (apacket st);
  ai_buf : length (abuf st) = MAXDNAME;
  ai_chars : bytes (abuf st);
  ai_ansp : (ansp st ≤ top)%nat;
  ai_addr : bytes (aaddr st);
  ai_cinv : cinv mix_tab (acache st);
  ai_strings : strings (acache st);
  ai_steps : rtc (cache_lookup mix_tab now) s0 (acache st);
  ai_stored : stored L (acache st);
  ai_falls : ∀ rk, falls rk s0 → falls rk (acache st);
  ai_offsets : length (offsets st) = length (mxnames cfg);
  ai_targets : ∀ i r o, mxnames cfg !! i = Some r → offsets st !! i = Some o → o ≠ 0%nat → is_Some (mx_target r)
}.
(** and the name buffer holds a string *)
Definition named (st : ans_state) : Prop := ainv st ∧ 0 ∈ abuf st.

Lemma rr_record_bytes o t c ttl data : bytes data → bytes (rr_record o t c ttl data).
Proof. intros Hd. unfold rr_record. rewrite !Forall_app. split_and!; try apply store_bytes. done. Qed.
Lemma text_fits t pre : bytes t → (length t ≤ L)%nat → (length pre ≤ 1)%nat → (∀ a, a ∈ pre → ∃ v, a = ArgS v) → fits (pre ++ [ArgD (Some t)]).
Proof.
  intros Hb Hl Hp Hs. assert (Hpre : (length (rr_data pre) ≤ 2)%nat ∧ bytes (rr_data pre)).
  { destruct pre as [|a [|]]; cbn [length] in Hp; [cbn; split; [lia|constructor]| |lia]. destruct (Hs a) as [v ->]; [by constructor|].
    unfold rr_data. cbn [mbind list_bind rr_bytes]. rewrite app_nil_r, length_be_store. split; [lia|apply store_bytes]. }
  assert (Hd : rr_data [ArgD (Some t)] = rfc1035_bytes (length t) t ++ [0]) by (unfold rr_data; cbn; by rewrite app_nil_r).
  pose proof (rfc1035_length (length t) t). unfold fits, rr_data in *. rewrite bind_app, Hd, !length_app, !Forall_app. cbn [length].
  split; [lia|]. split_and!; [apply Hpre|by apply rfc1035_are_bytes|]. constructor; [unfold is_u8; lia|constructor].
Qed.
Lemma addr_fits a : bytes a → fits [Arg4 a] ∧ fits [Arg6 a].
Proof.
  intros Ha. unfold fits, rr_data. cbn [mbind list_bind rr_bytes]. rewrite !app_nil_r, !length_take. split; split; [lia|by apply Forall_take|lia|by apply Forall_take].
Qed.
Lemma answer_total ttl offset type class args st :
  ainv st → fits args →
  total (answer limit ttl offset type class args st) (λ r, ainv r.2 ∧ abuf r.2 = abuf st ∧ acache r.2 = acache st ∧ aaddr r.2 = aaddr st).
Proof.
  intros [I1 I2 I3 I4 I5 I6 I7 I8 I9 I10 I11 I12 I13] [Hf Hb]. unfold answer. destruct (trunc st) eqn:Htr.
  { unfold add_resource_record. cbn -[rr_data]. apply total_ret. by cbn. }
  destruct (add_rr_run (apacket st) (Some limit) (Some false) (nameoffset st) (ansp st) ttl offset type class args) as [o' ->]; [done|lia|].
  rewrite bind_Val. apply total_ret. cbn. split; [|done].
  split; cbn; try done.
  - rewrite length_patch; [done|rewrite length_rr_record; lia].
  - apply patch_bytes; [by apply rr_record_bytes|done].
  - destruct (Nat.leb_spec (ansp st + 12 + length (rr_data args)) limit); unfold top in *; lia.
Qed.

(** *** Steps that only write records *)
Record same (st st' : ans_state) : Prop := {
  sm_inv : ainv st'; sm_buf : abuf st' = abuf st; sm_cache : acache st' = acache st; sm_addr : aaddr st' = aaddr st
}.
Lemma same_self st : ainv st → same st st.
Proof. done. Qed.
Lemma same_trans st1 st2 st3 : same st1 st2 → same st2 st3 → same st1 st3.
Proof. intros [A1 A2 A3 A4] [B1 B2 B3 B4]. split; [done|congruence..]. Qed.
Lemma same_auth b st : ainv st → same st (set_auth b st).
Proof. by intros []. Qed.
Lemma same_nxdomain b st : ainv st → same st (set_nxdomain b st).
Proof. by intros []. Qed.
Lemma same_nameoffset o st : ainv st → same st (set_nameoffset o st).
Proof. by intros []. Qed.
Lemma same_neg st (b : bool) : ainv st → same st (let st := set_auth false st in if b then set_nxdomain true st else st).
Proof. intros Hi. destruct b; [|by apply same_auth]. eapply same_trans; [by apply same_auth|]. by apply same_nxdomain, same_auth. Qed.
Lemma same_source st (b : bool) : ainv st → same st (if b then st else set_auth false st).
Proof. destruct b; [done|by apply same_auth]. Qed.
Lemma answer_same ttl offset type class args st :
  ainv st → fits args → total (answer limit ttl offset type class args st) (λ r, same st r.2).
Proof. intros Hi Hf. eapply total_mono; [by apply answer_total|]. by intros r (? & ? & ? & ?). Qed.
Lemma answer_unless_same dryrun ttl type class args st :
  ainv st → fits args → total (answer_unless limit dryrun ttl type class args st) (same st).
Proof.
  intros Hi Hf. unfold answer_unless. destruct dryrun; [by apply total_ret|].
  eapply total_bind; [by apply answer_same|]. intros r Hr. by apply total_ret.
Qed.
(** the same for a result with ans *)
Abbreviation same_ st := (λ r : bool * ans_state, same st r.2).
Lemma same_on {A} (o : outcome A) (st st' : ans_state) (f : A → ans_state) :
  same st st' → total o (λ r, same st' (f r)) → total o (λ r, same st (f r)).
Proof. intros Hs Ho. eapply total_mono; [exact Ho|]. intros r. by apply same_trans. Qed.

Lemma txt_answers_same dryrun qclass name l ans st :
  (∀ t, t ∈ l → t ∈ txts cfg) → ainv st → total (txt_answers cfg limit dryrun qclass name l ans st) (same_ st).
Proof.
  revert ans st. induction l as [|t l IH]; intros ans st Hl Hi; cbn [txt_answers]; [by apply total_ret|].
  assert (Hl' : ∀ t, t ∈ l → t ∈ txts cfg) by (intros u Hu; apply Hl; by constructor). destruct (_ && _); [|by apply IH].
  eapply total_bind; [apply answer_unless_same; [done|apply (cf_txt Hcfg), Hl; by constructor]|]. intros st' Hs.
  eapply same_on; [exact Hs|]. apply IH; [done|apply Hs].
Qed.
Lemma find_intr_in a last l i : find_intr get_ifaddr a last l = Some i → i ∈ l.
Proof.
  revert last. induction l as [|j l IH]; intros last; cbn [find_intr]; [done|]. destruct (bool_decide _); [by intros ?%IH; constructor|].
  destruct (bool_decide _); [intros [= ->]; by constructor|by intros ?%IH; constructor].
Qed.
Lemma ptr_locals_same name l st : (∀ p, p ∈ l → p ∈ ptrs cfg) → ainv st → total (ptr_locals cfg limit name l st) (same st).
Proof.
  revert st. induction l as [|p l IH]; intros st Hl Hi; cbn [ptr_locals]; [by apply total_ret|].
  assert (Hl' : ∀ t, t ∈ l → t ∈ ptrs cfg) by (intros u Hu; apply Hl; by constructor). destruct (hostname_isequal _ _); [|by apply IH].
  eapply total_bind; [apply answer_same; [done|apply (cf_ptr Hcfg), Hl; by constructor]|]. intros r Hs.
  eapply (same_on _ _ _ id); [exact Hs|]. apply IH; [done|apply Hs].
Qed.
Lemma naptr_answers_same dryrun name l ans st :
  (∀ n, n ∈ l → n ∈ naptrs cfg) → ainv st → total (naptr_answers cfg limit dryrun name l ans st) (same_ st).
Proof.
  revert ans st. induction l as [|n l IH]; intros ans st Hl Hi; cbn [naptr_answers]; [by apply total_ret|].
  assert (Hl' : ∀ t, t ∈ l → t ∈ naptrs cfg) by (intros u Hu; apply Hl; by constructor). destruct (hostname_isequal _ _); [|by apply IH].
  eapply total_bind; [apply answer_unless_same; [done|apply (cf_naptr Hcfg), Hl; by constructor]|]. intros st' Hs.
  eapply same_on; [exact Hs|]. apply IH; [done|apply Hs].
Qed.
Lemma same_offset i o r st : ainv st → mxnames cfg !! i = Some r → is_Some (mx_target r) → same st (set_offset i o st).
Proof.
  intros [I1 I2 I3 I4 I5 I6 I7 I8 I9 I10 I11 I12 I13] Hr Ht. split; [|done..]. split; cbn; try done; [by rewrite length_insert|].
  intros j r' o' Hj. destruct (decide (j = i)) as [->|Hne]; [intros _ _; by simplify_eq|]. rewrite list_lookup_insert_ne by done. by apply I13.
Qed.
Lemma mx_answers_same dryrun srv name l i found ans st :
  drop i (mxnames cfg) = l → ainv st → total (mx_answers cfg limit dryrun srv name l i found ans st) (λ r, same st r.2).
Proof.
  revert i found ans st. induction l as [|r l IH]; intros i found ans st Hl Hi; cbn [mx_answers]; [by apply total_ret|].
  assert (Hr : mxnames cfg !! i = Some r) by (rewrite <- (Nat.add_0_r i), <- lookup_drop, Hl; done).
  assert (Hl' : drop (S i) (mxnames cfg) = l) by (rewrite (drop_S _ _ _ Hr) in Hl; by injection Hl).
  destruct (_ && _); [|by apply IH]. eapply (total_bind _ _ (same st)).
  - destruct dryrun; [by apply total_ret|].
    eapply total_bind; [apply answer_same; [done|by apply (cf_mx Hcfg); eapply list_elem_of_lookup_2]|]. intros [[ok o] st'] Hs.
    apply total_ret. destruct ok, (mx_target r) eqn:Ht; cbn; try done. eapply same_trans; [exact Hs|]. eapply same_offset; [apply Hs|done|by rewrite Ht].
  - intros st' Hs. eapply same_on; [exact Hs|]. apply IH; [done|apply Hs].
Qed.

(** *** Lookups *)
Record usable (s : cache) (x : nat) : Prop := {
  us_table : in_tbl (hash_table s) x;
  us_flags : has (eflags s x) FR = true;
  us_addr : bytes (addr_bytes (addr (entry s x)))
}.
Lemma ainv_search st s1 s' :
  ainv st → cinv mix_tab s' → wframe (acache st) s1 → touched s1 s' → cache_lookup mix_tab now (acache st) s' → ainv (set_acache s' st).
Proof.
  intros [I1 I2 I3 I4 I5 I6 I7 I8 I9 I10 I11 I12 I13] Hi' Hw Ht Hstep. split; cbn; try done.
  - intros x. rewrite (search_names _ s1 s' Hw Ht). apply I8.
  - by eapply rtc_r.
  - by eapply search_stored.
  - intros rk Hf. eapply search_falls; [done..|]. by apply I11.
Qed.
Lemma listed_usable (mt : crec → bool) s s' l : (∀ c, mt c = true → has (flags c) FR = true) → listed mt s s' l → stored L s' → ∀ x, x ∈ l → usable s' x.
Proof. intros Hu [_ _ L2 L3 _] Hs x Hx. assert (Hf : has (eflags s' x) FR = true) by (by apply Hu, L3). split; [by apply L2|done|]. apply Hs; [by apply L2|done]. Qed.
Lemma find_name_inv name prot st :
  ainv st → string_ name →
  let '(r, s') := cache_find_by_name mix_tab name now prot None (acache st) in
  ainv (set_acache s' st) ∧ ∃ l, r = hd_error l ∧ walk (name_test name prot) s' l ∧ (length l < entries_fuel s')%nat ∧
    ∀ x, x ∈ l → usable s' x ∧ has_target (entry s' x).
Proof.
  intros Hi Hn. pose proof (find_by_name_listed mix_tab name now prot (acache st) (ai_cinv _ Hi) (ai_strings _ Hi) Hn) as Hf.
  pose proof (LookupName mix_tab now name prot (acache st) Hn) as Hstep.
  destruct (cache_find_by_name _ _ _ _ _ _) as [r s']. cbn [snd] in Hstep. destruct Hf as (Hi' & (s1 & Hw & Ht) & l & Hr & Hwalk & Hl & Htg).
  assert (Ha : ainv (set_acache s' st)) by (by eapply ainv_search). split; [done|]. exists l.
  split_and!; [done|done|pose proof (ls_count _ _ _ _ Hl); unfold entries_fuel; lia|]. intros x Hx. split; [|by apply Htg].
  eapply listed_usable; [apply name_test_used|done|apply (ai_stored _ Ha)|done].
Qed.
Lemma find_addr_inv a prot st :
  ainv st →
  let '(r, s') := cache_find_by_addr a now prot None (acache st) in
  ainv (set_acache s' st) ∧ ∃ l, r = hd_error l ∧ walk (addr_test a prot) s' l ∧ (length l < entries_fuel s')%nat.
Proof.
  intros Hi. pose proof (find_by_addr_listed mix_tab a now prot (acache st) (ai_cinv _ Hi)) as Hf.
  pose proof (LookupAddr mix_tab now a prot (acache st)) as Hstep.
  destruct (cache_find_by_addr _ _ _ _ _) as [r s']. cbn [snd] in Hstep. destruct Hf as (Hi' & (s1 & Hw & Ht) & l & Hr & Hwalk & Hl).
  split; [by eapply ainv_search|]. exists l. split_and!; [done|done|]. pose proof (ls_count _ _ _ _ Hl); unfold entries_fuel; lia.
Qed.

(** *** Questions for an address or a name *)
Lemma named_same st st' : named st → same st st' → named st'.
Proof. intros [_ H0] [Hi Hb _ _]. split; [done|by rewrite Hb]. Qed.
Lemma addr_entry_same dryrun sec qtype x ans st :
  ainv st → total (addr_entry cfg limit now dryrun sec qtype (entry (acache st) x) ans st) (same_ st).
Proof.
  intros Hi. unfold addr_entry. destruct (_ && _); [by apply total_ret|]. destruct (has _ F_NEG); [apply total_ret; cbn [snd]; by apply same_neg|].
  destruct (_ || _); [|by apply total_ret]. pose proof (same_source st (host_or_lease (flags (entry (acache st) x))) Hi) as Hs.
  eapply total_bind; [apply answer_unless_same; [apply Hs|]|intros st' Hs'; apply total_ret; cbn [snd]; by eapply same_trans].
  destruct (ai_stored _ Hi x) as (Hb & Hl & _). apply (text_fits _ []); [done|done|cbn; lia|]. by intros ? ?%not_elem_of_nil.
Qed.
Lemma addr_entries_same dryrun sec qtype prot a l : ∀ fuel x ans st,
  (length l < fuel)%nat → ainv st → aaddr st = a → walk (addr_test a prot) (acache st) (x :: l) →
  total (addr_entries cfg limit now fuel dryrun sec qtype prot x ans st) (same_ st).
Proof.
  induction l as [|y l IH]; intros [|fuel] x ans st Hf Hi Ha Hw; cbn [length] in Hf; try lia; cbn [addr_entries];
    (eapply total_bind; [by apply addr_entry_same|]); intros [ans' st'] Hs; cbn [snd] in Hs; rewrite (sm_addr _ _ Hs), (sm_cache _ _ Hs), Ha;
    erewrite walk_next_addr by done; cbn [hd_error].
  - by apply total_ret.
  - eapply same_on; [exact Hs|]. apply IH; [lia|apply Hs|by rewrite (sm_addr _ _ Hs)|]. rewrite (sm_cache _ _ Hs). apply Hw.
Qed.
Lemma named_addr a st : named st → bytes a → named (set_aaddr a st).
Proof. by intros [[] ?] ?. Qed.
Abbreviation named_ := (λ r : bool * ans_state, named r.2).
Lemma answer_ptr_named dryrun sec qtype name ans st :
  named st → total (answer_ptr cfg get_ifaddr limit now dryrun sec qtype name ans st) named_.
Proof.
  intros Hn. unfold answer_ptr. pose proof (arpa_bytes name (aaddr st) (ai_addr _ (proj1 Hn))) as Ha.
  destruct (in_arpa_name_2_addr name (aaddr st)) as [is_arpa a]. cbn [snd] in Ha.
  apply (named_addr a) in Hn; [|done]. set (st1 := set_aaddr a st) in *. assert (Ha1 : aaddr st1 = a) by done.
  destruct (if is_arpa =? F_IPV4 then _ else None) as [intr|] eqn:Hintr.
  { destruct (_ =? _); [|done]. apply find_intr_in in Hintr. eapply total_bind; [apply answer_unless_same; [apply Hn|by apply (cf_intr Hcfg)]|].
    intros st2 Hs. apply total_ret. by eapply named_same. }
  destruct (existsb _ _).
  { eapply (total_bind _ _ (same st1)); [|intros st2 Hs; apply total_ret; by eapply named_same].
    destruct dryrun; [apply total_ret, same_self, Hn|]. apply ptr_locals_same; [done|apply Hn]. }
  pose proof (find_addr_inv a is_arpa st1 (proj1 Hn)) as Hf. destruct (cache_find_by_addr _ _ _ _ _) as [r s'].
  destruct Hf as (Hi & l & -> & Hw & Hlen). assert (Hn2 : named (set_acache s' st1)) by (split; [done|apply Hn]).
  destruct l as [|x l]; cbn [hd_error].
  - destruct (_ && _ && _); apply total_ret; [|done]. cbn [snd]. eapply named_same; [done|by apply same_nxdomain].
  - eapply total_mono; [eapply (addr_entries_same _ _ _ _ a l); [cbn [length] in Hlen; lia|done|done|done]|]. intros r. by apply named_same.
Qed.

(** where the name buffer is after a CNAME *)
Definition led (s : cache) (x : nat) (st' : ans_state) : Prop :=
  ∃ t u, addr (entry s x) = Cname (Some t) u ∧ str_at (abuf st') 0 = Val (cache_get_name (entry s t)).
Lemma rename t st : ainv st → string_ t → bytes t → (length t < MAXDNAME)%nat →
  total (put (abuf st) 0 (t ++ [0])) (λ b, named (set_abuf b st) ∧ str_at b 0 = Val t).
Proof.
  intros Hi Hs Hb Hl. eapply total_mono; [apply put_total; rewrite length_app, (ai_buf _ Hi); cbn [length]; lia|].
  intros b [-> Hlen]. assert (Hp : patch 0 (t ++ [0]) (abuf st) = t ++ 0 :: drop (0 + length (t ++ [0])) (abuf st)) by (unfold patch; cbn [take app]; by rewrite <- app_assoc).
  split; [|rewrite Hp; by apply until_nul_app]. split; [|rewrite Hp; cbn; rewrite elem_of_app, elem_of_cons; auto].
  destruct Hi as [I1 I2 I3 I4 I5 I6 I7 I8 I9 I10 I11 I12 I13]. split; cbn; try done; [by rewrite Hlen|]. apply patch_bytes; [|done].
  apply Forall_app. split; [done|]. constructor; [unfold is_u8; lia|constructor].
Qed.
Abbreviation name_entry_ := (name_entry cfg alias_word limit local_addr local_netmask now).
Lemma name_entry_total dryrun sec loc qtype type x ans st :
  named st → usable (acache st) x → has_target (entry (acache st) x) →
  total (name_entry_ dryrun sec loc qtype type x ans st)
    (λ r, let '(k, _, st') := r in match k with Restart => named st' ∧ led (acache st) x st' | _ => same st st' end).
Proof.
  intros Hn Hu Ht. pose proof (proj1 Hn) as Hi. unfold name_entry. destruct (_ && _); [by apply total_ret|].
  destruct (has _ F_CNAME) eqn:Hc.
  { destruct (Ht Hc) as (t & u & Ha). rewrite Ha. destruct (ai_stored _ Hi t) as (Hb & Hl & _).
    eapply (total_bind _ _ (same st)).
    - destruct dryrun; [by apply total_ret|].
      eapply total_bind; [apply answer_same; [done|apply (text_fits _ []); [done|done|cbn; lia|by intros ? ?%not_elem_of_nil]]|].
      intros r Hs. apply total_ret. eapply same_trans; [exact Hs|]. apply same_nameoffset, Hs.
    - intros st1 Hs. eapply total_bind; [apply rename; [apply Hs|apply (ai_strings _ Hi)|done|lia]|]. intros b [Hn' Hstr].
      apply total_ret. split; [done|]. by exists t, u. }
  destruct (has _ F_NEG); [apply total_ret; by apply same_neg|]. destruct (_ || _); [|by apply total_ret]. destruct (_ && _ && _); [by apply total_ret|].
  pose proof (same_source st (host_or_lease (flags (entry (acache st) x))) Hi) as Hs.
  eapply total_bind; [apply answer_unless_same; [apply Hs|]|intros st' Hs'; apply total_ret; by eapply same_trans].
  destruct (addr_fits _ (us_addr _ _ Hu)). by destruct (_ =? T_A).
Qed.
Lemma name_entries_total dryrun sec loc qtype type name prot s l : ∀ fuel x ans st,
  (length l < fuel)%nat → named st → acache st = s → walk (name_test name prot) s (x :: l) →
  (∀ y, y ∈ x :: l → usable s y ∧ has_target (entry s y)) →
  total (name_entries mix_tab cfg alias_word limit local_addr local_netmask now fuel dryrun sec loc qtype type name prot x ans st)
    (λ r, let '(again, _, st') := r in named st' ∧ ((again : bool) = true → ∃ y, y ∈ x :: l ∧ led s y st')).
Proof.
  induction l as [|y l IH]; intros [|fuel] x ans st Hf Hn Hc Hw Hu; cbn [length] in Hf; try lia; cbn [name_entries];
    (destruct (Hu x) as [Hux Htx]; [by constructor|]);
    (eapply total_bind; [apply name_entry_total; [done|by rewrite Hc|by rewrite Hc]|]); intros [[k ans'] st'] Hk; rewrite Hc in Hk;
    (destruct k; [|apply total_ret; split; [by eapply named_same|done]|apply total_ret; destruct Hk; split; [done|intros _; exists x; split; [by constructor|done]]]);
    rewrite (sm_cache _ _ Hk), Hc; erewrite walk_next_name by done; cbn [hd_error].
  - apply total_ret. split; [by eapply named_same|done].
  - eapply total_mono; [apply IH; [lia|by eapply named_same|by rewrite (sm_cache _ _ Hk)|apply Hw|]|].
    + intros z Hz. apply Hu. by constructor.
    + intros [[again ans2] st2] [Hn2 Hled]. split; [done|]. intros Ha. destruct (Hled Ha) as (z & Hz & Hl). exists z. split; [by constructor|done].
Qed.
(** the names that CNAMEs lead to fall *)
Definition ends (hops : nat) (name : text) (r : option (bool * ans_state)) : Prop :=
  match r with Some r => named r.2 | None => ∀ rk, falls rk s0 → (hops ≤ rk name)%nat end.
Lemma chase_total dryrun sec qtype flag type : ∀ hops ans st name,
  named st → str_at (abuf st) 0 = Val name →
  total (chase mix_tab cfg alias_word limit local_addr local_netmask now hops dryrun sec qtype flag type ans st) (ends hops name).
Proof.
  induction hops as [|hops IH]; intros ans st name Hn Hname; cbn [chase]; [apply total_ret; cbn; lia|].
  rewrite Hname, bind_Val. destruct (str_at_split _ (proj2 Hn)) as (t & Ht & Hs & _). rewrite Hname in Ht. injection Ht as <-.
  pose proof (find_name_inv name (Z.lor flag F_CNAME) st (proj1 Hn) Hs) as Hf. destruct (cache_find_by_name _ _ _ _ _ _) as [r s'].
  destruct Hf as (Hi & l & -> & Hw & Hlen & Hu). assert (Hn2 : named (set_acache s' st)) by (split; [done|apply Hn]).
  destruct l as [|x l]; cbn [hd_error]; [by apply total_ret|].
  eapply total_bind; [eapply (name_entries_total _ _ _ _ _ _ _ s' l); [cbn [length] in Hlen; lia|done|done|done|done]|].
  intros [[again ans'] st'] [Hn' Hled]. destruct again; [|by apply total_ret].
  destruct (Hled eq_refl) as (y & Hy & t & u & Ha & Hstr). eapply total_mono; [by apply IH|].
  intros [r|]; cbn [ends]; [done|]. intros Hrk rk Hfall. specialize (Hrk rk Hfall). destruct (Hu y Hy) as [[U1 U2 _] _].
  assert (rk (cache_get_name (entry s' t)) < rk name)%nat; [|lia].
  eapply (ai_falls _ Hi rk Hfall); [exact U1|exact U2|exact Ha|].
  assert (Hm : ∀ l, walk (name_test name (Z.lor flag F_CNAME)) s' l → y ∈ l → name_test name (Z.lor flag F_CNAME) (entry s' y) = true).
  { clear. induction l as [|z l IH]; [by intros _ ?%not_elem_of_nil|]. intros (Hm & Hw & _) [->|Hy]%elem_of_cons; [done|by apply IH]. }
  specialize (Hm _ Hw Hy). unfold name_test in Hm. by apply andb_true_iff in Hm as [_ ?].
Qed.

Definition settles (hops : nat) (r : option (bool * ans_state)) : Prop :=
  match r with Some r => named r.2 | None => ∀ rk, falls rk s0 → ∃ name, (hops ≤ rk name)%nat end.
Lemma ends_settles hops name r : ends hops name r → settles hops r.
Proof. destruct r; [done|]. intros Hr rk Hf. exists name. auto. Qed.
Lemma answer_addr_total hops dryrun sec qtype flag ans st :
  named st →
  total (answer_addr mix_tab cfg get_ifaddr inet_addr alias_word limit local_addr local_netmask now hops dryrun sec qtype flag ans st) (settles hops).
Proof.
  intros Hn. unfold answer_addr. destruct (_ && _); [by apply total_ret|].
  destruct (str_at_split _ (proj2 Hn)) as (name & Hname & Hs & _). rewrite Hname, bind_Val.
  set (number := if qtype =? T_A then inet_addr name else None).
  assert (Hb : bytes (default (repeat 255 4) number)).
  { unfold number. destruct (qtype =? T_A); [destruct (inet_addr name) eqn:He; [by eapply Hinet|]|];
      cbn; repeat (constructor; [unfold is_u8; lia|]); constructor. }
  set (st1 := if qtype =? T_A then _ else st).
  assert (Hn1 : named st1 ∧ abuf st1 = abuf st).
  { unfold st1. destruct (qtype =? T_A); [|done]. split; [|done]. apply named_addr; [done|]. apply patch_bytes; [done|apply Hn]. }
  clearbody st1. destruct Hn1 as [Hn1 Hbuf]. destruct number as [a|].
  { eapply total_bind; [apply answer_unless_same; [apply Hn1|apply addr_fits, Hn1]|]. intros st2 Hs2. apply total_ret. cbn. by eapply named_same. }
  destruct (if qtype =? T_A then _ else None) as [intr|] eqn:Hintr.
  - destruct dryrun; [by apply total_ret|]. assert (Hn2 : named (set_aaddr (patch 0 (get_ifaddr (in_intr intr)) (aaddr st1)) st1)).
    { apply named_addr; [done|]. apply patch_bytes; [done|apply Hn1]. }
    destruct (bool_decide _); [by apply total_ret|].
    eapply total_bind; [apply answer_unless_same; [apply Hn2|apply addr_fits, Hn2]|]. intros st2 Hs2. apply total_ret. cbn. by eapply named_same.
  - eapply total_mono; [apply (chase_total _ _ _ _ _ hops ans st1 name Hn1); by rewrite Hbuf|]. intros r. apply ends_settles.
Qed.

(** *** The other types *)
Lemma answer_mx_named dryrun name ans st :
  named st → string_ name → bytes name → (length name < MAXDNAME)%nat → total (answer_mx mix_tab cfg limit now dryrun name ans st) named_.
Proof.
  intros Hn Hs Hb _. unfold answer_mx. eapply total_bind; [apply mx_answers_same; [done|apply Hn]|]. intros [[found ans'] st1] Hs1. cbn [snd] in Hs1.
  apply (named_same st) in Hs1; [|done]. destruct (_ && _); [|by apply total_ret].
  pose proof (find_name_inv name (Z.lor F_HOSTS F_DHCP) st1 (proj1 Hs1) Hs) as Hf. destruct (cache_find_by_name _ _ _ _ _ _) as [r s'].
  destruct Hf as (Hi & l & -> & Hw & _). assert (Hn2 : named (set_acache s' st1)) by (split; [done|apply Hs1]).
  destruct l as [|x l]; cbn [hd_error]; [by apply total_ret|].
  assert (Hl : (length name ≤ L)%nat).
  { destruct Hw as [[_ Heq]%andb_true_iff _]. rewrite hostname_isequal_fold in Heq; [|apply (ai_strings _ Hi)|done]. apply bool_decide_eq_true in Heq.
    rewrite <- (length_map fold name), <- Heq, length_map. apply (ai_stored _ Hi). }
  eapply total_bind; [apply answer_unless_same; [done|]|intros st2 Hs2; apply total_ret; by eapply named_same].
  destruct (opt_selfmx cfg); [|apply (cf_target Hcfg)]. apply (text_fits _ [ArgS 1]); [done|done|cbn; lia|]. intros a ->%list_elem_of_singleton. by eexists.
Qed.
Lemma answer_srv_named dryrun qtype name ans st : named st → total (answer_srv cfg limit dryrun qtype name ans st) named_.
Proof.
  intros Hn. unfold answer_srv. eapply total_bind; [apply mx_answers_same; [done|apply Hn]|]. intros [[found ans'] st1] Hs1. cbn [snd] in Hs1.
  apply (named_same st) in Hs1; [|done]. by destruct (_ && _ && _); apply total_ret.
Qed.
Lemma when_named c f r :
  named r.2 → (∀ name ans st, named st → string_ name → bytes name → (length name < MAXDNAME)%nat → total (f name ans st) named_) →
  total (when c f r) named_.
Proof.
  destruct r as [ans st]. cbn [snd]. intros Hn Hf. unfold when. destruct c; [|by apply total_ret].
  destruct (str_at_split _ (proj2 Hn)) as (name & -> & Hs & Hl & Hb). rewrite bind_Val. apply Hf; [done|done|apply Hb, Hn|].
  by rewrite (ai_buf _ (proj1 Hn)) in Hl.
Qed.
Lemma answer_in_total hops dryrun sec qtype ans st :
  named st →
  total (answer_in mix_tab cfg get_ifaddr inet_addr alias_word limit local_addr local_netmask now hops dryrun sec qtype ans st) (settles hops).
Proof.
  intros Hn. unfold answer_in. cbv zeta. eapply total_bind; [apply when_named; [done|intros; by apply answer_ptr_named]|]. intros r1 H1.
  eapply total_bind; [by apply answer_addr_total|]. intros [r2|] H2; [|by apply total_ret].
  eapply total_bind; [by apply answer_addr_total|]. intros [r3|] H3; [|by apply total_ret].
  eapply total_bind; [apply when_named; [done|intros; by apply answer_mx_named]|]. intros r4 H4.
  eapply total_bind; [apply when_named; [done|intros; by apply answer_srv_named]|]. intros r5 H5.
  eapply total_bind; [apply when_named; [done|intros name ans' st' Hn' _ _ _]|].
  { eapply total_mono; [apply naptr_answers_same; [done|apply Hn']|]. intros r. by apply named_same. }
  intros [ans' st'] H6. cbn [snd] in H6. destruct (_ =? T_MAILB); apply total_ret; cbn; [|done]. eapply named_same; [done|]. apply same_nxdomain, H6.
Qed.

(** *** The questions *)
Definition passes (hops : nat) (r : option bool * ans_state) : Prop :=
  ainv r.2 ∧ (r.1 = None → ∀ rk, falls rk s0 → ∃ name, (hops ≤ rk name)%nat).
Lemma answer_questions_total hops dryrun sec : ∀ q p st,
  ainv st →
  total (answer_questions mix_tab cfg get_ifaddr inet_addr alias_word limit qlen local_addr local_netmask now q hops dryrun sec p st) (passes hops).
Proof.
  assert (Hlen : (qlen + 4 < size)%nat) by (unfold top in Hroom; lia).
  induction q as [|q IH]; intros p st Hi; cbn [answer_questions]; [by apply total_ret|].
  apply (same_nameoffset (Z.of_nat p)), sm_inv in Hi. set (st0 := set_nameoffset _ st) in *.
  destruct (extract_name_total (apacket st0) (abuf st0) qlen p 4 true) as (r & p' & b & Hx & _ & Hl & _ & Hr & _);
    [rewrite (ai_length _ Hi); lia|apply Hi|by rewrite (ai_buf _ Hi)|done|].
  pose proof (extract_name_bytes _ _ _ _ _ _ (ai_bytes _ Hi) (ai_chars _ Hi) _ Hx) as Hb. cbn [snd] in Hb. rewrite Hx, bind_Val.
  assert (Hi1 : ainv (set_abuf b st0)).
  { destruct Hi as [I1 I2 I3 I4 I5 I6 I7 I8 I9 I10 I11 I12 I13]. split; try done. cbn. by rewrite Hl. }
  set (st1 := set_abuf b st0) in *. destruct (Z.eqb_spec r 0) as [->|Hr0]; [by apply total_ret|]. destruct (Hr Hr0) as [Hp' H0].
  assert (Hn : named st1) by done. eapply total_bind; [apply GETSHORT_total; rewrite (ai_length _ Hi1); lia|]. intros qtype _.
  eapply total_bind; [apply GETSHORT_total; rewrite (ai_length _ Hi1); lia|]. intros qclass _.
  eapply total_bind; [apply when_named; [exact Hn|intros name ans st2 Hn2 _ _ _]|].
  { eapply total_mono; [apply txt_answers_same; [done|apply Hn2]|]. intros x. by apply named_same. }
  intros r1 H1. eapply (total_bind _ _ (settles hops)).
  { destruct (qclass =? C_IN); [by apply answer_in_total|by apply total_ret]. }
  intros [[ans st2]|] H2; [|apply total_ret; split; [done|by intros _]]. cbn [settles snd] in H2.
  destruct (negb ans); [apply total_ret; split; [apply H2|done]|]. apply IH, H2.
Qed.
Lemma answer_pass_total hops dryrun sec st :
  ainv st →
  total (answer_pass mix_tab cfg get_ifaddr inet_addr alias_word limit qlen local_addr local_netmask now hops dryrun sec st) (passes hops).
Proof.
  intros Hi. unfold answer_pass. assert (Hlen : (qlen ≤ size)%nat) by (unfold top in Hroom; lia). unfold HEADER_SIZE in Hq.
  eapply total_bind; [apply (skip_questions_total qlen); rewrite ?(ai_length _ Hi); done|]. intros [e|] He; [|by apply total_ret].
  specialize (He e eq_refl). unfold qdcount. cbn [apacket]. eapply total_bind; [apply GETSHORT_total; rewrite (ai_length _ Hi); lia|]. intros q _.
  apply answer_questions_total. destruct Hi as [I1 I2 I3 I4 I5 I6 I7 I8 I9 I10 I11 I12 I13]. split; try done. cbn. unfold top. lia.
Qed.

(** *** The additional section and the header *)
Definition out (m : list Z) (p : nat) : Prop := length m = size ∧ bytes m ∧ (p ≤ top)%nat.
Lemma more_entries_total offset name prot s l : ∀ fuel x m p count,
  prot = Z.lor F_IPV4 F_IPV6 → (length l < fuel)%nat → out m p → walk (name_test name prot) s (x :: l) → (∀ y, y ∈ x :: l → usable s y) →
  total (more_entries mix_tab cfg limit now fuel offset name x m p count s) (λ r, out r.1.1 r.1.2).
Proof.
  induction l as [|y l IH]; intros [|fuel] x m p count Hp Hf Ho Hw Hu; cbn [length] in Hf; try lia; cbn [more_entries]; cbv zeta;
    (eapply (total_bind _ _ (λ r, out r.1.1 r.1.2));
      [destruct (has _ F_NEG); [by apply total_ret|]; destruct (addr_fits _ (us_addr _ _ (Hu x ltac:(by constructor)))) as [H4 H6];
       match goal with |- context [add_resource_record _ _ _ _ _ ?ttl _ ?type _ ?args] =>
         assert (Ha : fits args) by (by destruct (has _ F_IPV4));
         destruct (add_rr_run m (Some limit) None (Z.of_nat offset) p ttl None type C_IN args) as [o' ->];
           [done|destruct Ho as (? & _ & ?), Ha; unfold top in *; lia|] end;
       rewrite bind_Val; apply total_ret; cbn [fst snd]; destruct Ho as (Hl & Hb & Hpp), Ha as [Hd Hdb];
       split_and!; [rewrite length_patch; [done|rewrite length_rr_record; unfold top in *; lia]|apply patch_bytes; [by apply rr_record_bytes|done]|];
       match goal with |- context [(?a <=? ?b)%nat] => destruct (Nat.leb_spec a b) end; unfold top in *; lia|]);
    intros [[m' p'] c'] Ho'; cbn [fst snd] in Ho'; rewrite <- Hp; erewrite walk_next_name by done; cbn [hd_error].
  - by apply total_ret.
  - apply IH; [done|lia|done|apply Hw|]. intros z Hz. apply Hu. by constructor.
Qed.
Definition marks (l : list mx_srv_record) (os : list nat) : Prop :=
  ∀ i r o, l !! i = Some r → os !! i = Some o → o ≠ 0%nat → is_Some (mx_target r).
Lemma squash_marks target l os : marks l os → marks l (squash target l os).
Proof.
  revert os. induction l as [|r l IH]; intros [|o os] Hm; cbn [squash]; try done.
  intros [|i] r' o'; cbn [lookup list_lookup].
  - intros [= <-] [= <-]. destruct (_ && _); [done|]. by apply (Hm 0%nat).
  - apply IH. intros j. apply (Hm (S j)).
Qed.
Lemma additional_total l : ∀ os m p count st,
  ainv st → marks l os → (∀ r, r ∈ l → string_ (default [] (mx_target r))) → out m p →
  total (additional mix_tab cfg limit now l os m p count (acache st)) (λ r, let '(m, p, _, s) := r in out m p ∧ ainv (set_acache s st)).
Proof.
  induction l as [|r l IH]; intros [|o os] m p count st Hi Hm Hs Ho; cbn [additional];
    try (apply total_ret; split; [done|by destruct st]).
  assert (Hm' : marks l os) by (intros j; apply (Hm (S j))). assert (Hs' : ∀ r, r ∈ l → string_ (default [] (mx_target r))) by (intros x Hx; apply Hs; by constructor).
  destruct (Nat.eqb_spec o 0) as [->|Ho0]; [by apply IH|]. destruct (Hm 0%nat r o) as [name Hname]; [done..|].
  specialize (Hs r ltac:(by constructor)). rewrite Hname in *. cbn [default] in Hs.
  pose proof (find_name_inv name (Z.lor F_IPV4 F_IPV6) st Hi Hs) as Hf. destruct (cache_find_by_name _ _ _ _ _ _) as [r' s'].
  destruct Hf as (Hi' & ls & -> & Hw & Hlen & Hu). eapply (total_bind _ _ (λ r, out r.1.1 r.1.2)).
  { destruct ls as [|x ls]; cbn [hd_error]; [by apply total_ret|].
    eapply (more_entries_total _ _ (Z.lor F_IPV4 F_IPV6) s' ls); [done|cbn [length] in Hlen; lia|done|done|]. intros y Hy. by apply Hu. }
  intros [[m' p'] c'] Ho'. apply (IH _ _ _ _ (set_acache s' st) Hi'); [by apply squash_marks|done|done].
Qed.
Lemma set_field_bytes m b mask v : bytes m → (b < length m)%nat → is_u8 v → total (set_field m b mask v) (λ m', length m' = length m ∧ bytes m').
Proof.
  intros Hb Hl Hv. unfold set_field. destruct (rd_lt m b Hl) as (c & Hc & ->). rewrite bind_Val, wr_Val by done. apply total_ret.
  split; [apply length_insert|]. apply Forall_insert; [done|]. apply lor_u8; [|done]. apply land_u8. by eapply byte_at.
Qed.
Lemma short_bytes m v p : bytes m → (p + 2 ≤ length m)%nat → total (PUTSHORT m v p) (λ m', length m' = length m ∧ bytes m').
Proof.
  intros Hb Hl. eapply total_mono; [apply put_total; by rewrite length_be_store|]. intros m' [-> ?]. split; [done|]. apply patch_bytes; [apply store_bytes|done].
Qed.
Lemma answer_header_total st m n : bytes m → (12 ≤ length m)%nat → total (answer_header st m n) (λ m', length m' = length m ∧ bytes m').
Proof.
  intros Hb Hl. unfold answer_header, set_qr, set_aa, set_ra, set_tc, set_rcode.
  do 5 (eapply total_bind; [apply set_field_bytes; [done|lia|unfold is_u8, NXDOMAIN, NOERROR; repeat case_match; lia]|intros ? [? ?]]).
  do 2 (eapply total_bind; [apply short_bytes; [done|lia]|intros ? [? ?]]).
  eapply total_mono; [apply short_bytes; [done|lia]|]. intros m' [? ?]. split; [lia|done].
Qed.

Lemma edns_request_total m : length m = size → bytes m →
  total (edns_request cfg qlen m) (λ r, length r.2 = size ∧ bytes r.2).
Proof.
  intros Hl Hb. unfold edns_request. assert (Hlen : (qlen ≤ size)%nat) by (unfold top in Hroom; lia).
  eapply total_bind; [apply (find_pseudoheader_total qlen); rewrite ?Hl; done|].
  intros [[[[start len] save]|] sg] Hf; [|by apply total_ret]. destruct (Hf start len save eq_refl) as (F1 & F2 & F3).
  do 2 (eapply total_bind; [apply GETSHORT_total; lia|intros ? _]). eapply (total_bind _ _ (λ m', length m' = size ∧ bytes m')); [|intros m' ?; by apply total_ret].
  destruct (_ && _); [|by apply total_ret]. eapply total_mono; [apply short_bytes; [done|lia]|]. intros m' [? ?]. split; [lia|done].
Qed.
Lemma answer_request_total hops m name junk :
  length m = size → bytes m → length name = MAXDNAME → bytes name → bytes junk → cinv mix_tab s0 → strings s0 → stored L s0 →
  total (answer_request mix_tab cfg get_ifaddr inet_addr alias_word limit qlen local_addr local_netmask now hops m name junk s0)
    (λ r, let '(n, m', _, s') := r in length m' = size ∧ rtc (cache_lookup mix_tab now) s0 s' ∧ (∀ k, n = Some k → (k ≤ top)%nat) ∧
      (n = None → ∀ rk, falls rk s0 → ∃ name, (hops ≤ rk name)%nat)).
Proof.
  intros Hl Hb Hbuf Hnb Hj Hi Hs Hst. unfold answer_request. eapply total_bind; [by apply edns_request_total|]. intros [[dryrun sec] m1] [Hl1 Hb1]. cbn [snd] in *.
  unfold HEADER_SIZE in Hq. assert (Hlen : (qlen ≤ size)%nat) by (unfold top in Hroom; lia).
  unfold qdcount, opcode. eapply total_bind; [apply GETSHORT_total; lia|]. intros q _.
  destruct (rd_lt m1 2) as (b2 & _ & ->); [lia|]. rewrite bind_Val. cbn [mbind outcome_mbind outcome_bind].
  destruct (_ || _); [apply total_ret; split_and!; [done|done|intros k [= <-]; lia|done]|].
  set (st := mk_ans _ _ _ _ _ _ _ _ _ _ _).
  assert (Hst0 : ainv st).
  { split; try done; cbn; [lia|by rewrite length_fmap|]. intros i r o _. rewrite list_lookup_fmap. destruct (mxnames cfg !! i); cbn; [|done]. by intros [= <-]. }
  assert (Hend : ∀ r : option bool * ans_state, passes hops r → total (unanswered r)
    (λ r, let '(n, m', _, s') := r in length m' = size ∧ rtc (cache_lookup mix_tab now) s0 s' ∧ (∀ k, n = Some k → (k ≤ top)%nat) ∧
      (n = None → ∀ rk, falls rk s0 → ∃ name, (hops ≤ rk name)%nat))).
  { intros [o st'] [Hi' Hr]. apply total_ret. split_and!; [apply Hi'|apply Hi'| |destruct o; [done|intros _; by apply Hr]]. cbn. destruct o; [|done]. intros k [= <-]. lia. }
  eapply (total_bind _ _ (passes hops)).
  { destruct dryrun; [by apply answer_pass_total|by apply total_ret]. }
  intros [[[]|] st1] H1; [|by apply Hend|by apply Hend]. eapply total_bind; [apply answer_pass_total, H1|]. intros [[[]|] st2] H2; [|by apply Hend|by apply Hend].
  destruct H2 as [H2 _]. cbn [snd] in H2. eapply total_bind; [apply additional_total; [done|exact (ai_targets _ H2)|apply (cf_strings Hcfg)|]|].
  { split_and!; apply H2. }
  intros [[[m2 p] add] s'] [(O1 & O2 & O3) Hs']. eapply total_bind; [apply answer_header_total; [done|lia]|]. intros m3 [Hl3 _]. apply total_ret.
  split_and!; [lia|apply Hs'|intros k [= <-]; done|done].
Qed.
End Safe.

(** What answer_request is called with: a packet with at least a header, in a buffer with
    room behind the limit and the query for the head of a record and [K] bytes of data;
    the name buffer of the daemon, of MAXDNAME bytes; a configuration whose records have
    at most [K] bytes of data; a cache whose names have at most [L] characters, [L] at
    most [K - 4] and less than MAXDNAME; addresses of interfaces and of inet_addr that
    are bytes, as is all else.  The program's buffers, of MAXDNAME + 10 bytes more than
    the limit, have this room when [K] is 1023, for names of up to 1019 characters (a
    name has at most 255 octets in RFC 1035) and queries that are not longer than the
    limit. *)
Record callable (cfg : config) (get_ifaddr : text → list Z) (inet_addr : text → option (list Z)) (limit qlen K L : nat)
    (m name junk : list Z) (s : cache) : Prop := {
  ca_config : config_fits cfg K;
  ca_ifaddr : ∀ i, bytes (get_ifaddr i);
  ca_inet : ∀ t a, inet_addr t = Some a → bytes a;
  ca_question : (HEADER_SIZE ≤ qlen)%nat;
  ca_room : (Nat.max limit qlen + 12 + K ≤ length m)%nat;
  ca_names : (L + 4 ≤ K ∧ 16 ≤ K ∧ L < MAXDNAME)%nat;
  ca_packet : bytes m;
  ca_buffer : length name = MAXDNAME ∧ bytes name ∧ bytes junk;
  ca_cache : stored L s
}.

(** A configuration without records, and a packet with a question for the name of the
    example, of type [qtype], in the buffer that the daemon has for packets of 512
    bytes (packet_buff_sz). *)
Definition plain_config : config := mk_config [] [] [] [] [] None 0 1280 false false false false false.
Definition plain_query (qtype : Z) : list Z :=
  [0; 1; 1; 0; 0; 1; 0; 0; 0; 0; 0; 0; 3; 119; 119; 119; 1; 97; 1; 98; 0; 0; qtype; 0; 1] ++ repeat 0 (512 + MAXDNAME + 10 - 25).
Definition no_ifaddr (i : text) : list Z := repeat 255 4.
Definition byte_ok (c : Z) : bool := (0 <=? c) && (c <? 256).
Lemma bytes_ok l : forallb byte_ok l = true → bytes l.
Proof.
  intros Hl. rewrite List.forallb_forall in Hl. apply Forall_forall. intros c Hc%list_elem_of_In%Hl. unfold byte_ok in Hc. unfold is_u8. lia.
Qed.
Definition crec_ok (c : crec) : bool := forallb byte_ok (cname c) && (length (cname c) <=? 1019)%nat && forallb byte_ok (addr_bytes (addr c)).
Lemma heap_ok (t : crec → bool) s x : t crec0 = true → forallb t (snd <$> map_to_list (heap s)) = true → t (entry s x) = true.
Proof.
  intros H0 Hs. unfold entry. destruct (heap s !! x) as [c|] eqn:Hx; [|done]. cbn. rewrite List.forallb_forall in Hs. apply Hs.
  apply list_elem_of_In, list_elem_of_fmap. exists (x, c). split; [done|by apply elem_of_map_to_list].
Qed.
Lemma stored_ok s : forallb crec_ok (snd <$> map_to_list (heap s)) = true → stored 1019 s.
Proof.
  intros Hs x. pose proof (heap_ok crec_ok s x eq_refl Hs) as [[Hn Hl]%andb_true_iff Ha]%andb_true_iff.
  split_and!; [by apply bytes_ok|by apply Nat.leb_le|intros _ _; by apply bytes_ok].
Qed.
Definition no_alias (c : crec) : bool := match addr c with Cname _ _ => false | Addr _ => true end.
Lemma falls_ok rk s : forallb no_alias (snd <$> map_to_list (heap s)) = true → falls rk s.
Proof. intros Hs x t u n _ _ Ha. pose proof (heap_ok no_alias s x eq_refl Hs) as Hx. unfold no_alias in Hx. by rewrite Ha in Hx. Qed.
Lemma plain_callable (qtype : Z) s :
  is_u8 qtype → forallb crec_ok (snd <$> map_to_list (heap s)) = true →
  callable plain_config no_ifaddr (λ _, None) 512 25 1023 1019 (plain_query qtype) (repeat 0 1025) [] s.
Proof.
  intros Hq Hs. split.
  - split; cbn; try by intros ? ?%not_elem_of_nil. split; [apply Nat.leb_le; by vm_compute|]. apply bytes_ok. by vm_compute.
  - intros i. by apply bytes_ok.
  - done.
  - by unfold HEADER_SIZE; lia.
  - unfold plain_query, MAXDNAME. rewrite length_app, repeat_length. cbn [length]. lia.
  - unfold MAXDNAME. lia.
  - unfold plain_query. apply Forall_app. split; [|apply bytes_ok; by vm_compute]. repeat (constructor; [first [done|unfold is_u8; lia]|]). constructor.
  - split_and!; [by rewrite repeat_length|apply bytes_ok; by vm_compute|constructor].
  - by apply stored_ok.
Qed.

(** C7. answer_request on any packet, from any client, reads and writes inside its
    buffers, gives a length within the limit or the packet, or 0, or none (when it runs
    out of restarts for CNAMEs), and changes the cache by lookups only: the cache it
    leaves is one that lookups, at the present time, lead to.  This asks for room behind
    the limit and the query for one more record of the configuration, of an address or
    of a name in the cache; the buffers of the program have it for names of up to 1019
    characters and queries no longer than the limit, which is the case of the witness. *)
Theorem answer_request_safe mix_tab cfg get_ifaddr inet_addr alias_word limit qlen local_addr local_netmask now K L cachesize hops m name junk s :
  callable cfg get_ifaddr inet_addr limit qlen K L m name junk s → reachable mix_tab cachesize s →
  ∃ n m' name' s',
    answer_request mix_tab cfg get_ifaddr inet_addr alias_word limit qlen local_addr local_netmask now hops m name junk s = Val (n, m', name', s') ∧
    length m' = length m ∧ (∀ k, n = Some k → (k ≤ Nat.max limit qlen)%nat) ∧
    rtc (cache_lookup mix_tab now) s s' ∧ reachable mix_tab cachesize s'.
Proof.
  intros [C1 C2 C3 C4 C5 C6 C7 (C8 & C9 & C10) C11] Hr. destruct (reachable_inv _ _ _ Hr) as [Hi Hs].
  destruct (answer_request_total mix_tab cfg get_ifaddr inet_addr alias_word limit qlen local_addr local_netmask now K L (length m) s C1 C5 C6 C4 C2 C3
    hops m name junk) as ([[[n m'] name'] s'] & Hrun & Hl & Hsteps & Hk & _); [done..|].
  exists n, m', name', s'. split_and!; [done..|]. apply lookups_steps in Hsteps. unfold reachable in *; by etrans.
Qed.
Lemma answer_request_safe_witness :
  ∃ n m' name' s',
    answer_request [] plain_config no_ifaddr (λ _, None) (λ _, 0) 512 25 0 0 120 10 (plain_query T_A) (repeat 0 1025) [] example_cache =
      Val (n, m', name', s') ∧
    length m' = length (plain_query T_A) ∧ (∀ k, n = Some k → (k ≤ Nat.max 512 25)%nat) ∧
    rtc (cache_lookup [] 120) example_cache s' ∧ reachable [] 3 s'.
Proof.
  apply (answer_request_safe [] plain_config no_ifaddr (λ _, None) (λ _, 0) 512 25 0 0 120 1023 1019 3 10 (plain_query T_A) (repeat 0 1025) [] example_cache);
    [apply plain_callable; [unfold is_u8, T_A; lia|by vm_compute]|apply example_reachable].
Defined.

(** C13. When no CNAME of the cache leads back to a name it comes from, the chase of
    CNAMEs ends: with names ranked along the CNAMEs, as many restarts as there are
    ranks are enough for answer_request to return, on any packet with a header, under
    the conditions of [answer_request_safe]: room behind the limit and the query for
    one more record, a configuration whose records fit in that room, and names of the
    cache that do. *)
Theorem answer_request_ends mix_tab cfg get_ifaddr inet_addr alias_word limit qlen local_addr local_netmask now K L cachesize hops m name junk s
    (rk : text → nat) :
  callable cfg get_ifaddr inet_addr limit qlen K L m name junk s → reachable mix_tab cachesize s →
  falls rk s → (∀ t, (rk t < hops)%nat) →
  ∃ n m' name' s',
    answer_request mix_tab cfg get_ifaddr inet_addr alias_word limit qlen local_addr local_netmask now hops m name junk s = Val (Some n, m', name', s').
Proof.
  intros [C1 C2 C3 C4 C5 C6 C7 (C8 & C9 & C10) C11] Hr Hf Hrk. destruct (reachable_inv _ _ _ Hr) as [Hi Hs].
  destruct (answer_request_total mix_tab cfg get_ifaddr inet_addr alias_word limit qlen local_addr local_netmask now K L (length m) s C1 C5 C6 C4 C2 C3
    hops m name junk) as ([[[[n|] m'] name'] s'] & Hrun & _ & _ & _ & Hn); [done..|by eauto|].
  destruct (Hn eq_refl rk Hf) as [t Ht]. specialize (Hrk t). lia.
Qed.
(** A cache with a chain of two CNAMEs, as a reply leaves it: www.a.b is c.d, c.d is e,
    and e has an address. *)
Definition chain_reply : list Z :=
  [0; 7; 129; 128; 0; 1; 0; 3; 0; 0; 0; 0; 3; 119; 119; 119; 1; 97; 1; 98; 0; 0; 1; 0; 1;
   192; 12; 0; 5; 0; 1; 0; 0; 14; 16; 0; 5; 1; 99; 1; 100; 0; 192; 37; 0; 5; 0; 1; 0; 0; 14; 16; 0; 3; 1; 101; 0;
   192; 54; 0; 1; 0; 1; 0; 0; 14; 16; 0; 4; 1; 2; 3; 4] ++ repeat 0 10.
Definition chain_cache : cache :=
  match extract_addresses [] (λ _, true) [] 0 false true 100 73 [] chain_reply (repeat 0 1025) (cache_init [] 5) with
  | Val (_, st) => dns_cache st | UB => cache_init [] 5 end.
Lemma chain_reachable : reachable [] 5 chain_cache.
Proof.
  destruct (reachable_inv [] 5 (cache_init [] 5)) as [Hi Hs]; [constructor|]. unfold chain_cache.
  destruct (DnsReplySpec.extract_addresses_total [] (λ _, true) [] 0 false true 100 73 [] chain_reply (repeat 0 1025) (cache_init [] 5))
    as ([ret st] & -> & _ & _ & Hst & _); [unfold HEADER_SIZE; lia|cbn; lia|apply bytes_ok; by vm_compute|by rewrite repeat_length|done..|]. exact Hst.
Qed.
(** the rank of a name, by its first letter *)
Definition chain_rank (t : text) : nat :=
  let c := fold (DnsUtil.head t) in if c =? 119 then 2 else if c =? 99 then 1 else 0.
Lemma chain_rank_equal a b : hostname_isequal a b = true → chain_rank a = chain_rank b.
Proof.
  unfold chain_rank. intros H. assert (fold (DnsUtil.head a) = fold (DnsUtil.head b)) as ->; [|done].
  destruct a; cbn [hostname_isequal] in H; (case_match; [done|]); by apply Z.eqb_eq, negb_false_iff.
Qed.
Definition rank_ok (s : cache) (c : crec) : bool :=
  match addr c with
  | Cname (Some t) _ => (chain_rank (cache_get_name (entry s t)) <? chain_rank (cname c))%nat
  | _ => true
  end.
Lemma chain_falls s : forallb (rank_ok s) (snd <$> map_to_list (heap s)) = true → falls chain_rank s.
Proof.
  intros Hs x t u n _ _ Ha Hn. pose proof (heap_ok (rank_ok s) s x eq_refl Hs) as Hx. unfold rank_ok in Hx. rewrite Ha in Hx.
  rewrite <- (chain_rank_equal _ _ Hn). by apply Nat.ltb_lt.
Qed.
(** the chain is followed: two turns of the search are not enough *)
Example chain_followed :
  match answer_request [] plain_config no_ifaddr (λ _, None) (λ _, 0) 512 25 0 0 120 2 (plain_query T_A) (repeat 0 1025) [] chain_cache with
  | Val (n, _, _, _) => n = None
  | UB => False
  end.
Proof. by vm_compute. Qed.
Lemma answer_request_ends_witness :
  ∃ n m' name' s',
    answer_request [] plain_config no_ifaddr (λ _, None) (λ _, 0) 512 25 0 0 120 3 (plain_query T_A) (repeat 0 1025) [] chain_cache =
      Val (Some n, m', name', s').
Proof.
  apply (answer_request_ends [] plain_config no_ifaddr (λ _, None) (λ _, 0) 512 25 0 0 120 1023 1019 5 3 (plain_query T_A) (repeat 0 1025) [] chain_cache chain_rank).
  - apply plain_callable; [unfold is_u8, T_A; lia|by vm_compute].
  - apply chain_reachable.
  - apply chain_falls. by vm_compute.
  - intros t. unfold chain_rank. destruct (_ =? _); [lia|]. destruct (_ =? _); lia.
Defined.
End DnsAnswerSpec.
