(* ===== verification/DnsServe.v ===== *)
(** * What clients are told (src/external/dnsmasq/src/rfc1035.c)

    The replies of answer_request to questions for addresses, byte for byte, and what
    becomes of a reply from upstream when the next client asks. *)
From stdpp Require Import gmap sorting.
From S2P Require Import Prelude Runtime DriverRt DnsUtil DnsName DnsMsg DnsCache DnsCacheInv DnsCacheSpec DnsCacheRoom DnsReply DnsReplySpec DnsHosts DnsHostsSpec DnsAnswer DnsAnswerSpec.
Import DnsUtil DnsName DnsMsg DnsCache DnsCacheInv DnsCacheSpec DnsCacheRoom DnsReply DnsReplySpec DnsHosts DnsHostsSpec DnsAnswer DnsAnswerSpec.

Module DnsServe.
(** ** The records of a reply *)
(** all the entries for a name *)
Definition found (mix_tab : list Z) (name : text) (now prot : Z) (s : cache) : list nat :=
  answers (cache_find_by_name mix_tab name now prot) (entries_fuel s) None s.
(** an entry that answers with its address *)
Definition positive (s : cache) (x : nat) : Prop := has (eflags s x) F_CNAME = false ∧ has (eflags s x) F_NEG = false.
(** the seconds an entry has left at [now]; those of hosts files and leases have the
    time to live of the configuration *)
Definition time_left (now local_ttl : Z) (c : crec) : Z :=
  if has (flags c) F_IMMORTAL || has (flags c) F_DHCP then local_ttl else ttd c - now.
(** the record for an entry, of the name of the first question *)
Definition address_record_of (now local_ttl type : Z) (c : crec) : list Z :=
  rr_record (Z.of_nat HEADER_SIZE) type C_IN (time_left now local_ttl c) (take (if type =? T_A then 4%nat else 16%nat) (addr_bytes (addr c))).
Definition address_records (now local_ttl type : Z) (s : cache) (l : list nat) : list Z :=
  l ≫= λ x, address_record_of now local_ttl type (entry s x).
Lemma crec_ttl_left now local_ttl c : crec_ttl now local_ttl c = time_left now local_ttl c.
Proof. unfold crec_ttl, time_left. by rewrite has_either. Qed.
(** [st'] has [n] records more than [st], the bytes [recs]; [a]: all of them are
    authoritative *)
Record adds (recs : list Z) (n : nat) (a : bool) (st st' : ans_state) : Prop := {
  ad_packet : apacket st' = patch (ansp st) recs (apacket st);
  ad_ansp : ansp st' = (ansp st + length recs)%nat;
  ad_count : anscount st' = anscount st + Z.of_nat n;
  ad_auth : auth st' = auth st && a;
  ad_trunc : trunc st' = trunc st;
  ad_rest : abuf st' = abuf st ∧ acache st' = acache st ∧ nameoffset st' = nameoffset st ∧ nxdomain st' = nxdomain st ∧ offsets st' = offsets st
}.
Lemma adds_trans r1 n1 a1 r2 n2 a2 st1 st2 st3 :
  (ansp st1 + length (r1 ++ r2) ≤ length (apacket st1))%nat →
  adds r1 n1 a1 st1 st2 → adds r2 n2 a2 st2 st3 → adds (r1 ++ r2) (n1 + n2) (a1 && a2) st1 st3.
Proof.
  rewrite length_app. intros Hl [A1 A2 A3 A4 A5 (A6 & A7 & A8 & A9 & A10)] [B1 B2 B3 B4 B5 (B6 & B7 & B8 & B9 & B10)]. split.
  - rewrite B1, A1, A2. apply patch_patch. lia.
  - rewrite B2, A2, length_app. lia.
  - rewrite B3, A3. lia.
  - by rewrite B4, A4, andb_assoc.
  - congruence.
  - split_and!; congruence.
Qed.

Section Run.
Context (mix_tab : list Z) (cfg : config) (get_ifaddr : text → list Z) (inet_addr : text → option (list Z))
  (alias_word : option nat → Z).
Context (limit qlen : nat) (local_addr local_netmask now : Z).
Context (type qtype : Z) (Hqtype : qtype ≠ T_ANY).
Abbreviation recs_ := (address_records now (local_ttl cfg) type).

Lemma answer_adds ttl args st :
  trunc st = false → (ansp st + 12 + length (rr_data args) ≤ limit)%nat → (limit ≤ length (apacket st))%nat →
  ∃ st', answer_unless limit false ttl type C_IN args st = Val st' ∧ adds (rr_record (nameoffset st) type C_IN ttl (rr_data args)) 1 true st st'.
Proof.
  intros Ht Hl Hm. unfold answer_unless, answer. rewrite Ht.
  destruct (add_rr_run (apacket st) (Some limit) (Some false) (nameoffset st) (ansp st) ttl None type C_IN args) as [o' ->]; [done|lia|].
  destruct (Nat.leb_spec (ansp st + 12 + length (rr_data args)) limit); [|lia]. rewrite !bind_Val. eexists. split; [done|].
  split; cbn; try done; [rewrite length_rr_record; lia|by rewrite andb_true_r].
Qed.
Lemma name_entry_adds x ans st :
  trunc st = false → nameoffset st = Z.of_nat HEADER_SIZE → positive (acache st) x →
  (ansp st + length (address_record_of now (local_ttl cfg) type (entry (acache st) x)) ≤ limit)%nat → (limit ≤ length (apacket st))%nat →
  ∃ st', name_entry cfg alias_word limit local_addr local_netmask now false false false qtype type x ans st = Val (Next, true, st') ∧
    adds (address_record_of now (local_ttl cfg) type (entry (acache st) x)) 1 (immune (eflags (acache st) x)) st st'.
Proof.
  intros Ht Ho [Hc Hn] Hl Hm. unfold name_entry. change (flags (entry (acache st) x)) with (eflags (acache st) x).
  apply Z.eqb_neq in Hqtype as ->. cbn [andb]. rewrite Hc, Hn, orb_true_r.
  set (st1 := if host_or_lease _ then st else _).
  assert (Hs1 : adds [] 0 (immune (eflags (acache st) x)) st st1).
  { unfold st1, host_or_lease. destruct (immune _); split; cbn; try done; rewrite ?patch_nil, ?andb_true_r, ?andb_false_r; done || lia. }
  pose proof Hs1 as [S1 S2 _ _ S5 (S6 & S7 & S8 & _)]. cbn [length] in S2. rewrite patch_nil in S1.
  set (arg := if type =? T_A then _ else _).
  assert (Hd : rr_data [arg] = take (if type =? T_A then 4%nat else 16%nat) (addr_bytes (addr (entry (acache st) x)))).
  { unfold rr_data, arg. cbn. rewrite app_nil_r. by destruct (type =? T_A). }
  assert (Hr : address_record_of now (local_ttl cfg) type (entry (acache st) x) =
    rr_record (nameoffset st1) type C_IN (crec_ttl now (local_ttl cfg) (entry (acache st) x)) (rr_data [arg])) by (unfold address_record_of; by rewrite S8, Ho, Hd, crec_ttl_left).
  rewrite Hr in *. rewrite length_rr_record in Hl.
  destruct (answer_adds (crec_ttl now (local_ttl cfg) (entry (acache st) x)) [arg] st1) as (st2 & -> & Ha); [congruence|lia|by rewrite S1|].
  rewrite bind_Val. exists st2. split; [done|].
  rewrite <- (andb_true_r (immune (eflags (acache st) x))).
  refine (adds_trans [] 0 _ (rr_record _ type C_IN _ (rr_data [arg])) 1 true st st1 st2 _ Hs1 Ha). cbn [app]. rewrite length_rr_record. lia.
Qed.
Lemma name_entries_adds name prot s l : ∀ fuel x ans st,
  (length l < fuel)%nat → acache st = s → walk (name_test name prot) s (x :: l) → (∀ y, y ∈ x :: l → positive s y) →
  trunc st = false → nameoffset st = Z.of_nat HEADER_SIZE → (ansp st + length (recs_ s (x :: l)) ≤ limit)%nat → (limit ≤ length (apacket st))%nat →
  ∃ st', name_entries mix_tab cfg alias_word limit local_addr local_netmask now fuel false false false qtype type name prot x ans st = Val (false, true, st') ∧
    adds (recs_ s (x :: l)) (length (x :: l)) (forallb (λ y, immune (eflags s y)) (x :: l)) st st'.
Proof.
  induction l as [|y l IH]; intros [|fuel] x ans st Hf Hc Hw Hp Ht Ho Hl Hm; cbn [length] in Hf; try lia; cbn [name_entries];
    (destruct (name_entry_adds x ans st) as (st1 & -> & Ha); [done|done|rewrite Hc; apply Hp; by constructor| |done|]);
    try (rewrite Hc; unfold address_records in Hl; rewrite bind_cons, length_app in Hl; lia);
    rewrite bind_Val; pose proof Ha as [A1 A2 _ _ A5 (_ & A7 & A8 & _)]; rewrite Hc in *; rewrite A7; erewrite walk_next_name by done; cbn [hd_error].
  - exists st1. split; [done|]. unfold address_records. cbn [mbind list_bind forallb length]. by rewrite app_nil_r, andb_true_r.
  - unfold address_records in Hl. rewrite bind_cons, length_app in Hl.
    destruct (IH fuel y true st1) as (st2 & Hrun & Ha2); [lia|done|apply Hw|intros z Hz; apply Hp; by constructor|congruence|congruence| | |].
    { rewrite A2. unfold address_records. lia. }
    { rewrite A1, length_patch; [done|]. lia. }
    exists st2. split; [done|].
    refine (adds_trans (address_record_of now (local_ttl cfg) type (entry s x)) 1 _ (recs_ s (y :: l)) (length (y :: l)) _ st st1 st2 _ Ha Ha2).
    rewrite length_app. unfold address_records. lia.
Qed.

(** *** The lookup *)
Lemma answers_walk name prot s l : ∀ fuel x,
  walk (name_test name prot) s (x :: l) → (length l < fuel)%nat → answers (cache_find_by_name mix_tab name now prot) fuel (Some x) s = l.
Proof.
  induction l as [|y l IH]; intros [|fuel] x Hw Hf; cbn [length] in Hf; try lia; cbn [answers]; pose proof (find_next mix_tab name now prot x s) as H2;
    pose proof (walk_next_name mix_tab name now prot s x _ Hw) as H1; destruct (cache_find_by_name _ _ _ _ _ s) as [r s2]; cbn [fst snd hd_error] in *; subst; [done|].
  f_equal. apply IH; [apply Hw|lia].
Qed.
Lemma found_run name prot s :
  cinv mix_tab s → strings s → string_ name →
  let l := found mix_tab name now prot s in
  ∃ s', cache_find_by_name mix_tab name now prot None s = (hd_error l, s') ∧ walk (name_test name prot) s' l ∧ (length l < entries_fuel s')%nat ∧
    ∀ x, x ∈ l → ∃ n, entry s' x = with_hnext n (entry s x).
Proof.
  intros Hi Hs Hn. unfold found. cbv zeta. pose proof (find_by_name_listed mix_tab name now prot s Hi Hs Hn) as Hf.
  destruct (cache_find_by_name mix_tab name now prot None s) as [r s'] eqn:Hr. destruct Hf as (_ & (s1 & Hw & Ht) & l & -> & Hwalk & Hl & _).
  assert (Hlen : (length l ≤ length (concat (hash_table s)))%nat).
  { apply chains_length; [apply Hl|]. intros x Hx. by apply (ls_table _ _ _ _ Hl). }
  assert (Ha : answers (cache_find_by_name mix_tab name now prot) (entries_fuel s) None s = l).
  { unfold entries_fuel. cbn [answers]. rewrite Hr. destruct l as [|x l]; cbn [hd_error]; [done|]. f_equal. apply answers_walk; [done|cbn [length] in Hlen; lia]. }
  rewrite Ha. exists s'. split_and!; [done|done|pose proof (ls_count _ _ _ _ Hl); unfold entries_fuel; lia|]. apply (ls_same _ _ _ _ Hl).
Qed.
Lemma record_same n c : address_record_of now (local_ttl cfg) type (with_hnext n c) = address_record_of now (local_ttl cfg) type c.
Proof. by destruct c. Qed.
Lemma records_same s s' l : (∀ x, x ∈ l → ∃ n, entry s' x = with_hnext n (entry s x)) →
  recs_ s' l = recs_ s l ∧ forallb (λ y, immune (eflags s' y)) l = forallb (λ y, immune (eflags s y)) l.
Proof.
  unfold address_records. induction l as [|x l IH]; [done|]. intros Hx. rewrite !bind_cons. cbn [forallb].
  destruct (IH (λ y Hy, Hx y ltac:(by constructor))) as [-> ->]. destruct (Hx x) as [n He]; [by constructor|]. unfold eflags. rewrite He, record_same. done.
Qed.
(** *** The question *)
Lemma chase_adds hops flag name ans st :
  cinv mix_tab (acache st) → strings (acache st) → string_ name → str_at (abuf st) 0 = Val name → opt_localise cfg = false →
  let s := acache st in let l := found mix_tab name now (Z.lor flag F_CNAME) s in
  l ≠ [] → (∀ x, x ∈ l → positive s x) →
  trunc st = false → nameoffset st = Z.of_nat HEADER_SIZE → (ansp st + length (recs_ s l) ≤ limit)%nat → (limit ≤ length (apacket st))%nat →
  ∃ st' s', chase mix_tab cfg alias_word limit local_addr local_netmask now (S hops) false false qtype flag type ans st = Val (Some (true, st')) ∧
    adds (recs_ s l) (length l) (forallb (λ y, immune (eflags s y)) l) (set_acache s' st) st'.
Proof.
  intros Hi Hs Hn Hstr Hloc s l Hne Hp Ht Ho Hl Hm. cbn [chase]. rewrite Hstr, bind_Val.
  destruct (found_run name (Z.lor flag F_CNAME) s Hi Hs Hn) as (s' & Hr & Hw & Hlen & Hsame). fold l in Hr, Hw, Hlen, Hsame. fold s. rewrite Hr.
  destruct (records_same s s' l Hsame) as [Hrec Himm]. rewrite <- Hrec in *. rewrite <- Himm.
  assert (Hp' : ∀ x, x ∈ l → positive s' x).
  { intros x Hx. destruct (Hsame x Hx) as [n He]. destruct (Hp x Hx) as [P1 P2]. unfold positive, eflags in *. rewrite He. done. }
  clear Hrec Himm Hp. destruct l as [|x l]; [done|]. cbn [hd_error]. rewrite Hloc, andb_false_r. cbn [andb].
  destruct (name_entries_adds name (Z.lor flag F_CNAME) s' l (entries_fuel s') x ans (set_acache s' st)) as (st' & -> & Ha);
    [cbn [length] in Hlen; lia|done..|]. rewrite bind_Val. by exists st', s'.
Qed.
End Run.

(** ** The header *)
(** the header of an answer: the identifier, the opcode, rd, cd, ad and the number of
    questions are the query's *)
Definition answered_bytes (id1 id2 b2 b3 qd1 qd2 : Z) (aa : bool) (an : Z) : list Z :=
  [id1; id2; Z.lor (Z.land b2 0x79) (if aa then 0x84 else 0x80); Z.lor (Z.land b3 0x70) 0x80; qd1; qd2] ++ be_store 2 an ++ [0; 0; 0; 0].
Lemma header_bits2 b (aa : bool) : is_u8 b →
  Z.lor (Z.land (Z.lor (Z.land (Z.lor (Z.land b (Z.lxor 128 255)) 128) (Z.lxor 4 255)) (if aa then 4 else 0)) (Z.lxor 2 255)) 0 =
  Z.lor (Z.land b 0x79) (if aa then 0x84 else 0x80).
Proof.
  intros Hb. apply Z.eqb_eq. destruct aa;
    [apply (every_byte (λ b, Z.lor (Z.land (Z.lor (Z.land (Z.lor (Z.land b (Z.lxor 128 255)) 128) (Z.lxor 4 255)) 4) (Z.lxor 2 255)) 0 =? Z.lor (Z.land b 0x79) 0x84)) in Hb
    |apply (every_byte (λ b, Z.lor (Z.land (Z.lor (Z.land (Z.lor (Z.land b (Z.lxor 128 255)) 128) (Z.lxor 4 255)) 0) (Z.lxor 2 255)) 0 =? Z.lor (Z.land b 0x79) 0x80)) in Hb];
    solve [done|by vm_compute].
Qed.
Lemma header_bits3 b : is_u8 b →
  Z.lor (Z.land (Z.lor (Z.land b (Z.lxor 128 255)) 128) (Z.lxor 15 255)) NOERROR = Z.lor (Z.land b 0x70) 0x80.
Proof. intros Hb. rewrite (header_rc b NOERROR); [done|done|]. by constructor. Qed.

Section Header.
Context (id1 id2 b2 b3 qd1 qd2 an1 an2 ns1 ns2 ar1 ar2 : Z) (Hb2 : is_u8 b2) (Hb3 : is_u8 b3).
Abbreviation request_ := (request id1 id2 b2 b3 qd1 qd2 an1 an2 ns1 ns2 ar1 ar2).
Lemma answer_header_run rest st :
  trunc st = false → anscount st ≠ 0 →
  answer_header st (request_ rest) 0 = Val (answered_bytes id1 id2 b2 b3 qd1 qd2 (auth st) (anscount st) ++ rest).
Proof.
  intros Ht Ha. unfold answer_header, request, set_qr, set_aa, set_ra, set_tc, set_rcode, PUTSHORT. rewrite Ht. apply Z.eqb_neq in Ha as ->. cbn [app andb].
  do 5 (erewrite set_field_run by reflexivity; rewrite ?bind_Val; cbn [app insert list_insert]).
  rewrite header_bits2, header_bits3 by done. unfold answered_bytes. change (be_store 2 0) with [0; 0].
  pose proof (length_be_store 2 (anscount st)) as Hl. destruct (be_store 2 (anscount st)) as [|x [|y [|]]]; done.
Qed.
Lemma patch_request p r rest : (12 ≤ p)%nat → patch p r (request_ rest) = request_ (patch (p - 12) r rest).
Proof.
  intros Hp. replace p with (12 + (p - 12))%nat at 1 by lia. generalize (p - 12)%nat. intros q. unfold patch, request. cbn [app take drop Nat.add]. done.
Qed.
End Header.
Lemma wire_after m plen p n ls e t : wire m plen p n ls e t → (p < e)%nat.
Proof. induction 1; lia. Qed.
Lemma additional_none mix_tab cfg limit now l os m p s :
  Forall (λ o, o = 0%nat) os → additional mix_tab cfg limit now l os m p 0 s = Val (m, p, 0, s).
Proof. revert os. induction l as [|r l IH]; intros [|o os] Ho; cbn [additional]; try done. inversion Ho. subst. by apply IH. Qed.

(** A query for the addresses of a name: one question, in class IN, no other records. *)
Record address_query (m : list Z) (qlen : nat) (qtype : Z) (ls : list text) (e : nat) : Prop := {
  aq_qdcount : qdcount m = Val 1;
  aq_opcode : opcode m = Val QUERY;
  aq_arcount : arcount m = Val 0;
  aq_name : accepted m qlen HEADER_SIZE 4 ls e;
  aq_end : (e + 4 ≤ qlen)%nat;
  aq_type : GETSHORT m e = Val qtype;
  aq_class : GETSHORT m (e + 2) = Val C_IN
}.
Lemma query_no_edns cfg m qlen qtype ls e : (qlen ≤ length m)%nat → address_query m qlen qtype ls e → edns_request cfg qlen m = Val (false, false, m).
Proof.
  intros Hm [Q1 Q2 Q3 (n & t & Hw & _) Q5 _ _]. unfold edns_request, find_pseudoheader. rewrite Q3, bind_Val, Q2, bind_Val, Q1. cbn [Z.eqb QUERY].
  pose proof (skip_wire m qlen Hm HEADER_SIZE n ls e t (qlen + 2) Hw ltac:(unfold HEADER_SIZE; lia)) as [_ He].
  assert (HEADER_SIZE ≤ qlen)%nat by (pose proof (wire_after _ _ _ _ _ _ _ Hw); lia).
  destruct (sign_questions_total qlen (Z.to_nat 1) m HEADER_SIZE false) as ([[p|] sg] & Hr & _); [done|done|..]; rewrite bind_Val, Hr, bind_Val; done.
Qed.

Section Served.
Context (mix_tab : list Z) (cfg : config) (get_ifaddr : text → list Z) (inet_addr : text → option (list Z))
  (alias_word : option nat → Z).
Context (limit qlen : nat) (local_addr local_netmask now : Z).
(** The address families: their question type and flag. *)
Definition family (qtype fam : Z) : Prop := qtype = T_A ∧ fam = F_IPV4 ∨ qtype = T_AAAA ∧ fam = F_IPV6.
(** a name that only the cache knows: not a number or the name of an interface *)
Definition cache_only (qtype : Z) (name : text) : Prop :=
  qtype = T_A → inet_addr name = None ∧ ∀ i, i ∈ int_names cfg → hostname_isequal name (in_name i) = false.
Abbreviation recs_ := (address_records now (local_ttl cfg)).

Abbreviation answer_addr_ := (answer_addr mix_tab cfg get_ifaddr inet_addr alias_word limit local_addr local_netmask now).
Abbreviation chase_ := (chase mix_tab cfg alias_word limit local_addr local_netmask now).
Lemma answer_addr_other hops qtype flag ans st :
  qtype ≠ (if flag =? F_IPV6 then T_AAAA else T_A) → qtype ≠ T_ANY → answer_addr_ hops false false qtype flag ans st = Val (Some (ans, st)).
Proof. intros H1%Z.eqb_neq H2%Z.eqb_neq. unfold answer_addr. by rewrite H1, H2. Qed.
Lemma answer_addr_own hops qtype fam name ans st :
  family qtype fam → cache_only qtype name → str_at (abuf st) 0 = Val name →
  ∃ st0, (st0 = st ∨ ∃ a, st0 = set_aaddr a st) ∧ answer_addr_ hops false false qtype fam ans st = chase_ hops false false qtype fam qtype ans st0.
Proof.
  intros Hfam Honly Hstr. unfold answer_addr. rewrite Hstr. destruct Hfam as [[-> ->]|[-> ->]].
  - destruct (Honly eq_refl) as [Hnum Hintr]. eexists. split; [right; by eexists|].
    change (T_A =? (if F_IPV4 =? F_IPV6 then T_AAAA else T_A)) with true. change (T_A =? T_A) with true. cbn [negb andb]. rewrite bind_Val, Hnum.
    destruct (List.find _ _) as [i|] eqn:Hf; [|done]. apply List.find_some in Hf as [Hin He]. rewrite Hintr in He; [done|by apply list_elem_of_In].
  - exists st. split; [by left|]. done.
Qed.
Lemma chase_family hops qtype fam ans st0 r : family qtype fam →
  (if fam =? F_IPV4 then answer_addr_ hops false false qtype F_IPV4 false st0 else answer_addr_ hops false false qtype F_IPV6 false st0) = Val (Some (ans, r)) →
  answer_in mix_tab cfg get_ifaddr inet_addr alias_word limit local_addr local_netmask now hops false false qtype false st0 = Val (Some (ans, r)).
Proof.
  intros Hfam Hr. unfold answer_in. cbv zeta. destruct Hfam as [[-> ->]|[-> ->]].
  - change (F_IPV4 =? F_IPV4) with true in Hr. cbv iota in Hr. cbn [orb Z.eqb T_A T_PTR T_ANY Pos.eqb when]. rewrite bind_Val. cbn [fst snd].
    change (F_IPV4 =? F_IPV6) with false. fold T_A. rewrite Hr, bind_Val. cbn [fst snd]. by rewrite answer_addr_other.
  - change (F_IPV6 =? F_IPV4) with false in Hr. cbv iota in Hr. cbn [orb Z.eqb T_AAAA T_PTR T_ANY Pos.eqb when]. rewrite bind_Val. cbn [fst snd].
    fold T_AAAA. rewrite answer_addr_other by done. rewrite bind_Val. cbn [fst snd]. by rewrite Hr.
Qed.
Lemma answer_in_adds hops qtype fam name st :
  family qtype fam → cache_only qtype name → cinv mix_tab (acache st) → strings (acache st) → string_ name → str_at (abuf st) 0 = Val name →
  opt_localise cfg = false →
  let s := acache st in let l := found mix_tab name now (Z.lor fam F_CNAME) s in
  l ≠ [] → (∀ x, x ∈ l → positive s x) →
  trunc st = false → nameoffset st = Z.of_nat HEADER_SIZE → (ansp st + length (recs_ qtype s l) ≤ limit)%nat → (limit ≤ length (apacket st))%nat →
  ∃ st0 st' s', answer_in mix_tab cfg get_ifaddr inet_addr alias_word limit local_addr local_netmask now (S hops) false false qtype false st = Val (Some (true, st')) ∧
    (st0 = st ∨ ∃ a, st0 = set_aaddr a st) ∧ adds (recs_ qtype s l) (length l) (forallb (λ y, immune (eflags s y)) l) (set_acache s' st0) st'.
Proof.
  intros Hfam Honly Hi Hs Hn Hstr Hloc s l Hne Hp Ht Ho Hl Hm.
  destruct (answer_addr_own (S hops) qtype fam name false st Hfam Honly Hstr) as (st0 & H0 & Hrun).
  assert (H1 : acache st0 = s ∧ abuf st0 = abuf st ∧ trunc st0 = trunc st ∧ nameoffset st0 = nameoffset st ∧ ansp st0 = ansp st ∧ apacket st0 = apacket st).
  { by destruct H0 as [->|[a ->]]. }
  destruct H1 as (E1 & E2 & E3 & E4 & E5 & E6).
  destruct (chase_adds mix_tab cfg alias_word limit local_addr local_netmask now qtype qtype ltac:(destruct Hfam as [[-> _]|[-> _]]; done) hops fam name false st0)
    as (st' & s' & Hc & Ha); rewrite ?E1, ?E2, ?E3, ?E4, ?E5, ?E6 in *; try done.
  exists st0, st', s'. split_and!; [|done|done]. apply (chase_family _ _ fam); [done|]. rewrite <- Hc, <- Hrun.
  by destruct Hfam as [[-> ->]|[-> ->]].
Qed.

Lemma address_answer hops id1 id2 b2 b3 qd1 qd2 an1 an2 ns1 ns2 ar1 ar2 rest name junk s qtype fam ls e :
  let m := request id1 id2 b2 b3 qd1 qd2 an1 an2 ns1 ns2 ar1 ar2 rest in
  is_u8 b2 → is_u8 b3 → (limit ≤ length m)%nat → (qlen ≤ length m)%nat → (MAXDNAME ≤ length name)%nat → cinv mix_tab s → strings s →
  family qtype fam → address_query m qlen qtype ls e → cache_only qtype (join ls) → opt_localise cfg = false →
  let l := found mix_tab (join ls) now (Z.lor fam F_CNAME) s in
  let recs := recs_ qtype s l in
  l ≠ [] → (∀ x, x ∈ l → positive s x) → (e + 4 + length recs ≤ limit)%nat →
  ∃ name' s',
    answer_request mix_tab cfg get_ifaddr inet_addr alias_word limit qlen local_addr local_netmask now (S hops) m name junk s =
    Val (Some (e + 4 + length recs)%nat,
         answered_bytes id1 id2 b2 b3 qd1 qd2 (forallb (λ x, immune (eflags s x)) l) (Z.of_nat (length l)) ++ patch (e + 4 - 12) recs rest, name', s').
Proof.
  intros m Hb2 Hb3 Hlim Hq Hname Hi Hs Hfam Hquery Honly Hloc l recs Hne Hp Hfit. pose proof Hquery as [Q1 Q2 Q3 Q4 Q5 Q6 Q7].
  unfold answer_request. rewrite (query_no_edns cfg m qlen qtype ls e Hq Hquery), bind_Val, Q1, bind_Val, Q2, bind_Val. cbn [Z.eqb orb negb QUERY].
  rewrite bind_Val. unfold answer_pass. cbn [apacket]. rewrite (skip_one m qlen Hq ls e Q1 Q4 Q5), bind_Val. cbn [apacket]. rewrite Q1, bind_Val.
  change (Z.to_nat 1) with 1%nat. cbn [answer_questions apacket set_nameoffset abuf].
  destruct (extract_name_complete m name qlen HEADER_SIZE 4 Hq Hname ls e Q4) as (nm & -> & Hstr & _). rewrite bind_Val. cbn [Z.eqb set_abuf set_nameoffset apacket abuf acache ansp nameoffset trunc anscount auth nxdomain aaddr offsets].
  rewrite Q6, bind_Val, Q7, bind_Val.
  match goal with |- context [when ?c ?f ?r] => assert (when c f r = Val r) as -> by (destruct Hfam as [[-> _]|[-> _]]; done) end.
  rewrite bind_Val. change (C_IN =? C_IN) with true. cbv iota. cbn [fst snd].
  set (st := set_abuf nm _). pose proof Q4 as (n & t & Hw & Hg & _). pose proof (wire_after _ _ _ _ _ _ _ Hw) as Hpos. unfold HEADER_SIZE in Hpos.
  destruct (answer_in_adds hops qtype fam (join ls) st) as (st0 & st' & s' & Hrun & H0 & [A1 A2 A3 A4 A5 (A6 & A7 & A8 & A9 & A10)]);
    [done|done|done|done|by apply join_nonzero|done|done|done|done|done|done|exact Hfit|done|].
  assert (E0 : apacket st0 = m ∧ ansp st0 = (e + 4)%nat ∧ anscount st0 = 0 ∧ auth st0 = true ∧ trunc st0 = false ∧ offsets st0 = ((λ _, 0%nat) <$> mxnames cfg)).
  { by destruct H0 as [->|[a ->]]. }
  destruct E0 as (E1 & E2 & E3 & E4 & E5 & E6). cbn [set_acache apacket ansp anscount auth trunc offsets] in *.
  rewrite Hrun, !bind_Val. cbn [negb answer_questions]. rewrite bind_Val, additional_none, bind_Val.
  2: { rewrite A10, E6. apply Forall_fmap, Forall_true. done. }
  rewrite A1, A2, E1, E2. change (recs_ qtype (acache st) _) with recs. unfold m. rewrite patch_request by lia.
  change (found mix_tab (join ls) now (Z.lor fam F_CNAME) (acache st)) with l in A3, A4. change (acache st) with s in A4.
  rewrite answer_header_run, bind_Val; [|done|done|congruence|].
  2: { rewrite A3, E3. destruct l; [done|cbn [length]; lia]. }
  exists (abuf st'), (acache st'). by rewrite A3, A4, E3, E4.
Qed.
End Served.

(** C6. A client sends a query with one question, for the IPv4 or IPv6 addresses of a
    name in class IN, in any case and however the name is compressed, and no additional
    records (so no EDNS).  The name is, in a question for IPv4, no number and no name of
    an interface (interface-name), queries are not localised (localise-queries is off),
    and the cache knows addresses of the name (from hosts files, leases or replies of
    upstream servers) and no CNAME or negative answer.  The reply, when it fits below
    the limit and the limit within the buffer, is byte for byte the query's header
    turned into a response (the same identifier and opcode, no error, authoritative
    when all the entries are local, as many answers as entries), the question as it was
    asked, and for every entry of the name one record with its address and the time it
    has left: for entries of hosts files and leases the configured time to live, for
    others the time of their end less the present time. *)
Theorem address_question_answered mix_tab cfg get_ifaddr inet_addr alias_word limit qlen local_addr local_netmask now cachesize hops
    id1 id2 b2 b3 qd1 qd2 an1 an2 ns1 ns2 ar1 ar2 rest name junk s qtype fam ls e :
  let m := request id1 id2 b2 b3 qd1 qd2 an1 an2 ns1 ns2 ar1 ar2 rest in
  is_u8 b2 → is_u8 b3 → (limit ≤ length m)%nat → (qlen ≤ length m)%nat → (MAXDNAME ≤ length name)%nat → reachable mix_tab cachesize s →
  family qtype fam → address_query m qlen qtype ls e → cache_only cfg inet_addr qtype (join ls) → opt_localise cfg = false →
  let l := found mix_tab (join ls) now (Z.lor fam F_CNAME) s in
  let recs := address_records now (local_ttl cfg) qtype s l in
  l ≠ [] → (∀ x, x ∈ l → positive s x) → (e + 4 + length recs ≤ limit)%nat →
  ∃ name' s',
    answer_request mix_tab cfg get_ifaddr inet_addr alias_word limit qlen local_addr local_netmask now (S hops) m name junk s =
    Val (Some (e + 4 + length recs)%nat,
         answered_bytes id1 id2 b2 b3 qd1 qd2 (forallb (λ x, immune (eflags s x)) l) (Z.of_nat (length l)) ++ patch (e + 4 - 12) recs rest, name', s').
Proof.
  intros m Hb2 Hb3 Hlim Hq Hname Hr. destruct (reachable_inv _ _ _ Hr) as [Hi Hs]. by apply address_answer.
Qed.
Lemma plain_accepted qtype : accepted (plain_query qtype) 25 HEADER_SIZE 4 [[119; 119; 119]; [97]; [98]] 21.
Proof.
  exists 0%nat, 21%nat. split_and!; [|by repeat constructor|lia|unfold MAXDNAME; cbn; lia|lia]. unfold plain_query, HEADER_SIZE.
  apply (wire_label_eq _ 25 12 3); [done|lia|cbn; lia|done|]. apply (wire_label_eq _ 25 16 1); [done|lia|cbn; lia|done|].
  apply (wire_label_eq _ 25 18 1); [done|lia|cbn; lia|done|]. by apply (wire_end _ 25 20); [|lia].
Qed.
Lemma plain_query_ok : address_query (plain_query T_A) 25 T_A [[119; 119; 119]; [97]; [98]] 21.
Proof. split; try done. apply plain_accepted. Qed.
Definition plain_rest (qtype : Z) : list Z := drop 12 (plain_query qtype).
Lemma example_found : found [] example_name 120 (Z.lor F_IPV4 F_CNAME) example_cache = [0]%nat.
Proof. by vm_compute. Qed.
Lemma address_question_answered_witness :
  let l := found [] example_name 120 (Z.lor F_IPV4 F_CNAME) example_cache in
  let recs := address_records 120 0 T_A example_cache l in
  ∃ name' s',
    answer_request [] plain_config no_ifaddr (λ _, None) (λ _, 0) 512 25 0 0 120 1 (request 0 1 1 0 0 1 0 0 0 0 0 0 (plain_rest T_A)) (repeat 0 1025) [] example_cache =
    Val (Some (25 + length recs)%nat,
         answered_bytes 0 1 1 0 0 1 (forallb (λ x, immune (eflags example_cache x)) l) (Z.of_nat (length l)) ++ patch (21 + 4 - 12) recs (plain_rest T_A), name', s').
Proof.
  apply (address_question_answered [] plain_config no_ifaddr (λ _, None) (λ _, 0) 512 25 0 0 120 3 0 0 1 1 0 0 1 0 0 0 0 0 0 (plain_rest T_A) (repeat 0 1025) []
    example_cache T_A F_IPV4 [[119; 119; 119]; [97]; [98]] 21).
  - unfold is_u8; lia.
  - unfold is_u8; lia.
  - apply Nat.leb_le. by vm_compute.
  - apply Nat.leb_le. by vm_compute.
  - rewrite repeat_length. unfold MAXDNAME. lia.
  - apply example_reachable.
  - by left.
  - apply plain_query_ok.
  - intros _. split; [done|]. by intros i ?%not_elem_of_nil.
  - done.
  - change (join [[119; 119; 119]; [97]; [98]]) with example_name. by rewrite example_found.
  - change (join [[119; 119; 119]; [97]; [98]]) with example_name. rewrite example_found. intros x ->%list_elem_of_singleton. split; by vm_compute.
  - change (join [[119; 119; 119]; [97]; [98]]) with example_name. rewrite example_found. apply Nat.leb_le. by vm_compute.
Defined.

Lemma learnt_entry mix_tab cachesize s s1 room name asked a rest now ttl now' qtype fam new :
  reachable mix_tab cachesize s → string_ name → string_ asked → map fold asked = map fold name → family qtype fam →
  length a = (if qtype =? T_A then 4%nat else 16%nat) →
  cache_insert mix_tab room (Some name) (Some (a ++ rest)) now ttl (Z.lor fam F_FORWARD) (cache_start_insert s) = (Some new, s1) →
  now' < now + ttl →
  let s2 := cache_end_insert mix_tab s1 in
  found mix_tab asked now' (Z.lor fam F_CNAME) s2 = [new] ∧ positive s2 new ∧ immune (eflags s2 new) = false ∧
  ∀ local_ttl, address_record_of now' local_ttl qtype (entry s2 new) = rr_record (Z.of_nat HEADER_SIZE) qtype C_IN (now + ttl - now') a.
Proof.
  intros Hr Hn Ha Heq Hfam Hlen Hins Hnow s2.
  assert (Hfl : immune (Z.lor fam F_FORWARD) = false ∧ has (Z.lor fam F_FORWARD) F_FORWARD = true ∧ has (Z.lor fam F_FORWARD) F_CNAME = false ∧
    has (Z.lor fam F_FORWARD) F_NEG = false ∧ has (Z.lor fam F_FORWARD) (Z.lor F_IMMORTAL F_DHCP) = false ∧ has (Z.lor fam F_FORWARD) fam = true ∧ (fam = F_IPV4 ∨ fam = F_IPV6)).
  { destruct Hfam as [[_ ->]|[_ ->]]; split_and!; try done; [by left|by right]. }
  destruct Hfl as (F1 & F2 & F3 & F4 & F5 & F6 & F7).
  assert (Hask : ∀ fuel, (1 < fuel)%nat → _) by (intros fuel; exact (insert_ask mix_tab cachesize s s1 room name asked (a ++ rest) now ttl (Z.lor fam F_FORWARD) now' fam
    (Z.lor fam F_CNAME) new fuel Hr Hn Ha Heq F1 F2 F3 F7 (or_intror eq_refl) F6 Hins Hnow)).
  destruct (Hask 2%nat ltac:(lia)) as (_ & (u & f & He & Hf) & Hin). fold s2 in He, Hin.
  assert (Hfuel : (1 < entries_fuel s2)%nat).
  { unfold entries_fuel. apply in_tbl_concat in Hin. destruct (concat (hash_table s2)); [by apply not_elem_of_nil in Hin|cbn; lia]. }
  destruct (Hask _ Hfuel) as (Hfound & _). unfold positive, immune, eflags. rewrite He. cbn [flags].
  split_and!; [done|by rewrite Hf|by rewrite Hf|by rewrite Hf|]. intros local_ttl. unfold address_record_of. rewrite <- crec_ttl_left. unfold crec_ttl. cbn [flags ttd addr addr_bytes].
  rewrite Hf by done. rewrite F5, <- Hlen, take_app_length. done.
Qed.

(** C3. From the wire to the client.  A reply of an upstream server that answers its one
    question with one address is learnt, and the next client that asks for the name,
    in any case of its letters, before the time to live is over gets from the cache
    a reply, not authoritative, with exactly that address and the time it has left.
    What this asks for: no hosts file and no lease has the name; the cache has
    entries, and the one at the end of its list of use is free, has expired or can be
    evicted (it is for an address or an alias and no hosts file and no lease has its
    name); a name that does not fit in an entry finds memory; no answers are doctored
    (no --alias rules), and with stop-dns-rebind the address is no private one; queries
    are not localised (localise-queries is off); the client's query has one question
    and no additional records (no EDNS); the name is, in a question for IPv4, no
    number and no name of an interface; and the reply fits below the limit. *)
Theorem learnt_then_answered mix_tab (room : cache → bool) neg_ttl (no_neg no_rebind : bool) cfg get_ifaddr inet_addr alias_word limit qlen
    local_addr local_netmask now now' ttl qtype fam rlen cachesize hops (rjunk rm rname a : list Z) (ls ls' : list text) (s : cache)
    id1 id2 b2 b3 qd1 qd2 an1 an2 ns1 ns2 ar1 ar2 rest name junk e :
  let m := request id1 id2 b2 b3 qd1 qd2 an1 an2 ns1 ns2 ar1 ar2 rest in
  reachable mix_tab cachesize s → family qtype fam → length a = (if qtype =? T_A then 4%nat else 16%nat) →
  (rlen ≤ length rm)%nat → (MAXDNAME ≤ length rname)%nat → address_packet rm rlen qtype ls ttl a →
  no_rebind && has fam F_IPV4 && private_net (le_load (take 4 a)) = false →
  unclaimed (join ls) s → name_room (room (cache_start_insert s)) (join ls) s → (∃ x, last (lru s) = Some x ∧ evictable now s x) →
  now' < now + ttl →
  is_u8 b2 → is_u8 b3 → (limit ≤ length m)%nat → (qlen ≤ length m)%nat → (MAXDNAME ≤ length name)%nat →
  address_query m qlen qtype ls' e → map fold (join ls') = map fold (join ls) → cache_only cfg inet_addr qtype (join ls') → opt_localise cfg = false →
  (e + 16 + length a ≤ limit)%nat →
  ∃ st name' s',
    extract_addresses mix_tab room [] neg_ttl no_neg no_rebind now rlen rjunk rm rname s = Val (0, st) ∧
    answer_request mix_tab cfg get_ifaddr inet_addr alias_word limit qlen local_addr local_netmask now' (S hops) m name junk (dns_cache st) =
    Val (Some (e + 16 + length a)%nat,
         answered_bytes id1 id2 b2 b3 qd1 qd2 false 1 ++ patch (e + 4 - 12) (rr_record (Z.of_nat HEADER_SIZE) qtype C_IN (now + ttl - now') a) rest, name', s').
Proof.
  intros m Hr Hfam Hlen Hrl Hrn Hpkt Hpriv Hun Hroom Hend Hnow Hb2 Hb3 Hlim Hq Hname Hquery Heq Honly Hloc Hfit.
  pose proof Hpkt as [_ _ _ _ (e0 & _ & _ & (_ & _ & _ & Hg & _) & _)]. destruct (reachable_inv _ _ _ Hr) as [Hi0 Hs0].
  destruct (cache_insert_succeeds mix_tab (room (cache_start_insert s)) (join ls) (patch 0 a rjunk) now ttl (Z.lor fam F_FORWARD) s) as (new & s1 & Hins);
    [done|done|by apply join_nonzero|by destruct Hfam as [[_ ->]|[_ ->]]|done..|].
  assert (Hpatch : patch 0 a rjunk = a ++ drop (length a) rjunk) by done.
  destruct (extract_one_address mix_tab room neg_ttl no_neg no_rebind now rlen rjunk rm rname a s qtype ls ttl fam new s1) as (st & He & Hst);
    [done|done| |done| |done|].
  { destruct Hfam as [[-> ->]|[-> ->]]; [left|right]; done. }
  { rewrite Hpatch, take_app_le; [done|]. destruct (qtype =? T_A); lia. }
  rewrite Hpatch in Hins. pose proof (aq_name _ _ _ _ _ Hquery) as (_ & _ & _ & Hg' & _).
  destruct (learnt_entry mix_tab cachesize s s1 (room (cache_start_insert s)) (join ls) (join ls') a (drop (length a) rjunk) now ttl now' qtype fam new)
    as (Hfound & Hpos & Himm & Hrec); [done|by apply join_nonzero|by apply join_nonzero|done..|]. rewrite <- Hst in Hfound, Hpos, Himm, Hrec.
  assert (Hi : cinv mix_tab (dns_cache st) ∧ strings (dns_cache st)).
  { apply (reachable_inv mix_tab cachesize). rewrite Hst. eapply rtc_r; [|apply End_].
    replace s1 with (cache_insert mix_tab (room (cache_start_insert s)) (Some (join ls)) (Some (a ++ drop (length a) rjunk)) now ttl (Z.lor fam F_FORWARD) (cache_start_insert s)).2 by (by rewrite Hins).
    eapply rtc_r; [eapply rtc_r; [exact Hr|apply Start]|apply Insert; [| |by apply join_nonzero]]; by destruct Hfam as [[_ ->]|[_ ->]]. }
  assert (Hrecs : address_records now' (local_ttl cfg) qtype (dns_cache st) [new] = rr_record (Z.of_nat HEADER_SIZE) qtype C_IN (now + ttl - now') a).
  { unfold address_records. cbn [mbind list_bind]. by rewrite app_nil_r, Hrec. }
  destruct (address_answer mix_tab cfg get_ifaddr inet_addr alias_word limit qlen local_addr local_netmask now' hops id1 id2 b2 b3 qd1 qd2 an1 an2 ns1 ns2 ar1 ar2 rest
    name junk (dns_cache st) qtype fam ls' e) as (name' & s' & Hrun); try apply Hi; try done.
  { by rewrite Hfound. }
  { intros x. rewrite Hfound. by intros ->%list_elem_of_singleton. }
  { rewrite Hfound, Hrecs, length_rr_record. lia. }
  exists st, name', s'. split; [done|]. fold m in Hrun. rewrite Hrun, Hfound, Hrecs, length_rr_record. cbn [forallb length]. rewrite Himm.
  by replace (e + 4 + (12 + length a))%nat with (e + 16 + length a)%nat by lia.
Qed.
(** the name of [sample_reply] with a capital letter *)
Definition capital_rest : list Z := [1; 65; 1; 98; 0; 0; 1; 0; 1] ++ repeat 0 30.
Lemma capital_query : address_query (request 0 1 1 0 0 1 0 0 0 0 0 0 capital_rest) 21 T_A [[65]; [98]] 17.
Proof.
  split; try done. exists 0%nat, 17%nat. split_and!; [|by repeat constructor|lia|unfold MAXDNAME; cbn; lia|lia]. unfold HEADER_SIZE.
  apply (wire_label_eq _ 21 12 1); [done|lia|cbn; lia|done|]. apply (wire_label_eq _ 21 14 1); [done|lia|cbn; lia|done|].
  by apply (wire_end _ 21 16); [|lia].
Qed.
Lemma learnt_then_answered_witness :
  ∃ st name' s',
    extract_addresses [] (λ _, true) [] 0 false true 100 37 [] (sample_reply [1; 2; 3; 4]) (repeat 0 1025) example_cache = Val (0, st) ∧
    answer_request [] plain_config no_ifaddr (λ _, None) (λ _, 0) 50 21 0 0 120 1 (request 0 1 1 0 0 1 0 0 0 0 0 0 capital_rest) (repeat 0 1025) [] (dns_cache st) =
    Val (Some 37%nat, answered_bytes 0 1 1 0 0 1 false 1 ++ patch 9 (rr_record 12 T_A C_IN 40 [1; 2; 3; 4]) capital_rest, name', s').
Proof.
  eapply (learnt_then_answered [] (λ _, true) 0 false true plain_config no_ifaddr (λ _, None) (λ _, 0) 50 21 0 0 100 120 60 T_A F_IPV4 37 3 0 []
    (sample_reply [1; 2; 3; 4]) (repeat 0 1025) [1; 2; 3; 4] [[97]; [98]] [[65]; [98]] example_cache 0 1 1 0 0 1 0 0 0 0 0 0 capital_rest (repeat 0 1025) [] 17).
  - apply example_reachable.
  - by left.
  - done.
  - apply Nat.leb_le. by vm_compute.
  - by rewrite repeat_length.
  - apply sample_packet.
  - done.
  - apply unclaimed_ok. by vm_compute.
  - left. apply Nat.ltb_lt. by vm_compute.
  - exists 1%nat. split; [by vm_compute|]. left. by vm_compute.
  - lia.
  - unfold is_u8. lia.
  - unfold is_u8. lia.
  - apply Nat.leb_le. by vm_compute.
  - apply Nat.leb_le. by vm_compute.
  - by rewrite repeat_length.
  - apply capital_query.
  - done.
  - intros _. split; [done|]. by intros i ?%not_elem_of_nil.
  - done.
  - cbn [length]. lia.
Defined.

(** ** A query that is never answered
    An alias of the configuration whose target is itself (cname=a,a) for a name of a
    hosts file: the CNAME of the name leads to the name.  [hops] restarts are never
    enough, answer_request does not return. *)
Abbreviation alias_cache :=
  (hcache (cache_reload [] example_addr (λ _, None) (λ _, true) true [([97], [97])] [] None false
     (Some (Some (print_hosts [([49; 46; 50], [[97]])]))) [] 3 (mk_hosts (cache_init [] 3) [] [Some 10; Some 11; Some 12]%nat))).
Definition alias_query : list Z :=
  [0; 1; 1; 0; 0; 1; 0; 0; 0; 0; 0; 1; 1; 97; 0; 0; 28; 0; 1; 0; 0; 41; 4; 208; 0; 0; 0; 0; 0; 0] ++ repeat 0 1600.
Definition alias_start : ans_state :=
  mk_ans alias_query ([97; 0] ++ repeat 0 1023) alias_cache 19 12 false 0 true false [] [].
Abbreviation alias_chase := (λ hops, chase [] plain_config (λ _, 0) 512 0 0 120 hops true false T_AAAA F_IPV6 T_AAAA false).
(** one turn of the loop *)
Definition alias_turn (st : ans_state) : ans_state :=
  match cache_find_by_name [] [97] 120 (Z.lor F_IPV6 F_CNAME) None (acache st) with
  | (Some id, s) =>
      match name_entries [] plain_config (λ _, 0) 512 0 0 120 (entries_fuel s) true false false T_AAAA T_AAAA [97] (Z.lor F_IPV6 F_CNAME) id false (set_acache s st) with
      | Val (true, false, st') => st'
      | _ => st
      end
  | _ => st
  end.
Definition alias_round : ans_state := Eval vm_compute in alias_turn alias_start.
Lemma alias_step st h :
  str_at (abuf st) 0 = Val [97] →
  match cache_find_by_name [] [97] 120 (Z.lor F_IPV6 F_CNAME) None (acache st) with
  | (Some id, s) =>
      name_entries [] plain_config (λ _, 0) 512 0 0 120 (entries_fuel s) true false false T_AAAA T_AAAA [97] (Z.lor F_IPV6 F_CNAME) id false (set_acache s st) =
      Val (true, false, alias_round)
  | _ => False
  end →
  alias_chase (S h) st = alias_chase h alias_round.
Proof.
  intros Hs. cbn [chase]. rewrite Hs, bind_Val. destruct (cache_find_by_name _ _ _ _ _ _) as [[id|] s]; [|done]. cbn [Z.eqb negb andb]. intros ->.
  by rewrite bind_Val.
Qed.
Lemma alias_forever h st : st = alias_start ∨ st = alias_round → alias_chase h st = Val None.
Proof.
  revert st. induction h as [|h IH]; [done|]. intros st Hst.
  rewrite (alias_step st h); [by apply IH; right| |]; destruct Hst as [->| ->]; vm_compute; reflexivity.
Qed.
(** a query for an IPv6 address with a pseudo header, by the chase of its name *)
Lemma dry_run_hangs cfg get_ifaddr inet_addr alias_word limit qlen local_addr local_netmask now mix_tab hops m name junk s m1 e p nm t sec :
  edns_request cfg qlen m = Val (true, sec, m1) → qdcount m1 = Val 1 → opcode m1 = Val QUERY → skip_questions m1 qlen = Val (Some e) →
  extract_name m1 qlen HEADER_SIZE name true 4 = Val (1, p, nm) → GETSHORT m1 p = Val T_AAAA → GETSHORT m1 (p + 2) = Val C_IN → str_at nm 0 = Val t →
  chase mix_tab cfg alias_word limit local_addr local_netmask now hops true sec T_AAAA F_IPV6 T_AAAA false
    (mk_ans m1 nm s e (Z.of_nat HEADER_SIZE) false 0 true false junk ((λ _, 0%nat) <$> mxnames cfg)) = Val None →
  ∃ m' name' s',
    answer_request mix_tab cfg get_ifaddr inet_addr alias_word limit qlen local_addr local_netmask now hops m name junk s = Val (None, m', name', s').
Proof.
  intros H1 H2 H3 H4 H5 H6 H7 H8 H9. unfold answer_request. rewrite H1, bind_Val, H2, bind_Val, H3, bind_Val. cbn [Z.eqb orb negb QUERY].
  unfold answer_pass. cbn [apacket]. rewrite H4, bind_Val. cbn [apacket]. rewrite H2, bind_Val. change (Z.to_nat 1) with 1%nat.
  cbn [answer_questions apacket set_nameoffset abuf]. rewrite H5, bind_Val.
  cbn [Z.eqb set_abuf set_nameoffset apacket]. rewrite H6, bind_Val, H7, bind_Val.
  match goal with |- context [when ?c ?f ?r] => change (when c f r) with (Val r) end. rewrite bind_Val. change (C_IN =? C_IN) with true. cbv iota. cbn [fst snd].
  set (st := set_abuf nm _). assert (Ha : answer_in mix_tab cfg get_ifaddr inet_addr alias_word limit local_addr local_netmask now hops true sec T_AAAA false st = Val None).
  { unfold answer_in. cbv zeta. match goal with |- context [when ?c ?f ?r] => change (when c f r) with (Val r) end. rewrite bind_Val. cbn [fst snd].
    replace (answer_addr mix_tab cfg get_ifaddr inet_addr alias_word limit local_addr local_netmask now hops true sec T_AAAA F_IPV4 false st) with (Val (Some (false, st))) by done.
    rewrite bind_Val. cbn [fst snd].
    assert (answer_addr mix_tab cfg get_ifaddr inet_addr alias_word limit local_addr local_netmask now hops true sec T_AAAA F_IPV6 false st = Val None) as ->; [|done].
    unfold answer_addr. change (T_AAAA =? (if F_IPV6 =? F_IPV6 then T_AAAA else T_A)) with true. change (abuf st) with nm. cbn [negb andb]. rewrite H8, bind_Val. exact H9. }
  rewrite Ha, !bind_Val. by eexists _, _, _.
Qed.
(** no number of restarts is enough *)
Theorem alias_of_itself_hangs hops :
  ∃ m' name' s',
    answer_request [] plain_config no_ifaddr (λ _, None) (λ _, 0) 512 30 0 0 120 hops alias_query (repeat 0 1025) [] alias_cache = Val (None, m', name', s').
Proof.
  eapply (dry_run_hangs plain_config no_ifaddr (λ _, None) (λ _, 0) 512 30 0 0 120 [] hops alias_query (repeat 0 1025) [] alias_cache alias_query 19 15
    ([97; 0] ++ repeat 0 1023) [97] false); [by vm_compute..|].
  apply (alias_forever hops alias_start). by left.
Qed.

(** ** A query that overruns the packet
    With the default options the buffer of the daemon has room for a packet of
    512 bytes and the largest record (DNSMASQ_PACKETSZ), but a query may be as long as
    edns_pktsz, 1280 bytes, and the records go behind its questions: with the reverse
    lookup of an address whose name is long, the answer is written past the end. *)
Definition long_name : text := repeat 97 600.
Definition long_cache : cache :=
  cache_end_insert [] (cache_insert [] true (Some long_name) (Some [1; 2; 3; 4]) 100 60 (Z.lor F_REVERSE F_IPV4) (cache_start_insert (cache_init [] 20))).2.
Definition long_query : list Z :=
  [0; 1; 1; 0; 0; 249; 0; 0; 0; 0; 0; 0; 1; 52; 1; 51; 1; 50; 1; 49] ++ (7 :: codes "in-addr") ++ (4 :: codes "arpa") ++ [0; 0; 12; 0; 1] ++
  concat (repeat [0; 0; 1; 0; 1] 248).
Definition packet_buff_sz : nat := (512 + MAXDNAME + 10)%nat.
Example reply_overruns_packet :
  (length long_query ≤ 1280)%nat ∧
  answer_request [] plain_config no_ifaddr (λ _, None) (λ _, 0) 512 (length long_query) 0 0 120 1
    (long_query ++ repeat 0 (packet_buff_sz - length long_query)) (repeat 0 1025) (repeat 0 16) long_cache = UB.
Proof. split; [apply Nat.leb_le|]; by vm_compute. Qed.
End DnsServe.
