(* ===== verification/DnsForward.v ===== *)
(** * Forwarding (src/external/dnsmasq/src/forward.c)

    Queries that are not answered from the cache go to the upstream servers and their
    replies back to the clients.  The state of the daemon that takes part is the record
    [daemon]; a server, a record of a query that is under way (frec) and a random socket
    are places in the lists of the daemon, a record of a query never leaves its list.
    The calls into the kernel and the allocator are [fcall]; so is rand16, whose numbers
    are arbitrary here, and retry_send, which says whether a failed call is to be made
    again.  The packet received is an argument of the functions that receive it.  A loop
    that may go on for ever has a number of turns [tries] and gives [None] when they do
    not suffice. *)
From stdpp Require Import gmap sorting.
From S2P Require Import Prelude Runtime DriverRt DnsUtil DnsName DnsMsg DnsCache DnsCacheInv DnsCacheSpec DnsReply DnsAnswer.
Import DnsUtil DnsName DnsMsg DnsCache DnsCacheInv DnsCacheSpec DnsReply DnsAnswer.

Module DnsForward.
Definition SERV_NO_ADDR : Z := 2.
Definition SERV_LITERAL_ADDRESS : Z := 4.
Definition SERV_HAS_DOMAIN : Z := 8.
Definition SERV_FOR_NODOTS : Z := 32.
Definition SERV_WARNED_RECURSIVE : Z := 64.
Definition SERV_TYPE : Z := Z.lor SERV_HAS_DOMAIN SERV_FOR_NODOTS.
Definition TIMEOUT : Z := 10.
Definition FORWARD_TEST : Z := 50.
Definition FORWARD_TIME : Z := 10.
Definition RANDOM_SOCKS : nat := 64.
Definition AF_INET : Z := 2.
Definition AF_INET6 : Z := 10.

Record randfd := mk_randfd { rfd_fd : Z; refcount : Z; rfd_family : Z }.
(** [sfd]: the socket bound for the server, [None] for a random one *)
Record server := mk_server { sv_addr : mysockaddr; sfd : option Z; sv_domain : option text; sv_flags : Z; sv_mark : Z;
  queries : Z; failed_queries : Z }.
Record frec := mk_frec { source : mysockaddr; dest : list Z; sentto : option nat; rfd4 : option nat; rfd6 : option nat;
  fr_iface : Z; orig_id : Z; new_id : Z; fr_fd : Z; forwardall : Z; crc : Z; fr_time : Z }.
Definition frec0 : frec := mk_frec (SaOther 0) [] None None None 0 0 0 0 0 0 0.

Inductive fcall :=
| RandomSock (family : Z)
| CloseSock (fd : Z)
| SetMark (fd mark : Z)
| SendTo (fd : Z) (data : list Z) (to : mysockaddr)
| SendMsg (fd : Z) (data : list Z) (to : mysockaddr) (control : option (list Z * Z))
| Errno
| RetrySend
| Rand16
| MallocFrec
| MallocPacket
| TcpSocket (family : Z)
| TcpBind (fd : Z)
| TcpConnect (fd : Z) (to : mysockaddr)
| TcpClose (fd : Z)
| TcpRead (fd : Z) (n : nat)
| TcpWrite (fd : Z) (data : list Z).

Record daemon := mk_daemon {
  d_packet : list Z; namebuff : list Z; d_cache : cache; servers : list server; last_server : option nat; frecs : list frec;
  randomsocks : list randfd; finger : nat; forwardcount : Z; forwardtime : Z; srv_save : option nat; packet_len : nat;
  rfd_save : option nat
}.
Definition set_packet x d := mk_daemon x (namebuff d) (d_cache d) (servers d) (last_server d) (frecs d) (randomsocks d) (finger d)
  (forwardcount d) (forwardtime d) (srv_save d) (packet_len d) (rfd_save d).
Definition set_namebuff x d := mk_daemon (d_packet d) x (d_cache d) (servers d) (last_server d) (frecs d) (randomsocks d) (finger d)
  (forwardcount d) (forwardtime d) (srv_save d) (packet_len d) (rfd_save d).
Definition set_dcache x d := mk_daemon (d_packet d) (namebuff d) x (servers d) (last_server d) (frecs d) (randomsocks d) (finger d)
  (forwardcount d) (forwardtime d) (srv_save d) (packet_len d) (rfd_save d).
Definition set_servers x d := mk_daemon (d_packet d) (namebuff d) (d_cache d) x (last_server d) (frecs d) (randomsocks d) (finger d)
  (forwardcount d) (forwardtime d) (srv_save d) (packet_len d) (rfd_save d).
Definition set_last_server x d := mk_daemon (d_packet d) (namebuff d) (d_cache d) (servers d) x (frecs d) (randomsocks d) (finger d)
  (forwardcount d) (forwardtime d) (srv_save d) (packet_len d) (rfd_save d).
Definition set_frecs x d := mk_daemon (d_packet d) (namebuff d) (d_cache d) (servers d) (last_server d) x (randomsocks d) (finger d)
  (forwardcount d) (forwardtime d) (srv_save d) (packet_len d) (rfd_save d).
Definition set_randomsocks x d := mk_daemon (d_packet d) (namebuff d) (d_cache d) (servers d) (last_server d) (frecs d) x (finger d)
  (forwardcount d) (forwardtime d) (srv_save d) (packet_len d) (rfd_save d).
Definition set_finger x d := mk_daemon (d_packet d) (namebuff d) (d_cache d) (servers d) (last_server d) (frecs d) (randomsocks d) x
  (forwardcount d) (forwardtime d) (srv_save d) (packet_len d) (rfd_save d).
Definition set_forward_test x y d := mk_daemon (d_packet d) (namebuff d) (d_cache d) (servers d) (last_server d) (frecs d) (randomsocks d) (finger d)
  x y (srv_save d) (packet_len d) (rfd_save d).
Definition set_saved x y d := mk_daemon (d_packet d) (namebuff d) (d_cache d) (servers d) (last_server d) (frecs d) (randomsocks d) (finger d)
  (forwardcount d) (forwardtime d) x y (rfd_save d).
Definition set_rfd_save x d := mk_daemon (d_packet d) (namebuff d) (d_cache d) (servers d) (last_server d) (frecs d) (randomsocks d) (finger d)
  (forwardcount d) (forwardtime d) (srv_save d) (packet_len d) x.

Definition set_sentto v f := mk_frec (source f) (dest f) v (rfd4 f) (rfd6 f) (fr_iface f) (orig_id f) (new_id f) (fr_fd f) (forwardall f) (crc f) (fr_time f).
Definition set_rfd4 v f := mk_frec (source f) (dest f) (sentto f) v (rfd6 f) (fr_iface f) (orig_id f) (new_id f) (fr_fd f) (forwardall f) (crc f) (fr_time f).
Definition set_rfd6 v f := mk_frec (source f) (dest f) (sentto f) (rfd4 f) v (fr_iface f) (orig_id f) (new_id f) (fr_fd f) (forwardall f) (crc f) (fr_time f).
Definition set_forwardall v f := mk_frec (source f) (dest f) (sentto f) (rfd4 f) (rfd6 f) (fr_iface f) (orig_id f) (new_id f) (fr_fd f) v (crc f) (fr_time f).
Definition set_time v f := mk_frec (source f) (dest f) (sentto f) (rfd4 f) (rfd6 f) (fr_iface f) (orig_id f) (new_id f) (fr_fd f) (forwardall f) (crc f) v.
Definition set_query src dst ifc oid nid fd c f := mk_frec src dst (sentto f) (rfd4 f) (rfd6 f) ifc oid nid fd 0 c (fr_time f).

(** The options and lists of the daemon beside those of [config]; [room]: the memory
    for the names of the cache, [prettyprint_addr]: the text of an address. *)
Record fwd_config := mk_fwd_config {
  ftabsize : Z; opt_nodots_local : bool; opt_order : bool; opt_all_servers : bool; opt_nowild : bool; opt_log : bool;
  bogus_addr : list (list Z); fwd_doctors : list doctor; fwd_neg_ttl : Z; opt_no_neg : bool; opt_no_rebind : bool;
  room : cache → bool; prettyprint_addr : mysockaddr → text
}.

(** ** The servers for a name *)
Definition sa_bytes (a : mysockaddr) : list Z := match a with Sin _ x => le_store 4 x | Sin6 _ b _ => b | SaOther _ => [] end.
Definition sflag (a : mysockaddr) : Z := match a with Sin _ _ => F_IPV4 | _ => F_IPV6 end.
(** flags, *type, *domain, *addrpp and matchlen of search_servers *)
Record search := mk_search { s_flags : Z; s_type : Z; s_domain : option text; s_addr : option (list Z); matchlen : nat }.
Definition search_literal (qtype : Z) (sv : server) (r : search) : search :=
  if has (sv_flags sv) SERV_NO_ADDR then mk_search F_NXDOMAIN (s_type r) (s_domain r) (s_addr r) (matchlen r)
  else if has (sv_flags sv) SERV_LITERAL_ADDRESS then
    if has (sflag (sv_addr sv)) qtype then mk_search (sflag (sv_addr sv)) (s_type r) (s_domain r) (Some (sa_bytes (sv_addr sv))) (matchlen r)
    else if (s_flags r =? 0) || has (s_flags r) F_NXDOMAIN then mk_search F_NOERR (s_type r) (s_domain r) (s_addr r) (matchlen r)
    else r
  else r.
Definition no_dots (name : text) : bool := forallb (λ c, negb (c =? chr ".")) name && (0 <? length name)%nat.
(** a domain of a server that the name ends in, at a label or where the domain has its
    own dot *)
Definition domain_matches (name domain : text) : bool :=
  let n := (length name - length domain)%nat in
  (length domain <=? length name)%nat && hostname_isequal (drop n name) domain &&
  ((length domain =? 0)%nat || (length name =? length domain)%nat || (head domain =? chr ".") || (nth (n - 1) name 0 =? chr ".")).
Definition search_step (qtype : Z) (name : text) (sv : server) (r : search) : outcome search :=
  if has (sv_flags sv) SERV_FOR_NODOTS && negb (s_type r =? SERV_HAS_DOMAIN) && no_dots name then
    Val (search_literal qtype sv (mk_search (s_flags r) SERV_FOR_NODOTS (s_domain r) (s_addr r) (matchlen r)))
  else if has (sv_flags sv) SERV_HAS_DOMAIN then
    match sv_domain sv with
    | None => UB
    | Some domain =>
        Val (if domain_matches name domain && (matchlen r <=? length domain)%nat
             then search_literal qtype sv (mk_search (s_flags r) SERV_HAS_DOMAIN (Some domain) (s_addr r) (length domain))
             else r)
    end
  else Val r.
Fixpoint search_loop (qtype : Z) (name : text) (l : list server) (r : search) : outcome search :=
  match l with [] => Val r | sv :: l' => r ← search_step qtype name sv r; search_loop qtype name l' r end.

Section Forward.
Context `{W : World fcall}.
Context (mix_tab : list Z) (cfg : config) (fcfg : fwd_config).
Abbreviation F := (IO fcall daemon).

(** ** Records of queries *)
Definition the_frec (p : nat) : F frec := kderef (λ d, frecs d !! p).
Definition upd_frec (p : nat) (g : frec → frec) : F unit := kmod (λ d, set_frecs (alter g p (frecs d)) d).
Definition the_server (i : nat) : F server := kderef (λ d, servers d !! i).
Definition upd_server (i : nat) (g : server → server) : F unit := kmod (λ d, set_servers (alter g i (servers d)) d).
(** the list from its head on, the newest record *)
Definition frec_order (d : daemon) : list nat := reverse (seq 0 (length (frecs d))).
Definition frec_at (d : daemon) (p : nat) : frec := default frec0 (frecs d !! p).

Definition allocate_frec (now : Z) : F (option nat) :=
  r ← kret MallocFrec;
  if r =? 0 then mret None else
  n ← kget (λ d, length (frecs d));
  kmod (λ d, set_frecs (frecs d ++ [set_time now frec0]) d) ;;
  mret (Some n).
(** if (r && --(r->refcount) == 0) close(r->fd) *)
Definition drop_rfd (r : option nat) : F unit :=
  match r with
  | None => mret tt
  | Some j =>
      sk ← kderef (λ d, randomsocks d !! j);
      let n := u16 (refcount sk - 1) in
      kmod (λ d, set_randomsocks (<[j := mk_randfd (rfd_fd sk) n (rfd_family sk)]> (randomsocks d)) d) ;;
      kwhen (n =? 0) (kdo (CloseSock (rfd_fd sk)))
  end.
Definition free_frec (p : nat) : F unit :=
  f ← the_frec p;
  drop_rfd (rfd4 f) ;;
  upd_frec p (λ f, set_sentto None (set_rfd4 None f)) ;;
  drop_rfd (rfd6 f) ;;
  upd_frec p (set_rfd6 None).
Definition free_slot (socks : list randfd) : option nat := fst <$> list_find (λ sk, refcount sk = 0) socks.
(** the second loop: the first socket of the family from finger on *)
Definition shared_slot (family : Z) (fing : nat) (socks : list randfd) : option nat :=
  List.find (λ j, match socks !! j with
    | Some sk => negb (refcount sk =? 0) && (rfd_family sk =? family) && negb (refcount sk =? 0xffff) | None => false end)
    ((λ i, (i + fing) mod RANDOM_SOCKS)%nat <$> seq 0 RANDOM_SOCKS).
Definition share_rfd (family : Z) : F (option nat) :=
  j ← kget (λ d, shared_slot family (finger d) (randomsocks d));
  match j with
  | None => mret None
  | Some j =>
      kmod (set_finger j) ;;
      kmod (λ d, set_randomsocks (alter (λ sk, mk_randfd (rfd_fd sk) (refcount sk + 1) (rfd_family sk)) j (randomsocks d)) d) ;;
      mret (Some j)
  end.
Definition allocate_rfd (family : Z) : F (option nat) :=
  i ← kget (λ d, free_slot (randomsocks d));
  match i with
  | None => share_rfd family
  | Some i =>
      fd ← kret (RandomSock family);
      if fd =? -1 then
        kmod (λ d, set_randomsocks (alter (λ sk, mk_randfd fd (refcount sk) (rfd_family sk)) i (randomsocks d)) d) ;;
        share_rfd family
      else
        kmod (λ d, set_randomsocks (<[i := mk_randfd fd 1 family]> (randomsocks d)) d) ;;
        mret (Some i)
  end.

(** The loop of get_new_frec: oldest and target. *)
Fixpoint scan_frecs (now : Z) (l : list nat) (oldest target : option nat) : F (option nat * option nat) :=
  match l with
  | [] => mret (oldest, target)
  | p :: l' =>
      f ← the_frec p;
      match sentto f with
      | None => scan_frecs now l' oldest (Some p)
      | Some _ =>
          let late := 4 * TIMEOUT <=? now - fr_time f in
          kwhen late (free_frec p) ;;
          older ← kget (λ d : daemon, match oldest with Some o => fr_time f - fr_time (frec_at d o) <=? 0 | None => true end);
          scan_frecs now l' (if (older : bool) then Some p else oldest) (if late then Some p else target)
      end
  end.
(** [wait]: whether it is not null; the record and *wait *)
Definition get_new_frec (now : Z) (wait : bool) : F (option nat * Z) :=
  order ← kget frec_order;
  r ← scan_frecs now order None None;
  let '(oldest, target) := r in
  let count := Z.of_nat (length order) in
  otime ← kget (λ d : daemon, match oldest with Some o => fr_time (frec_at d o) | None => 0 end);
  match target with
  | Some p => upd_frec p (set_time now) ;; mret (Some p, 0)
  | None =>
      match oldest with
      | Some o =>
          if TIMEOUT <=? now - otime then
            f ← (if (now - otime <? 2 * TIMEOUT) && (count <=? ftabsize fcfg) then allocate_frec now else mret None);
            match f with
            | Some p => mret (Some p, 0)
            | None => kwhen (negb wait) (free_frec o ;; upd_frec o (set_time now)) ;; mret (Some o, 0)
            end
          else if ftabsize fcfg <? count then mret (None, otime + TIMEOUT - now)
          else f ← allocate_frec now; mret (f, match f with None => 1 | Some _ => 0 end)
      | None =>
          if ftabsize fcfg <? count then mret (None, 0)
          else f ← allocate_frec now; mret (f, match f with None => 1 | Some _ => 0 end)
      end
  end.

Definition lookup_frec_in (id c : Z) (d : daemon) : option nat :=
  List.find (λ p, let f := frec_at d p in
    bool_decide (is_Some (sentto f)) && (new_id f =? id) && ((crc f =? c) || (c =? 0xffffffff))) (frec_order d).
Definition lookup_frec (id c : Z) : F (option nat) := kget (lookup_frec_in id c).
Definition lookup_frec_by_sender (id : Z) (addr : mysockaddr) (c : Z) : F (option nat) :=
  kget (λ d, List.find (λ p, let f := frec_at d p in
    bool_decide (is_Some (sentto f)) && (orig_id f =? id) && (crc f =? c) && sockaddr_isequal (source f) addr) (frec_order d)).
Fixpoint free_sent (s : nat) (l : list nat) : F unit :=
  match l with
  | [] => mret tt
  | p :: l' => f ← the_frec p; kwhen (bool_decide (sentto f = Some s)) (free_frec p) ;; free_sent s l'
  end.
Definition server_gone (s : nat) : F unit :=
  order ← kget frec_order;
  free_sent s order ;;
  kmod (λ d, if bool_decide (last_server d = Some s) then set_last_server None d else d) ;;
  kmod (λ d, if bool_decide (srv_save d = Some s) then set_saved None (packet_len d) d else d).
Fixpoint draw_id (tries : nat) (c : Z) : F (option Z) :=
  match tries with
  | O => mret None
  | S tries' =>
      r ← kret Rand16;
      let id := u16 r in
      f ← lookup_frec id c;
      match f with Some _ => draw_id tries' c | None => mret (Some id) end
  end.
Definition get_id (tries : nat) (force : bool) (force_id c : Z) : F (option Z) :=
  if force then
    f ← lookup_frec force_id c;
    match f with Some p => free_frec p | None => mret tt end ;;
    mret (Some force_id)
  else draw_id tries c.

(** *** Sending *)
(** send_from; [control]: the source address and the interface, [None] without *)
Fixpoint send_msg (tries : nat) (fd : Z) (data : list Z) (to : mysockaddr) (control : option (list Z * Z)) : F (option unit) :=
  match tries with
  | O => mret None
  | S tries' =>
      r ← kret (SendMsg fd data to control);
      if negb (r =? -1) then mret (Some tt) else
      e ← kret Errno;
      if (e =? 22) && bool_decide (is_Some control) then send_msg tries' fd data to None else
      again ← kret RetrySend;
      if negb (again =? 0) then send_msg tries' fd data to control else mret (Some tt)
  end.
Definition send_from (tries : nat) (fd : Z) (len : nat) (to : mysockaddr) (src : list Z) (iface : Z) : F (option unit) :=
  m ← kget d_packet;
  let control := if opt_nowild fcfg then None
                 else Some (match to with Sin _ _ => (take 4 src, 0) | _ => (src, iface) end) in
  send_msg tries fd (take len m) to control.

Definition search_servers (now qtype : Z) (name : text) : F search :=
  svs ← kget servers;
  r ← klift (search_loop qtype name svs (mk_search 0 0 None None 0));
  let flags := if (s_flags r =? 0) && negb (has qtype F_BIGNAME) && opt_nodots_local fcfg && no_dots name then F_NXDOMAIN else s_flags r in
  local ← (if flags =? F_NXDOMAIN then
             s ← kget d_cache;
             let '(b, s) := check_for_local_domain mix_tab now name (mx_name <$> mxnames cfg) (txt_name <$> txts cfg)
                              (in_name <$> int_names cfg) (ptr_name <$> ptrs cfg) s in
             kmod (set_dcache s) ;; mret b
           else mret false);
  mret (mk_search (if (local : bool) then F_NOERR else flags) (s_type r) (s_domain r) (s_addr r) (matchlen r)).

(** *** The loop over the servers *)
(** What a turn of the loop does: the next server, the end of the loop. *)
Inductive send_turn := SendNext (sent : bool) | SendBreak (sent : bool).
(** The socket for a server, marked; [None]: there is none. *)
Definition random_fd (p : nat) (sv : server) : F (option Z) :=
  f ← the_frec p;
  j ← match sv_addr sv with
      | Sin6 _ _ _ => match rfd6 f with
                      | Some j => mret (Some j)
                      | None => j ← allocate_rfd AF_INET6; upd_frec p (set_rfd6 j) ;; mret j
                      end
      | _ => match rfd4 f with
             | Some j => mret (Some j)
             | None => j ← allocate_rfd AF_INET; upd_frec p (set_rfd4 j) ;; mret j
             end
      end;
  match j with
  | None => mret None
  | Some j =>
      kmod (set_rfd_save (Some j)) ;;
      sk ← kderef (λ d, randomsocks d !! j);
      kdo (SetMark (rfd_fd sk) (sv_mark sv)) ;;
      mret (Some (rfd_fd sk))
  end.
Definition same_domain (domain : option text) (sv : server) : outcome bool :=
  match domain, sv_domain sv with Some a, Some b => Val (hostname_isequal a b) | _, _ => UB end.
Fixpoint server_turn (tries : nat) (p i : nat) (type : Z) (domain : option text) (plen : nat) (gotname : bool) : F (option send_turn) :=
  match tries with
  | O => mret None
  | S tries' =>
      sv ← the_server i;
      same ← (if negb (type =? Z.land (sv_flags sv) SERV_TYPE) then mret false
              else if negb (type =? SERV_HAS_DOMAIN) then mret true else klift (same_domain domain sv));
      if negb same || has (sv_flags sv) SERV_LITERAL_ADDRESS then mret (Some (SendNext false)) else
      fd ← match sfd sv with Some fd => mret (Some fd) | None => random_fd p sv end;
      match fd with
      | None => mret (Some (SendBreak false))
      | Some fd =>
          m ← kget d_packet;
          r ← kret (SendTo fd (take plen m) (sv_addr sv));
          if r =? -1 then
            again ← kret RetrySend;
            if negb (again =? 0) then server_turn tries' p i type domain plen gotname else mret (Some (SendNext false))
          else
            kmod (set_saved (Some i) plen) ;;
            kwhen (negb gotname) (nb ← kget namebuff; nb ← klift (put nb 0 (codes "query" ++ [0])); kmod (set_namebuff nb)) ;;
            upd_server i (λ sv, mk_server (sv_addr sv) (sfd sv) (sv_domain sv) (sv_flags sv) (sv_mark sv) (u32 (queries sv + 1)) (failed_queries sv)) ;;
            upd_frec p (set_sentto (Some i)) ;;
            f ← the_frec p;
            if forwardall f =? 0 then mret (Some (SendBreak true))
            else upd_frec p (set_forwardall (forwardall f + 1)) ;; mret (Some (SendNext true))
      end
  end.
(** the next server, the first after the last *)
Definition next_server (n i : nat) : nat := if (S i <? n)%nat then S i else 0%nat.
(** [k] servers are left before the first one comes again. *)
Fixpoint send_loop (tries k n : nat) (p i : nat) (type : Z) (domain : option text) (plen : nat) (gotname forwarded : bool) : F (option bool) :=
  match k with
  | O => mret (Some forwarded)
  | S k' =>
      r ← server_turn tries p i type domain plen gotname;
      match r with
      | None => mret None
      | Some (SendBreak sent) => mret (Some (forwarded || sent))
      | Some (SendNext sent) => send_loop tries k' n p (next_server n i) type domain plen gotname (forwarded || sent)
      end
  end.

(** *** A query *)
(** What forward_query has found out before it sends: flags, addrp, type, domain, the
    record and the server to start with. *)
Record plan := mk_plan { pl_flags : Z; pl_addr : option (list Z); pl_type : Z; pl_domain : option text; pl_forward : option nat; pl_start : nat }.
Definition set_id (id : Z) : F unit := m ← kget d_packet; m ← klift (PUTSHORT m id 0); kmod (set_packet m).
(** a query that is under way, for the next server *)
Definition plan_retry (p : nat) : F plan :=
  f ← the_frec p;
  i ← kderef (λ d, sentto (frec_at d p));
  sv ← the_server i;
  upd_server i (λ sv, mk_server (sv_addr sv) (sfd sv) (sv_domain sv) (sv_flags sv) (sv_mark sv) (queries sv) (u32 (failed_queries sv + 1))) ;;
  kwhen (negb (opt_order fcfg)) (upd_frec p (set_forwardall 1) ;; kmod (set_last_server None)) ;;
  n ← kget (λ d, length (servers d));
  set_id (new_id f) ;;
  mret (mk_plan 0 None (Z.land (sv_flags sv) SERV_TYPE) (sv_domain sv) (Some p) (next_server n i)).
(** the first server for a new query, and whether all are asked *)
Definition first_server (now type : Z) (p : nat) : F nat :=
  last ← kget last_server;
  if negb (type =? 0) || opt_order fcfg then mret 0%nat else
  test ← match last with
         | None => mret true
         | Some _ =>
             count ← kget forwardcount;
             kmod (λ d, set_forward_test (count + 1) (forwardtime d) d) ;;
             if FORWARD_TEST <? count then mret true else kget (λ d, FORWARD_TIME <? now - forwardtime d)
         end;
  if (test : bool) then upd_frec p (set_forwardall 1) ;; kmod (set_forward_test 0 now) ;; mret 0%nat
  else mret (default 0%nat last).
(** a new query; [m]: the packet *)
Definition plan_new (tries : nat) (udpfd : Z) (udpaddr : mysockaddr) (dst_addr : list Z) (dst_iface : Z) (m : list Z) (plen : nat)
    (now c gotname : Z) : F (option plan) :=
  name ← (nb ← kget namebuff; if gotname =? 0 then mret [] else klift (str_at nb 0));
  r ← (if gotname =? 0 then mret (mk_search 0 0 None None 0) else search_servers now gotname name);
  if negb (s_flags r =? 0) then mret (Some (mk_plan (s_flags r) (s_addr r) (s_type r) (s_domain r) None 0)) else
  fw ← get_new_frec now false;
  match fw.1 with
  | None => mret (Some (mk_plan F_NEG (s_addr r) (s_type r) (s_domain r) None 0))
  | Some p =>
      ph ← klift (find_pseudoheader m plen true);
      id ← klift (GETSHORT m 0);
      nid ← get_id tries ph.2 id c;
      match nid with
      | None => mret None
      | Some nid =>
          upd_frec p (set_query udpaddr dst_addr dst_iface id nid udpfd c) ;;
          set_id nid ;;
          start ← first_server now (s_type r) p;
          mret (Some (mk_plan 0 (s_addr r) (s_type r) (s_domain r) (Some p) start))
      end
  end.
(** [udpfd] -1 and [forward]: a query to be sent again.  The result is whether the query
    was sent on.  What questions_crc leaves in the name buffer is not used. *)
Definition forward_query (tries : nat) (udpfd : Z) (udpaddr : mysockaddr) (dst_addr : list Z) (dst_iface : Z) (plen : nat) (now : Z)
    (forward : option nat) : F (option bool) :=
  m ← kget d_packet;
  nb ← kget namebuff;
  c ← klift (questions_crc m plen nb);
  req ← klift (extract_request m plen nb);
  let '(gotname, _, nb) := req in
  kmod (set_namebuff nb) ;;
  n ← kget (λ d, length (servers d));
  pl ← (if (n =? 0)%nat then mret (Some (mk_plan 0 None 0 None None 0)) else
        fw ← match forward with
             | Some p => mret (Some p)
             | None => id ← klift (GETSHORT m 0); lookup_frec_by_sender id udpaddr c
             end;
        match fw with
        | Some p => pl ← plan_retry p; mret (Some pl)
        | None => plan_new tries udpfd udpaddr dst_addr dst_iface m plen now c gotname
        end);
  match pl with
  | None => mret None
  | Some pl =>
      done ← match pl_forward pl with
             | Some p =>
                 if pl_flags pl =? 0 then
                   r ← send_loop tries n n p (pl_start pl) (pl_type pl) (pl_domain pl) plen (negb (gotname =? 0)) false;
                   match r with
                   | Some false => f ← the_frec p; set_id (orig_id f) ;; free_frec p ;; mret (Some false)
                   | r => mret r
                   end
                 else mret (Some false)
             | None => mret (Some false)
             end;
      match done with
      | None => mret None
      | Some true => mret (Some true)
      | Some false =>
          if udpfd =? -1 then mret (Some false) else
          m ← kget d_packet;
          r ← klift (setup_reply m plen (default [] (pl_addr pl)) (pl_flags pl) (local_ttl cfg));
          kmod (set_packet r.2) ;;
          match r.1 with
          | None => kub
          | Some len =>
              u ← send_from tries udpfd len udpaddr dst_addr dst_iface;
              match u with None => mret None | Some _ => mret (Some false) end
          end
      end
  end.

(** *** A reply *)
Definition qr (m : list Z) : outcome bool := b ← rd m 2; Val (Z.testbit b 7).
Definition ra (m : list Z) : outcome bool := b ← rd m 3; Val (Z.testbit b 7).
Definition clear_counts (m : list Z) : outcome (list Z) :=
  m ← PUTSHORT m 0 6; m ← PUTSHORT m 0 8; PUTSHORT m 0 10.
(** if the server is not recursive *)
Definition complain (srv : option nat) (m : list Z) (rc : Z) : F unit :=
  rec ← klift (ra m);
  an ← klift (ancount m);
  match srv with
  | Some i =>
      sv ← the_server i;
      kwhen (negb rec && (rc =? NOERROR) && (an =? 0) && negb (has (sv_flags sv) SERV_WARNED_RECURSIVE))
        (nb ← kget namebuff;
         nb ← klift (put nb 0 (prettyprint_addr fcfg (sv_addr sv) ++ [0]));
         kmod (set_namebuff nb) ;;
         kwhen (negb (opt_log fcfg))
           (upd_server i (λ sv, mk_server (sv_addr sv) (sfd sv) (sv_domain sv) (Z.lor (sv_flags sv) SERV_WARNED_RECURSIVE) (sv_mark sv) (queries sv) (failed_queries sv))))
  | None => mret tt
  end.
(** The addresses of the packet go into the cache, or it is a bogus one; the packet and
    munged.  [junk]: the uninitialised addr of extract_addresses. *)
Definition learn_reply (junk : list Z) (now : Z) (n : nat) (rc : Z) (m : list Z) : F (list Z * bool) :=
  nb ← kget namebuff;
  s ← kget d_cache;
  b ← klift (if negb (bool_decide (bogus_addr fcfg = [])) && negb (rc =? NXDOMAIN)
             then check_for_bogus_wildcard mix_tab (room fcfg) now n (bogus_addr fcfg) m nb s else Val (0, nb, s));
  let '(bogus, nb, s) := b in
  kmod (set_namebuff nb) ;;
  kmod (set_dcache s) ;;
  if negb (bogus =? 0) then
    m ← klift (m ← set_rcode m NXDOMAIN; set_aa m false); mret (m, true)
  else
    req ← klift (if rc =? NXDOMAIN then extract_request m n nb else Val (0, 0, nb));
    let '(got, _, nb) := req in
    kmod (set_namebuff nb) ;;
    local ← (if got =? 0 then mret false else
             name ← klift (str_at nb 0);
             let '(b, s) := check_for_local_domain mix_tab now name (mx_name <$> mxnames cfg) (txt_name <$> txts cfg)
                              (in_name <$> int_names cfg) (ptr_name <$> ptrs cfg) s in
             kmod (set_dcache s) ;; mret b);
    m ← klift (if (local : bool) then m ← set_aa m true; set_rcode m NOERROR else Val m);
    s ← kget d_cache;
    r ← klift (extract_addresses mix_tab (room fcfg) (fwd_doctors fcfg) (fwd_neg_ttl fcfg) (opt_no_neg fcfg) (opt_no_rebind fcfg) now n junk m nb s);
    kmod (set_namebuff (namebuf r.2)) ;;
    kmod (set_dcache (dns_cache r.2)) ;;
    mret (packet r.2, local || negb (r.1 =? 0)).
Definition process_reply (junk : list Z) (now : Z) (srv : option nat) (n : nat) : F nat :=
  m ← kget d_packet;
  ph ← klift (find_pseudoheader m n true);
  let '(found, is_sign) := ph in
  m ← klift (match found with
             | Some (_, _, sizep) =>
                 if (is_sign : bool) then Val m else
                 udpsz ← GETSHORT m sizep;
                 if edns_pktsz cfg <? udpsz then PUTSHORT m (edns_pktsz cfg) sizep else Val m
             | None => Val m
             end);
  kmod (set_packet m) ;;
  op ← klift (opcode m);
  rc ← klift (rcode m);
  if negb (op =? QUERY) || (negb (rc =? NOERROR) && negb (rc =? NXDOMAIN)) then mret n else
  complain srv m rc ;;
  r ← learn_reply junk now n rc m;
  m ← klift (if (r.2 : bool) then clear_counts r.1 else Val r.1);
  res ← klift (resize_packet m n (match found with Some (start, _, _) => Some start | None => None end)
                 (match found with Some (_, len, _) => len | None => 0%nat end));
  kmod (set_packet res.2) ;;
  mret res.1.
(** the server a reply may come from *)
Definition known_server (a : mysockaddr) (sv : server) : bool :=
  negb (has (sv_flags sv) (Z.lor SERV_LITERAL_ADDRESS SERV_NO_ADDR)) && sockaddr_isequal (sv_addr sv) a.
Definition good_server (a : mysockaddr) (sv : server) : bool :=
  negb (has (sv_flags sv) (Z.lor (Z.lor SERV_LITERAL_ADDRESS SERV_TYPE) SERV_NO_ADDR)) && sockaddr_isequal (sv_addr sv) a.
(** a reply with an error is made a query again and sent to another server; [true]: done *)
Definition try_others (tries : nat) (now : Z) (n p : nat) : F (option bool) :=
  m ← kget d_packet;
  ph ← klift (find_pseudoheader m n true);
  let '(found, is_sign) := ph in
  if (is_sign : bool) then mret (Some false) else
  m ← klift (clear_counts m);
  res ← klift (resize_packet m n (match found with Some (start, _, _) => Some start | None => None end)
                 (match found with Some (_, len, _) => len | None => 0%nat end));
  let '(nn, m) := res in
  kmod (set_packet m) ;;
  if (nn =? 0)%nat then mret (Some false) else
  m ← klift (m ← set_qr m false; set_tc m false);
  kmod (set_packet m) ;;
  r ← forward_query tries (-1) (SaOther 0) [] 0 nn now (Some p);
  match r with None => mret None | Some _ => mret (Some true) end.
(** The last server that worked, and the server of the reply for process_reply. *)
Definition mark_server (rc : Z) (a : mysockaddr) (i : nat) : F (option nat) :=
  sv ← the_server i;
  if negb (Z.land (sv_flags sv) SERV_TYPE =? 0) then mret (Some i) else
  svs ← kget servers;
  let srv := if (rc =? SERVFAIL) || (rc =? REFUSED) then None
             else match list_find (λ sv, good_server a sv = true) svs with Some (j, _) => Some j | None => Some i end in
  kwhen (negb (opt_all_servers fcfg)) (kmod (set_last_server srv)) ;;
  mret srv.
(** the reply for the client, or nothing yet; [None]: tries that did not suffice *)
Definition finish_reply (tries : nat) (junk : list Z) (now : Z) (n p : nat) (rc : Z) (srv : option nat) : F (option unit) :=
  f ← the_frec p;
  kwhen (negb (forwardall f =? 0)) (upd_frec p (set_forwardall (forwardall f - 1))) ;;
  if (forwardall f =? 0) || (forwardall f - 1 =? 1) || negb ((rc =? REFUSED) || (rc =? SERVFAIL)) then
    nn ← process_reply junk now srv n;
    u ← (if (nn =? 0)%nat then mret (Some tt) else
         set_id (orig_id f) ;;
         m ← kget d_packet;
         m ← klift (set_ra m true);
         kmod (set_packet m) ;;
         send_from tries (fr_fd f) nn (source f) (dest f) (fr_iface f));
    free_frec p ;;
    mret u
  else mret (Some tt).
(** [data]: the packet received, [a]: the address it came from *)
Definition reply_query (tries : nat) (junk : list Z) (data : list Z) (a : mysockaddr) (now : Z) : F (option unit) :=
  m ← kget d_packet;
  m ← klift (put m 0 data);
  kmod (set_packet m) ;;
  kmod (λ d, set_saved None (packet_len d) d) ;;
  svs ← kget servers;
  let n := length data in
  if negb (existsb (known_server a) svs) || (n <? HEADER_SIZE)%nat then mret (Some tt) else
  q ← klift (qr m);
  if negb q then mret (Some tt) else
  nb ← kget namebuff;
  c ← klift (questions_crc m n nb);
  id ← klift (GETSHORT m 0);
  fw ← lookup_frec id c;
  match fw with
  | None => mret (Some tt)
  | Some p =>
      f ← the_frec p;
      i ← kderef (λ d, sentto (frec_at d p));
      rc ← klift (rcode m);
      done ← (if ((rc =? SERVFAIL) || (rc =? REFUSED)) && negb (opt_order fcfg) && (forwardall f =? 0)
              then try_others tries now n p else mret (Some false));
      match done with
      | None => mret None
      | Some true => mret (Some tt)
      | Some false => srv ← mark_server rc a i; finish_reply tries junk now n p rc srv
      end
  end.

(** *** A client *)
(** A listening socket, with the address and the mask of its interface, and what recvmsg
    gives for it: [None] for an error, MSG_TRUNC, where the packet came from, and the
    address and interface it came to, [None] without control data. *)
Record dns_listener := mk_dns_listener { l_fd : Z; l_family : Z; l_addr : Z; l_mask : Z }.
Record arrival := mk_arrival { arr_data : option (list Z); arr_trunc : bool; arr_source : mysockaddr; arr_info : option (list Z * Z) }.
(** The guards: dst_addr, if_index, dst_addr_4 and netmask.  [iface_check]: the name of
    the interface, whether it is served and its mask, with the index; [junk]: dst_addr
    as it is found on the stack. *)
Definition query_from (iface_check : Z → list Z → Z → option (Z * Z)) (junk : list Z) (l : dns_listener) (arr : arrival)
  : option (list Z * Z * Z * Z) :=
  if opt_nowild fcfg then
    if l_family l =? AF_INET then Some (junk, 0, l_addr l, l_mask l) else Some (junk, 0, 0, 0)
  else
    match arr_info arr with
    | None => None
    | Some (dst_addr, if_index) =>
        match iface_check (l_family l) dst_addr if_index with
        | None => None
        | Some (if_index, netmask) => Some (dst_addr, if_index, (if l_family l =? AF_INET then le_load (take 4 dst_addr) else 0), netmask)
        end
    end.
(** What receive_query does before it forwards: [inl]: it is done, [inr]: the packet is to
    be sent on. *)
Definition receive_local (get_ifaddr : text → list Z) (inet_addr : text → option (list Z)) (alias_word : option nat → Z)
    (iface_check : Z → list Z → Z → option (Z * Z)) (tries hops : nat) (junk dst_junk : list Z) (l : dns_listener) (arr : arrival) (now : Z)
    : F (option bool + (nat * list Z * Z)) :=
  kmod (λ d, set_saved None (packet_len d) d) ;;
  match arr_data arr with
  | None => mret (inl (Some false))
  | Some data =>
      m ← kget d_packet;
      m ← klift (put m 0 data);
      kmod (set_packet m) ;;
      let n := length data in
      if (n <? HEADER_SIZE)%nat || arr_trunc arr then mret (inl (Some false)) else
      q ← klift (qr m);
      if (q : bool) then mret (inl (Some false)) else
      match query_from iface_check dst_junk l arr with
      | None => mret (inl (Some false))
      | Some (dst_addr, if_index, dst_addr_4, netmask) =>
          nb ← kget namebuff;
          req ← klift (extract_request m n nb);
          s ← kget d_cache;
          r ← klift (answer_request mix_tab cfg get_ifaddr inet_addr alias_word 512 n dst_addr_4 netmask now hops m req.2 junk s);
          let '(len, m, nb, s) := r in
          kmod (set_packet m) ;;
          kmod (set_namebuff nb) ;;
          kmod (set_dcache s) ;;
          match len with
          | None => mret (inl None)
          | Some 0%nat => mret (inr (n, dst_addr, if_index))
          | Some len =>
              u ← send_from tries (l_fd l) len (arr_source arr) dst_addr if_index;
              mret (inl (match u with None => None | Some _ => Some false end))
          end
      end
  end.
(** The answer from the cache, or forwarding; whether the query was sent on. *)
Definition receive_query (get_ifaddr : text → list Z) (inet_addr : text → option (list Z)) (alias_word : option nat → Z)
    (iface_check : Z → list Z → Z → option (Z * Z)) (tries hops : nat) (junk dst_junk : list Z) (l : dns_listener) (arr : arrival) (now : Z) : F (option bool) :=
  r ← receive_local get_ifaddr inet_addr alias_word iface_check tries hops junk dst_junk l arr now;
  match r with
  | inl done => mret done
  | inr (n, dst_addr, if_index) => forward_query tries (l_fd l) (arr_source arr) dst_addr if_index n now None
  end.
End Forward.
End DnsForward.
