(* ===== verification/DnsForwardSpec.v ===== *)
(** * What forwarding promises (src/external/dnsmasq/src/forward.c)

    In every history of the daemon the records of queries and the random sockets agree:
    the count of a socket is the number of records that use it, and the sockets that are
    open are those with a count; the identifiers of the queries under way tell them
    apart; and what is sent to a client is the reply to a query of that client. *)
From stdpp Require Import gmap sorting.
From S2P Require Import Prelude Runtime DriverRt DnsUtil DnsName DnsMsg DnsCache DnsCacheInv DnsCacheSpec DnsReply DnsAnswer DnsAnswerSpec DnsForward.
Import DnsUtil DnsName DnsMsg DnsCache DnsCacheInv DnsCacheSpec DnsReply DnsAnswer DnsAnswerSpec DnsForward.

Module DnsForwardSpec.
Create HintDb quiet.
Abbreviation fevent := (fcall * resp)%type.

(** ** The length of a packet that is resized *)
Definition from (p : nat) (r : option nat) : Prop := ∀ q, r = Some q → (p ≤ q)%nat.
Lemma ADD_RDLEN_ge p plen n : (p ≤ (ADD_RDLEN p plen n).2)%nat.
Proof. unfold ADD_RDLEN, CHECK_LEN. destruct (Nat.leb_spec (p + n) plen); cbn; lia. Qed.
Lemma skip_loop_from fuel m plen : ∀ p, may (skip_loop fuel m plen p) (from p).
Proof.
  induction fuel as [|fuel IH]; intros p; [done|]. cbn [skip_loop]. destruct (negb _); [by apply may_ret|].
  apply may_bind with (P := λ _, True); [done|]. intros b _. destruct (_ =? 0xc0); [apply may_ret; intros q [= <-]; lia|].
  destruct (_ =? 0x80); [by apply may_ret|]. destruct (_ =? 0x40).
  - destruct (negb _); [by apply may_ret|]. destruct (negb _); [by apply may_ret|]. apply may_bind with (P := λ _, True); [done|]. intros c _.
    intros r Hr q Hq. pose proof (IH _ r Hr q Hq). lia.
  - set (len := Z.to_nat _). pose proof (ADD_RDLEN_ge (S p) plen len). destruct (ADD_RDLEN (S p) plen len) as [ok p']. cbn in *.
    destruct (negb ok); [by apply may_ret|]. destruct (len =? 0)%nat; [apply may_ret; intros q [= <-]; lia|].
    intros r Hr q Hq. pose proof (IH _ r Hr q Hq). lia.
Qed.
Lemma skip_name_from m plen p x : may (skip_name m plen p x) (from p).
Proof.
  unfold skip_name. eapply may_bind; [apply skip_loop_from|]. intros [q|] Hq; [|by apply may_ret].
  apply may_ret. destruct (CHECK_LEN _ _ _); [|done]. intros ? [= <-]. by apply Hq.
Qed.
Lemma skip_question_from n m plen : ∀ p, may (skip_question n m plen p) (from p).
Proof.
  induction n as [|n IH]; intros p; cbn [skip_question]; [apply may_ret; by intros ? [= <-]|].
  eapply may_bind; [apply skip_name_from|]. intros [q|] Hq; [|by apply may_ret]. specialize (Hq q eq_refl).
  intros r Hr k Hk. pose proof (IH _ r Hr k Hk). lia.
Qed.
Lemma skip_section_from n m plen : ∀ p, may (skip_section m plen p n) (from p).
Proof.
  induction n as [|n IH]; intros p; cbn [skip_section]; [apply may_ret; by intros ? [= <-]|].
  eapply may_bind; [apply skip_name_from|]. intros [q|] Hq; [|by apply may_ret]. specialize (Hq q eq_refl).
  apply may_bind with (P := λ _, True); [done|]. intros v _. pose proof (ADD_RDLEN_ge (q + 8 + 2) plen (Z.to_nat v)).
  destruct (ADD_RDLEN _ _ _) as [ok q']. cbn in *. destruct (negb ok); [by apply may_ret|]. intros r Hr k Hk. pose proof (IH _ r Hr k Hk). lia.
Qed.
Lemma resize_packet_ge m plen ph hlen : (HEADER_SIZE ≤ plen)%nat → may (resize_packet m plen ph hlen) (λ r, HEADER_SIZE ≤ r.1)%nat.
Proof.
  intros Hp. unfold resize_packet, skip_questions. apply may_bind with (P := from HEADER_SIZE).
  { apply may_bind with (P := λ _, True); [done|]. intros q _. apply skip_question_from. }
  intros [a|] Ha; [|by apply may_ret]. specialize (Ha a eq_refl). do 3 (apply may_bind with (P := λ _, True); [done|]; intros ? _).
  eapply may_bind; [apply skip_section_from|]. intros [b|] Hb; [|by apply may_ret]. specialize (Hb b eq_refl).
  destruct ph as [h|]; [|apply may_ret; cbn; lia]. destruct (_ =? 0); [|apply may_ret; cbn; lia].
  do 3 (apply may_bind with (P := λ _, True); [done|]; intros ? _). apply may_ret. cbn. lia.
Qed.

(** ** Sockets and their counts *)
(** how often a record uses a socket, and all records do *)
Definition uses (j : nat) (f : frec) : nat :=
  ((if decide (rfd4 f = Some j) then 1 else 0) + (if decide (rfd6 f = Some j) then 1 else 0))%nat.
Definition refs (fs : list frec) (j : nat) : nat := sum_list_with (uses j) fs.
(** the sockets with a number that were opened and not closed *)
Definition sock_delta (fd : Z) (ev : fevent) : Z :=
  match ev with
  | (RandomSock _, r) => if rret r =? fd then 1 else 0
  | (CloseSock fd', _) => if fd' =? fd then -1 else 0
  | _ => 0
  end.
Definition opened (fd : Z) (tr : list fevent) : Z := DriverRt.total (sock_delta fd) tr.
Definition in_use (fd : Z) (sk : randfd) : nat := if decide (refcount sk ≠ 0 ∧ rfd_fd sk = fd) then 1%nat else 0%nat.
(** the sockets agree with the expected counts *)
Record socks_ok (tr : list fevent) (socks : list randfd) (cnt : nat → nat) : Prop := {
  sk_len : length socks = RANDOM_SOCKS;
  sk_count : ∀ j sk, socks !! j = Some sk → refcount sk = Z.of_nat (cnt j) ∧ refcount sk ≤ 0xffff;
  sk_range : ∀ j, (RANDOM_SOCKS ≤ j)%nat → cnt j = 0%nat;
  sk_open : ∀ fd, fd ≠ -1 → opened fd tr = Z.of_nat (sum_list_with (in_use fd) socks)
}.
Lemma socks_cnt tr socks cnt cnt' : (∀ j, cnt j = cnt' j) → socks_ok tr socks cnt → socks_ok tr socks cnt'.
Proof. intros He [A1 A2 A3 A4]. split; [done| | |done]; intros j; rewrite <- He; [apply A2|apply A3]. Qed.
Lemma sum_insert {A} (g : A → nat) (l : list A) p a b :
  l !! p = Some a → (sum_list_with g (<[p := b]> l) + g a = sum_list_with g l + g b)%nat.
Proof.
  intros Hp. rewrite (insert_take_drop l p b) by (by eapply lookup_lt_Some). rewrite <- (take_drop_middle l p a Hp) at 3.
  rewrite !sum_list_with_app. cbn. lia.
Qed.
Lemma alter_insert {A} (g : A → A) (l : list A) p a : l !! p = Some a → alter g p l = <[p := g a]> l.
Proof. revert p. induction l as [|x l IH]; intros [|p]; cbn; [done|done|by intros [= ->]|]. intros Hp. f_equal. by apply IH. Qed.
Lemma opened_snoc fd tr ev : opened fd (tr ++ [ev]) = opened fd tr + sock_delta fd ev.
Proof. apply total_snoc. Qed.
(** a count changes, and with it what is open *)
Lemma socks_set tr tr' socks cnt j sk sk' n :
  socks_ok tr socks cnt → socks !! j = Some sk → refcount sk' = Z.of_nat n → refcount sk' ≤ 0xffff →
  (∀ fd, fd ≠ -1 → opened fd tr' - opened fd tr = Z.of_nat (in_use fd sk') - Z.of_nat (in_use fd sk)) →
  socks_ok tr' (<[j := sk']> socks) (λ k, if decide (k = j) then n else cnt k).
Proof.
  intros [A1 A2 A3 A4] Hj Hn Hb Ho. pose proof (lookup_lt_Some _ _ _ Hj) as Hlt. split.
  - by rewrite length_insert.
  - intros k sk2 Hk. case_decide as Hkj; [subst|].
    + rewrite list_lookup_insert_eq in Hk by done. injection Hk as <-. done.
    + rewrite list_lookup_insert_ne in Hk by done. by apply A2.
  - intros k Hk. rewrite decide_False by lia. by apply A3.
  - intros fd Hfd. specialize (Ho fd Hfd). specialize (A4 fd Hfd). pose proof (sum_insert (in_use fd) socks j sk sk' Hj). lia.
Qed.

(** ** The table *)
Definition all_ones : Z := 0xffffffff.
(** what a record keeps of the query: the client, the socket it wrote to, its identifier
    and the checksum of its questions *)
Definition asked : Type := mysockaddr * Z * Z * Z.
Definition query_of (f : frec) : asked := (source f, fr_fd f, orig_id f, crc f).
Definition idle (f : frec) : Prop := rfd4 f = None ∧ rfd6 f = None.
(** [busy]: a record that is being prepared *)
Definition active (busy : option nat) (p : nat) (f : frec) : Prop := busy = Some p ∨ is_Some (sentto f).
(** [Q]: the queries that were taken, [n]: the number of servers *)
Record table_ok (Q : list asked) (busy : option nat) (fs : list frec) (n : nat) : Prop := {
  tb_idle : ∀ p f, fs !! p = Some f → busy ≠ Some p → sentto f = None → idle f;
  tb_sent : ∀ p f i, fs !! p = Some f → sentto f = Some i → (i < n)%nat;
  tb_ids : ∀ p q f g, fs !! p = Some f → fs !! q = Some g → p ≠ q → active busy p f → active busy q g →
    new_id f = new_id g → crc f = crc g → crc f = all_ones;
  tb_asked : ∀ p f, fs !! p = Some f → active busy p f → query_of f ∈ Q
}.

(** What the invariant is about: the table, the sockets, the calls that open and close
    them, and what was sent to clients. *)
Definition sock_event (ev : fevent) : bool := match ev.1 with RandomSock _ | CloseSock _ => true | _ => false end.
Definition send_event (ev : fevent) : option (Z * list Z * mysockaddr) :=
  match ev.1 with SendMsg fd data to _ => Some (fd, data, to) | _ => None end.
Record view_ := mk_view { v_frecs : list frec; v_socks : list randfd; v_n : nat; v_events : list fevent; v_sends : list (Z * list Z * mysockaddr) }.
Definition view (s : rt fcall daemon) : view_ :=
  mk_view (frecs (st s)) (randomsocks (st s)) (length (servers (st s))) (List.filter sock_event (calls s)) (omap send_event (calls s)).
Definition finv (Q : list asked) (busy : option nat) (v : view_) : Prop :=
  table_ok Q busy (v_frecs v) (v_n v) ∧ socks_ok (v_events v) (v_socks v) (refs (v_frecs v)).
Definition with_frecs (fs : list frec) (v : view_) : view_ := mk_view fs (v_socks v) (v_n v) (v_events v) (v_sends v).
Definition with_socks (socks : list randfd) (ev : list fevent) (v : view_) : view_ := mk_view (v_frecs v) socks (v_n v) ev (v_sends v).

Lemma view_call tr c r d : let v := view (mk_rt tr d) in view (mk_rt (tr ++ [(c, r)]) d) =
  mk_view (v_frecs v) (v_socks v) (v_n v) (v_events v ++ if sock_event (c, r) then [(c, r)] else [])
    (v_sends v ++ match send_event (c, r) with Some x => [x] | None => [] end).
Proof. unfold view. cbn [calls st]. rewrite List.filter_app, omap_app. done. Qed.
Lemma view_other tr c r d : sock_event (c, r) = false → send_event (c, r) = None → view (mk_rt (tr ++ [(c, r)]) d) = view (mk_rt tr d).
Proof. intros H1 H2. rewrite view_call, H1, H2, !app_nil_r. done. Qed.
Lemma view_sock tr c r d : sock_event (c, r) = true → let v := view (mk_rt tr d) in
  view (mk_rt (tr ++ [(c, r)]) d) = with_socks (v_socks v) (v_events v ++ [(c, r)]) v.
Proof. intros H1. cbn zeta. rewrite view_call, H1. unfold with_socks. f_equal. destruct c; try done; by rewrite app_nil_r. Qed.

(** *** Changes of a record *)
Lemma refs_set fs p f g j : fs !! p = Some f → (refs (<[p := g]> fs) j + uses j f = refs fs j + uses j g)%nat.
Proof. apply sum_insert. Qed.
Lemma refs_same fs p f g j : fs !! p = Some f → rfd4 g = rfd4 f → rfd6 g = rfd6 f → refs (<[p := g]> fs) j = refs fs j.
Proof. intros Hp H4 H6. pose proof (refs_set fs p f g j Hp) as He. unfold uses in He. rewrite H4, H6 in He. lia. Qed.
(** A record that stays as the others see it. *)
Lemma table_set Q busy busy' fs n p f g :
  table_ok Q busy fs n → fs !! p = Some f →
  (busy' = busy ∨ busy = Some p ∧ busy' = None) →
  (busy' ≠ Some p → sentto g = None → idle g) →
  (∀ i, sentto g = Some i → (i < n)%nat) →
  (active busy' p g → active busy p f) → new_id g = new_id f → query_of g = query_of f →
  table_ok Q busy' (<[p := g]> fs) n.
Proof.
  intros [T1 T2 T3 T4] Hp Hb Hi Hs Ha Hn Hq. pose proof (lookup_lt_Some _ _ _ Hp) as Hlt.
  assert (Hc : crc g = crc f) by (by injection Hq).
  assert (Hact : ∀ q h, q ≠ p → active busy' q h → active busy q h) by (intros q h Hqp [->|?]; [left; destruct Hb as [?|[? ?]]; congruence|by right]).
  assert (Hl : ∀ q h, <[p := g]> fs !! q = Some h → (q = p ∧ h = g) ∨ (q ≠ p ∧ fs !! q = Some h)).
  { intros q h Hq'. destruct (decide (q = p)) as [->|Hne]; [left|right]; [rewrite list_lookup_insert_eq in Hq' by done; naive_solver|].
    by rewrite list_lookup_insert_ne in Hq' by done. }
  split.
  - intros q h [[-> ->]|[Hqp Hh]]%Hl Hbq Hse; [by apply Hi|]. apply (T1 q h Hh); [|done]. destruct Hb as [->|[-> ->]]; congruence.
  - intros q h i [[-> ->]|[Hqp Hh]]%Hl Hse; [by apply Hs|by eapply T2].
  - intros q r h k [[-> ->]|[Hqp Hh]]%Hl [[-> ->]|[Hrp Hk]]%Hl Hne Ah Ak Hid Hcr; [done| | |].
    + rewrite Hc. rewrite Hc in Hcr. rewrite Hn in Hid. eapply (T3 p r f k); eauto.
    + rewrite Hn in Hid. rewrite Hc in Hcr. eapply (T3 q p h f); eauto.
    + eapply (T3 q r h k); eauto.
  - intros q h [[-> ->]|[Hqp Hh]]%Hl Ah; [rewrite Hq; eapply T4; eauto|]. eapply T4; eauto.
Qed.

(** *** Operations on sockets *)
Section Ops.
Context `{W : World fcall}.
Abbreviation F := (IO fcall daemon).

Lemma drop_rfd_ok (r : option nat) (s : rt fcall daemon) cnt :
  socks_ok (v_events (view s)) (v_socks (view s)) cnt → (∀ j, r = Some j → (0 < cnt j)%nat) →
  ewp False (drop_rfd r) (λ _ s', ∃ socks ev, view s' = with_socks socks ev (view s) ∧
    socks_ok ev socks (λ k, if decide (r = Some k) then pred (cnt k) else cnt k)) s.
Proof.
  intros Hs Hr. unfold drop_rfd. destruct r as [j|].
  2: { apply ewp_ret. exists (v_socks (view s)), (v_events (view s)). split; [done|]. eapply socks_cnt; [|exact Hs]. intros k. by rewrite decide_False. }
  specialize (Hr j eq_refl).
  assert (Hj : (j < RANDOM_SOCKS)%nat) by (destruct (decide (RANDOM_SOCKS ≤ j)%nat) as [Hle|]; [pose proof (sk_range _ _ _ Hs j Hle); lia|lia]).
  rewrite <- (sk_len _ _ _ Hs) in Hj. destruct (lookup_lt_is_Some_2 _ _ Hj) as [sk Hsk]. pose proof (sk_count _ _ _ Hs j sk Hsk) as [Hc Hb].
  apply ewp_bind, ewp_deref; [|cbn in Hsk; congruence]. intros sk' Hsk'. cbn in Hsk. rewrite Hsk in Hsk'. injection Hsk' as <-.
  assert (Hu : u16 (refcount sk - 1) = Z.of_nat (pred (cnt j))) by (unfold u16; rewrite Z.mod_small; lia).
  apply ewp_bind, ewp_mod. cbn [st calls]. unfold kwhen. rewrite Hu.
  set (sk' := mk_randfd (rfd_fd sk) _ (rfd_family sk)).
  assert (Hdone : ∀ tr', (∀ fd, fd ≠ -1 → opened fd tr' - opened fd (v_events (view s)) = Z.of_nat (in_use fd sk') - Z.of_nat (in_use fd sk)) →
    socks_ok tr' (<[j := sk']> (randomsocks (st s))) (λ k, if decide (Some j = Some k) then pred (cnt k) else cnt k)).
  { intros tr' Ho. eapply socks_cnt; [|eapply (socks_set _ tr' _ _ j sk sk' (pred (cnt j))); [exact Hs|done|done|cbn; lia|exact Ho]].
    intros k. cbn. repeat case_decide; naive_solver. }
  destruct (Z.eqb_spec (Z.of_nat (pred (cnt j))) 0) as [H0|H0].
  - unfold kdo. apply ewp_bind, ewp_any. intros resp. apply ewp_ret. eexists _, _. split; [by rewrite view_sock|]. apply Hdone. intros fd Hfd.
    rewrite opened_snoc. unfold in_use, sk'. cbn -[opened List.filter]. rewrite H0, Hc.
    destruct (Z.eqb_spec (rfd_fd sk) fd); repeat case_decide; destruct_and?; try lia; exfalso; intuition lia.
  - apply ewp_ret. eexists _, (v_events (view s)). split; [reflexivity|]. apply Hdone. intros fd Hfd.
    assert (Hi : in_use fd sk' = in_use fd sk) by (unfold in_use, sk'; apply decide_ext; cbn; rewrite Hc; split; intros [? ?]; split; [lia|done|lia|done]).
    rewrite Hi. lia.
Qed.

Definition freed (f : frec) : frec := set_rfd6 None (set_sentto None (set_rfd4 None f)).
Definition aside (v v' : view_) : Prop := v_n v' = v_n v ∧ v_sends v' = v_sends v.
Lemma refs_ge fs p f j : fs !! p = Some f → (uses j f ≤ refs fs j)%nat.
Proof. intros Hp. pose proof (refs_set fs p f frec0 j Hp) as He. assert (uses j frec0 = 0%nat) by done. lia. Qed.
Lemma view_frecs fs tr d : view (mk_rt tr (set_frecs fs d)) = with_frecs fs (view (mk_rt tr d)).
Proof. done. Qed.
(** the sockets a record frees *)
Lemma free_frec_view Q busy p f (s : rt fcall daemon) :
  finv Q busy (view s) → v_frecs (view s) !! p = Some f →
  ewp False (free_frec p) (λ _ s', aside (view s) (view s') ∧ v_frecs (view s') = <[p := freed f]> (v_frecs (view s)) ∧
    socks_ok (v_events (view s')) (v_socks (view s')) (refs (v_frecs (view s')))) s.
Proof.
  intros [_ Hs] Hp. pose proof (λ j, refs_ge _ p f j Hp) as Hge. unfold free_frec. apply ewp_bind. unfold the_frec. apply ewp_deref; [|cbn in Hp; congruence].
  intros f' Hf'. cbn in Hp. rewrite Hp in Hf'. injection Hf' as <-.
  apply ewp_bind. eapply ewp_mono; [|apply (drop_rfd_ok (rfd4 f) s _ Hs)].
  2: { intros j Hj. specialize (Hge j). unfold uses in Hge. rewrite decide_True in Hge by done. lia. }
  intros _ s1 (socks1 & ev1 & Hv1 & Hs1). apply ewp_bind. unfold upd_frec. apply ewp_mod.
  assert (Hf1 : frecs (st s1) = frecs (st s)) by (by injection Hv1). rewrite Hf1, (alter_insert _ _ _ _ Hp).
  match goal with |- ewp _ _ _ ?s2 => set (s' := s2) end.
  assert (Hv2 : view s' = with_frecs (<[p := set_sentto None (set_rfd4 None f)]> (frecs (st s))) (with_socks socks1 ev1 (view s))) by (rewrite <- Hv1; by destruct s1).
  apply ewp_bind. eapply ewp_mono; [|apply (drop_rfd_ok (rfd6 f) s')]; [|rewrite Hv2; exact Hs1|].
  2: { intros j Hj. specialize (Hge j). unfold uses in Hge. rewrite (decide_True (P := rfd6 f = _)) in Hge by done.
       repeat case_decide; try done; lia. }
  intros _ s3 (socks3 & ev3 & Hv3 & Hs3). rewrite Hv2 in Hv3. apply ewp_mod.
  assert (Hf3 : frecs (st s3) = <[p := set_sentto None (set_rfd4 None f)]> (frecs (st s))) by (by injection Hv3).
  pose proof (lookup_lt_Some _ _ _ Hp) as Hlt.
  rewrite Hf3, (alter_insert _ _ _ (set_sentto None (set_rfd4 None f))) by (by apply list_lookup_insert_eq). rewrite list_insert_insert_eq.
  rewrite view_frecs. replace (mk_rt (calls s3) (st s3)) with s3 by (by destruct s3). rewrite Hv3. split; [done|]. split; [done|]. cbn.
  eapply socks_cnt; [|exact Hs3]. intros k. cbn beta.
  pose proof (refs_set _ p f (freed f) k Hp) as He. specialize (Hge k). assert (H0 : uses k (freed f) = 0%nat) by done.
  change (v_frecs (view s)) with (frecs (st s)) in *. rewrite H0 in He. unfold uses in Hge, He. unfold freed in He.
  destruct (decide (rfd4 f = Some k)), (decide (rfd6 f = Some k)); lia.
Qed.
Lemma free_frec_ok Q busy busy' p f (s : rt fcall daemon) :
  finv Q busy (view s) → v_frecs (view s) !! p = Some f → (busy' = busy ∨ busy = Some p ∧ busy' = None) →
  ewp False (free_frec p) (λ _ s', aside (view s) (view s') ∧ v_frecs (view s') = <[p := freed f]> (v_frecs (view s)) ∧ finv Q busy' (view s')) s.
Proof.
  intros Hf Hp Hb. eapply ewp_mono; [|by eapply free_frec_view]. intros _ s' (Ha & He & Hs). split; [done|]. split; [done|]. split; [|done].
  rewrite He, (proj1 Ha). destruct Hf as [Ht _]. eapply table_set; [exact Ht|exact Hp|exact Hb|done|done| |done|done].
  intros [->|[? [=]]]. left. by destruct Hb as [<-|[? [=]]].
Qed.

Definition taken (s s' : rt fcall daemon) (cnt : nat → nat) (r : option nat) : Prop :=
  ∃ socks ev', view s' = with_socks socks ev' (view s) ∧ socks_ok ev' socks (λ k, if decide (r = Some k) then S (cnt k) else cnt k).
Lemma socks_same tr socks cnt : socks_ok tr socks cnt → socks_ok tr socks (λ k, if decide (None = Some k) then S (cnt k) else cnt k).
Proof. apply socks_cnt. intros k. by rewrite decide_False. Qed.
Lemma share_rfd_ok family (s : rt fcall daemon) cnt :
  socks_ok (v_events (view s)) (v_socks (view s)) cnt → ewp False (share_rfd family) (λ r s', taken s s' cnt r) s.
Proof.
  intros Hs. unfold share_rfd. apply ewp_bind, ewp_get. destruct (shared_slot family (finger (st s)) (randomsocks (st s))) as [j|] eqn:Ej.
  2: { apply ewp_ret. eexists _, _. split; [reflexivity|]. by apply socks_same. }
  apply List.find_some in Ej as [_ Hj]. destruct (randomsocks (st s) !! j) as [sk|] eqn:Hsk; [|done].
  apply andb_true_iff in Hj as [[Hn0 _]%andb_true_iff Hn1]. apply negb_true_iff, Z.eqb_neq in Hn0, Hn1.
  pose proof (sk_count _ _ _ Hs j sk Hsk) as [Hc Hb].
  apply ewp_bind, ewp_mod, ewp_bind, ewp_mod, ewp_ret. cbn [st calls].
  exists (<[j := mk_randfd (rfd_fd sk) (refcount sk + 1) (rfd_family sk)]> (randomsocks (st s))), (v_events (view s)).
  split; [unfold view; cbn; by rewrite (alter_insert _ _ _ _ Hsk)|].
  eapply socks_cnt; [|eapply (socks_set _ _ _ _ j sk _ (S (cnt j))); [exact Hs|exact Hsk|cbn; lia|cbn; lia|]].
  - intros k. cbn. repeat case_decide; naive_solver.
  - intros fd Hfd. assert (Hi : in_use fd (mk_randfd (rfd_fd sk) (refcount sk + 1) (rfd_family sk)) = in_use fd sk).
    { unfold in_use. apply decide_ext. cbn. split; intros [? ?]; split; [done|done|lia|done]. }
    rewrite Hi. lia.
Qed.
Lemma allocate_rfd_ok family (s : rt fcall daemon) cnt :
  socks_ok (v_events (view s)) (v_socks (view s)) cnt → ewp False (allocate_rfd family) (λ r s', taken s s' cnt r) s.
Proof.
  intros Hs. unfold allocate_rfd. apply ewp_bind, ewp_get. unfold free_slot.
  destruct (list_find (λ sk, refcount sk = 0) (randomsocks (st s))) as [[i sk]|] eqn:Ei; cbn [fmap option_fmap option_map fst]; [|by apply share_rfd_ok].
  apply list_find_Some in Ei as (Hsk & H0 & _). pose proof (sk_count _ _ _ Hs i sk Hsk) as [Hc _].
  assert (Hu : ∀ fd, in_use fd sk = 0%nat) by (intros fd; unfold in_use; rewrite decide_False; naive_solver).
  apply ewp_bind. unfold kret. apply ewp_bind, ewp_any. intros resp. apply ewp_ret.
  destruct (Z.eqb_spec (rret resp) (-1)) as [Hm|Hm].
  - apply ewp_bind, ewp_mod. cbn [calls st]. rewrite (alter_insert _ _ _ _ Hsk).
    match goal with |- ewp _ _ _ ?s2 => set (s1 := s2) end.
    assert (Hv : view s1 = with_socks (<[i := mk_randfd (rret resp) (refcount sk) (rfd_family sk)]> (randomsocks (st s))) (v_events (view s) ++ [(RandomSock family, resp)]) (view s)).
    { unfold s1. by rewrite view_sock. }
    eapply ewp_mono; [|apply (share_rfd_ok _ _ cnt)].
    { intros r s' (socks & ev & Hv' & Ht). exists socks, ev. split; [rewrite Hv', Hv; done|done]. }
    rewrite Hv. cbn. eapply socks_cnt; [|eapply (socks_set _ _ _ _ i sk _ (cnt i)); [exact Hs|exact Hsk|cbn; lia|cbn; lia|]].
    + intros k. cbn. repeat case_decide; naive_solver.
    + intros fd Hfd. rewrite opened_snoc, Hu. unfold in_use. cbn -[opened view]. rewrite decide_False by naive_solver. cbn [view v_events]. destruct (Z.eqb_spec (rret resp) fd); lia.
  - apply ewp_bind, ewp_mod, ewp_ret. cbn [calls st].
    exists (<[i := mk_randfd (rret resp) 1 family]> (randomsocks (st s))), (v_events (view s) ++ [(RandomSock family, resp)]). split; [by rewrite view_sock|].
    eapply socks_cnt; [|eapply (socks_set _ _ _ _ i sk _ (S (cnt i))); [exact Hs|exact Hsk|cbn; lia|cbn; lia|]].
    + intros k. cbn. repeat case_decide; naive_solver.
    + intros fd Hfd. rewrite opened_snoc, Hu. unfold in_use. cbn -[opened view].
      destruct (Z.eqb_spec (rret resp) fd); [rewrite decide_True by (split; [done|done])|rewrite decide_False by naive_solver]; cbn [view v_events]; lia.
Qed.

(** *** Records *)
Lemma allocate_frec_ok Q now (s : rt fcall daemon) :
  finv Q None (view s) → ewp False (allocate_frec now) (λ r s', aside (view s) (view s') ∧ finv Q None (view s') ∧
    match r with Some p => v_frecs (view s') = v_frecs (view s) ++ [set_time now frec0] ∧ p = length (v_frecs (view s)) | None => view s' = view s end) s.
Proof.
  intros Hf. unfold allocate_frec. apply ewp_bind. unfold kret. apply ewp_bind, ewp_any. intros resp. apply ewp_ret.
  assert (Hv : view (mk_rt (calls s ++ [(MallocFrec, resp)]) (st s)) = view s) by (rewrite view_other by done; by destruct s).
  destruct (rret resp =? 0); [apply ewp_ret; by rewrite Hv|]. apply ewp_bind, ewp_get, ewp_bind, ewp_mod, ewp_ret. cbn [calls st].
  rewrite view_frecs, Hv. split; [done|]. split; [|done]. destruct Hf as [[T1 T2 T3 T4] Hs]. cbn in T1, T2, T3, T4, Hs.
  assert (Hl : ∀ q h, (frecs (st s) ++ [set_time now frec0]) !! q = Some h → (frecs (st s) !! q = Some h) ∨ h = set_time now frec0).
  { intros q h [Hq|[_ Hq]]%lookup_app_Some; [by left|]. apply list_lookup_singleton_Some in Hq as [_ <-]. by right. }
  split; [split|]; cbn.
  - intros q h [Hq| ->]%Hl Hb Hse; [by eapply T1|done].
  - intros q h i [Hq| ->]%Hl Hse; [by eapply T2|done].
  - intros q r h k [Hq| ->]%Hl [Hr| ->]%Hl Hne Ah Ak; [by eapply T3| | |]; try (by destruct Ak as [[=]|[? [=]]]); by destruct Ah as [[=]|[? [=]]].
  - intros q h [Hq| ->]%Hl Ah; [by eapply T4|by destruct Ah as [[=]|[? [=]]]].
  - eapply socks_cnt; [|exact Hs]. intros j. unfold refs. rewrite sum_list_with_app. cbn. change (uses j (set_time now frec0)) with 0%nat. lia.
Qed.
(** A change of a record that no one sees. *)
Definition minor (g : frec → frec) : Prop := ∀ f, sentto (g f) = sentto f ∧ rfd4 (g f) = rfd4 f ∧ rfd6 (g f) = rfd6 f ∧ new_id (g f) = new_id f ∧ query_of (g f) = query_of f.
Lemma finv_set Q busy v p f g :
  finv Q busy v → v_frecs v !! p = Some f → (busy ≠ Some p → sentto g = None → idle f) → (∀ i, sentto g = Some i → (i < v_n v)%nat) → (active busy p g → active busy p f) →
  rfd4 g = rfd4 f → rfd6 g = rfd6 f → new_id g = new_id f → query_of g = query_of f → finv Q busy (with_frecs (<[p := g]> (v_frecs v)) v).
Proof.
  intros [Ht Hs] Hp Hi Hn Ha H4 H6 Hid Hq. split; cbn.
  - eapply table_set; [exact Ht|exact Hp|by left| |done..]. intros Hb Hg. destruct (Hi Hb Hg) as [? ?]. split; congruence.
  - eapply socks_cnt; [|exact Hs]. intros j. symmetry. by eapply refs_same.
Qed.
Lemma minor_ok Q busy v p f g : minor g → finv Q busy v → v_frecs v !! p = Some f → finv Q busy (with_frecs (alter g p (v_frecs v)) v).
Proof.
  intros Hm Hf Hp. rewrite (alter_insert _ _ _ _ Hp). destruct (Hm f) as (H1 & H2 & H3 & H4 & H5). pose proof Hf as [[T1 T2 _ _] _].
  eapply finv_set; [done|done| | | |done..].
  - intros Hb Hg. apply (T1 p f Hp Hb). congruence.
  - intros i Hi. apply (T2 p f i Hp). congruence.
  - unfold active. by rewrite H1.
Qed.
Lemma time_minor now : minor (set_time now).
Proof. done. Qed.
Lemma forwardall_minor n : minor (set_forwardall n).
Proof. done. Qed.
Lemma upd_minor Q busy p f g (s : rt fcall daemon) :
  minor g → finv Q busy (view s) → v_frecs (view s) !! p = Some f →
  ewp False (upd_frec p g) (λ _ s', aside (view s) (view s') ∧ v_frecs (view s') = <[p := g f]> (v_frecs (view s)) ∧ finv Q busy (view s')) s.
Proof.
  intros Hm Hf Hp. apply ewp_mod. rewrite view_frecs. replace (mk_rt (calls s) (st s)) with s by (by destruct s).
  split; [done|]. split; [by apply alter_insert|]. by apply (minor_ok Q busy (view s) p f g).
Qed.

(** *** Taking a record *)
Lemma aside_trans v1 v2 v3 : aside v1 v2 → aside v2 v3 → aside v1 v3.
Proof. intros [? ?] [? ?]. split; congruence. Qed.
Definition vacant (v : view_) (o : option nat) : Prop := ∀ p, o = Some p → ∃ f, v_frecs v !! p = Some f ∧ sentto f = None.
Definition within (v : view_) (o : option nat) : Prop := ∀ p, o = Some p → (p < length (v_frecs v))%nat.
Lemma vacant_freed v v' q f o : v_frecs v !! q = Some f → v_frecs v' = <[q := freed f]> (v_frecs v) → vacant v o → vacant v' o.
Proof.
  intros Hq He Hv p Hp. destruct (Hv p Hp) as (g & Hg & Hn). rewrite He. destruct (decide (p = q)) as [->|Hne].
  - rewrite list_lookup_insert_eq by (by eapply lookup_lt_Some). by eexists.
  - rewrite list_lookup_insert_ne by done. by eexists.
Qed.
Lemma scan_frecs_ok Q now l : ∀ oldest target (s : rt fcall daemon),
  finv Q None (view s) → (∀ p, p ∈ l → (p < length (v_frecs (view s)))%nat) → within (view s) oldest → vacant (view s) target →
  ewp False (scan_frecs now l oldest target) (λ r s', aside (view s) (view s') ∧ finv Q None (view s') ∧
    length (v_frecs (view s')) = length (v_frecs (view s)) ∧ within (view s') r.1 ∧ vacant (view s') r.2) s.
Proof.
  induction l as [|p l IH]; intros oldest target s Hf Hl Ho Ht; [by apply ewp_ret|]. cbn [scan_frecs].
  destruct (lookup_lt_is_Some_2 (v_frecs (view s)) p) as [f Hp]; [apply Hl; by left|].
  apply ewp_bind. unfold the_frec. apply ewp_deref; [|cbn in Hp; congruence]. intros f' Hf'. cbn in Hp. rewrite Hp in Hf'. injection Hf' as <-.
  assert (Hl' : ∀ q, q ∈ l → (q < length (v_frecs (view s)))%nat) by (intros q Hq; apply Hl; by right).
  destruct (sentto f) as [i|] eqn:Ese.
  2: { apply IH; [done..|]. intros ? [= <-]. by exists f. }
  cbv zeta. set (late := 4 * TIMEOUT <=? now - fr_time f).
  apply ewp_bind. eapply (ewp_mono _ _ (λ _ s', aside (view s) (view s') ∧ finv Q None (view s') ∧ length (v_frecs (view s')) = length (v_frecs (view s)) ∧
    vacant (view s') target ∧ vacant (view s') (if late then Some p else None))).
  2: { unfold kwhen. destruct late; [|by apply ewp_ret]. eapply ewp_mono; [|apply (free_frec_ok Q None None p f s Hf Hp); by left].
       intros _ s' (Ha & He & Hf'). split; [done|]. split; [done|]. split; [by rewrite He, length_insert|].
       split; [by apply (vacant_freed (view s) _ p f)|]. intros ? [= <-]. rewrite He. exists (freed f). split; [|done]. apply list_lookup_insert_eq. by eapply lookup_lt_Some. }
  intros _ s1 (Ha1 & Hf1 & Hn1 & Hv1 & Hl1). apply ewp_bind, ewp_get.
  match goal with |- context [if ?b then Some p else oldest] => set (older := b) end.
  eapply ewp_mono; [|apply IH; [done|by rewrite Hn1| |]].
  - intros r s' (? & ? & Hn & ? & ?). split; [by eapply aside_trans|]. split; [done|]. split; [lia|done].
  - intros q Hq. rewrite Hn1. destruct older; [|by apply Ho]. injection Hq as <-. by eapply lookup_lt_Some.
  - by destruct late.
Qed.
Lemma frec_order_lt (d : daemon) p : p ∈ frec_order d → (p < length (frecs d))%nat.
Proof. unfold frec_order. rewrite elem_of_reverse, elem_of_seq. lia. Qed.
(** A record that is taken is not in use. *)
Lemma get_new_frec_ok fcfg Q now wait (s : rt fcall daemon) :
  finv Q None (view s) → ewp False (get_new_frec fcfg now wait) (λ r s', aside (view s) (view s') ∧ finv Q None (view s') ∧ (wait = false → vacant (view s') r.1)) s.
Proof.
  intros Hf. unfold get_new_frec. apply ewp_bind, ewp_get, ewp_bind.
  eapply ewp_mono; [|apply (scan_frecs_ok Q); [done|apply frec_order_lt|done|done]].
  intros [oldest target] s1 (Ha1 & Hf1 & Hn1 & Ho & Ht). cbn [fst snd] in Ho, Ht. apply ewp_bind, ewp_get.
  assert (Halloc : ewp False (allocate_frec now) (λ r s', aside (view s) (view s') ∧ finv Q None (view s') ∧ vacant (view s') r ∧ (r = None → view s' = view s1)) s1).
  { eapply ewp_mono; [|by apply allocate_frec_ok]. intros r s' (Ha & Hf' & Hr). split; [by eapply aside_trans|]. split; [done|].
    destruct r as [p|]; [|done]. split; [|done]. intros ? [= <-]. destruct Hr as [-> ->]. eexists. split; [by apply list_lookup_middle|done]. }
  assert (Hnew : ewp False (f ← allocate_frec now; mret (f, match f with None => 1 | Some _ => 0 end))
    (λ (r : option nat * Z) s', aside (view s) (view s') ∧ finv Q None (view s') ∧ (wait = false → vacant (view s') r.1)) s1).
  { apply ewp_bind. eapply ewp_mono; [|exact Halloc]. intros r s' (? & ? & ? & _). by apply ewp_ret. }
  destruct target as [p|].
  { destruct (Ht p eq_refl) as (f & Hp & Hse). apply ewp_bind. eapply ewp_mono; [|by apply (upd_minor Q None p f)].
    intros _ s2 (Ha2 & He2 & Hf2). apply ewp_ret. split; [by eapply aside_trans|]. split; [done|]. intros _ ? [= <-]. rewrite He2. eexists.
    split; [apply list_lookup_insert_eq; by eapply lookup_lt_Some|done]. }
  destruct oldest as [o|]; cbn [fst].
  2: { destruct (_ <? _); [by apply ewp_ret|done]. }
  destruct (TIMEOUT <=? _).
  2: { destruct (_ <? _); [by apply ewp_ret|done]. }
  apply ewp_bind. eapply (ewp_mono _ _ (λ r s', aside (view s) (view s') ∧ finv Q None (view s') ∧ vacant (view s') r ∧ (r = None → view s' = view s1))).
  2: { destruct (_ && _); [done|]. by apply ewp_ret. }
  intros [p|] s2 (Ha2 & Hf2 & Hv2 & Hr2); [by apply ewp_ret|]. specialize (Hr2 eq_refl).
  destruct wait; unfold kwhen; cbn [negb]; [apply ewp_bind, ewp_ret, ewp_ret; done|].
  destruct (lookup_lt_is_Some_2 (v_frecs (view s2)) o) as [f Hp]; [rewrite Hr2; by apply Ho|].
  apply ewp_bind, ewp_bind. eapply ewp_mono; [|apply (free_frec_ok Q None None o f s2 Hf2 Hp); by left]. intros _ s3 (Ha3 & He3 & Hf3).
  assert (Hp3 : v_frecs (view s3) !! o = Some (freed f)) by (rewrite He3; apply list_lookup_insert_eq; by eapply lookup_lt_Some).
  eapply ewp_mono; [|by apply (upd_minor Q None o (freed f))]. intros _ s4 (Ha4 & He4 & Hf4). apply ewp_ret.
  split; [by do 2 (eapply aside_trans; [eassumption|])|]. split; [done|]. intros _ ? [= <-]. rewrite He4. eexists.
  split; [apply list_lookup_insert_eq; by eapply lookup_lt_Some|done].
Qed.

(** *** Identifiers *)
Definition matches (id c : Z) (f : frec) : Prop := is_Some (sentto f) ∧ new_id f = id ∧ (crc f = c ∨ c = all_ones).
Lemma frec_test_spec id c f :
  bool_decide (is_Some (sentto f)) && (new_id f =? id) && ((crc f =? c) || (c =? 0xffffffff)) = true ↔ matches id c f.
Proof. unfold matches, all_ones. rewrite !andb_true_iff, orb_true_iff, !Z.eqb_eq, bool_decide_eq_true. tauto. Qed.
Lemma frec_order_in (d : daemon) p f : frecs d !! p = Some f → In p (frec_order d).
Proof. intros Hp. apply list_elem_of_In. unfold frec_order. rewrite elem_of_reverse, elem_of_seq. apply lookup_lt_Some in Hp. lia. Qed.
Lemma frec_at_lookup (d : daemon) p : (p < length (frecs d))%nat → frecs d !! p = Some (frec_at d p).
Proof. intros Hp. unfold frec_at. destruct (lookup_lt_is_Some_2 _ _ Hp) as [f Hf]. by rewrite Hf. Qed.
Lemma lookup_frec_found id c d p : lookup_frec_in id c d = Some p → frecs d !! p = Some (frec_at d p) ∧ matches id c (frec_at d p).
Proof.
  intros [Hin Hm]%List.find_some. apply frec_test_spec in Hm. split; [|done]. apply frec_at_lookup, frec_order_lt, list_elem_of_In, Hin.
Qed.
Lemma lookup_frec_none id c d p f : lookup_frec_in id c d = None → frecs d !! p = Some f → matches id c f → False.
Proof.
  intros Hn Hp Hm. apply frec_test_spec in Hm. pose proof (List.find_none _ _ Hn p (frec_order_in d p f Hp)) as H0. cbn in H0.
  unfold frec_at in H0. rewrite Hp in H0. cbn in H0. congruence.
Qed.
Definition fresh (v : view_) (id c : Z) : Prop := ∀ q g, v_frecs v !! q = Some g → is_Some (sentto g) → new_id g = id → crc g = c → c = all_ones.
Lemma draw_id_ok c tries : ∀ s : rt fcall daemon,
  ewp False (draw_id tries c) (λ r s', view s' = view s ∧ ∀ id, r = Some id → fresh (view s') id c) s.
Proof.
  induction tries as [|tries IH]; intros s; [by apply ewp_ret|]. cbn [draw_id]. apply ewp_bind. unfold kret. apply ewp_bind, ewp_any. intros resp. apply ewp_ret.
  match goal with |- ewp _ _ _ ?s2 => set (s1 := s2) end. assert (Hv : view s1 = view s) by (unfold s1; rewrite view_other by done; by destruct s).
  apply ewp_bind, ewp_get. destruct (lookup_frec_in _ c (st s1)) eqn:El.
  - eapply ewp_mono; [|apply IH]. intros r s' [He Hr]. split; [congruence|done].
  - apply ewp_ret. split; [done|]. intros id [= <-] q g Hq Hs Hid Hc. exfalso. eapply lookup_frec_none; [exact El|exact Hq|]. split; [done|]. split; [done|]. by left.
Qed.
Lemma get_id_ok Q tries force force_id c (s : rt fcall daemon) :
  finv Q None (view s) → ewp False (get_id tries force force_id c) (λ r s', aside (view s) (view s') ∧ finv Q None (view s') ∧
    (∀ o, vacant (view s) o → vacant (view s') o) ∧ ∀ id, r = Some id → fresh (view s') id c) s.
Proof.
  intros Hf. unfold get_id. destruct force.
  2: { eapply ewp_mono; [|apply draw_id_ok]. intros r s' [He Hr]. rewrite He in Hr |- *. done. }
  apply ewp_bind, ewp_get. destruct (lookup_frec_in force_id c (st s)) as [p|] eqn:El.
  - destruct (lookup_frec_found _ _ _ _ El) as (Hp & Hs & Hid & Hc). apply ewp_bind.
    eapply ewp_mono; [|apply (free_frec_ok Q None None p _ s Hf Hp); by left]. intros _ s' (Ha & He & Hf'). apply ewp_ret.
    split; [done|]. split; [done|]. split; [intros o; by eapply vacant_freed|]. intros id [= <-] q g Hq Hg Hgid Hgc. rewrite He in Hq.
    destruct (decide (q = p)) as [->|Hne]; [rewrite list_lookup_insert_eq in Hq by (by eapply lookup_lt_Some); injection Hq as <-; by destruct Hg as [? [=]]|].
    rewrite list_lookup_insert_ne in Hq by done. destruct Hc as [Hc|Hc]; [|done]. rewrite <- Hc. destruct Hf as [[_ _ T3 _] _].
    eapply (T3 p q); [exact Hp|exact Hq|done|by right|by right|congruence|congruence].
  - apply ewp_bind, ewp_ret, ewp_ret. split; [done|]. split; [done|]. split; [done|]. intros id [= <-] q g Hq Hg Hgid Hgc. exfalso.
    eapply lookup_frec_none; [exact El|exact Hq|]. split; [done|]. split; [done|]. by left.
Qed.
(** A vacant record becomes that of a query. *)
Lemma finv_busy Q v p f src dst ifc oid nid fd c :
  finv Q None v → v_frecs v !! p = Some f → sentto f = None → fresh v nid c → (src, fd, oid, c) ∈ Q →
  finv Q (Some p) (with_frecs (<[p := set_query src dst ifc oid nid fd c f]> (v_frecs v)) v).
Proof.
  intros [[T1 T2 T3 T4] Hs] Hp Hn Hfr HQ. set (g := set_query src dst ifc oid nid fd c f).
  assert (Hl : ∀ q h, <[p := g]> (v_frecs v) !! q = Some h → (q = p ∧ h = g) ∨ (q ≠ p ∧ v_frecs v !! q = Some h)).
  { intros q h Hq'. destruct (decide (q = p)) as [->|Hne]; [left|right].
    - rewrite list_lookup_insert_eq in Hq' by (by eapply lookup_lt_Some). naive_solver.
    - by rewrite list_lookup_insert_ne in Hq' by done. }
  assert (Ha : ∀ q h, q ≠ p → active (Some p) q h → is_Some (sentto h)) by (intros q h Hq [[= ->]|?]; done).
  split; cbn; [split|].
  - intros q h [[-> ->]|[Hq Hh]]%Hl Hb Hse; [done|]. by apply (T1 q).
  - intros q h i [[-> ->]|[Hq Hh]]%Hl Hse; [cbn in Hse; congruence|by eapply T2].
  - intros q r h k [[-> ->]|[Hq Hh]]%Hl [[-> ->]|[Hr Hk]]%Hl Hne Ah Ak Hid Hc; [done| | |].
    + cbn in Hid, Hc |- *. apply (Hfr r k); eauto.
    + cbn in Hid, Hc |- *. rewrite Hc. apply (Hfr q h); eauto.
    + eapply (T3 q r h k); eauto; right; eauto.
  - intros q h [[-> ->]|[Hq Hh]]%Hl Ah; [done|]. eapply T4; [done|]. right. eauto.
  - eapply socks_cnt; [|exact Hs]. intros j. symmetry. by eapply refs_same.
Qed.
Lemma finv_enter Q v p f : finv Q None v → v_frecs v !! p = Some f → is_Some (sentto f) → finv Q (Some p) v.
Proof.
  intros [[T1 T2 T3 T4] Hs] Hp Hf. split; [|done].
  assert (Ha : ∀ q h, v_frecs v !! q = Some h → active (Some p) q h → active None q h) by (intros q h Hq [[= ->]|?]; right; [congruence|done]).
  split; [|done|..]; [intros q h Hq _; by apply (T1 q)| |]; eauto.
Qed.
Lemma finv_leave Q v p f : finv Q (Some p) v → v_frecs v !! p = Some f → is_Some (sentto f) → finv Q None v.
Proof.
  intros [[T1 T2 T3 T4] Hs] Hp [i Hf]. split; [|done].
  assert (Ha : ∀ q h, active None q h → active (Some p) q h) by (intros q h [[=]|?]; by right).
  split; [|done|..]; [| |]; eauto.
  intros q h Hq _ Hn. apply (T1 q h Hq); [|done]. intros [= <-]. congruence.
Qed.
Lemma finv_more Q Q' busy v : (∀ x, x ∈ Q → x ∈ Q') → finv Q busy v → finv Q' busy v.
Proof. intros HQ [[T1 T2 T3 T4] Hs]. split; [|done]. split; eauto. Qed.

(** *** What leaves the table and the clients alone *)
Definition quiet {A} (m : F A) : Prop := ∀ s, ewp True m (λ _ s', view s' = view s) s.
Lemma quiet_ret {A} (a : A) : quiet (mret a).
Proof. intros s. by apply ewp_ret. Qed.
Lemma quiet_bind {A B} (m : F A) (f : A → F B) : quiet m → (∀ a, quiet (f a)) → quiet (m ≫= f).
Proof.
  intros Hm Hf s. apply ewp_bind. eapply ewp_mono; [|apply Hm]. intros a s' He. eapply ewp_mono; [|apply Hf]. intros b s2 He2. congruence.
Qed.
Lemma quiet_kget {A} (f : daemon → A) : quiet (kget f).
Proof. intros s. by apply ewp_get. Qed.
Lemma quiet_klift {A} (o : outcome A) : quiet (klift o).
Proof. intros s. by apply ewp_lift. Qed.
Lemma quiet_kderef {A} (f : daemon → option A) : quiet (kderef f).
Proof. intros s. by apply ewp_deref. Qed.
Lemma quiet_ub {A} : quiet (kub : F A).
Proof. intros s. by apply ewp_ub. Qed.
Lemma quiet_kmod (f : daemon → daemon) :
  (∀ d, frecs (f d) = frecs d ∧ randomsocks (f d) = randomsocks d ∧ length (servers (f d)) = length (servers d)) → quiet (kmod f).
Proof. intros Hf s. apply ewp_mod. unfold view. cbn. by destruct (Hf (st s)) as (-> & -> & ->). Qed.
Lemma quiet_kcall c : (∀ r, sock_event (c, r) = false) → (∀ r, send_event (c, r) = None) → quiet (kcall_ c).
Proof. intros H1 H2 s. apply ewp_any. intros r. rewrite view_other by done. by destruct s. Qed.
Lemma quiet_server i g : quiet (upd_server i g).
Proof. apply quiet_kmod. intros d. cbn. by rewrite length_alter. Qed.
Lemma ewp_quiet {A} (m : F A) (P : A → rt fcall daemon → Prop) s : quiet m → (∀ a s', view s' = view s → P a s') → ewp True m P s.
Proof. intros Hm HP. eapply ewp_mono; [|apply Hm]. exact HP. Qed.
Lemma ewp_sure {A} (m : F A) (P : A → rt fcall daemon → Prop) s : ewp False m P s → ewp True m P s.
Proof. by apply ewp_weaken. Qed.
Ltac quiet_step :=
  match goal with
  | |- quiet (mbind _ _) => apply quiet_bind; [|intros ?]
  | |- quiet (mret _) => apply quiet_ret
  | |- quiet (kget _) => apply quiet_kget
  | |- quiet (klift _) => apply quiet_klift
  | |- quiet (kderef _) => apply quiet_kderef
  | |- quiet kub => apply quiet_ub
  | |- quiet (kmod _) => apply quiet_kmod; done
  | |- quiet (upd_server _ _) => apply quiet_server
  | |- quiet (kcall_ _) => apply quiet_kcall; done
  | |- quiet (kret _) => unfold kret
  | |- quiet (kdo _) => unfold kdo
  | |- quiet (kwhen _ _) => unfold kwhen
  | |- quiet (the_server _) => unfold the_server
  | |- quiet (the_frec _) => unfold the_frec
  | |- quiet (match ?x with _ => _ end) => destruct x
  | |- quiet (let _ := _ in _) => cbv zeta
  | _ => solve [eauto with quiet]
  end.
Ltac quieten := repeat quiet_step.
Lemma quiet_set_id id : quiet (set_id id).
Proof. unfold set_id. quieten. Qed.
Hint Resolve quiet_set_id : quiet.
Section Conf.
Context (mix_tab : list Z) (cfg : config) (fcfg : fwd_config).
Lemma quiet_search_servers now qtype name : quiet (search_servers mix_tab cfg fcfg now qtype name).
Proof. unfold search_servers. quieten. Qed.
Lemma quiet_complain srv m rc : quiet (complain fcfg srv m rc).
Proof. unfold complain. quieten. Qed.
Hint Resolve quiet_complain : quiet.
Lemma quiet_learn_reply junk now n rc m : quiet (learn_reply mix_tab cfg fcfg junk now n rc m).
Proof. unfold learn_reply. quieten. Qed.
Hint Resolve quiet_learn_reply : quiet.
Lemma quiet_process_reply junk now srv n : quiet (process_reply mix_tab cfg fcfg junk now srv n).
Proof. unfold process_reply. quieten. Qed.
Lemma quiet_mark_server rc a i : quiet (mark_server fcfg rc a i).
Proof. unfold mark_server. quieten. Qed.

(** *** Sending a query on *)
Definition sent (v : view_) (p : nat) : Prop := ∃ f, v_frecs v !! p = Some f ∧ is_Some (sentto f).
Definition working (Q : list asked) (p : nat) (v0 v : view_) : Prop := finv Q (Some p) v ∧ aside v0 v ∧ is_Some (v_frecs v !! p).
Definition works (Q : list asked) (p : nat) (v0 : view_) (s s' : rt fcall daemon) : Prop := working Q p v0 (view s') ∧ (sent (view s) p → sent (view s') p).
Lemma works_same Q p v0 (s s' : rt fcall daemon) : view s' = view s → working Q p v0 (view s) → works Q p v0 s s'.
Proof. intros He Hw. unfold works. by rewrite He. Qed.
Lemma works_trans Q p v0 (s1 s2 s3 : rt fcall daemon) : works Q p v0 s1 s2 → works Q p v0 s2 s3 → works Q p v0 s1 s3.
Proof. intros [_ ?] [? ?]. split; [done|auto]. Qed.
(** a change of the record that keeps the query *)
Lemma works_set Q p v0 (s s' : rt fcall daemon) f g v1 :
  v_frecs (view s) !! p = Some f → aside v0 (view s) → v_frecs v1 = v_frecs (view s) → aside (view s) v1 →
  table_ok Q (Some p) (v_frecs (view s)) (v_n (view s)) → view s' = with_frecs (<[p := g]> (v_frecs v1)) v1 →
  socks_ok (v_events v1) (v_socks v1) (refs (<[p := g]> (v_frecs v1))) →
  (∀ i, sentto g = Some i → (i < v_n v0)%nat) → (is_Some (sentto f) → is_Some (sentto g)) →
  new_id g = new_id f → query_of g = query_of f → works Q p v0 s s'.
Proof.
  intros Hp Ha Hf1 Ha1 Ht Hv Hs Hn Hse Hid Hq. pose proof (lookup_lt_Some _ _ _ Hp) as Hlt.
  assert (Hg : v_frecs (view s') !! p = Some g) by (rewrite Hv; cbn; apply list_lookup_insert_eq; by rewrite Hf1).
  split; [split; [|split]|].
  - rewrite Hv. split; [|done]. cbn. rewrite Hf1, (proj1 Ha1). eapply table_set; [exact Ht|exact Hp|by left|done| |by left|done|done].
    by rewrite (proj1 Ha).
  - rewrite Hv. eapply aside_trans; [exact Ha|]. exact Ha1.
  - by rewrite Hg.
  - intros (f' & Hf' & Hs'). exists g. split; [done|]. apply Hse. congruence.
Qed.
Lemma uses_rfd4 f r j : rfd4 f = None → uses j (set_rfd4 r f) = ((if decide (r = Some j) then 1 else 0) + uses j f)%nat.
Proof. intros Hn. unfold uses. cbn. rewrite Hn. repeat case_decide; try done; lia. Qed.
Lemma uses_rfd6 f r j : rfd6 f = None → uses j (set_rfd6 r f) = ((if decide (r = Some j) then 1 else 0) + uses j f)%nat.
Proof. intros Hn. unfold uses. cbn. rewrite Hn. repeat case_decide; try done; lia. Qed.
Lemma new_rfd_ok Q p v0 f fam (put_rfd : option nat → frec → frec) (s : rt fcall daemon) :
  (∀ r j, uses j (put_rfd r f) = ((if decide (r = Some j) then 1 else 0) + uses j f)%nat) →
  (∀ r, sentto (put_rfd r f) = sentto f ∧ new_id (put_rfd r f) = new_id f ∧ query_of (put_rfd r f) = query_of f) →
  working Q p v0 (view s) → v_frecs (view s) !! p = Some f →
  ewp True (j ← allocate_rfd fam; upd_frec p (put_rfd j) ;; mret j) (λ _ s', works Q p v0 s s') s.
Proof.
  intros Hu Hk ([Ht Hs] & Ha & _) Hp. apply ewp_bind, ewp_sure. eapply ewp_mono; [|by apply allocate_rfd_ok].
  intros r s1 (socks & ev & Hv1 & Hs1). apply ewp_bind, ewp_mod, ewp_ret. destruct (Hk r) as (H1 & H2 & H3).
  assert (Hf1 : frecs (st s1) = v_frecs (view s)) by (by injection Hv1).
  eapply (works_set Q p v0 s _ f (put_rfd r f) (view s1)); [done|done|done|by rewrite Hv1| done| | | |by rewrite H1|done|done].
  - rewrite view_frecs, Hf1, (alter_insert _ _ _ _ Hp). replace (mk_rt (calls s1) (st s1)) with s1 by (by destruct s1).
    change (v_frecs (view s1)) with (frecs (st s1)). by rewrite Hf1.
  - rewrite Hv1. cbn. eapply socks_cnt; [|exact Hs1]. intros k. cbn beta. pose proof (refs_set _ p f (put_rfd r f) k Hp) as He. rewrite Hu in He.
    change (v_frecs (view s)) with (frecs (st s)) in *. case_decide; lia.
  - intros i Hi. rewrite H1 in Hi. destruct Ht as [_ T2 _ _]. rewrite <- (proj1 Ha). by eapply T2.
Qed.
Lemma random_fd_ok Q p v0 sv (s : rt fcall daemon) :
  working Q p v0 (view s) → ewp True (random_fd p sv) (λ _ s', works Q p v0 s s') s.
Proof.
  intros Hw. destruct (proj2 (proj2 Hw)) as [f Hp]. unfold random_fd. apply ewp_bind. unfold the_frec. apply ewp_deref; [|done].
  intros f' Hf'. cbn in Hp. rewrite Hp in Hf'. injection Hf' as <-. apply ewp_bind.
  eapply (ewp_mono _ _ (λ _ s', works Q p v0 s s')).
  - intros [j|] s1 H1; [|by apply ewp_ret]. apply ewp_quiet; [quieten|]. intros _ s2 He. eapply works_trans; [exact H1|]. apply works_same; [done|]. apply H1.
  - assert (Hold : ∀ j : nat, ewp True (mret (Some j)) (λ _ s', works Q p v0 s s') s) by (intros j; apply ewp_ret; by apply works_same).
    destruct (sv_addr sv); [destruct (rfd4 f) eqn:E4|destruct (rfd6 f) eqn:E6|destruct (rfd4 f) eqn:E4]; try apply Hold.
    + apply (new_rfd_ok Q p v0 f AF_INET set_rfd4); try done. intros r j. by apply uses_rfd4.
    + apply (new_rfd_ok Q p v0 f AF_INET6 set_rfd6); try done. intros r j. by apply uses_rfd6.
    + apply (new_rfd_ok Q p v0 f AF_INET set_rfd4); try done. intros r j. by apply uses_rfd4.
Qed.
Lemma sentto_works Q p v0 i (s : rt fcall daemon) :
  working Q p v0 (view s) → (i < v_n v0)%nat → ewp True (upd_frec p (set_sentto (Some i))) (λ _ s', works Q p v0 s s' ∧ sent (view s') p) s.
Proof.
  intros ([Ht Hs] & Ha & [f Hp]) Hi. apply ewp_mod. rewrite view_frecs. replace (mk_rt (calls s) (st s)) with s by (by destruct s).
  rewrite (alter_insert _ _ _ _ Hp). split.
  - eapply (works_set Q p v0 s _ f (set_sentto (Some i) f) (view s)); [done..|by destruct s| |by intros ? [= <-]|by eexists|done|done].
    eapply socks_cnt; [|exact Hs]. intros j. symmetry. by eapply refs_same.
  - eexists. split; [apply list_lookup_insert_eq; by eapply lookup_lt_Some|by eexists].
Qed.
Lemma forwardall_works Q p v0 n (s : rt fcall daemon) :
  working Q p v0 (view s) → ewp True (upd_frec p (set_forwardall n)) (λ _ s', works Q p v0 s s') s.
Proof.
  intros (Hf & Ha & [f Hp]). apply ewp_sure. eapply ewp_mono; [|by apply (upd_minor Q (Some p) p f)]. intros _ s' (Ha' & He & Hf').
  assert (Hp' : v_frecs (view s') !! p = Some (set_forwardall n f)) by (rewrite He; apply list_lookup_insert_eq; by eapply lookup_lt_Some).
  split; [split; [done|]; split; [by eapply aside_trans|by rewrite Hp']|]. intros (g & Hg & Hs). exists (set_forwardall n f). split; [done|].
  rewrite Hp in Hg. by injection Hg as <-.
Qed.
Definition turn_sent (r : option send_turn) : bool := match r with Some (SendNext b) | Some (SendBreak b) => b | None => false end.
Lemma server_turn_ok Q p v0 i type domain plen gotname tries : ∀ s : rt fcall daemon,
  working Q p v0 (view s) →
  ewp True (server_turn tries p i type domain plen gotname) (λ r s', works Q p v0 s s' ∧ (turn_sent r = true → sent (view s') p)) s.
Proof.
  induction tries as [|tries IH]; intros s Hw; [apply ewp_ret; split; [by apply works_same|done]|]. cbn [server_turn].
  assert (Hno : ∀ s' r, works Q p v0 s s' → turn_sent r = false → works Q p v0 s s' ∧ (turn_sent r = true → sent (view s') p)) by (intros s' r H1 ->; done).
  apply ewp_bind. unfold the_server. apply ewp_deref; [|done]. intros sv Hsv. apply ewp_bind, ewp_quiet; [quieten|]. intros same s1 Hv1.
  assert (Hi : (i < v_n v0)%nat).
  { apply lookup_lt_Some in Hsv. rewrite <- (proj1 (proj1 (proj2 Hw))). exact Hsv. }
  assert (Hw1 : works Q p v0 s s1) by (by apply works_same). clear Hv1 Hsv.
  destruct (_ || _); [by apply ewp_ret, Hno|]. apply ewp_bind. eapply (ewp_mono _ _ (λ _ s', works Q p v0 s s')).
  2: { destruct (sfd sv); [by apply ewp_ret|]. eapply ewp_mono; [|apply (random_fd_ok Q p v0); apply Hw1]. intros ? s' H'. eapply works_trans; [exact Hw1|exact H']. }
  intros [fd|] s2 Hw2; [|by apply ewp_ret, Hno]. apply ewp_bind, ewp_quiet; [quieten|]. intros m s3 Hv3. apply ewp_bind, ewp_quiet; [quieten|]. intros r s4 Hv4.
  assert (Hw4 : works Q p v0 s s4) by (eapply works_trans; [exact Hw2|]; apply works_same; [congruence|apply Hw2]). clear Hv3 Hv4.
  destruct (r =? -1).
  { apply ewp_bind, ewp_quiet; [quieten|]. intros again s5 Hv5.
    assert (Hw5 : works Q p v0 s s5) by (eapply works_trans; [exact Hw4|]; apply works_same; [congruence|apply Hw4]).
    destruct (negb (again =? 0)); [|by apply ewp_ret, Hno]. eapply ewp_mono; [|apply IH, Hw5]. intros r' s' [H1 H2]. split; [by eapply works_trans|done]. }
  apply ewp_bind, ewp_quiet; [quieten|]. intros _ s5 Hv5. apply ewp_bind, ewp_quiet; [quieten|]. intros _ s6 Hv6. apply ewp_bind, ewp_quiet; [quieten|]. intros _ s7 Hv7.
  assert (Hw7 : works Q p v0 s s7) by (eapply works_trans; [exact Hw4|]; apply works_same; [congruence|apply Hw4]).
  apply ewp_bind. eapply ewp_mono; [|apply (sentto_works Q p v0 i); [apply Hw7|done]]. intros _ s8 [Hw8 Hs8].
  apply ewp_bind, ewp_quiet; [quieten|]. intros f9 s9 Hv9.
  assert (Hw9 : works Q p v0 s s9) by (do 2 (eapply works_trans; [eassumption|]); apply works_same; [done|apply Hw8]).
  assert (Hs9 : sent (view s9) p) by (by rewrite Hv9).
  destruct (forwardall f9 =? 0); [by apply ewp_ret|]. apply ewp_bind. eapply ewp_mono; [|apply (forwardall_works Q p v0); apply Hw9].
  intros ? s10 H10. apply ewp_ret. split; [by eapply works_trans|]. intros _. by apply H10.
Qed.
Lemma send_loop_ok Q p v0 type domain plen gotname tries n k : ∀ i forwarded (s : rt fcall daemon),
  working Q p v0 (view s) → (forwarded = true → sent (view s) p) →
  ewp True (send_loop tries k n p i type domain plen gotname forwarded) (λ r s', working Q p v0 (view s') ∧ (r = Some true → sent (view s') p)) s.
Proof.
  induction k as [|k IH]; intros i forwarded s Hw Hf; cbn [send_loop]; [apply ewp_ret; split; [done|intros [= ->]; auto]|].
  apply ewp_bind. eapply ewp_mono; [|apply (server_turn_ok Q p v0); exact Hw]. intros r s1 [[Hw1 Hk1] Hs1].
  destruct r as [[b|b]|]; [|apply ewp_ret; split; [done|]|by apply ewp_ret].
  - apply IH; [done|]. intros [H0|H0]%orb_true_iff; auto.
  - intros [= [H0|H0]%orb_true_iff]; auto.
Qed.

(** *** forward_query *)
Lemma plan_retry_ok Q p (s : rt fcall daemon) :
  finv Q None (view s) → sent (view s) p →
  ewp True (plan_retry fcfg p) (λ pl s', pl_forward pl = Some p ∧ pl_flags pl = 0 ∧ working Q p (view s) (view s')) s.
Proof.
  intros Hf (f & Hp & Hs). assert (Hw : working Q p (view s) (view s)) by (split; [by eapply finv_enter|by rewrite Hp]).
  unfold plan_retry. apply ewp_bind, ewp_quiet; [quieten|]. intros f1 s1 H1. apply ewp_bind, ewp_quiet; [quieten|]. intros i s2 H2.
  apply ewp_bind, ewp_quiet; [quieten|]. intros sv s3 H3. apply ewp_bind, ewp_quiet; [quieten|]. intros _ s4 H4.
  assert (H04 : view s4 = view s) by congruence. rewrite <- H04 in Hw at 2.
  apply ewp_bind. eapply (ewp_mono _ _ (λ _ s', working Q p (view s) (view s'))).
  2: { unfold kwhen. destruct (negb _); [|by apply ewp_ret]. apply ewp_bind. eapply ewp_mono; [|by apply (forwardall_works Q p (view s))].
       intros ? s5 [H5 _]. apply ewp_quiet; [quieten|]. intros _ s6 H6. by rewrite H6. }
  intros ? s5 H5. apply ewp_bind, ewp_quiet; [quieten|]. intros n s6 H6. apply ewp_bind, ewp_quiet; [quieten|]. intros ? s7 H7. apply ewp_ret.
  split; [done|]. split; [done|]. by rewrite H7, H6.
Qed.
Lemma first_server_ok Q p v0 now type (s : rt fcall daemon) :
  working Q p v0 (view s) → ewp True (first_server fcfg now type p) (λ _ s', working Q p v0 (view s')) s.
Proof.
  intros Hw. unfold first_server. apply ewp_bind, ewp_quiet; [quieten|]. intros last s1 H1. rewrite <- H1 in Hw. destruct (_ || _); [by apply ewp_ret|].
  apply ewp_bind, ewp_quiet; [quieten|]. intros test s2 H2. rewrite <- H2 in Hw. destruct test; [|by apply ewp_ret].
  apply ewp_bind. eapply ewp_mono; [|by apply (forwardall_works Q p v0)]. intros ? s3 [H3 _]. apply ewp_quiet; [quieten|]. intros _ s4 H4. by rewrite H4.
Qed.
Definition asked_by (udpaddr : mysockaddr) (udpfd : Z) (m : list Z) (plen : nat) (nb : list Z) : list asked :=
  match GETSHORT m 0, questions_crc m plen nb with Val id, Val c => [(udpaddr, udpfd, id, c)] | _, _ => [] end.
Definition planned (Q : list asked) (v0 : view_) (pl : plan) (v : view_) : Prop :=
  match pl_forward pl with Some p => pl_flags pl = 0 ∧ working Q p v0 v | None => finv Q None v ∧ aside v0 v end.
Lemma plan_new_ok Q tries udpfd udpaddr dst_addr dst_iface m plen now c gotname (s : rt fcall daemon) :
  finv Q None (view s) → (∀ id, GETSHORT m 0 = Val id → (udpaddr, udpfd, id, c) ∈ Q) →
  ewp True (plan_new mix_tab cfg fcfg tries udpfd udpaddr dst_addr dst_iface m plen now c gotname)
    (λ r s', ∀ pl, r = Some pl → planned Q (view s) pl (view s')) s.
Proof.
  intros Hf HQ. unfold plan_new. apply ewp_bind, ewp_quiet; [quieten|]. intros name s1 H1.
  apply ewp_bind, ewp_quiet; [destruct (gotname =? 0); [quieten|apply quiet_search_servers]|]. intros r s2 H2.
  assert (H02 : view s2 = view s) by congruence. destruct (negb _).
  { apply ewp_ret. intros pl [= <-]. unfold planned. cbn. by rewrite H02. }
  rewrite <- H02 in Hf |- *. apply ewp_bind, ewp_sure. eapply ewp_mono; [|by apply (get_new_frec_ok fcfg Q)]. intros [fw wt] s3 (Ha3 & Hf3 & Hv3). cbn [fst] in *.
  specialize (Hv3 eq_refl). destruct fw as [p|]; [|by apply ewp_ret; intros pl [= <-]].
  apply ewp_bind, ewp_quiet; [quieten|]. intros ph s4 H4. apply ewp_bind, ewp_lift; [|done]. intros id Hid.
  apply ewp_bind, ewp_sure. eapply ewp_mono; [|apply (get_id_ok Q); by rewrite H4]. intros nid s5 (Ha5 & Hf5 & Hv5 & Hfr5).
  destruct nid as [nid|]; [|by apply ewp_ret]. specialize (Hfr5 nid eq_refl). rewrite H4 in Ha5, Hv5. destruct (Hv5 _ Hv3 p eq_refl) as (f & Hp & Hse).
  apply ewp_bind. unfold upd_frec. apply ewp_mod. rewrite (alter_insert _ _ _ _ Hp). match goal with |- ewp _ _ _ ?s' => set (s6 := s') end.
  set (g := set_query udpaddr dst_addr dst_iface id nid udpfd c f) in *.
  assert (Hw6 : working Q p (view s2) (view s6)).
  { assert (Hv6 : view s6 = with_frecs (<[p := g]> (v_frecs (view s5))) (view s5)) by (unfold s6; rewrite view_frecs; by destruct s5).
    rewrite Hv6. split; [apply finv_busy; auto|]. split; [by eapply aside_trans|]. cbn. rewrite list_lookup_insert_eq; [by eexists|by eapply lookup_lt_Some]. }
  clearbody s6. apply ewp_bind, ewp_quiet; [quieten|]. intros _ s7 H7. rewrite <- H7 in Hw6.
  apply ewp_bind. eapply ewp_mono; [|by apply (first_server_ok Q p (view s2))]. intros start s8 H8. apply ewp_ret. intros pl [= <-]. done.
Qed.
(** *** Messages for clients *)
Definition with_sends (l : list (Z * list Z * mysockaddr)) (v : view_) : view_ := mk_view (v_frecs v) (v_socks v) (v_n v) (v_events v) (v_sends v ++ l).
Lemma with_sends_nil v : with_sends [] v = v.
Proof. unfold with_sends. rewrite app_nil_r. by destruct v. Qed.
Lemma with_sends_app l l' v : with_sends l' (with_sends l v) = with_sends (l ++ l') v.
Proof. unfold with_sends. cbn. by rewrite app_assoc. Qed.
Lemma finv_sends Q busy l v : finv Q busy v → finv Q busy (with_sends l v).
Proof. done. Qed.
Lemma send_msg_ok fd data to tries : ∀ control (s : rt fcall daemon),
  ewp True (send_msg tries fd data to control) (λ _ s', ∃ k, view s' = with_sends (repeat (fd, data, to) k) (view s)) s.
Proof.
  induction tries as [|tries IH]; intros control s; [apply ewp_ret; exists 0%nat; by rewrite with_sends_nil|]. cbn [send_msg].
  apply ewp_bind. unfold kret at 1. apply ewp_bind, ewp_any. intros resp. apply ewp_ret. match goal with |- ewp _ _ _ ?s' => set (s1 := s') end.
  assert (H1 : view s1 = with_sends (repeat (fd, data, to) 1) (view s)).
  { unfold s1. rewrite view_call. cbn [sock_event send_event fst]. rewrite app_nil_r. by destruct s. }
  clearbody s1. assert (Hone : ∀ s', view s' = view s1 → ∃ k, view s' = with_sends (repeat (fd, data, to) k) (view s)) by (intros s' ->; by exists 1%nat).
  assert (Hmore : ∀ c s', view s' = view s1 → ewp True (send_msg tries fd data to c) (λ _ s', ∃ k, view s' = with_sends (repeat (fd, data, to) k) (view s)) s').
  { intros c s' Hs'. eapply ewp_mono; [|apply IH]. intros ? s2 [k Hk]. exists (S k). rewrite Hk, Hs', H1, with_sends_app, <- repeat_app. done. }
  destruct (negb _); [apply ewp_ret; auto|]. apply ewp_bind, ewp_quiet; [quieten|]. intros e s2 H2. destruct (_ && _); [auto|].
  apply ewp_bind, ewp_quiet; [quieten|]. intros again s3 H3. rewrite H2 in H3. destruct (negb _); [auto|apply ewp_ret; auto].
Qed.
(** everything that was sent went to a client through a socket *)
Definition sent_to (fd : Z) (to : mysockaddr) (s s' : rt fcall daemon) : Prop :=
  ∃ l, view s' = with_sends l (view s) ∧ ∀ x, x ∈ l → x.1.1 = fd ∧ x.2 = to.
Lemma send_from_ok tries fd len to src ifc (s : rt fcall daemon) :
  ewp True (send_from fcfg tries fd len to src ifc) (λ _ s', ∃ k, view s' = with_sends (repeat (fd, take len (d_packet (st s)), to) k) (view s)) s.
Proof. unfold send_from. apply ewp_bind, ewp_get. apply send_msg_ok. Qed.

Lemma working_free Q p v0 (s : rt fcall daemon) :
  working Q p v0 (view s) → ewp False (free_frec p) (λ _ s', finv Q None (view s') ∧ aside v0 (view s')) s.
Proof.
  intros (Hf & Ha & [f Hp]). eapply ewp_mono; [|apply (free_frec_ok Q (Some p) None p f s Hf Hp); by right]. intros ? s' (Ha' & _ & Hf').
  split; [done|by eapply aside_trans].
Qed.
Lemma working_leave Q p v0 v : working Q p v0 v → sent v p → finv Q None v ∧ aside v0 v.
Proof. intros (Hf & Ha & _) (f & Hp & Hs). split; [by eapply finv_leave|done]. Qed.
(** what forward_query sends to a client goes to the one that asks *)
Definition answers (udpfd : Z) (udpaddr : mysockaddr) (v0 v : view_) : Prop :=
  v_n v = v_n v0 ∧ ∃ l, v_sends v = v_sends v0 ++ l ∧ (udpfd = -1 → l = []) ∧ ∀ x, x ∈ l → x.1.1 = udpfd ∧ x.2 = udpaddr.
Lemma aside_answers udpfd udpaddr v0 v : aside v0 v → answers udpfd udpaddr v0 v.
Proof. intros [? Hs]. split; [done|]. exists []. rewrite app_nil_r. split; [done|]. split; [done|]. by intros x ?%elem_of_nil. Qed.
Lemma forward_query_ok Q tries udpfd udpaddr dst_addr dst_iface plen now forward (s : rt fcall daemon) :
  finv Q None (view s) →
  (∀ x, x ∈ asked_by udpaddr udpfd (d_packet (st s)) plen (namebuff (st s)) → x ∈ Q) ∨ is_Some forward →
  (∀ p, forward = Some p → sent (view s) p) →
  ewp True (forward_query mix_tab cfg fcfg tries udpfd udpaddr dst_addr dst_iface plen now forward)
    (λ r s', r ≠ None → finv Q None (view s') ∧ answers udpfd udpaddr (view s) (view s')) s.
Proof.
  intros Hf HQ Hfw. unfold forward_query. apply ewp_bind, ewp_get, ewp_bind, ewp_get, ewp_bind, ewp_lift; [|done]. intros c Hc.
  apply ewp_bind, ewp_quiet; [quieten|]. intros [[gotname ty] nb] s1 H1. apply ewp_bind, ewp_quiet; [quieten|]. intros _ s2 H2.
  apply ewp_bind, ewp_quiet; [quieten|]. intros n s3 H3. assert (H03 : view s3 = view s) by congruence. clear H1 H2 H3.
  apply ewp_bind. eapply (ewp_mono _ _ (λ r s', ∀ pl, r = Some pl → planned Q (view s) pl (view s'))).
  2: { rewrite <- H03 in Hf, Hfw |- *. destruct (n =? 0)%nat; [by apply ewp_ret; intros pl [= <-]|].
       apply ewp_bind. eapply (ewp_mono _ _ (λ fw s', view s' = view s3 ∧ match fw with Some p => sent (view s3) p | None => forward = None end)).
       2: { destruct forward as [p|]; [apply ewp_ret; split; [done|by apply Hfw]|]. apply ewp_bind, ewp_lift; [|done]. intros id Hid.
            apply ewp_get. split; [done|]. destruct (List.find _ _) as [p|] eqn:El; [|done]. apply List.find_some in El as [Hin Hm].
            exists (frec_at (st s3) p). split; [by apply frec_at_lookup, frec_order_lt, list_elem_of_In|].
            apply andb_true_iff in Hm as [[[Hm _]%andb_true_iff _]%andb_true_iff _]. by apply bool_decide_eq_true in Hm. }
       intros [p|] s4 [H4 Hp].
       - rewrite <- H4 in Hf, Hp |- *. apply ewp_bind. eapply ewp_mono; [|by apply (plan_retry_ok Q p)]. intros pl s5 (Hpl & Hfl & Hw). apply ewp_ret.
         intros ? [= <-]. unfold planned. by rewrite Hpl.
       - rewrite <- H4 in Hf |- *. apply plan_new_ok; [done|]. intros id Hid. destruct HQ as [HQ|[? HQ]]; [|congruence]. apply HQ. unfold asked_by.
         rewrite Hid, Hc. by apply list_elem_of_singleton. }
  intros [pl|] s4 Hpl; [|by apply ewp_ret]. specialize (Hpl pl eq_refl).
  apply ewp_bind. eapply (ewp_mono _ _ (λ r s', r ≠ None → finv Q None (view s') ∧ aside (view s) (view s'))).
  2: { unfold planned in Hpl. destruct (pl_forward pl) as [p|]; [|by apply ewp_ret]. destruct Hpl as [-> Hw]. cbn [Z.eqb].
       apply ewp_bind. eapply ewp_mono; [|apply (send_loop_ok Q p (view s)); [exact Hw|done]]. intros [[]|] s5 [Hw5 Hs5]; [|clear Hs5|by apply ewp_ret].
       - apply ewp_ret. intros _. apply (working_leave Q p); auto.
       - apply ewp_bind, ewp_quiet; [quieten|]. intros f s6 H6. apply ewp_bind, ewp_quiet; [quieten|]. intros ? s7 H7. rewrite <- H6, <- H7 in Hw5.
         apply ewp_bind, ewp_sure. eapply ewp_mono; [|by apply (working_free Q p (view s))]. intros ? s8 H8. by apply ewp_ret. }
  intros [[]|] s5 H5; [apply ewp_ret; intros _|cbn in H5|by apply ewp_ret].
  { destruct H5 as [H5 Ha]; [done|]. split; [done|by apply aside_answers]. }
  destruct H5 as [H5 Ha]; [done|]. destruct (Z.eqb_spec udpfd (-1)) as [|Hu]; [apply ewp_ret; intros _; split; [done|by apply aside_answers]|].
  apply ewp_bind, ewp_quiet; [quieten|]. intros m s6 H6. apply ewp_bind, ewp_quiet; [quieten|]. intros r s7 H7. apply ewp_bind, ewp_quiet; [quieten|]. intros _ s8 H8.
  destruct (r.1) as [len|]; [|by apply ewp_ub]. apply ewp_bind. eapply ewp_mono; [|apply send_from_ok]. intros u s9 [k Hk].
  assert (H08 : view s8 = view s5) by congruence. rewrite H08 in Hk.
  assert (Hdone : finv Q None (view s9) ∧ answers udpfd udpaddr (view s) (view s9)).
  { rewrite Hk. split; [done|]. destruct Ha as [Hn Hse]. split; [done|]. eexists. split; [unfold with_sends; cbn [v_sends]; by rewrite Hse|]. split; [done|].
    intros x Hx%list_elem_of_In%repeat_spec. by subst. }
  destruct u; by apply ewp_ret.
Qed.

(** *** reply_query *)
Lemma process_reply_ge junk now srv n (s : rt fcall daemon) : (HEADER_SIZE ≤ n)%nat →
  ewp True (process_reply mix_tab cfg fcfg junk now srv n) (λ nn s', view s' = view s ∧ (HEADER_SIZE ≤ nn)%nat) s.
Proof.
  intros Hn. unfold process_reply. do 2 (apply ewp_bind, ewp_quiet; [quieten|]; intros ? ? ?). destruct a0 as [found is_sign].
  do 4 (apply ewp_bind, ewp_quiet; [quieten|]; intros ? ? ?). destruct (_ || _); [apply ewp_ret; split; [congruence|done]|].
  do 3 (apply ewp_bind, ewp_quiet; [quieten; apply quiet_complain || apply quiet_learn_reply|]; intros ? ? ?).
  apply ewp_bind, ewp_lift; [|done]. intros [nn m'] Hr. apply ewp_bind, ewp_quiet; [quieten|]. intros ? ? ?. apply ewp_ret.
  split; [congruence|]. by apply (resize_packet_ge _ _ _ _ Hn) in Hr.
Qed.
(** a message that reply_query may send: the client, the socket, the identifier are those
    of a query that was taken, and the questions of the reply are its questions *)
Definition reply_ok (Q : list asked) (c : Z) (x : Z * list Z * mysockaddr) : Prop :=
  ∃ id cq, (x.2, x.1.1, id, cq) ∈ Q ∧ take 2 x.1.2 = be_store 2 id ∧ (cq = c ∨ c = all_ones).
Definition replies (Q : list asked) (c : Z) (v0 v : view_) : Prop :=
  v_n v = v_n v0 ∧ ∃ l, v_sends v = v_sends v0 ++ l ∧ ∀ x, x ∈ l → reply_ok Q c x.
Lemma aside_replies Q c v0 v : aside v0 v → replies Q c v0 v.
Proof. intros [? Hs]. split; [done|]. exists []. rewrite app_nil_r. split; [done|]. by intros x ?%elem_of_nil. Qed.
Lemma set_ra_head m v m' : set_ra m v = Val m' → take 2 m' = take 2 m.
Proof.
  unfold set_ra, set_field. intros (b & _ & Hw)%outcome_bind_Val. unfold wr in Hw. case_decide; [|done]. injection Hw as <-. apply take_insert_ge. lia.
Qed.
Lemma put_id_head m id m' : PUTSHORT m id 0 = Val m' → take 2 m' = be_store 2 id.
Proof.
  unfold PUTSHORT, put. case_decide; [|done]. intros [= <-]. unfold patch. rewrite take_0, app_nil_l. apply take_app_length'. by rewrite length_be_store.
Qed.
Lemma finish_reply_ok Q tries junk now n p rc srv c (s : rt fcall daemon) :
  (HEADER_SIZE ≤ n)%nat → finv Q None (view s) → (∃ f, v_frecs (view s) !! p = Some f ∧ is_Some (sentto f) ∧ (crc f = c ∨ c = all_ones)) →
  ewp True (finish_reply mix_tab cfg fcfg tries junk now n p rc srv) (λ _ s', finv Q None (view s') ∧ replies Q c (view s) (view s')) s.
Proof.
  intros Hn Hf (f & Hp & Hs & Hc). unfold finish_reply. apply ewp_bind. unfold the_frec. apply ewp_deref; [|done].
  intros f' Hf'. cbn in Hp. rewrite Hp in Hf'. injection Hf' as <-. apply ewp_bind.
  eapply (ewp_mono _ _ (λ _ s', finv Q None (view s') ∧ aside (view s) (view s') ∧ is_Some (v_frecs (view s') !! p))).
  2: { unfold kwhen. destruct (negb _); [|apply ewp_ret; split; [done|]; cbn; by rewrite Hp]. apply ewp_sure. eapply ewp_mono; [|by apply (upd_minor Q None p f)].
       intros ? s' (Ha & He & Hf'). split; [done|]. split; [done|]. rewrite He, list_lookup_insert_eq; [by eexists|by eapply lookup_lt_Some]. }
  intros ? s1 (Hf1 & Ha1 & [f1 Hp1]). destruct (_ || _); [|apply ewp_ret; split; [done|by apply aside_replies]].
  apply ewp_bind. eapply ewp_mono; [|by apply process_reply_ge]. intros nn s2 [Hv2 Hnn]. destruct (Nat.eqb_spec nn 0) as [->|_]; [unfold HEADER_SIZE in Hnn; lia|].
  apply ewp_bind. eapply (ewp_mono _ _ (λ _ s', ∃ k data, take 2 data = be_store 2 (orig_id f) ∧ view s' = with_sends (repeat (fr_fd f, data, source f) k) (view s1))).
  - intros u s3 (k & data & Hd & Hv3). apply ewp_bind, ewp_sure.
    eapply ewp_mono; [|apply (free_frec_ok Q None None p f1 s3); [rewrite Hv3; by apply finv_sends|by rewrite Hv3|by left]].
    intros ? s4 (Ha4 & _ & Hf4). apply ewp_ret. split; [done|]. destruct Ha4 as [Hn4 Hs4], Ha1 as [Hn1 Hs1]. rewrite Hv3 in Hn4, Hs4.
    split; [transitivity (v_n (view s1)); done|]. exists (repeat (fr_fd f, data, source f) k). split; [rewrite Hs4; unfold with_sends; cbn [v_sends]; by rewrite Hs1|].
    intros x Hx%list_elem_of_In%repeat_spec. subst x. exists (orig_id f), (crc f). split; [|done]. cbn [fst snd].
    destruct Hf as [[_ _ _ T4] _]. apply (T4 p f); [done|by right].
  - apply ewp_bind. unfold set_id. apply ewp_bind, ewp_get, ewp_bind, ewp_lift; [|done]. intros m1 Hm1. apply ewp_mod. apply ewp_bind, ewp_get, ewp_bind, ewp_lift; [|done].
    intros m2 Hm2. cbn in Hm2. apply ewp_bind, ewp_mod. eapply ewp_mono; [|apply send_from_ok]. intros u s3 [k Hk]. cbn [st d_packet set_packet] in Hk.
    exists k, (take nn m2). split.
    + rewrite take_take, Nat.min_l by (unfold HEADER_SIZE in Hnn; lia). rewrite (set_ra_head _ _ _ Hm2). by eapply put_id_head.
    + rewrite Hk. f_equal. rewrite <- Hv2. by destruct s2.
Qed.
Lemma try_others_ok Q tries now n p (s : rt fcall daemon) :
  finv Q None (view s) → sent (view s) p →
  ewp True (try_others mix_tab cfg fcfg tries now n p)
    (λ r s', match r with None => True | Some true => finv Q None (view s') ∧ aside (view s) (view s') | Some false => view s' = view s end) s.
Proof.
  intros Hf Hs. unfold try_others. do 2 (apply ewp_bind, ewp_quiet; [quieten|]; intros ? ? ?). destruct a0 as [found is_sign].
  assert (Hv : view s'0 = view s) by congruence. clear H H0. destruct is_sign; [by apply ewp_ret|].
  do 2 (apply ewp_bind, ewp_quiet; [quieten|]; intros ? ? ?). destruct a1 as [nn m].
  apply ewp_bind, ewp_quiet; [quieten|]. intros ? s1 H1. assert (Hv1 : view s1 = view s) by congruence. destruct (nn =? 0)%nat; [by apply ewp_ret|].
  do 2 (apply ewp_bind, ewp_quiet; [quieten|]; intros ? ? ?).
  match goal with |- ewp _ _ _ ?s' => assert (Hv2 : view s' = view s) by congruence; rewrite <- Hv2 in Hf, Hs |- *; clear -Hf Hs end.
  apply ewp_bind. eapply ewp_mono; [|apply (forward_query_ok Q); [done|right; by eexists|by intros ? [= <-]]].
  intros [r|] s' Hr; [|by apply ewp_ret]. apply ewp_ret. destruct Hr as (Hf' & Hn & l & Hl & H0 & _); [done|]. rewrite (H0 eq_refl), app_nil_r in Hl. done.
Qed.
Lemma reply_query_ok Q tries junk data a now (s : rt fcall daemon) :
  finv Q None (view s) →
  ewp True (reply_query mix_tab cfg fcfg tries junk data a now) (λ r s', r ≠ None → finv Q None (view s') ∧ v_n (view s') = v_n (view s) ∧
    ∃ l, v_sends (view s') = v_sends (view s) ++ l ∧
      (l = [] ∨ existsb (known_server a) (servers (st s)) = true ∧ ∃ m c, put (d_packet (st s)) 0 data = Val m ∧
        questions_crc m (length data) (namebuff (st s)) = Val c ∧ ∀ x, x ∈ l → reply_ok Q c x)) s.
Proof.
  intros Hf. unfold reply_query. apply ewp_bind, ewp_get, ewp_bind, ewp_lift; [|done]. intros m Hm. apply ewp_bind, ewp_mod, ewp_bind, ewp_mod, ewp_bind, ewp_get. cbn [st calls].
  match goal with |- ewp _ _ _ ?s' => set (s1 := s') end. assert (Hv1 : view s1 = view s) by done.
  assert (Hs1 : servers (st s1) = servers (st s)) by done. assert (Hn1 : namebuff (st s1) = namebuff (st s)) by done. clearbody s1.
  assert (Hquiet : ∀ s', view s' = view s → finv Q None (view s') ∧ v_n (view s') = v_n (view s) ∧ ∃ l, v_sends (view s') = v_sends (view s) ++ l ∧
      (l = [] ∨ existsb (known_server a) (servers (st s)) = true ∧ ∃ m c, put (d_packet (st s)) 0 data = Val m ∧
        questions_crc m (length data) (namebuff (st s)) = Val c ∧ ∀ x, x ∈ l → reply_ok Q c x)).
  { intros s' ->. split; [done|]. split; [done|]. exists []. rewrite app_nil_r. by split; [|left]. }
  cbn [set_saved set_packet servers]. destruct (existsb (known_server a) (servers (st s))) eqn:Ek; cbn [negb orb]; [|apply ewp_ret; auto].
  destruct (Nat.ltb_spec (length data) HEADER_SIZE) as [|Hlen]; [apply ewp_ret; auto|].
  apply ewp_bind, ewp_lift; [|done]. intros q _. destruct q; cbn [negb]; [|apply ewp_ret; auto].
  apply ewp_bind, ewp_get, ewp_bind, ewp_lift; [|done]. intros c Hc. rewrite Hn1 in Hc. apply ewp_bind, ewp_lift; [|done]. intros id _.
  apply ewp_bind, ewp_get. destruct (lookup_frec_in id c (st s1)) as [p|] eqn:El; [|apply ewp_ret; auto].
  destruct (lookup_frec_found _ _ _ _ El) as (Hp & Hse & _ & Hcrc). change (frecs (st s1)) with (v_frecs (view s1)) in Hp. rewrite Hv1 in Hp.
  do 3 (apply ewp_bind, ewp_quiet; [quieten|]; intros ? ? ?). assert (Hv2 : view s'1 = view s) by congruence. clear H H0 H1.
  apply ewp_bind. eapply (ewp_mono _ _ (λ r s', match r with None => True | Some true => finv Q None (view s') ∧ aside (view s) (view s') | Some false => view s' = view s end)).
  2: { destruct (_ && _); [|by apply ewp_ret]. rewrite <- Hv2. apply try_others_ok; rewrite Hv2; [done|by eexists]. }
  intros [[]|] s3 H3; [apply ewp_ret; intros _| |by apply ewp_ret].
  { destruct H3 as [Hf3 [Hn3 Hs3]]. split; [done|]. split; [done|]. exists []. rewrite app_nil_r. by split; [|left]. }
  apply ewp_bind, ewp_quiet; [apply quiet_mark_server|]. intros srv s4 H4. rewrite H3 in H4.
  eapply ewp_mono; [|apply (finish_reply_ok Q _ _ _ _ _ _ _ c); [done|by rewrite H4|rewrite H4; by eexists]].
  intros r s5 (Hf5 & Hn5 & l & Hl & Hx) _. rewrite H4 in Hn5, Hl. split; [done|]. split; [done|]. exists l. split; [done|]. right. split; [done|]. by exists m, c.
Qed.

(** *** server_gone *)
Lemma free_sent_ok Q sv l : ∀ s : rt fcall daemon,
  finv Q None (view s) → (∀ p, p ∈ l → (p < length (v_frecs (view s)))%nat) →
  ewp False (free_sent sv l) (λ _ s', finv Q None (view s') ∧ aside (view s) (view s') ∧
    ∀ p f, v_frecs (view s') !! p = Some f → sentto f = Some sv → v_frecs (view s) !! p = Some f ∧ p ∉ l) s.
Proof.
  induction l as [|q l IH]; intros s Hf Hl; cbn [free_sent].
  { apply ewp_ret. split; [done|]. split; [done|]. intros p f Hp _. split; [done|apply not_elem_of_nil]. }
  destruct (lookup_lt_is_Some_2 (v_frecs (view s)) q) as [g Hq]; [apply Hl; by left|].
  apply ewp_bind. unfold the_frec. apply ewp_deref; [|cbn in Hq; congruence]. intros g' Hg'. cbn in Hq. rewrite Hq in Hg'. injection Hg' as <-.
  apply ewp_bind. eapply (ewp_mono _ _ (λ _ s', finv Q None (view s') ∧ aside (view s) (view s') ∧ length (v_frecs (view s')) = length (v_frecs (view s)) ∧
    ∀ p f, v_frecs (view s') !! p = Some f → sentto f = Some sv → v_frecs (view s) !! p = Some f ∧ p ≠ q)).
  2: { unfold kwhen. case_bool_decide as Hg.
       - eapply ewp_mono; [|apply (free_frec_ok Q None None q g s Hf Hq); by left]. intros _ s' (Ha & He & Hf'). split; [done|]. split; [done|].
         split; [by rewrite He, length_insert|]. intros p f Hp Hs. rewrite He in Hp. destruct (decide (p = q)) as [->|Hne].
         + rewrite list_lookup_insert_eq in Hp by (by eapply lookup_lt_Some). by injection Hp as <-.
         + by rewrite list_lookup_insert_ne in Hp by done.
       - apply ewp_ret. split; [done|]. split; [done|]. split; [done|]. intros p f Hp Hs. split; [done|]. intros ->. cbn in Hp. congruence. }
  intros _ s1 (Hf1 & Ha1 & Hn1 & Hp1). eapply ewp_mono; [|apply IH; [done|]].
  - intros _ s2 (Hf2 & Ha2 & Hp2). split; [done|]. split; [by eapply aside_trans|]. intros p f Hp Hs. destruct (Hp2 p f Hp Hs) as [Hp' Hl'].
    destruct (Hp1 p f Hp' Hs) as [? ?]. split; [done|]. by rewrite not_elem_of_cons.
  - intros p Hp. rewrite Hn1. apply Hl. by right.
Qed.
Lemma server_gone_ok Q sv (s : rt fcall daemon) :
  finv Q None (view s) →
  ewp False (server_gone sv) (λ _ s', finv Q None (view s') ∧ aside (view s) (view s') ∧
    (∀ p f, frecs (st s') !! p = Some f → sentto f ≠ Some sv) ∧ last_server (st s') ≠ Some sv ∧ srv_save (st s') ≠ Some sv) s.
Proof.
  intros Hf. unfold server_gone. apply ewp_bind, ewp_get, ewp_bind. eapply ewp_mono; [|apply (free_sent_ok Q); [done|apply frec_order_lt]].
  intros _ s1 (Hf1 & Ha1 & Hp1). apply ewp_bind, ewp_mod, ewp_mod. cbn [st calls].
  match goal with |- context [view ?s'] => assert (Hv : view s' = view s1) by (unfold view; cbn; do 2 case_bool_decide; done) end. rewrite Hv.
  split; [done|]. split; [done|]. split; [|split].
  - intros p f Hp Hs. destruct (Hp1 p f) as [Hp' Hn]; [by do 2 case_bool_decide|done|]. apply Hn, list_elem_of_In. by eapply frec_order_in.
  - do 2 case_bool_decide; cbn; congruence.
  - do 2 case_bool_decide; cbn in *; congruence.
Qed.
(** *** receive_query *)
Section Receive.
Context (get_ifaddr : text → list Z) (inet_addr : text → option (list Z)) (alias_word : option nat → Z) (iface_check : Z → list Z → Z → option (Z * Z)) (tries : nat).
Lemma receive_local_ok hops junk dst_junk l arr now (s : rt fcall daemon) :
  ewp True (receive_local mix_tab cfg fcfg get_ifaddr inet_addr alias_word iface_check tries hops junk dst_junk l arr now) (λ r s',
    ∃ ms, view s' = with_sends ms (view s) ∧ ∀ x, x ∈ ms → x.1.1 = l_fd l ∧ x.2 = arr_source arr) s.
Proof.
  assert (Hnone : ∀ s', view s' = view s → ∃ ms, view s' = with_sends ms (view s) ∧ ∀ x, x ∈ ms → x.1.1 = l_fd l ∧ x.2 = arr_source arr).
  { intros s' ->. exists []. rewrite with_sends_nil. split; [done|]. by intros x ?%elem_of_nil. }
  unfold receive_local. apply ewp_bind, ewp_quiet; [quieten|]. intros _ s1 H1. destruct (arr_data arr) as [data|]; [|apply ewp_ret; auto].
  do 3 (apply ewp_bind, ewp_quiet; [quieten|]; intros ? ? ?). cbv zeta.
  match goal with |- ewp _ _ _ ?s' => assert (Hv : view s' = view s) by congruence; clear -Hv Hnone end.
  destruct (_ || _); [apply ewp_ret; auto|]. apply ewp_bind, ewp_quiet; [quieten|]. intros q s1 H1. rewrite Hv in H1. destruct q; [apply ewp_ret; auto|].
  destruct (query_from _ _ _ _) as [[[[dst ifi] d4] mask]|]; [|apply ewp_ret; auto].
  do 4 (apply ewp_bind, ewp_quiet; [quieten|]; intros ? ? ?). destruct a3 as [[[len m] nb] s0].
  do 3 (apply ewp_bind, ewp_quiet; [quieten|]; intros ? ? ?). match goal with |- ewp _ _ _ ?s' => assert (Hv2 : view s' = view s) by congruence; clear -Hv2 Hnone end.
  destruct len as [[|len]|]; [apply ewp_ret; auto| |apply ewp_ret; auto].
  apply ewp_bind. eapply ewp_mono; [|apply send_from_ok]. intros u s2 [k Hk]. apply ewp_ret. rewrite Hv2 in Hk. eexists. split; [exact Hk|].
  intros x Hx%list_elem_of_In%repeat_spec. by subst.
Qed.
(** the query that receive_query hands on *)
Definition handed (l : dns_listener) (arr : arrival) (r : option bool + (nat * list Z * Z)) (s : rt fcall daemon) : list asked :=
  match r with inr (n, _, _) => asked_by (arr_source arr) (l_fd l) (d_packet (st s)) n (namebuff (st s)) | inl _ => [] end.
Lemma receive_query_ok Q hops junk dst_junk l arr now (s s1 : rt fcall daemon) r1 :
  finv Q None (view s) →
  receive_local mix_tab cfg fcfg get_ifaddr inet_addr alias_word iface_check tries hops junk dst_junk l arr now s = Val (r1, s1) →
  ewp True (receive_query mix_tab cfg fcfg get_ifaddr inet_addr alias_word iface_check tries hops junk dst_junk l arr now) (λ r s',
    r ≠ None → finv (Q ++ handed l arr r1 s1) None (view s') ∧ v_n (view s') = v_n (view s) ∧
      ∃ ms, v_sends (view s') = v_sends (view s) ++ ms ∧ ∀ x, x ∈ ms → x.1.1 = l_fd l ∧ x.2 = arr_source arr) s.
Proof.
  intros Hf Hr. unfold receive_query. apply ewp_bind. eapply ewp_run; [exact Hr|].
  pose proof (ewp_elim True _ _ s r1 s1 (receive_local_ok hops junk dst_junk l arr now s) Hr) as (ms & Hv & Hms).
  assert (Hf1 : finv (Q ++ handed l arr r1 s1) None (view s1)).
  { apply (finv_more Q); [intros x Hx; apply elem_of_app; by left|]. rewrite Hv. by apply finv_sends. }
  destruct r1 as [r1|[[n dst] ifi]]; [apply ewp_ret; intros _; split; [done|]; rewrite Hv; split; [done|by exists ms]|].
  eapply ewp_mono; [|apply (forward_query_ok _ _ _ _ _ _ _ _ _ _ Hf1); [left; intros x Hx; apply elem_of_app; by right|done]].
  intros r s' Hr' Hn. destruct (Hr' Hn) as (Hf' & Hn' & l' & Hl' & _ & Hx'). split; [done|]. rewrite Hv in Hn', Hl'. split; [done|].
  exists (ms ++ l'). split; [rewrite Hl'; unfold with_sends; cbn [v_sends]; by rewrite <- app_assoc|].
  intros x [Hx|Hx]%elem_of_app; auto.
Qed.
End Receive.
End Conf.
End Ops.
End DnsForwardSpec.
