(* ===== verification/DnsRelay.v ===== *)
(** * Queries and replies of clients (src/external/dnsmasq/src/forward.c)

    The histories of the daemon as forward.c makes them: queries that are taken, replies
    of servers, servers that go away, and what the rest of the daemon does to the packet
    buffer and the cache in between.  In every history the table of queries is in order,
    a reply finds the query it belongs to, and goes to the client that asked. *)
From stdpp Require Import gmap sorting.
From S2P Require Import Prelude Runtime DriverRt DnsUtil DnsName DnsMsg DnsCache DnsCacheInv DnsCacheSpec DnsReply DnsAnswer DnsAnswerSpec DnsForward DnsForwardSpec.
Import DnsUtil DnsName DnsMsg DnsCache DnsCacheInv DnsCacheSpec DnsReply DnsAnswer DnsAnswerSpec DnsForward DnsForwardSpec.

Module DnsRelay.
Create HintDb modest.
(** ** Histories *)
Section History.
Context `{W : World fcall}.
Context (mix_tab : list Z) (cfg : config) (fcfg : fwd_config).
Context (get_ifaddr : text → list Z) (inet_addr : text → option (list Z)) (alias_word : option nat → Z)
  (iface_check : Z → list Z → Z → option (Z * Z)) (tries : nat).
Abbreviation local_ := (receive_local mix_tab cfg fcfg get_ifaddr inet_addr alias_word iface_check tries).
Abbreviation receive := (receive_query mix_tab cfg fcfg get_ifaddr inet_addr alias_word iface_check tries).
Abbreviation reply := (reply_query mix_tab cfg fcfg tries).

(** the daemon before the first query *)
Definition starts (d : daemon) : Prop :=
  frecs d = [] ∧ length (randomsocks d) = RANDOM_SOCKS ∧ ∀ j sk, randomsocks d !! j = Some sk → refcount sk = 0.
(** [Q]: the queries that were handed on to the servers *)
Inductive history : list asked → rt fcall daemon → Prop :=
| history_starts d : starts d → history [] (mk_rt [] d)
| history_receive Q s hops junk dst_junk l arr now r1 s1 r s' :
    history Q s → local_ hops junk dst_junk l arr now s = Val (r1, s1) → receive hops junk dst_junk l arr now s = Val (Some r, s') →
    history (Q ++ handed l arr r1 s1) s'
| history_reply Q s junk data a now s' : history Q s → reply junk data a now s = Val (Some tt, s') → history Q s'
| history_gone Q s sv s' : history Q s → server_gone sv s = Val (tt, s') → history Q s'
| history_room Q s now r s' : history Q s → get_new_frec fcfg now true s = Val (r, s') → history Q s'
| history_other Q s d : history Q s →
    frecs d = frecs (st s) → randomsocks d = randomsocks (st s) → (length (servers (st s)) ≤ length (servers d))%nat → history Q (mk_rt (calls s) d).

Lemma starts_finv d : starts d → finv [] None (view (mk_rt [] d)).
Proof.
  intros (Hf & Hl & Hz). unfold view. cbn [calls st]. rewrite Hf. split; cbn.
  - split; cbn; by intros ? ? ?.
  - split; [done| |done|].
    + intros j sk Hj. rewrite (Hz j sk Hj). unfold refs. cbn. lia.
    + intros fd _. unfold opened. cbn. enough (He : sum_list_with (in_use fd) (randomsocks d) = 0%nat) by (by rewrite He).
      clear Hl Hf. revert Hz. induction (randomsocks d) as [|sk l IH]; intros Hz; [done|]. cbn. rewrite IH by (intros j; apply (Hz (S j))).
      unfold in_use. rewrite decide_False; [done|]. intros [H0 _]. by apply H0, (Hz 0%nat).
Qed.
Lemma history_finv Q s : history Q s → finv Q None (view s).
Proof.
  induction 1 as [d Hd|Q s hops junk dst_junk l arr now r1 s1 r s' _ IH Hl Hr|Q s junk data a now s' _ IH Hr|Q s sv s' _ IH Hr|Q s now r s' _ IH Hr|Q s d _ IH H1 H2 H3].
  - by apply starts_finv.
  - pose proof (ewp_elim _ _ _ _ _ _ (receive_query_ok mix_tab cfg fcfg get_ifaddr inet_addr alias_word iface_check tries Q hops junk dst_junk l arr now s s1 r1 IH Hl) Hr) as Hp.
    by apply Hp.
  - pose proof (ewp_elim _ _ _ _ _ _ (reply_query_ok mix_tab cfg fcfg Q tries junk data a now s IH) Hr) as Hp. by apply Hp.
  - pose proof (ewp_elim _ _ _ _ _ _ (server_gone_ok Q sv s IH) Hr) as Hp. by apply Hp.
  - pose proof (ewp_elim _ _ _ _ _ _ (get_new_frec_ok fcfg Q now true s IH) Hr) as Hp. by apply Hp.
  - unfold view. cbn. rewrite H1, H2. destruct IH as [[T1 T2 T3 T4] IS]. split; [|exact IS]. split; [exact T1| |exact T3|exact T4].
    intros p f i Hp Hi. eapply Nat.lt_le_trans; [by eapply T2|exact H3].
Qed.
Lemma opened_filter fd tr : opened fd (List.filter sock_event tr) = opened fd tr.
Proof.
  induction tr as [|[c r] tr IH]; [done|]. cbn [List.filter]. unfold opened, DriverRt.total in *. cbn [foldr]. rewrite <- IH.
  destruct c; cbn; try done; lia.
Qed.

(** ** The size of the table *)
Definition size (s : rt fcall daemon) : Z := Z.of_nat (length (frecs (st s))).
(** the table keeps its size, or with [b] grows to one more than ftabsize at most *)
Definition modest {A} (b : bool) (m : IO fcall daemon A) : Prop :=
  ∀ s, ewp True m (λ _ s', size s' = size s ∨ b = true ∧ size s' ≤ ftabsize fcfg + 1) s.
Lemma modest_quiet {A} b (m : IO fcall daemon A) : quiet m → modest b m.
Proof. intros Hm s. eapply ewp_quiet; [done|]. intros _ s' Hv. left. unfold size. change (frecs (st ?x)) with (v_frecs (view x)). by rewrite Hv. Qed.
Lemma modest_bind {A B} b (m : IO fcall daemon A) (f : A → IO fcall daemon B) : modest b m → (∀ a, modest b (f a)) → modest b (m ≫= f).
Proof.
  intros Hm Hf s. apply ewp_bind. eapply ewp_mono; [|apply Hm]. intros a s1 H1. eapply ewp_mono; [|apply Hf]. intros c s2 H2. lia || naive_solver lia.
Qed.
Lemma modest_weaken {A} b (m : IO fcall daemon A) : modest false m → modest b m.
Proof. intros Hm s. eapply ewp_mono; [|apply Hm]. intros _ s' [H|[[=] _]]. by left. Qed.
Lemma modest_upd b p g : modest b (upd_frec p g).
Proof. intros s. apply ewp_mod. left. unfold size. cbn. by rewrite length_alter. Qed.
Lemma modest_call b c : modest b (kcall_ c).
Proof. intros s. apply ewp_any. intros r. by left. Qed.
Lemma modest_mod b (f : daemon → daemon) : (∀ d, length (frecs (f d)) = length (frecs d)) → modest b (kmod f).
Proof. intros Hf s. apply ewp_mod. left. unfold size. cbn. by rewrite Hf. Qed.
Ltac modest_step :=
  match goal with
  | |- modest _ (mbind _ _) => apply modest_bind; [|intros ?]
  | |- modest _ (mret _) => apply modest_quiet, quiet_ret
  | |- modest _ (kget _) => apply modest_quiet, quiet_kget
  | |- modest _ (klift _) => apply modest_quiet, quiet_klift
  | |- modest _ (kderef _) => apply modest_quiet, quiet_kderef
  | |- modest _ kub => apply modest_quiet, quiet_ub
  | |- modest _ (upd_frec _ _) => apply modest_upd
  | |- modest _ (upd_server _ _) => apply modest_quiet, quiet_server
  | |- modest _ (kmod _) => apply modest_mod; done
  | |- modest _ (kcall_ _) => apply modest_call
  | |- modest _ (kret _) => unfold kret
  | |- modest _ (kdo _) => unfold kdo
  | |- modest _ (kwhen _ _) => unfold kwhen
  | |- modest _ (the_frec _) => unfold the_frec
  | |- modest _ (the_server _) => unfold the_server
  | |- modest _ (match ?x with _ => _ end) => destruct x
  | _ => solve [eauto with modest]
  end.
Ltac modestly := repeat (cbv zeta; modest_step).
Lemma modest_free b p : modest b (free_frec p).
Proof. unfold free_frec, drop_rfd. modestly. Qed.
Hint Resolve modest_free : modest.
Lemma modest_scan b now l : ∀ o t, modest b (scan_frecs now l o t).
Proof. induction l as [|p l IH]; intros o t; cbn [scan_frecs]; modestly. Qed.
Lemma modest_allocate_rfd b fam : modest b (allocate_rfd fam).
Proof. unfold allocate_rfd, share_rfd. modestly. Qed.
Hint Resolve modest_allocate_rfd : modest.
Lemma modest_alloc now (s : rt fcall daemon) :
  size s ≤ ftabsize fcfg → ewp True (allocate_frec now) (λ _ s', size s' = size s ∨ true = true ∧ size s' ≤ ftabsize fcfg + 1) s.
Proof.
  intros Hs. unfold allocate_frec. apply ewp_bind. unfold kret. apply ewp_bind, ewp_any. intros r. apply ewp_ret.
  destruct (_ =? 0); [apply ewp_ret; by left|]. apply ewp_bind, ewp_get, ewp_bind, ewp_mod, ewp_ret. right. split; [done|].
  unfold size in *. cbn. rewrite length_app. cbn. lia.
Qed.
Lemma modest_get_new now wait : modest true (get_new_frec fcfg now wait).
Proof.
  intros s. unfold get_new_frec. apply ewp_bind, ewp_get, ewp_bind. eapply ewp_mono; [|apply (modest_scan false)].
  intros [oldest target] s1 [H1|[[=] _]]. apply ewp_bind, ewp_get.
  assert (Hc : Z.of_nat (length (frec_order (st s))) = size s) by (unfold frec_order; by rewrite length_reverse, length_seq). rewrite Hc, <- H1.
  assert (Hnew : size s1 ≤ ftabsize fcfg → ∀ k : option nat → IO fcall daemon (option nat * Z), (∀ f, modest true (k f)) →
    ewp True (f ← allocate_frec now; k f) (λ _ s', size s' = size s1 ∨ true = true ∧ size s' ≤ ftabsize fcfg + 1) s1).
  { intros Hle k Hk. apply ewp_bind. eapply ewp_mono; [|by apply modest_alloc]. intros f s2 H2. eapply ewp_mono; [|apply Hk]. intros r s3 H3. naive_solver lia. }
  assert (Hm : ∀ m : IO fcall daemon (option nat * Z), modest true m → ewp True m (λ _ s', size s' = size s1 ∨ true = true ∧ size s' ≤ ftabsize fcfg + 1) s1) by auto.
  destruct target as [p|]; [apply Hm; modestly|]. destruct oldest as [o|].
  - destruct (TIMEOUT <=? _).
    + destruct (_ <? _); cbn [andb]; [destruct (Z.leb_spec (size s1) (ftabsize fcfg))|]; [apply Hnew; [done|]; intros f; modestly|apply Hm; modestly..].
    + destruct (Z.ltb_spec (ftabsize fcfg) (size s1)); [apply Hm; modestly|]. apply Hnew; [lia|]. intros f. modestly.
  - destruct (Z.ltb_spec (ftabsize fcfg) (size s1)); [apply Hm; modestly|]. apply Hnew; [lia|]. intros f. modestly.
Qed.
Lemma modest_draw b c n : modest b (draw_id n c).
Proof. induction n as [|n IH]; cbn [draw_id]; unfold lookup_frec; modestly. Qed.
Lemma modest_get_id b n force id c : modest b (get_id n force id c).
Proof. unfold get_id, lookup_frec. destruct force; [modestly|apply modest_draw]. Qed.
Lemma modest_turn b p i type domain plen got n : modest b (server_turn n p i type domain plen got).
Proof. induction n as [|n IH]; cbn [server_turn]; unfold random_fd; modestly. Qed.
Lemma modest_loop b n m p type domain plen got k : ∀ i fw, modest b (send_loop n k m p i type domain plen got fw).
Proof. pose proof modest_turn. induction k as [|k IH]; intros i fw; cbn [send_loop]; modestly. Qed.
Lemma modest_send_msg b fd data to n : ∀ c, modest b (send_msg n fd data to c).
Proof. induction n as [|n IH]; intros c; cbn [send_msg]; modestly. Qed.
Lemma modest_send_from b n fd len to src ifc : modest b (send_from fcfg n fd len to src ifc).
Proof. unfold send_from. pose proof modest_send_msg. modestly. Qed.
Lemma modest_set_id b id : modest b (set_id id).
Proof. apply modest_quiet, quiet_set_id. Qed.
Hint Resolve modest_get_new modest_get_id modest_turn modest_loop modest_send_from modest_set_id : modest.
Lemma modest_forward n udpfd udpaddr dst ifc plen now fw : modest true (forward_query mix_tab cfg fcfg n udpfd udpaddr dst ifc plen now fw).
Proof.
  assert (Hs : ∀ now q name, modest true (search_servers mix_tab cfg fcfg now q name)) by (intros; apply modest_quiet, quiet_search_servers).
  unfold forward_query, plan_retry, plan_new, first_server, lookup_frec_by_sender. modestly.
Qed.
Hint Resolve modest_forward : modest.
Lemma modest_reply junk data a now : modest true (reply junk data a now).
Proof.
  assert (Hp : ∀ srv n, modest true (process_reply mix_tab cfg fcfg junk now srv n)) by (intros; apply modest_quiet, quiet_process_reply).
  assert (Hm : ∀ rc i, modest true (mark_server fcfg rc a i)) by (intros; apply modest_quiet, quiet_mark_server).
  unfold reply_query, try_others, finish_reply, lookup_frec. modestly.
Qed.
Lemma modest_receive hops junk dst_junk l arr now : modest true (receive hops junk dst_junk l arr now).
Proof. unfold receive_query, receive_local. modestly. Qed.
Lemma modest_gone b sv : modest b (server_gone sv).
Proof.
  assert (Hf : ∀ l, modest b (free_sent sv l)) by (induction l as [|p l IH]; cbn [free_sent]; modestly).
  unfold server_gone. apply modest_bind; [modestly|]. intros order. apply modest_bind; [apply Hf|]. intros _.
  apply modest_bind; [|intros _]; apply modest_mod; intros d; by case_bool_decide.
Qed.
Lemma history_size Q s : history Q s → size s ≤ Z.max 0 (ftabsize fcfg + 1).
Proof.
  induction 1 as [d Hd|Q s hops junk dst_junk l arr now r1 s1 r s' _ IH Hl Hr|Q s junk data a now s' _ IH Hr|Q s sv s' _ IH Hr|Q s now r s' _ IH Hr|Q s d _ IH H1 H2 H3].
  - destruct Hd as [Hd _]. unfold size. cbn. rewrite Hd. cbn. lia.
  - pose proof (ewp_elim _ _ _ _ _ _ (modest_receive hops junk dst_junk l arr now s) Hr) as Hm. cbn in Hm. lia.
  - pose proof (ewp_elim _ _ _ _ _ _ (modest_reply junk data a now s) Hr) as Hm. cbn in Hm. lia.
  - pose proof (ewp_elim _ _ _ _ _ _ (modest_gone false sv s) Hr) as Hm. cbn in Hm. lia.
  - pose proof (ewp_elim _ _ _ _ _ _ (modest_get_new now true s) Hr) as Hm. cbn in Hm. lia.
  - unfold size in *. cbn. by rewrite H1.
Qed.
End History.

Definition sample_world : World fcall := λ tr c, mk_resp (match c with
  | RandomSock _ => 5 | SendTo _ data _ => Z.of_nat (length data) | SendMsg _ data _ _ => Z.of_nat (length data)
  | Rand16 => 4660 | MallocFrec => 1 | _ => 0 end) [].
Definition sample_fcfg : fwd_config := mk_fwd_config 150 false false false true false [] [] 0 false false (λ _, true) (λ _, []).
Definition sample_server : server := mk_server (Sin 53 134744072) None None 0 0 0 0.
Definition sample_daemon : daemon := mk_daemon (repeat 0 1600) (repeat 0 1025) example_cache [sample_server] None []
  (repeat (mk_randfd (-1) 0 0) RANDOM_SOCKS) 0 0 0 None 0 None.
Definition sample_listener : dns_listener := mk_dns_listener 3 AF_INET 0 0.
Definition sample_arrival : arrival := mk_arrival (Some (take 25 (plain_query 15))) false (Sin 4000 167772161) None.
(** the packet that goes to the server, and a reply to it *)
Definition sample_reply : list Z := [18; 52; 129; 128; 0; 1; 0; 0; 0; 0; 0; 0; 3; 119; 119; 119; 1; 97; 1; 98; 0; 0; 15; 0; 1].
Abbreviation run_receive := (receive_query (W := sample_world) [] plain_config sample_fcfg no_ifaddr (λ _, None) (λ _, 0) (λ _ _ _, None) 10 10 [] []
  sample_listener sample_arrival 100 (mk_rt [] sample_daemon)).
Abbreviation run_local := (receive_local (W := sample_world) [] plain_config sample_fcfg no_ifaddr (λ _, None) (λ _, 0) (λ _ _ _, None) 10 10 [] []
  sample_listener sample_arrival 100 (mk_rt [] sample_daemon)).
Definition after (o : outcome (option bool * rt fcall daemon)) : rt fcall daemon := match o with Val (_, s) => s | UB => mk_rt [] sample_daemon end.
Definition sample_state : rt fcall daemon := Eval vm_compute in after run_receive.
Abbreviation sample_history := (history (W := sample_world) [] plain_config sample_fcfg no_ifaddr (λ _, None) (λ _, 0) (λ _ _ _, None) 10).
Lemma sample_starts : starts sample_daemon.
Proof. split; [done|]. split; [done|]. intros j sk Hj. apply list_elem_of_lookup_2, list_elem_of_In, repeat_spec in Hj. by subst. Qed.
Lemma sample_run : run_receive = Val (Some true, sample_state).
Proof. by vm_compute. Qed.
Definition sample_asked : list asked := [(Sin 4000 167772161, 3, 1, 2798592615)].
Definition handed_on (o : outcome ((option bool + (nat * list Z * Z)) * rt fcall daemon)) : option bool + (nat * list Z * Z) :=
  match o with Val (r, _) => r | UB => inl None end.
Definition handed_state (o : outcome ((option bool + (nat * list Z * Z)) * rt fcall daemon)) : rt fcall daemon :=
  match o with Val (_, s) => s | UB => mk_rt [] sample_daemon end.
Definition sample_packet : option bool + (nat * list Z * Z) := Eval vm_compute in handed_on run_local.
Definition sample_between : rt fcall daemon := Eval vm_compute in handed_state run_local.
Lemma sample_local : run_local = Val (sample_packet, sample_between).
Proof. by vm_compute. Qed.
Lemma sample_handed : handed sample_listener sample_arrival sample_packet sample_between = sample_asked.
Proof. by vm_compute. Qed.
Lemma sample_received : sample_history sample_asked sample_state.
Proof.
  rewrite <- sample_handed, <- (app_nil_l (handed _ _ _ _)).
  eapply (history_receive [] plain_config sample_fcfg); [apply history_starts, sample_starts|exact sample_local|].
  apply sample_run.
Qed.

(** C4. In every history the table of the queries under way has at most one record more
    than ftabsize, and it agrees with the random sockets: the count of a socket is the
    number of records that use it; the sockets that are open are those with a count, so
    that none is leaked or closed too early; and a record that is not in use holds none.
    A reply with the identifier and the checksum of a query under way finds a query with
    that identifier, and, when the checksum is not all ones, that very query and no
    other.  All ones stands for a packet without a question that can be read; for such a
    query a reply may find another one with the same identifier. *)
Theorem forward_table_consistent `{W : World fcall} mix_tab cfg fcfg get_ifaddr inet_addr alias_word iface_check tries Q s :
  history mix_tab cfg fcfg get_ifaddr inet_addr alias_word iface_check tries Q s →
  Z.of_nat (length (frecs (st s))) ≤ Z.max 0 (ftabsize fcfg + 1) ∧
  (∀ j sk, randomsocks (st s) !! j = Some sk → refcount sk = Z.of_nat (refs (frecs (st s)) j)) ∧
  (∀ fd, fd ≠ -1 → opened fd (calls s) = Z.of_nat (sum_list_with (in_use fd) (randomsocks (st s)))) ∧
  (∀ p f, frecs (st s) !! p = Some f → sentto f = None → idle f) ∧
  (∀ p f, frecs (st s) !! p = Some f → is_Some (sentto f) →
     ∃ q g, lookup_frec_in (new_id f) (crc f) (st s) = Some q ∧ frecs (st s) !! q = Some g ∧ is_Some (sentto g) ∧ new_id g = new_id f ∧
       (crc f ≠ all_ones → q = p)).
Proof.
  intros Hh. pose proof (history_size _ _ _ _ _ _ _ _ _ _ Hh) as Hz. destruct (history_finv _ _ _ _ _ _ _ _ _ _ Hh) as [[T1 T2 T3 T4] [S1 S2 S3 S4]].
  cbn in T1, T2, T3, T4, S1, S2, S3, S4. split_and!; [exact Hz| | | |].
  - intros j sk Hj. by apply S2.
  - intros fd Hfd. rewrite <- opened_filter. by apply S4.
  - intros p f Hp. by apply (T1 p f Hp).
  - intros p f Hp Hs. destruct (lookup_frec_in (new_id f) (crc f) (st s)) as [q|] eqn:El.
    + destruct (lookup_frec_found _ _ _ _ El) as (Hq & Hsq & Hid & Hcq). eexists q, _. split_and!; [done|exact Hq|done|done|]. intros Hc.
      destruct (decide (q = p)) as [->|Hne]; [done|]. exfalso. apply Hc.
      eapply (T3 p q); [exact Hp|exact Hq|done|by right|by right|congruence|]. by destruct Hcq.
    + exfalso. eapply lookup_frec_none; [exact El|exact Hp|]. split; [done|]. split; [done|]. by left.
Qed.
Lemma forward_table_consistent_witness :
  lookup_frec_in 4660 2798592615 (st sample_state) = Some 0%nat ∧ opened 5 (calls sample_state) = 1.
Proof.
  destruct (forward_table_consistent (W := sample_world) [] plain_config sample_fcfg no_ifaddr (λ _, None) (λ _, 0) (λ _ _ _, None) 10
    sample_asked sample_state sample_received) as (_ & _ & H2 & _ & H4).
  destruct (H4 0%nat (frec_at (st sample_state) 0) eq_refl) as (q & g & Hl & _ & _ & _ & Hq); [by eexists|].
  split; [rewrite <- (Hq ltac:(done)); exact Hl|]. rewrite H2 by done. by vm_compute.
Defined.

(** C2. What reply_query sends to a client answers a query of that client: in every
    history, a message goes out only for a packet from a server of the list, to the
    address and through the socket of a query that was handed on, under the identifier
    the client chose, and the checksum of the questions is that of the query (all ones
    when the reply has no question that can be read). *)
Theorem reply_reaches_client `{W : World fcall} mix_tab cfg fcfg get_ifaddr inet_addr alias_word iface_check tries Q s junk data a now s' :
  history mix_tab cfg fcfg get_ifaddr inet_addr alias_word iface_check tries Q s →
  reply_query mix_tab cfg fcfg tries junk data a now s = Val (Some tt, s') →
  ∃ new, omap send_event (calls s') = omap send_event (calls s) ++ new ∧
    (new = [] ∨ existsb (known_server a) (servers (st s)) = true ∧ ∃ m c, put (d_packet (st s)) 0 data = Val m ∧
      questions_crc m (length data) (namebuff (st s)) = Val c ∧
      ∀ fd msg to, (fd, msg, to) ∈ new → ∃ id cq, (to, fd, id, cq) ∈ Q ∧ take 2 msg = be_store 2 id ∧ (cq = c ∨ c = all_ones)).
Proof.
  intros Hh Hr. destruct (ewp_elim _ _ _ _ _ _ (reply_query_ok mix_tab cfg fcfg Q tries junk data a now s (history_finv _ _ _ _ _ _ _ _ _ _ Hh)) Hr)
    as (_ & _ & new & Hn & Hx); [done|]. exists new. split; [exact Hn|]. destruct Hx as [Hx|(Hk & m & c & Hm & Hc & Hx)]; [by left|right].
  split; [done|]. exists m, c. split; [done|]. split; [done|]. intros fd msg to Hin. exact (Hx _ Hin).
Qed.
Definition after_reply (o : outcome (option unit * rt fcall daemon)) : rt fcall daemon := match o with Val (_, s) => s | UB => mk_rt [] sample_daemon end.
Abbreviation run_reply := (reply_query (W := sample_world) [] plain_config sample_fcfg 10 [] sample_reply (Sin 53 134744072) 101 sample_state).
Lemma run_reply_done : run_reply = Val (Some tt, after_reply run_reply).
Proof. by vm_compute. Qed.
Lemma reply_reaches_client_witness :
  let s' := after_reply run_reply in
  omap send_event (calls s') = [(3, [0; 1; 129; 128; 0; 1; 0; 0; 0; 0; 0; 0; 3; 119; 119; 119; 1; 97; 1; 98; 0; 0; 15; 0; 1], Sin 4000 167772161)] ∧
  ∃ new, omap send_event (calls s') = omap send_event (calls sample_state) ++ new ∧
    (new = [] ∨ existsb (known_server (Sin 53 134744072)) (servers (st sample_state)) = true ∧ ∃ m c, put (d_packet (st sample_state)) 0 sample_reply = Val m ∧
      questions_crc m (length sample_reply) (namebuff (st sample_state)) = Val c ∧
      ∀ fd msg to, (fd, msg, to) ∈ new → ∃ id cq, (to, fd, id, cq) ∈ sample_asked ∧ take 2 msg = be_store 2 id ∧ (cq = c ∨ c = all_ones)).
Proof.
  split; [by vm_compute|]. apply (reply_reaches_client (W := sample_world) [] plain_config sample_fcfg no_ifaddr (λ _, None) (λ _, 0) (λ _ _ _, None) 10
    sample_asked sample_state [] sample_reply (Sin 53 134744072) 101); [exact sample_received|exact run_reply_done].
Defined.

(** server_gone, in any history, ends with nothing that refers to the server. *)
Theorem server_gone_forgets `{W : World fcall} mix_tab cfg fcfg get_ifaddr inet_addr alias_word iface_check tries Q s sv :
  history mix_tab cfg fcfg get_ifaddr inet_addr alias_word iface_check tries Q s →
  ∃ s', server_gone sv s = Val (tt, s') ∧ (∀ p f, frecs (st s') !! p = Some f → sentto f ≠ Some sv) ∧ last_server (st s') ≠ Some sv ∧ srv_save (st s') ≠ Some sv.
Proof.
  intros Hh%history_finv. pose proof (server_gone_ok Q sv s Hh) as Hg. apply ewp_total in Hg as ([] & s' & Hr & _ & _ & H). by exists s'.
Qed.

(** ** The servers for a name *)
(** A server as the options make it: with a domain (a string) or for names without dots,
    not both. *)
Definition server_wf (sv : server) : Prop :=
  (has (sv_flags sv) SERV_HAS_DOMAIN = true → ∃ d, sv_domain sv = Some d ∧ Forall (λ c, c ≠ 0) d) ∧
  (has (sv_flags sv) SERV_FOR_NODOTS = true → has (sv_flags sv) SERV_HAS_DOMAIN = false).
(** The name ends in the domain, in any case of the letters, at the border of a label:
    the domain is empty, the whole name, starts with a dot or comes behind one. *)
Definition ends_in (name d : text) : Prop :=
  ∃ pre post, name = pre ++ post ∧ map fold post = map fold d ∧
    (d = [] ∨ pre = [] ∨ d !! 0%nat = Some (chr ".") ∨ last pre = Some (chr ".")).
Definition for_domain (name : text) (sv : server) (d : text) : Prop :=
  has (sv_flags sv) SERV_HAS_DOMAIN = true ∧ sv_domain sv = Some d ∧ ends_in name d.
Definition dotless (name : text) : Prop := name ≠ [] ∧ chr "." ∉ name.
Definition for_nodots (name : text) (sv : server) : bool := has (sv_flags sv) SERV_FOR_NODOTS && bool_decide (dotless name).
(** the choice that a list of servers asks for *)
Definition chosen (name : text) (l : list server) (r : search) : Prop :=
  (s_type r = SERV_HAS_DOMAIN ∧ ∃ sv d, sv ∈ l ∧ for_domain name sv d ∧ s_domain r = Some d ∧ matchlen r = length d ∧
     ∀ sv' d', sv' ∈ l → for_domain name sv' d' → (length d' ≤ length d)%nat) ∨
  (s_type r = (if existsb (for_nodots name) l then SERV_FOR_NODOTS else 0) ∧ s_domain r = None ∧ matchlen r = 0%nat ∧ ∀ sv d, sv ∈ l → ¬ for_domain name sv d).
(** the last server of the list with the longest domain *)
Definition decisive (name : text) (l : list server) (sv : server) : Prop :=
  ∃ l1 l2 d, l = l1 ++ sv :: l2 ∧ for_domain name sv d ∧
    (∀ sv' d', sv' ∈ l1 → for_domain name sv' d' → (length d' ≤ length d)%nat) ∧
    (∀ sv' d', sv' ∈ l2 → for_domain name sv' d' → (length d' < length d)%nat).
(** What the options say of it: there is no such name, or this is its address. *)
Definition answered_by (qtype : Z) (sv : server) (flags : Z) (a : option (list Z)) : Prop :=
  (has (sv_flags sv) SERV_NO_ADDR = true → flags = F_NXDOMAIN) ∧
  (has (sv_flags sv) SERV_NO_ADDR = false → has (sv_flags sv) SERV_LITERAL_ADDRESS = true → has (sflag (sv_addr sv)) qtype = true →
     flags = sflag (sv_addr sv) ∧ a = Some (sa_bytes (sv_addr sv))).
(** no server for the name has an answer of its own *)
Definition no_answers (name : text) (l : list server) : Prop :=
  ∀ sv, sv ∈ l → (∃ d, for_domain name sv d) ∨ for_nodots name sv = true →
    has (sv_flags sv) SERV_NO_ADDR = false ∧ has (sv_flags sv) SERV_LITERAL_ADDRESS = false.
Definition decided (qtype : Z) (name : text) (l : list server) (r : search) : Prop :=
  (∀ sv, decisive name l sv → answered_by qtype sv (s_flags r) (s_addr r)) ∧ (no_answers name l → s_flags r = 0 ∧ s_addr r = None).

Lemma domain_matches_spec name d : Forall (λ c, c ≠ 0) name → Forall (λ c, c ≠ 0) d → domain_matches name d = true ↔ ends_in name d.
Proof.
  intros Hn Hd. unfold domain_matches, ends_in. set (n := (length name - length d)%nat).
  rewrite !andb_true_iff, !orb_true_iff, Nat.leb_le, !Nat.eqb_eq, !Z.eqb_eq, hostname_isequal_fold by (done || by apply Forall_drop).
  rewrite bool_decide_eq_true. split.
  - intros [[Hle Hf] Hb]. exists (take n name), (drop n name). split; [by rewrite take_drop|]. split; [done|].
    destruct Hb as [[[Hb|Hb]|Hb]|Hb].
    + left. by apply nil_length_inv.
    + right. left. unfold n. by rewrite Hb, Nat.sub_diag.
    + right. right. left. destruct d as [|c d]; [by vm_compute in Hb|]. cbn in *. by rewrite Hb.
    + right. destruct (decide (n = 0%nat)) as [H0|H0]; [left; by rewrite H0|]. right. right.
      rewrite <- Hb, last_lookup, length_take, Nat.min_l by (unfold n; lia). replace (pred n) with (n - 1)%nat by lia.
      rewrite lookup_take_lt by lia.
      destruct (lookup_lt_is_Some_2 name (n - 1)) as [x Hx]; [unfold n in *; lia|]. by rewrite Hx, (nth_lookup_Some _ _ _ _ Hx).
  - intros (pre & post & -> & Hf & Hb). assert (Hl : length post = length d) by (by rewrite <- (length_map fold), Hf, length_map).
    assert (Hn' : n = length pre) by (unfold n; rewrite length_app; lia). rewrite Hn', drop_app_length, length_app.
    split; [split; [lia|done]|]. destruct Hb as [->|[->|[Hb|Hb]]].
    + by do 3 left.
    + left. left. right. cbn. lia.
    + left. right. by destruct d; [|cbn in *; injection Hb as ->].
    + right. destruct pre as [|c pre]; [done|]. rewrite last_lookup in Hb. rewrite app_nth1 by (cbn; lia).
      replace (length (c :: pre) - 1)%nat with (pred (length (c :: pre))) by lia. by apply nth_lookup_Some.
Qed.
Lemma no_dots_spec name : no_dots name = bool_decide (dotless name).
Proof.
  unfold no_dots, dotless. destruct name as [|c name]; [done|]. rewrite andb_true_r. 
  apply eq_bool_prop_intro. rewrite !Is_true_true, forallb_forall, bool_decide_eq_true. split.
  - intros Hl. split; [done|]. intros Hin. apply list_elem_of_In, Hl in Hin. by vm_compute in Hin.
  - intros [_ Hl] x Hx%list_elem_of_In. apply negb_true_iff, Z.eqb_neq. congruence.
Qed.

Lemma search_literal_same qtype sv r :
  s_type (search_literal qtype sv r) = s_type r ∧ s_domain (search_literal qtype sv r) = s_domain r ∧ matchlen (search_literal qtype sv r) = matchlen r.
Proof. unfold search_literal. repeat case_match; done. Qed.
Lemma search_literal_answers qtype sv r : answered_by qtype sv (s_flags (search_literal qtype sv r)) (s_addr (search_literal qtype sv r)).
Proof. unfold search_literal, answered_by. destruct (has _ SERV_NO_ADDR); [done|]. split; [done|]. intros _ -> ->. done. Qed.
Lemma search_literal_quiet qtype sv r :
  has (sv_flags sv) SERV_NO_ADDR = false → has (sv_flags sv) SERV_LITERAL_ADDRESS = false → search_literal qtype sv r = r.
Proof. unfold search_literal. by intros -> ->. Qed.
Lemma chosen_ext name l r r' : s_type r' = s_type r → s_domain r' = s_domain r → matchlen r' = matchlen r → chosen name l r → chosen name l r'.
Proof. unfold chosen. by intros -> -> ->. Qed.
Lemma chosen_literal name l qtype sv r : chosen name l r → chosen name l (search_literal qtype sv r).
Proof. destruct (search_literal_same qtype sv r) as (? & ? & ?). by apply chosen_ext. Qed.
Lemma chosen_max name l r sv d : chosen name l r → sv ∈ l → for_domain name sv d → s_type r = SERV_HAS_DOMAIN ∧ (length d ≤ matchlen r)%nat.
Proof.
  intros [(Ht & sv0 & d0 & _ & _ & _ & Hm & Hmax)|(_ & _ & _ & Hno)] Hin Hf; [|by destruct (Hno sv d)]. split; [done|]. rewrite Hm. by eapply Hmax.
Qed.
(** a server that changes nothing *)
Lemma chosen_keep name l sv r :
  chosen name l r → (∀ d, for_domain name sv d → s_type r = SERV_HAS_DOMAIN ∧ (length d ≤ matchlen r)%nat) →
  (for_nodots name sv = true → s_type r = SERV_HAS_DOMAIN) → chosen name (l ++ [sv]) r.
Proof.
  assert (Hin : ∀ x, x ∈ l ++ [sv] ↔ x ∈ l ∨ x = sv) by (intros x; by rewrite elem_of_app, list_elem_of_singleton).
  intros Hc. intros Hsv Hnd. destruct Hc as [(Ht & sv0 & d & Hl & Hf & Hdm & Hm & Hmax)|(Ht & Hdm & Hm & Hno)].
  - left. split; [done|]. exists sv0, d. split; [apply Hin; by left|]. do 3 (split; [done|]). intros sv' d' [Hl'| ->]%Hin Hf'; [by eapply Hmax|].
    rewrite <- Hm. by apply Hsv.
  - right. assert (H0 : s_type r ≠ SERV_HAS_DOMAIN) by (rewrite Ht; by case_match). split_and!; [|done|done|].
    + rewrite existsb_app. cbn. destruct (for_nodots name sv); [by destruct H0; apply Hnd|]. by rewrite !orb_false_r.
    + intros sv' d' [Hl'| ->]%Hin; [by apply Hno|]. intros Hf'. by apply H0, (Hsv d').
Qed.
(** the last server of a list that grew *)
Lemma decisive_snoc name l sv sv' :
  decisive name (l ++ [sv]) sv' →
  (decisive name l sv' ∧ ∃ d', for_domain name sv' d' ∧ sv' ∈ l ∧ ∀ d, for_domain name sv d → (length d < length d')%nat) ∨
  (sv' = sv ∧ ∃ d, for_domain name sv d ∧ ∀ sv0 d0, sv0 ∈ l → for_domain name sv0 d0 → (length d0 ≤ length d)%nat).
Proof.
  intros (l1 & l2 & d & Heq & Hf & H1 & H2). destruct l2 as [|x l2 _] using rev_ind.
  - apply app_inj_tail in Heq as [-> ->]. right. split; [done|]. by exists d.
  - rewrite app_comm_cons, app_assoc in Heq. apply app_inj_tail in Heq as [-> ->]. left. split.
    + exists l1, l2, d. split_and!; [done|done|done|]. intros sv0 d0 Hin. apply H2, elem_of_app. by left.
    + exists d. split_and!; [done|apply elem_of_app; right; by left|]. intros d0. apply H2, elem_of_app. right. by left.
Qed.
Lemma no_answers_snoc name l sv : no_answers name (l ++ [sv]) → no_answers name l ∧
  ((∃ d, for_domain name sv d) ∨ for_nodots name sv = true → has (sv_flags sv) SERV_NO_ADDR = false ∧ has (sv_flags sv) SERV_LITERAL_ADDRESS = false).
Proof. intros H. split; [intros x Hx; apply H, elem_of_app; by left|]. apply H, elem_of_app. right. by left. Qed.
Lemma decided_keep qtype name l sv r :
  decided qtype name l r → chosen name l r → (∀ d, for_domain name sv d → s_type r = SERV_HAS_DOMAIN ∧ (length d < matchlen r)%nat) →
  decided qtype name (l ++ [sv]) r.
Proof.
  intros [D1 D2] Hc Hsv. split.
  - intros sv' [[Hd _]|(-> & d & Hf & Hmax)]%decisive_snoc; [by apply D1|]. exfalso. destruct (Hsv d Hf) as [Ht Hlt].
    destruct Hc as [(_ & sv0 & d0 & Hin & Hf0 & _ & Hm & _)|(Ht' & _)]; [|rewrite Ht in Ht'; by case_match].
    specialize (Hmax _ _ Hin Hf0). lia.
  - intros [Hq _]%no_answers_snoc. by apply D2.
Qed.
(** a server that is taken *)
Lemma decided_take qtype name l sv r r0 :
  decided qtype name l r → s_flags r0 = s_flags r → s_addr r0 = s_addr r → (∃ d, for_domain name sv d) ∨ for_nodots name sv = true →
  (∀ sv' d', sv' ∈ l → for_domain name sv' d' → ∃ d, for_domain name sv d ∧ (length d' ≤ length d)%nat) →
  decided qtype name (l ++ [sv]) (search_literal qtype sv r0).
Proof.
  intros [D1 D2] Hfl Hfa Hm Hle. split.
  - intros sv' [(_ & d' & Hf & Hin & Hlt)|(-> & _)]%decisive_snoc; [|apply search_literal_answers].
    exfalso. destruct (Hle _ _ Hin Hf) as (d & Hfd & Hx). specialize (Hlt d Hfd). lia.
  - intros [Hq Hsv]%no_answers_snoc. destruct (Hsv Hm). rewrite search_literal_quiet, Hfl, Hfa by done. by apply D2.
Qed.
Lemma search_step_chosen qtype name l sv r :
  Forall (λ c, c ≠ 0) name → server_wf sv → chosen name l r → decided qtype name l r →
  ∃ r', search_step qtype name sv r = Val r' ∧ chosen name (l ++ [sv]) r' ∧ decided qtype name (l ++ [sv]) r'.
Proof.
  intros Hs [Hd Hn] Hc Hdec. unfold search_step. rewrite no_dots_spec.
  assert (Hin : ∀ x, x ∈ l ++ [sv] ↔ x ∈ l ∨ x = sv) by (intros x; by rewrite elem_of_app, list_elem_of_singleton).
  pose proof (chosen_keep name l sv r Hc) as Hkeep. pose proof (decided_keep qtype name l sv r Hdec Hc) as Hkeep'.
  destruct (has (sv_flags sv) SERV_FOR_NODOTS) eqn:En; cbn [andb].
  - assert (Hnot : ∀ d, ¬ for_domain name sv d) by (intros d (H1 & _); rewrite Hn in H1 by done; done).
    destruct (Z.eqb_spec (s_type r) SERV_HAS_DOMAIN) as [Et|Et]; cbn [negb andb].
    { rewrite Hn by done. eexists. split; [done|]. split; [apply Hkeep; [|done]|apply Hkeep']; by intros d ?%Hnot. }
    destruct (bool_decide (dotless name)) eqn:Edot.
    + destruct Hc as [(Ht & _)|(Ht & Hdm & Hm & Hno)]; [done|]. eexists. split; [done|]. split.
      * apply chosen_literal. right. cbn. split_and!; [|done|done|].
        { rewrite existsb_app. cbn. unfold for_nodots at 2. by rewrite En, Edot, !orb_true_r. }
        intros sv' d' [Hl'| ->]%Hin; [by apply Hno|apply Hnot].
      * apply (decided_take _ _ _ _ r); [done|done|done|right; unfold for_nodots; by rewrite En|]. by intros sv' d' Hl' ?%Hno.
    + rewrite Hn by done. eexists. split; [done|]. split; [|apply Hkeep'; by intros d ?%Hnot].
      apply Hkeep; [by intros d ?%Hnot|]. unfold for_nodots. by rewrite Edot, andb_false_r.
  - assert (Hnd : for_nodots name sv = false) by (unfold for_nodots; by rewrite En).
    destruct (has (sv_flags sv) SERV_HAS_DOMAIN) eqn:Ed.
    2: { assert (Hnot : ∀ d, ¬ for_domain name sv d) by (intros d (H1 & _); congruence).
         eexists. split; [done|]. split; [apply Hkeep; [by intros d ?%Hnot|congruence]|apply Hkeep'; by intros d ?%Hnot]. }
    destruct (Hd eq_refl) as (d & Hdom & Hds). rewrite Hdom. eexists. split; [done|].
    assert (Hsame : ∀ d', for_domain name sv d' → d' = d) by (intros d' (_ & H2 & _); congruence).
    pose proof (domain_matches_spec name d Hs Hds) as Hspec. destruct (domain_matches name d); cbn [andb].
    2: { assert (Hnot : ∀ d, ¬ for_domain name sv d).
         { intros d' Hf. rewrite (Hsame d' Hf) in Hf. destruct Hf as (_ & _ & ?%Hspec). done. }
         split; [apply Hkeep; [by intros d' ?%Hnot|congruence]|apply Hkeep'; by intros d' ?%Hnot]. }
    assert (Hfd : for_domain name sv d) by (split_and!; [done|done|by apply Hspec]).
    destruct (Nat.leb_spec (matchlen r) (length d)) as [Hle|Hle].
    2: { assert (Ht : s_type r = SERV_HAS_DOMAIN) by (destruct Hc as [(Ht & _)|(_ & _ & Hm & _)]; [done|lia]).
         split; [apply Hkeep; [|congruence]|apply Hkeep']; intros d' ->%Hsame; (split; [done|lia]). }
    assert (Hmax : ∀ sv' d', sv' ∈ l → for_domain name sv' d' → (length d' ≤ length d)%nat).
    { intros sv' d' Hl' Hf'. destruct (chosen_max name l r sv' d' Hc Hl' Hf'). lia. }
    split; [|apply (decided_take _ _ _ _ r); [done|done|done|by left; exists d|]; intros sv' d' Hl' Hf'; exists d; split; [done|by eapply Hmax]].
    apply chosen_literal. left. split; [done|]. exists sv, d. split; [apply Hin; by right|]. do 3 (split; [done|]).
    intros sv' d' [Hl'| ->]%Hin Hf'; [by eapply Hmax|]. by rewrite (Hsame d' Hf').
Qed.
Lemma search_loop_chosen qtype name l2 : ∀ l1 r, Forall (λ c, c ≠ 0) name → (∀ sv, sv ∈ l2 → server_wf sv) → chosen name l1 r → decided qtype name l1 r →
  ∃ r', search_loop qtype name l2 r = Val r' ∧ chosen name (l1 ++ l2) r' ∧ decided qtype name (l1 ++ l2) r'.
Proof.
  induction l2 as [|sv l2 IH]; intros l1 r Hs Hw Hc Hd; cbn [search_loop]; [exists r; by rewrite app_nil_r|].
  destruct (search_step_chosen qtype name l1 sv r) as (r1 & Hr1 & Hc1 & Hd1); [done|apply Hw; by left|done|done|]. rewrite Hr1, bind_Val.
  destruct (IH (l1 ++ [sv]) r1) as (r' & Hr' & Hc' & Hd'); [done|intros sv' Hsv'; apply Hw; by right|done|done|].
  exists r'. rewrite <- app_assoc in Hc', Hd'. done.
Qed.
(** C14. search_servers always gives a result, for a list of servers as the options make
    it (a server for a domain has one and is not for names without dots) and a name
    that is a string: the type and domain of the result are those of the longest domain
    of a server in which the name ends at the border of a label; only a name that no
    domain matches, and that has no dots, goes to the servers for such names, and any
    other to those without a domain.  The last server with that longest domain decides
    when it says that there is no such name (unless the name is known locally) or has
    an address of the type asked for, which is then the answer; a name for whose servers
    no such thing is configured has none, and is forwarded unless it has no dots and
    such names are kept local.  Between the two, the flags and address of a shorter
    domain or of a server before may stay. *)
Theorem search_servers_longest mix_tab cfg fcfg now qtype name s :
  Forall (λ c, c ≠ 0) name → (∀ sv, sv ∈ servers (st s) → server_wf sv) →
  ∃ r s', search_servers mix_tab cfg fcfg now qtype name s = Val (r, s') ∧ chosen name (servers (st s)) r ∧
    (∀ sv, decisive name (servers (st s)) sv →
       (has (sv_flags sv) SERV_NO_ADDR = true → s_flags r = F_NXDOMAIN ∨ s_flags r = F_NOERR) ∧
       (has (sv_flags sv) SERV_NO_ADDR = false → has (sv_flags sv) SERV_LITERAL_ADDRESS = true → has (sflag (sv_addr sv)) qtype = true →
          s_flags r = sflag (sv_addr sv) ∧ s_addr r = Some (sa_bytes (sv_addr sv)))) ∧
    (no_answers name (servers (st s)) → s_addr r = None ∧
       (s_flags r = 0 ∨ opt_nodots_local fcfg = true ∧ dotless name ∧ (s_flags r = F_NXDOMAIN ∨ s_flags r = F_NOERR))).
Proof.
  intros Hs Hw. destruct (search_loop_chosen qtype name (servers (st s)) [] (mk_search 0 0 None None 0)) as (r & Hr & Hc & Hd1 & Hd2); [done|done| | |].
  { right. cbn. split_and!; [done..|]. by intros sv d ?%not_elem_of_nil. }
  { split; [|done]. intros sv (l1 & l2 & d & Heq & _). by destruct l1. }
  rewrite app_nil_l in *. apply ewp_total. unfold search_servers. apply ewp_bind, ewp_get, ewp_bind. rewrite Hr. apply ewp_lift; [|done]. intros ? [= <-].
  set (f := if _ && _ && _ && _ then F_NXDOMAIN else s_flags r).
  assert (Hf : f = s_flags r ∨ s_flags r = 0 ∧ f = F_NXDOMAIN ∧ opt_nodots_local fcfg = true ∧ dotless name).
  { unfold f. destruct (_ && _ && _ && _) eqn:Hb; [right|by left]. rewrite !andb_true_iff, Z.eqb_eq, no_dots_spec, bool_decide_eq_true in Hb. tauto. }
  apply ewp_bind. eapply (ewp_mono _ _ (λ b _, b = true → f = F_NXDOMAIN)).
  - intros b s1 Hb. apply ewp_ret. split; [by eapply chosen_ext; [..|exact Hc]|]. cbn [s_flags s_addr]. split.
    + intros sv Hdec. destruct (Hd1 sv Hdec) as [Hno Hlit]. split.
      * intros H1. specialize (Hno H1). destruct b; [by right|]. left. destruct Hf as [->|(H0 & _)]; [done|]. by rewrite H0 in Hno.
      * intros H1 H2 H3. destruct (Hlit H1 H2 H3) as [Hfl Ha]. split; [|done].
        assert (Hne : sflag (sv_addr sv) ≠ 0 ∧ sflag (sv_addr sv) ≠ F_NXDOMAIN) by (by destruct (sv_addr sv)).
        destruct Hf as [Hf|(H0 & _)]; [|rewrite H0 in Hfl; by destruct Hne]. destruct b; [|congruence].
        specialize (Hb eq_refl). destruct Hne as [_ []]. congruence.
    + intros Hq. destruct (Hd2 Hq) as [H0 Ha]. split; [done|]. destruct Hf as [Hf|(_ & Hf & Ho & Hdl)].
      * left. destruct b; [|congruence]. specialize (Hb eq_refl). rewrite Hf, H0 in Hb. done.
      * right. split_and!; [done|done|]. destruct b; [by right|by left].
  - destruct (Z.eqb_spec f F_NXDOMAIN) as [Hf'|Hf']; [|by apply ewp_ret]. apply ewp_bind, ewp_get.
    destruct (check_for_local_domain _ _ _ _ _ _ _ _) as [b s1]. by apply ewp_bind, ewp_mod, ewp_ret.
Qed.
Definition domain_server (flags : Z) (d : text) (a : Z) : server := mk_server (Sin 53 a) None (Some d) flags 0 0 0.
Definition two_domains : daemon := set_servers [domain_server SERV_HAS_DOMAIN (codes "a.b") 1; domain_server SERV_HAS_DOMAIN (codes "b") 2] sample_daemon.
Lemma two_domains_ab : for_domain (codes "x.a.b") (domain_server SERV_HAS_DOMAIN (codes "a.b") 1) (codes "a.b").
Proof. split_and!; [done|done|]. exists (codes "x."), (codes "a.b"). split_and!; [done|done|]. by right; right; right. Qed.
Lemma search_servers_longest_witness :
  ∃ r s', search_servers [] plain_config sample_fcfg 100 F_IPV4 (codes "x.a.b") (mk_rt [] two_domains) = Val (r, s') ∧
    s_domain r = Some (codes "a.b") ∧ s_flags r = 0 ∧ s_addr r = None.
Proof.
  destruct (search_servers_longest [] plain_config sample_fcfg 100 F_IPV4 (codes "x.a.b") (mk_rt [] two_domains)) as (r & s' & Hr & Hc & _ & Hq).
  - repeat constructor; done.
  - intros sv Hsv. cbn in Hsv. rewrite !elem_of_cons in Hsv. destruct Hsv as [->|[->|?%not_elem_of_nil]]; [| |done];
      (split; [intros _; eexists; split; [done|repeat constructor; done]|done]).
  - exists r, s'. split; [done|]. destruct Hq as [Ha Hf].
    { intros sv Hsv _. cbn in Hsv. rewrite !elem_of_cons in Hsv. by destruct Hsv as [->|[->|?%not_elem_of_nil]]. }
    split; [|split; [by destruct Hf as [?|(Hf & _)]|done]].
    destruct Hc as [(_ & sv & d & Hl & (_ & Hd & _) & -> & _ & Hmax)|(_ & _ & _ & Hno)].
    + assert (Hab : (3 ≤ length d)%nat) by (apply (Hmax (domain_server SERV_HAS_DOMAIN (codes "a.b") 1) (codes "a.b")); [by left|apply two_domains_ab]).
      cbn in Hl. rewrite !elem_of_cons in Hl. destruct Hl as [->|[->|?%not_elem_of_nil]]; [by injection Hd as <-|injection Hd as <-; cbn in Hab; lia|done].
    + destruct (Hno (domain_server SERV_HAS_DOMAIN (codes "a.b") 1) (codes "a.b")); [by left|apply two_domains_ab].
Defined.
(** The flags of a shorter match stay when a longer one comes: with --address=/#/ before
    --server=/a.b/ in the list, a name under a.b is answered with the address of the
    first, though the server of a.b was found for it. *)
Theorem specific_server_ignored :
  search_loop F_IPV4 (codes "x.a.b") [domain_server (Z.lor SERV_HAS_DOMAIN SERV_LITERAL_ADDRESS) [] 16909060; domain_server SERV_HAS_DOMAIN (codes "a.b") 1]
    (mk_search 0 0 None None 0) = Val (mk_search F_IPV4 SERV_HAS_DOMAIN (Some (codes "a.b")) (Some [4; 3; 2; 1]) 3).
Proof. by vm_compute. Qed.
End DnsRelay.
