(* ===== verification/DnsTcp.v ===== *)
(** * Queries over TCP (src/external/dnsmasq/src/forward.c: tcp_request)

    A child of the daemon serves one connection: it answers the queries of the client one
    after the other, from the cache or by asking the servers over connections that it
    keeps for the next query.  The packet it allocates takes the place of the packet of
    the daemon, [d_packet]; [fds] is the tcpfd of each server, in the order of the list.
    read_write is a call that gives all the bytes asked for or fails. *)
From stdpp Require Import gmap sorting.
From S2P Require Import Prelude Runtime DriverRt DnsUtil DnsName DnsMsg DnsCache DnsCacheInv DnsCacheSpec DnsReply DnsAnswer DnsAnswerSpec DnsForward DnsForwardSpec DnsRelay.
Import DnsUtil DnsName DnsMsg DnsCache DnsCacheInv DnsCacheSpec DnsReply DnsAnswer DnsAnswerSpec DnsForward DnsForwardSpec DnsRelay.

Module DnsTcp.
Create HintDb silent.
Section Tcp.
Context `{W : World fcall}.
Context (mix_tab : list Z) (cfg : config) (fcfg : fwd_config).
Context (get_ifaddr : text → list Z) (inet_addr : text → option (list Z)) (alias_word : option nat → Z).
Abbreviation F := (IO fcall daemon).

(** ** Reading and writing *)
Definition tcp_byte (fd : Z) : F (option Z) :=
  r ← kcall_ (TcpRead fd 1); mret (if rret r =? 0 then None else Some (u8 (nth 0 (rout r) 0))).
(** c1 << 8 | c2 *)
Definition tcp_length (fd : Z) : F (option nat) :=
  c1 ← tcp_byte fd;
  match c1 with
  | None => mret None
  | Some c1 => c2 ← tcp_byte fd; mret (match c2 with None => None | Some c2 => Some (Z.to_nat (Z.lor (Z.shiftl c1 8) c2)) end)
  end.
(** read_write(fd, packet, n, 1), which does nothing for 0 bytes *)
Definition tcp_fill (fd : Z) (n : nat) : F bool :=
  if (n =? 0)%nat then mret true else
  r ← kcall_ (TcpRead fd n);
  if rret r =? 0 then mret false else
  m ← kget d_packet;
  m ← klift (put m 0 (take n (rout r ++ repeat 0 n)));
  kmod (set_packet m) ;;
  mret true.
Definition tcp_write (fd : Z) (data : list Z) : F bool := r ← kret (TcpWrite fd data); mret (negb (r =? 0)).
(** c1, c2 and the packet *)
Definition tcp_send (fd : Z) (n : nat) : F bool :=
  ok ← tcp_write fd [u8 (Z.shiftr (Z.of_nat n) 8)];
  if negb ok then mret false else
  ok ← tcp_write fd [u8 (Z.of_nat n)];
  if negb ok then mret false else
  if (n =? 0)%nat then mret true else
  m ← kget d_packet;
  data ← klift (load 0 n m);
  tcp_write fd data.

(** ** The servers *)
Definition tcp_family (sv : server) : Z := match sv_addr sv with Sin _ _ => AF_INET | Sin6 _ _ _ => AF_INET6 | SaOther f => f end.
(** the tcpfd of the server afterwards *)
Definition tcp_connect (fd : Z) (sv : server) : F Z :=
  if negb (fd =? -1) then mret fd else
  fd ← kret (TcpSocket (tcp_family sv));
  if fd =? -1 then mret (-1) else
  bound ← kret (TcpBind fd);
  c ← (if bound =? 0 then mret (-1) else kret (TcpConnect fd (sv_addr sv)));
  if c =? -1 then kdo (TcpClose fd) ;; mret (-1) else mret fd.
(** What a server gives: the next one is tried, the connection ends, or a reply of a
    length; with the descriptors. *)
Inductive tcp_turn := TcpNext | TcpEnd | TcpDone (m : nat).
Definition tcp_server (junk : list Z) (now crc : Z) (gotname : bool) (type : Z) (domain : option text) (size i : nat) (fds : list Z) : F (tcp_turn * list Z) :=
  sv ← the_server i;
  same ← (if negb (type =? Z.land (sv_flags sv) SERV_TYPE) then mret false
          else if negb (type =? SERV_HAS_DOMAIN) then mret true else klift (same_domain domain sv));
  if negb same then mret (TcpNext, fds) else
  fd0 ← kderef (λ _, fds !! i);
  fd ← tcp_connect fd0 sv;
  let fds := <[i := fd]> fds in
  if fd =? -1 then mret (TcpNext, fds) else
  ok ← tcp_send fd size;
  len ← (if (ok : bool) then tcp_length fd else mret None);
  match len with
  | None => kdo (TcpClose fd) ;; mret (TcpNext, <[i := -1]> fds)
  | Some m =>
      ok ← tcp_fill fd m;
      if negb ok then mret (TcpEnd, fds) else
      kwhen (negb gotname) (nb ← kget namebuff; nb ← klift (put nb 0 (codes "query" ++ [0])); kmod (set_namebuff nb)) ;;
      p ← kget d_packet;
      nb ← kget namebuff;
      c ← klift (questions_crc p m nb);
      m ← (if crc =? c then process_reply mix_tab cfg fcfg junk now (Some i) m else mret m);
      mret (TcpDone m, fds)
  end.
Fixpoint tcp_servers (junk : list Z) (now crc : Z) (gotname : bool) (type : Z) (domain : option text) (size n k i : nat) (fds : list Z) : F (tcp_turn * list Z) :=
  match k with
  | O => mret (TcpNext, fds)
  | S k' =>
      r ← tcp_server junk now crc gotname type domain size i fds;
      match r with
      | (TcpNext, fds) => tcp_servers junk now crc gotname type domain size n k' (next_server n i) fds
      | r => mret r
      end
  end.

(** ** A query *)
(** The length of the reply; [TcpNext]: it does not end. *)
Definition tcp_answer (hops : nat) (junk : list Z) (local_addr netmask now : Z) (size : nat) (fds : list Z) : F (tcp_turn * list Z) :=
  m ← kget d_packet;
  nb ← kget namebuff;
  req ← klift (extract_request m size nb);
  let '(gotname, _, nb) := req in
  s ← kget d_cache;
  r ← klift (answer_request mix_tab cfg get_ifaddr inet_addr alias_word 65536 size local_addr netmask now hops m nb junk s);
  let '(len, m, nb, s) := r in
  kmod (set_packet m) ;;
  kmod (set_namebuff nb) ;;
  kmod (set_dcache s) ;;
  match len with
  | None => mret (TcpNext, fds)
  | Some (S k) => mret (TcpDone (S k), fds)
  | Some 0%nat =>
      r ← (if gotname =? 0 then mret (mk_search 0 0 None None 0)
           else name ← (nb ← kget namebuff; klift (str_at nb 0)); search_servers mix_tab cfg fcfg now gotname name);
      last ← kget last_server;
      n ← kget (λ d, length (servers d));
      let first := if negb (s_type r =? 0) || opt_order fcfg then 0%nat else default 0%nat last in
      t ← (if (s_flags r =? 0) && negb (n =? 0)%nat then
             m ← kget d_packet;
             nb ← kget namebuff;
             crc ← klift (questions_crc m size nb);
             tcp_servers junk now crc (negb (gotname =? 0)) (s_type r) (s_domain r) size n n first fds
           else mret (TcpNext, fds));
      match t with
      | (TcpEnd, fds) => mret (TcpEnd, fds)
      | (TcpDone (S m), fds) => mret (TcpDone (S m), fds)
      | (_, fds) =>
          m ← kget d_packet;
          x ← klift (setup_reply m size (default [] (s_addr r)) (s_flags r) (local_ttl cfg));
          kmod (set_packet x.2) ;;
          match x.1 with None => kub | Some len => mret (TcpDone len, fds) end
      end
  end.
(** The loop over the queries of the connection: whether it has ended within [turns]. *)
Fixpoint tcp_loop (turns hops : nat) (junk : list Z) (confd local_addr netmask now : Z) (fds : list Z) : F (bool * list Z) :=
  match turns with
  | O => mret (false, fds)
  | S turns' =>
      size ← tcp_length confd;
      match size with
      | None | Some 0%nat => mret (true, fds)
      | Some size =>
          ok ← tcp_fill confd size;
          if negb ok then mret (true, fds) else
          if (size <? HEADER_SIZE)%nat then tcp_loop turns' hops junk confd local_addr netmask now fds else
          r ← tcp_answer hops junk local_addr netmask now size fds;
          match r with
          | (TcpNext, fds) => mret (false, fds)
          | (TcpEnd, fds) => mret (true, fds)
          | (TcpDone m, fds) =>
              ok ← tcp_send confd m;
              if negb ok then mret (true, fds) else tcp_loop turns' hops junk confd local_addr netmask now fds
          end
      end
  end.
(** [buffer]: the memory the allocator gives for the packet *)
Definition tcp_request (turns hops : nat) (buffer junk : list Z) (confd local_addr netmask now : Z) (fds : list Z) : F (bool * list Z) :=
  r ← kret MallocPacket;
  if r =? 0 then mret (true, fds) else
  kmod (set_packet (take (65536 + MAXDNAME + 10) (buffer ++ repeat 0 (65536 + MAXDNAME + 10)))) ;;
  tcp_loop turns hops junk confd local_addr netmask now fds.

(** ** What makes no calls *)
Definition silent {A} (m : F A) : Prop := ∀ s, ewp True m (λ _ s', calls s' = calls s) s.
Lemma silent_ret {A} (a : A) : silent (mret a).
Proof. intros s. by apply ewp_ret. Qed.
Lemma silent_bind {A B} (m : F A) (f : A → F B) : silent m → (∀ a, silent (f a)) → silent (m ≫= f).
Proof. intros Hm Hf s. apply ewp_bind. eapply ewp_mono; [|apply Hm]. intros a s1 H1. eapply ewp_mono; [|apply Hf]. intros b s2 H2. congruence. Qed.
Lemma silent_get {A} (f : daemon → A) : silent (kget f).
Proof. intros s. by apply ewp_get. Qed.
Lemma silent_lift {A} (o : outcome A) : silent (klift o).
Proof. intros s. by apply ewp_lift. Qed.
Lemma silent_deref {A} (f : daemon → option A) : silent (kderef f).
Proof. intros s. by apply ewp_deref. Qed.
Lemma silent_ub {A} : silent (kub : F A).
Proof. intros s. by apply ewp_ub. Qed.
Lemma silent_mod (f : daemon → daemon) : silent (kmod f).
Proof. intros s. by apply ewp_mod. Qed.
Ltac silent_step :=
  match goal with
  | |- silent (mbind _ _) => apply silent_bind; [|intros ?]
  | |- silent (mret _) => apply silent_ret
  | |- silent (kget _) => apply silent_get
  | |- silent (klift _) => apply silent_lift
  | |- silent (kderef _) => apply silent_deref
  | |- silent kub => apply silent_ub
  | |- silent (kmod _) => apply silent_mod
  | |- silent (upd_server _ _) => apply silent_mod
  | |- silent (kwhen _ _) => unfold kwhen
  | |- silent (the_server _) => unfold the_server
  | |- silent (match ?x with _ => _ end) => destruct x
  | _ => solve [eauto with silent]
  end.
Ltac silence := repeat (cbv zeta; silent_step).
Lemma silent_search_servers now qtype name : silent (search_servers mix_tab cfg fcfg now qtype name).
Proof. unfold search_servers. silence. Qed.
Lemma silent_process_reply junk now srv n : silent (process_reply mix_tab cfg fcfg junk now srv n).
Proof. unfold process_reply, complain, learn_reply. silence. Qed.
Hint Resolve silent_search_servers silent_process_reply : silent.

(** ** The sockets of the servers *)
Definition tcp_delta (fd : Z) (ev : fevent) : Z :=
  match ev with
  | (TcpSocket _, r) => if rret r =? fd then 1 else 0
  | (TcpClose fd', _) => if fd' =? fd then -1 else 0
  | _ => 0
  end.
Definition tcp_opened (fd : Z) (tr : list fevent) : Z := DriverRt.total (tcp_delta fd) tr.
Definition is_fd (fd x : Z) : nat := if decide (x = fd) then 1%nat else 0%nat.
Definition kept_open (fd : Z) (fds : list Z) : Z := Z.of_nat (sum_list_with (is_fd fd) fds).
(** open are the sockets that a server has, each once *)
Definition tcp_ok (fds : list Z) (tr : list fevent) : Prop := ∀ fd, fd ≠ -1 → tcp_opened fd tr = kept_open fd fds.
Definition tame (ev : fevent) : bool := match ev.1 with TcpSocket _ | TcpClose _ => false | _ => true end.
Lemma tcp_opened_snoc fd tr ev : tcp_opened fd (tr ++ [ev]) = tcp_opened fd tr + tcp_delta fd ev.
Proof. apply total_snoc. Qed.
Lemma tame_delta fd ev : tame ev = true → tcp_delta fd ev = 0.
Proof. by destruct ev as [[]]. Qed.
(** calls that are not about the sockets of servers *)
Definition steady {A} (m : F A) : Prop := ∀ s, ewp True m (λ _ s', ∀ fd, tcp_opened fd (calls s') = tcp_opened fd (calls s)) s.
Lemma steady_silent {A} (m : F A) : silent m → steady m.
Proof. intros Hm s. eapply ewp_mono; [|apply Hm]. by intros _ s' ->. Qed.
Lemma steady_bind {A B} (m : F A) (f : A → F B) : steady m → (∀ a, steady (f a)) → steady (m ≫= f).
Proof. intros Hm Hf s. apply ewp_bind. eapply ewp_mono; [|apply Hm]. intros a s1 H1. eapply ewp_mono; [|apply Hf]. intros b s2 H2 fd. by rewrite H2. Qed.
Lemma steady_call c : (∀ r, tame (c, r) = true) → steady (kcall_ c).
Proof. intros Hc s. apply ewp_any. intros r fd. cbn [calls]. rewrite tcp_opened_snoc, tame_delta by done. lia. Qed.
Ltac steady_step :=
  match goal with
  | |- steady (mbind _ _) => apply steady_bind; [|intros ?]
  | |- steady (kcall_ _) => apply steady_call; done
  | |- steady (kret _) => unfold kret
  | |- steady (match ?x with _ => _ end) => destruct x
  | _ => solve [apply steady_silent; silence]
  end.
Ltac steadily := repeat (cbv zeta; steady_step).
Lemma steady_write fd data : steady (tcp_write fd data).
Proof. unfold tcp_write. steadily. Qed.
Lemma steady_send fd n : steady (tcp_send fd n).
Proof. pose proof steady_write. unfold tcp_send. steadily; done. Qed.
Lemma steady_length fd : steady (tcp_length fd).
Proof. unfold tcp_length, tcp_byte. steadily. Qed.
Lemma steady_fill fd n : steady (tcp_fill fd n).
Proof. unfold tcp_fill. steadily. Qed.
Lemma ewp_steady {A} (m : F A) fds (P : A → rt fcall daemon → Prop) s :
  steady m → tcp_ok fds (calls s) → (∀ a s', tcp_ok fds (calls s') → P a s') → ewp True m P s.
Proof. intros Hm Hs HP. eapply ewp_mono; [|apply Hm]. intros a s' He. apply HP. intros fd Hfd. rewrite He. by apply Hs. Qed.
(** a server gets another descriptor *)
Lemma tcp_ok_set fds i a b tr tr' :
  tcp_ok fds tr → fds !! i = Some a → (∀ fd, fd ≠ -1 → tcp_opened fd tr' - tcp_opened fd tr = Z.of_nat (is_fd fd b) - Z.of_nat (is_fd fd a)) →
  tcp_ok (<[i := b]> fds) tr'.
Proof.
  intros Ht Hi Hd fd Hfd. specialize (Ht fd Hfd). specialize (Hd fd Hfd). pose proof (sum_insert (is_fd fd) fds i a b Hi). unfold kept_open in *. lia.
Qed.
Lemma tcp_connect_ok fds i fd0 sv (s : rt fcall daemon) :
  tcp_ok fds (calls s) → fds !! i = Some fd0 → ewp True (tcp_connect fd0 sv) (λ fd s', tcp_ok (<[i := fd]> fds) (calls s')) s.
Proof.
  intros Hs Hi. unfold tcp_connect. destruct (Z.eqb_spec fd0 (-1)) as [->|H0]; cbn [negb]; [|apply ewp_ret; by rewrite list_insert_id].
  assert (Hid : <[i := -1]> fds = fds) by (by apply list_insert_id).
  apply ewp_bind. unfold kret at 1. apply ewp_bind, ewp_any. intros r. apply ewp_ret. set (fd := rret r).
  match goal with |- ewp _ _ _ ?s' => set (s1 := s') end.
  assert (H1 : ∀ fd', tcp_opened fd' (calls s1) = tcp_opened fd' (calls s) + if fd =? fd' then 1 else 0) by (intros fd'; apply tcp_opened_snoc).
  clearbody s1. destruct (Z.eqb_spec fd (-1)) as [Hm|Hm].
  { apply ewp_ret. rewrite Hid. intros fd' Hfd'. rewrite H1, (Hs fd' Hfd'). destruct (Z.eqb_spec fd fd'); lia. }
  assert (Hok : tcp_ok (<[i := fd]> fds) (calls s1)).
  { eapply tcp_ok_set; [exact Hs|exact Hi|]. intros fd' Hfd'. rewrite H1. unfold is_fd. destruct (Z.eqb_spec fd fd'); repeat case_decide; lia. }
  apply ewp_bind. eapply ewp_steady; [steadily|exact Hok|]. intros bound s2 H2. apply ewp_bind. eapply ewp_steady; [steadily|exact H2|]. intros c s3 H3.
  destruct (c =? -1); [|by apply ewp_ret]. apply ewp_bind. unfold kdo. apply ewp_bind, ewp_any. intros r'. apply ewp_ret, ewp_ret.
  rewrite <- (list_insert_insert_eq fds i (-1) fd). eapply tcp_ok_set; [exact H3|apply list_lookup_insert_eq; by eapply lookup_lt_Some|].
  intros fd' Hfd'. cbn [calls]. rewrite tcp_opened_snoc. cbn [tcp_delta]. unfold is_fd. destruct (Z.eqb_spec fd fd'); repeat case_decide; lia.
Qed.
Lemma tcp_server_ok junk now c got type domain size i fds (s : rt fcall daemon) :
  tcp_ok fds (calls s) → ewp True (tcp_server junk now c got type domain size i fds) (λ r s', tcp_ok r.2 (calls s')) s.
Proof.
  pose proof steady_send as Hsend. pose proof steady_length as Hlen. pose proof steady_fill as Hfill. intros Hs. unfold tcp_server.
  do 2 (apply ewp_bind; eapply ewp_steady; [steadily|eassumption|]; intros ? ? ?). destruct (negb _); [by apply ewp_ret|].
  apply ewp_bind, ewp_deref; [|done]. intros fd0 Hfd0. apply ewp_bind. eapply ewp_mono; [|by apply (tcp_connect_ok fds i)]. intros fd s2 H2.
  cbv zeta. destruct (Z.eqb_spec fd (-1)) as [|Hm]; [by apply ewp_ret|].
  apply ewp_bind. eapply ewp_steady; [apply Hsend|exact H2|]. intros ok s3 H3. apply ewp_bind. eapply ewp_steady; [destruct ok; [apply Hlen|steadily]|exact H3|]. intros len s4 H4.
  destruct len as [m|].
  - apply ewp_bind. eapply ewp_steady; [apply Hfill|exact H4|]. intros ok' s5 H5. destruct (negb ok'); [by apply ewp_ret|].
    do 5 (apply ewp_bind; eapply ewp_steady; [steadily|eassumption|]; intros ? ? ?). by apply ewp_ret.
  - apply ewp_bind. unfold kdo. apply ewp_bind, ewp_any. intros r'. apply ewp_ret, ewp_ret. cbn [snd].
    eapply tcp_ok_set; [exact H4|apply list_lookup_insert_eq; by eapply lookup_lt_Some|].
    intros fd' Hfd'. cbn [calls]. rewrite tcp_opened_snoc. cbn [tcp_delta]. unfold is_fd. destruct (Z.eqb_spec fd fd'); repeat case_decide; lia.
Qed.
Lemma tcp_servers_ok junk now c got type domain size n k : ∀ i fds (s : rt fcall daemon),
  tcp_ok fds (calls s) → ewp True (tcp_servers junk now c got type domain size n k i fds) (λ r s', tcp_ok r.2 (calls s')) s.
Proof.
  induction k as [|k IH]; intros i fds s Hs; cbn [tcp_servers]; [by apply ewp_ret|].
  apply ewp_bind. eapply ewp_mono; [|by apply tcp_server_ok]. intros [[| |m] fds'] s1 H1; [by apply IH|by apply ewp_ret..].
Qed.
Lemma tcp_answer_ok hops junk local_addr netmask now size fds (s : rt fcall daemon) :
  tcp_ok fds (calls s) → ewp True (tcp_answer hops junk local_addr netmask now size fds) (λ r s', tcp_ok r.2 (calls s')) s.
Proof.
  intros Hs. unfold tcp_answer. do 3 (apply ewp_bind; eapply ewp_steady; [steadily|eassumption|]; intros ? ? ?). destruct a1 as [[got ty] nb].
  do 2 (apply ewp_bind; eapply ewp_steady; [steadily|eassumption|]; intros ? ? ?). destruct a2 as [[[len m] nb'] s0].
  do 3 (apply ewp_bind; eapply ewp_steady; [steadily|eassumption|]; intros ? ? ?). destruct len as [[|len]|]; [|by apply ewp_ret..].
  do 3 (apply ewp_bind; eapply ewp_steady; [steadily|eassumption|]; intros ? ? ?).
  apply ewp_bind. eapply (ewp_mono _ _ (λ r s', tcp_ok r.2 (calls s'))).
  2: { destruct (_ && _); [|by apply ewp_ret]. do 3 (apply ewp_bind; eapply ewp_steady; [steadily|eassumption|]; intros ? ? ?). by apply tcp_servers_ok. }
  clear - W mix_tab cfg fcfg. intros [t' fds'] s1 K1. cbn [snd] in K1.
  assert (Hset : ∀ q, ewp True (q1 ← kget d_packet; x ← klift (setup_reply q1 size (default [] (s_addr q)) (s_flags q) (local_ttl cfg));
    kmod (set_packet x.2) ;; match x.1 with None => kub | Some len => mret (TcpDone len, fds') end) (λ r s', tcp_ok r.2 (calls s')) s1).
  { intros q. do 3 (apply ewp_bind; eapply ewp_steady; [steadily|eassumption|]; intros ? ? ?). case_match; [by apply ewp_ret|by apply ewp_ub]. }
  destruct t' as [| |[|m']]; [apply Hset|by apply ewp_ret|apply Hset|by apply ewp_ret].
Qed.
Lemma tcp_loop_ok hops junk confd local_addr netmask now turns : ∀ fds (s : rt fcall daemon),
  tcp_ok fds (calls s) → ewp True (tcp_loop turns hops junk confd local_addr netmask now fds) (λ r s', tcp_ok r.2 (calls s')) s.
Proof.
  pose proof steady_send as Hsend. pose proof steady_length as Hlen. pose proof steady_fill as Hfill.
  induction turns as [|turns IH]; intros fds s Hs; cbn [tcp_loop]; [by apply ewp_ret|].
  apply ewp_bind. eapply ewp_steady; [apply Hlen|exact Hs|]. intros [[|size]|] s1 H1; [by apply ewp_ret| |by apply ewp_ret].
  apply ewp_bind. eapply ewp_steady; [apply Hfill|exact H1|]. intros ok s2 H2. destruct (negb ok); [by apply ewp_ret|]. destruct (_ <? _)%nat; [by apply IH|].
  apply ewp_bind. eapply ewp_mono; [|by apply tcp_answer_ok]. intros [[| |m] fds'] s3 H3; [by apply ewp_ret..|].
  apply ewp_bind. eapply ewp_steady; [apply Hsend|exact H3|]. intros ok' s4 H4. destruct (negb ok'); [by apply ewp_ret|by apply IH].
Qed.
End Tcp.

(** C27. tcp_request neither leaks a socket of a server nor closes one twice, whatever
    fails on the way and however many queries the client sends: of the sockets it makes
    those are open that a server has in its tcpfd, each once. *)
Theorem tcp_sockets_kept `{W : World fcall} mix_tab cfg fcfg get_ifaddr inet_addr alias_word turns hops buffer junk confd local_addr netmask now fds d b fds' s' :
  (∀ fd, fd ∈ fds → fd = -1) →
  tcp_request mix_tab cfg fcfg get_ifaddr inet_addr alias_word turns hops buffer junk confd local_addr netmask now fds (mk_rt [] d) = Val ((b, fds'), s') →
  ∀ fd, fd ≠ -1 → tcp_opened fd (calls s') = kept_open fd fds'.
Proof.
  intros Hfds Hr. refine (ewp_elim True _ (λ r s', tcp_ok r.2 (calls s')) _ _ _ _ Hr). clear Hr. unfold tcp_request.
  assert (H0 : tcp_ok fds []).
  { intros fd Hfd. unfold kept_open. enough (He : sum_list_with (is_fd fd) fds = 0%nat) by (by rewrite He).
    induction fds as [|x fds IH]; [done|]. cbn. rewrite IH by (intros y Hy; apply Hfds; by right). unfold is_fd.
    rewrite decide_False; [done|]. intros ->. apply Hfd, Hfds. by left. }
  apply ewp_bind. unfold kret. apply ewp_bind, ewp_any. intros r. apply ewp_ret.
  assert (H1 : tcp_ok fds ([] ++ [(MallocPacket, r)])) by (intros fd Hfd; rewrite tcp_opened_snoc; cbn [tcp_delta]; rewrite Z.add_0_r; by apply H0).
  destruct (_ =? 0); [by apply ewp_ret|]. apply ewp_bind, ewp_mod. by apply tcp_loop_ok.
Qed.
(** a client on descriptor 9 that sends one query, and servers that answer it *)
Definition reads (fd : Z) (tr : list fevent) : nat := length (List.filter (λ ev, match ev.1 with TcpRead fd' _ => fd' =? fd | _ => false end) tr).
Definition tcp_world (query reply : list Z) : World fcall := λ tr c,
  let said fd msg := match reads fd tr with
    | 0%nat => mk_resp 1 [0] | 1%nat => mk_resp 1 [Z.of_nat (length msg)] | 2%nat => mk_resp 1 msg | _ => mk_resp 0 [] end in
  match c with
  | TcpRead fd _ => said fd (if fd =? 9 then query else reply)
  | TcpSocket _ => mk_resp 5 []
  | TcpConnect _ _ => mk_resp 0 []
  | _ => mk_resp 1 []
  end.
Definition tcp_reply : list Z := [0; 1; 129; 128; 0; 1; 0; 0; 0; 0; 0; 0; 3; 119; 119; 119; 1; 97; 1; 98; 0; 0; 15; 0; 1].
Abbreviation run_tcp := (tcp_request (W := tcp_world (take 25 (plain_query 15)) tcp_reply) [] plain_config sample_fcfg no_ifaddr (λ _, None) (λ _, 0) 10 10 [] [] 9 0 0 100
  [-1] (mk_rt [] sample_daemon)).
Definition tcp_result {A} (o : outcome (A * rt fcall daemon)) : option A := match o with Val (a, _) => Some a | UB => None end.
Definition tcp_calls {A} (o : outcome (A * rt fcall daemon)) : list fevent := match o with Val (_, s) => calls s | UB => [] end.
Definition tcp_state {A} (o : outcome (A * rt fcall daemon)) : rt fcall daemon := match o with Val (_, s) => s | UB => mk_rt [] sample_daemon end.
Lemma tcp_run {A} (o : outcome (A * rt fcall daemon)) a : tcp_result o = Some a → o = Val (a, tcp_state o).
Proof. destruct o as [[a' s]|]; [|done]. by intros [= ->]. Qed.
Lemma run_tcp_done : run_tcp = Val ((true, [5]), tcp_state run_tcp).
Proof. apply tcp_run. by vm_compute. Qed.
Lemma tcp_sockets_kept_witness : tcp_opened 5 (calls (tcp_state run_tcp)) = kept_open 5 [5].
Proof.
  apply (tcp_sockets_kept (W := tcp_world (take 25 (plain_query 15)) tcp_reply) [] plain_config sample_fcfg no_ifaddr (λ _, None) (λ _, 0) 10 10 [] [] 9 0 0 100
    [-1] sample_daemon true [5]); [by intros fd ->%list_elem_of_singleton|exact run_tcp_done|lia].
Defined.

(** The cache knows www.a.b as an alias of c.d, and an IPv6 address of c.d. *)
Definition aliased_reply : list Z :=
  [0; 7; 129; 128; 0; 1; 0; 2; 0; 0; 0; 0; 3; 119; 119; 119; 1; 97; 1; 98; 0; 0; 28; 0; 1;
   192; 12; 0; 5; 0; 1; 0; 0; 14; 16; 0; 5; 1; 99; 1; 100; 0; 192; 37; 0; 28; 0; 1; 0; 0; 14; 16; 0; 16] ++ repeat 1 16.
Definition aliased_cache : cache :=
  match extract_addresses [] (λ _, true) [] 0 false false 100 (length aliased_reply) [] (aliased_reply ++ repeat 0 1600) (repeat 0 1025) (cache_init [] 5) with
  | Val (_, st) => dns_cache st | UB => cache_init [] 5 end.
Definition aliased_daemon : daemon :=
  set_dcache aliased_cache (set_servers [domain_server SERV_HAS_DOMAIN (codes "d") 1; sample_server] sample_daemon).
Abbreviation run_aliased := (tcp_request (W := tcp_world (take 25 (plain_query T_A)) tcp_reply) [] plain_config sample_fcfg no_ifaddr (λ _, None) (λ _, 0) 10 10 [] [] 9 0 0 110
  [-1; -1] (mk_rt [] aliased_daemon)).
Abbreviation run_udp := (receive_query (W := sample_world) [] plain_config sample_fcfg no_ifaddr (λ _, None) (λ _, 0) (λ _ _ _, None) 10 10 [] [] sample_listener
  (mk_arrival (Some (take 25 (plain_query T_A))) false (Sin 4000 167772161) None) 110 (mk_rt [] aliased_daemon)).
(** After answer_request has followed an alias the name buffer holds its target, and
    tcp_request looks for the servers of that name: the question for the IPv4 address of
    www.a.b goes to the server for the domain d over TCP, and to the server for other
    names over UDP, where the name is extracted again. *)
Theorem tcp_query_misrouted :
  omap (λ ev : fevent, match ev.1 with TcpConnect _ a => Some a | _ => None end) (tcp_calls run_aliased) = [Sin 53 1] ∧
  omap (λ ev : fevent, match ev.1 with SendTo _ _ a => Some a | _ => None end) (tcp_calls run_udp) = [Sin 53 134744072].
Proof. split; by vm_compute. Qed.
End DnsTcp.
