(* ===== verification/FpDrv.v ===== *)
(** * The fingerprint registry driver
      (src/vendor/tinno/Fingerprint-N/KERNEL/mtk/kernel-3.18/drivers/input/fingerprint/fp_drv)

    The driver the sensor drivers register with: it identifies the fitted
    sensor by the ID pin, keeps the name and the version information of the
    sensor that registered first, and shows them in sysfs.  The module's file
    variables are the fields of [fp_state]; the kernel functions it calls are
    the class [FpKernel]. *)
From S2P Require Import Prelude.

(** The calls into the kernel.  Pointers are integers, negative for an
    [ERR_PTR]; [driven] is the level last selected for the ID pin. *)
Class FpKernel := {
  of_find_compatible_node : string → bool;
  kzalloc_ok : bool;
  devm_pinctrl_get : Z;
  pinctrl_lookup_state : Z → string → Z;
  (** the result, and the value stored, as the int it is stored in *)
  of_property_read_u32_index : string → Z * Z;
  __gpio_get_value : Z → option bool → Z;
  platform_device_register : Z;
  platform_driver_register : Z;
  (** an int variable without a value *)
  uninitialised : Z
}.

Module FpDrv.

Definition HIGH : Z := 1.
Definition LOW : Z := 2.
Definition HIGH_IMPEDANCE : Z := 3.
Definition NAME_SIZE : nat := 64.

(** struct fp_gpio_data *)
Record fp_gpio_data := mk_gpio { pinctrl1 : Z; id_in_low : Z; id_in_high : Z }.

Record fp_state := mk_fp_state {
  m_dev_name : string; has_exist : Z;
  m_dev_info : string; all_info_exist : Z;
  fp_id_pin_value : Z;
  fp_gpio_id : option fp_gpio_data;
  driven : option bool;
  attr_files : list string;
  device_registered : bool; driver_registered : bool
}.

Definition fp_initial : fp_state := mk_fp_state "" 0 "" 0 (-1) None None [] false false.

Definition set_gpio g s := mk_fp_state (m_dev_name s) (has_exist s) (m_dev_info s) (all_info_exist s) (fp_id_pin_value s) g (driven s) (attr_files s) (device_registered s) (driver_registered s).
Definition set_driven d s := mk_fp_state (m_dev_name s) (has_exist s) (m_dev_info s) (all_info_exist s) (fp_id_pin_value s) (fp_gpio_id s) d (attr_files s) (device_registered s) (driver_registered s).
Definition set_pin v s := mk_fp_state (m_dev_name s) (has_exist s) (m_dev_info s) (all_info_exist s) v (fp_gpio_id s) (driven s) (attr_files s) (device_registered s) (driver_registered s).
Definition set_name n s := mk_fp_state n 1 (m_dev_info s) (all_info_exist s) (fp_id_pin_value s) (fp_gpio_id s) (driven s) (attr_files s) (device_registered s) (driver_registered s).
Definition set_dev_info i s := mk_fp_state (m_dev_name s) (has_exist s) i 1 (fp_id_pin_value s) (fp_gpio_id s) (driven s) (attr_files s) (device_registered s) (driver_registered s).
Definition set_files f s := mk_fp_state (m_dev_name s) (has_exist s) (m_dev_info s) (all_info_exist s) (fp_id_pin_value s) (fp_gpio_id s) (driven s) f (device_registered s) (driver_registered s).
Definition set_registered d r s := mk_fp_state (m_dev_name s) (has_exist s) (m_dev_info s) (all_info_exist s) (fp_id_pin_value s) (fp_gpio_id s) (driven s) (attr_files s) d r.

Definition IS_ERR (p : Z) : bool := p <? 0.

(** [strcpy] into a buffer of [n] bytes *)
Definition strcpy (n : nat) (src : string) : outcome string :=
  if (String.length src <? n)%nat then Val src else UB.

Section Driver.
Context `{FpKernel}.

(** pinctrl_select_state follows both pointers: neither may be null or an
    error. *)
Definition fp_id_set_value (fp : fp_gpio_data) (level : bool) (s : fp_state) : outcome fp_state :=
  let st := if level then id_in_high fp else id_in_low fp in
  if (pinctrl1 fp <=? 0) || (st <=? 0) then UB else Val (set_driven (Some level) s).

(** The result and the state. *)
Definition fp_id_parse_dt (s : fp_state) : Z * fp_state :=
  let dt_error := 1 in
  if of_find_compatible_node "mediatek,fingerprint" then
    let g := match fp_gpio_id s with
             | None => if kzalloc_ok then Some (mk_gpio 0 0 0) else None
             | Some g => Some g
             end in
    match g with
    | None => (dt_error, set_gpio None s)
    | Some g =>
        let g := mk_gpio devm_pinctrl_get (id_in_low g) (id_in_high g) in
        if IS_ERR (pinctrl1 g) then (pinctrl1 g, set_gpio (Some g) s) else
        let g := mk_gpio (pinctrl1 g) (id_in_low g) (pinctrl_lookup_state (pinctrl1 g) "id_in_high") in
        if IS_ERR (id_in_high g) then (id_in_high g, set_gpio (Some g) s) else
        let g := mk_gpio (pinctrl1 g) (pinctrl_lookup_state (pinctrl1 g) "id_in_low") (id_in_high g) in
        if IS_ERR (id_in_high g) then (id_in_high g, set_gpio (Some g) s) else
        (uninitialised, set_gpio (Some g) s)
    end
  else (dt_error, s).

(** Select a level, when the pins are known, and sample the pin. *)
Definition sample (fp_pin : Z) (level : bool) (s : fp_state) : outcome (Z * fp_state) :=
  s ← match fp_gpio_id s with Some g => fp_id_set_value g level s | None => Val s end;
  Val (__gpio_get_value fp_pin (driven s), s).

Definition read_fpId_pin_value (label : string) (s : fp_state) : outcome (Z * fp_state) :=
  if 0 <? fp_id_pin_value s then Val (fp_id_pin_value s, s) else
  (* the results of these two calls only reach the log *)
  let '(_, s) := fp_id_parse_dt s in
  let '(ret, v) := of_property_read_u32_index label in
  let fp_pin := if ret =? 0 then v else 0 in
  if fp_pin <=? 0 then Val (-1, s) else
  '(val1, s) ← sample fp_pin true s;
  '(val2, s) ← sample fp_pin false s;
  if (val1 =? 1) && (val2 =? 0) then Val (HIGH_IMPEDANCE, set_pin HIGH_IMPEDANCE s)
  else if (val1 =? 0) && (val2 =? 0) then Val (LOW, set_pin LOW s)
  else if (val1 =? 1) && (val2 =? 1) then Val (HIGH, set_pin HIGH s)
  else Val (-1, s).

Definition full_fp_chip_name (name : option string) (s : fp_state) : outcome (Z * fp_state) :=
  match name with
  | None => Val (-1, s)
  | Some name =>
      if has_exist s =? 1 then Val (-1, s) else
      n ← strcpy NAME_SIZE name;
      Val (0, set_name n s)
  end.

Definition full_fp_chip_info (info : option string) (s : fp_state) : outcome (Z * fp_state) :=
  match info with
  | None => Val (-1, s)
  | Some info =>
      if all_info_exist s =? 1 then Val (-1, s) else
      i ← strcpy NAME_SIZE info;
      Val (0, set_dev_info i s)
  end.

(** What a read of the sysfs files shows. *)
Definition info_show (s : fp_state) : string :=
  if negb (has_exist s =? 0) then m_dev_name s else "unknow".
Definition all_info_show (s : fp_state) : string :=
  if negb (all_info_exist s =? 0) then m_dev_info s else "unknow".

Definition fp_probe (s : fp_state) : Z * fp_state :=
  (0, set_files (attr_files s ++ ["fp_drv_info"; "fp_drv_all_info"]) s).
Definition fp_remove (s : fp_state) : Z * fp_state :=
  (0, set_files (filter (λ f, f ≠ "fp_drv_info" ∧ f ≠ "fp_drv_all_info") (attr_files s)) s).

(** Registering the driver binds it to the registered device of its name. *)
Definition fp_drv_init (s : fp_state) : Z * fp_state :=
  if negb (platform_device_register =? 0) then (-1, s) else
  let s := set_registered true (driver_registered s) s in
  if negb (platform_driver_register =? 0) then (-1, s) else
  (0, (fp_probe (set_registered (device_registered s) true s)).2).

Definition fp_drv_exit (s : fp_state) : fp_state :=
  let s := if driver_registered s then (fp_remove s).2 else s in
  set_registered (device_registered s) false s.
End Driver.

(** ** Histories of the driver *)
Inductive op :=
| RegisterName (name : option string)
| RegisterInfo (info : option string)
| ReadPin (label : string)
| Init | Exit.

Section Histories.
Context `{K : FpKernel}.

Inductive step : fp_state → op → fp_state → Prop :=
| step_name s name r s' : full_fp_chip_name name s = Val (r, s') → step s (RegisterName name) s'
| step_info s info r s' : full_fp_chip_info info s = Val (r, s') → step s (RegisterInfo info) s'
| step_pin s label r s' : read_fpId_pin_value label s = Val (r, s') → step s (ReadPin label) s'
| step_init s : step s Init (fp_drv_init s).2
| step_exit s : step s Exit (fp_drv_exit s).

Inductive runs : fp_state → list op → fp_state → Prop :=
| runs_nil s : runs s [] s
| runs_snoc s ops s1 o s2 : runs s ops s1 → step s1 o s2 → runs s (ops ++ [o]) s2.

(** The abstract registry: the first name and the first information offered. *)
Definition first_name (ops : list op) : option string :=
  head (omap (λ o, match o with RegisterName n => n | _ => None end) ops).
Definition first_info (ops : list op) : option string :=
  head (omap (λ o, match o with RegisterInfo i => i | _ => None end) ops).

(** A text slot of the driver against the first text offered for it. *)
Definition slot_ok (first : option string) (exist : Z) (text : string) : Prop :=
  match first with
  | Some n => exist = 1 ∧ text = n ∧ (String.length n < NAME_SIZE)%nat
  | None => exist = 0 ∧ text = ""
  end.
Definition pin_ok (v : Z) : Prop := v = -1 ∨ v = HIGH ∨ v = LOW ∨ v = HIGH_IMPEDANCE.

Definition registry_ok (ops : list op) (s : fp_state) : Prop :=
  slot_ok (first_name ops) (has_exist s) (m_dev_name s) ∧
  slot_ok (first_info ops) (all_info_exist s) (m_dev_info s) ∧ pin_ok (fp_id_pin_value s).

Lemma slot_set first exist text n :
  slot_ok first exist text → exist ≠ 1 → (String.length n < NAME_SIZE)%nat →
  slot_ok (Some (default n first)) 1 n.
Proof. destruct first; cbn; [lia|done]. Qed.
Lemma slot_keep first exist text n :
  slot_ok first exist text → exist = 1 → slot_ok (Some (default n first)) exist text.
Proof. destruct first; cbn; [done|lia]. Qed.

Lemma head_snoc {A} (l : list A) x : head (l ++ [x]) = Some (default x (head l)).
Proof. by destruct l. Qed.

(** The fields the pin functions do not touch. *)
Definition registry (s : fp_state) : string * Z * string * Z :=
  (m_dev_name s, has_exist s, m_dev_info s, all_info_exist s).

Lemma parse_dt_registry s :
  registry (fp_id_parse_dt s).2 = registry s ∧ fp_id_pin_value (fp_id_parse_dt s).2 = fp_id_pin_value s.
Proof. unfold fp_id_parse_dt. repeat case_match; done. Qed.

Lemma sample_registry pin lv s v s' :
  sample pin lv s = Val (v, s') → registry s' = registry s ∧ fp_id_pin_value s' = fp_id_pin_value s.
Proof.
  unfold sample. destruct (fp_gpio_id s) as [g|]; cbn; [|by intros [= <- <-]].
  unfold fp_id_set_value. case_match; cbn; [done|]. by intros [= <- <-].
Qed.

Lemma read_pin_registry label s r s' :
  read_fpId_pin_value label s = Val (r, s') →
  registry s' = registry s ∧
  (fp_id_pin_value s' = fp_id_pin_value s ∨ fp_id_pin_value s' = HIGH ∨ fp_id_pin_value s' = LOW ∨
   fp_id_pin_value s' = HIGH_IMPEDANCE).
Proof.
  unfold read_fpId_pin_value. case_match; [by intros [= <- <-]; auto|].
  pose proof (parse_dt_registry s) as [Hr Hp]. destruct (fp_id_parse_dt s) as [z s1]. cbn in Hr, Hp.
  destruct (of_property_read_u32_index label) as [ret v]. case_match; [intros [= <- <-]; split; [done|by left]|].
  intros Hb. apply outcome_bind_Val in Hb as ([v1 s2] & Hs1 & Hb).
  apply outcome_bind_Val in Hb as ([v2 s3] & Hs2 & Hb).
  apply sample_registry in Hs1 as [Hr1 Hp1], Hs2 as [Hr2 Hp2].
  assert (Hreg : registry s3 = registry s) by congruence.
  repeat case_match; assert (Hs : s' = set_pin HIGH_IMPEDANCE s3 ∨ s' = set_pin LOW s3 ∨
    s' = set_pin HIGH s3 ∨ s' = s3) by (injection Hb as _ <-; auto);
    destruct Hs as [->|[->|[->| ->]]]; split; try exact Hreg; auto; left; congruence.
Qed.

Lemma init_exit_registry s :
  (registry (fp_drv_init s).2 = registry s ∧ fp_id_pin_value (fp_drv_init s).2 = fp_id_pin_value s) ∧
  registry (fp_drv_exit s) = registry s ∧ fp_id_pin_value (fp_drv_exit s) = fp_id_pin_value s.
Proof.
  unfold fp_drv_init, fp_drv_exit. split; [repeat case_match; done|]. by destruct (driver_registered s).
Qed.

Lemma strcpy_Val n src t : strcpy n src = Val t → t = src ∧ (String.length src < n)%nat.
Proof. unfold strcpy. destruct (Nat.ltb_spec (String.length src) n); [intros [= <-]; done|done]. Qed.

(** Steps that offer no text keep the slots. *)
Lemma step_quiet ops o s s' :
  registry_ok ops s → registry s' = registry s → pin_ok (fp_id_pin_value s') →
  first_name [o] = None → first_info [o] = None → registry_ok (ops ++ [o]) s'.
Proof.
  unfold registry_ok, registry, first_name, first_info. intros (Hn & Hi & _) Hr Hp Hon Hoi.
  rewrite !omap_app. injection Hr as -> -> -> ->.
  destruct o as [[n|]|[i|]| | |]; try done; cbn [omap list_omap]; rewrite !app_nil_r; done.
Qed.

Lemma step_ok ops s o s' : registry_ok ops s → step s o s' → registry_ok (ops ++ [o]) s'.
Proof.
  intros Hok Hs. destruct Hs as [s [n|] r s' Hs|s [i|] r s' Hs|s label r s' Hs|s|s]; try (cbn in Hs).
  - destruct Hok as (Hn & Hi & Hp). unfold registry_ok, first_name, first_info. rewrite !omap_app.
    cbn [omap list_omap]. rewrite app_nil_r, head_snoc.
    destruct (Z.eqb_spec (has_exist s) 1) as [He|He].
    + injection Hs as _ <-. split_and!; [by apply slot_keep|done|done].
    + apply outcome_bind_Val in Hs as (t & Ht & Hs). apply strcpy_Val in Ht as [-> Hlen].
      injection Hs as _ <-. split_and!; [by eapply slot_set|done|done].
  - injection Hs as _ <-. by apply (step_quiet _ _ s); try apply Hok.
  - destruct Hok as (Hn & Hi & Hp). unfold registry_ok, first_name, first_info. rewrite !omap_app.
    cbn [omap list_omap]. rewrite app_nil_r, head_snoc.
    destruct (Z.eqb_spec (all_info_exist s) 1) as [He|He].
    + injection Hs as _ <-. split_and!; [done|by apply slot_keep|done].
    + apply outcome_bind_Val in Hs as (t & Ht & Hs). apply strcpy_Val in Ht as [-> Hlen].
      injection Hs as _ <-. split_and!; [done|by eapply slot_set|done].
  - injection Hs as _ <-. by apply (step_quiet _ _ s); try apply Hok.
  - apply read_pin_registry in Hs as [Hr Hpin]. apply (step_quiet _ _ s); try done.
    destruct Hok as (_ & _ & Hp). unfold pin_ok in *. destruct Hpin as [->|?]; [done|by right].
  - destruct (init_exit_registry s) as [[Hr Hpin] _]. apply (step_quiet _ _ s); try done.
    rewrite Hpin. apply Hok.
  - destruct (init_exit_registry s) as [_ [Hr Hpin]]. apply (step_quiet _ _ s); try done.
    rewrite Hpin. apply Hok.
Qed.

Lemma runs_ok s ops s' : runs s ops s' → s = fp_initial → registry_ok ops s'.
Proof.
  induction 1 as [s|s ops s1 o s2 _ IH Hs]; intros ->; [|by eapply step_ok; eauto].
  split_and!; [done|done|by left].
Qed.
End Histories.

(** ** The ID pin *)

(** How the board straps the pin: tied to a level, or left open, in which case
    it follows what the controller drives. *)
Inductive strap := Tied (level : bool) | Open.

Definition level_of (b : bool) : Z := if b then 1 else 0.
Definition reads_as (st : strap) (d : option bool) : Z :=
  match st, d with
  | Tied b, _ => level_of b
  | Open, Some b => level_of b
  | Open, None => 0
  end.
Definition code_of (st : strap) : Z :=
  match st with Tied true => HIGH | Tied false => LOW | Open => HIGH_IMPEDANCE end.

(** A device tree that describes the pin, and working pin control. *)
Record described `{K : FpKernel} (label : string) (st : strap) : Prop := mk_described {
  d_node : of_find_compatible_node "mediatek,fingerprint" = true;
  d_alloc : kzalloc_ok = true;
  d_pinctrl : 0 < devm_pinctrl_get;
  d_high : 0 < pinctrl_lookup_state devm_pinctrl_get "id_in_high";
  d_low : 0 < pinctrl_lookup_state devm_pinctrl_get "id_in_low";
  d_pin : ∃ pin, of_property_read_u32_index label = (0, pin) ∧ 0 < pin ∧
    ∀ d, __gpio_get_value pin d = reads_as st d
}.

Lemma not_err p : 0 < p → IS_ERR p = false.
Proof. intros. apply Z.ltb_ge. lia. Qed.

(** What the parse leaves behind when the device tree is in order. *)
Lemma parse_dt_found `{K : FpKernel} s :
  of_find_compatible_node "mediatek,fingerprint" = true → kzalloc_ok = true →
  0 < devm_pinctrl_get → 0 < pinctrl_lookup_state devm_pinctrl_get "id_in_high" →
  fp_id_parse_dt s = (uninitialised, set_gpio (Some (mk_gpio devm_pinctrl_get
    (pinctrl_lookup_state devm_pinctrl_get "id_in_low")
    (pinctrl_lookup_state devm_pinctrl_get "id_in_high"))) s).
Proof.
  intros Hn Ha Hp Hh. unfold fp_id_parse_dt. rewrite Hn, Ha. cbn [pinctrl1 id_in_high id_in_low].
  assert (Hg : ∃ g, match fp_gpio_id s with Some g => Some g | None => Some (mk_gpio 0 0 0) end = Some g)
    by (destruct (fp_gpio_id s); eauto).
  destruct Hg as (g & ->). cbn [pinctrl1 id_in_high id_in_low].
  rewrite (not_err devm_pinctrl_get) by done. cbn [pinctrl1 id_in_high id_in_low].
  by rewrite (not_err (pinctrl_lookup_state devm_pinctrl_get "id_in_high")) by done.
Qed.

Lemma sample_ok `{K : FpKernel} pin (level : bool) s g :
  fp_gpio_id s = Some g → 0 < pinctrl1 g → 0 < (if level then id_in_high g else id_in_low g) →
  sample pin level s = Val (__gpio_get_value pin (Some level), set_driven (Some level) s).
Proof.
  intros Hg Hp Hl. unfold sample, fp_id_set_value. rewrite Hg.
  by rewrite (proj2 (Z.leb_gt (pinctrl1 g) 0)), (proj2 (Z.leb_gt (if level then _ else _) 0)) by lia.
Qed.

Lemma sample_err `{K : FpKernel} pin (level : bool) s g :
  fp_gpio_id s = Some g → (if level then id_in_high g else id_in_low g) < 0 → sample pin level s = UB.
Proof.
  intros Hg Hl. unfold sample, fp_id_set_value. rewrite Hg.
  by rewrite (proj2 (Z.leb_le (if level then _ else _) 0)), orb_true_r by lia.
Qed.

(** ** Properties *)

(** Identification: on a board that ties the ID pin high or low or leaves it
    open, with the pin described in the device tree, the first read returns the
    code of the strapping and remembers it, and every later read returns the
    same code without touching the pin. *)
Theorem read_fpId_identifies `{K : FpKernel} label st s :
  described label st → fp_id_pin_value s ≤ 0 →
  ∃ s', read_fpId_pin_value label s = Val (code_of st, s') ∧ fp_id_pin_value s' = code_of st ∧
    ∀ label', read_fpId_pin_value label' s' = Val (code_of st, s').
Proof.
  intros [Hn Ha Hp Hh Hlo (pin & Hpr & Hpos & Hv)] Hcache.
  assert (Hread : ∃ s', read_fpId_pin_value label s = Val (code_of st, s') ∧
    fp_id_pin_value s' = code_of st).
  { unfold read_fpId_pin_value. rewrite (proj2 (Z.ltb_ge _ _)) by lia.
    rewrite parse_dt_found by done. rewrite Hpr. cbn [Z.eqb].
    rewrite (proj2 (Z.leb_gt _ _)) by lia.
    erewrite (sample_ok pin true) by done. rewrite bind_Val.
    erewrite (sample_ok pin false) by done. rewrite bind_Val, !Hv.
    destruct st as [[]|]; cbn; eauto. }
  destruct Hread as (s' & Hr & Hc). exists s'. split_and!; [done|done|].
  intros label'. unfold read_fpId_pin_value. rewrite Hc.
  by destruct st as [[]|].
Qed.

Definition sample_board (st : strap) (low_state : Z) : FpKernel := {|
  of_find_compatible_node _ := true; kzalloc_ok := true; devm_pinctrl_get := 16;
  pinctrl_lookup_state _ n := if String.eqb n "id_in_low" then low_state else 32;
  of_property_read_u32_index _ := (0, 9);
  __gpio_get_value _ d := reads_as st d;
  platform_device_register := 0; platform_driver_register := 0; uninitialised := 77
|}.

Lemma read_fpId_identifies_witness :
  ∃ s', @read_fpId_pin_value (sample_board Open 48) "fpid-gpio" fp_initial = Val (HIGH_IMPEDANCE, s') ∧
    fp_id_pin_value s' = HIGH_IMPEDANCE ∧
    ∀ label', @read_fpId_pin_value (sample_board Open 48) label' s' = Val (HIGH_IMPEDANCE, s').
Proof.
  apply (@read_fpId_identifies (sample_board Open 48) "fpid-gpio" Open fp_initial); [|cbn; lia].
  split; try done. exists 9. split_and!; [done|lia|done].
Defined.

(** C36. The registry keeps what it was given first: after any history of
    registrations, pin reads, loads and unloads that ran without undefined
    behaviour, the sysfs files show the first name and the first information
    offered, or "unknow"; both fit their buffers, and the pin value is one of
    the known codes or unread. *)
Theorem registry_first_wins `{K : FpKernel} ops s :
  runs fp_initial ops s →
  info_show s = default "unknow" (first_name ops) ∧
  all_info_show s = default "unknow" (first_info ops) ∧
  (String.length (m_dev_name s) < NAME_SIZE)%nat ∧ (String.length (m_dev_info s) < NAME_SIZE)%nat ∧
  pin_ok (fp_id_pin_value s).
Proof.
  intros Hr. destruct (runs_ok _ _ _ Hr eq_refl) as (Hn & Hi & Hp).
  unfold slot_ok, info_show, all_info_show in *. split_and!; [| | | |done].
  - destruct (first_name ops) as [n|]; [destruct Hn as (-> & -> & _)|destruct Hn as [-> _]]; done.
  - destruct (first_info ops) as [n|]; [destruct Hi as (-> & -> & _)|destruct Hi as [-> _]]; done.
  - destruct (first_name ops) as [n|]; [by destruct Hn as (_ & -> & ?)|].
    destruct Hn as [_ ->]. unfold NAME_SIZE. cbn. lia.
  - destruct (first_info ops) as [n|]; [by destruct Hi as (_ & -> & ?)|].
    destruct Hi as [_ ->]. unfold NAME_SIZE. cbn. lia.
Qed.

Lemma registry_first_wins_witness :
  ∃ s, @runs (sample_board Open 48) fp_initial
         [RegisterName (Some "elan_fp"); RegisterName (Some "goodix_fp")] s ∧ info_show s = "elan_fp".
Proof.
  exists (set_name "elan_fp" fp_initial).
  assert (Hr : @runs (sample_board Open 48) fp_initial
         [RegisterName (Some "elan_fp"); RegisterName (Some "goodix_fp")] (set_name "elan_fp" fp_initial)).
  { apply (runs_snoc fp_initial [RegisterName (Some "elan_fp")] (set_name "elan_fp" fp_initial)
      (RegisterName (Some "goodix_fp"))).
    - apply (runs_snoc fp_initial [] fp_initial (RegisterName (Some "elan_fp"))); [constructor|].
      by apply (step_name _ _ 0).
    - by apply (step_name _ _ (-1)). }
  split; [exact Hr|]. apply (proj1 (@registry_first_wins (sample_board Open 48) _ _ Hr)).
Defined.

(** The state id_in_low is looked up but the result is not checked (the check
    repeats id_in_high): when the device tree lacks it, the first read of the ID
    pin selects an error pointer. *)
Theorem missing_id_in_low_crashes `{K : FpKernel} label pin s :
  of_find_compatible_node "mediatek,fingerprint" = true → kzalloc_ok = true →
  0 < devm_pinctrl_get → 0 < pinctrl_lookup_state devm_pinctrl_get "id_in_high" →
  pinctrl_lookup_state devm_pinctrl_get "id_in_low" < 0 →
  of_property_read_u32_index label = (0, pin) → 0 < pin → fp_id_pin_value s ≤ 0 →
  read_fpId_pin_value label s = UB.
Proof.
  intros Hn Ha Hp Hh Hlo Hpr Hpos Hc. unfold read_fpId_pin_value.
  rewrite (proj2 (Z.ltb_ge _ _)) by lia. rewrite parse_dt_found by done. rewrite Hpr. cbn [Z.eqb].
  rewrite (proj2 (Z.leb_gt _ _)) by lia.
  erewrite (sample_ok pin true) by done. rewrite bind_Val. by erewrite (sample_err pin false).
Qed.

Lemma missing_id_in_low_crashes_witness :
  @read_fpId_pin_value (sample_board Open (-19)) "fpid-gpio" fp_initial = UB.
Proof.
  apply (@missing_id_in_low_crashes (sample_board Open (-19)) "fpid-gpio" 9 fp_initial); cbn; (done || lia).
Defined.
End FpDrv.
