(* ===== verification/FpDrvQcom.v ===== *)
(** * The fingerprint registry driver with quick wake-up
      (src/vendor/tinno/Fingerprint-N/KERNEL/qcom/kernel-3.18/drivers/input/fingerprint/fp_drv)

    The Qualcomm version of the registry driver.  On top of the registry it
    passes the events of the sensor drivers to a user-space listener through a
    one-place mailbox and SIGIO, lets the listener hold back the backlight while
    a finger is being checked, and drains the trusted-zone log in a kernel
    thread.  The file variables are grouped into [wake], [tlog], [registry] and
    [devices]; what the kernel answers at a call is an argument of the operation
    when it can differ from call to call, else a field of [QcomKernel]. *)
From stdpp Require Import pretty.
From S2P Require Import Prelude FpDrv.

Class QcomKernel := {
  of_node : bool;
  kzalloc_ok : bool;
  devm_pinctrl_get : Z;
  pinctrl_lookup_state : Z → string → Z;
  pinctrl_select_state : Z → Z → Z;
  of_get_named_gpio : string → Z;
  (** the value of a pin driven as given, at the n-th read in a row *)
  gpio_get_value : Z → option bool → nat → Z;
  (** the names of the LED class devices, in list order *)
  leds_list : list (option string);
  (** is a log function installed? *)
  fp_disp_qsee_log_stats : bool;
  register_chrdev : Z;
  class_create : Z;
  platform_device_register : Z;
  platform_driver_register : Z
}.

Module FpDrvQcom.

Definition HW_EVENT_DOWN : Z := 1.
Definition HW_EVENT_UP : Z := 2.
Definition HW_EVENT_FB_BLANK : Z := 10.
Definition HW_EVENT_FB_UNBLANK : Z := 11.
Definition HW_EVENT_WAKEUP : Z := 99.

(** _IO('t', n) *)
Definition TZ_LOG_IOC_DISABLE_OUTPUT : Z := 0x7401.
Definition TZ_LOG_IOC_ENABLE_OUTPUT : Z := 0x7402.
Definition FP_IOC_BL_CONTROL : Z := 0x740a.
Definition FP_IOC_GET_EVENT : Z := 0x740b.
Definition FP_IOC_RESET_EVENT : Z := 0x740c.
Definition FP_IOC_QWK_ENABLE : Z := 0x740d.

Definition FP_BL_LOCK_RESET : Z := 0.
Definition FP_BL_LOCK : Z := 1.
Definition FP_BL_UNLOCK_AND_TRIGGER : Z := 2.

Definition FB_EARLY_EVENT_BLANK : Z := 16.
Definition FB_BLANK_UNBLANK : Z := 0.
Definition FB_BLANK_POWERDOWN : Z := 4.
Definition NOTIFY_OK : Z := 1.

(** ** Events and the backlight

    Times are in microseconds, 0 for a cleared timeval; [signalled] is the list
    of the events SIGIO was raised for (to the files in [fasync_queue]), [brightness] the list of the values
    written to the LCD backlight, both in order. *)
Record wake := mk_wake {
  isFpQuickWakeUpSupport : Z;
  fp_report_event : Z;
  fp_backlight_control : Z;
  fasync_queue : list Z;
  irq_report_disable_flag : Z;
  disable_by_user : Z;
  t_start : Z; t_end : Z;
  signalled : list Z;
  brightness : list Z
}.
Definition wake_initial : wake := mk_wake 0 0 0 [] 0 0 0 0 [] [].

Definition set_support v w := mk_wake v (fp_report_event w) (fp_backlight_control w) (fasync_queue w) (irq_report_disable_flag w) (disable_by_user w) (t_start w) (t_end w) (signalled w) (brightness w).
Definition set_event v w := mk_wake (isFpQuickWakeUpSupport w) v (fp_backlight_control w) (fasync_queue w) (irq_report_disable_flag w) (disable_by_user w) (t_start w) (t_end w) (signalled w) (brightness w).
Definition set_control v w := mk_wake (isFpQuickWakeUpSupport w) (fp_report_event w) v (fasync_queue w) (irq_report_disable_flag w) (disable_by_user w) (t_start w) (t_end w) (signalled w) (brightness w).
Definition set_fasync v w := mk_wake (isFpQuickWakeUpSupport w) (fp_report_event w) (fp_backlight_control w) v (irq_report_disable_flag w) (disable_by_user w) (t_start w) (t_end w) (signalled w) (brightness w).
Definition set_flags irq user w := mk_wake (isFpQuickWakeUpSupport w) (fp_report_event w) (fp_backlight_control w) (fasync_queue w) irq user (t_start w) (t_end w) (signalled w) (brightness w).
Definition set_times a b w := mk_wake (isFpQuickWakeUpSupport w) (fp_report_event w) (fp_backlight_control w) (fasync_queue w) (irq_report_disable_flag w) (disable_by_user w) a b (signalled w) (brightness w).
Definition set_signalled l w := mk_wake (isFpQuickWakeUpSupport w) (fp_report_event w) (fp_backlight_control w) (fasync_queue w) (irq_report_disable_flag w) (disable_by_user w) (t_start w) (t_end w) l (brightness w).
Definition set_brightness l w := mk_wake (isFpQuickWakeUpSupport w) (fp_report_event w) (fp_backlight_control w) (fasync_queue w) (irq_report_disable_flag w) (disable_by_user w) (t_start w) (t_end w) (signalled w) l.

(** KILL_MSG, with __POLL_MSG__ 0 *)
Definition KILL_MSG (x : Z) (w : wake) : wake :=
  match fasync_queue w with
  | [] => w
  | _ => set_signalled (signalled w ++ [x]) (set_event x w)
  end.

Definition is_lcd (name : option string) : bool :=
  match name with Some n => String.eqb n "lcd-backlight" | None => false end.

Section Wake.
Context `{QcomKernel}.

(** brightness_set on every LED named lcd-backlight *)
Definition backlight_trigger (value : Z) (w : wake) : wake :=
  foldl (λ w led, if is_lcd led then set_brightness (brightness w ++ [value]) w else w) w leds_list.

Definition get_bl_ctr_flag (led_cdev : option (option string)) (value : Z) (w : wake) : Z :=
  match led_cdev with
  | Some name =>
      if is_lcd name then
        if value =? 0 then 0
        else if fp_backlight_control w =? 1 then 1 else 0
      else 0
  | None => 0
  end.

Definition fp_drv_bl_cb (value now : Z) (w : wake) : Z * wake :=
  (0, if (100 <? value) && (isFpQuickWakeUpSupport w =? 0) && negb (t_start w =? 0)
      then set_times 0 now w else w).

Definition go_go_go (key now : Z) (w : wake) : Z * wake :=
  (0, if (key =? HW_EVENT_DOWN) || (key =? HW_EVENT_UP) || (key =? HW_EVENT_FB_UNBLANK) ||
         (key =? HW_EVENT_FB_BLANK) then KILL_MSG key w
      else if key =? HW_EVENT_WAKEUP then
        if (irq_report_disable_flag w =? 0) && (disable_by_user w =? 0) then
          KILL_MSG key (set_times now (t_end w) (set_flags 1 (disable_by_user w) w))
        else w
      else w).

Definition fp_event_record (key now : Z) (w : wake) : Z * wake :=
  if negb (isFpQuickWakeUpSupport w =? 0) then go_go_go key now w
  else (-1, set_times now (t_end w) w).

(** [data] is an int; its upper half is the command, its lower half the level. *)
Definition fp_bl_control (data now : Z) (w : wake) : wake :=
  let cmd := Z.shiftr (Z.land (u32 data) 0xffff0000) 16 in
  let level := Z.land (u32 data) 0x0000ffff in
  if cmd =? FP_BL_LOCK then
    if fp_backlight_control w =? 0 then set_control 1 w else w
  else if cmd =? FP_BL_LOCK_RESET then
    if negb (fp_backlight_control w =? 0) then set_control 0 w else w
  else if cmd =? FP_BL_UNLOCK_AND_TRIGGER then
    if negb (fp_backlight_control w =? 0) then
      let w := backlight_trigger level (set_control 0 w) in
      if negb (t_start w =? 0) then set_times 0 now w else w
    else w
  else w.

(** The sysfs file fpcmd; an empty write has a NUL in buf[0]. *)
Definition store_cmd (buf : string) (w : wake) : wake :=
  if String.prefix "0" buf
  then set_control 1 (backlight_trigger 0 w)
  else backlight_trigger 200 (set_control 0 w).
Definition show_cmd (w : wake) : string := pretty (fp_backlight_control w).

(** [data]: evdata->data, when both pointers are there. *)
Definition fp_notifier_block_callback (val : Z) (data : option Z) (now : Z) (w : wake) : Z * wake :=
  if negb (isFpQuickWakeUpSupport w =? 2) then (0, w) else
  match data with
  | Some blank =>
      if val =? FB_EARLY_EVENT_BLANK then
        if blank =? FB_BLANK_POWERDOWN then (NOTIFY_OK, (fp_event_record HW_EVENT_FB_BLANK now w).2)
        else if blank =? FB_BLANK_UNBLANK then (NOTIFY_OK, (fp_event_record HW_EVENT_FB_UNBLANK now w).2)
        else (NOTIFY_OK, w)
      else (NOTIFY_OK, w)
  | None => (NOTIFY_OK, w)
  end.

(** fasync_helper: the file [filp] enters or leaves the queue; 1 when the queue
    changed. *)
Definition fp_fasync (filp : Z) (on : bool) (w : wake) : Z * wake :=
  if decide (filp ∈ fasync_queue w) then
    if on then (0, w) else (1, set_fasync (filter (λ f, f ≠ filp) (fasync_queue w)) w)
  else if on then (1, set_fasync (filp :: fasync_queue w) w) else (0, w).
End Wake.

(** ** The log thread *)
Inductive task := NoTask | ErrTask | Created | Running | Exited.
#[global] Instance task_eq_dec : EqDecision task.
Proof. solve_decision. Defined.

Record tlog := mk_tlog {
  fp_tlog_output_task : task;
  fp_drv_is_tz_log_enable : bool;
  fp_drv_is_need_interrupt_oneshot : bool
}.
Definition tlog_initial : tlog := mk_tlog NoTask false false.
Definition set_task k t := mk_tlog k (fp_drv_is_tz_log_enable t) (fp_drv_is_need_interrupt_oneshot t).
Definition set_enable b t := mk_tlog (fp_tlog_output_task t) b (fp_drv_is_need_interrupt_oneshot t).
Definition set_oneshot b t := mk_tlog (fp_tlog_output_task t) (fp_drv_is_tz_log_enable t) b.

Section Tlog.
Context `{QcomKernel}.

(** One round of the thread's loop: it drains the log, or leaves. *)
Definition fp_tlog_worker (t : tlog) : tlog :=
  match fp_tlog_output_task t with
  | Running =>
      if fp_disp_qsee_log_stats && fp_drv_is_tz_log_enable t then t else set_task Exited t
  | _ => t
  end.

(** [created]: kthread_create succeeds; [sched]: the result of
    sched_setscheduler. *)
Definition create_fp_tlog_thread (created : bool) (sched : Z) (t : tlog) : Z * tlog :=
  if negb created then (-1, set_task ErrTask t) else
  let t := set_task Created t in
  if sched =? -1 then (-1, t) else (0, set_task Running t).

(** [preempted]: the new thread runs before the flag is stored. *)
Definition start_fp_tz_log_output_task (created : bool) (sched : Z) (preempted : bool) (t : tlog) : tlog :=
  if decide (fp_tlog_output_task t = NoTask) then
    let '(r, t) := create_fp_tlog_thread created sched t in
    let t := if preempted then fp_tlog_worker t else t in
    if 0 <=? r then set_enable true t else t
  else t.

(** kthread_stop waits for the thread to end; on an error pointer or on a
    thread that has left by itself it is undefined. *)
Definition kthread_stop (k : task) : outcome unit :=
  match k with Created | Running => Val tt | NoTask | ErrTask | Exited => UB end.

(** [preempted]: the thread runs between the store to the flag and the call of
    kthread_stop. *)
Definition stop_fp_tz_log_output_task (preempted : bool) (t : tlog) : outcome tlog :=
  if decide (fp_tlog_output_task t = NoTask) then Val t else
  let t := set_oneshot true (set_enable false t) in
  let t := if preempted then fp_tlog_worker t else t in
  _ ← kthread_stop (fp_tlog_output_task t);
  Val (set_task NoTask t).
End Tlog.

(** ** The registry and the ID pin *)

(** The pointer fp_gpio_id: null, or to an object that lives or has been freed. *)
Inductive gpio_ptr := GNull | GLive | GFreed.
#[global] Instance gpio_ptr_eq_dec : EqDecision gpio_ptr.
Proof. solve_decision. Defined.

Record registry := mk_registry {
  m_dev_name : string; has_exist : Z;
  m_dev_info : string; all_info_exist : Z;
  fp_id_pin_value : Z;
  fp_gpio_id : gpio_ptr;
  (** the level the ID pin is driven to, [None] for an input *)
  driven : option bool
}.
Definition registry_initial : registry := mk_registry "" 0 "" 0 (-1) GNull None.
Definition set_gpio g r := mk_registry (m_dev_name r) (has_exist r) (m_dev_info r) (all_info_exist r) (fp_id_pin_value r) g (driven r).
Definition set_driven d r := mk_registry (m_dev_name r) (has_exist r) (m_dev_info r) (all_info_exist r) (fp_id_pin_value r) (fp_gpio_id r) d.
Definition set_pin v r := mk_registry (m_dev_name r) (has_exist r) (m_dev_info r) (all_info_exist r) v (fp_gpio_id r) (driven r).
Definition set_name n r := mk_registry n 1 (m_dev_info r) (all_info_exist r) (fp_id_pin_value r) (fp_gpio_id r) (driven r).
Definition set_dev_info i r := mk_registry (m_dev_name r) (has_exist r) i 1 (fp_id_pin_value r) (fp_gpio_id r) (driven r).

Definition IS_ERR_OR_NULL (p : Z) : bool := p <=? 0.

Section Registry.
Context `{QcomKernel}.

(** The object is freed on every path past the allocation; the pointer keeps
    its value.  A store through a freed pointer is undefined. *)
Definition fp_id_parse_dt (r : registry) : outcome (Z * registry) :=
  let dt_error := 1 in
  if of_node then
    let p := match fp_gpio_id r with
             | GNull => if kzalloc_ok then GLive else GNull
             | p => p
             end in
    match p with
    | GNull => Val (dt_error, set_gpio GNull r)
    | GFreed => UB
    | GLive =>
        let pinctrl1 := devm_pinctrl_get in
        if IS_ERR_OR_NULL pinctrl1 then Val (pinctrl1, set_gpio GFreed r) else
        let id_default := pinctrl_lookup_state pinctrl1 "tlmm_gpio_fpid_active" in
        if IS_ERR_OR_NULL id_default then Val (id_default, set_gpio GFreed r) else
        let rc := pinctrl_select_state pinctrl1 id_default in
        if negb (rc =? 0) then Val (rc, set_gpio GFreed r) else
        Val (0, set_gpio GFreed r)
    end
  else Val (dt_error, r).

(** for (i = 0; i < n; i++) val = gpio_get_value(fp_pin) *)
Fixpoint read_loop (fp_pin : Z) (d : option bool) (i n : nat) (val : Z) : Z :=
  match n with
  | O => val
  | S n' => read_loop fp_pin d (S i) n' (gpio_get_value fp_pin d i)
  end.

Definition read_fpId_pin_value (label : string) (r : registry) : outcome (Z * registry) :=
  if 0 <? fp_id_pin_value r then Val (fp_id_pin_value r, r) else
  let fp_pin := of_get_named_gpio label in
  if fp_pin <=? 0 then Val (-1, r) else
  let r := set_driven (Some true) (set_driven None r) in
  let val1 := read_loop fp_pin (driven r) 0 5 (-1) in
  let r := set_driven (Some false) (set_driven None r) in
  let val2 := read_loop fp_pin (driven r) 0 5 (-1) in
  let finish ret r :=
    '(_, r) ← fp_id_parse_dt (set_pin ret (set_driven None r)); Val (ret, r) in
  if (val1 =? 1) && (val2 =? 0) then finish FpDrv.HIGH_IMPEDANCE r
  else if (val1 =? 0) && (val2 =? 0) then finish FpDrv.LOW r
  else if (val1 =? 1) && (val2 =? 1) then
    finish FpDrv.HIGH (set_driven (Some true) (set_driven None r))
  else Val (-1, r).

Definition full_fp_chip_name (name : option string) (r : registry) : outcome (Z * registry) :=
  match name with
  | None => Val (-1, r)
  | Some name =>
      if has_exist r =? 1 then Val (-1, r) else
      n ← FpDrv.strcpy FpDrv.NAME_SIZE name;
      Val (0, set_name n r)
  end.

Definition full_fp_chip_info (info : option string) (r : registry) : outcome (Z * registry) :=
  match info with
  | None => Val (-1, r)
  | Some info =>
      if all_info_exist r =? 1 then Val (-1, r) else
      i ← FpDrv.strcpy FpDrv.NAME_SIZE info;
      Val (0, set_dev_info i r)
  end.

Definition info_show (r : registry) : string :=
  if negb (has_exist r =? 0) then m_dev_name r else "unknow".
Definition all_info_show (r : registry) : string := m_dev_info r.
End Registry.

(** ** The devices and the whole driver *)
Record devices := mk_devices {
  chrdev : bool; fp_class : bool;
  device_registered : bool; driver_registered : bool;
  fp_dev_tz : bool; attr_files : list string; fb_clients : nat
}.
Definition devices_initial : devices := mk_devices false false false false false [] 0.

Record fq_state := mk_fq { wk : wake; tl : tlog; rg : registry; dv : devices }.
Definition fq_initial : fq_state := mk_fq wake_initial tlog_initial registry_initial devices_initial.
Definition set_wk w s := mk_fq w (tl s) (rg s) (dv s).
Definition set_tl t s := mk_fq (wk s) t (rg s) (dv s).
Definition set_rg r s := mk_fq (wk s) (tl s) r (dv s).
Definition set_dv d s := mk_fq (wk s) (tl s) (rg s) d.

(** What the kernel answers during an ioctl: the result of the copy from or to
    user space, the value the copied variable then has, the time, and the
    results of the thread functions. *)
Record ioctl_env := mk_ioctl_env {
  copy_ret : Z; copy_val : Z; now : Z;
  created : bool; sched : Z; preempted : bool
}.

Section Driver.
Context `{QcomKernel}.

(** The result, the int copied to the caller (if any), and the state. *)
Definition fp_ioctl (cmd : Z) (e : ioctl_env) (s : fq_state) : outcome (Z * option Z * fq_state) :=
  let w := wk s in
  if cmd =? TZ_LOG_IOC_ENABLE_OUTPUT then
    Val (0, None, set_tl (start_fp_tz_log_output_task (created e) (sched e) (preempted e) (tl s)) s)
  else if cmd =? TZ_LOG_IOC_DISABLE_OUTPUT then
    t ← stop_fp_tz_log_output_task (preempted e) (tl s); Val (0, None, set_tl t s)
  else if cmd =? FP_IOC_BL_CONTROL then
    (* a failed copy is only logged *)
    Val (0, None, set_wk (fp_bl_control (copy_val e) (now e) w) s)
  else if cmd =? FP_IOC_GET_EVENT then
    if negb (copy_ret e =? 0) then Val (-1, None, s)
    else Val (0, Some (fp_report_event w), set_wk (set_event 0 w) s)
  else if cmd =? FP_IOC_RESET_EVENT then
    if negb (copy_ret e =? 0) then Val (-1, None, s)
    else if negb (copy_val e =? 0)
    then Val (0, None, set_wk (set_flags (irq_report_disable_flag w) 1 w) s)
    else Val (0, None, set_wk (set_flags 0 0 w) s)
  else if cmd =? FP_IOC_QWK_ENABLE then
    if negb (copy_ret e =? 0) then Val (-1, None, s)
    else Val (0, None, set_wk (set_support (copy_val e) w) s)
  else Val (0, None, s).

Definition fp_open (s : fq_state) : Z * fq_state := (0, s).

Definition fp_probe (dev_tz : bool) (d : devices) : Z * devices :=
  (0, mk_devices (chrdev d) (fp_class d) (device_registered d) (driver_registered d) dev_tz
        (attr_files d ++ ["fp_drv_info"; "fp_drv_all_info"; "fpcmd"]) (S (fb_clients d))).
Definition fp_remove (d : devices) : Z * devices :=
  (0, mk_devices (chrdev d) (fp_class d) (device_registered d) (driver_registered d) (fp_dev_tz d)
        (filter (λ f, f ≠ "fp_drv_info" ∧ f ≠ "fp_drv_all_info") (attr_files d)) (fb_clients d)).

(** Registering the driver binds it to the device registered before. *)
Definition fp_drv_init (dev_tz : bool) (d : devices) : Z * devices :=
  let fp_major := register_chrdev in
  if fp_major <? 0 then (fp_major, d) else
  if class_create <? 0 then (class_create, d) else
  let d := mk_devices true true (device_registered d) (driver_registered d) (fp_dev_tz d)
             (attr_files d) (fb_clients d) in
  if negb (platform_device_register =? 0) then (-1, d) else
  let d := mk_devices (chrdev d) (fp_class d) true (driver_registered d) (fp_dev_tz d)
             (attr_files d) (fb_clients d) in
  if negb (platform_driver_register =? 0) then (-1, d) else
  let d := mk_devices (chrdev d) (fp_class d) (device_registered d) true (fp_dev_tz d)
             (attr_files d) (fb_clients d) in
  (0, (fp_probe dev_tz d).2).

(** device_unregister needs the device that the probe created. *)
Definition fp_drv_exit (preempted : bool) (s : fq_state) : outcome fq_state :=
  let d := dv s in
  if negb (fp_dev_tz d) then UB else
  let d := mk_devices false (fp_class d) (device_registered d) (driver_registered d) false
             (attr_files d) (fb_clients d) in
  let d := if driver_registered d then (fp_remove d).2 else d in
  let d := mk_devices (chrdev d) (fp_class d) (device_registered d) false (fp_dev_tz d)
             (attr_files d) (fb_clients d) in
  t ← stop_fp_tz_log_output_task preempted (tl s);
  Val (set_tl t (set_dv d s)).
End Driver.

(** ** Histories of the driver *)
Inductive qop :=
| Event (key now : Z)
| Ioctl (cmd : Z) (e : ioctl_env)
| StoreCmd (buf : string)
| Notify (val : Z) (data : option Z) (now : Z)
| Fasync (filp : Z) (on : bool)
| BlCallback (value now : Z)
| LogRound
| ReadPin (label : string)
| RegisterName (name : option string)
| RegisterInfo (info : option string)
| Init (dev_tz : bool)
| Exit (preempted : bool).

(** Takes the result of an operation apart. *)
Ltac run_op :=
  repeat match goal with
  | H : (_ ≫= _) = Val _ |- _ => apply outcome_bind_Val in H as (? & ? & H)
  | p : (_ * _)%type |- _ => destruct p
  end; simplify_eq/=.

Section Histories.
Context `{K : QcomKernel}.

(** The state after an operation and the int it hands to user space. *)
Definition apply_op (o : qop) (s : fq_state) : outcome (option Z * fq_state) :=
  match o with
  | Event key now => Val (None, set_wk (fp_event_record key now (wk s)).2 s)
  | Ioctl cmd e => '(_, v, s) ← fp_ioctl cmd e s; Val (v, s)
  | StoreCmd buf => Val (None, set_wk (store_cmd buf (wk s)) s)
  | Notify val data now => Val (None, set_wk (fp_notifier_block_callback val data now (wk s)).2 s)
  | Fasync filp on => Val (None, set_wk (fp_fasync filp on (wk s)).2 s)
  | BlCallback value now => Val (None, set_wk (fp_drv_bl_cb value now (wk s)).2 s)
  | LogRound => Val (None, set_tl (fp_tlog_worker (tl s)) s)
  | ReadPin label => '(_, r) ← read_fpId_pin_value label (rg s); Val (None, set_rg r s)
  | RegisterName name => '(_, r) ← full_fp_chip_name name (rg s); Val (None, set_rg r s)
  | RegisterInfo info => '(_, r) ← full_fp_chip_info info (rg s); Val (None, set_rg r s)
  | Init dev_tz => Val (None, set_dv (fp_drv_init dev_tz (dv s)).2 s)
  | Exit preempted => s ← fp_drv_exit preempted s; Val (None, s)
  end.

(** Runs with the events delivered to user space, in order. *)
Inductive runs : list qop → list Z → fq_state → Prop :=
| runs_nil : runs [] [] fq_initial
| runs_snoc ops evs s o v s' :
    runs ops evs s → apply_op o s = Val (v, s') →
    runs (ops ++ [o]) (evs ++ option_list v) s'.

(** ** The backlight lock, abstractly

    Locked or not, and the values written to the backlight by a history. *)
Definition lcd_writes (v : Z) : list Z := (λ _, v) <$> filter (λ led, is_lcd led = true) leds_list.

Definition lock_step (locked : bool) (o : qop) : bool * list Z :=
  match o with
  | Ioctl cmd e =>
      if cmd =? FP_IOC_BL_CONTROL then
        let c := u32 (copy_val e) / 65536 in
        if c =? FP_BL_LOCK then (true, [])
        else if c =? FP_BL_LOCK_RESET then (false, [])
        else if c =? FP_BL_UNLOCK_AND_TRIGGER
        then (false, if locked then lcd_writes (u32 (copy_val e) mod 65536) else [])
        else (locked, [])
      else (locked, [])
  | StoreCmd buf => if String.prefix "0" buf then (true, lcd_writes 0) else (false, lcd_writes 200)
  | _ => (locked, [])
  end.
Definition lock_run (ops : list qop) : bool * list Z :=
  foldl (λ bw o, ((lock_step bw.1 o).1, bw.2 ++ (lock_step bw.1 o).2)) (false, []) ops.

Lemma lock_run_snoc ops o :
  lock_run (ops ++ [o]) =
    ((lock_step (lock_run ops).1 o).1, (lock_run ops).2 ++ (lock_step (lock_run ops).1 o).2).
Proof. unfold lock_run. by rewrite foldl_snoc. Qed.

Lemma backlight_trigger_eq v w :
  backlight_trigger v w = set_brightness (brightness w ++ lcd_writes v) w.
Proof.
  unfold backlight_trigger, lcd_writes. revert w.
  induction leds_list as [|led leds IH]; intros w; cbn [foldl].
  - destruct w. unfold set_brightness. cbn. by rewrite app_nil_r.
  - rewrite IH. destruct (is_lcd led) eqn:Hl.
    + rewrite filter_cons_True by done. destruct w. unfold set_brightness. cbn. by rewrite <- app_assoc.
    + rewrite filter_cons_False by congruence. done.
Qed.

Lemma upper_half d : Z.shiftr (Z.land (u32 d) 0xffff0000) 16 = u32 d / 65536.
Proof.
  rewrite Z.shiftr_land. change (Z.shiftr 0xffff0000 16) with (Z.ones 16).
  rewrite Z.land_ones, Z.shiftr_div_pow2 by lia. apply Z.mod_small.
  unfold u32. pose proof (Z.mod_pos_bound d 4294967296). change (2 ^ 16) with 65536.
  split; [apply Z.div_pos; lia|]. apply Z.div_lt_upper_bound; lia.
Qed.
Lemma lower_half d : Z.land (u32 d) 0x0000ffff = u32 d mod 65536.
Proof. change 0x0000ffff with (Z.ones 16). by rewrite Z.land_ones by lia. Qed.

(** The lock variable and the writes of a state follow the abstract lock. *)
Definition lock_ok (bw : bool * list Z) (w : wake) : Prop :=
  fp_backlight_control w = Z.b2z bw.1 ∧ brightness w = bw.2.

Lemma bl_control_ok bw d now w e :
  copy_val e = d → lock_ok bw w →
  lock_ok ((lock_step bw.1 (Ioctl FP_IOC_BL_CONTROL e)).1,
           bw.2 ++ (lock_step bw.1 (Ioctl FP_IOC_BL_CONTROL e)).2) (fp_bl_control d now w).
Proof.
  intros <- [Hc Hb]. unfold fp_bl_control, lock_step. rewrite Z.eqb_refl, upper_half, lower_half.
  destruct bw as [[] ws]; cbn [fst snd Z.b2z] in *; rewrite Hc; cbn [Z.eqb negb];
    repeat case_match; try done; rewrite ?backlight_trigger_eq; split; cbn; rewrite ?app_nil_r; try done;
    by rewrite Hb.
Qed.

(** Operations on the events leave the lock alone. *)
Definition lock_of (w : wake) : Z * list Z := (fp_backlight_control w, brightness w).

Lemma kill_lock x w : lock_of (KILL_MSG x w) = lock_of w.
Proof. unfold KILL_MSG. by destruct (fasync_queue w). Qed.
Lemma event_lock key now w : lock_of (fp_event_record key now w).2 = lock_of w.
Proof.
  unfold fp_event_record, go_go_go. repeat case_match; cbn [snd]; rewrite ?kill_lock; done.
Qed.
Lemma notify_lock val data now w : lock_of (fp_notifier_block_callback val data now w).2 = lock_of w.
Proof. unfold fp_notifier_block_callback. repeat case_match; cbn [snd]; rewrite ?event_lock; done. Qed.

Lemma lock_keep b l w w' : lock_of w' = lock_of w → lock_ok (b, l) w → lock_ok (b, l ++ []) w'.
Proof. intros Hw [Hc Hb]. injection Hw as Hc' Hb'. rewrite app_nil_r. split; cbn in *; congruence. Qed.

Lemma op_lock o s v s' bw :
  apply_op o s = Val (v, s') → lock_ok bw (wk s) →
  lock_ok ((lock_step bw.1 o).1, bw.2 ++ (lock_step bw.1 o).2) (wk s').
Proof.
  intros Ho Hl. destruct o as [| cmd e | buf | | | | | | | | |];
    cbn [apply_op lock_step fst snd] in *; run_op;
    try (eapply lock_keep; [|exact Hl]; by rewrite ?event_lock, ?notify_lock).
  - destruct (Z.eqb_spec cmd FP_IOC_BL_CONTROL) as [->|Hn].
    + cbn in *. simplify_eq. by apply (bl_control_ok (b, l) _ _ _ e).
    + eapply lock_keep; [|exact Hl].
      unfold fp_ioctl in H. rewrite (proj2 (Z.eqb_neq _ _) Hn) in H. repeat case_match; run_op; done.
  - destruct Hl as [Hc Hb]. unfold store_cmd. rewrite !backlight_trigger_eq.
    case_match; split; cbn in *; congruence.
  - eapply lock_keep; [|exact Hl]. unfold fp_fasync. by repeat case_match.
  - eapply lock_keep; [|exact Hl]. unfold fp_drv_bl_cb. by repeat case_match.
  - eapply lock_keep; [|exact Hl]. unfold fp_drv_exit in *. case_match; by run_op.
Qed.

Lemma runs_lock ops evs s : runs ops evs s → lock_ok (lock_run ops) (wk s).
Proof.
  induction 1 as [|ops evs s o v s' _ IH Ho]; [done|]. rewrite lock_run_snoc. by eapply op_lock.
Qed.

(** ** The mailbox *)

(** What an operation does to the event mailbox: nothing, put an event there and
    raise SIGIO for it, or hand its content to the caller. *)
Definition mail_step (w : wake) (v : option Z) (w' : wake) : Prop :=
  (v = None ∧ fp_report_event w' = fp_report_event w ∧ signalled w' = signalled w) ∨
  (v = None ∧ fasync_queue w ≠ [] ∧ fp_report_event w' ≠ 0 ∧
   signalled w' = signalled w ++ [fp_report_event w'] ∧
   (fp_report_event w' = HW_EVENT_WAKEUP →
    irq_report_disable_flag w = 0 ∧ disable_by_user w = 0 ∧ irq_report_disable_flag w' = 1)) ∨
  (v = Some (fp_report_event w) ∧ fp_report_event w' = 0 ∧ signalled w' = signalled w).

(** The ioctl that rearms the wake-up event. *)
Definition rearms (o : qop) : bool :=
  match o with
  | Ioctl cmd e => (cmd =? FP_IOC_RESET_EVENT) && (copy_ret e =? 0) && (copy_val e =? 0)
  | _ => false
  end.

Lemma event_mail key now w :
  mail_step w None (fp_event_record key now w).2 ∧
  (irq_report_disable_flag (fp_event_record key now w).2 = 0 → irq_report_disable_flag w = 0).
Proof.
  unfold fp_event_record, go_go_go, KILL_MSG, mail_step. repeat case_match; cbn [snd];
    repeat match goal with
    | Hb : (_ || _) = true |- _ => apply orb_true_iff in Hb as [Hb|Hb]
    | Hb : (_ && _) = true |- _ => apply andb_true_iff in Hb as [? ?]
    | Hb : (_ =? _) = true |- _ => apply Z.eqb_eq in Hb
    end; subst; cbn in *; (split; [|done || lia]); auto 10; right; left; split_and!;
    first [done|congruence|by intros].
Qed.

Lemma notify_mail val data now w :
  mail_step w None (fp_notifier_block_callback val data now w).2 ∧
  (irq_report_disable_flag (fp_notifier_block_callback val data now w).2 = 0 → irq_report_disable_flag w = 0).
Proof.
  unfold fp_notifier_block_callback. repeat case_match; cbn [snd]; auto using event_mail;
    split; try done; by left.
Qed.

(** Operations on the backlight, the times and the queue leave the mailbox alone. *)
Definition mail_of (w : wake) : Z * list Z * Z :=
  (fp_report_event w, signalled w, irq_report_disable_flag w).

Lemma mail_quiet w w' (P : Prop) :
  mail_of w' = mail_of w →
  mail_step w None w' ∧ (irq_report_disable_flag w' = 0 → irq_report_disable_flag w = 0 ∨ P).
Proof. intros [= He Hs Hi]. split; [by left|]. rewrite Hi. by left. Qed.

Lemma bl_control_mail d now w : mail_of (fp_bl_control d now w) = mail_of w.
Proof. unfold fp_bl_control. rewrite backlight_trigger_eq. by repeat case_match. Qed.

Lemma store_cmd_mail buf w : mail_of (store_cmd buf w) = mail_of w.
Proof. unfold store_cmd. rewrite !backlight_trigger_eq. by case_match. Qed.

Lemma ioctl_mail cmd e s r v s' :
  fp_ioctl cmd e s = Val (r, v, s') →
  mail_step (wk s) v (wk s') ∧
  (irq_report_disable_flag (wk s') = 0 → irq_report_disable_flag (wk s) = 0 ∨ rearms (Ioctl cmd e) = true).
Proof.
  intros Hi. unfold fp_ioctl in Hi. repeat case_match; run_op;
    try (apply mail_quiet; by rewrite ?bl_control_mail); try (split; by left).
  - split; [by right; right|by left].
  - split; [by left|]. right.
    repeat match goal with Hb : negb _ = false |- _ => apply negb_false_iff in Hb end.
    by rewrite !andb_true_iff.
Qed.

Lemma op_mail o s v s' :
  apply_op o s = Val (v, s') →
  mail_step (wk s) v (wk s') ∧
  (irq_report_disable_flag (wk s') = 0 → irq_report_disable_flag (wk s) = 0 ∨ rearms o = true).
Proof.
  destruct o as [key t|cmd e|buf|val data t|filp on|x t| | | | | |]; cbn [apply_op]; intros Ho; run_op;
    try (apply mail_quiet; by rewrite ?store_cmd_mail).
  - destruct (event_mail key t (wk s)); auto.
  - by eapply ioctl_mail.
  - destruct (notify_mail val data t (wk s)); auto.
  - apply mail_quiet. unfold fp_fasync. by repeat case_match.
  - apply mail_quiet. by repeat case_match.
  - apply mail_quiet. unfold fp_drv_exit in *. case_match; by run_op.
Qed.

Definition wakeups (l : list Z) : nat := length (filter (λ x, x = HW_EVENT_WAKEUP) l).
Definition armed (w : wake) : nat := if irq_report_disable_flag w =? 0 then 1 else 0.
Definition rearmed (ops : list qop) : nat := length (filter (λ o, rearms o = true) ops).

(** At most one wake-up since the last rearming, and none while it is armed. *)
Lemma runs_wakeups ops evs s :
  runs ops evs s →
  (wakeups (signalled (wk s)) + armed (wk s) ≤ 1 + rearmed ops)%nat.
Proof.
  unfold wakeups, rearmed.
  induction 1 as [|ops evs s o v s' _ IH Ho]; [cbn; lia|].
  apply op_mail in Ho as [Hm Hi]. rewrite list.filter_app, length_app.
  assert (Hr : (armed (wk s') ≤ armed (wk s) + length (filter (λ o, rearms o = true) [o]))%nat).
  { unfold armed. rewrite filter_cons. destruct (Z.eqb_spec (irq_report_disable_flag (wk s')) 0) as [Hz|]; [|lia].
    destruct (Hi Hz) as [->|Ha]; [cbn; lia|rewrite decide_True by done; cbn; lia]. }
  set (n := length (filter (λ o, rearms o = true) [o])) in *. clearbody n.
  destruct Hm as [(_ & _ & ->)|[(_ & _ & _ & -> & Hx)|(_ & _ & ->)]]; [lia| |lia].
  rewrite list.filter_app, length_app, filter_cons. case_decide as Hw; cbn; [|lia].
  destruct (Hx Hw) as (Hz & _ & H1). unfold armed in *. rewrite Hz, H1 in *. cbn in *. lia.
Qed.

(** What the mailbox still holds comes after everything delivered; when it is
    empty the newest event has been delivered. *)
Definition delivered (evs : list Z) : list Z := filter (λ x, x ≠ 0) evs.
Definition mail_inv (evs : list Z) (w : wake) : Prop :=
  ∃ pre, delivered evs `sublist_of` pre ∧
    ((fp_report_event w = 0 ∧ signalled w = pre ∧ list.last pre = list.last (delivered evs)) ∨
     (fp_report_event w ≠ 0 ∧ signalled w = pre ++ [fp_report_event w])).

Lemma runs_mail ops evs s : runs ops evs s → mail_inv evs (wk s).
Proof.
  unfold mail_inv, delivered.
  induction 1 as [|ops evs s o v s' _ (pre & Hsub & Hpre) Ho]; [exists []; split; [done|by left]|].
  apply op_mail in Ho as [Hm _]. rewrite list.filter_app.
  destruct Hm as [(-> & -> & ->)|[(-> & _ & Hne & -> & _)|(-> & -> & ->)]]; unfold option_list; cbn [option_rect].
  - exists pre. by rewrite app_nil_r.
  - exists (signalled (wk s)). rewrite app_nil_r. split; [|by right].
    destruct Hpre as [(_ & -> & _)|[_ ->]]; [done|]. by apply sublist_inserts_r.
  - exists (signalled (wk s)). rewrite filter_cons. destruct Hpre as [(-> & -> & Hl)|[Hne ->]].
    + rewrite decide_False by (by intros []). rewrite app_nil_r. split; [done|by left].
    + rewrite decide_True, filter_nil by done. split; [by apply sublist_app|]. left. by rewrite !last_snoc.
Qed.

(** ** The log thread in a history *)

(** An operation during which nothing the log thread depends on goes wrong: the
    thread can be created and does not run inside the windows of start and stop. *)
Definition calm (o : qop) : Prop :=
  match o with
  | Ioctl _ e => created e = true ∧ preempted e = false
  | Exit preempted => preempted = false
  | _ => True
  end.

(** A thread that was woken finds the flag set. *)
Definition tlog_ok (t : tlog) : Prop :=
  match fp_tlog_output_task t with
  | NoTask | Created => True
  | Running => fp_drv_is_tz_log_enable t = true
  | ErrTask | Exited => False
  end.

Lemma start_ok sched t : tlog_ok t → tlog_ok (start_fp_tz_log_output_task true sched false t).
Proof.
  unfold start_fp_tz_log_output_task, create_fp_tlog_thread. intros Ht.
  destruct (decide _); [|done]. by destruct (sched =? -1).
Qed.

Lemma start_runs sched t :
  fp_tlog_output_task t = NoTask → sched ≠ -1 →
  start_fp_tz_log_output_task true sched false t = mk_tlog Running true (fp_drv_is_need_interrupt_oneshot t).
Proof.
  intros Hn Hs. unfold start_fp_tz_log_output_task, create_fp_tlog_thread.
  rewrite decide_True by done. cbn. by rewrite (proj2 (Z.eqb_neq _ _) Hs).
Qed.

Lemma stop_Val t : tlog_ok t → ∃ t', stop_fp_tz_log_output_task false t = Val t'.
Proof.
  unfold stop_fp_tz_log_output_task, tlog_ok. destruct (decide _) as [Hn|Hn]; [eauto|].
  cbn. destruct (fp_tlog_output_task t) eqn:Ht; try done; eauto.
Qed.

Lemma stop_NoTask b t t' : stop_fp_tz_log_output_task b t = Val t' → fp_tlog_output_task t' = NoTask.
Proof.
  unfold stop_fp_tz_log_output_task. destruct (decide _) as [Hn|Hn]; [by intros [= <-]|].
  intros Hs. by run_op.
Qed.

Lemma stop_ok b t t' : stop_fp_tz_log_output_task b t = Val t' → tlog_ok t'.
Proof. intros Hs. unfold tlog_ok. by rewrite (stop_NoTask _ _ _ Hs). Qed.

Lemma op_tlog o s v s' :
  fp_disp_qsee_log_stats = true → calm o → tlog_ok (tl s) → apply_op o s = Val (v, s') → tlog_ok (tl s').
Proof.
  intros Hf Hc Ht. destruct o as [|cmd e| | | | | | | | | |b]; cbn [apply_op]; intros Ho; run_op; try done.
  - destruct Hc as [Hc Hp]. unfold fp_ioctl in *. rewrite Hc, Hp in *.
    repeat case_match; run_op; try done; eauto using start_ok, stop_ok.
  - unfold fp_tlog_worker, tlog_ok in *. destruct (fp_tlog_output_task (tl s)) eqn:Hk; rewrite ?Hk; try done.
    rewrite Hf, Ht. cbn. by rewrite Hk.
  - unfold fp_drv_exit in *. case_match; run_op. eauto using stop_ok.
Qed.

Lemma runs_tlog ops evs s :
  fp_disp_qsee_log_stats = true → runs ops evs s → Forall calm ops → tlog_ok (tl s).
Proof.
  intros Hf. induction 1 as [|ops evs s o v s' _ IH Ho]; [done|].
  rewrite Forall_app, Forall_singleton. intros [Hops Hc]. eapply op_tlog; eauto.
Qed.

(** ** The ID pin in a history *)

Definition known_code (v : Z) : Prop := v = FpDrv.HIGH ∨ v = FpDrv.LOW ∨ v = FpDrv.HIGH_IMPEDANCE.
Lemma known_code_pos v : known_code v → 0 < v.
Proof. unfold known_code, FpDrv.HIGH, FpDrv.LOW, FpDrv.HIGH_IMPEDANCE. lia. Qed.

(** The object behind fp_gpio_id is used by the one read that finds the pin, and
    every read after it answers from the cache. *)
Definition gpio_ok (r : registry) : Prop :=
  (fp_gpio_id r = GNull ∧ fp_id_pin_value r = -1) ∨ known_code (fp_id_pin_value r).

Lemma parse_dt_Val r :
  fp_gpio_id r = GNull → ∃ z g, fp_id_parse_dt r = Val (z, set_gpio g r).
Proof.
  intros Hg. unfold fp_id_parse_dt. rewrite Hg.
  destruct of_node; [|exists 1, GNull; by destruct r; cbn in *; subst].
  destruct kzalloc_ok; repeat case_match; eauto.
Qed.

Definition texts (r : registry) : string * Z * string * Z :=
  (m_dev_name r, has_exist r, m_dev_info r, all_info_exist r).

Lemma read_pin_ok label r :
  gpio_ok r →
  ∃ v r', read_fpId_pin_value label r = Val (v, r') ∧ gpio_ok r' ∧ texts r' = texts r ∧
    ((v = -1 ∧ fp_id_pin_value r' = -1) ∨ (known_code v ∧ fp_id_pin_value r' = v)).
Proof.
  intros Hok. unfold read_fpId_pin_value. destruct (Z.ltb_spec 0 (fp_id_pin_value r)) as [Hp|Hp].
  { exists (fp_id_pin_value r), r. destruct Hok as [[_ Hm]|Hm]; [lia|]. split_and!; [done|by right|done|by right]. }
  destruct Hok as [[Hg Hm]|Hm]; [|apply known_code_pos in Hm; lia].
  assert (Hbad : ∀ d, ∃ v r', Val (-1, set_driven d r) = Val (v, r') ∧ gpio_ok r' ∧ texts r' = texts r ∧
    ((v = -1 ∧ fp_id_pin_value r' = -1) ∨ (known_code v ∧ fp_id_pin_value r' = v))).
  { intros d. exists (-1), (set_driven d r). split_and!; [done|by left|done|by left]. }
  assert (Hgood : ∀ c d, known_code c →
    ∃ v r', ('(_, r) ← fp_id_parse_dt (set_pin c (set_driven d r)); Val (c, r)) = Val (v, r') ∧
    gpio_ok r' ∧ texts r' = texts r ∧
    ((v = -1 ∧ fp_id_pin_value r' = -1) ∨ (known_code v ∧ fp_id_pin_value r' = v))).
  { intros c d Hc. destruct (parse_dt_Val (set_pin c (set_driven d r)) Hg) as (z & g & ->).
    exists c, (set_gpio g (set_pin c (set_driven d r))). split_and!; [done|by right|done|by right]. }
  repeat case_match; [destruct (Hbad (driven r)) as (v & r' & Hb); destruct r; by eauto| | | |];
    [apply (Hgood _ None)|apply (Hgood _ None)|apply (Hgood _ None)|apply (Hbad (Some false))];
    unfold known_code; auto.
Qed.

(** The first text offered for a slot of the registry. *)
Definition first_name (ops : list qop) : option string :=
  head (omap (λ o, match o with RegisterName n => n | _ => None end) ops).
Definition first_info (ops : list qop) : option string :=
  head (omap (λ o, match o with RegisterInfo i => i | _ => None end) ops).

Definition registry_ok (ops : list qop) (r : registry) : Prop :=
  FpDrv.slot_ok (first_name ops) (has_exist r) (m_dev_name r) ∧
  FpDrv.slot_ok (first_info ops) (all_info_exist r) (m_dev_info r) ∧ gpio_ok r.

Lemma registry_quiet ops o r r' :
  registry_ok ops r → texts r' = texts r → gpio_ok r' →
  first_name [o] = None → first_info [o] = None → registry_ok (ops ++ [o]) r'.
Proof.
  unfold registry_ok, texts, first_name, first_info. intros (Hn & Hi & _) [= -> -> -> ->] Hg Hon Hoi.
  rewrite !omap_app. destruct o as [| | | | | | | |[n|]|[i|]| |]; try done;
    cbn [omap list_omap]; rewrite !app_nil_r; done.
Qed.

Lemma name_registry ops n r z r' :
  registry_ok ops r → full_fp_chip_name n r = Val (z, r') → registry_ok (ops ++ [RegisterName n]) r'.
Proof.
  destruct n as [n|]; cbn [full_fp_chip_name]; intros Hok Hs;
    [|injection Hs as _ <-; by apply (registry_quiet _ _ r); try apply Hok].
  destruct Hok as (Hn & Hi & Hp). unfold registry_ok, first_name, first_info. rewrite !omap_app.
  cbn [omap list_omap]. rewrite app_nil_r, FpDrv.head_snoc.
  destruct (Z.eqb_spec (has_exist r) 1) as [He|He].
  - injection Hs as _ <-. split_and!; [by apply FpDrv.slot_keep|done|done].
  - apply outcome_bind_Val in Hs as (t & Ht & Hs). apply FpDrv.strcpy_Val in Ht as [-> Hlen].
    injection Hs as _ <-. split_and!; [by eapply FpDrv.slot_set|done|done].
Qed.

Lemma info_registry ops i r z r' :
  registry_ok ops r → full_fp_chip_info i r = Val (z, r') → registry_ok (ops ++ [RegisterInfo i]) r'.
Proof.
  destruct i as [i|]; cbn [full_fp_chip_info]; intros Hok Hs;
    [|injection Hs as _ <-; by apply (registry_quiet _ _ r); try apply Hok].
  destruct Hok as (Hn & Hi & Hp). unfold registry_ok, first_name, first_info. rewrite !omap_app.
  cbn [omap list_omap]. rewrite app_nil_r, FpDrv.head_snoc.
  destruct (Z.eqb_spec (all_info_exist r) 1) as [He|He].
  - injection Hs as _ <-. split_and!; [done|by apply FpDrv.slot_keep|done].
  - apply outcome_bind_Val in Hs as (t & Ht & Hs). apply FpDrv.strcpy_Val in Ht as [-> Hlen].
    injection Hs as _ <-. split_and!; [done|by eapply FpDrv.slot_set|done].
Qed.

Lemma ioctl_registry cmd e s r v s' : fp_ioctl cmd e s = Val (r, v, s') → rg s' = rg s.
Proof. unfold fp_ioctl. intros Hi. repeat case_match; run_op; done. Qed.

Lemma runs_registry ops evs s : runs ops evs s → registry_ok ops (rg s).
Proof.
  induction 1 as [|ops evs s o v s' _ IH Ho]; [split_and!; [done|done|by left]|].
  destruct o as [key t|cmd e|buf|val data t|filp on|x t| |label|n|i| |]; cbn [apply_op] in Ho; run_op;
    try (by apply (registry_quiet _ _ (rg s)); try apply IH).
  - erewrite ioctl_registry by done. by apply (registry_quiet _ _ (rg s)); try apply IH.
  - destruct (read_pin_ok label (rg s)) as (v' & r' & Hr & Hg & Ht & _); [apply IH|].
    assert (r = r') as -> by congruence. by apply (registry_quiet _ _ (rg s)).
  - by eapply name_registry.
  - by eapply info_registry.
  - unfold fp_drv_exit in *. case_match; run_op. by apply (registry_quiet _ _ (rg s)); try apply IH.
Qed.
End Histories.

(** ** Properties *)

(** A phone with one LCD backlight behind another LED, an open ID pin and a log
    function. *)
Definition sample_phone : QcomKernel := {|
  of_node := true; kzalloc_ok := true; devm_pinctrl_get := 16;
  pinctrl_lookup_state _ _ := 32; pinctrl_select_state _ _ := 0;
  of_get_named_gpio _ := 9;
  gpio_get_value _ d _ := FpDrv.reads_as FpDrv.Open d;
  leds_list := [Some "button-backlight"; Some "lcd-backlight"; None];
  fp_disp_qsee_log_stats := true; register_chrdev := 240; class_create := 64;
  platform_device_register := 0; platform_driver_register := 0
|}.
Definition sample_env (v : Z) : ioctl_env := mk_ioctl_env 0 v 5000 true 0 false.

(** The run of a list of operations, evaluated. *)
Definition run_ops `{QcomKernel} (ops : list qop) : outcome (list Z * fq_state) :=
  foldl (λ r o, '(evs, s) ← r; '(v, s) ← apply_op o s; Val (evs ++ option_list v, s)) (Val ([], fq_initial)) ops.

Lemma run_ops_runs `{QcomKernel} ops evs s : run_ops ops = Val (evs, s) → runs ops evs s.
Proof.
  unfold run_ops. revert evs s. induction ops as [|o ops IH] using rev_ind; intros evs s.
  - intros [= <- <-]. constructor.
  - rewrite foldl_snoc. intros Hr. run_op. econstructor; eauto.
Qed.

Definition final_events `{QcomKernel} (ops : list qop) : list Z :=
  match run_ops ops with Val (evs, _) => evs | UB => [] end.
Definition final_state `{QcomKernel} (ops : list qop) : fq_state :=
  match run_ops ops with Val (_, s) => s | UB => fq_initial end.
Definition runs_through `{QcomKernel} (ops : list qop) : bool :=
  match run_ops ops with Val _ => true | UB => false end.

Lemma run_final `{QcomKernel} ops : runs_through ops = true → runs ops (final_events ops) (final_state ops).
Proof.
  unfold runs_through, final_events, final_state.
  destruct (run_ops ops) as [[evs s]|] eqn:Hr; [|done]. intros _. by apply run_ops_runs.
Qed.

Lemma wakeup_event t w :
  (fp_event_record HW_EVENT_WAKEUP t w).2 =
    if negb (isFpQuickWakeUpSupport w =? 0) then
      if (irq_report_disable_flag w =? 0) && (disable_by_user w =? 0)
      then KILL_MSG HW_EVENT_WAKEUP (set_times t (t_end w) (set_flags 1 (disable_by_user w) w)) else w
    else set_times t (t_end w) w.
Proof. unfold fp_event_record. by destruct (negb _). Qed.

Lemma slot_fits first exist text :
  FpDrv.slot_ok first exist text → (String.length text < FpDrv.NAME_SIZE)%nat.
Proof. unfold FpDrv.slot_ok, FpDrv.NAME_SIZE. destruct first; [by intros (_ & -> & ?)|intros [_ ->]; cbn; lia]. Qed.

(** The last of the five samples decides. *)
Lemma read_strap `{K : QcomKernel} label st r v r' :
  fp_id_pin_value r = -1 → 0 < of_get_named_gpio label →
  (∀ b, gpio_get_value (of_get_named_gpio label) (Some b) 4 = FpDrv.reads_as st (Some b)) →
  read_fpId_pin_value label r = Val (v, r') → v = FpDrv.code_of st.
Proof.
  intros Hu Hpin Hb. unfold read_fpId_pin_value. rewrite Hu. cbn [Z.ltb Z.compare].
  rewrite (proj2 (Z.leb_gt _ _)) by lia. cbn [read_loop set_driven driven]. rewrite !Hb.
  destruct st as [[]|]; cbn [FpDrv.reads_as FpDrv.level_of Z.eqb Pos.eqb andb];
    intros Hr; apply outcome_bind_Val in Hr as ([z r1] & _ & [= <- _]); done.
Qed.

(** C23. The backlight lock: in every history the variable fp_backlight_control
    and the values written to the LCD follow the abstract lock.  A lock command
    closes it, a reset opens it, an unlock-and-trigger opens it and writes its
    level exactly when it was closed, and a write to fpcmd sets it with 0 or 200
    on the LCD; no event, notification or registration moves it.  The LED core
    is told to drop a level exactly when the lock is closed and the level is a
    nonzero one for the LCD. *)
Theorem backlight_lock_refines `{K : QcomKernel} ops evs s led v :
  runs ops evs s →
  fp_backlight_control (wk s) = Z.b2z (lock_run ops).1 ∧ brightness (wk s) = (lock_run ops).2 ∧
  (get_bl_ctr_flag led v (wk s) = 1 ↔
   (lock_run ops).1 = true ∧ v ≠ 0 ∧ led = Some (Some "lcd-backlight")).
Proof.
  intros Hr. apply runs_lock in Hr as [Hc Hb]. split_and!; [done|done|].
  unfold get_bl_ctr_flag. rewrite Hc. destruct (lock_run ops).1; cbn [Z.b2z Z.eqb].
  all: destruct led as [[n|]|]; cbn; [destruct (String.eqb_spec n "lcd-backlight"), (Z.eqb_spec v 0)|..].
  all: split; [intros ?; split_and!|intros (? & ? & ?)]; congruence.
Qed.

Definition unlock_ops : list qop :=
  [Ioctl FP_IOC_BL_CONTROL (sample_env 0x10000); Ioctl FP_IOC_BL_CONTROL (sample_env 0x200b4);
   Ioctl FP_IOC_BL_CONTROL (sample_env 0x200ff)].

Lemma backlight_lock_refines_witness :
  brightness (wk (@final_state sample_phone unlock_ops)) = [180] ∧
  get_bl_ctr_flag (Some (Some "lcd-backlight")) 50 (wk (@final_state sample_phone unlock_ops)) ≠ 1.
Proof.
  destruct (@backlight_lock_refines sample_phone unlock_ops _ _ (Some (Some "lcd-backlight")) 50
    (@run_final sample_phone unlock_ops eq_refl)) as (_ & Hb & Hf).
  split; [rewrite Hb; vm_compute; reflexivity|]. rewrite Hf. intros [Hl _]. vm_compute in Hl. discriminate.
Defined.

(** The wake-up event is one-shot: a history raises SIGIO for at most one
    wake-up more than it has successful resets with value 0.  A single report of
    the event is raised exactly when quick wake-up is enabled, the event is
    neither used up nor disabled by the user, and somebody listens; once raised,
    a second report changes nothing. *)
Theorem wakeup_one_shot `{K : QcomKernel} ops evs s t1 t2 :
  runs ops evs s →
  (wakeups (signalled (wk s)) ≤ 1 + rearmed ops)%nat ∧
  let w1 := (fp_event_record HW_EVENT_WAKEUP t1 (wk s)).2 in
  signalled w1 =
    signalled (wk s) ++
    (if negb (isFpQuickWakeUpSupport (wk s) =? 0) && (irq_report_disable_flag (wk s) =? 0) &&
        (disable_by_user (wk s) =? 0) && negb (bool_decide (fasync_queue (wk s) = []))
     then [HW_EVENT_WAKEUP] else []) ∧
  (signalled w1 ≠ signalled (wk s) → (fp_event_record HW_EVENT_WAKEUP t2 w1).2 = w1).
Proof.
  intros Hr. split; [apply runs_wakeups in Hr; lia|].
  cbv zeta. rewrite !wakeup_event. destruct (isFpQuickWakeUpSupport (wk s) =? 0) eqn:Hs; cbn [negb andb].
  { by rewrite app_nil_r. }
  destruct ((irq_report_disable_flag (wk s) =? 0) && (disable_by_user (wk s) =? 0)) eqn:Ha.
  2: { cbn [andb]. by rewrite app_nil_r. }
  unfold KILL_MSG. cbn [fasync_queue set_times set_flags]. destruct (fasync_queue (wk s)) eqn:Hq.
  - rewrite bool_decide_true by done. cbn. by rewrite app_nil_r.
  - rewrite bool_decide_false by done. cbn. by rewrite Hs.
Qed.

Definition touch_ops : list qop :=
  [Ioctl FP_IOC_QWK_ENABLE (sample_env 1); Fasync 7 true; Event HW_EVENT_WAKEUP 1000;
   Event HW_EVENT_WAKEUP 2000; Event HW_EVENT_DOWN 2500; Ioctl FP_IOC_GET_EVENT (sample_env 0);
   Ioctl FP_IOC_RESET_EVENT (sample_env 0)].

Lemma wakeup_one_shot_witness :
  (wakeups (signalled (wk (@final_state sample_phone touch_ops))) ≤ 2)%nat ∧
  signalled (fp_event_record HW_EVENT_WAKEUP 3000 (wk (@final_state sample_phone touch_ops))).2 =
    [HW_EVENT_WAKEUP; HW_EVENT_DOWN; HW_EVENT_WAKEUP].
Proof.
  destruct (@wakeup_one_shot sample_phone touch_ops _ _ 3000 4000
    (@run_final sample_phone touch_ops eq_refl)) as (Hn & Hs & _).
  split; [exact Hn|]. rewrite Hs. vm_compute. reflexivity.
Defined.

(** Events arrive in order and none twice: what GET_EVENT has handed to user
    space, leaving out its answers 0 for an empty mailbox, is a subsequence of the
    events SIGIO was raised for, in the same order.  The newest event raised is
    never lost: it is in the mailbox, where the next GET_EVENT finds it, or it is
    the last one delivered. *)
Theorem events_in_order `{K : QcomKernel} ops evs s :
  runs ops evs s →
  delivered evs `sublist_of` signalled (wk s) ∧
  list.last (signalled (wk s)) =
    (if fp_report_event (wk s) =? 0 then list.last (delivered evs) else Some (fp_report_event (wk s))) ∧
  ∀ e, copy_ret e = 0 →
    fp_ioctl FP_IOC_GET_EVENT e s = Val (0, Some (fp_report_event (wk s)), set_wk (set_event 0 (wk s)) s).
Proof.
  intros Hr. apply runs_mail in Hr as (pre & Hsub & Hpre). split_and!.
  - destruct Hpre as [(_ & -> & _)|[_ ->]]; [done|]. by apply sublist_inserts_r.
  - destruct Hpre as [(-> & -> & Hl)|[Hne ->]]; [done|]. rewrite last_snoc.
    by rewrite (proj2 (Z.eqb_neq _ _) Hne).
  - intros e He. unfold fp_ioctl. cbn. by rewrite He.
Qed.

Lemma events_in_order_witness :
  [HW_EVENT_DOWN] `sublist_of` signalled (wk (@final_state sample_phone touch_ops)).
Proof.
  exact (proj1 (@events_in_order sample_phone touch_ops _ _ (@run_final sample_phone touch_ops eq_refl))).
Defined.

(** The log thread is started and stopped in pairs: with a log function
    installed, and as long as threads can be created and the thread does not run
    inside the windows of start and stop, every disable ioctl, and every unload
    of a driver whose device was created, finds a thread it may stop, and leaves none; the next enable then starts a
    thread that drains the log round after round until it is stopped. *)
Theorem log_task_paired `{K : QcomKernel} ops evs s e :
  fp_disp_qsee_log_stats = true → runs ops evs s → Forall calm ops →
  created e = true → preempted e = false → sched e ≠ -1 →
  ∃ s1 s2 s3, fp_ioctl TZ_LOG_IOC_DISABLE_OUTPUT e s = Val (0, None, s1) ∧
    (fp_dev_tz (dv s) = true → fp_drv_exit false s = Val s2) ∧ fp_tlog_output_task (tl s2) = NoTask ∧
    fp_tlog_output_task (tl s1) = NoTask ∧
    fp_ioctl TZ_LOG_IOC_ENABLE_OUTPUT e s1 = Val (0, None, s3) ∧
    fp_tlog_output_task (tl s3) = Running ∧ fp_tlog_worker (tl s3) = tl s3.
Proof.
  intros Hf Hr Hc Hcr Hp Hs. pose proof (runs_tlog _ _ _ Hf Hr Hc) as Hok.
  destruct (stop_Val _ Hok) as (t' & Ht'). pose proof (stop_NoTask _ _ _ Ht') as Hno.
  exists (set_tl t' s). eexists _, (set_tl (mk_tlog Running true (fp_drv_is_need_interrupt_oneshot t')) s).
  split_and!; [|by unfold fp_drv_exit; intros ->; rewrite Ht'|done|done| |done|].
  - unfold fp_ioctl. cbn. by rewrite Hp, Ht'.
  - unfold fp_ioctl. cbn [Z.eqb Pos.eqb TZ_LOG_IOC_ENABLE_OUTPUT]. rewrite Hcr, Hp. cbn [tl set_tl].
    by rewrite start_runs.
  - unfold fp_tlog_worker. cbn. by rewrite Hf.
Qed.

Definition log_ops : list qop :=
  [Ioctl TZ_LOG_IOC_ENABLE_OUTPUT (sample_env 0); LogRound; LogRound].
Lemma log_task_paired_witness :
  ∃ s1, @fp_ioctl sample_phone TZ_LOG_IOC_DISABLE_OUTPUT (sample_env 0) (@final_state sample_phone log_ops)
          = Val (0, None, s1) ∧ fp_tlog_output_task (tl s1) = NoTask.
Proof.
  destruct (@log_task_paired sample_phone log_ops _ _ (sample_env 0) eq_refl
    (@run_final sample_phone log_ops eq_refl)) as (s1 & s2 & s3 & H1 & _ & _ & H2 & _);
    [repeat constructor|done|done|done|].
  exists s1. split; [exact H1|exact H2].
Defined.

(** The windows of the log thread are real: a thread that runs before start has
    stored the flag, or between the store of stop and kthread_stop, leaves its
    loop by itself, and the stop then uses a dead thread; so does a stop after a
    creation that failed, because the error pointer is kept. *)
Theorem log_task_race `{K : QcomKernel} t sched b :
  fp_tlog_output_task t = NoTask → sched ≠ -1 →
  (fp_drv_is_tz_log_enable t = false →
   stop_fp_tz_log_output_task b (start_fp_tz_log_output_task true sched true t) = UB) ∧
  stop_fp_tz_log_output_task true (start_fp_tz_log_output_task true sched false t) = UB ∧
  stop_fp_tz_log_output_task b (start_fp_tz_log_output_task false sched false t) = UB.
Proof.
  intros Hn Hs. unfold start_fp_tz_log_output_task, create_fp_tlog_thread.
  destruct (decide (fp_tlog_output_task t = NoTask)); [|done]. cbn [negb].
  rewrite (proj2 (Z.eqb_neq _ _) Hs). unfold stop_fp_tz_log_output_task, fp_tlog_worker. cbn. split_and!.
  - intros ->. rewrite andb_false_r. cbn. by destruct b.
  - by rewrite andb_false_r.
  - by destruct b.
Qed.

Lemma log_task_race_witness :
  @stop_fp_tz_log_output_task sample_phone false
    (@start_fp_tz_log_output_task sample_phone true 0 true tlog_initial) = UB.
Proof.
  refine (proj1 (@log_task_race sample_phone tlog_initial 0 false eq_refl _) eq_refl). discriminate.
Defined.

(** The registry and the ID pin: after any history the sysfs files show the
    first name, or "unknow", and the first information, or nothing, that were
    offered, and both fit their buffers.  A read of the ID pin is defined in
    every reachable state: although fp_gpio_id keeps pointing to the freed
    object, no later read uses it.  It answers -1 and remembers nothing, or one
    of the three codes, and then every further read answers the same.  On a
    board whose pin settles by the fifth sample the code is that of the strap. *)
Theorem qcom_registry_safe `{K : QcomKernel} ops evs s label :
  runs ops evs s →
  info_show (rg s) = default "unknow" (first_name ops) ∧
  all_info_show (rg s) = default "" (first_info ops) ∧
  (String.length (m_dev_name (rg s)) < FpDrv.NAME_SIZE)%nat ∧
  (String.length (m_dev_info (rg s)) < FpDrv.NAME_SIZE)%nat ∧
  ∃ v r, read_fpId_pin_value label (rg s) = Val (v, r) ∧
    ((v = -1 ∧ fp_id_pin_value r = -1) ∨
     (known_code v ∧ ∀ label', read_fpId_pin_value label' r = Val (v, r))) ∧
    ∀ st, fp_id_pin_value (rg s) = -1 → 0 < of_get_named_gpio label →
      (∀ b, gpio_get_value (of_get_named_gpio label) (Some b) 4 = FpDrv.reads_as st (Some b)) →
      v = FpDrv.code_of st.
Proof.
  intros Hr. apply runs_registry in Hr as (Hn & Hi & Hg).
  unfold FpDrv.slot_ok, info_show, all_info_show in *. split_and!.
  - destruct (first_name ops) as [n|]; [destruct Hn as (-> & -> & _)|destruct Hn as [-> _]]; done.
  - destruct (first_info ops) as [n|]; [destruct Hi as (_ & -> & _)|destruct Hi as [_ ->]]; done.
  - by apply slot_fits in Hn.
  - by apply slot_fits in Hi.
  - destruct (read_pin_ok label (rg s) Hg) as (v & r & Hv & _ & _ & Hc). exists v, r. split_and!; [done| |].
    + destruct Hc as [?|[Hk Hp]]; [by left|right]. split; [done|]. intros label'.
      apply known_code_pos in Hk. unfold read_fpId_pin_value.
      by rewrite Hp, (proj2 (Z.ltb_lt _ _)) by done.
    + intros st Hu Hpin Hb. by eapply read_strap.
Qed.

Definition registry_ops : list qop :=
  [Init true; RegisterName (Some "elan_fp"); ReadPin "fpid-gpio"; RegisterName (Some "goodix_fp");
   RegisterInfo None; ReadPin "fpid-gpio"].
Lemma qcom_registry_safe_witness :
  info_show (rg (@final_state sample_phone registry_ops)) = "elan_fp" ∧
  all_info_show (rg (@final_state sample_phone registry_ops)) = "" ∧
  ∃ v r, @read_fpId_pin_value sample_phone "fpid-gpio" (rg (@final_state sample_phone registry_ops)) = Val (v, r).
Proof.
  destruct (@qcom_registry_safe sample_phone registry_ops _ _ "fpid-gpio"
    (@run_final sample_phone registry_ops eq_refl)) as (Hn & Hi & _ & _ & v & r & Hr & _).
  split; [exact Hn|]. split; [exact Hi|]. exists v, r. exact Hr.
Defined.

(** Loading and unloading: a load that succeeds has registered the character
    device, the class, the platform device and driver, the three sysfs files and
    the framebuffer client; one whose platform registration fails returns -1 and
    leaves the character device and the class behind.  Unloading removes the
    character device, the driver and two of the files, and leaves the class, the
    platform device, the file fpcmd and the framebuffer client, whose callback is
    then gone; when the device could not be created, which the probe only logs,
    unloading is undefined. *)
Theorem init_exit_leaves `{K : QcomKernel} dev_tz s :
  0 ≤ register_chrdev → 0 ≤ class_create →
  ((platform_device_register ≠ 0 ∨ platform_driver_register ≠ 0) →
   ∃ dev, fp_drv_init dev_tz devices_initial = (-1, mk_devices true true dev false false [] 0)) ∧
  (platform_device_register = 0 → platform_driver_register = 0 → fp_tlog_output_task (tl s) = NoTask →
   fp_drv_init dev_tz devices_initial =
     (0, mk_devices true true true true dev_tz ["fp_drv_info"; "fp_drv_all_info"; "fpcmd"] 1) ∧
   fp_drv_exit false (set_dv (fp_drv_init dev_tz devices_initial).2 s) =
     if dev_tz then Val (set_dv (mk_devices false true true false false ["fpcmd"] 1) s) else UB).
Proof.
  intros Hc Hk. unfold fp_drv_init. rewrite !(proj2 (Z.ltb_ge _ _)) by done. split.
  - destruct (Z.eqb_spec platform_device_register 0), (Z.eqb_spec platform_driver_register 0);
      cbn; eauto; intros [?|?]; done.
  - intros -> -> Ht. split; [done|]. destruct dev_tz; [|done]. unfold fp_drv_exit, stop_fp_tz_log_output_task. cbn.
    rewrite (decide_True_pi (P := fp_tlog_output_task (tl s) = NoTask) Ht). by destruct s.
Qed.

Lemma init_exit_leaves_witness :
  @fp_drv_init sample_phone true devices_initial =
    (0, mk_devices true true true true true ["fp_drv_info"; "fp_drv_all_info"; "fpcmd"] 1).
Proof.
  apply (@init_exit_leaves sample_phone true fq_initial); (reflexivity || discriminate).
Defined.
End FpDrvQcom.
