(* ===== verification/FpClient.v ===== *)
(** * The registry driver as the sensor drivers call it

    A sensor driver runs in one kernel with the registry driver and calls into it:
    it registers its name and version, reads the ID pin and reports events.  The
    state of a sensor driver therefore holds the registry's ([HasRegistry]), and
    these calls change that part and nothing else. *)
From S2P Require Import Prelude DriverRt FpDrv FpDrvQcom.

Class HasRegistry (S : Type) := {
  registry_of : S → FpDrvQcom.fq_state;
  put_registry : FpDrvQcom.fq_state → S → S;
  registry_put q s : registry_of (put_registry q s) = q
}.

Section Client.
Context {S : Type} `{R : HasRegistry S} `{W : World kcall} `{T : Clock}.

(** The macro FP_EVT_REPORT, a call of fp_event_record *)
Definition FP_EVT_REPORT (key : Z) : IO kcall S unit := λ s,
  let q := registry_of (st s) in
  Val (tt, mk_rt (calls s)
    (put_registry (FpDrvQcom.set_wk (FpDrvQcom.fp_event_record key (clock (calls s)) (FpDrvQcom.wk q)).2 q) (st s))).

(** A call of full_fp_chip_name, full_fp_chip_info or read_fpId_pin_value *)
Definition in_registry (f : FpDrvQcom.registry → outcome (Z * FpDrvQcom.registry)) : IO kcall S Z :=
  q ← kget registry_of;
  '(v, r) ← klift (f (FpDrvQcom.rg q));
  kmod (put_registry (FpDrvQcom.set_rg r q)) ;; mret v.

(** full_fp_chip_info on a text in memory, which is read only when it is stored *)
Definition chip_info_at (buf : list Z) (r : FpDrvQcom.registry) : outcome (Z * FpDrvQcom.registry) :=
  if FpDrvQcom.all_info_exist r =? 1 then Val (-1, r) else
  t ← cstr buf; FpDrvQcom.full_fp_chip_info (Some t) r.

Lemma chip_info_at_Val buf t r :
  cstr buf = Val t → (String.length t < FpDrv.NAME_SIZE)%nat → chip_info_at buf r ≠ UB.
Proof.
  intros Ht Hl. unfold chip_info_at. destruct (FpDrvQcom.all_info_exist r =? 1) eqn:He; [done|]. rewrite Ht, bind_Val.
  unfold FpDrvQcom.full_fp_chip_info, FpDrv.strcpy. rewrite He. by rewrite (proj2 (Nat.ltb_lt _ _) Hl).
Qed.

Lemma ewp_report E key Q s :
  (∀ now, Q tt (mk_rt (calls s) (put_registry
     (FpDrvQcom.set_wk (FpDrvQcom.fp_event_record key now (FpDrvQcom.wk (registry_of (st s)))).2 (registry_of (st s))) (st s)))) →
  ewp E (FP_EVT_REPORT key) Q s.
Proof. intros HQ. apply HQ. Qed.
Lemma ewp_in_registry E f Q s :
  (∀ z r, f (FpDrvQcom.rg (registry_of (st s))) = Val (z, r) →
     Q z (mk_rt (calls s) (put_registry (FpDrvQcom.set_rg r (registry_of (st s))) (st s)))) →
  (f (FpDrvQcom.rg (registry_of (st s))) = UB → E) →
  ewp E (in_registry f) Q s.
Proof.
  intros HQ HE. unfold in_registry. apply ewp_bind, ewp_get, ewp_bind, ewp_lift; [|done].
  intros [z r] Hz. apply ewp_bind, ewp_mod, ewp_ret. by apply HQ.
Qed.
End Client.
