(* ===== verification/FpListener.v ===== *)
(** * The event listener of the framework
      (src/vendor/tinno/Fingerprint-N/em_framework/framework/base/services/core/jni)

    The C side of the fingerprint service: fp.c chooses a back end, the registry
    driver with quick wake-up or the device of the sensor whose driver registered,
    and the back ends goodix_jni.c, elan_jni.c, silead_jni.c and chipone_jni.c
    wait for events of the sensor drivers.  The file variables are [listener];
    signal handlers and threads are operations of their own; a wait on a
    semaphore that is 0 answers [None] and changes nothing. *)
From stdpp Require Import pretty.
From S2P Require Import Prelude Runtime DriverRt.

Module FpListener.

(** ** Calls to the system *)
Inductive ucall :=
| SystemPropertyGet (key : string)
| Open (path : string)
| Close (fd : Z)
| Read (fd : Z) (count : nat)
| Write (fd : Z) (text : string)
| Ioctl (fd req : Z) (arg : Z)
| Poll (fd : Z)
| Signal
| Fcntl (fd : Z) (cmd : string) (arg : Z)
| Getpid
| PthreadCreate (entry : string)
| Sysconf.

(** ** Constants *)
Definition UNKNOW : Z := 0.
Definition VENDOR_SILEAD : Z := 1.
Definition VENDOR_GOODIX : Z := 2.
Definition VENDOR_ELAN : Z := 3.
Definition VENDOR_CHIPONE : Z := 4.
Definition FP_NATIVE : Z := 5.

Definition FP_DRV_SILEAD : string := "silead_fp".
Definition FP_DRV_GOODIX : string := "goodix_fp".
Definition FP_DRV_ELAN : string := "elan_fp".
Definition FP_DRV_CHIPONE : string := "chipone_fp".

Definition FP_DEV_ATTR : string := "/sys/devices/platform/fp_drv/fp_drv_info".
Definition FP_DEV : string := "/dev/fp_drv".
Definition BL_DEV_ATTR : string := "/sys/class/leds/lcd-backlight/brightness".
Definition FP_IOC_BL_CONTROL : Z := 0x740a.
Definition FP_IOC_GET_EVENT : Z := 0x740b.
Definition FP_IOC_RESET_EVENT : Z := 0x740c.
Definition FP_IOC_QWK_ENABLE : Z := 0x740d.

Definition FP_BL_LOCK_RESET : Z := 0.
Definition FP_BL_LOCK : Z := 1.
Definition FP_BL_UNLOCK_AND_TRIGGER : Z := 2.
Definition FP_RESET_EVENT : Z := 10.

Definition FASYNC : Z := 0x2000.
Definition EV_KEY : Z := 1.
Definition KEY_POWER : Z := 116.

(** The back ends: _IOW('g', 101, int), _IOW('g', 102, int), _IOW(0x80, 10, int),
    _IOR('k', 81, __u32), _IOWR(0xf0, 16, unsigned int) *)
Definition DRV_GOODIX : string := "/dev/goodix_fp".
Definition GFX1XM_IOC_FTM : Z := 0x40046765.
Definition GFX1XM_IOC_SET_MODE : Z := 0x40046766.
Definition ELAN_FP_DEV : string := "/dev/elan_fp".
Definition IOCTL_READ_KEY_STATUS : Z := 0x4004800a.
Definition DRV_SILEAD : string := "/dev/silead_fp_dev".
Definition SILEAD_FINGER_STATE_INFO : Z := 0x80046b51.
Definition DRV_CHIPONE : string := "/dev/chipone_fp".
Definition CHIPONE_FINGER_STATE_INFO : Z := 0xc004f010.

(** ** State *)

(** The variables _dev_fd, fp_exit and wk_sem of a back end. *)
Record backend := mk_backend {
  _dev_fd : Z;
  fp_exit : Z;
  wk_sem : nat
}.
Definition set_bfd v s := mk_backend v (fp_exit s) (wk_sem s).
Definition set_fp_exit v s := mk_backend (_dev_fd s) v (wk_sem s).
Definition set_wk_sem v s := mk_backend (_dev_fd s) (fp_exit s) v.

(** The variables of fp.c, the three back ends of that shape, and those of
    elan_jni.c (whose semaphore is also called msg_sem). *)
Record listener := mk_listener {
  dev_fd : Z;
  fp_vendor : Z;
  fp_event_value : Z;
  msg_sem : nat;
  fp_qwk_enable_flag : Z;
  goodix : backend;
  silead : backend;
  chipone : backend;
  elan_fd : Z;
  elan_sem : nat;
  finger_state : Z
}.
Definition set_dev_fd v s := mk_listener v (fp_vendor s) (fp_event_value s) (msg_sem s) (fp_qwk_enable_flag s) (goodix s) (silead s) (chipone s) (elan_fd s) (elan_sem s) (finger_state s).
Definition set_fp_vendor v s := mk_listener (dev_fd s) v (fp_event_value s) (msg_sem s) (fp_qwk_enable_flag s) (goodix s) (silead s) (chipone s) (elan_fd s) (elan_sem s) (finger_state s).
Definition set_fp_event_value v s := mk_listener (dev_fd s) (fp_vendor s) v (msg_sem s) (fp_qwk_enable_flag s) (goodix s) (silead s) (chipone s) (elan_fd s) (elan_sem s) (finger_state s).
Definition set_msg_sem v s := mk_listener (dev_fd s) (fp_vendor s) (fp_event_value s) v (fp_qwk_enable_flag s) (goodix s) (silead s) (chipone s) (elan_fd s) (elan_sem s) (finger_state s).
Definition set_fp_qwk_enable_flag v s := mk_listener (dev_fd s) (fp_vendor s) (fp_event_value s) (msg_sem s) v (goodix s) (silead s) (chipone s) (elan_fd s) (elan_sem s) (finger_state s).
Definition set_goodix v s := mk_listener (dev_fd s) (fp_vendor s) (fp_event_value s) (msg_sem s) (fp_qwk_enable_flag s) v (silead s) (chipone s) (elan_fd s) (elan_sem s) (finger_state s).
Definition set_silead v s := mk_listener (dev_fd s) (fp_vendor s) (fp_event_value s) (msg_sem s) (fp_qwk_enable_flag s) (goodix s) v (chipone s) (elan_fd s) (elan_sem s) (finger_state s).
Definition set_chipone v s := mk_listener (dev_fd s) (fp_vendor s) (fp_event_value s) (msg_sem s) (fp_qwk_enable_flag s) (goodix s) (silead s) v (elan_fd s) (elan_sem s) (finger_state s).
Definition set_elan_fd v s := mk_listener (dev_fd s) (fp_vendor s) (fp_event_value s) (msg_sem s) (fp_qwk_enable_flag s) (goodix s) (silead s) (chipone s) v (elan_sem s) (finger_state s).
Definition set_elan_sem v s := mk_listener (dev_fd s) (fp_vendor s) (fp_event_value s) (msg_sem s) (fp_qwk_enable_flag s) (goodix s) (silead s) (chipone s) (elan_fd s) v (finger_state s).
Definition set_finger_state v s := mk_listener (dev_fd s) (fp_vendor s) (fp_event_value s) (msg_sem s) (fp_qwk_enable_flag s) (goodix s) (silead s) (chipone s) (elan_fd s) (elan_sem s) v.
Definition backend_initial : backend := mk_backend (-1) 0 0.
Definition listener_initial : listener :=
  mk_listener (-1) (-1) 0 0 0 backend_initial backend_initial backend_initial 0 0 0.

Abbreviation U := (IO ucall listener).

(** ** Text *)

(** strcmp(buf, lit) == 0: reads [buf] up to the first difference. *)
Fixpoint streq (buf lit : list Z) : outcome bool :=
  match lit, buf with
  | _, [] => UB
  | [], b :: _ => Val (b =? 0)
  | c :: lit', b :: buf' => if b =? c then streq buf' lit' else Val false
  end.
(** A text the system returns, up to its terminator. *)
Fixpoint text_of (bs : list Z) : string :=
  match bs with
  | [] => ""
  | b :: rest => if b =? 0 then "" else String (Ascii.ascii_of_nat (Z.to_nat b)) (text_of rest)
  end.

(** The comparisons of getFpInfo; a name that matches none is logged. *)
Definition match_name (buf : list Z) : outcome Z :=
  b ← streq buf (codes FP_DRV_GOODIX);
  if (b : bool) then Val VENDOR_GOODIX else
  b ← streq buf (codes FP_DRV_SILEAD);
  if (b : bool) then Val VENDOR_SILEAD else
  b ← streq buf (codes FP_DRV_ELAN);
  if (b : bool) then Val VENDOR_ELAN else
  b ← streq buf (codes FP_DRV_CHIPONE);
  if (b : bool) then Val VENDOR_CHIPONE else
  _ ← cstr buf; Val UNKNOW.

Section Listener.
Context `{W : World ucall}.

(** ** fp.c *)

Definition getFpInfo : U Z :=
  v0 ← kget fp_vendor;
  if UNKNOW <? v0 then mret v0 else
  fd ← kret (Open FP_DEV_ATTR);
  v ← (if 0 <? fd then
         r ← kcall_ (Read fd 50);
         v ← klift (match_name (copied 50 r));
         kdo (Close fd) ;; mret v
       else mret UNKNOW);
  kmod (set_fp_vendor v) ;; mret v.

(** DO_IOCTL in the handler of SIGIO; the value is stored only when the ioctl
    succeeds, since the driver copies it last. *)
Definition fp_input_handler : U unit :=
  fd ← kget dev_fd;
  r ← kcall_ (Ioctl fd FP_IOC_GET_EVENT 0);
  if negb (rret r =? 0) then mret tt else
  kmod (set_fp_event_value (i32 (le_load (copied 4 r)))) ;;
  n ← kget msg_sem; kmod (set_msg_sem (S n)).

Definition fp_fasync_notify_register : U unit :=
  fd ← kget dev_fd;
  kdo Signal ;;
  pid ← kret Getpid;
  kdo (Fcntl fd "F_SETOWN" pid) ;;
  oflags ← kret (Fcntl fd "F_GETFL" 0);
  kdo (Fcntl fd "F_SETFL" (Z.lor oflags FASYNC)).

Definition fp_native_report_event : U (option (Z * Z)) :=
  n ← kget msg_sem;
  match n with
  | O => mret None
  | S n' => kmod (set_msg_sem n') ;; v ← kget fp_event_value; mret (Some (0, v))
  end.

Definition fp_dev_open : U Z :=
  fd0 ← kget dev_fd;
  if 0 <? fd0 then mret fd0 else
  fd ← kret (Open FP_DEV);
  kmod (set_dev_fd fd) ;;
  if fd <? 0 then mret (-1) else
  cmd ← kget fp_qwk_enable_flag;
  kdo (Ioctl fd FP_IOC_QWK_ENABLE cmd) ;;
  fp_fasync_notify_register ;;
  kget dev_fd.

Definition setLcdBrightness (brightness : Z) : U Z :=
  fd ← kret (Open BL_DEV_ATTR);
  if 0 <? fd then
    ret ← kret (Write fd (pretty brightness));
    kdo (Close fd) ;; mret ret
  else mret 0.

Definition fp_dev_ioctl (cmd arg0 : Z) : U Z :=
  q ← kget fp_qwk_enable_flag;
  if q =? 0 then mret 0 else
  o ← fp_dev_open;
  if o <? 0 then mret (-1) else
  fd ← kget dev_fd;
  let data := Z.lor (Z.shiftl cmd 16) arg0 in
  if (cmd =? FP_BL_LOCK) || (cmd =? FP_BL_LOCK_RESET) then
    kret (Ioctl fd FP_IOC_BL_CONTROL data)
  else if cmd =? FP_BL_UNLOCK_AND_TRIGGER then
    ret ← kret (Ioctl fd FP_IOC_BL_CONTROL data);
    setLcdBrightness arg0 ;; mret ret
  else if cmd =? FP_RESET_EVENT then
    kret (Ioctl fd FP_IOC_RESET_EVENT arg0)
  else mret (-1).

(** The search for the power key in /sys/class/input: the number of the device
    whose name is [name], 24 when there is none.  A file that cannot be read is
    left open. *)
Fixpoint find_input (name : string) (i : Z) (n : nat) : U Z :=
  match n with
  | O => mret i
  | S n' =>
      fd ← kret (Open ("/sys/class/input/input" +:+ pretty i +:+ "/name"));
      if 0 <? fd then
        r ← kcall_ (Read fd 64);
        if rret r <=? 0 then find_input name (i + 1) n' else
        if String.eqb (text_of (take (Z.to_nat (rret r) - 1) (rout r))) name
        then kdo (Close fd) ;; mret i
        else kdo (Close fd) ;; find_input name (i + 1) n'
      else find_input name (i + 1) n'
  end.

(** One turn of the endless loop: struct input_event is 24 bytes, with type, code
    and value at 16, 18 and 20. *)
Definition key_iter (fd : Z) : U unit :=
  r ← kcall_ (Read fd 24);
  let t := copied 24 r in
  let type := le_load (sub 16 2 t) in
  let code := le_load (sub 18 2 t) in
  let value := i32 (le_load (sub 20 4 t)) in
  kwhen ((rret r =? 24) && (type =? EV_KEY) && (value =? 1) && (code =? KEY_POWER))
    (d ← kget dev_fd;
     if d <? 0 then mret tt else
     kdo (Ioctl d FP_IOC_BL_CONTROL (Z.shiftl FP_BL_LOCK_RESET 16)) ;;
     q ← kget fp_qwk_enable_flag;
     kwhen (1 <=? q)
       (kmod (set_fp_event_value code) ;; n ← kget msg_sem; kmod (set_msg_sem (S n)))).
Fixpoint key_loop (fd : Z) (n : nat) : U unit :=
  match n with O => mret tt | S n' => key_iter fd ;; key_loop fd n' end.

(** The first [n] turns; [None] while the loop runs, which it does for ever. *)
Definition input_key_event_wait (n : nat) : U (option Z) :=
  i ← find_input "qpnp_pon" 0 24;
  if 24 <=? i then mret (Some (-1)) else
  fd ← kret (Open ("/dev/input/event" +:+ pretty i));
  if fd <? 0 then mret (Some (-1)) else
  key_loop fd n ;; mret None.

Definition systemCpuNum : U Z := kret Sysconf.
Definition cpu_set (cpu : Z) : U Z := mret 0.

(** The buffer is logged as a string. *)
Definition getLcdBrightness : U Z :=
  systemCpuNum ;;
  fd ← kret (Open BL_DEV_ATTR);
  if 0 <? fd then
    r ← kcall_ (Read fd 64);
    let buf := if 0 <? rret r then copied 64 r else repeat 0 64 in
    t ← klift (cstr buf);
    kdo (Close fd) ;;
    mret (if 0 <? rret r then atoi t else 0)
  else mret 0.

(** ** The back ends with a thread or SIGIO

    [lens]: which of the three back ends. *)
Record lens := mk_lens { view : listener → backend; update : backend → listener → listener }.
Definition goodix_lens : lens := mk_lens goodix set_goodix.
Definition silead_lens : lens := mk_lens silead set_silead.
Definition chipone_lens : lens := mk_lens chipone set_chipone.

Definition bget {A} (l : lens) (f : backend → A) : U A := kget (λ s, f (view l s)).
Definition bmod (l : lens) (f : backend → backend) : U unit := kmod (λ s, update l (f (view l s)) s).
Definition sem_post (l : lens) : U unit := bmod l (λ b, set_wk_sem (S (wk_sem b)) b).

(** register_fasync_notify *)
Definition register_fasync_notify (fd : Z) : U unit :=
  kdo Signal ;;
  flag ← kret (Fcntl fd "F_GETFL" 0);
  kdo (Fcntl fd "F_SETFL" (Z.lor flag FASYNC)) ;;
  pid ← kret Getpid;
  kdo (Fcntl fd "F_SETOWN" pid).

Definition goodix_set_mod : U Z :=
  fd ← bget goodix_lens _dev_fd;
  ret ← kret (Ioctl fd GFX1XM_IOC_SET_MODE 1);
  mret (if ret <? 0 then -1 else 0).

(** One turn of thread_do_poll on the descriptor it started with; does it go on? *)
Definition thread_do_poll (fd : Z) : U bool :=
  ret ← kret (Poll fd);
  kwhen (negb (ret =? 0)) (sem_post goodix_lens) ;;
  e ← bget goodix_lens fp_exit;
  mret (e =? 0).

(** The two properties are read for the log only. *)
Definition goodix_dev_init : U Z :=
  kdo (SystemPropertyGet "ro.target") ;;
  kdo (SystemPropertyGet "ro.board.platform") ;;
  fd ← kret (Open DRV_GOODIX);
  if fd <? 0 then mret (-1) else
  bmod goodix_lens (λ b, set_fp_exit 0 (set_bfd fd b)) ;;
  goodix_set_mod ;;
  kdo (PthreadCreate "thread_do_poll") ;;
  mret 0.

(** The SIGIO handler of the Silead and Chipone back ends *)
Definition fasync_input_handler (l : lens) : U unit := sem_post l.

Definition silead_dev_init : U Z :=
  fd ← kret (Open DRV_SILEAD);
  if fd <? 0 then mret (-1) else
  bmod silead_lens (λ b, set_fp_exit 0 (set_bfd fd b)) ;;
  register_fasync_notify fd ;; mret 0.
Definition chipone_dev_init : U Z :=
  fd ← kret (Open DRV_CHIPONE);
  if fd <? 0 then mret (-1) else
  bmod chipone_lens (λ b, set_fp_exit 0 (set_bfd fd b)) ;;
  register_fasync_notify fd ;; mret 0.

(** The three dev_uninit functions *)
Definition backend_uninit (l : lens) : U Z :=
  fd ← bget l _dev_fd;
  if 0 <? fd then
    kdo (Close fd) ;;
    bmod l (λ b, set_fp_exit 1 (set_bfd (-1) b)) ;;
    sem_post l ;; mret 0
  else mret (-1).
Definition goodix_dev_uninit : U Z := backend_uninit goodix_lens.
Definition silead_dev_uninit : U Z := backend_uninit silead_lens.
Definition chipone_dev_uninit : U Z := backend_uninit chipone_lens.

(** The three update functions: the result and the value stored through the
    argument, if any; [state0] is the value of state before the ioctl, the answer
    holds its bytes afterwards, and [publish] is what is made of it. *)
Definition backend_update (l : lens) (req state0 : Z) (publish : Z → Z → Z * Z) : U (option (Z * option Z)) :=
  n ← bget l wk_sem;
  match n with
  | O => mret None
  | S n' =>
      bmod l (set_wk_sem n') ;;
      e ← bget l fp_exit;
      if negb (e =? 0) then mret (Some (-1, None)) else
      fd ← bget l _dev_fd;
      r ← kcall_ (Ioctl fd req state0);
      if rret r <? 0 then mret (Some (-1, Some 0)) else
      let '(ret, v) := publish (rret r) (i32 (le_load (copied 4 r))) in
      mret (Some (ret, Some v))
  end.
Definition goodix_update_finger_state : U (option (Z * option Z)) :=
  backend_update goodix_lens GFX1XM_IOC_FTM 1 (λ ret state, (ret, state)).
Definition one_or_two (ret state : Z) : Z * Z := (0, if state =? 1 then 1 else 2).
Definition silead_update_finger_state : U (option (Z * option Z)) :=
  backend_update silead_lens SILEAD_FINGER_STATE_INFO 0 one_or_two.
Definition chipone_update_finger_state : U (option (Z * option Z)) :=
  backend_update chipone_lens CHIPONE_FINGER_STATE_INFO 0 one_or_two.

(** ** elan_jni.c *)
Definition elan_input_handler : U unit :=
  fd ← kget elan_fd;
  v ← kret (Ioctl fd IOCTL_READ_KEY_STATUS 0);
  kmod (set_finger_state v) ;;
  n ← kget elan_sem; kmod (set_elan_sem (S n)).

Definition elan_fasync_notify : U unit :=
  fd ← kget elan_fd;
  kdo Signal ;;
  pid ← kret Getpid;
  kdo (Fcntl fd "F_SETOWN" pid) ;;
  oflags ← kret (Fcntl fd "F_GETFL" 0);
  kdo (Fcntl fd "F_SETFL" (Z.lor oflags FASYNC)).

Definition elan_dev_init : U Z :=
  fd ← kret (Open ELAN_FP_DEV);
  kmod (set_elan_fd fd) ;;
  if fd <=? 0 then mret (-1) else
  elan_fasync_notify ;; mret 0.

Definition elan_update_finger_state : U (option (Z * option Z)) :=
  n ← kget elan_sem;
  match n with
  | O => mret None
  | S n' => kmod (set_elan_sem n') ;; v ← kget finger_state; mret (Some (0, Some v))
  end.

Definition elan_dev_uninit : U Z :=
  fd ← kget elan_fd;
  if 0 <? fd then kdo (Close fd) ;; kmod (set_elan_fd (-1)) ;; mret 0 else mret (-1).

(** ** The entry points *)
Definition fp_dev_init : U Z :=
  r ← kcall_ (SystemPropertyGet "persist.tinno.fp.qwk");
  let value := text_of (rout r) in
  (if String.eqb value "1" then kmod (set_fp_vendor FP_NATIVE) ;; kmod (set_fp_qwk_enable_flag 1)
   else if String.eqb value "2" then kmod (set_fp_vendor FP_NATIVE) ;; kmod (set_fp_qwk_enable_flag 2)
   else kmod (set_fp_qwk_enable_flag 0)) ;;
  v ← kget fp_vendor;
  (if v =? FP_NATIVE then kdo (PthreadCreate "key_event_monitor_thread") else getFpInfo ;; mret tt) ;;
  v ← kget fp_vendor;
  if v =? VENDOR_GOODIX then goodix_dev_init
  else if v =? VENDOR_ELAN then elan_dev_init
  else if v =? VENDOR_SILEAD then silead_dev_init
  else if v =? VENDOR_CHIPONE then chipone_dev_init
  else if v =? FP_NATIVE then fp_dev_open
  else mret (-1).

Definition fp_dev_uninit : U Z :=
  v ← kget fp_vendor;
  if v =? VENDOR_GOODIX then goodix_dev_uninit
  else if v =? VENDOR_ELAN then elan_dev_uninit
  else if v =? VENDOR_SILEAD then silead_dev_uninit
  else if v =? VENDOR_CHIPONE then chipone_dev_uninit
  else mret (-1).

Definition fp_update_finger_state : U (option (Z * option Z)) :=
  v ← kget fp_vendor;
  if v =? VENDOR_GOODIX then goodix_update_finger_state
  else if v =? VENDOR_ELAN then elan_update_finger_state
  else if v =? VENDOR_SILEAD then silead_update_finger_state
  else if v =? VENDOR_CHIPONE then chipone_update_finger_state
  else if v =? FP_NATIVE then
    r ← fp_native_report_event; mret (match r with Some (z, e) => Some (z, Some e) | None => None end)
  else mret (Some (-1, None)).
End Listener.

(** ** The end of a session *)

(** A back end is a part of the listener of its own. *)
Class BackEnd (l : lens) := {
  view_update b s : view l (update l b s) = b;
  vendor_update b s : fp_vendor (update l b s) = fp_vendor s
}.
#[global] Instance goodix_back_end : BackEnd goodix_lens.
Proof. by split. Qed.
#[global] Instance silead_back_end : BackEnd silead_lens.
Proof. by split. Qed.
#[global] Instance chipone_back_end : BackEnd chipone_lens.
Proof. by split. Qed.

Section Session.
Context `{W : World ucall} (l : lens) `{B : BackEnd l}.

Lemma update_blocks req s0 publish s :
  wk_sem (view l (st s)) = O → backend_update l req s0 publish s = Val (None, s).
Proof. intros Hs. unfold backend_update, bget, kget, mbind, IO_bind. by rewrite Hs. Qed.
Lemma update_ends req s0 publish s n :
  wk_sem (view l (st s)) = S n → fp_exit (view l (st s)) = 1 →
  ewp False (backend_update l req s0 publish) (λ r s', r = Some (-1, None) ∧ calls s' = calls s ∧
    wk_sem (view l (st s')) = n) s.
Proof.
  intros Hs He. unfold backend_update, bget, bmod. do 2 ewp_prim. rewrite Hs. do 4 ewp_prim. cbn [st].
  rewrite view_update. cbn [fp_exit set_wk_sem]. rewrite He. cbn [Z.eqb negb]. apply ewp_ret. cbn [st calls]. by rewrite view_update.
Qed.
Lemma uninit_posts s :
  0 < _dev_fd (view l (st s)) →
  ewp False (backend_uninit l) (λ z s', z = 0 ∧
    (∃ r, calls s' = calls s ++ [(Close (_dev_fd (view l (st s))), r)]) ∧
    fp_vendor (st s') = fp_vendor (st s) ∧
    view l (st s') = mk_backend (-1) 1 (S (wk_sem (view l (st s))))) s.
Proof.
  intros Hd. apply Z.ltb_lt in Hd. unfold backend_uninit, sem_post, bget, bmod. do 2 ewp_prim. rewrite Hd.
  ewp_steps. split_and!; [done|by eexists|by rewrite !vendor_update|by rewrite !view_update].
Qed.
End Session.

(** The back end of a vendor. *)
Definition lens_of (vendor : Z) : option lens :=
  if vendor =? VENDOR_GOODIX then Some goodix_lens
  else if vendor =? VENDOR_SILEAD then Some silead_lens
  else if vendor =? VENDOR_CHIPONE then Some chipone_lens
  else None.

(** What the entry points do for a vendor with such a back end. *)
Lemma entry_points `{W : World ucall} vendor l :
  lens_of vendor = Some l → BackEnd l ∧ ∃ req s0 publish, ∀ s, fp_vendor (st s) = vendor →
    fp_dev_uninit s = backend_uninit l s ∧ fp_update_finger_state s = backend_update l req s0 publish s.
Proof.
  unfold lens_of. intros Hl. repeat case_match; simplify_eq; rewrite ?Z.eqb_eq in *; subst;
    (split; [apply _|]); eexists _, _, _; intros s Hs;
    unfold fp_dev_uninit, fp_update_finger_state, mbind, IO_bind, kget; rewrite Hs; split; reflexivity.
Qed.

(** ** Properties *)

(** Closing the sensor ends the reader: with the device of a Goodix, Silead or
    Chipone sensor open and no event pending, fp_update_finger_state blocks;
    fp_dev_uninit then closes exactly that descriptor and returns 0, and the
    reader comes back with -1 and asks the closed device nothing.  For an Elan
    sensor fp_dev_uninit closes the descriptor as well, but the reader stays
    blocked. *)
Theorem uninit_ends_reader `{W : World ucall} s :
  (∀ l, lens_of (fp_vendor (st s)) = Some l → 0 < _dev_fd (view l (st s)) → wk_sem (view l (st s)) = O →
   fp_update_finger_state s = Val (None, s) ∧
   ∃ s1 s2 r, fp_dev_uninit s = Val (0, s1) ∧ calls s1 = calls s ++ [(Close (_dev_fd (view l (st s))), r)] ∧
     fp_update_finger_state s1 = Val (Some (-1, None), s2) ∧ calls s2 = calls s1) ∧
  (fp_vendor (st s) = VENDOR_ELAN → 0 < elan_fd (st s) → elan_sem (st s) = O →
   fp_update_finger_state s = Val (None, s) ∧
   ∃ s1 r, fp_dev_uninit s = Val (0, s1) ∧ calls s1 = calls s ++ [(Close (elan_fd (st s)), r)] ∧
     fp_update_finger_state s1 = Val (None, s1)).
Proof.
  split.
  - intros l Hl Hd Hs. destruct (entry_points _ _ Hl) as (Hb & req & s0 & publish & He).
    destruct (He s eq_refl) as [-> ->]. split; [by apply update_blocks|].
    pose proof (uninit_posts l s Hd) as Hu. apply ewp_total in Hu as (z & s1 & Hu & -> & (r & Hc) & Hv & Hw).
    destruct (He s1 Hv) as [_ Hup]. pose proof (update_ends l req s0 publish s1 (wk_sem (view l (st s)))) as Hn.
    rewrite Hw in Hn. specialize (Hn eq_refl eq_refl). apply ewp_total in Hn as (z & s2 & Hs2 & -> & Hc2 & _).
    exists s1, s2, r. by rewrite Hup.
  - intros Hv Hd Hs. apply Z.ltb_lt in Hd.
    unfold fp_update_finger_state, fp_dev_uninit, elan_update_finger_state, elan_dev_uninit, kdo, kcall_, mbind, IO_bind, kget, kmod.
    rewrite Hv. cbn [Z.eqb VENDOR_ELAN VENDOR_GOODIX Pos.eqb]. rewrite Hs, Hd. split; [done|]. eexists _, _.
    split_and!; [done|done|].
    cbn [calls st fp_vendor set_elan_fd]. rewrite Hv. cbn [Z.eqb VENDOR_ELAN VENDOR_GOODIX Pos.eqb st elan_sem set_elan_fd]. by rewrite Hs.
Qed.

Definition open_world : World ucall := λ _ _, mk_resp 0 [].
Definition reading (vendor : Z) : rt ucall listener :=
  mk_rt [] (set_fp_vendor vendor (set_silead (mk_backend 9 0 0) (set_elan_fd 8 listener_initial))).
Lemma uninit_ends_reader_witness :
  (∃ s1 s2, fp_dev_uninit (W := open_world) (reading VENDOR_SILEAD) = Val (0, s1) ∧
     fp_update_finger_state (W := open_world) s1 = Val (Some (-1, None), s2)) ∧
  (∃ s1, fp_dev_uninit (W := open_world) (reading VENDOR_ELAN) = Val (0, s1) ∧
     fp_update_finger_state (W := open_world) s1 = Val (None, s1)).
Proof.
  split.
  - destruct (proj1 (@uninit_ends_reader open_world (reading VENDOR_SILEAD)) silead_lens eq_refl eq_refl eq_refl)
      as (_ & s1 & s2 & r & H1 & _ & H2 & _). exists s1, s2. by split.
  - destruct (proj2 (@uninit_ends_reader open_world (reading VENDOR_ELAN)) eq_refl eq_refl eq_refl)
      as (_ & s1 & r & H1 & _ & H2). exists s1. by split.
Defined.
End FpListener.
