(* ===== verification/Chipone.v ===== *)
(** * The Chipone sensor driver
      (src/vendor/tinno/Fingerprint-N/KERNEL/qcom/kernel-3.18/drivers/input/fingerprint/chipone_7152qsee)

    The character device the Chipone HAL talks to: it owns the reset and interrupt
    pins and the interrupt line, wakes the HAL when a finger is detected, passes
    the finger state on to a listener, and reports to the registry driver, whose
    state is part of this driver's.  fpsensor_data_t is [fpsensor_data]; the file
    variables and the registry are [cstate]. *)
From S2P Require Import Prelude DriverRt FpDrv FpDrvQcom FpClient.

Module Chipone.

(** ** Constants *)

(** _IOWR(0xf0, n, unsigned int) and _IOWR(0xf0, 17, char * ) *)
Definition iowr (n : Z) : Z := 0xc004f000 + n.
Definition FPSENSOR_IOC_INIT : Z := iowr 0.
Definition FPSENSOR_IOC_EXIT : Z := iowr 1.
Definition FPSENSOR_IOC_RESET : Z := iowr 2.
Definition FPSENSOR_IOC_ENABLE_IRQ : Z := iowr 3.
Definition FPSENSOR_IOC_DISABLE_IRQ : Z := iowr 4.
Definition FPSENSOR_IOC_GET_INT_VAL : Z := iowr 5.
Definition FPSENSOR_IOC_DISABLE_SPI_CLK : Z := iowr 6.
Definition FPSENSOR_IOC_ENABLE_SPI_CLK : Z := iowr 7.
Definition FPSENSOR_IOC_ENABLE_POWER : Z := iowr 8.
Definition FPSENSOR_IOC_DISABLE_POWER : Z := iowr 9.
Definition FPSENSOR_IOC_ENTER_SLEEP_MODE : Z := iowr 11.
Definition FPSENSOR_IOC_REMOVE : Z := iowr 12.
Definition FPSENSOR_IOC_CANCEL_WAIT : Z := iowr 13.
Definition FPSENSOR_IOC_SET_DEV_INFO : Z := iowr 14.
Definition FPSENSOR_IOC_FTM_SET_FINGER_STATE : Z := iowr 15.
Definition FPSENSOR_IOC_FTM_GET_FINGER_STATE : Z := iowr 16.
Definition FPSENSOR_IOC_RELEASE_VERSION : Z := 0xc008f011.
Definition FPSENSOR_MAX_VER_BUF_LEN : nat := 64.
Definition FPSENSOR_DEV_INFO : string := "chipone_fp".

Definition POLLIN : Z := 0x1.
Definition POLLERR : Z := 0x8.
Definition POLLRDNORM : Z := 0x40.
Definition EFAULT : Z := 14.
Definition ENOMEM : Z := 12.
(** MKDEV(FPSENSOR_DEV_MAJOR, 0) *)
Definition dev_no : Z := Z.shiftl 255 20.

(** ** State *)
Record fpsensor_data := mk_fpsensor {
  devno : Z;
  class : Z;
  users : Z;
  device_available : Z;
  probe_finish : Z;
  irq_count : Z;
  sig_count : Z;
  is_sleep_mode : Z;
  RcvIRQ : Z;
  irq : Z;
  irq_gpio : Z;
  reset_gpio : Z;
  power_gpio : Z;
  cancel : Z
}.
Definition set_devno v s := mk_fpsensor v (class s) (users s) (device_available s) (probe_finish s) (irq_count s) (sig_count s) (is_sleep_mode s) (RcvIRQ s) (irq s) (irq_gpio s) (reset_gpio s) (power_gpio s) (cancel s).
Definition set_class v s := mk_fpsensor (devno s) v (users s) (device_available s) (probe_finish s) (irq_count s) (sig_count s) (is_sleep_mode s) (RcvIRQ s) (irq s) (irq_gpio s) (reset_gpio s) (power_gpio s) (cancel s).
Definition set_users v s := mk_fpsensor (devno s) (class s) v (device_available s) (probe_finish s) (irq_count s) (sig_count s) (is_sleep_mode s) (RcvIRQ s) (irq s) (irq_gpio s) (reset_gpio s) (power_gpio s) (cancel s).
Definition set_device_available v s := mk_fpsensor (devno s) (class s) (users s) v (probe_finish s) (irq_count s) (sig_count s) (is_sleep_mode s) (RcvIRQ s) (irq s) (irq_gpio s) (reset_gpio s) (power_gpio s) (cancel s).
Definition set_probe_finish v s := mk_fpsensor (devno s) (class s) (users s) (device_available s) v (irq_count s) (sig_count s) (is_sleep_mode s) (RcvIRQ s) (irq s) (irq_gpio s) (reset_gpio s) (power_gpio s) (cancel s).
Definition set_irq_count v s := mk_fpsensor (devno s) (class s) (users s) (device_available s) (probe_finish s) v (sig_count s) (is_sleep_mode s) (RcvIRQ s) (irq s) (irq_gpio s) (reset_gpio s) (power_gpio s) (cancel s).
Definition set_sig_count v s := mk_fpsensor (devno s) (class s) (users s) (device_available s) (probe_finish s) (irq_count s) v (is_sleep_mode s) (RcvIRQ s) (irq s) (irq_gpio s) (reset_gpio s) (power_gpio s) (cancel s).
Definition set_is_sleep_mode v s := mk_fpsensor (devno s) (class s) (users s) (device_available s) (probe_finish s) (irq_count s) (sig_count s) v (RcvIRQ s) (irq s) (irq_gpio s) (reset_gpio s) (power_gpio s) (cancel s).
Definition set_RcvIRQ v s := mk_fpsensor (devno s) (class s) (users s) (device_available s) (probe_finish s) (irq_count s) (sig_count s) (is_sleep_mode s) v (irq s) (irq_gpio s) (reset_gpio s) (power_gpio s) (cancel s).
Definition set_irq v s := mk_fpsensor (devno s) (class s) (users s) (device_available s) (probe_finish s) (irq_count s) (sig_count s) (is_sleep_mode s) (RcvIRQ s) v (irq_gpio s) (reset_gpio s) (power_gpio s) (cancel s).
Definition set_irq_gpio v s := mk_fpsensor (devno s) (class s) (users s) (device_available s) (probe_finish s) (irq_count s) (sig_count s) (is_sleep_mode s) (RcvIRQ s) (irq s) v (reset_gpio s) (power_gpio s) (cancel s).
Definition set_reset_gpio v s := mk_fpsensor (devno s) (class s) (users s) (device_available s) (probe_finish s) (irq_count s) (sig_count s) (is_sleep_mode s) (RcvIRQ s) (irq s) (irq_gpio s) v (power_gpio s) (cancel s).
Definition set_power_gpio v s := mk_fpsensor (devno s) (class s) (users s) (device_available s) (probe_finish s) (irq_count s) (sig_count s) (is_sleep_mode s) (RcvIRQ s) (irq s) (irq_gpio s) (reset_gpio s) v (cancel s).
Definition set_cancel v s := mk_fpsensor (devno s) (class s) (users s) (device_available s) (probe_finish s) (irq_count s) (sig_count s) (is_sleep_mode s) (RcvIRQ s) (irq s) (irq_gpio s) (reset_gpio s) (power_gpio s) v.
(** kzalloc, and the fields the probe sets. *)
Definition fresh_data : fpsensor_data := mk_fpsensor 0 0 0 0 0 0 0 0 0 0 0 0 0 0.

(** [g_fpsensor]: is the pointer set?  [dev]: the object it points to, [None]
    before its allocation and after it is freed. *)
Record cstate := mk_cstate {
  reg : FpDrvQcom.fq_state;
  g_fpsensor : bool;
  dev : option fpsensor_data;
  request_irq_ret : Z;
  ftm_finger_status : Z;
  fasync_queue : list Z;
  fpsensor_ver_buf : list Z
}.
Definition set_reg v s := mk_cstate v (g_fpsensor s) (dev s) (request_irq_ret s) (ftm_finger_status s) (fasync_queue s) (fpsensor_ver_buf s).
Definition set_g_fpsensor v s := mk_cstate (reg s) v (dev s) (request_irq_ret s) (ftm_finger_status s) (fasync_queue s) (fpsensor_ver_buf s).
Definition set_dev v s := mk_cstate (reg s) (g_fpsensor s) v (request_irq_ret s) (ftm_finger_status s) (fasync_queue s) (fpsensor_ver_buf s).
Definition set_request_irq_ret v s := mk_cstate (reg s) (g_fpsensor s) (dev s) v (ftm_finger_status s) (fasync_queue s) (fpsensor_ver_buf s).
Definition set_ftm_finger_status v s := mk_cstate (reg s) (g_fpsensor s) (dev s) (request_irq_ret s) v (fasync_queue s) (fpsensor_ver_buf s).
Definition set_fasync_queue v s := mk_cstate (reg s) (g_fpsensor s) (dev s) (request_irq_ret s) (ftm_finger_status s) v (fpsensor_ver_buf s).
Definition set_fpsensor_ver_buf v s := mk_cstate (reg s) (g_fpsensor s) (dev s) (request_irq_ret s) (ftm_finger_status s) (fasync_queue s) v.
Definition chipone_initial (r : FpDrvQcom.fq_state) : cstate :=
  mk_cstate r false None 0 0 [] (repeat 0 FPSENSOR_MAX_VER_BUF_LEN).

#[global] Instance cstate_registry : HasRegistry cstate.
Proof. refine {| registry_of := reg; put_registry := set_reg |}. done. Defined.

#[global] Instance cstate_device : HasDevice cstate fpsensor_data.
Proof. refine {| dev_of := dev; put_dev := set_dev |}. done. Defined.

Abbreviation K := (IO kcall cstate).

Section Chipone.
Context `{QK : QcomKernel} `{W : World kcall} `{T : Clock}.

(** A use of g_fpsensor. *)
Definition glob : K unit := kget g_fpsensor ≫= λ b : bool, if b then mret tt else kub.

(** ** Pins and interrupts *)
Definition setRcvIRQ (val : Z) : K unit := glob ;; put (set_RcvIRQ val).

Definition free_pin (field : fpsensor_data → Z) (clear : fpsensor_data → fpsensor_data) : K unit :=
  g ← get field; kwhen (negb (g =? 0)) (kdo (GpioFree g) ;; put clear).
Definition fpsensor_gpio_free : K unit :=
  r ← kget request_irq_ret;
  if negb (r =? 0) then mret tt else
  free_pin irq_gpio (set_irq_gpio 0) ;;
  free_pin reset_gpio (set_reset_gpio 0) ;;
  free_pin power_gpio (set_power_gpio 0).

Definition fpsensor_irq_gpio_cfg : K unit :=
  g ← get irq_gpio;
  error ← kret (GpioDirectionInput g);
  if negb (error =? 0) then mret tt else
  n ← kret (GpioToIrq g);
  put (set_irq n).

Definition fpsensor_parse_dt : K Z :=
  g ← kret (OfGetNamedGpio "qcom,reset-gpio");
  put (set_reset_gpio g) ;;
  if g <? 0 then mret g else
  i ← kret (OfGetNamedGpio "qcom,irq-gpio");
  put (set_irq_gpio i) ;;
  if i <? 0 then mret i else
  ret ← kret (GpioRequest i "chipone-irq-gpio");
  if ret <? 0 then mret ret else
  ret ← kret (GpioRequest g "chipone-rst-gpio");
  if ret <? 0 then mret ret else mret 0.

Definition fpsensor_hw_reset (delay : Z) : K unit :=
  glob ;;
  g ← get reset_gpio;
  kdo (GpioSetValue g 1) ;; kdo (Udelay 100) ;;
  kdo (GpioSetValue g 0) ;; kdo (Udelay 1000) ;;
  kdo (GpioSetValue g 1) ;;
  kwhen (negb (delay =? 0)) (kdo (Udelay delay)).

Definition fpsensor_get_gpio_dts_info : K Z :=
  r ← fpsensor_parse_dt;
  kmod (set_request_irq_ret r) ;;
  g ← get reset_gpio;
  kdo (GpioDirectionOutput g 1) ;;
  fpsensor_hw_reset 1250 ;;
  mret 0.

(** The clock and the supply are not switched in this version. *)
Definition fpsensor_spi_clk_enable (bonoff : Z) : K unit := mret tt.
Definition fpsensor_hw_power_enable (onoff : Z) : K unit := mret tt.

Definition fpsensor_enable_irq : K unit :=
  setRcvIRQ 0 ;;
  c ← get irq_count;
  kwhen (c =? 0) (n ← get irq; kdo (EnableIrq n) ;; put (set_irq_count 1)).

Definition fpsensor_disable_irq : K unit :=
  a ← get device_available;
  kwhen (negb (a =? 0))
    (c ← get irq_count;
     kwhen (negb (c =? 0))
       (n ← get irq;
        kwhen (negb (n =? 0)) (kdo (DisableIrq n)) ;;
        put (set_irq_count 0))) ;;
  setRcvIRQ 0.

Definition fpsensor_irq : K unit :=
  _ ← kderef dev;
  kdo (WakeLockTimeout "fpsensor_ttw_wl" 1000) ;;
  setRcvIRQ 1 ;;
  kdo (WakeUp "wq_irq_return") ;;
  c ← get sig_count; put (set_sig_count (u8 (c + 1))).

(** ** The character device *)
Definition fpsensor_dev_setup : K Z :=
  ret ← kret RegisterChrdevRegion;
  if ret <? 0 then mret ret else
  put (set_devno dev_no) ;;
  ret ← kret CdevAdd;
  if negb (ret =? 0) then kdo UnregisterChrdevRegion ;; mret ret else
  c ← kret ClassCreate;
  put (set_class c) ;;
  if c <? 0 then kdo CdevDel ;; kdo UnregisterChrdevRegion ;; mret c else
  d ← kret DeviceCreate;
  if d <? 0 then
    kdo ClassDestroy ;; put (set_class 0) ;; kdo CdevDel ;; kdo UnregisterChrdevRegion ;; mret d
  else mret ret.

Definition fpsensor_dev_cleanup : K unit :=
  _ ← kderef dev;
  kdo CdevDel ;; kdo UnregisterChrdevRegion ;; kdo DeviceDestroy ;; kdo ClassDestroy.

(** free_irq and the end of the session, in EXIT and REMOVE *)
Definition release_line : K unit :=
  fpsensor_disable_irq ;;
  n ← get irq;
  kwhen (negb (n =? 0)) (kdo (FreeIrq n) ;; put (set_irq_count 0)) ;;
  put (set_device_available 0) ;;
  fpsensor_gpio_free.

Definition ioctl_init : K Z :=
  retval ← fpsensor_get_gpio_dts_info;
  if negb (retval =? 0) then mret retval else
  fpsensor_irq_gpio_cfg ;;
  glob ;;
  n ← get irq;
  retval ← kret (RequestIrq n);
  kdo (EnableIrqWake n) ;;
  put (set_device_available 1) ;;
  put (set_irq_count 0) ;;
  put (set_irq_count 1) ;;
  fpsensor_disable_irq ;;
  put (set_sig_count 0) ;;
  mret retval.

Definition ioctl_set_finger_state : K Z :=
  kmod (set_ftm_finger_status 0) ;;
  r ← kcall_ (CopyFromUser 4);
  kmod (set_ftm_finger_status (le_load (copied 4 r))) ;;
  if negb (rret r =? 0) then mret (- EFAULT) else
  v ← kget ftm_finger_status;
  FP_EVT_REPORT (if v =? 1 then 1 else 2) ;;
  q ← kget fasync_queue;
  kwhen (negb (bool_decide (q = []))) (kdo KillFasync) ;;
  mret 0.

(** The log prints the buffer as a string before it is registered. *)
Definition ioctl_release_version : K Z :=
  r ← kcall_ (CopyFromUser FPSENSOR_MAX_VER_BUF_LEN);
  kmod (set_fpsensor_ver_buf (copied FPSENSOR_MAX_VER_BUF_LEN r)) ;;
  if negb (rret r =? 0) then mret (- EFAULT) else
  b ← kget fpsensor_ver_buf;
  t ← klift (cstr b);
  in_registry (FpDrvQcom.full_fp_chip_info (Some t)) ;;
  mret 0.

Definition ioctl_copy_out (v : Z) : K Z :=
  e ← kret (CopyToUser (le_store 4 v));
  if negb (e =? 0) then mret (- EFAULT) else mret 0.

Definition fpsensor_ioctl (cmd : Z) : K Z :=
  put (set_cancel 0) ;;
  if cmd =? FPSENSOR_IOC_INIT then ioctl_init
  else if cmd =? FPSENSOR_IOC_EXIT then release_line ;; mret 0
  else if cmd =? FPSENSOR_IOC_RESET then fpsensor_hw_reset 1250 ;; mret 0
  else if cmd =? FPSENSOR_IOC_ENABLE_IRQ then fpsensor_enable_irq ;; mret 0
  else if cmd =? FPSENSOR_IOC_DISABLE_IRQ then fpsensor_disable_irq ;; mret 0
  else if cmd =? FPSENSOR_IOC_GET_INT_VAL then
    g ← get irq_gpio; v ← kret (GpioGetValue g); ioctl_copy_out v
  else if cmd =? FPSENSOR_IOC_ENABLE_SPI_CLK then fpsensor_spi_clk_enable 1 ;; mret 0
  else if cmd =? FPSENSOR_IOC_DISABLE_SPI_CLK then fpsensor_spi_clk_enable 0 ;; mret 0
  else if cmd =? FPSENSOR_IOC_ENABLE_POWER then fpsensor_hw_power_enable 1 ;; mret 0
  else if cmd =? FPSENSOR_IOC_DISABLE_POWER then fpsensor_hw_power_enable 0 ;; mret 0
  else if cmd =? FPSENSOR_IOC_ENTER_SLEEP_MODE then put (set_is_sleep_mode 1) ;; mret 0
  else if cmd =? FPSENSOR_IOC_REMOVE then release_line ;; fpsensor_dev_cleanup ;; mret 0
  else if cmd =? FPSENSOR_IOC_CANCEL_WAIT then
    kdo (WakeUp "wq_irq_return") ;; put (set_cancel 1) ;; mret 0
  else if cmd =? FPSENSOR_IOC_SET_DEV_INFO then
    in_registry (FpDrvQcom.full_fp_chip_name (Some FPSENSOR_DEV_INFO)) ;; mret 0
  else if cmd =? FPSENSOR_IOC_FTM_SET_FINGER_STATE then ioctl_set_finger_state
  else if cmd =? FPSENSOR_IOC_FTM_GET_FINGER_STATE then
    v ← kget ftm_finger_status; ioctl_copy_out v
  else if cmd =? FPSENSOR_IOC_RELEASE_VERSION then ioctl_release_version
  else mret 0.

Definition fpsensor_compat_ioctl (cmd : Z) : K Z := fpsensor_ioctl cmd.

(** poll_wait only queues the caller. *)
Definition fpsensor_poll : K Z :=
  glob ;;
  c ← get cancel;
  if c =? 1 then put (set_cancel 0) ;; mret POLLERR else
  r ← get RcvIRQ;
  if negb (r =? 0) then
    FP_EVT_REPORT FpDrvQcom.HW_EVENT_WAKEUP ;; mret (Z.lor POLLIN POLLRDNORM)
  else mret 0.

Definition fpsensor_open : K Z :=
  u ← get users; put (set_users (u32 (u + 1))) ;;
  put (set_device_available 1) ;; mret 0.

Definition fpsensor_release : K Z :=
  u ← get users; put (set_users (u32 (u - 1))) ;;
  u ← get users;
  kwhen (u <=? 0) fpsensor_disable_irq ;;
  put (set_device_available 0) ;; mret 0.

Definition fpsensor_read : K Z := mret (- EFAULT).
Definition fpsensor_write : K Z := mret (- EFAULT).

Definition fpsensor_fasync (filp : Z) (on : bool) : K Z :=
  q ← kget fasync_queue;
  let '(r, q) := fasync_helper filp on q in
  kmod (set_fasync_queue q) ;; mret r.

(** ** Probe and remove *)
Definition fpsensor_probe : K Z :=
  v ← in_registry (FpDrvQcom.read_fpId_pin_value "qcom,fpid-gpio");
  if v =? FpDrv.LOW then mret (-1) else
  p ← kret (Kzalloc "fpsensor");
  if p <=? 0 then mret (- ENOMEM) else
  kmod (set_dev (Some fresh_data)) ;; kmod (set_g_fpsensor true) ;;
  status ← fpsensor_dev_setup;
  if negb (status =? 0) then
    kdo (Kfree "fpsensor") ;; kmod (set_dev None) ;; mret status
  else
  kdo (WakeLockInit "fpsensor_ttw_wl") ;;
  put (set_probe_finish 1) ;; put (set_is_sleep_mode 0) ;; put (set_device_available 1) ;;
  mret status.

Definition fpsensor_remove : K Z :=
  fpsensor_spi_clk_enable 0 ;;
  glob ;;
  fpsensor_disable_irq ;;
  n ← get irq;
  kwhen (negb (n =? 0)) (kdo (FreeIrq n)) ;;
  fpsensor_gpio_free ;;
  fpsensor_dev_cleanup ;;
  kdo (WakeLockDestroy "fpsensor_ttw_wl") ;;
  kdo (Kfree "fpsensor") ;; kmod (set_dev None) ;;
  kmod (set_g_fpsensor false) ;; mret 0.

Definition fpsensor_suspend : K Z := mret 0.
Definition fpsensor_resume : K Z := mret 0.
Definition fpsensor_init : K Z := kret PlatformDriverRegister.
Definition fpsensor_exit : K unit := kdo PlatformDriverUnregister.
End Chipone.

(** ** Reasoning about the device *)
(** Steps over the operations on a live device, with the answers of the kernel kept
    ([dev_steps]) or forgotten ([dev_any]). *)
Ltac dev_prim :=
  lazymatch goal with
  | |- ewp _ (get _) _ _ => eapply ewp_get_dev; [cbn [st dev set_dev]; reflexivity || eassumption|cbn beta]
  | |- ewp _ (put _) _ _ => eapply ewp_put_dev; [cbn [st dev set_dev]; reflexivity || eassumption|cbn beta]
  | |- _ => ewp_prim
  end.
Ltac dev_steps := repeat dev_prim.
Ltac dev_any_prim :=
  lazymatch goal with
  | |- ewp _ (kcall_ _) _ _ => apply ewp_any; intros ?; cbn [st calls]
  | |- ewp _ (get _) _ _ => eapply ewp_get_dev; [reflexivity|cbn beta]
  | |- ewp _ (put _) _ _ => eapply ewp_put_dev; [reflexivity|cbn [st calls set_dev dev]]
  | |- _ => ewp_prim; cbn [st calls set_dev dev]
  end.
Ltac dev_any := repeat dev_any_prim.

(** ** Histories of the device *)
Inductive cop :=
| Open | Release | Ioctl (cmd : Z) | Poll | Interrupt | Fasync (filp : Z) (on : bool).

Section Histories.
Context `{QK : QcomKernel} `{W : World kcall} `{T : Clock}.

Definition apply_cop (o : cop) : K Z :=
  match o with
  | Open => fpsensor_open
  | Release => fpsensor_release
  | Ioctl cmd => fpsensor_ioctl cmd
  | Poll => fpsensor_poll
  | Interrupt => fpsensor_irq ;; mret 0
  | Fasync filp on => fpsensor_fasync filp on
  end.
Fixpoint run_cops (ops : list cop) : K unit :=
  match ops with [] => mret tt | o :: ops' => apply_cop o ;; run_cops ops' end.

(** *** The sessions of the HAL

    INIT opens a session and EXIT closes it; ENABLE_IRQ belongs into a session;
    REMOVE is left to the unloading of the driver. *)
Inductive session := Idle | Active.
Definition session_step (x : session) (o : cop) : option session :=
  match o with
  | Ioctl cmd =>
      if cmd =? FPSENSOR_IOC_INIT then match x with Idle => Some Active | Active => None end
      else if cmd =? FPSENSOR_IOC_EXIT then match x with Active => Some Idle | Idle => None end
      else if cmd =? FPSENSOR_IOC_ENABLE_IRQ then match x with Active => Some Active | Idle => None end
      else if cmd =? FPSENSOR_IOC_REMOVE then None
      else Some x
  | _ => Some x
  end.
Fixpoint session_run (x : session) (ops : list cop) : option session :=
  match ops with [] => Some x | o :: ops' => session_step x o ≫= λ x, session_run x ops' end.

(** *** The interrupt line

    A kernel that grants the line of the sensor's pin when it is free, and a HAL
    that terminates the version text. *)
Record cooperative (irqn : Z) : Prop := mk_cooperative {
  c_input : ∀ tr g, rret (answer tr (GpioDirectionInput g)) = 0;
  c_to_irq : ∀ tr g, rret (answer tr (GpioToIrq g)) = irqn;
  c_irq : 0 < irqn;
  c_grant : ∀ tr, line_of irqn tr = Some LFree → rret (answer tr (RequestIrq irqn)) = 0;
  c_version : ∀ tr, cstr (copied FPSENSOR_MAX_VER_BUF_LEN (answer tr (CopyFromUser FPSENSOR_MAX_VER_BUF_LEN))) ≠ UB
}.

Context (irqn : Z) (Hco : cooperative irqn).
Definition alive (s : rt kcall cstate) : Prop :=
  g_fpsensor (st s) = true ∧ is_Some (dev (st s)).
(** What the interrupt protocol is about. *)
Definition irq_view (s : rt kcall cstate) : option line * option (Z * Z) :=
  (line_of irqn (calls s), (λ d, (irq_count d, irq d)) <$> dev (st s)).

Abbreviation quiet := (frames alive irq_view).

Lemma quiet_call c : irq_of c = None → quiet (kcall_ c).
Proof.
  intros Hc s [Hg Hd]. apply ewp_call. cbn. split; [done|]. unfold irq_view. cbn.
  rewrite line_of_quiet by congruence. done.
Qed.
Lemma quiet_get {A} (f : fpsensor_data → A) : quiet (get f).
Proof.
  intros s [Hg [d Hd]]. apply (ewp_get_dev _ _ _ _ d); [done|]. split; [|done]. split; [done|]. by exists d.
Qed.
Lemma quiet_put f : (∀ d, irq_count (f d) = irq_count d) → (∀ d, irq (f d) = irq d) → quiet (put f).
Proof.
  intros Hc Hi s [Hg [d Hd]]. apply (ewp_put_dev _ _ _ _ d); [done|]. split; [split; [done|by eexists]|].
  unfold irq_view. cbn. by rewrite Hd, Hc, Hi.
Qed.
Lemma quiet_glob : quiet glob.
Proof. intros s [Hg Hd]. unfold glob. apply ewp_bind, ewp_get. rewrite Hg. by apply ewp_ret. Qed.
Lemma quiet_mod f :
  (∀ s, g_fpsensor (f s) = g_fpsensor s) → (∀ s, dev (f s) = dev s) → quiet (kmod f).
Proof.
  intros Hg Hd s Hs. apply ewp_mod. unfold alive, irq_view. cbn. by rewrite Hg, Hd.
Qed.
Lemma quiet_report key : quiet (FP_EVT_REPORT key).
Proof. by intros s Hs. Qed.
Lemma quiet_registry f : (∀ r, f r ≠ UB) → quiet (in_registry f).
Proof.
  intros Hf. unfold in_registry. apply frames_bind; [apply frames_get|]. intros q.
  apply frames_bind.
  - intros s Hs. apply ewp_lift; [done|]. by intros ?%Hf.
  - intros [v r]. apply frames_bind; [|intros ?; apply frames_ret]. by apply quiet_mod.
Qed.
Lemma quiet_lift {A} (o : outcome A) : o ≠ UB → quiet (klift o).
Proof. intros Ho s Hs. by apply ewp_lift. Qed.

Ltac quiet_prim :=
  first
    [ frames_step | apply quiet_call; reflexivity | apply quiet_get | apply quiet_glob
    | apply quiet_report | apply quiet_put; reflexivity | apply quiet_mod; reflexivity
    | progress unfold kret, kdo, setRcvIRQ, free_pin ].
Ltac quiet_tac := repeat quiet_prim.

Lemma quiet_set_rcv v : quiet (setRcvIRQ v).
Proof. quiet_tac. Qed.
Lemma quiet_hw_reset n : quiet (fpsensor_hw_reset n).
Proof. unfold fpsensor_hw_reset. quiet_tac. Qed.
Lemma quiet_dts_info : quiet fpsensor_get_gpio_dts_info.
Proof.
  unfold fpsensor_get_gpio_dts_info, fpsensor_parse_dt. quiet_tac. apply quiet_hw_reset.
Qed.
Lemma quiet_gpio_free : quiet fpsensor_gpio_free.
Proof. unfold fpsensor_gpio_free. quiet_tac. Qed.

(** In a session the depth of the line is the complement of irq_count; between
    sessions the line is free. *)
Definition line_inv (x : session) (s : rt kcall cstate) : Prop :=
  alive s ∧ ∃ l c n, irq_view s = (Some l, Some (c, n)) ∧
    match x with
    | Idle => l = LFree ∧ c = 0
    | Active => n = irqn ∧ ((c = 0 ∧ l = LTaken 1) ∨ (c = 1 ∧ l = LTaken 0))
    end.

Lemma line_inv_keep {A} (m : K A) x s : quiet m → line_inv x s → ewp False m (λ _ s', line_inv x s') s.
Proof.
  intros Hm (Ha & Hv). eapply ewp_mono; [|by apply Hm]. intros a s' [Ha' Hv'].
  split; [done|]. by rewrite Hv'.
Qed.

(** The device of an alive state, with what the view says about it. *)
Lemma line_inv_dev x s :
  line_inv x s → ∃ d, g_fpsensor (st s) = true ∧ dev (st s) = Some d ∧
    match x with
    | Idle => line_of irqn (calls s) = Some LFree ∧ irq_count d = 0
    | Active => irq d = irqn ∧
        ((irq_count d = 0 ∧ line_of irqn (calls s) = Some (LTaken 1)) ∨
         (irq_count d = 1 ∧ line_of irqn (calls s) = Some (LTaken 0)))
    end.
Proof.
  intros ([Hg [d Hd]] & l & c & n & Hv & Hx). exists d. split_and!; [done|done|].
  unfold irq_view in Hv. rewrite Hd in Hv. injection Hv as -> -> ->.
  destruct x; [by destruct Hx as [-> ->]|]. destruct Hx as [-> [[-> ->]|[-> ->]]]; eauto.
Qed.
Lemma line_inv_intro x s d :
  g_fpsensor (st s) = true → dev (st s) = Some d →
  match x with
  | Idle => line_of irqn (calls s) = Some LFree ∧ irq_count d = 0
  | Active => irq d = irqn ∧
      ((irq_count d = 0 ∧ line_of irqn (calls s) = Some (LTaken 1)) ∨
       (irq_count d = 1 ∧ line_of irqn (calls s) = Some (LTaken 0)))
  end → line_inv x s.
Proof.
  intros Hg Hd Hx. split; [split; [done|by exists d]|]. unfold irq_view. rewrite Hd. cbn.
  destruct x; [destruct Hx as [-> ->]; eexists _, _, _; eauto|].
  destruct Hx as [-> [[-> ->]|[-> ->]]]; eexists _, _, _; eauto.
Qed.

Lemma enable_line s : line_inv Active s → ewp False fpsensor_enable_irq (λ _ s', line_inv Active s') s.
Proof.
  intros Hi. unfold fpsensor_enable_irq. apply (ewp_seq _ (line_inv Active)).
  { apply line_inv_keep; [quiet_tac|done]. }
  intros _ s1 Hi1. destruct (line_inv_dev _ _ Hi1) as (d & Hg & Hd & Hn & Hc).
  dev_steps; [|done]. eapply line_inv_intro; [done|done|]. cbn. split; [done|]. right. split; [done|].
  rewrite line_of_snoc. destruct Hc as [[_ ->]|[Hc _]]; [|by rewrite Hc in *].
  cbn. by rewrite Hn, Z.eqb_refl.
Qed.

Lemma disable_line x s : line_inv x s → ewp False fpsensor_disable_irq (λ _ s', line_inv x s') s.
Proof.
  intros Hi. unfold fpsensor_disable_irq. destruct (line_inv_dev _ _ Hi) as (d & Hg & Hd & Hx).
  apply ewp_bind. eapply ewp_get_dev; [done|]. apply (ewp_seq _ (line_inv x)).
  2: { intros _ s1 Hi1. apply line_inv_keep; [quiet_tac|done]. }
  dev_steps; try done; zbool; cbn [calls st]; (eapply line_inv_intro; [done|done|]); cbn;
    (destruct x; [destruct Hx; lia|]); destruct Hx as [Hn [[? _]|[_ Hl]]]; try lia.
  - split; [done|]. left. split; [done|]. rewrite line_of_snoc, Hl. cbn. by rewrite Hn, Z.eqb_refl.
  - pose proof (c_irq _ Hco). lia.
Qed.

Lemma release_line_ok s : line_inv Active s → ewp False release_line (λ _ s', line_inv Idle s') s.
Proof.
  intros Hi. unfold release_line. pose proof (c_irq _ Hco) as Hpos.
  apply (ewp_seq _ (line_inv Active)); [by apply disable_line|]. intros _ s1 Hi1.
  destruct (line_inv_dev _ _ Hi1) as (d & Hg & Hd & Hn & Hc).
  apply ewp_bind. eapply ewp_get_dev; [done|].
  apply (ewp_seq _ (line_inv Idle)).
  - dev_steps; zbool; [|lia]. eapply line_inv_intro; [done|done|]. cbn. split; [|done].
    rewrite line_of_snoc. destruct Hc as [[_ ->]|[_ ->]]; cbn; by rewrite Hn, Z.eqb_refl.
  - intros _ s2 Hi2. apply line_inv_keep; [|done]. apply frames_bind; [quiet_tac|].
    intros _. apply quiet_gpio_free.
Qed.

Lemma irq_gpio_cfg_ok s :
  line_inv Idle s →
  ewp False fpsensor_irq_gpio_cfg
    (λ _ s', g_fpsensor (st s') = true ∧ line_of irqn (calls s') = Some LFree ∧
       ∃ d, dev (st s') = Some d ∧ irq d = irqn) s.
Proof.
  intros Hi. destruct (line_inv_dev _ _ Hi) as (d & Hg & Hd & Hl & Hc).
  unfold fpsensor_irq_gpio_cfg. dev_steps; rewrite (c_input _ Hco) in *; [done|].
  split_and!; [done| |eexists; split; [done|apply (c_to_irq _ Hco)]].
  cbn. by rewrite !line_of_quiet.
Qed.

Lemma dts_info_zero : returns (λ r, r = 0) fpsensor_get_gpio_dts_info.
Proof. do 5 (apply returns_bind; intros ?). by apply returns_ret. Qed.

Lemma ioctl_init_ok s : line_inv Idle s → ewp False ioctl_init (λ _ s', line_inv Active s') s.
Proof.
  intros Hi. unfold ioctl_init. apply ewp_bind. eapply ewp_mono.
  2: { apply (ewp_returns _ _ _ (λ _ s', line_inv Idle s') _ dts_info_zero).
       apply line_inv_keep; [apply quiet_dts_info|done]. }
  intros r s1 [-> Hi1]. cbn [Z.eqb negb]. eapply ewp_bind, ewp_mono; [|by apply irq_gpio_cfg_ok].
  intros _ s2 (Hg & Hl & d & Hd & Hn). cbn beta. unfold glob.
  apply ewp_bind, ewp_bind, ewp_get. rewrite Hg. dev_steps. cbn [st].
  apply (ewp_cut _ (line_inv Active)).
  - apply disable_line. eapply line_inv_intro; [done|done|]. cbn. split; [done|]. right. split; [done|].
    rewrite line_of_quiet, line_of_snoc, Hl, Hn by done. cbn.
    by rewrite Z.eqb_refl, (c_grant _ Hco).
  - intros _ s3 Hi3. apply line_inv_keep; [quiet_tac|done].
Qed.

(** Every other operation leaves the protocol alone. *)
Lemma chip_info_Val t r : (String.length t < FpDrv.NAME_SIZE)%nat → FpDrvQcom.full_fp_chip_info (Some t) r ≠ UB.
Proof.
  intros Ht. cbn. unfold FpDrv.strcpy. rewrite (proj2 (Nat.ltb_lt _ _)) by done. by destruct (_ =? 1).
Qed.
Lemma chip_name_Val t r : (String.length t < FpDrv.NAME_SIZE)%nat → FpDrvQcom.full_fp_chip_name (Some t) r ≠ UB.
Proof.
  intros Ht. cbn. unfold FpDrv.strcpy. rewrite (proj2 (Nat.ltb_lt _ _)) by done. by destruct (_ =? 1).
Qed.

Lemma quiet_release_version : quiet ioctl_release_version.
Proof.
  unfold ioctl_release_version. intros s Ha. apply ewp_bind, ewp_call. apply ewp_bind, ewp_mod.
  set (r := answer _ _). assert (Hc : cstr (copied FPSENSOR_MAX_VER_BUF_LEN r) ≠ UB) by apply (c_version _ Hco).
  destruct (negb (rret r =? 0)); [apply ewp_ret; cbn; split; [done|]; unfold irq_view; cbn; by rewrite line_of_quiet|].
  apply ewp_bind, ewp_get. cbn [st fpsensor_ver_buf set_fpsensor_ver_buf].
  apply ewp_bind, ewp_lift; [|done]. intros t Ht.
  eapply ewp_mono; [|apply (frames_bind alive irq_view (in_registry (FpDrvQcom.full_fp_chip_info (Some t))) (λ _, mret 0))].
  - intros z s' [Ha' Hv']. split; [done|]. rewrite Hv'. unfold irq_view. cbn. by rewrite line_of_quiet.
  - apply quiet_registry. intros x. apply chip_info_Val. apply cstr_length in Ht. by rewrite length_copied in Ht.
  - intros _. apply frames_ret.
  - done.
Qed.

Lemma quiet_set_finger_state : quiet ioctl_set_finger_state.
Proof. unfold ioctl_set_finger_state. quiet_tac. Qed.

Lemma ioctl_ok x x' cmd s :
  session_step x (Ioctl cmd) = Some x' → line_inv x s → ewp False (fpsensor_ioctl cmd) (λ _ s', line_inv x' s') s.
Proof.
  intros Hx Hi. unfold fpsensor_ioctl.
  apply (ewp_seq _ (line_inv x)); [apply line_inv_keep; [quiet_tac|done]|]. intros _ s1 Hi1.
  cbn [session_step] in Hx.
  destruct (cmd =? FPSENSOR_IOC_INIT); [destruct x; simplify_eq; by apply ioctl_init_ok|].
  destruct (cmd =? FPSENSOR_IOC_EXIT).
  { destruct x; simplify_eq. by apply (ewp_seq _ (line_inv Idle)); [apply release_line_ok|]. }
  destruct (Z.eqb_spec cmd FPSENSOR_IOC_ENABLE_IRQ) as [->|_].
  { destruct x; simplify_eq. cbn. by apply (ewp_seq _ (line_inv Active)); [apply enable_line|]. }
  destruct (cmd =? FPSENSOR_IOC_REMOVE); simplify_eq.
  destruct (cmd =? FPSENSOR_IOC_RESET).
  { apply line_inv_keep; [|done]. apply frames_bind; [apply quiet_hw_reset|intros _; apply frames_ret]. }
  destruct (cmd =? FPSENSOR_IOC_DISABLE_IRQ).
  { by apply (ewp_seq _ (line_inv x')); [apply disable_line|]. }
  apply line_inv_keep; [|done].
  unfold ioctl_copy_out, fpsensor_spi_clk_enable, fpsensor_hw_power_enable, ioctl_set_finger_state.
  quiet_tac; [|apply quiet_release_version].
  apply quiet_registry. intros r. apply chip_name_Val. unfold FpDrv.NAME_SIZE. cbn. lia.
Qed.

Lemma release_ok x s : line_inv x s → ewp False fpsensor_release (λ _ s', line_inv x s') s.
Proof.
  intros Hi. unfold fpsensor_release.
  apply (ewp_seq _ (line_inv x)); [apply line_inv_keep; [quiet_tac|done]|]. intros u s1 Hi1.
  apply (ewp_seq _ (line_inv x)); [apply line_inv_keep; [quiet_tac|done]|]. intros _ s2 Hi2.
  apply (ewp_seq _ (line_inv x)); [apply line_inv_keep; [quiet_tac|done]|]. intros u' s3 Hi3.
  apply (ewp_seq _ (line_inv x)).
  - unfold kwhen. destruct (u' <=? 0); [by apply disable_line|done].
  - intros _ s4 Hi4. apply line_inv_keep; [quiet_tac|done].
Qed.

Lemma quiet_deref : quiet (kderef dev).
Proof. intros s [Hg [d Hd]]. apply ewp_deref; [|congruence]. intros a _. split; [|done]. split; [done|]. by exists d. Qed.

Lemma cop_ok x x' o s :
  session_step x o = Some x' → line_inv x s → ewp False (apply_cop o) (λ _ s', line_inv x' s') s.
Proof.
  intros Hx Hi. destruct o as [| |cmd| | |filp on]; cbn [apply_cop]; try (cbn in Hx; simplify_eq).
  - apply line_inv_keep; [|done]. unfold fpsensor_open. quiet_tac.
  - by apply release_ok.
  - by eapply ioctl_ok.
  - apply line_inv_keep; [|done]. unfold fpsensor_poll. quiet_tac.
  - apply line_inv_keep; [|done]. unfold fpsensor_irq. quiet_tac. apply quiet_deref.
  - apply line_inv_keep; [|done]. unfold fpsensor_fasync. quiet_tac.
Qed.

Lemma cops_ok x x' ops s :
  session_run x ops = Some x' → line_inv x s → ewp False (run_cops ops) (λ _ s', line_inv x' s') s.
Proof.
  revert x s. induction ops as [|o ops IH]; intros x s; cbn [session_run run_cops].
  - by intros [= ->] Hi.
  - intros (x1 & Hx1 & Hx)%bind_Some Hi. apply (ewp_seq _ (line_inv x1)); [by eapply cop_ok|]. eauto.
Qed.
End Histories.

(** ** What a probe acquires *)
Section Probe.
Context `{QK : QcomKernel} `{W : World kcall} `{T : Clock}.

(** The resources of a bound device. *)
Definition device_resources : list resource :=
  [RRegion; RCdev; RClass; RDevice; RMemory "fpsensor"; RWakeLock "fpsensor_ttw_wl"].

(** A probe that fails has released what it acquired, one that succeeds has left a
    fresh device; it makes no call about interrupt lines. *)
Definition probed (s : rt kcall cstate) (z : Z) (s' : rt kcall cstate) : Prop :=
  (∀ x, x ∈ device_resources → held x (calls s') = held x (calls s) + (if z =? 0 then 1 else 0)) ∧
  (∀ n, line_of n (calls s') = line_of n (calls s)) ∧
  (z = 0 → g_fpsensor (st s') = true ∧ ∃ d, dev (st s') = Some d ∧ irq_count d = 0 ∧ irq d = 0 ∧ users d = 0).

(** Evaluates the balance of each resource of a list. *)
Ltac resource_cases Hx :=
  repeat (apply elem_of_cons in Hx as [->|Hx]; [cbn; unfold ok, ok_ptr; split_guards; lia|]);
  by apply not_elem_of_nil in Hx.

Lemma probe_ok (E : Prop) s :
  (FpDrvQcom.read_fpId_pin_value "qcom,fpid-gpio" (FpDrvQcom.rg (reg (st s))) = UB → E) →
  ewp E fpsensor_probe (probed s) s.
Proof.
  intros Hg. unfold fpsensor_probe, in_registry. apply ewp_bind, ewp_bind, ewp_get, ewp_bind.
  apply ewp_lift; [|done]. intros [v' r'] _. apply ewp_bind, ewp_mod, ewp_ret.
  cbn [st calls]. destruct (v' =? FpDrv.LOW).
  { apply ewp_ret. split_and!; [|done|done]. intros x _. cbn. lia. }
  unfold fpsensor_dev_setup. dev_any; zbool; (split_and!; cbn [calls st]; [|by intros n; rewrite !line_of_quiet|]).
  all: try (intros Hz; first [discriminate|lia|split; [done|by eexists]]).
  all: intros x Hx; rewrite !held_snoc; cbn in Hx; resource_cases Hx.
Qed.

(** Removal of a bound device gives everything back. *)
Definition removed (s : rt kcall cstate) (z : Z) (s' : rt kcall cstate) : Prop :=
  z = 0 ∧ (∀ x, x ∈ device_resources → held x (calls s') = held x (calls s) - 1) ∧
  dev (st s') = None ∧ g_fpsensor (st s') = false.

Lemma fmap_eq_elem {A B} (f g : A → B) (l : list A) x : f <$> l = g <$> l → x ∈ l → f x = g x.
Proof. induction 2; simplify_eq/=; auto. Qed.

(** Calls that acquire or release none of them. *)
Definition holdings (s : rt kcall cstate) : bool * bool * list Z :=
  (g_fpsensor (st s), bool_decide (is_Some (dev (st s))), (λ x, held x (calls s)) <$> device_resources).
Abbreviation holds := (frames alive holdings).

Lemma holds_call c :
  (∀ r, Forall (λ x, delta x (c, r) = 0) device_resources) → holds (kcall_ c).
Proof.
  intros Hc s Ha. apply ewp_any. intros r. split; [done|]. unfold holdings. cbn [calls st].
  f_equal. apply list_fmap_ext. intros i x Hx.
  rewrite held_snoc. eapply Forall_lookup in Hx; [|apply (Hc r)]. cbn beta in Hx. lia.
Qed.
Lemma holds_get {A} (f : fpsensor_data → A) : holds (get f).
Proof.
  intros s [Hg [d Hd]]. eapply ewp_get_dev; [done|]. split; [|done]. split; [done|]. by exists d.
Qed.
Lemma holds_put f : holds (put f).
Proof.
  intros s [Hg [d Hd]]. eapply ewp_put_dev; [done|]. split; [split; [done|by eexists]|].
  unfold holdings. cbn. by rewrite Hd.
Qed.
Lemma holds_glob : holds glob.
Proof. intros s [Hg Hd]. unfold glob. apply ewp_bind, ewp_get. rewrite Hg. by apply ewp_ret. Qed.

Ltac holds_tac :=
  repeat first
    [ frames_step | apply holds_get | apply holds_put | apply holds_glob
    | apply holds_call; intros ?; repeat constructor
    | progress unfold kret, kdo, setRcvIRQ, free_pin ].

Lemma holds_disable : holds fpsensor_disable_irq.
Proof. unfold fpsensor_disable_irq. holds_tac. Qed.
Lemma holds_gpio_free : holds fpsensor_gpio_free.
Proof. unfold fpsensor_gpio_free. holds_tac. Qed.

Lemma remove_ok s : alive s → ewp False fpsensor_remove (removed s) s.
Proof.
  intros Ha. unfold fpsensor_remove, fpsensor_spi_clk_enable. apply ewp_bind, ewp_ret.
  set (I s' := alive s' ∧ holdings s' = holdings s).
  assert (Hk : ∀ A (m : K A) s', holds m → I s' → ewp False m (λ _ s'', I s'') s').
  { intros A m s' Hm [Ha' Hv']. eapply ewp_mono; [|by apply Hm]. intros _ s'' [Ha'' Hv'']. split; congruence. }
  apply (ewp_seq _ I); [apply Hk; [apply holds_glob|done]|]. intros _ s1 H1.
  apply (ewp_seq _ I); [apply Hk; [apply holds_disable|done]|]. intros _ s2 H2.
  apply (ewp_seq _ I); [apply Hk; [apply holds_get|done]|]. intros n s3 H3.
  apply (ewp_seq _ I); [apply Hk; [holds_tac|done]|]. intros _ s4 H4.
  apply (ewp_seq _ I); [apply Hk; [apply holds_gpio_free|done]|]. intros _ s5 [[Hg [d Hd]] Hh].
  unfold fpsensor_dev_cleanup. apply ewp_bind, ewp_bind, ewp_deref; [|congruence]. intros d' _.
  dev_any. split_and!; [done| |done|done]. intros x Hx. cbn [calls].
  assert (Hheld : held x (calls s5) = held x (calls s)).
  { apply (f_equal snd) in Hh. by apply (fmap_eq_elem (λ x, held x (calls s5)) (λ x, held x (calls s)) device_resources). }
  rewrite !held_snoc, Hheld. resource_cases Hx.
Qed.
End Probe.

(** A successful probe leaves a device whose lines are untouched. *)
Lemma probe_line `{QK : QcomKernel} `{W : World kcall} `{T : Clock} r s :
  fpsensor_probe (mk_rt [] (chipone_initial r)) = Val (0, s) →
  g_fpsensor (st s) = true ∧ ∃ d, dev (st s) = Some d ∧ irq_count d = 0 ∧ ∀ n, line_of n (calls s) = Some LFree.
Proof.
  intros Hp. assert (Hw : ewp True fpsensor_probe (probed (mk_rt [] (chipone_initial r))) (mk_rt [] (chipone_initial r)))
    by (by apply probe_ok).
  eapply ewp_elim in Hw as (_ & Hl & Hd); [|exact Hp].
  destruct (Hd eq_refl) as (Hg & d & Hd' & Hc & _). split; [done|]. exists d. split_and!; [done|done|].
  intros n. by rewrite Hl.
Qed.

(** ** Properties *)

(** C19. The interrupt protocol of the Chipone driver, on a phone where its requests
    succeed: the pin of the interrupt can be made an input and has a positive line
    number, the kernel grants that line whenever it is free, and the version texts
    the HAL writes end within their 64 bytes (the driver tests for none of these).
    There, from a successful probe on, for every history in which the HAL keeps to
    its sessions (INIT, then any mix of commands, interrupts, polls and opens and
    closes, then EXIT; no REMOVE), the driver runs without undefined behaviour and
    never enables an enabled line, nor requests, frees, enables or disables it out of
    turn: between sessions the line is free, in a session it is enabled exactly when
    irq_count is 1, else disabled once. *)
Theorem chipone_irq_protocol `{QK : QcomKernel} `{W : World kcall} `{T : Clock} irqn r ops x s :
  0 < irqn →
  (∀ tr g, rret (answer tr (GpioDirectionInput g)) = 0) →
  (∀ tr g, rret (answer tr (GpioToIrq g)) = irqn) →
  (∀ tr, line_of irqn tr = Some LFree → rret (answer tr (RequestIrq irqn)) = 0) →
  (∀ tr, cstr (copied 64 (answer tr (CopyFromUser 64))) ≠ UB) →
  fpsensor_probe (mk_rt [] (chipone_initial r)) = Val (0, s) →
  session_run Idle ops = Some x →
  ∃ s' d, run_cops ops s = Val (tt, s') ∧ dev (st s') = Some d ∧
    match x with
    | Idle => line_of irqn (calls s') = Some LFree ∧ irq_count d = 0
    | Active => (irq_count d = 1 ∧ line_of irqn (calls s') = Some (LTaken 0)) ∨
                (irq_count d = 0 ∧ line_of irqn (calls s') = Some (LTaken 1))
    end.
Proof.
  intros Hpos Hin Hirq Hgrant Hver Hp Hx. assert (Hco : cooperative irqn) by (by split).
  assert (Hi : line_inv irqn Idle s).
  { pose proof (probe_line r s Hp) as (Hg & d & Hd & Hc & Hl).
    eapply line_inv_intro; [done|done|]. by rewrite Hl. }
  pose proof (cops_ok irqn Hco _ _ _ _ Hx Hi) as Hw. apply ewp_total in Hw as ([] & s' & Hrun & Hi').
  destruct (line_inv_dev _ _ _ Hi') as (d & _ & Hd & Hd'). exists s', d. split_and!; [done|done|].
  destruct x; [done|]. destruct Hd' as [_ [?|?]]; [by right|by left].
Qed.

(** A kernel and a HAL for which the hypotheses hold: pins 11 and 12, line 77. *)
Definition sample_world : World kcall := λ _ c,
  match c with
  | OfGetNamedGpio l => mk_resp (if String.eqb l "qcom,irq-gpio" then 12 else 11) []
  | GpioToIrq _ => mk_resp 77 []
  | Kzalloc _ | ClassCreate | DeviceCreate => mk_resp 4096 []
  | CopyFromUser n => mk_resp 0 (if decide (n = 4%nat) then [1; 0; 0; 0] else [86; 49; 0])
  | _ => mk_resp 0 []
  end.
Definition sample_clock : Clock := λ tr, Z.of_nat (length tr).
Definition sample_probe : rt kcall cstate :=
  match @fpsensor_probe FpDrvQcom.sample_phone sample_world (mk_rt [] (chipone_initial FpDrvQcom.fq_initial)) with
  | Val (_, s) => s | UB => mk_rt [] (chipone_initial FpDrvQcom.fq_initial)
  end.
Definition sample_session : list cop :=
  [Open; Ioctl FPSENSOR_IOC_INIT; Ioctl FPSENSOR_IOC_ENABLE_IRQ; Interrupt; Poll;
   Ioctl FPSENSOR_IOC_RELEASE_VERSION; Ioctl FPSENSOR_IOC_DISABLE_IRQ; Ioctl FPSENSOR_IOC_ENABLE_IRQ].
Lemma chipone_irq_protocol_witness :
  ∃ s' d, @run_cops sample_world sample_clock sample_session sample_probe = Val (tt, s') ∧
    dev (st s') = Some d ∧
    ((irq_count d = 1 ∧ line_of 77 (calls s') = Some (LTaken 0)) ∨
     (irq_count d = 0 ∧ line_of 77 (calls s') = Some (LTaken 1))).
Proof.
  apply (@chipone_irq_protocol FpDrvQcom.sample_phone sample_world sample_clock 77
    FpDrvQcom.fq_initial sample_session Active sample_probe).
  - done.
  - done.
  - done.
  - done.
  - intros tr. vm_compute. done.
  - vm_compute. reflexivity.
  - reflexivity.
Defined.

(** Binding is all or nothing: a probe of the Chipone driver that returns 0 has
    acquired the device number, the character device, the class, the device
    node, the object and the wake lock exactly once each, one that returns
    anything else has given back what it had acquired, at every point of failure;
    removing a bound device gives each of them back once, and neither touches
    undefined behaviour. *)
Theorem chipone_probe_balanced `{QK : QcomKernel} `{W : World kcall} s :
  FpDrvQcom.gpio_ok (FpDrvQcom.rg (reg (st s))) →
  ∃ z s', fpsensor_probe s = Val (z, s') ∧
    (∀ x, x ∈ device_resources → held x (calls s') = held x (calls s) + (if z =? 0 then 1 else 0)) ∧
    (∀ s1, alive s1 → ∃ s2, fpsensor_remove s1 = Val (0, s2) ∧ dev (st s2) = None ∧
       ∀ x, x ∈ device_resources → held x (calls s2) = held x (calls s1) - 1).
Proof.
  intros Hg. destruct (FpDrvQcom.read_pin_ok "qcom,fpid-gpio" _ Hg) as (v & r & Hv & _).
  assert (Hp : ewp False fpsensor_probe (probed s) s) by (apply probe_ok; congruence).
  apply ewp_total in Hp as (z & s' & Hr & Hh & _). exists z, s'. split_and!; [done|done|].
  intros s1 Ha. pose proof (remove_ok s1 Ha) as Hw. apply ewp_total in Hw as (z' & s2 & Hs2 & -> & Hh2 & Hd & _).
  exists s2. by split_and!.
Qed.

Lemma chipone_probe_balanced_witness :
  ∃ z s', @fpsensor_probe FpDrvQcom.sample_phone sample_world (mk_rt [] (chipone_initial FpDrvQcom.fq_initial)) = Val (z, s') ∧
    held RCdev (calls s') = (if z =? 0 then 1 else 0).
Proof.
  destruct (@chipone_probe_balanced FpDrvQcom.sample_phone sample_world
    (mk_rt [] (chipone_initial FpDrvQcom.fq_initial))) as (z & s' & Hr & Hh & _).
  - left. split; reflexivity.
  - exists z, s'. split; [exact Hr|]. apply (Hh RCdev). apply list_elem_of_further, list_elem_of_here.
Defined.

Lemma set_rcv_run v s d :
  g_fpsensor (st s) = true → dev (st s) = Some d →
  setRcvIRQ v s = Val (tt, mk_rt (calls s) (set_dev (Some (set_RcvIRQ v d)) (st s))).
Proof. intros Hg Hd. unfold setRcvIRQ, glob, mbind, IO_bind, kget. rewrite Hg. cbn [mret IO_ret]. by rewrite (put_run (set_RcvIRQ v) s d). Qed.

(** On a device that is not available the disable only clears the flag. *)
Lemma disable_unavailable `{W : World kcall} s d :
  g_fpsensor (st s) = true → dev (st s) = Some d → device_available d = 0 →
  fpsensor_disable_irq s = Val (tt, mk_rt (calls s) (set_dev (Some (set_RcvIRQ 0 d)) (st s))).
Proof.
  intros Hg Hd Ha. unfold fpsensor_disable_irq, mbind, IO_bind at 1.
  rewrite (get_run _ _ d) by done. rewrite Ha. cbn. by apply set_rcv_run.
Qed.

(** A close that is not the last one. *)
Lemma release_shared `{W : World kcall} s d :
  dev (st s) = Some d → 2 ≤ users d < 2 ^ 32 →
  fpsensor_release s = Val (0, mk_rt (calls s) (set_dev (Some (set_device_available 0 (set_users (users d - 1) d))) (st s))).
Proof.
  intros Hd Hu. assert (Hu' : u32 (users d - 1) = users d - 1) by (apply Z.mod_small; lia).
  unfold fpsensor_release, mbind, IO_bind. rewrite (get_run _ _ d), Hu' by done.
  rewrite (put_run _ _ d) by done. erewrite get_run by done. cbn [users set_users].
  rewrite (proj2 (Z.leb_gt _ _)) by lia. cbn [kwhen mret IO_ret]. by erewrite put_run.
Qed.

(** An EXIT between sessions. *)
Lemma exit_again `{W : World kcall} irqn s d :
  g_fpsensor (st s) = true → dev (st s) = Some d → irq d = irqn → 0 < irqn →
  irq_count d = 0 → line_of irqn (calls s) = Some LFree →
  ewp False release_line (λ _ s', line_of irqn (calls s') = None) s.
Proof.
  intros Hg Hd Hn Hpos Hc Hl. unfold release_line.
  set (I s' := alive s' ∧ irq_view irqn s' = (Some LFree, Some (0, irqn))).
  apply (ewp_seq _ I).
  { unfold fpsensor_disable_irq. apply (ewp_seq _ I).
    { eapply ewp_get_dev; [done|]. split; [split; [done|by exists d]|]. unfold irq_view. rewrite Hd, Hl. cbn. by rewrite Hc, Hn. }
    intros a s1 ([Hg1 [d1 Hd1]] & Hv1). assert (Hc1 : irq_count d1 = 0).
    { unfold irq_view in Hv1. rewrite Hd1 in Hv1. by injection Hv1. }
    apply (ewp_seq _ I); [dev_steps; first [by rewrite Hc1 in *|split; [split; [done|by exists d1]|done]]|].
    intros _ s2 [Ha2 Hv2]. eapply ewp_mono; [|by apply (quiet_set_rcv irqn)]. intros _ s3 [? ?]. split; congruence. }
  intros _ s1 ([Hg1 [d1 Hd1]] & Hv1). unfold irq_view in Hv1. rewrite Hd1 in Hv1. injection Hv1 as Hl1 Hc1 Hn1.
  apply ewp_bind. eapply ewp_get_dev; [done|]. rewrite Hn1, (proj2 (Z.eqb_neq irqn 0)) by lia.
  cbn [negb kwhen]. dev_steps.
  eapply ewp_mono; [|apply (quiet_gpio_free irqn); split; [done|by eexists]].
  intros _ s2 [_ Hv]. apply (f_equal fst) in Hv. cbn in Hv. rewrite Hv, line_of_snoc, Hl1. cbn.
  by rewrite Z.eqb_refl.
Qed.

(** Two ways out of the protocol.  device_available is cleared by every close,
    not only the last: when one of several users closes the device, DISABLE_IRQ
    no longer reaches the line and the interrupt stays enabled.  And EXIT keeps
    the number of the line it frees, so that a second EXIT, or the removal of the
    driver, frees the line again. *)
Theorem chipone_irq_pitfalls `{W : World kcall} `{T : Clock} irqn s d :
  g_fpsensor (st s) = true → dev (st s) = Some d → irq d = irqn → 0 < irqn →
  (2 ≤ users d < 2 ^ 32 →
   ∃ s', run_cops [Release; Ioctl FPSENSOR_IOC_DISABLE_IRQ] s = Val (tt, s') ∧
     line_of irqn (calls s') = line_of irqn (calls s) ∧ (irq_count <$> dev (st s')) = Some (irq_count d)) ∧
  (line_of irqn (calls s) = Some LFree → irq_count d = 0 →
   ∃ s', fpsensor_ioctl FPSENSOR_IOC_EXIT s = Val (0, s') ∧ line_of irqn (calls s') = None).
Proof.
  intros Hg Hd Hn Hpos. split.
  - intros Hu. eexists. split_and!.
    + cbn [run_cops apply_cop]. unfold mbind, IO_bind at 1. rewrite (release_shared _ d) by done.
      change (fpsensor_ioctl FPSENSOR_IOC_DISABLE_IRQ)
        with (put (set_cancel 0) ;; fpsensor_disable_irq ;; mret 0 : K Z).
      unfold mbind, IO_bind. erewrite put_run by done. by erewrite disable_unavailable.
    + done.
    + done.
  - intros Hl Hc. assert (Hw : ewp False (fpsensor_ioctl FPSENSOR_IOC_EXIT)
      (λ z s', z = 0 ∧ line_of irqn (calls s') = None) s).
    { change (fpsensor_ioctl FPSENSOR_IOC_EXIT) with (put (set_cancel 0) ;; release_line ;; mret 0 : K Z).
      apply ewp_bind. eapply ewp_put_dev; [done|].
      apply (ewp_seq _ (λ s', line_of irqn (calls s') = None)); [by eapply exit_again|].
      intros _ s' Hs'. by apply ewp_ret. }
    apply ewp_total in Hw as (z & s' & Hr & -> & Hn'). eauto.
Qed.

Definition sample_shared : rt kcall cstate :=
  match @run_cops sample_world sample_clock [Open; Open; Ioctl FPSENSOR_IOC_INIT; Ioctl FPSENSOR_IOC_ENABLE_IRQ] sample_probe with
  | Val (_, s) => s | UB => sample_probe
  end.
Lemma chipone_irq_pitfalls_witness :
  ∃ s', @run_cops sample_world sample_clock [Release; Ioctl FPSENSOR_IOC_DISABLE_IRQ] sample_shared = Val (tt, s') ∧
    line_of 77 (calls s') = Some (LTaken 0).
Proof.
  destruct (dev (st sample_shared)) as [d|] eqn:Hd; [|vm_compute in Hd; discriminate].
  destruct (@chipone_irq_pitfalls sample_world sample_clock 77 sample_shared d) as [Hs _];
    [vm_compute; reflexivity|exact Hd|vm_compute in Hd; injection Hd as <-; reflexivity|lia|].
  destruct Hs as (s' & Hr & Hl & _); [vm_compute in Hd; injection Hd as <-; cbn; lia|].
  exists s'. split; [exact Hr|]. rewrite Hl. vm_compute. reflexivity.
Defined.
End Chipone.
