(* ===== verification/Elan.v ===== *)
(** * The Elan sensor driver
      (src/vendor/tinno/Fingerprint-N/KERNEL/qcom/kernel-3.18/drivers/input/fingerprint/elan_96sa)

    The misc device the Elan HAL talks to: pins, supply, interrupt line, a poll
    that blocks until an interrupt, the screen or the HAL itself wakes it, and the
    key status that is passed on to a listener and to the registry driver.
    struct efsa120s_data is [efsa120s_data]; the file variables are [estate].
    Mutexes and spin locks protect single variables of this model, whose
    operations are atomic. *)
From S2P Require Import Prelude Runtime DriverRt FpDrv FpDrvQcom FpClient.

Module Elan.

(** ** Constants *)

(** _IOW(0x80, n, int) *)
Definition iow (n : Z) : Z := 0x40048000 + n.
Definition ID_IOCTL_RESET : Z := iow 6.
Definition IOCTL_READ_KEY_STATUS : Z := iow 10.
Definition IOCTL_WRITE_KEY_STATUS : Z := iow 11.
Definition ID_IOCTL_POLL_INIT : Z := iow 20.
Definition ID_IOCTL_POLL_EXIT : Z := iow 23.
Definition ID_IOCTL_READ_FACTORY_STATUS : Z := iow 26.
Definition ID_IOCTL_WRITE_FACTORY_STATUS : Z := iow 27.
Definition ID_IOCTL_WAKE_LOCK_UNLOCK : Z := iow 41.
Definition ID_IOCTL_EN_IRQ : Z := iow 55.
Definition ID_IOCTL_DIS_IRQ : Z := iow 66.
Definition ID_IOCTL_POWER_SET : Z := iow 77.
Definition ID_IOCTL_REQUSEST_IRQ : Z := iow 88.
Definition ID_IOCTL_SET_VERSION : Z := iow 100.
Definition ID_IOCTL_GET_VERSION : Z := iow 101.
Definition ID_IOCTL_GET_SCREEN_STATUS : Z := iow 102.

Definition VERSION_LOG : string := "ELAN FINGER PRINT V88888888888".
Definition ELAN_FP_NAME : string := "elan_fp".
Definition GF_VDD_MIN_UV : Z := 2800000.
Definition GF_VDD_MAX_UV : Z := 2800000.
Definition MAX_LIB_BUF : nat := 256.

(** ** State *)

(** The pointer to the supply: null, an error pointer, held, or put back. *)
Inductive regulator := RegNull | RegErr | RegLive | RegPut.

Record efsa120s_data := mk_efsa {
  irq_gpio : Z;
  isr : Z;
  rst_gpio : Z;
  irq_is_disable : Z;
  isPowerOn : Z;
  vdd : regulator
}.
Definition set_irq_gpio v s := mk_efsa v (isr s) (rst_gpio s) (irq_is_disable s) (isPowerOn s) (vdd s).
Definition set_isr v s := mk_efsa (irq_gpio s) v (rst_gpio s) (irq_is_disable s) (isPowerOn s) (vdd s).
Definition set_rst_gpio v s := mk_efsa (irq_gpio s) (isr s) v (irq_is_disable s) (isPowerOn s) (vdd s).
Definition set_irq_is_disable v s := mk_efsa (irq_gpio s) (isr s) (rst_gpio s) v (isPowerOn s) (vdd s).
Definition set_isPowerOn v s := mk_efsa (irq_gpio s) (isr s) (rst_gpio s) (irq_is_disable s) v (vdd s).
Definition set_vdd v s := mk_efsa (irq_gpio s) (isr s) (rst_gpio s) (irq_is_disable s) (isPowerOn s) v.
(** devm_kzalloc *)
Definition fresh_efsa : efsa120s_data := mk_efsa 0 0 0 0 0 RegNull.

Record estate := mk_estate {
  reg : FpDrvQcom.fq_state;
  fp : option efsa120s_data;
  elan_work_flag : Z;
  factory_status : Z;
  fasync_queue : list Z;
  key_status : Z;
  lib_ver_buf : list Z;
  is_screen_poweroff : Z;
  elan_debug : Z
}.
Definition set_reg v s := mk_estate v (fp s) (elan_work_flag s) (factory_status s) (fasync_queue s) (key_status s) (lib_ver_buf s) (is_screen_poweroff s) (elan_debug s).
Definition set_fp v s := mk_estate (reg s) v (elan_work_flag s) (factory_status s) (fasync_queue s) (key_status s) (lib_ver_buf s) (is_screen_poweroff s) (elan_debug s).
Definition set_elan_work_flag v s := mk_estate (reg s) (fp s) v (factory_status s) (fasync_queue s) (key_status s) (lib_ver_buf s) (is_screen_poweroff s) (elan_debug s).
Definition set_factory_status v s := mk_estate (reg s) (fp s) (elan_work_flag s) v (fasync_queue s) (key_status s) (lib_ver_buf s) (is_screen_poweroff s) (elan_debug s).
Definition set_fasync_queue v s := mk_estate (reg s) (fp s) (elan_work_flag s) (factory_status s) v (key_status s) (lib_ver_buf s) (is_screen_poweroff s) (elan_debug s).
Definition set_key_status v s := mk_estate (reg s) (fp s) (elan_work_flag s) (factory_status s) (fasync_queue s) v (lib_ver_buf s) (is_screen_poweroff s) (elan_debug s).
Definition set_lib_ver_buf v s := mk_estate (reg s) (fp s) (elan_work_flag s) (factory_status s) (fasync_queue s) (key_status s) v (is_screen_poweroff s) (elan_debug s).
Definition set_is_screen_poweroff v s := mk_estate (reg s) (fp s) (elan_work_flag s) (factory_status s) (fasync_queue s) (key_status s) (lib_ver_buf s) v (elan_debug s).
Definition set_elan_debug v s := mk_estate (reg s) (fp s) (elan_work_flag s) (factory_status s) (fasync_queue s) (key_status s) (lib_ver_buf s) (is_screen_poweroff s) v.
Definition elan_initial (r : FpDrvQcom.fq_state) : estate :=
  mk_estate r None 0 0 [] 0 (codes "unknow" ++ repeat 0 250) 0 1.

#[global] Instance estate_registry : HasRegistry estate.
Proof. refine {| registry_of := reg; put_registry := set_reg |}. done. Defined.

#[global] Instance estate_device : HasDevice estate efsa120s_data.
Proof. refine {| dev_of := fp; put_dev := set_fp |}. done. Defined.

Abbreviation K := (IO kcall estate).

Section Elan.
Context `{QK : QcomKernel} `{W : World kcall} `{T : Clock}.

(** ** The interrupt line *)
Definition efsa120s_irq_enable : K unit :=
  b ← get irq_is_disable;
  kwhen (negb (b =? 0)) (n ← get isr; kdo (EnableIrq n) ;; put (set_irq_is_disable 0)).
Definition efsa120s_irq_disable : K unit :=
  b ← get irq_is_disable;
  kwhen (b =? 0) (put (set_irq_is_disable 1) ;; n ← get isr; kdo (DisableIrq n)).

Definition elan_request_irq : K Z :=
  n ← get isr;
  err ← kret (RequestIrq n);
  if negb (err =? 0) then mret (-1) else
  kdo (EnableIrqWake n) ;; mret 0.

(** ** Sysfs *)
Definition show_drv_version_value : string := VERSION_LOG +:+ String (Ascii.ascii_of_nat 10) "".
Definition elan_debug_value : K Z :=
  b ← kget elan_debug;
  kmod (set_elan_debug (if negb (b =? 0) then 0 else 1)) ;;
  kget elan_debug.

(** ** Pins and supply *)
Definition efsa120s_reset : K unit :=
  g ← get rst_gpio;
  kdo (GpioDirectionOutput g 0) ;; kdo (Mdelay 5) ;;
  kdo (GpioDirectionOutput g 1) ;; kdo (Mdelay 50).

(** A use of the supply, whose pointer must be a held one. *)
Definition supply : K unit :=
  v ← get vdd; match v with RegLive => mret tt | _ => kub end.

Definition elan_power_ctl (on : bool) : K Z :=
  p ← get isPowerOn;
  if on && (p =? 0) then
    supply ;; rc ← kret (RegulatorEnable "vdd");
    if negb (rc =? 0) then mret rc else
    kdo (Mdelay 10) ;; put (set_isPowerOn 1) ;; mret rc
  else if negb on && negb (p =? 0) then
    supply ;; rc ← kret (RegulatorDisable "vdd");
    if negb (rc =? 0) then mret rc else
    put (set_isPowerOn 0) ;; mret rc
  else mret 0.

Definition elan_power_init : K Z :=
  p ← kret (RegulatorGet "vdd");
  put (set_vdd (if p <? 0 then RegErr else if p =? 0 then RegNull else RegLive)) ;;
  if p <? 0 then mret p else
  supply ;; n ← kret (RegulatorCountVoltages "vdd");
  if 0 <? n then
    ret ← kret (RegulatorSetVoltage "vdd" GF_VDD_MIN_UV GF_VDD_MAX_UV);
    if negb (ret =? 0) then kdo (RegulatorPut "vdd") ;; put (set_vdd RegPut) ;; mret ret else mret 0
  else mret 0.

Definition elan_power_deinit : K Z :=
  v ← get vdd;
  match v with
  | RegNull => mret 0
  | _ =>
      supply ;;
      n ← kret (RegulatorCountVoltages "vdd");
      kwhen (0 <? n) (kdo (RegulatorSetVoltage "vdd" 0 GF_VDD_MAX_UV)) ;;
      kdo (RegulatorDisable "vdd") ;; kdo (RegulatorPut "vdd") ;; put (set_vdd RegPut) ;; mret 0
  end.

Definition elan_parse_dt : K Z :=
  g ← kret (OfGetNamedGpio "qcom,reset-gpio");
  put (set_rst_gpio g) ;;
  if g <? 0 then mret g else
  i ← kret (OfGetNamedGpio "qcom,irq-gpio");
  put (set_irq_gpio i) ;;
  if i <? 0 then mret i else mret 0.

(** The results of the requests are logged only; the last one is returned, as a
    char. *)
Definition efsa120s_gpio_config : K Z :=
  i ← get irq_gpio;
  kdo (GpioRequest i "efsa120-irq") ;;
  kdo (GpioDirectionInput i) ;;
  n ← kret (GpioToIrq i);
  put (set_isr n) ;;
  g ← get rst_gpio;
  ret ← kret (GpioRequest g "efsa120-reset");
  kdo (GpioDirectionOutput g 0) ;; kdo (Mdelay 20) ;;
  kdo (GpioDirectionOutput g 1) ;; kdo (Mdelay 20) ;;
  mret (u8 ret).

(** ** The misc device *)
Definition efsa120s_open : K Z := pointer ;; mret 0.
Definition efsa120s_close : K Z := mret 0.

Definition ioctl_write_key_status (arg : Z) : K Z :=
  kmod (set_key_status (i32 arg)) ;;
  v ← kget key_status;
  FP_EVT_REPORT (if v =? 1 then 1 else 2) ;;
  q ← kget fasync_queue;
  kwhen (negb (bool_decide (q = []))) (kdo KillFasync) ;;
  mret 0.

(** The result of copy_from_user is kept in a variable that is not returned. *)
Definition ioctl_set_version : K Z :=
  r ← kcall_ (CopyFromUser MAX_LIB_BUF);
  kmod (set_lib_ver_buf (copied MAX_LIB_BUF r)) ;;
  kwhen (rret r =? 0) (b ← kget lib_ver_buf; in_registry (chip_info_at b) ;; mret tt) ;;
  mret 0.

Definition efsa120s_ioctl (cmd arg : Z) : K Z :=
  if cmd =? ID_IOCTL_RESET then efsa120s_reset ;; mret 0
  else if cmd =? ID_IOCTL_POLL_INIT then kmod (set_elan_work_flag 0) ;; mret 0
  else if cmd =? ID_IOCTL_POLL_EXIT then
    kmod (set_elan_work_flag 1) ;; kdo (WakeUp "elan_poll_wq") ;; mret 0
  else if cmd =? ID_IOCTL_READ_FACTORY_STATUS then kget factory_status
  else if cmd =? ID_IOCTL_WRITE_FACTORY_STATUS then kmod (set_factory_status (i32 arg)) ;; mret 0
  else if cmd =? ID_IOCTL_WAKE_LOCK_UNLOCK then
    pointer ;;
    (if i32 arg =? 0 then kdo (WakeUnlock "hal_fp_wake_lock") else kdo (WakeLock "hal_fp_wake_lock")) ;; mret 0
  else if cmd =? ID_IOCTL_EN_IRQ then efsa120s_irq_enable ;; mret 0
  else if cmd =? ID_IOCTL_DIS_IRQ then efsa120s_irq_disable ;; mret 0
  else if cmd =? ID_IOCTL_POWER_SET then elan_power_ctl (negb (arg =? 0)) ;; mret 0
  else if cmd =? IOCTL_READ_KEY_STATUS then v ← kget key_status; mret (if v =? 1 then 1 else 2)
  else if cmd =? IOCTL_WRITE_KEY_STATUS then ioctl_write_key_status arg
  else if cmd =? ID_IOCTL_REQUSEST_IRQ then
    kwhen (negb (arg =? 0)) (elan_request_irq ;; mret tt) ;; mret 0
  else if cmd =? ID_IOCTL_SET_VERSION then ioctl_set_version
  else if cmd =? ID_IOCTL_GET_VERSION then b ← kget lib_ver_buf; kdo (CopyToUser b) ;; mret 0
  else if cmd =? ID_IOCTL_GET_SCREEN_STATUS then kget is_screen_poweroff
  else mret 0.

(** [signal]: a signal is pending for the caller.  [None]: it goes on waiting. *)
Definition efsa120s_poll (signal : bool) : K (option Z) :=
  pointer ;;
  kdo (WakeUnlock "hal_fp_wake_lock") ;;
  f ← kget elan_work_flag;
  if (f <=? 0) && negb signal then mret None else
  kmod (set_elan_work_flag 0) ;;
  mret (Some (if 0 <? f then f else 0)).

Definition elan_fp_fasync (filp : Z) (on : bool) : K Z :=
  q ← kget fasync_queue;
  let '(r, q) := fasync_helper filp on q in
  kmod (set_fasync_queue q) ;; mret r.

Definition efsa120s_irq_handler : K unit :=
  FP_EVT_REPORT FpDrvQcom.HW_EVENT_WAKEUP ;;
  pointer ;;
  kdo (WakeLockTimeout "fp_wake_lock" 1000) ;;
  kmod (set_elan_work_flag 1) ;;
  kdo (WakeUp "elan_poll_wq").

(** [data]: evdata->data, when both pointers are there. *)
Definition elan_fb_state_chg_callback (val : Z) (data : option Z) : K Z :=
  if negb (val =? FpDrvQcom.FB_EARLY_EVENT_BLANK) then mret 0 else
  match data with
  | Some blank =>
      if blank =? FpDrvQcom.FB_BLANK_POWERDOWN then
        kmod (set_is_screen_poweroff 1) ;; kmod (set_elan_work_flag 1) ;;
        kdo (WakeUp "elan_poll_wq") ;; mret FpDrvQcom.NOTIFY_OK
      else if blank =? FpDrvQcom.FB_BLANK_UNBLANK then
        kmod (set_is_screen_poweroff 0) ;; mret FpDrvQcom.NOTIFY_OK
      else mret FpDrvQcom.NOTIFY_OK
  | None => mret FpDrvQcom.NOTIFY_OK
  end.

(** ** Probe and remove *)
Definition efsa120s_setup_cdev : K Z :=
  pointer ;;
  r ← kret MiscRegister; mret (if r <? 0 then -1 else 0).

Definition efsa120s_sysfs_create : K Z :=
  pointer ;;
  error ← kret SysfsCreateGroup;
  if negb (error =? 0) then kdo SysfsRemoveGroup ;; mret error else mret 0.

(** A failed allocation is logged, and the object is used all the same. *)
Definition efsa120s_probe : K Z :=
  v ← in_registry (FpDrvQcom.read_fpId_pin_value "qcom,fpid-gpio");
  if negb (v =? FpDrv.LOW) then mret (-1) else
  in_registry (FpDrvQcom.full_fp_chip_name (Some ELAN_FP_NAME)) ;;
  p ← kret (DevmKzalloc "efsa120s_data");
  if p <=? 0 then kub else
  kmod (set_fp (Some fresh_efsa)) ;;
  elan_parse_dt ;;
  elan_power_init ;;
  efsa120s_sysfs_create ;;
  efsa120s_setup_cdev ;;
  efsa120s_gpio_config ;;
  kdo (WakeLockInit "fp_wake_lock") ;;
  kdo (WakeLockInit "hal_fp_wake_lock") ;;
  kdo FbRegisterClient ;;
  mret 0.

Definition efsa120s_remove : K Z :=
  n ← get isr;
  kwhen (negb (n =? 0)) (kdo (FreeIrq n)) ;;
  i ← get irq_gpio; kdo (GpioFree i) ;;
  g ← get rst_gpio; kdo (GpioFree g) ;;
  kdo MiscDeregister ;;
  elan_power_deinit ;;
  kdo (Kfree "efsa120s_data") ;; kmod (set_fp None) ;;
  mret 0.

Definition efsa120s_suspend : K Z := mret 0.
Definition efsa120s_resume : K Z := mret 0.
Definition efsa120s_init : K Z := kret PlatformDriverRegister.
Definition efsa120s_exist : K unit := kdo PlatformDriverUnregister.
End Elan.

(** ** Histories of the device *)
Inductive eop :=
| Open | Close
| Ioctl (cmd arg : Z)
| Poll (signal : bool)
| Interrupt
| Screen (val : Z) (data : option Z)
| Fasync (filp : Z) (on : bool)
| ReadDebug.

(** The poll as its callers see it, abstractly: a latch that an interrupt, the
    screen going dark or POLL_EXIT sets, and that a poll takes. *)
Definition sets_latch (o : eop) : bool :=
  match o with
  | Interrupt => true
  | Ioctl cmd _ => cmd =? ID_IOCTL_POLL_EXIT
  | Screen val (Some blank) => (val =? FpDrvQcom.FB_EARLY_EVENT_BLANK) && (blank =? FpDrvQcom.FB_BLANK_POWERDOWN)
  | _ => false
  end.
Definition clears_latch (o : eop) : bool :=
  match o with Ioctl cmd _ => cmd =? ID_IOCTL_POLL_INIT | Poll _ => true | _ => false end.
Definition latch_step (b : bool) (o : eop) : bool := if sets_latch o then true else if clears_latch o then false else b.
Definition latch_answer (b : bool) (o : eop) : list (option Z) :=
  match o with Poll signal => [if b then Some 1 else if signal then Some 0 else None] | _ => [] end.
Fixpoint latch_run (b : bool) (ops : list eop) : list (option Z) :=
  match ops with [] => [] | o :: ops' => latch_answer b o ++ latch_run (latch_step b o) ops' end.

(** The sessions of the HAL: the line may be disabled only once it was requested. *)
Inductive session := Idle | Active.
Definition session_step (x : session) (o : eop) : option session :=
  match o with
  | Ioctl cmd arg =>
      if cmd =? ID_IOCTL_REQUSEST_IRQ then Some (if arg =? 0 then x else Active)
      else if cmd =? ID_IOCTL_DIS_IRQ then match x with Idle => None | Active => Some Active end
      else Some x
  | _ => Some x
  end.
Fixpoint session_run (x : session) (ops : list eop) : option session :=
  match ops with [] => Some x | o :: ops' => session_step x o ≫= λ x, session_run x ops' end.

Section Histories.
Context `{QK : QcomKernel} `{W : World kcall} `{T : Clock}.

(** The answers of the polls of a history, in order. *)
Definition apply_eop (o : eop) : K (list (option Z)) :=
  match o with
  | Open => efsa120s_open ;; mret []
  | Close => efsa120s_close ;; mret []
  | Ioctl cmd arg => efsa120s_ioctl cmd arg ;; mret []
  | Poll signal => r ← efsa120s_poll signal; mret [r]
  | Interrupt => efsa120s_irq_handler ;; mret []
  | Screen val data => elan_fb_state_chg_callback val data ;; mret []
  | Fasync filp on => elan_fp_fasync filp on ;; mret []
  | ReadDebug => elan_debug_value ;; mret []
  end.
Fixpoint run_eops (ops : list eop) : K (list (option Z)) :=
  match ops with [] => mret [] | o :: ops' => r ← apply_eop o; rs ← run_eops ops'; mret (r ++ rs) end.

(** A kernel that grants the sensor's line exactly when it is free, and a HAL
    whose version text fits the registry. *)
Record cooperative (irqn : Z) : Prop := mk_cooperative {
  c_grant : ∀ tr, line_of irqn tr = Some LFree → rret (answer tr (RequestIrq irqn)) = 0;
  c_busy : ∀ tr n, line_of irqn tr = Some (LTaken n) → rret (answer tr (RequestIrq irqn)) ≠ 0;
  c_version : ∀ tr, ∃ t, cstr (copied MAX_LIB_BUF (answer tr (CopyFromUser MAX_LIB_BUF))) = Val t ∧
    (String.length t < FpDrv.NAME_SIZE)%nat
}.

Context (irqn : Z) (Hco : cooperative irqn).

Definition bound (s : rt kcall estate) : Prop := ∃ d, fp (st s) = Some d ∧ vdd d = RegLive.
(** What the line and the latch are about. *)
Definition view (s : rt kcall estate) : option line * option (Z * Z) * Z :=
  (line_of irqn (calls s), (λ d, (isr d, irq_is_disable d)) <$> fp (st s), elan_work_flag (st s)).

Abbreviation quiet := (frames bound view).

Lemma elan_quiet_call c : irq_of c = None → quiet (kcall_ c).
Proof.
  intros Hc s Hs. apply ewp_call. split; [done|]. unfold view. cbn. by rewrite line_of_quiet by congruence.
Qed.
Lemma elan_quiet_get {A} (f : efsa120s_data → A) : quiet (get f).
Proof. intros s (d & Hd & Hv). apply (ewp_get_dev _ _ _ _ d); [done|]. split; [by exists d|done]. Qed.
Lemma quiet_pointer : quiet pointer.
Proof. intros s (d & Hd & Hv). apply (ewp_pointer _ _ _ d); [done|]. split; [by exists d|done]. Qed.
Lemma elan_quiet_put f :
  (∀ d, isr (f d) = isr d) → (∀ d, irq_is_disable (f d) = irq_is_disable d) → (∀ d, vdd (f d) = vdd d) → quiet (put f).
Proof.
  intros Hi Hq Hr s (d & Hd & Hv). apply (ewp_put_dev _ _ _ _ d); [done|].
  split; [exists (f d); by rewrite Hr|]. unfold view. cbn. by rewrite Hd, Hi, Hq.
Qed.
Lemma elan_quiet_mod f :
  (∀ s, fp (f s) = fp s) → (∀ s, elan_work_flag (f s) = elan_work_flag s) → quiet (kmod f).
Proof. intros Hf He s Hs. apply ewp_mod. unfold bound, view. cbn. by rewrite Hf, He. Qed.
Lemma elan_quiet_report key : quiet (FP_EVT_REPORT key).
Proof. by intros s Hs. Qed.
Lemma elan_quiet_supply : quiet supply.
Proof.
  intros s (d & Hd & Hv). unfold supply. apply ewp_bind, (ewp_get_dev _ _ _ _ d); [done|]. rewrite Hv.
  apply ewp_ret. split; [by exists d|done].
Qed.

Ltac quiet_prim :=
  first
    [ frames_step | apply elan_quiet_call; reflexivity | apply elan_quiet_get | apply quiet_pointer
    | apply elan_quiet_report | apply elan_quiet_supply | apply elan_quiet_put; reflexivity | apply elan_quiet_mod; reflexivity
    | progress unfold kret, kdo ].
Ltac quiet_tac := repeat quiet_prim.

Lemma quiet_reset : quiet efsa120s_reset.
Proof. unfold efsa120s_reset. quiet_tac. Qed.
Lemma elan_quiet_power b : quiet (elan_power_ctl b).
Proof. unfold elan_power_ctl. quiet_tac. Qed.
Lemma quiet_key arg : quiet (ioctl_write_key_status arg).
Proof. unfold ioctl_write_key_status. quiet_tac. Qed.
Lemma quiet_fasync filp on : quiet (elan_fp_fasync filp on).
Proof. unfold elan_fp_fasync. quiet_tac. Qed.
Lemma quiet_debug : quiet elan_debug_value.
Proof. unfold elan_debug_value. quiet_tac. Qed.
Lemma quiet_set_version : quiet ioctl_set_version.
Proof.
  unfold ioctl_set_version. intros s Hs. do 2 ewp_prim. destruct (c_version _ Hco (calls s)) as (t & Ht & Hl).
  set (r := answer (calls s) (CopyFromUser MAX_LIB_BUF)) in *.
  do 5 ewp_prim. 2: { do 2 apply ewp_ret. split; [done|]. unfold view. cbn. by rewrite line_of_quiet. }
  do 3 ewp_prim. cbn [st lib_ver_buf set_lib_ver_buf]. apply ewp_in_registry.
  - intros z q Hz. do 2 apply ewp_ret. split; [done|]. unfold view. cbn. by rewrite line_of_quiet.
  - intros Hub. by eapply chip_info_at_Val in Hub.
Qed.

(** ** The invariant *)
Definition einv (x : session) (b : bool) (s : rt kcall estate) : Prop :=
  bound s ∧ ∃ l n, view s = (Some l, Some (irqn, n), Z.b2z b) ∧
    match x with
    | Idle => l = LFree ∧ n = 0
    | Active => (n = 0 ∧ l = LTaken 0) ∨ (n = 1 ∧ l = LTaken 1)
    end.

Lemma einv_quiet {A} (m : K A) x b s : quiet m → einv x b s → ewp False m (λ _ s', einv x b s') s.
Proof.
  intros Hm [Ha Hv]. eapply ewp_mono; [|by apply Hm]. intros a s' [Ha' Hv']. split; [done|]. by rewrite Hv'.
Qed.

(** The device of such a state, and the way back. *)
Lemma einv_dev x b s :
  einv x b s → ∃ d, fp (st s) = Some d ∧ vdd d = RegLive ∧ isr d = irqn ∧ elan_work_flag (st s) = Z.b2z b ∧
    match x with
    | Idle => line_of irqn (calls s) = Some LFree ∧ irq_is_disable d = 0
    | Active => (irq_is_disable d = 0 ∧ line_of irqn (calls s) = Some (LTaken 0)) ∨
                (irq_is_disable d = 1 ∧ line_of irqn (calls s) = Some (LTaken 1))
    end.
Proof.
  intros ((d & Hd & Hv) & l & n & Hview & Hx). exists d. unfold view in Hview. rewrite Hd in Hview.
  injection Hview as Hl Hi Hn Hb. split_and!; try done. rewrite Hn, Hl. destruct x; [by destruct Hx as [-> ->]|].
  destruct Hx as [[-> ->]|[-> ->]]; auto.
Qed.
Lemma einv_intro x b s d :
  fp (st s) = Some d → vdd d = RegLive → isr d = irqn → elan_work_flag (st s) = Z.b2z b →
  match x with
  | Idle => line_of irqn (calls s) = Some LFree ∧ irq_is_disable d = 0
  | Active => (irq_is_disable d = 0 ∧ line_of irqn (calls s) = Some (LTaken 0)) ∨
              (irq_is_disable d = 1 ∧ line_of irqn (calls s) = Some (LTaken 1))
  end → einv x b s.
Proof.
  intros Hd Hv Hi Hb Hx. split; [by exists d|]. unfold view. rewrite Hd, Hb. cbn. rewrite Hi.
  destruct x; [destruct Hx as [-> ->]; by exists LFree, 0|].
  destruct Hx as [[-> ->]|[-> ->]]; [exists (LTaken 0), 0|exists (LTaken 1), 1]; auto.
Qed.
(** Steps that set the latch only. *)
Lemma einv_latch x b b' s : einv x b s → einv x b' (mk_rt (calls s) (set_elan_work_flag (Z.b2z b') (st s))).
Proof. intros (d & Hd & Hv & Hi & _ & Hx)%einv_dev. by eapply einv_intro. Qed.

Lemma enable_ok x b s : einv x b s → ewp False efsa120s_irq_enable (λ _ s', einv x b s') s.
Proof.
  intros Hs. pose proof (einv_dev _ _ _ Hs) as (d & Hd & Hv & Hi & Hb & Hx). unfold efsa120s_irq_enable.
  apply ewp_bind, (ewp_get_dev _ _ _ _ d); [done|]. unfold kwhen.
  destruct (Z.eqb_spec (irq_is_disable d) 0) as [Hz|Hz]; cbn [negb]; [by apply ewp_ret|].
  destruct x; [by destruct Hx|]. destruct Hx as [[? _]|[_ Hl]]; [done|].
  apply ewp_bind, (ewp_get_dev _ _ _ _ d); [done|]. do 4 ewp_prim. eapply (ewp_put_dev _ _ _ _ d); [done|].
  eapply einv_intro; [done|done|done|done|]. left. split; [done|]. cbn [calls].
  rewrite line_of_snoc, Hl, Hi. cbn. by rewrite Z.eqb_refl.
Qed.
Lemma disable_ok b s : einv Active b s → ewp False efsa120s_irq_disable (λ _ s', einv Active b s') s.
Proof.
  intros Hs. pose proof (einv_dev _ _ _ Hs) as (d & Hd & Hv & Hi & Hb & Hx). unfold efsa120s_irq_disable.
  apply ewp_bind, (ewp_get_dev _ _ _ _ d); [done|]. unfold kwhen.
  destruct (Z.eqb_spec (irq_is_disable d) 0) as [Hz|Hz]; [|by apply ewp_ret].
  destruct Hx as [[_ Hl]|[Hn _]]; [|congruence].
  apply ewp_bind, (ewp_put_dev _ _ _ _ d); [done|]. apply ewp_bind.
  apply (ewp_get_dev _ _ _ _ (set_irq_is_disable 1 d)); [done|]. do 3 ewp_prim. apply ewp_ret.
  eapply einv_intro; [done|done|done|done|]. right. split; [done|]. cbn [calls].
  rewrite line_of_snoc, Hl. cbn. by rewrite Hi, Z.eqb_refl.
Qed.
Lemma request_ok x b s : einv x b s → ewp False elan_request_irq (λ _ s', einv Active b s') s.
Proof.
  intros Hs. pose proof (einv_dev _ _ _ Hs) as (d & Hd & Hv & Hi & Hb & Hx). unfold elan_request_irq.
  apply ewp_bind, (ewp_get_dev _ _ _ _ d); [done|]. rewrite Hi. do 5 ewp_prim.
  destruct x.
  - destruct Hx as [Hl Hz]. rewrite (c_grant _ Hco _ Hl). cbn [Z.eqb negb]. ewp_steps.
    eapply einv_intro; [done|done|done|done|]. left. split; [done|]. cbn [calls].
    rewrite line_of_quiet, line_of_snoc, Hl by done. cbn. by rewrite Z.eqb_refl, (c_grant _ Hco _ Hl).
  - assert (Hbusy : rret (answer (calls s) (RequestIrq irqn)) ≠ 0) by (destruct Hx as [[_ Hl]|[_ Hl]]; by eapply c_busy).
    apply Z.eqb_neq in Hbusy. rewrite Hbusy. cbn [negb]. apply ewp_ret.
    eapply einv_intro; [done|done|done|done|]. cbn [calls]. rewrite line_of_snoc.
    destruct Hx as [[Hn Hl]|[Hn Hl]]; [left|right]; (split; [done|]); rewrite Hl; cbn; by rewrite Hbusy, andb_false_r.
Qed.

(** The commands one by one. *)
Lemma elan_ioctl_ok x x' b cmd arg s :
  session_step x (Ioctl cmd arg) = Some x' → einv x b s →
  ewp False (efsa120s_ioctl cmd arg) (λ _ s', einv x' (latch_step b (Ioctl cmd arg)) s') s.
Proof.
  intros Hx Hs. unfold latch_step. cbn [sets_latch clears_latch]. cbn [session_step] in Hx. unfold efsa120s_ioctl.
  destruct (Z.eqb_spec cmd ID_IOCTL_POLL_INIT) as [->|].
  { injection Hx as <-. ewp_is (kmod (set_elan_work_flag 0) ;; mret 0). ewp_steps. by apply (einv_latch _ b false). }
  destruct (Z.eqb_spec cmd ID_IOCTL_POLL_EXIT) as [->|].
  { injection Hx as <-. ewp_is (kmod (set_elan_work_flag 1) ;; kdo (WakeUp "elan_poll_wq") ;; mret 0).
    apply (ewp_seq _ (einv x true)); [apply ewp_mod; by apply (einv_latch _ b true)|]. intros _ s1 H1.
    apply (einv_quiet (kdo _ ;; mret 0)); [|done]. quiet_tac. }
  destruct (Z.eqb_spec cmd ID_IOCTL_REQUSEST_IRQ) as [->|].
  { injection Hx as <-.
    ewp_is (kwhen (negb (arg =? 0)) (elan_request_irq ;; mret tt) ;; mret 0).
    destruct (arg =? 0); cbn [negb kwhen]; [by do 3 ewp_prim|]. apply ewp_bind, ewp_bind.
    eapply ewp_mono; [|by eapply request_ok]. intros ? s1 H1. by do 2 apply ewp_ret. }
  destruct (Z.eqb_spec cmd ID_IOCTL_DIS_IRQ) as [->|].
  { destruct x; [done|]. injection Hx as <-.
    ewp_is (efsa120s_irq_disable ;; mret 0).
    apply ewp_bind. eapply ewp_mono; [|by eapply disable_ok]. intros ? s1 H1. by apply ewp_ret. }
  destruct (Z.eqb_spec cmd ID_IOCTL_EN_IRQ) as [->|].
  { injection Hx as <-.
    ewp_is (efsa120s_irq_enable ;; mret 0).
    apply ewp_bind. eapply ewp_mono; [|by eapply enable_ok]. intros ? s1 H1. by apply ewp_ret. }
  injection Hx as <-. eapply einv_quiet; [|done].
  quiet_tac; auto using quiet_reset, elan_quiet_power, quiet_key, quiet_set_version.
Qed.

Lemma poll_ok x b signal s :
  einv x b s →
  ewp False (efsa120s_poll signal) (λ r s', r = (if b then Some 1 else if signal then Some 0 else None) ∧ einv x false s') s.
Proof.
  intros Hs. unfold efsa120s_poll. apply (ewp_seq _ (einv x b)); [by eapply einv_quiet; [apply quiet_pointer|]|].
  intros _ s1 H1. apply (ewp_seq _ (einv x b)); [eapply einv_quiet; [quiet_tac|done]|]. intros _ s2 H2.
  pose proof (einv_dev _ _ _ H2) as (d & _ & _ & _ & Hb & _). do 2 ewp_prim. rewrite Hb.
  destruct b, signal; cbn [Z.b2z Z.leb Z.ltb Z.compare negb andb];
    repeat ewp_prim; (split; [done|]); first [exact H2|by eapply (einv_latch _ _ false)].
Qed.

Lemma interrupt_ok x b s : einv x b s → ewp False efsa120s_irq_handler (λ _ s', einv x true s') s.
Proof.
  intros Hs. unfold efsa120s_irq_handler.
  apply (ewp_seq _ (einv x b)); [by eapply einv_quiet; [apply elan_quiet_report|]|]. intros _ s1 H1.
  apply (ewp_seq _ (einv x b)); [by eapply einv_quiet; [apply quiet_pointer|]|]. intros _ s2 H2.
  apply (ewp_seq _ (einv x b)); [eapply einv_quiet; [quiet_tac|done]|]. intros _ s3 H3.
  apply (ewp_seq _ (einv x true)); [apply ewp_mod; by apply (einv_latch _ b true)|]. intros _ s4 H4.
  eapply einv_quiet; [quiet_tac|done].
Qed.

Lemma screen_ok x b val data s :
  einv x b s →
  ewp False (elan_fb_state_chg_callback val data) (λ _ s', einv x (latch_step b (Screen val data)) s') s.
Proof.
  intros Hs. unfold elan_fb_state_chg_callback, latch_step. cbn [sets_latch clears_latch].
  destruct (val =? FpDrvQcom.FB_EARLY_EVENT_BLANK); cbn [negb andb]; [|destruct data; by apply ewp_ret].
  destruct data as [blank|]; [|by apply ewp_ret].
  destruct (blank =? FpDrvQcom.FB_BLANK_POWERDOWN).
  - apply (ewp_seq _ (einv x b)); [eapply einv_quiet; [quiet_tac|done]|]. intros _ s1 H1.
    apply (ewp_seq _ (einv x true)); [apply ewp_mod; by apply (einv_latch _ b true)|]. intros _ s2 H2.
    eapply einv_quiet; [quiet_tac|done].
  - eapply einv_quiet; [quiet_tac|done].
Qed.

Lemma eop_ok x x' b o s :
  session_step x o = Some x' → einv x b s →
  ewp False (apply_eop o) (λ r s', r = latch_answer b o ∧ einv x' (latch_step b o) s') s.
Proof.
  intros Hx Hs. destruct o as [| |cmd arg|signal| |val data|filp on|]; cbn [apply_eop latch_answer]; apply ewp_bind.
  3: { eapply ewp_mono; [|by eapply elan_ioctl_ok]. intros ? s1 H1. by apply ewp_ret. }
  all: injection Hx as <-.
  3: { eapply ewp_mono; [|by eapply poll_ok]. intros r s1 [-> H1]. by apply ewp_ret. }
  3: { eapply ewp_mono; [|by eapply interrupt_ok]. intros r s1 H1. by apply ewp_ret. }
  3: { eapply ewp_mono; [|by eapply screen_ok]. intros r s1 H1. by apply ewp_ret. }
  all: eapply ewp_mono; [|eapply einv_quiet; [|exact Hs]]; [intros ? s1 H1; by apply ewp_ret|].
  - unfold efsa120s_open. quiet_tac.
  - unfold efsa120s_close. quiet_tac.
  - apply quiet_fasync.
  - apply quiet_debug.
Qed.
Lemma eops_ok x x' b ops s :
  session_run x ops = Some x' → einv x b s →
  ewp False (run_eops ops) (λ rs s', rs = latch_run b ops ∧ einv x' (foldl latch_step b ops) s') s.
Proof.
  revert x b s. induction ops as [|o ops IH]; intros x b s; cbn [session_run run_eops latch_run foldl].
  - intros [= <-] Hs. by apply ewp_ret.
  - intros (x1 & Hx1 & Hr)%bind_Some Hs. apply ewp_bind. eapply ewp_mono; [|by eapply eop_ok].
    intros r s1 [-> H1]. cbn beta. apply ewp_bind. eapply ewp_mono; [|by eapply IH]. intros rs s2 [-> H2]. by apply ewp_ret.
Qed.
End Histories.

(** ** Binding *)
Section Probe.
Context `{QK : QcomKernel} `{W : World kcall} `{T : Clock} (irqn : Z).

(** The supply and the interrupt of the board. *)
Record powered : Prop := mk_powered {
  p_get : ∀ tr, 0 < rret (answer tr (RegulatorGet "vdd"));
  p_volt : ∀ tr a b, rret (answer tr (RegulatorSetVoltage "vdd" a b)) = 0;
  p_irq : ∀ tr g, rret (answer tr (GpioToIrq g)) = irqn
}.
Context (Hp : powered).

(** A device on its way, before the supply ([vdd = None]) and after it. *)
Definition binding (P : efsa120s_data → Prop) (s : rt kcall estate) : Prop :=
  line_of irqn (calls s) = Some LFree ∧ elan_work_flag (st s) = 0 ∧
  ∃ d, fp (st s) = Some d ∧ irq_is_disable d = 0 ∧ P d.
Definition binds {A} (P P' : efsa120s_data → Prop) (m : K A) : Prop :=
  ∀ s, binding P s → ewp True m (λ _ s', binding P' s') s.

Lemma binds_bind {A B} P P' P'' (m : K A) (f : A → K B) :
  binds P P' m → (∀ a, binds P' P'' (f a)) → binds P P'' (m ≫= f).
Proof. intros Hm Hf s Hs. apply ewp_bind. eapply ewp_mono; [|by apply Hm]. intros a s'. apply Hf. Qed.
Lemma binds_ret {A} P (a : A) : binds P P (mret a).
Proof. by intros s Hs. Qed.
Lemma binds_if {A} P P' (b : bool) (m1 m2 : K A) : binds P P' m1 → binds P P' m2 → binds P P' (if b then m1 else m2).
Proof. by destruct b. Qed.
Lemma binds_call P c : irq_of c = None → binds P P (kcall_ c).
Proof. intros Hc s (Hl & Hb). apply ewp_call. split; [cbn; by rewrite line_of_quiet by congruence|done]. Qed.
Lemma binds_get {A} P (f : efsa120s_data → A) : binds P P (get f : K A).
Proof. intros s (Hl & Hf & d & Hd & Hb). apply (ewp_get_dev _ _ _ _ d); [done|]. split_and!; try done. by exists d. Qed.
Lemma binds_pointer P : binds P P (pointer : K unit).
Proof. intros s (Hl & Hf & d & Hd & Hb). apply (ewp_pointer _ _ _ d); [done|]. split_and!; try done. by exists d. Qed.
Lemma binds_put (P P' : efsa120s_data → Prop) f :
  (∀ d, irq_is_disable (f d) = irq_is_disable d) → (∀ d, P d → P' (f d)) → binds P P' (put f : K unit).
Proof.
  intros Hi Hf s (Hl & Hw & d & Hd & Hb & HP). apply (ewp_put_dev _ _ _ _ d); [done|]. split_and!; try done.
  exists (f d). rewrite Hi. auto.
Qed.
Ltac binds_prim :=
  lazymatch goal with
  | |- binds _ _ (mret _) => apply binds_ret
  | |- binds _ _ (mbind _ _) => eapply binds_bind; [|intros ?]
  | |- binds _ _ (if _ then _ else _) => apply binds_if
  | |- binds _ _ (kcall_ _) => apply binds_call; reflexivity
  | |- binds _ _ (get _) => apply binds_get
  | |- binds _ _ pointer => apply binds_pointer
  | |- binds _ _ (kret _) => unfold kret
  | |- binds _ _ (kdo _) => unfold kdo
  end.
Ltac binds_tac := repeat binds_prim.

Lemma parse_dt_binds : binds (λ _, True) (λ _, True) elan_parse_dt.
Proof. unfold elan_parse_dt. binds_tac; by apply binds_put. Qed.
Lemma power_init_binds : binds (λ _, True) (λ d, vdd d = RegLive) elan_power_init.
Proof.
  unfold elan_power_init. intros s (Hl & Hf & d & Hd & Hi & _). do 4 ewp_prim. apply ewp_ret.
  pose proof (p_get Hp (calls s)) as Hg. rewrite (proj2 (Z.ltb_ge _ 0)), (proj2 (Z.eqb_neq _ 0)) by lia.
  apply ewp_bind, (ewp_put_dev _ _ _ _ d); [done|]. unfold supply. apply ewp_bind, ewp_bind.
  apply (ewp_get_dev _ _ _ _ (set_vdd RegLive d)); [done|]. cbn [vdd set_vdd].
  repeat ewp_prim; rewrite ?(p_volt Hp) in *; [done|..];
    (split_and!; [cbn; by rewrite !line_of_quiet by done|done|by eexists]).
Qed.
Lemma gpio_config_binds : binds (λ d, vdd d = RegLive) (λ d, vdd d = RegLive ∧ isr d = irqn) efsa120s_gpio_config.
Proof.
  unfold efsa120s_gpio_config. eapply binds_bind; [apply binds_get|]. intros i.
  eapply binds_bind; [binds_tac|]. intros _. eapply binds_bind; [binds_tac|]. intros _.
  intros s (Hl & Hf & d & Hd & Hi & Hv). do 5 ewp_prim. rewrite (p_irq Hp).
  apply ewp_bind, (ewp_put_dev _ _ _ _ d); [done|].
  match goal with |- ewp _ ?m _ ?s => assert (Hb : binds (λ d, vdd d = RegLive ∧ isr d = irqn) (λ d, vdd d = RegLive ∧ isr d = irqn) m) by binds_tac;
    apply Hb end.
  split_and!; [cbn; by rewrite line_of_quiet by done|done|]. by eexists.
Qed.

Lemma probe_binds r :
  ewp True efsa120s_probe (λ z s, z = 0 → binding (λ d, vdd d = RegLive ∧ isr d = irqn) s) (mk_rt [] (elan_initial r)).
Proof.
  unfold efsa120s_probe. apply ewp_bind, ewp_in_registry; [|done]. intros v q Hv.
  ewp_prim; [by apply ewp_ret|]. apply ewp_bind, ewp_in_registry; [|done]. intros v' q' Hv'.
  do 4 ewp_prim. ewp_prim. ewp_prim; [by apply ewp_ub|]. ewp_prim. ewp_prim.
  eapply ewp_mono; [intros ? ? Hs _; exact Hs|].
  eapply (binds_bind (λ _, True)); [apply parse_dt_binds|intros _|].
  { eapply binds_bind; [apply power_init_binds|]. intros _.
    eapply binds_bind; [unfold efsa120s_sysfs_create; binds_tac|]. intros _.
    eapply binds_bind; [unfold efsa120s_setup_cdev; binds_tac|]. intros _.
    eapply binds_bind; [apply gpio_config_binds|]. intros _. binds_tac. }
  split_and!; [done|done|]. by eexists.
Qed.
End Probe.

(** ** Properties *)

(** C20. The Elan driver on a phone where its requests succeed: the supply vdd exists and
    takes its voltage, the kernel grants the line of the sensor's pin exactly when it
    is free, and the version texts the HAL writes have less than 64 characters (the
    driver tests for none of these).  There, from its binding on, for every history of
    the HAL, the interrupt, the screen and the listener in which the line is not
    disabled before it was requested, the driver runs without undefined behaviour, the
    interrupt line is free until the request and then enabled exactly when
    irq_is_disable is 0, never enabled, disabled or granted out of turn; and the
    polls answer as a latch does that the interrupt, the screen going dark and
    POLL_EXIT set: 1 takes it, 0 is a signal, and otherwise the caller waits. *)
Theorem elan_history_correct `{QK : QcomKernel} `{W : World kcall} `{T : Clock} irqn r ops x s :
  (∀ tr, 0 < rret (answer tr (RegulatorGet "vdd"))) →
  (∀ tr a b, rret (answer tr (RegulatorSetVoltage "vdd" a b)) = 0) →
  (∀ tr g, rret (answer tr (GpioToIrq g)) = irqn) →
  (∀ tr, line_of irqn tr = Some LFree → rret (answer tr (RequestIrq irqn)) = 0) →
  (∀ tr n, line_of irqn tr = Some (LTaken n) → rret (answer tr (RequestIrq irqn)) ≠ 0) →
  (∀ tr, ∃ t, cstr (copied 256 (answer tr (CopyFromUser 256))) = Val t ∧ (String.length t < 64)%nat) →
  efsa120s_probe (mk_rt [] (elan_initial r)) = Val (0, s) →
  session_run Idle ops = Some x →
  ∃ s' d, run_eops ops s = Val (latch_run false ops, s') ∧ fp (st s') = Some d ∧
    match x with
    | Idle => line_of irqn (calls s') = Some LFree
    | Active => (irq_is_disable d = 0 ∧ line_of irqn (calls s') = Some (LTaken 0)) ∨
                (irq_is_disable d = 1 ∧ line_of irqn (calls s') = Some (LTaken 1))
    end.
Proof.
  intros Hget Hvolt Hirq Hgrant Hbusy Hver Hpr Hx.
  assert (Hco : cooperative irqn) by (by split). assert (Hp : powered irqn) by (by split). pose proof (probe_binds irqn Hp r) as Hb.
  destruct (ewp_elim _ _ _ _ _ _ Hb Hpr eq_refl) as (Hl & Hf & d & Hd & Hi & Hv & Hn).
  assert (Hs : einv irqn Idle false s) by (by eapply einv_intro).
  pose proof (eops_ok irqn Hco _ _ _ _ _ Hx Hs) as Hw. apply ewp_total in Hw as (rs & s' & Hrun & -> & Hinv).
  destruct (einv_dev _ _ _ _ Hinv) as (d' & Hd' & _ & _ & _ & Hline). exists s', d'. split_and!; [done|done|].
  destruct x; [by destruct Hline|done].
Qed.

(** A phone with the ID pin strapped low, line 91 and a supply, on which the HAL
    gives the version V7. *)
Definition elan_phone : QcomKernel := {|
  of_node := true; kzalloc_ok := true; devm_pinctrl_get := 16;
  pinctrl_lookup_state _ _ := 32; pinctrl_select_state _ _ := 0;
  of_get_named_gpio _ := 9; gpio_get_value _ _ _ := 0;
  leds_list := [Some "lcd-backlight"]; fp_disp_qsee_log_stats := true;
  register_chrdev := 240; class_create := 4096; platform_device_register := 0; platform_driver_register := 0
|}.
Definition elan_world : World kcall := λ tr c,
  match c with
  | OfGetNamedGpio l => mk_resp (if String.eqb l "qcom,irq-gpio" then 12 else 11) []
  | GpioToIrq _ => mk_resp 91 []
  | DevmKzalloc _ | RegulatorGet _ => mk_resp 4096 []
  | RegulatorCountVoltages _ => mk_resp 3 []
  | CopyFromUser n => mk_resp 0 ([86; 55] ++ repeat 0 (n - 2))
  | RequestIrq n => mk_resp (if decide (line_of n tr = Some LFree) then 0 else -16) []
  | _ => mk_resp 0 []
  end.
Definition elan_clock : Clock := λ tr, Z.of_nat (length tr).
Definition elan_probe_state : rt kcall estate :=
  match @efsa120s_probe elan_phone elan_world (mk_rt [] (elan_initial FpDrvQcom.fq_initial)) with
  | Val (_, s) => s | UB => mk_rt [] (elan_initial FpDrvQcom.fq_initial)
  end.

Definition elan_session : list eop :=
  [Open; Poll false; Ioctl ID_IOCTL_REQUSEST_IRQ 1; Interrupt; Poll false; Poll true; Ioctl ID_IOCTL_SET_VERSION 0;
   Screen 16 (Some 4); Ioctl ID_IOCTL_DIS_IRQ 0; Poll false].
Lemma elan_history_correct_witness :
  ∃ s' d, @run_eops elan_world elan_clock elan_session elan_probe_state = Val ([None; Some 1; Some 0; Some 1], s') ∧
    fp (st s') = Some d ∧
    ((irq_is_disable d = 0 ∧ line_of 91 (calls s') = Some (LTaken 0)) ∨
     (irq_is_disable d = 1 ∧ line_of 91 (calls s') = Some (LTaken 1))).
Proof.
  apply (@elan_history_correct elan_phone elan_world elan_clock 91 FpDrvQcom.fq_initial elan_session Active elan_probe_state).
  - done.
  - done.
  - done.
  - intros tr Hl. cbn. by rewrite decide_True.
  - intros tr n Hl. cbn. rewrite decide_False; [done|]. by rewrite Hl.
  - intros tr. exists "V7". split; [done|]. cbn. lia.
  - vm_compute. reflexivity.
  - reflexivity.
Defined.

(** The version text makes the round trip through the driver: when the registry
    has none yet, SET_VERSION with 256 bytes from the HAL registers the text at
    their start, and GET_VERSION gives the same bytes back.  A text of 64 or more
    characters, or bytes without a terminator, overflow the registry's buffer. *)
Theorem elan_version_roundtrip `{W : World kcall} `{T : Clock} s bs arg arg' :
  length bs = MAX_LIB_BUF → answer (calls s) (CopyFromUser MAX_LIB_BUF) = mk_resp 0 bs →
  FpDrvQcom.all_info_exist (FpDrvQcom.rg (reg (st s))) ≠ 1 →
  match cstr bs with
  | Val t =>
      if (String.length t <? FpDrv.NAME_SIZE)%nat then
        ∃ s1 s2 r, efsa120s_ioctl ID_IOCTL_SET_VERSION arg s = Val (0, s1) ∧
          FpDrvQcom.all_info_show (FpDrvQcom.rg (reg (st s1))) = t ∧
          efsa120s_ioctl ID_IOCTL_GET_VERSION arg' s1 = Val (0, s2) ∧ calls s2 = calls s1 ++ [(CopyToUser bs, r)]
      else efsa120s_ioctl ID_IOCTL_SET_VERSION arg s = UB
  | UB => efsa120s_ioctl ID_IOCTL_SET_VERSION arg s = UB
  end.
Proof.
  intros Hlen Hu He. apply Z.eqb_neq in He.
  assert (Hb : copied MAX_LIB_BUF (mk_resp 0 bs) = bs).
  { unfold copied. cbn [rout]. by rewrite take_app_length' by done. }
  change (efsa120s_ioctl ID_IOCTL_SET_VERSION arg s) with (ioctl_set_version s).
  assert (Hs : ioctl_set_version s =
    (in_registry (chip_info_at bs) ;; mret 0) (mk_rt (calls s ++ [(CopyFromUser MAX_LIB_BUF, mk_resp 0 bs)]) (set_lib_ver_buf bs (st s)))).
  { unfold ioctl_set_version, kcall_, kmod, kget, kwhen, mbind, IO_bind. cbn beta iota zeta. rewrite Hu, Hb. cbn [rret Z.eqb calls st lib_ver_buf set_lib_ver_buf].
    by destruct (in_registry _ _) as [[z s']|]. }
  rewrite Hs. unfold in_registry, klift, kget, kmod, mbind, IO_bind, chip_info_at, FpDrvQcom.full_fp_chip_info, FpDrv.strcpy. cbn [st registry_of estate_registry reg set_lib_ver_buf].
  rewrite He. destruct (cstr bs) as [t|]; [|done]. rewrite bind_Val.
  destruct (String.length t <? FpDrv.NAME_SIZE)%nat; [|done]. rewrite bind_Val. eexists _, _, _. by split_and!.
Qed.

Lemma elan_version_roundtrip_witness :
  ∃ s1, @efsa120s_ioctl elan_world elan_clock ID_IOCTL_SET_VERSION 0 elan_probe_state = Val (0, s1) ∧
    FpDrvQcom.all_info_show (FpDrvQcom.rg (reg (st s1))) = "V7".
Proof.
  destruct (@elan_version_roundtrip elan_world elan_clock elan_probe_state ([86; 55] ++ repeat 0 254) 0 0
    eq_refl eq_refl) as (s1 & s2 & r & H1 & H2 & _); [by vm_compute|].
  exists s1. split; [exact H1|exact H2].
Defined.
End Elan.
