(* ===== verification/Goodix.v ===== *)
(** * The Goodix sensor driver
      (src/vendor/tinno/Fingerprint-N/KERNEL/qcom/kernel-3.18/drivers/input/fingerprint/goodix_gf5216)

    gf_spi.c, the character device of the Goodix HAL, and platform.c, its pins and
    supply.  The static object gf is [gf_dev]; the file variables are [gstate].
    AP_CONTROL_CLK is not defined, USE_SPI_BUS and GF_FASYNC are. *)
From S2P Require Import Prelude Runtime DriverRt FpDrv FpDrvQcom FpClient.

Module Goodix.

(** ** Constants *)

(** _IO('g', n) and _IOW('g', n, size) *)
Definition io (n : Z) : Z := 0x6700 + n.
Definition iow (n size : Z) : Z := 0x40006700 + Z.shiftl size 16 + n.
Definition GF_IOC_MAGIC : Z := 0x67.
Definition GF_IOC_DISABLE_IRQ : Z := io 0.
Definition GF_IOC_ENABLE_IRQ : Z := io 1.
Definition GF_IOC_SETSPEED : Z := iow 2 4.
Definition GF_IOC_RESET : Z := io 3.
Definition GF_IOC_COOLBOOT : Z := io 4.
Definition GF_IOC_SENDKEY : Z := iow 5 8.
Definition GF_IOC_CLK_READY : Z := io 6.
Definition GF_IOC_CLK_UNREADY : Z := io 7.
Definition GF_IOC_PM_FBCABCK : Z := io 8.
Definition GF_IOC_POWER_ON : Z := io 9.
Definition GF_IOC_POWER_OFF : Z := io 10.
Definition GF_IOC_REQUEST_IRQ : Z := io 11.
Definition GF_IOC_RELEASEVERSION : Z := iow 12 8.
Definition GFX1XM_IOC_FTM : Z := iow 101 4.

(** _IOC_TYPE, _IOC_DIR and _IOC_SIZE *)
Definition ioc_type (cmd : Z) : Z := Z.land (Z.shiftr cmd 8) 0xff.
Definition ioc_dir (cmd : Z) : Z := Z.land (Z.shiftr cmd 30) 3.
Definition ioc_size (cmd : Z) : Z := Z.land (Z.shiftr cmd 16) 0x3fff.

Definition GF_DEV_NAME : string := "goodix_fp".
Definition SPIDEV_MAJOR : Z := 225.
Definition N_SPI_MINORS : nat := 32.
Definition GF_MAX_LIB_BUF : nat := 256.
Definition GF_VDD_MIN_UV : Z := 2800000.
Definition GF_VDD_MAX_UV : Z := 2850000.
Definition POLLIN : Z := 0x1.
Definition POLLRDNORM : Z := 0x40.
Definition EIO : Z := 5.
Definition ENXIO : Z := 6.
Definition EFAULT : Z := 14.
Definition ENODEV : Z := 19.
Definition EINVAL : Z := 22.

(** The codes of the keys in key_map, in order *)
Definition key_map : list Z := [116; 102; 139; 158; 103; 108; 105; 106; 67; 189; 59; 60; 61].

(** ** State *)

(** The pointer to the supply: null, an error pointer, held, or put back. *)
Inductive regulator := RegNull | RegErr | RegLive | RegPut.

(** [listed]: the object is on device_list; [input]: its input device is there. *)
Record gf_dev := mk_gf {
  devt : Z;
  listed : bool;
  input : bool;
  users : Z;
  irq_gpio : Z;
  reset_gpio : Z;
  pwr_gpio : Z;
  irq : Z;
  irq_enabled : Z;
  async : list Z;
  device_available : Z;
  fb_black : Z;
  isPowerOn : Z;
  vdd : regulator
}.
Definition set_devt v s := mk_gf v (listed s) (input s) (users s) (irq_gpio s) (reset_gpio s) (pwr_gpio s) (irq s) (irq_enabled s) (async s) (device_available s) (fb_black s) (isPowerOn s) (vdd s).
Definition set_listed v s := mk_gf (devt s) v (input s) (users s) (irq_gpio s) (reset_gpio s) (pwr_gpio s) (irq s) (irq_enabled s) (async s) (device_available s) (fb_black s) (isPowerOn s) (vdd s).
Definition set_input v s := mk_gf (devt s) (listed s) v (users s) (irq_gpio s) (reset_gpio s) (pwr_gpio s) (irq s) (irq_enabled s) (async s) (device_available s) (fb_black s) (isPowerOn s) (vdd s).
Definition set_users v s := mk_gf (devt s) (listed s) (input s) v (irq_gpio s) (reset_gpio s) (pwr_gpio s) (irq s) (irq_enabled s) (async s) (device_available s) (fb_black s) (isPowerOn s) (vdd s).
Definition set_irq_gpio v s := mk_gf (devt s) (listed s) (input s) (users s) v (reset_gpio s) (pwr_gpio s) (irq s) (irq_enabled s) (async s) (device_available s) (fb_black s) (isPowerOn s) (vdd s).
Definition set_reset_gpio v s := mk_gf (devt s) (listed s) (input s) (users s) (irq_gpio s) v (pwr_gpio s) (irq s) (irq_enabled s) (async s) (device_available s) (fb_black s) (isPowerOn s) (vdd s).
Definition set_pwr_gpio v s := mk_gf (devt s) (listed s) (input s) (users s) (irq_gpio s) (reset_gpio s) v (irq s) (irq_enabled s) (async s) (device_available s) (fb_black s) (isPowerOn s) (vdd s).
Definition set_irq v s := mk_gf (devt s) (listed s) (input s) (users s) (irq_gpio s) (reset_gpio s) (pwr_gpio s) v (irq_enabled s) (async s) (device_available s) (fb_black s) (isPowerOn s) (vdd s).
Definition set_irq_enabled v s := mk_gf (devt s) (listed s) (input s) (users s) (irq_gpio s) (reset_gpio s) (pwr_gpio s) (irq s) v (async s) (device_available s) (fb_black s) (isPowerOn s) (vdd s).
Definition set_async v s := mk_gf (devt s) (listed s) (input s) (users s) (irq_gpio s) (reset_gpio s) (pwr_gpio s) (irq s) (irq_enabled s) v (device_available s) (fb_black s) (isPowerOn s) (vdd s).
Definition set_device_available v s := mk_gf (devt s) (listed s) (input s) (users s) (irq_gpio s) (reset_gpio s) (pwr_gpio s) (irq s) (irq_enabled s) (async s) v (fb_black s) (isPowerOn s) (vdd s).
Definition set_fb_black v s := mk_gf (devt s) (listed s) (input s) (users s) (irq_gpio s) (reset_gpio s) (pwr_gpio s) (irq s) (irq_enabled s) (async s) (device_available s) v (isPowerOn s) (vdd s).
Definition set_isPowerOn v s := mk_gf (devt s) (listed s) (input s) (users s) (irq_gpio s) (reset_gpio s) (pwr_gpio s) (irq s) (irq_enabled s) (async s) (device_available s) (fb_black s) v (vdd s).
Definition set_vdd v s := mk_gf (devt s) (listed s) (input s) (users s) (irq_gpio s) (reset_gpio s) (pwr_gpio s) (irq s) (irq_enabled s) (async s) (device_available s) (fb_black s) (isPowerOn s) v.
Definition gf_zero : gf_dev := mk_gf 0 false false 0 0 0 0 0 0 [] 0 0 0 RegNull.

Record gstate := mk_gstate {
  reg : FpDrvQcom.fq_state;
  gf : gf_dev;
  minors : Z;
  ftm_gfx_irq_state : Z;
  ftm_gfx_irq_send_key : Z;
  gf_lib_ver_buf : list Z
}.
Definition set_reg v s := mk_gstate v (gf s) (minors s) (ftm_gfx_irq_state s) (ftm_gfx_irq_send_key s) (gf_lib_ver_buf s).
Definition set_gf v s := mk_gstate (reg s) v (minors s) (ftm_gfx_irq_state s) (ftm_gfx_irq_send_key s) (gf_lib_ver_buf s).
Definition set_minors v s := mk_gstate (reg s) (gf s) v (ftm_gfx_irq_state s) (ftm_gfx_irq_send_key s) (gf_lib_ver_buf s).
Definition set_ftm_gfx_irq_state v s := mk_gstate (reg s) (gf s) (minors s) v (ftm_gfx_irq_send_key s) (gf_lib_ver_buf s).
Definition set_ftm_gfx_irq_send_key v s := mk_gstate (reg s) (gf s) (minors s) (ftm_gfx_irq_state s) v (gf_lib_ver_buf s).
Definition set_gf_lib_ver_buf v s := mk_gstate (reg s) (gf s) (minors s) (ftm_gfx_irq_state s) (ftm_gfx_irq_send_key s) v.
Definition goodix_initial (r : FpDrvQcom.fq_state) : gstate :=
  mk_gstate r gf_zero 0 0 0 (codes "unknow" ++ repeat 0 250).

#[global] Instance gstate_registry : HasRegistry gstate.
Proof. refine {| registry_of := reg; put_registry := set_reg |}. done. Defined.
(** The object is static: it is always there. *)
#[global] Instance gstate_device : HasDevice gstate gf_dev.
Proof. refine {| dev_of s := Some (gf s); put_dev d s := set_gf (default (gf s) d) s |}. done. Defined.

Abbreviation K := (IO kcall gstate).

Section Goodix.
Context `{W : World kcall} `{G : Gpios}.

(** ** platform.c *)
Definition gf_parse_dts : K Z :=
  i ← kret (OfGetNamedGpio "qcom,irq-gpio");
  put (set_irq_gpio i) ;;
  if gpio_is_valid i then
    rc ← kret (PinctrlRequestGpio i);
    if negb (rc =? 0) then mret rc else
    kdo (PinctrlGpioDirectionInput i) ;;
    g ← kret (OfGetNamedGpio "qcom,reset-gpio");
    put (set_reset_gpio g) ;;
    if gpio_is_valid g then kret (GpioRequest g "gf_reset-gpio") else mret (- EIO)
  else mret (- EIO).

Definition free_pin (field : gf_dev → Z) : K unit :=
  g ← get field; kwhen (gpio_is_valid g) (kdo (GpioFree g)).
Definition gf_cleanup : K unit := free_pin irq_gpio ;; free_pin reset_gpio ;; free_pin pwr_gpio.

(** A use of the supply, whose pointer must be a held one. *)
Definition supply : K unit :=
  v ← get vdd; match v with RegLive => mret tt | _ => kub end.

Definition gf_power_ctl (on : bool) : K Z :=
  p ← get isPowerOn;
  if on && (p =? 0) then
    supply ;; rc ← kret (RegulatorEnable "vdd");
    if negb (rc =? 0) then mret rc else
    kdo (Mdelay 10) ;; put (set_isPowerOn 1) ;; mret rc
  else if negb on && negb (p =? 0) then
    supply ;; rc ← kret (RegulatorDisable "vdd");
    if negb (rc =? 0) then mret rc else
    put (set_isPowerOn 0) ;; mret rc
  else mret 0.
Definition gf_power_on : K Z := gf_power_ctl true.
Definition gf_power_off : K Z := gf_power_ctl false.

Definition gf_hw_reset (delay_ms : Z) : K Z :=
  g ← get reset_gpio;
  kdo (GpioDirectionOutput g 1) ;; kdo (GpioSetValue g 0) ;; kdo (Mdelay 20) ;;
  kdo (GpioSetValue g 1) ;; kdo (Mdelay delay_ms) ;; mret 0.
Definition gf_irq_num : K Z := g ← get irq_gpio; kret (GpioToIrq g).

Definition gf_power_init : K Z :=
  p ← kret (RegulatorGet "vdd");
  put (set_vdd (if p <? 0 then RegErr else if p =? 0 then RegNull else RegLive)) ;;
  if p <? 0 then mret p else
  supply ;; n ← kret (RegulatorCountVoltages "vdd");
  if 0 <? n then
    ret ← kret (RegulatorSetVoltage "vdd" GF_VDD_MIN_UV GF_VDD_MAX_UV);
    if negb (ret =? 0) then kdo (RegulatorPut "vdd") ;; put (set_vdd RegPut) ;; mret ret else mret 0
  else mret 0.

Definition gf_power_deinit : K Z :=
  v ← get vdd;
  match v with
  | RegNull => mret 0
  | _ =>
      supply ;;
      n ← kret (RegulatorCountVoltages "vdd");
      kwhen (0 <? n) (kdo (RegulatorSetVoltage "vdd" 0 GF_VDD_MAX_UV)) ;;
      kdo (RegulatorDisable "vdd") ;; kdo (RegulatorPut "vdd") ;; put (set_vdd RegPut) ;; mret 0
  end.

(** ** gf_spi.c: interrupts *)
Definition gf_enable_irq : K unit :=
  e ← get irq_enabled;
  if negb (e =? 0) then mret tt else n ← get irq; kdo (EnableIrq n) ;; put (set_irq_enabled 1).
Definition gf_disable_irq : K unit :=
  e ← get irq_enabled;
  if negb (e =? 0) then put (set_irq_enabled 0) ;; n ← get irq; kdo (DisableIrq n) else mret tt.

(** kill_fasync, when somebody is in the queue *)
Definition signal_async : K unit :=
  q ← get async; kwhen (negb (bool_decide (q = []))) (kdo KillFasync).

Definition gf_irq : K unit := kdo (WakeLockTimeout "goodix_wake_lock" 5000) ;; signal_async.

(** ** The character device *)

(** struct gf_key: key and value, 4 bytes each *)
Definition ioctl_send_key : K Z :=
  kmod (set_ftm_gfx_irq_state 0) ;;
  r ← kcall_ (CopyFromUser 8);
  if negb (rret r =? 0) then mret (- EFAULT) else
  let value := i32 (le_load (sub 4 4 (copied 8 r))) in
  (if value =? 1 then kmod (set_ftm_gfx_irq_state 1)
   else if value =? 0 then kmod (set_ftm_gfx_irq_state 2) else mret tt) ;;
  kmod (set_ftm_gfx_irq_send_key 1) ;;
  kdo (WakeUp "gf_poll_wq") ;; mret 0.

(** __get_user stores 0 when it fails; the result of __put_user is returned. *)
Definition ioctl_ftm : K Z :=
  r ← kcall_ (CopyFromUser 4);
  let tmp1 := if rret r =? 0 then i32 (le_load (copied 4 r)) else 0 in
  tmp ← kget ftm_gfx_irq_state;
  kwhen (tmp1 =? 0) (kmod (set_ftm_gfx_irq_state 0)) ;;
  kret (CopyToUser (le_store 4 tmp)).

Definition ioctl_request_irq : K Z :=
  n ← get irq;
  err ← kret (RequestIrq n);
  if negb (err =? 0) then mret 0 else
  kdo (EnableIrqWake n) ;;
  gf_disable_irq ;;
  in_registry (FpDrvQcom.full_fp_chip_name (Some GF_DEV_NAME)) ;; mret 0.

Definition ioctl_version : K Z :=
  r ← kcall_ (CopyFromUser GF_MAX_LIB_BUF);
  kmod (set_gf_lib_ver_buf (copied GF_MAX_LIB_BUF r)) ;;
  kwhen (rret r =? 0) (b ← kget gf_lib_ver_buf; in_registry (chip_info_at b) ;; mret tt) ;;
  mret 0.

(** The commands, once the arguments and the sensor are there. *)
Definition gf_command (cmd : Z) : K Z :=
  if cmd =? GF_IOC_DISABLE_IRQ then gf_disable_irq ;; mret 0
  else if cmd =? GF_IOC_ENABLE_IRQ then gf_enable_irq ;; mret 0
  else if cmd =? GF_IOC_RESET then gf_hw_reset 70 ;; mret 0
  else if cmd =? GF_IOC_COOLBOOT then gf_power_off ;; kdo (Mdelay 5) ;; gf_power_on ;; mret 0
  else if cmd =? GF_IOC_SENDKEY then ioctl_send_key
  else if cmd =? GF_IOC_PM_FBCABCK then b ← get fb_black; kdo (CopyToUser [u8 b]) ;; mret 0
  else if cmd =? GF_IOC_POWER_ON then
    a ← get device_available;
    (if a =? 1 then mret 0 else gf_power_on) ;; put (set_device_available 1) ;; mret 0
  else if cmd =? GF_IOC_POWER_OFF then
    a ← get device_available;
    (if a =? 0 then mret 0 else gf_power_off) ;; put (set_device_available 0) ;; mret 0
  else if cmd =? GFX1XM_IOC_FTM then ioctl_ftm
  else if cmd =? GF_IOC_REQUEST_IRQ then ioctl_request_irq
  else if cmd =? GF_IOC_RELEASEVERSION then ioctl_version
  else mret 0.

(** access_ok of the argument, for a command that reads or writes it *)
Definition check_access (cmd : Z) : K bool :=
  r ← (if Z.testbit (ioc_dir cmd) 1 then v ← kret (AccessOk true (ioc_size cmd)); mret (v =? 0) else mret false);
  if negb r && Z.testbit (ioc_dir cmd) 0
  then v ← kret (AccessOk false (ioc_size cmd)); mret (v =? 0)
  else mret r.

Definition gf_ioctl (cmd : Z) : K Z :=
  if negb (ioc_type cmd =? GF_IOC_MAGIC) then mret (- ENODEV) else
  bad ← check_access cmd;
  if (bad : bool) then mret (- EFAULT) else
  a ← get device_available;
  if (a =? 0) && negb ((cmd =? GF_IOC_POWER_ON) || (cmd =? GF_IOC_POWER_OFF)) then mret (- ENODEV) else
  gf_command cmd.
Definition gf_compat_ioctl (cmd : Z) : K Z := gf_ioctl cmd.

(** [rdev]: the device number of the inode. *)
Definition gf_open (rdev : Z) : K Z :=
  l ← get listed;
  d ← get devt;
  if (l : bool) && (d =? rdev) then
    u ← get users; put (set_users (u32 (u + 1))) ;;
    u ← get users;
    kwhen (u =? 1) gf_enable_irq ;;
    gf_power_on ;;
    gf_hw_reset 360 ;;
    put (set_device_available 1) ;; mret 0
  else mret (- ENXIO).

Definition gf_fasync (filp : Z) (mode : bool) : K Z :=
  q ← get async;
  let '(r, q) := fasync_helper filp mode q in
  put (set_async q) ;; mret r.

(** poll_wait only queues the caller. *)
Definition gf_fp_poll : K Z :=
  k ← kget ftm_gfx_irq_send_key;
  kmod (set_ftm_gfx_irq_send_key 0) ;;
  mret (if negb (k =? 0) then Z.lor POLLIN POLLRDNORM else 0).

Definition gf_release : K Z :=
  u ← get users; put (set_users (u32 (u - 1))) ;;
  u ← get users;
  kwhen (u =? 0)
    (gf_disable_irq ;;
     n ← get irq;
     kwhen (negb (n =? 0)) (kdo (FreeIrq n)) ;;
     put (set_device_available 0) ;;
     gf_power_off ;; mret tt) ;;
  mret 0.

(** [data]: evdata->data, when both pointers are there. *)
Definition goodix_fb_state_chg_callback (val : Z) (data : option Z) : K Z :=
  if negb (val =? FpDrvQcom.FB_EARLY_EVENT_BLANK) then mret 0 else
  match data with
  | Some blank =>
      a ← get device_available;
      (if blank =? FpDrvQcom.FB_BLANK_POWERDOWN then
         kwhen (a =? 1) (put (set_fb_black 1) ;; signal_async)
       else if blank =? FpDrvQcom.FB_BLANK_UNBLANK then
         kwhen (a =? 1) (put (set_fb_black 0) ;; signal_async)
       else mret tt) ;;
      mret FpDrvQcom.NOTIFY_OK
  | None => mret FpDrvQcom.NOTIFY_OK
  end.

(** ** Probe and remove *)
Definition gf_reg_key_kernel : K unit :=
  i ← get input;
  if negb (i : bool) then kub else kdo (InputRegisterDevice key_map).

(** MKDEV *)
Definition mkdev (minor : Z) : Z := Z.lor (Z.shiftl SPIDEV_MAJOR 20) minor.

(** The path of a probe that failed before it had a device number; an old number
    of the static object takes the rest of the path. *)
Definition probe_error : K Z :=
  gf_cleanup ;;
  put (set_device_available 0) ;;
  d ← get devt;
  kwhen (negb (d =? 0))
    (put (set_listed false) ;; kdo DeviceDestroy ;;
     kmod (λ s, set_minors (Z.clearbit (minors s) (Z.land d 0xfffff)) s) ;;
     i ← get input; kwhen i (kdo InputUnregisterDevice)) ;;
  mret (- EINVAL).

Definition probe_number : K Z :=
  b ← kget minors;
  let minor := first_zero_bit b 0 N_SPI_MINORS in
  if minor <? Z.of_nat N_SPI_MINORS then
    put (set_devt (mkdev minor)) ;;
    d ← kret DeviceCreate;
    if d <? 0 then put (set_devt 0) ;; mret d else
    kmod (λ s, set_minors (Z.setbit (minors s) minor) s) ;; put (set_listed true) ;; mret 0
  else put (set_devt 0) ;; mret (- ENODEV).

Definition gf_probe : K Z :=
  put (set_listed false) ;;
  put (set_irq_gpio (- EINVAL)) ;; put (set_reset_gpio (- EINVAL)) ;; put (set_pwr_gpio (- EINVAL)) ;;
  put (set_device_available 0) ;; put (set_fb_black 0) ;;
  r ← gf_parse_dts;
  if negb (r =? 0) then probe_error else
  r ← gf_power_init;
  if negb (r =? 0) then probe_error else
  put (set_isPowerOn 0) ;;
  r ← gf_power_on;
  if negb (r =? 0) then gf_power_deinit ;; probe_error else
  status ← probe_number;
  (if status =? 0 then
     p ← kret InputAllocateDevice;
     put (set_input (0 <? p)) ;;
     kdo FbRegisterClient ;;
     gf_reg_key_kernel ;;
     n ← gf_irq_num;
     put (set_irq n)
   else mret tt) ;;
  kdo (WakeLockInit "goodix_wake_lock") ;;
  mret status.

(** kfree is called on the static object. *)
Definition gf_remove : K Z :=
  n ← get irq;
  kwhen (negb (n =? 0)) (kdo (FreeIrq n)) ;;
  i ← get input;
  kwhen i (kdo InputUnregisterDevice) ;;
  kdo InputFreeDevice ;;
  d ← get devt;
  put (set_listed false) ;; kdo DeviceDestroy ;;
  kmod (λ s, set_minors (Z.clearbit (minors s) (Z.land d 0xfffff)) s) ;;
  gf_power_deinit ;;
  u ← get users;
  if u =? 0 then kub else mret 0.

Definition gf_suspend : K Z := mret 0.
Definition gf_resume : K Z := mret 0.

Definition gf_init : K Z :=
  status ← kret RegisterChrdev;
  if status <? 0 then mret status else
  c ← kret ClassCreate;
  if c <? 0 then kdo UnregisterChrdev ;; mret c else
  status ← kret SpiRegisterDriver;
  kwhen (status <? 0) (kdo ClassDestroy ;; kdo UnregisterChrdev) ;;
  mret 0.
Definition gf_exit : K unit := kdo SpiUnregisterDriver ;; kdo ClassDestroy ;; kdo UnregisterChrdev.
End Goodix.

(** ** Histories of the device *)
Inductive gop :=
| Open (rdev : Z) | Release
| Ioctl (cmd : Z)
| Poll
| Interrupt
| Screen (val : Z) (data : option Z)
| Fasync (filp : Z) (on : bool).

(** The users of a device with the number [number]; the last close, and more
    opens than the counter holds, leave the session. *)
Definition users_step (number : Z) (n : Z) (o : gop) : option Z :=
  match o with
  | Open rdev => if rdev =? number then if n + 1 <? 4294967296 then Some (n + 1) else None else Some n
  | Release => if 2 <=? n then Some (n - 1) else None
  | _ => Some n
  end.
Fixpoint users_run (number n : Z) (ops : list gop) : option Z :=
  match ops with [] => Some n | o :: ops' => users_step number n o ≫= λ n, users_run number n ops' end.

Section Histories.
Context `{W : World kcall} `{G : Gpios}.

Definition apply_gop (o : gop) : K Z :=
  match o with
  | Open rdev => gf_open rdev
  | Release => gf_release
  | Ioctl cmd => gf_ioctl cmd
  | Poll => gf_fp_poll
  | Interrupt => gf_irq ;; mret 0
  | Screen val data => goodix_fb_state_chg_callback val data
  | Fasync filp on => gf_fasync filp on
  end.
Fixpoint run_gops (ops : list gop) : K unit :=
  match ops with [] => mret tt | o :: ops' => apply_gop o ;; run_gops ops' end.

(** *** A session

    [k]: how many calls were made before the line was requested; [number]: the
    device number. *)
Context (irqn number : Z) (k : nat).

(** A kernel that does not grant the line twice, and a HAL whose version text fits
    the registry. *)
Record cooperative : Prop := mk_cooperative {
  c_irq : irqn ≠ 0;
  c_busy : ∀ tr n, line_of irqn (drop k tr) = Some (LTaken n) → rret (answer tr (RequestIrq irqn)) ≠ 0;
  c_version : ∀ tr, ∃ t, cstr (copied GF_MAX_LIB_BUF (answer tr (CopyFromUser GF_MAX_LIB_BUF))) = Val t ∧
    (String.length t < FpDrv.NAME_SIZE)%nat
}.
Context (Hco : cooperative).

(** The supply is held, and on as often as isPowerOn says. *)
Definition powered (s : rt kcall gstate) : Prop :=
  vdd (gf (st s)) = RegLive ∧ (k ≤ length (calls s))%nat ∧
  held (RPower "vdd") (calls s) = isPowerOn (gf (st s)) ∧ (isPowerOn (gf (st s)) = 0 ∨ isPowerOn (gf (st s)) = 1).
Definition view (s : rt kcall gstate) : option line * (Z * Z * Z) * (bool * Z) :=
  (line_of irqn (drop k (calls s)), (irq (gf (st s)), irq_enabled (gf (st s)), users (gf (st s))),
   (listed (gf (st s)), devt (gf (st s)))).

Abbreviation quiet := (frames powered view).

Lemma since_snoc tr (ev : kevent) : (k ≤ length tr)%nat → drop k (tr ++ [ev]) = drop k tr ++ [ev].
Proof. intros Hk. by rewrite drop_app_le. Qed.

Lemma gf_quiet_call c : irq_of c = None → (∀ r, delta (RPower "vdd") (c, r) = 0) → quiet (kcall_ c).
Proof.
  intros Hc Hd s (Hv & Hk & Hp & Hb). apply ewp_call. split.
  - split_and!; [done|cbn; rewrite length_app; lia| |done]. cbn. rewrite held_snoc, Hd. cbn in Hp. lia.
  - unfold view. cbn. by rewrite since_snoc, line_of_quiet by (done || congruence).
Qed.
Lemma gf_quiet_get {A} (f : gf_dev → A) : quiet (get f : K A).
Proof. intros s Hs. by apply (ewp_get_dev _ _ _ _ (gf (st s))). Qed.
Lemma gf_quiet_put f :
  (∀ d, vdd (f d) = vdd d) → (∀ d, isPowerOn (f d) = isPowerOn d) →
  (∀ d, (irq (f d), irq_enabled (f d), users (f d), listed (f d), devt (f d)) =
        (irq d, irq_enabled d, users d, listed d, devt d)) → quiet (put f : K unit).
Proof.
  intros Hv Hp Hw s Hs. apply (ewp_put_dev _ _ _ _ (gf (st s))); [done|].
  specialize (Hw (gf (st s))). injection Hw as H1 H2 H3 H4 H5.
  unfold powered, view in *. cbn. by rewrite Hv, Hp, H1, H2, H3, H4, H5.
Qed.
Lemma gf_quiet_mod f : (∀ s, gf (f s) = gf s) → quiet (kmod f : K unit).
Proof. intros Hf s Hs. apply ewp_mod. unfold powered, view in *. cbn. by rewrite Hf. Qed.
Lemma gf_quiet_supply : quiet supply.
Proof.
  intros s Hs. unfold supply. apply ewp_bind, (ewp_get_dev _ _ _ _ (gf (st s))); [done|].
  pose proof Hs as [-> _]. by apply ewp_ret.
Qed.

Ltac quiet_prim :=
  first
    [ frames_step | apply gf_quiet_call; [reflexivity|intros ?; reflexivity] | apply gf_quiet_get | apply gf_quiet_supply
    | apply gf_quiet_put; reflexivity | apply gf_quiet_mod; reflexivity
    | progress unfold kret, kdo ].
Ltac quiet_tac := repeat quiet_prim.

(** A call that switches the supply, with the flag that follows it. *)
Lemma switched s c r p :
  powered s → irq_of c = None → p = isPowerOn (gf (st s)) + delta (RPower "vdd") (c, r) → p = 0 ∨ p = 1 →
  let s' := mk_rt (calls s ++ [(c, r)]) (set_gf (set_isPowerOn p (gf (st s))) (st s)) in
  powered s' ∧ view s' = view s.
Proof.
  intros (Hv & Hk & Hp & Hb) Hc Hd Hp'. split.
  - split_and!; [done|cbn; rewrite length_app; lia| |done]. cbn [calls st gf set_gf isPowerOn set_isPowerOn].
    rewrite held_snoc, Hp. by rewrite Hd.
  - unfold view. cbn [calls st gf set_gf irq irq_enabled users listed devt set_isPowerOn].
    by rewrite since_snoc, line_of_quiet by (done || congruence).
Qed.
(** A call that does not. *)
Lemma called s c r :
  powered s → irq_of c = None → delta (RPower "vdd") (c, r) = 0 →
  powered (mk_rt (calls s ++ [(c, r)]) (st s)) ∧ view (mk_rt (calls s ++ [(c, r)]) (st s)) = view s.
Proof.
  intros Hs Hc Hd. pose proof Hs as (_ & _ & _ & Hb).
  destruct (switched s c r (isPowerOn (gf (st s))) Hs Hc) as [H1 H2]; [lia|done|].
  unfold powered, view in *. by cbn in *.
Qed.

Lemma gf_quiet_power on : quiet (gf_power_ctl on).
Proof.
  intros s Hs. unfold gf_power_ctl, supply. apply ewp_bind, (ewp_get_dev _ _ _ _ (gf (st s))); [done|].
  pose proof Hs as (Hv & _ & _ & Hb).
  destruct on; cbn [andb negb]; (destruct (Z.eqb_spec (isPowerOn (gf (st s))) 0) as [Hz|Hz]; cbn [negb]);
    try (by apply ewp_ret); apply ewp_bind, ewp_bind, (ewp_get_dev _ _ _ _ (gf (st s))); try done; rewrite Hv; do 6 ewp_prim.
  - set (r := answer (calls s) (RegulatorEnable "vdd")).
    destruct (rret r =? 0) eqn:Hr; cbn [negb].
    + destruct (switched s (RegulatorEnable "vdd") r 1 Hs eq_refl) as [H1 H2]; [by cbn; unfold ok; rewrite Hr; lia|by right|].
      do 5 ewp_prim. apply ewp_bind. eapply (ewp_put_dev _ _ _ _ (gf (st s))); [done|]. apply ewp_ret.
      destruct (called _ (Mdelay 10) (answer (calls s ++ [(RegulatorEnable "vdd", r)]) (Mdelay 10)) H1 eq_refl eq_refl) as [H3 H4].
      split; [exact H3|]. rewrite <- H2. exact H4.
    + apply ewp_ret. apply called; [done|done|]. cbn. unfold ok. by rewrite Hr.
  - set (r := answer (calls s) (RegulatorDisable "vdd")).
    destruct (rret r =? 0) eqn:Hr; cbn [negb].
    + destruct (switched s (RegulatorDisable "vdd") r 0 Hs eq_refl) as [H1 H2]; [by cbn; unfold ok; rewrite Hr; lia|by left|].
      apply ewp_bind. eapply (ewp_put_dev _ _ _ _ (gf (st s))); [done|]. by apply ewp_ret.
    + apply ewp_ret. apply called; [done|done|]. cbn. unfold ok. by rewrite Hr.
Qed.

Lemma gf_quiet_registry f : (∀ r, f r ≠ UB) → quiet (in_registry f).
Proof. intros Hf s Hs. apply ewp_in_registry; [by intros z r _|]. intros Hu. by destruct (Hf _ Hu). Qed.

Lemma gf_quiet_reset ms : quiet (gf_hw_reset ms).
Proof. unfold gf_hw_reset. quiet_tac. Qed.

(** The session: the line is requested and enabled as irq_enabled says, [n] users. *)
Definition ginv (n : Z) (s : rt kcall gstate) : Prop :=
  powered s ∧ 0 ≤ n < 4294967296 ∧
  ∃ e, (e = 0 ∨ e = 1) ∧ view s = (Some (LTaken (Z.to_nat (1 - e))), (irqn, e, n), (true, number)).

Lemma ginv_quiet {A} n (m : K A) s : quiet m → ginv n s → ewp False m (λ _ s', ginv n s') s.
Proof.
  intros Hm (Hp & Hn & e & He & Hv). eapply ewp_mono; [|by apply Hm]. intros a s' [Hp' Hv'].
  split_and!; [done|lia|lia|]. exists e. by rewrite Hv'.
Qed.
Lemma ginv_seq {A B} n n' (m : K A) (f : A → K B) s :
  ewp False m (λ _ s', ginv n s') s → (∀ a s', ginv n s' → ewp False (f a) (λ _ s'', ginv n' s'') s') →
  ewp False (m ≫= f) (λ _ s', ginv n' s') s.
Proof. intros Hm Hf. apply ewp_bind. eapply ewp_mono; [|done]. intros a s'. apply Hf. Qed.

(** A call about the line, with the state that follows it. *)
Lemma line_call s c r x l :
  powered s → irq_of c = Some irqn → line_of irqn (drop k (calls s)) ≫= (λ l, line_step irqn l (c, r)) = l →
  vdd (gf x) = vdd (gf (st s)) → isPowerOn (gf x) = isPowerOn (gf (st s)) →
  let s' := mk_rt (calls s ++ [(c, r)]) x in
  powered s' ∧ view s' = (l, (irq (gf x), irq_enabled (gf x), users (gf x)), (listed (gf x), devt (gf x))).
Proof.
  intros (Hv & Hk & Hp & Hb) Hc Hl Hxv Hxp. split.
  - split_and!; [cbn; congruence|cbn; rewrite length_app; lia| |cbn; by rewrite Hxp]. cbn [calls st]. rewrite Hxp.
    rewrite held_snoc, Hp. destruct c; cbn in *; try done; lia.
  - unfold view. cbn [calls st]. by rewrite since_snoc, line_of_snoc, Hl.
Qed.
Lemma gf_enable_ok n s : ginv n s → ewp False gf_enable_irq (λ _ s', ginv n s') s.
Proof.
  intros (Hp & Hn & e & He & Hv). unfold gf_enable_irq. apply ewp_bind, (ewp_get_dev _ _ _ _ (gf (st s))); [done|].
  pose proof Hv as [= Hl Hi He' Hu Hli Hd]. rewrite He'.
  destruct He as [-> | ->]; cbn [Z.eqb negb]; [|apply ewp_ret; split_and!; [done|lia|lia|exists 1; auto]].
  apply ewp_bind, (ewp_get_dev _ _ _ _ (gf (st s))); [done|]. do 4 ewp_prim. apply ewp_ret.
  eapply (ewp_put_dev _ _ _ _ (gf (st s))); [done|]. rewrite Hi.
  destruct (line_call s (EnableIrq irqn) (answer (calls s) (EnableIrq irqn)) (set_gf (set_irq_enabled 1 (gf (st s))) (st s))
    (Some (LTaken 0)) Hp eq_refl) as [Hp' Hv']; [rewrite Hl; cbn; by rewrite Z.eqb_refl|done|done|].
  split_and!; [exact Hp'|lia|lia|]. exists 1. split; [by right|]. cbn in Hv'. rewrite Hi, Hu, Hli, Hd in Hv'. exact Hv'.
Qed.
Lemma gf_disable_ok n s : ginv n s → ewp False gf_disable_irq (λ _ s', ginv n s' ∧ irq_enabled (gf (st s')) = 0) s.
Proof.
  intros (Hp & Hn & e & He & Hv). unfold gf_disable_irq. apply ewp_bind, (ewp_get_dev _ _ _ _ (gf (st s))); [done|].
  pose proof Hv as [= Hl Hi He' Hu Hli Hd]. rewrite He'.
  destruct He as [-> | ->]; cbn [Z.eqb negb]; [apply ewp_ret; split; [split_and!; [done|lia|lia|exists 0; auto]|done]|].
  apply ewp_bind. eapply (ewp_put_dev _ _ _ _ (gf (st s))); [done|].
  apply ewp_bind. eapply (ewp_get_dev _ _ _ _ (set_irq_enabled 0 (gf (st s)))); [done|]. cbn [irq set_irq_enabled]. rewrite Hi.
  do 3 ewp_prim. apply ewp_ret.
  destruct (line_call s (DisableIrq irqn) (answer (calls s) (DisableIrq irqn)) (set_gf (set_irq_enabled 0 (gf (st s))) (st s))
    (Some (LTaken 1)) Hp eq_refl) as [Hp' Hv']; [rewrite Hl; cbn; by rewrite Z.eqb_refl|done|done|].
  split; [|done]. split_and!; [exact Hp'|lia|lia|]. exists 0. split; [by left|]. cbn in Hv'. rewrite Hi, Hu, Hli, Hd in Hv'. exact Hv'.
Qed.

Ltac gquiet := repeat first [quiet_prim | apply gf_quiet_power].
Ltac gquietly := eapply ginv_quiet; [gquiet|done].

Lemma users_ok n n' s : ginv n s → 0 ≤ n' < 4294967296 → ewp False (put (set_users n')) (λ _ s', ginv n' s') s.
Proof.
  intros (Hp & Hn & e & He & Hv) Hn'. apply (ewp_put_dev _ _ _ _ (gf (st s))); [done|].
  pose proof Hv as [= Hl Hi He' Hu Hli Hd]. split_and!; [done|lia|lia|]. exists e. split; [done|].
  unfold view. cbn. by rewrite Hl, Hi, He', Hli, Hd.
Qed.
Lemma open_ok n n' rdev s :
  1 ≤ n → users_step number n (Open rdev) = Some n' → ginv n s → ewp False (gf_open rdev) (λ _ s', ginv n' s') s.
Proof.
  intros Hn1 Hn' Hs. pose proof Hs as (_ & Hn & e & _ & [= _ _ _ Hu Hli Hd]). unfold gf_open.
  do 2 (apply ewp_bind, (ewp_get_dev _ _ _ _ (gf (st s))); [done|]). rewrite Hli, Hd. cbn [andb].
  cbn [users_step] in Hn'. rewrite Z.eqb_sym in Hn'. destruct (number =? rdev); [|injection Hn' as <-; by apply ewp_ret].
  destruct (Z.ltb_spec (n + 1) 4294967296); [|done]. injection Hn' as <-.
  apply ewp_bind, (ewp_get_dev _ _ _ _ (gf (st s))); [done|]. rewrite Hu.
  replace (u32 (n + 1)) with (n + 1) by (unfold u32; rewrite Z.mod_small; lia).
  apply (ginv_seq (n + 1)); [apply (users_ok n); [done|lia]|]. intros _ s1 H1.
  apply ewp_bind, (ewp_get_dev _ _ _ _ (gf (st s1))); [done|].
  pose proof H1 as (_ & _ & e1 & _ & [= _ _ _ Hu1 _ _]). rewrite Hu1, (proj2 (Z.eqb_neq _ 1)) by lia. cbn [kwhen].
  unfold gf_hw_reset. gquietly.
Qed.
Lemma gf_release_ok n n' s :
  users_step number n Release = Some n' → ginv n s → ewp False gf_release (λ _ s', ginv n' s') s.
Proof.
  intros Hn' Hs. pose proof Hs as (_ & Hn & e & _ & [= _ _ _ Hu Hli Hd]). unfold gf_release.
  cbn [users_step] in Hn'. destruct (Z.leb_spec 2 n); [|done]. injection Hn' as <-.
  apply ewp_bind, (ewp_get_dev _ _ _ _ (gf (st s))); [done|]. rewrite Hu.
  replace (u32 (n - 1)) with (n - 1) by (unfold u32; rewrite Z.mod_small; lia).
  apply (ginv_seq (n - 1)); [apply (users_ok n); [done|lia]|]. intros _ s1 H1.
  apply ewp_bind, (ewp_get_dev _ _ _ _ (gf (st s1))); [done|].
  pose proof H1 as (_ & _ & e1 & _ & [= _ _ _ Hu1 _ _]). rewrite Hu1, (proj2 (Z.eqb_neq _ 0)) by lia. cbn [kwhen].
  gquietly.
Qed.

(** A second request is refused and changes nothing. *)
Lemma gf_request_ok n s : ginv n s → ewp False ioctl_request_irq (λ _ s', ginv n s') s.
Proof.
  intros Hs. pose proof Hs as (Hp & Hn & e & _ & [= Hl Hi _ _ _ _]). unfold ioctl_request_irq.
  apply ewp_bind, (ewp_get_dev _ _ _ _ (gf (st s))); [done|]. rewrite Hi. do 4 ewp_prim. apply ewp_ret.
  rewrite (proj2 (Z.eqb_neq _ 0)) by (by eapply c_busy). cbn [negb]. apply ewp_ret.
  destruct Hs as (_ & _ & e' & He & Hv). split_and!; [|lia|lia|].
  - pose proof Hp as (Hvd & Hk & Hpo & Hb). split_and!; [done|cbn; rewrite length_app; lia| |done].
    cbn [calls st]. rewrite held_snoc, Hpo. cbn. lia.
  - exists e'. split; [done|]. rewrite <- Hv. unfold view. cbn [calls st]. destruct Hp as (_ & Hk & _).
    rewrite since_snoc, line_of_snoc, Hl by done. cbn.
    rewrite (proj2 (Z.eqb_neq (rret _) 0)) by (by eapply c_busy). by rewrite andb_false_r.
Qed.
Lemma version_ok n s : ginv n s → ewp False ioctl_version (λ _ s', ginv n s') s.
Proof.
  intros Hs. unfold ioctl_version. do 2 ewp_prim. destruct (c_version Hco (calls s)) as (t & Ht & Hlen).
  set (r := answer (calls s) (CopyFromUser GF_MAX_LIB_BUF)) in *. apply ewp_bind, ewp_mod.
  match goal with |- ewp _ _ _ ?x => assert (H1 : ginv n x) end.
  { pose proof (ginv_quiet n _ s (gf_quiet_call (CopyFromUser GF_MAX_LIB_BUF) eq_refl (λ r, eq_refl)) Hs) as H1. exact H1. }
  apply (ginv_seq n); [|intros _ s1 H2; by apply ewp_ret]. unfold kwhen. destruct (rret r =? 0); [|by apply ewp_ret].
  do 2 ewp_prim. cbn [st gf_lib_ver_buf set_gf_lib_ver_buf]. eapply ginv_quiet; [|done].
  apply frames_bind; [|intros _; apply frames_ret]. apply gf_quiet_registry. intros q. by eapply chip_info_at_Val.
Qed.

Lemma command_ok n cmd s : ginv n s → ewp False (gf_command cmd) (λ _ s', ginv n s') s.
Proof.
  intros Hs. unfold gf_command.
  destruct (cmd =? _).
  { apply (ginv_seq n); [|intros _ s1 H1; by apply ewp_ret]. eapply ewp_mono; [|by apply gf_disable_ok]. by intros ? ? []. }
  destruct (cmd =? _); [apply (ginv_seq n); [by apply gf_enable_ok|intros _ s1 H1; by apply ewp_ret]|].
  destruct (cmd =? _); [unfold gf_hw_reset; gquietly|].
  destruct (cmd =? _); [gquietly|].
  destruct (cmd =? _); [unfold ioctl_send_key; gquietly|].
  do 3 (destruct (cmd =? _); [gquietly|]).
  destruct (cmd =? _); [unfold ioctl_ftm; gquietly|].
  destruct (cmd =? _); [by apply gf_request_ok|].
  destruct (cmd =? _); [by apply version_ok|by apply ewp_ret].
Qed.
Lemma gf_ioctl_ok n cmd s : ginv n s → ewp False (gf_ioctl cmd) (λ _ s', ginv n s') s.
Proof.
  intros Hs. unfold gf_ioctl. destruct (ioc_type cmd =? GF_IOC_MAGIC); cbn [negb]; [|by apply ewp_ret].
  apply (ginv_seq n); [unfold check_access; gquietly|]. intros [|] s1 H1; [by apply ewp_ret|].
  apply ewp_bind, (ewp_get_dev _ _ _ _ (gf (st s1))); [done|].
  destruct (_ && _); [by apply ewp_ret|by apply command_ok].
Qed.

Lemma users_step_pos n n' o : 1 ≤ n → users_step number n o = Some n' → 1 ≤ n'.
Proof.
  intros Hn. destruct o; cbn; [|destruct (Z.leb_spec 2 n); [intros [= <-]; lia|done]|by intros [= <-]..].
  destruct (_ =? _); [|by intros [= <-]]. destruct (_ <? _); [intros [= <-]; lia|done].
Qed.
Lemma gop_ok n n' o s :
  1 ≤ n → users_step number n o = Some n' → ginv n s → ewp False (apply_gop o) (λ _ s', ginv n' s') s.
Proof.
  intros Hn1 Hn Hs. destruct o as [rdev| |cmd| | |val data|filp on]; cbn [apply_gop];
    [by apply (open_ok n)|by apply (gf_release_ok n)|injection Hn as <-..].
  - by apply gf_ioctl_ok.
  - unfold gf_fp_poll. gquietly.
  - unfold gf_irq, signal_async. gquietly.
  - unfold goodix_fb_state_chg_callback, signal_async. destruct data; gquietly.
  - unfold gf_fasync. gquietly.
Qed.
Lemma gops_ok n n' ops s :
  1 ≤ n → users_run number n ops = Some n' → ginv n s → ewp False (run_gops ops) (λ _ s', ginv n' s') s.
Proof.
  revert n s. induction ops as [|o ops IH]; intros n s Hn; cbn [users_run run_gops].
  - intros [= <-] Hs. by apply ewp_ret.
  - intros (n1 & Hn1 & Hr)%bind_Some Hs. apply (ginv_seq n1); [by eapply gop_ok|]. intros _ s1 H1.
    apply (IH n1); [by eapply users_step_pos|done|done].
Qed.

Lemma power_keeps a on : keeps (λ x, device_available (gf x) = a) (gf_power_ctl on).
Proof.
  unfold gf_power_ctl, supply.
  repeat first [keeps_step | apply keeps_dev_get | apply keeps_dev_put; by intros ? ? [= <-] | destruct (_ : regulator)].
Qed.

(** The last close. *)
Lemma last_release_ok s :
  ginv 1 s → ewp False gf_release (λ z s', z = 0 ∧ powered s' ∧
    view s' = (Some LFree, (irqn, 0, 0), (true, number)) ∧ device_available (gf (st s')) = 0) s.
Proof.
  intros Hs. unfold gf_release. pose proof Hs as (_ & Hn & e & _ & [= _ _ _ Hu _ _]).
  apply ewp_bind, (ewp_get_dev _ _ _ _ (gf (st s))); [done|]. rewrite Hu.
  apply (ewp_seq _ (ginv 0)); [apply (users_ok 1); [done|lia]|]. intros _ s1 H1.
  apply ewp_bind, (ewp_get_dev _ _ _ _ (gf (st s1))); [done|].
  pose proof H1 as (_ & _ & e1 & _ & [= _ _ _ -> _ _]). cbn [Z.eqb kwhen].
  apply ewp_bind, ewp_bind. eapply ewp_mono; [|by apply gf_disable_ok].
  intros _ s2 [H2 He2]. cbn beta. apply ewp_bind, (ewp_get_dev _ _ _ _ (gf (st s2))); [done|].
  destruct H2 as (Hp2 & _ & e2 & _ & [= Hl2 Hi2 He2' Hu2 Hli2 Hd2]).
  rewrite Hi2, (proj2 (Z.eqb_neq irqn 0)) by apply (c_irq Hco). cbn [negb kwhen]. do 4 ewp_prim. apply ewp_ret.
  destruct (line_call s2 (FreeIrq irqn) (answer (calls s2) (FreeIrq irqn)) (st s2) (Some LFree) Hp2 eq_refl) as [Hp3 Hv3];
    [rewrite Hl2; cbn; by rewrite Z.eqb_refl|done|done|]. rewrite Hi2, He2, Hu2, Hli2, Hd2 in Hv3.
  apply ewp_bind. eapply (ewp_put_dev _ _ _ _ (gf (st s2))); [done|]. apply ewp_bind.
  eapply ewp_mono; [|apply (ewp_keeps _ (λ x, device_available (gf x) = 0)); [apply power_keeps|done|apply (gf_quiet_power false); exact Hp3]].
  intros z s4 [[Hp4 Hv4] Hd4]. do 2 apply ewp_ret. split_and!; [done|done| |done]. rewrite Hv4, <- Hv3. done.
Qed.

(** The request of a line that nobody holds. *)
Lemma granted_ok s :
  powered s → drop k (calls s) = [] → (irq (gf (st s)), irq_enabled (gf (st s)), users (gf (st s))) = (irqn, 1, 1) →
  (listed (gf (st s)), devt (gf (st s)), device_available (gf (st s))) = (true, number, 1) →
  rret (answer (calls s) (RequestIrq irqn)) = 0 →
  ewp False (gf_ioctl GF_IOC_REQUEST_IRQ) (λ z s', z = 0 ∧ ginv 1 s') s.
Proof.
  intros Hp Hk [= Hi He Hu] [= Hli Hd Ha] Hg.
  ewp_is (a ← get device_available; if (a =? 0) && true then mret (- ENODEV) else ioctl_request_irq).
  apply ewp_bind, (ewp_get_dev _ _ _ _ (gf (st s))); [done|]. rewrite Ha. cbn [Z.eqb andb].
  unfold ioctl_request_irq. apply ewp_bind, (ewp_get_dev _ _ _ _ (gf (st s))); [done|]. rewrite Hi. do 4 ewp_prim. apply ewp_ret.
  rewrite Hg. cbn [Z.eqb negb].
  destruct (line_call s (RequestIrq irqn) (answer (calls s) (RequestIrq irqn)) (st s) (Some (LTaken 0)) Hp eq_refl) as [Hp1 Hv1];
    [rewrite Hk; cbn; by rewrite Z.eqb_refl, Hg|done|done|]. rewrite Hi, He, Hu, Hli, Hd in Hv1.
  assert (H1 : ginv 1 (mk_rt (calls s ++ [(RequestIrq irqn, answer (calls s) (RequestIrq irqn))]) (st s))).
  { split_and!; [exact Hp1|lia|lia|]. exists 1. split; [by right|exact Hv1]. }
  apply (ewp_seq _ (ginv 1)); [gquietly|]. intros _ s2 H2.
  apply (ewp_seq _ (ginv 1)); [eapply ewp_mono; [|by apply gf_disable_ok]; by intros ? ? []|]. intros _ s3 H3.
  apply (ewp_seq _ (ginv 1)); [|intros _ s4 H4; by apply ewp_ret].
  eapply ginv_quiet; [|done]. apply gf_quiet_registry. intros q.
  unfold FpDrvQcom.full_fp_chip_name. by destruct (FpDrvQcom.has_exist q =? 1).
Qed.
End Histories.

(** ** Sessions *)
Section Sessions.
Context `{W : World kcall} `{G : Gpios} (irqn number : Z).

(** The device is bound and nobody has it open. *)
Definition closed (s : rt kcall gstate) : Prop :=
  powered 0 s ∧ (irq (gf (st s)), irq_enabled (gf (st s)), users (gf (st s))) = (irqn, 0, 0) ∧
  (listed (gf (st s)), devt (gf (st s))) = (true, number).

Lemma powered_mono k k' s : powered k s → (k' ≤ length (calls s))%nat → powered k' s.
Proof. by intros (Hv & Hk & Hp & Hb) Hk'. Qed.

(** The first open also enables the line, which nobody has requested yet. *)
Lemma first_open_ok s :
  closed s →
  ewp False (gf_open number) (λ z s', z = 0 ∧ powered 0 s' ∧ device_available (gf (st s')) = 1 ∧
    view irqn 0 s' = (line_of irqn (calls s) ≫= λ l, line_step irqn l (EnableIrq irqn, answer (calls s) (EnableIrq irqn)),
                      (irqn, 1, 1), (true, number))) s.
Proof.
  intros (Hp & [= Hi He Hu] & [= Hli Hd]). unfold gf_open.
  do 2 (apply ewp_bind, (ewp_get_dev _ _ _ _ (gf (st s))); [done|]). rewrite Hli, Hd, Z.eqb_refl. cbn [andb].
  apply ewp_bind, (ewp_get_dev _ _ _ _ (gf (st s))); [done|]. rewrite Hu.
  apply ewp_bind, (ewp_put_dev _ _ _ _ (gf (st s))); [done|].
  set (x := put_dev (Some (set_users (u32 (0 + 1)) (gf (st s)))) (st s)).
  apply ewp_bind, (ewp_get_dev _ _ _ _ (gf x)); [done|]. ewp_is (gf_enable_irq ;; gf_power_on ;; gf_hw_reset 360 ;; put (set_device_available 1) ;; mret 0).
  apply ewp_bind. unfold gf_enable_irq. apply ewp_bind, (ewp_get_dev _ _ _ _ (gf x)); [done|].
  change (irq_enabled (gf x)) with (irq_enabled (gf (st s))). rewrite He. cbn [Z.eqb negb].
  apply ewp_bind, (ewp_get_dev _ _ _ _ (gf x)); [done|]. change (irq (gf x)) with (irq (gf (st s))). rewrite Hi.
  do 4 ewp_prim. apply ewp_ret. eapply (ewp_put_dev _ _ _ _ (gf x)); [done|].
  match goal with |- ewp _ _ _ ?y => set (y1 := y) end.
  destruct (line_call irqn 0 s (EnableIrq irqn) (answer (calls s) (EnableIrq irqn)) (st y1) _ Hp eq_refl eq_refl eq_refl eq_refl) as [Hp1 Hv1].
  change (powered 0 y1) in Hp1. change (view irqn 0 y1 = (line_of irqn (calls s) ≫= λ l, line_step irqn l (EnableIrq irqn, answer (calls s) (EnableIrq irqn)),
    (irq (gf (st s)), 1, 1), (listed (gf (st s)), devt (gf (st s))))) in Hv1. rewrite Hi, Hli, Hd in Hv1. clearbody y1.
  rewrite <- Hv1.
  apply ewp_bind. eapply ewp_mono; [|by apply (gf_quiet_power irqn 0 true)]. intros _ s2 [Hp2 Hv2]. cbn beta. rewrite <- Hv2.
  apply ewp_bind. eapply ewp_mono; [|apply (gf_quiet_reset irqn 0 360); exact Hp2]. intros _ s3 [Hp3 Hv3]. cbn beta. rewrite <- Hv3.
  apply ewp_bind. eapply (ewp_put_dev _ _ _ _ (gf (st s3))); [done|]. by apply ewp_ret.
Qed.
End Sessions.

(** ** Properties *)

(** C21. A session of the Goodix device, from the first open to the last close.
    The open succeeds, but enables an interrupt line that is not requested yet.
    When the request of the line (not line 0) is then granted, and provided that the
    kernel does not grant a taken line again and the version texts the HAL writes have
    less than 64 characters (longer ones overflow the registry), for every history of
    opens, closes, commands, polls, interrupts and screen changes with a user left,
    the driver runs without undefined behaviour; the line, counted from the request, is enabled exactly
    when irq_enabled is 1; the supply is on exactly when isPowerOn is 1; and users
    counts the open files.  The last close frees the line and leaves the device as
    it was before the session. *)
Theorem goodix_session_correct `{W : World kcall} irqn number s :
  closed irqn number s →
  ∃ s1, gf_open number s = Val (0, s1) ∧
    (line_of irqn (calls s) = Some LFree → line_of irqn (calls s1) = None) ∧
    let k := length (calls s1) in
    (irqn ≠ 0 → rret (answer (calls s1) (RequestIrq irqn)) = 0 →
     (∀ tr n, line_of irqn (drop k tr) = Some (LTaken n) → rret (answer tr (RequestIrq irqn)) ≠ 0) →
     (∀ tr, ∃ t, cstr (copied 256 (answer tr (CopyFromUser 256))) = Val t ∧ (String.length t < 64)%nat) →
     ∀ ops n, users_run number 1 ops = Some n →
     ∃ s', (gf_ioctl GF_IOC_REQUEST_IRQ ;; run_gops ops) s1 = Val (tt, s') ∧
       users (gf (st s')) = n ∧ held (RPower "vdd") (calls s') = isPowerOn (gf (st s')) ∧
       ((irq_enabled (gf (st s')) = 1 ∧ line_of irqn (drop k (calls s')) = Some (LTaken 0)) ∨
        (irq_enabled (gf (st s')) = 0 ∧ line_of irqn (drop k (calls s')) = Some (LTaken 1))) ∧
       (n = 1 → ∃ s'', gf_release s' = Val (0, s'') ∧ closed irqn number s'' ∧
          line_of irqn (drop k (calls s'')) = Some LFree ∧ device_available (gf (st s'')) = 0)).
Proof.
  intros Hs. pose proof (first_open_ok irqn number s Hs) as Ho.
  apply ewp_total in Ho as (z & s1 & Hopen & -> & Hp1 & Ha1 & [= Hl1 Hi1 He1 Hu1 Hli1 Hd1]).
  change (drop 0 (calls s1)) with (calls s1) in Hl1.
  exists s1. split_and!; [done|intros Hf; by rewrite Hl1, Hf; cbn; rewrite Z.eqb_refl|].
  cbn zeta. set (k := length (calls s1)). intros Hne Hg Hbusy Hver ops n Hn.
  assert (Hco : cooperative irqn k) by (by split).
  assert (Hw : ewp False (gf_ioctl GF_IOC_REQUEST_IRQ ;; run_gops ops) (λ _ s', ginv irqn number k n s') s1).
  { apply (ewp_seq _ (ginv irqn number k 1)); [|intros _ s2 H2; by apply (gops_ok irqn number k Hco 1)].
    eapply ewp_mono; [|apply (granted_ok irqn number k)]; [by intros z s2 [_ H2]|by eapply powered_mono| |congruence..|done].
    unfold k. by rewrite drop_all. }
  apply ewp_total in Hw as ([] & s' & Hrun & Hinv). exists s'. pose proof Hinv as ((_ & _ & Hpow & _) & _ & e & He & [= Hl' Hi' He' Hu' _ _]).
  split_and!; [done|done|done| |].
  - rewrite He', Hl'. destruct He as [-> | ->]; auto.
  - intros ->. pose proof (last_release_ok irqn number k Hco s' Hinv) as Hr.
    apply ewp_total in Hr as (z & s'' & Hrel & -> & Hp2 & [= Hl2 Hi2 He2 Hu2 Hli2 Hd2] & Ha2). exists s''.
    split_and!; [done| |done|done]. split_and!; [eapply powered_mono; [done|lia]|congruence|congruence].
Qed.

(** A phone with the sensor on the line 77, which is open after 21 calls: the
    line is granted from then on when nobody holds it, and the HAL gives V1. *)
Definition goodix_world : World kcall := λ tr c,
  match c with
  | OfGetNamedGpio l => mk_resp (if String.eqb l "qcom,irq-gpio" then 12 else 11) []
  | GpioToIrq _ => mk_resp 77 []
  | RegulatorGet _ | InputAllocateDevice | DeviceCreate => mk_resp 4096 []
  | AccessOk _ _ => mk_resp 1 []
  | CopyFromUser n => mk_resp 0 ([86; 49] ++ repeat 0 (n - 2))
  | RequestIrq n => mk_resp (if decide (line_of n (drop 21 tr) = Some LFree) then 0 else -16) []
  | _ => mk_resp 0 []
  end.
Lemma goodix_world_busy tr n : line_of 77 (drop 21 tr) = Some (LTaken n) → rret (@answer kcall goodix_world tr (RequestIrq 77)) ≠ 0.
Proof. intros Hl. cbn. rewrite decide_False; [done|]. by rewrite Hl. Qed.
Lemma goodix_world_version tr : ∃ t, cstr (copied 256 (@answer kcall goodix_world tr (CopyFromUser 256))) = Val t ∧ (String.length t < 64)%nat.
Proof. exists "V1". split; [done|]. cbn. lia. Qed.
Definition goodix_bound : rt kcall gstate :=
  match @gf_probe goodix_world (λ g, 0 <=? g) (mk_rt [] (goodix_initial FpDrvQcom.fq_initial)) with
  | Val (_, s) => s | UB => mk_rt [] (goodix_initial FpDrvQcom.fq_initial)
  end.
Definition goodix_history : list gop :=
  [Ioctl GF_IOC_ENABLE_IRQ; Open 235929600; Interrupt; Ioctl GF_IOC_SENDKEY; Poll; Ioctl GF_IOC_COOLBOOT;
   Screen 16 (Some 4); Ioctl GF_IOC_RELEASEVERSION; Ioctl GF_IOC_REQUEST_IRQ; Release].
Lemma goodix_session_correct_witness :
  closed 77 235929600 goodix_bound ∧
  ∃ s1 s' s'', @gf_open goodix_world 235929600 goodix_bound = Val (0, s1) ∧
    (@gf_ioctl goodix_world GF_IOC_REQUEST_IRQ ;; @run_gops goodix_world goodix_history) s1 = Val (tt, s') ∧
    users (gf (st s')) = 1 ∧ @gf_release goodix_world s' = Val (0, s'') ∧ closed 77 235929600 s''.
Proof.
  assert (Hc : closed 77 235929600 goodix_bound).
  { split_and!; [split_and!; [reflexivity|vm_compute; lia|vm_compute; reflexivity|right; vm_compute; reflexivity]|vm_compute; reflexivity..]. }
  split; [exact Hc|].
  destruct (@goodix_session_correct goodix_world 77 235929600 goodix_bound Hc) as (s1 & H1 & _ & H2).
  assert (Hk : length (calls s1) = 21%nat) by (vm_compute in H1; injection H1 as <-; reflexivity).
  assert (Hg : rret (@answer kcall goodix_world (calls s1) (RequestIrq 77)) = 0) by (vm_compute in H1; injection H1 as <-; reflexivity).
  rewrite Hk in H2. destruct (H2 ltac:(discriminate) Hg goodix_world_busy goodix_world_version goodix_history 1 eq_refl) as (s' & Hr & Hu & _ & _ & Hl).
  destruct (Hl eq_refl) as (s'' & Hrel & Hcl & _). exists s1, s', s''.
  split; [exact H1|]. split; [exact Hr|]. split; [exact Hu|]. split; [exact Hrel|exact Hcl].
Defined.
End Goodix.
