(* ===== verification/Silead.v ===== *)
(** * The Silead sensor driver
      (src/vendor/tinno/Fingerprint-N/KERNEL/qcom/kernel-3.18/drivers/input/fingerprint/silead_6163)

    slspi_qsee.c: the character device of the Silead HAL, two supplies, the
    interrupt line with its debounced work, and a table of named wake-up sources
    in sysfs.  REDUCE_REPEAT_IRQ, SLFP_VIO_CTRL, GSL6313_INTERRUPT_CTRL,
    GSL6313_POWER_CTRL and IRQ_SVC_DEBOUNCE are defined, POWER_NOTIFY is not. *)
From stdpp Require Import strings gmap.
From S2P Require Import Prelude Runtime DriverRt FpDrv FpDrvQcom FpClient.

Module Silead.

(** ** Constants *)

(** _IOW('k', n, __u32) and _IOR('k', n, __u32) *)
Definition iow (n : Z) : Z := 0x40046b00 + n.
Definition ior (n : Z) : Z := 0x80046b00 + n.
Definition SPI_IOC_MAGIC : Z := 0x6b.
Definition SPI_HW_RESET : Z := iow 70.
Definition SPI_HW_SHUTDOWN : Z := iow 71.
Definition SPI_OPEN_CLOCK : Z := iow 73.
Definition SPI_HW_POWEROFF : Z := iow 75.
Definition SPI_HW_POWERON : Z := iow 76.
Definition SPI_HW_SET_APP_VER : Z := iow 77.
Definition SPI_HW_IRQ_REQUEST : Z := iow 78.
Definition SPI_HW_IRQ_ENABLE : Z := iow 80.
Definition SPI_HW_FINGER_STATE_INFO : Z := iow 81.
Definition SPI_HW_FINGER_VKEY_RESULT : Z := iow 82.
Definition IOCTL_FINGER_STATE_INFO : Z := ior 81.
Definition IOCTL_FINGER_VKEY_RESULT : Z := ior 82.
Definition IOCTL_HW_GPIO_REQUEST : Z := ior 90.
Definition IOCTL_HW_GPIO_FREE : Z := ior 91.
(** _IOC_TYPE *)
Definition ioc_type (cmd : Z) : Z := Z.land (Z.shiftr cmd 8) 0xff.

Definition SILEAD_FP_NAME : string := "silead_fp".
Definition N_SPI_MINORS : nat := 32.
Definition SL_VDD_MIN_UV : Z := 2800000.
Definition SL_VDD_MAX_UV : Z := 3000000.
Definition SL_VIO_MIN_UV : Z := 1750000.
Definition SL_VIO_MAX_UV : Z := 1950000.
Definition SL_MAX_LIB_BUF : nat := 64.
Definition PAGE_SIZE : nat := 4096.
Definition ENOMEM : Z := 12.
Definition ENODEV : Z := 19.
Definition ENOTTY : Z := 25.

(** ** State *)

(** A pointer to a supply: null, an error pointer, held, or put back. *)
Inductive regulator := RegNull | RegErr | RegLive | RegPut.

(** [spi]: the platform device is there; [int_wq]: so is the work queue.  The pins
    are u32. *)
Record spidev_data := mk_spidev {
  devt : Z;
  spi : bool;
  shutdown_gpio : Z;
  int_wakeup_gpio : Z;
  int_irq : Z;
  vio : regulator;
  vdd : regulator;
  int_wq : bool;
  irq_svc_debounce : Z
}.
Definition set_devt v s := mk_spidev v (spi s) (shutdown_gpio s) (int_wakeup_gpio s) (int_irq s) (vio s) (vdd s) (int_wq s) (irq_svc_debounce s).
Definition set_spi v s := mk_spidev (devt s) v (shutdown_gpio s) (int_wakeup_gpio s) (int_irq s) (vio s) (vdd s) (int_wq s) (irq_svc_debounce s).
Definition set_shutdown_gpio v s := mk_spidev (devt s) (spi s) v (int_wakeup_gpio s) (int_irq s) (vio s) (vdd s) (int_wq s) (irq_svc_debounce s).
Definition set_int_wakeup_gpio v s := mk_spidev (devt s) (spi s) (shutdown_gpio s) v (int_irq s) (vio s) (vdd s) (int_wq s) (irq_svc_debounce s).
Definition set_int_irq v s := mk_spidev (devt s) (spi s) (shutdown_gpio s) (int_wakeup_gpio s) v (vio s) (vdd s) (int_wq s) (irq_svc_debounce s).
Definition set_vio v s := mk_spidev (devt s) (spi s) (shutdown_gpio s) (int_wakeup_gpio s) (int_irq s) v (vdd s) (int_wq s) (irq_svc_debounce s).
Definition set_vdd v s := mk_spidev (devt s) (spi s) (shutdown_gpio s) (int_wakeup_gpio s) (int_irq s) (vio s) v (int_wq s) (irq_svc_debounce s).
Definition set_int_wq v s := mk_spidev (devt s) (spi s) (shutdown_gpio s) (int_wakeup_gpio s) (int_irq s) (vio s) (vdd s) v (irq_svc_debounce s).
Definition set_irq_svc_debounce v s := mk_spidev (devt s) (spi s) (shutdown_gpio s) (int_wakeup_gpio s) (int_irq s) (vio s) (vdd s) (int_wq s) v.
Definition fresh_spidev : spidev_data := mk_spidev 0 true 0 0 0 RegNull RegNull false 0.

(** The file variables.  [private_data]: the open files whose private_data is the
    object, not null; [int_work]: the work is pending; [g_wakelock_list]: the names
    of the wake-up sources in the ten slots. *)
Record sstate := mk_sstate {
  reg : FpDrvQcom.fq_state;
  fp_spidev : option spidev_data;
  private_data : list Z;
  finger_status : Z;
  finger_vkey_result : Z;
  fasync_queue : list Z;
  minors : Z;
  irq_enabled : Z;
  irq_requested : Z;
  irq_counter : Z;
  isPowerOn : Z;
  spidev_major : Z;
  g_irq_svc_debounce : Z;
  chip_power_off : Z;
  sl_lib_ver_buf : list Z;
  int_work : bool;
  g_wakelock_list : list (option string)
}.
Definition set_reg v s := mk_sstate v (fp_spidev s) (private_data s) (finger_status s) (finger_vkey_result s) (fasync_queue s) (minors s) (irq_enabled s) (irq_requested s) (irq_counter s) (isPowerOn s) (spidev_major s) (g_irq_svc_debounce s) (chip_power_off s) (sl_lib_ver_buf s) (int_work s) (g_wakelock_list s).
Definition set_fp_spidev v s := mk_sstate (reg s) v (private_data s) (finger_status s) (finger_vkey_result s) (fasync_queue s) (minors s) (irq_enabled s) (irq_requested s) (irq_counter s) (isPowerOn s) (spidev_major s) (g_irq_svc_debounce s) (chip_power_off s) (sl_lib_ver_buf s) (int_work s) (g_wakelock_list s).
Definition set_private_data v s := mk_sstate (reg s) (fp_spidev s) v (finger_status s) (finger_vkey_result s) (fasync_queue s) (minors s) (irq_enabled s) (irq_requested s) (irq_counter s) (isPowerOn s) (spidev_major s) (g_irq_svc_debounce s) (chip_power_off s) (sl_lib_ver_buf s) (int_work s) (g_wakelock_list s).
Definition set_finger_status v s := mk_sstate (reg s) (fp_spidev s) (private_data s) v (finger_vkey_result s) (fasync_queue s) (minors s) (irq_enabled s) (irq_requested s) (irq_counter s) (isPowerOn s) (spidev_major s) (g_irq_svc_debounce s) (chip_power_off s) (sl_lib_ver_buf s) (int_work s) (g_wakelock_list s).
Definition set_finger_vkey_result v s := mk_sstate (reg s) (fp_spidev s) (private_data s) (finger_status s) v (fasync_queue s) (minors s) (irq_enabled s) (irq_requested s) (irq_counter s) (isPowerOn s) (spidev_major s) (g_irq_svc_debounce s) (chip_power_off s) (sl_lib_ver_buf s) (int_work s) (g_wakelock_list s).
Definition set_fasync_queue v s := mk_sstate (reg s) (fp_spidev s) (private_data s) (finger_status s) (finger_vkey_result s) v (minors s) (irq_enabled s) (irq_requested s) (irq_counter s) (isPowerOn s) (spidev_major s) (g_irq_svc_debounce s) (chip_power_off s) (sl_lib_ver_buf s) (int_work s) (g_wakelock_list s).
Definition set_minors v s := mk_sstate (reg s) (fp_spidev s) (private_data s) (finger_status s) (finger_vkey_result s) (fasync_queue s) v (irq_enabled s) (irq_requested s) (irq_counter s) (isPowerOn s) (spidev_major s) (g_irq_svc_debounce s) (chip_power_off s) (sl_lib_ver_buf s) (int_work s) (g_wakelock_list s).
Definition set_irq_enabled v s := mk_sstate (reg s) (fp_spidev s) (private_data s) (finger_status s) (finger_vkey_result s) (fasync_queue s) (minors s) v (irq_requested s) (irq_counter s) (isPowerOn s) (spidev_major s) (g_irq_svc_debounce s) (chip_power_off s) (sl_lib_ver_buf s) (int_work s) (g_wakelock_list s).
Definition set_irq_requested v s := mk_sstate (reg s) (fp_spidev s) (private_data s) (finger_status s) (finger_vkey_result s) (fasync_queue s) (minors s) (irq_enabled s) v (irq_counter s) (isPowerOn s) (spidev_major s) (g_irq_svc_debounce s) (chip_power_off s) (sl_lib_ver_buf s) (int_work s) (g_wakelock_list s).
Definition set_irq_counter v s := mk_sstate (reg s) (fp_spidev s) (private_data s) (finger_status s) (finger_vkey_result s) (fasync_queue s) (minors s) (irq_enabled s) (irq_requested s) v (isPowerOn s) (spidev_major s) (g_irq_svc_debounce s) (chip_power_off s) (sl_lib_ver_buf s) (int_work s) (g_wakelock_list s).
Definition set_isPowerOn v s := mk_sstate (reg s) (fp_spidev s) (private_data s) (finger_status s) (finger_vkey_result s) (fasync_queue s) (minors s) (irq_enabled s) (irq_requested s) (irq_counter s) v (spidev_major s) (g_irq_svc_debounce s) (chip_power_off s) (sl_lib_ver_buf s) (int_work s) (g_wakelock_list s).
Definition set_spidev_major v s := mk_sstate (reg s) (fp_spidev s) (private_data s) (finger_status s) (finger_vkey_result s) (fasync_queue s) (minors s) (irq_enabled s) (irq_requested s) (irq_counter s) (isPowerOn s) v (g_irq_svc_debounce s) (chip_power_off s) (sl_lib_ver_buf s) (int_work s) (g_wakelock_list s).
Definition set_g_irq_svc_debounce v s := mk_sstate (reg s) (fp_spidev s) (private_data s) (finger_status s) (finger_vkey_result s) (fasync_queue s) (minors s) (irq_enabled s) (irq_requested s) (irq_counter s) (isPowerOn s) (spidev_major s) v (chip_power_off s) (sl_lib_ver_buf s) (int_work s) (g_wakelock_list s).
Definition set_chip_power_off v s := mk_sstate (reg s) (fp_spidev s) (private_data s) (finger_status s) (finger_vkey_result s) (fasync_queue s) (minors s) (irq_enabled s) (irq_requested s) (irq_counter s) (isPowerOn s) (spidev_major s) (g_irq_svc_debounce s) v (sl_lib_ver_buf s) (int_work s) (g_wakelock_list s).
Definition set_sl_lib_ver_buf v s := mk_sstate (reg s) (fp_spidev s) (private_data s) (finger_status s) (finger_vkey_result s) (fasync_queue s) (minors s) (irq_enabled s) (irq_requested s) (irq_counter s) (isPowerOn s) (spidev_major s) (g_irq_svc_debounce s) (chip_power_off s) v (int_work s) (g_wakelock_list s).
Definition set_int_work v s := mk_sstate (reg s) (fp_spidev s) (private_data s) (finger_status s) (finger_vkey_result s) (fasync_queue s) (minors s) (irq_enabled s) (irq_requested s) (irq_counter s) (isPowerOn s) (spidev_major s) (g_irq_svc_debounce s) (chip_power_off s) (sl_lib_ver_buf s) v (g_wakelock_list s).
Definition set_g_wakelock_list v s := mk_sstate (reg s) (fp_spidev s) (private_data s) (finger_status s) (finger_vkey_result s) (fasync_queue s) (minors s) (irq_enabled s) (irq_requested s) (irq_counter s) (isPowerOn s) (spidev_major s) (g_irq_svc_debounce s) (chip_power_off s) (sl_lib_ver_buf s) (int_work s) v.
Definition silead_initial (r : FpDrvQcom.fq_state) : sstate :=
  mk_sstate r None [] 0 0 [] 0 0 0 0 0 0 0 0 (codes "unknow" ++ repeat 0 58) false (repeat None 10).

#[global] Instance sstate_registry : HasRegistry sstate.
Proof. refine {| registry_of := reg; put_registry := set_reg |}. done. Defined.
#[global] Instance sstate_device : HasDevice sstate spidev_data.
Proof. refine {| dev_of := fp_spidev; put_dev := set_fp_spidev |}. done. Defined.

Abbreviation K := (IO kcall sstate).

(** ** Wake-up sources of user space *)
Section WakeLocks.
Context `{W : World kcall}.

(** scnprintf of [t] behind [str], in a page *)
Definition scnprintf (str t : string) : string :=
  str +:+ String.substring 0 (PAGE_SIZE - String.length str - 1) t.
Definition show_names (list : list (option string)) : string :=
  foldl (λ str slot, match slot with Some name => scnprintf str (name +:+ " ") | None => str end) "" list.
(** str-- takes the last blank back. *)
Definition wakelocks_text (list : list (option string)) : string :=
  let str := show_names list in
  let str := if (0 <? String.length str)%nat then String.substring 0 (String.length str - 1) str else str in
  scnprintf str (String (Ascii.ascii_of_nat 10) "").
Definition fp_wake_lock_show : K string :=
  kdo (MutexLock "wakelocks_lock") ;;
  l ← kget g_wakelock_list;
  kdo (MutexUnlock "wakelocks_lock") ;;
  mret (wakelocks_text l).
Definition fp_wake_unlock_show : K string := fp_wake_lock_show.

(** The first slot that satisfies [f]. *)
Fixpoint find_slot (f : option string → bool) (list : list (option string)) : option nat :=
  match list with
  | [] => None
  | x :: list' => if f x then Some O else S <$> find_slot f list'
  end.
Definition named (buf : string) (slot : option string) : bool := bool_decide (slot = Some buf).
Definition free (slot : option string) : bool := bool_decide (slot = None).

(** [buf]: the text written; [n]: the bytes written.  A failed allocation returns
    with the mutex locked. *)
Definition fp_wake_lock_store (buf : string) (n : nat) : K Z :=
  p ← kret Kstrndup;
  if p =? 0 then mret (- ENOMEM) else
  let wl_name := String.substring 0 n buf in
  kdo (MutexLock "wakelocks_lock") ;;
  l ← kget g_wakelock_list;
  match find_slot (named buf) l with
  | Some _ =>
      kdo (PmStayAwake buf) ;; kdo (MutexUnlock "wakelocks_lock") ;; mret (Z.of_nat n)
  | None =>
      p ← kret (Kzalloc "wakelock");
      if p =? 0 then mret (- ENOMEM) else
      kdo (WakeupSourceAdd wl_name) ;;
      ret ← match find_slot free l with
            | Some i => kmod (set_g_wakelock_list (<[i := Some wl_name]> l)) ;; mret (Z.of_nat n)
            | None => mret (-1)
            end;
      kdo (PmStayAwake wl_name) ;; kdo (MutexUnlock "wakelocks_lock") ;; mret ret
  end.
Definition fp_wake_unlock_store (buf : string) (n : nat) : K Z :=
  kdo (MutexLock "wakelocks_lock") ;;
  l ← kget g_wakelock_list;
  ret ← match find_slot (named buf) l with
        | Some i =>
            kdo (PmRelax buf) ;; kdo (WakeupSourceRemove buf) ;; kdo (Kfree "name") ;; kdo (Kfree "wakelock") ;;
            kmod (set_g_wakelock_list (<[i := None]> l)) ;; mret (Z.of_nat n)
        | None => mret (-1)
        end;
  kdo (MutexUnlock "wakelocks_lock") ;; mret ret.
End WakeLocks.

(** ** The sensor *)
Section Silead.
Context `{QK : QcomKernel} `{W : World kcall} `{T : Clock} `{G : Gpios}.

(** *** Interrupts *)
Definition silead_request_irq : K Z :=
  q ← kget irq_requested;
  if negb (q =? 0) then mret 0 else
  kmod (set_irq_requested 1) ;; kmod (set_irq_enabled 0) ;; kmod (set_irq_counter 0) ;;
  n ← get int_irq;
  err ← kret (RequestIrq n);
  if negb (err =? 0) then kmod (set_irq_requested 0) ;; mret (-1) else
  kdo (EnableIrqWake n) ;; kdo (DisableIrq n) ;; mret 0.

Definition silead_irq_enable : K unit :=
  pointer ;;
  q ← kget irq_requested;
  kwhen (q =? 0) (silead_request_irq ;; mret tt) ;;
  e ← kget irq_enabled;
  c ← kget irq_counter;
  kwhen ((e =? 0) && (c =? 0))
    (kmod (set_irq_counter 1) ;;
     n ← get int_irq; kdo (EnableIrq n) ;;
     kmod (set_irq_enabled 1) ;;
     kmod (set_g_irq_svc_debounce 1) ;; kdo (Mdelay 5) ;; kmod (set_g_irq_svc_debounce 0)).

Definition silead_irq_disable : K unit :=
  pointer ;;
  q ← kget irq_requested;
  if q =? 0 then mret tt else
  e ← kget irq_enabled;
  c ← kget irq_counter;
  kwhen (negb (e =? 0) && (0 <? c))
    (kmod (set_irq_counter 0) ;;
     n ← get int_irq; kdo (DisableIrq n) ;;
     kmod (set_irq_enabled 0)).

Definition spidev_reset_hw : K Z :=
  g ← get shutdown_gpio;
  kdo (GpioDirectionOutput g 0) ;; kdo (Mdelay 3) ;; kdo (GpioDirectionOutput g 1) ;; kdo (Mdelay 3) ;; mret 0.
Definition spidev_shutdown_hw : K Z :=
  g ← get shutdown_gpio; kdo (GpioDirectionOutput g 0) ;; kdo (Mdelay 3) ;; mret 0.

Definition finger_interrupt_work : K unit :=
  pointer ;;
  b ← kget g_irq_svc_debounce;
  if negb (b =? 0) then kdo (KobjectUevent "SILEAD_FP_EVENT=IRQ_FORGED") else
  kmod (set_g_irq_svc_debounce 1) ;; kdo (KobjectUevent "SILEAD_FP_EVENT=IRQ").
(** The workqueue, when the work is pending. *)
Definition run_work : K unit :=
  p ← kget int_work;
  kwhen p (kmod (set_int_work false) ;; finger_interrupt_work).

(** queue_work on a queue that must be there *)
Definition queue_work : K unit :=
  q ← get int_wq;
  if negb (q : bool) then kub else kdo QueueWork ;; kmod (set_int_work true).

Definition finger_interrupt_handler : K unit :=
  off ← kget chip_power_off;
  if negb (off =? 0) then mret tt else
  spidev_shutdown_hw ;;
  FP_EVT_REPORT FpDrvQcom.HW_EVENT_WAKEUP ;;
  kdo (WakeLockTimeout "fp_wake_lock" 10000) ;;
  g ← get int_wakeup_gpio; kdo (GpioGetValue g) ;;
  d ← get irq_svc_debounce;
  kwhen (d =? 0)
    (put (set_irq_svc_debounce 1) ;;
     queue_work ;; kmod (set_irq_counter 0) ;; kmod (set_irq_enabled 0)).

(** *** Supplies *)

(** A use of a supply, whose pointer must be a held one. *)
Definition supply (r : regulator) : K unit := match r with RegLive => mret tt | _ => kub end.

Definition silead_power_ctl (on : bool) : K Z :=
  p ← kget isPowerOn;
  if on && (p =? 0) then
    v ← get vdd; supply v ;; rc ← kret (RegulatorEnable "vdd");
    if negb (rc =? 0) then mret rc else
    v ← get vio; supply v ;; rc ← kret (RegulatorEnable "vio");
    if negb (rc =? 0) then kdo (RegulatorDisable "vdd") ;; mret rc else
    kdo (Msleep 10) ;; kmod (set_isPowerOn 1) ;; mret rc
  else if negb on && negb (p =? 0) then
    v ← get vdd; supply v ;; rc ← kret (RegulatorDisable "vdd");
    if negb (rc =? 0) then mret rc else
    v ← get vio; supply v ;; rc ← kret (RegulatorDisable "vio");
    kmod (set_isPowerOn 0) ;; mret rc
  else mret 0.

(** regulator_get: the pointer and the value it returned *)
Definition get_supply (name : string) : K (Z * regulator) :=
  p ← kret (RegulatorGet name);
  mret (p, if p <? 0 then RegErr else if p =? 0 then RegNull else RegLive).
(** The voltage range, when the supply has one to set; 0 or the error *)
Definition set_range (name : string) (r : regulator) (min max : Z) : K Z :=
  supply r ;; n ← kret (RegulatorCountVoltages name);
  if 0 <? n then kret (RegulatorSetVoltage name min max) else mret 0.
(** The labels reg_vdd_set_vtg and reg_vdd_put *)
Definition put_vdd (ret : Z) : K Z := kdo (RegulatorPut "vdd") ;; put (set_vdd RegPut) ;; mret ret.
Definition lower_vdd (ret : Z) : K Z :=
  v ← get vdd; set_range "vdd" v 0 SL_VDD_MAX_UV ;; put_vdd ret.

Definition silead_power_init : K Z :=
  d ← get spi;
  if negb (d : bool) then kub else
  '(p, v) ← get_supply "vdd"; put (set_vdd v) ;;
  if p <? 0 then mret p else
  ret ← set_range "vdd" v SL_VDD_MIN_UV SL_VDD_MAX_UV;
  if negb (ret =? 0) then put_vdd ret else
  '(p, v) ← get_supply "vio"; put (set_vio v) ;;
  if p <? 0 then lower_vdd p else
  ret ← set_range "vio" v SL_VIO_MIN_UV SL_VIO_MAX_UV;
  if negb (ret =? 0) then kdo (RegulatorPut "vio") ;; put (set_vio RegPut) ;; lower_vdd ret else
  mret 0.

Definition silead_power_deinit : K Z :=
  v ← get vdd;
  match v with
  | RegNull => mret tt
  | _ =>
      set_range "vdd" v 0 SL_VDD_MAX_UV ;; kdo (RegulatorDisable "vdd") ;; kmod (set_isPowerOn 0) ;;
      kdo (RegulatorPut "vdd") ;; put (set_vdd RegPut)
  end ;;
  v ← get vio;
  match v with
  | RegNull => mret tt
  | _ =>
      set_range "vio" v 0 SL_VIO_MAX_UV ;; kdo (RegulatorDisable "vio") ;;
      kdo (RegulatorPut "vio") ;; put (set_vio RegPut)
  end ;;
  mret 0.

(** *** Pins *)
Definition silead_gpio_free : K Z :=
  q ← kget irq_requested;
  kwhen (q =? 1) (n ← get int_irq; kdo (FreeIrq n) ;; kmod (set_irq_requested 0) ;; put (set_int_irq 0)) ;;
  g ← get shutdown_gpio;
  kwhen (gpio_is_valid (i32 g)) (kdo (GpioFree g) ;; put (set_shutdown_gpio 0)) ;;
  g ← get int_wakeup_gpio;
  kwhen (gpio_is_valid (i32 g)) (kdo (GpioFree g) ;; put (set_int_wakeup_gpio 0)) ;;
  mret 0.

(** The result is a char. *)
Definition silead_gpio_config : K Z :=
  g ← get shutdown_gpio;
  ret ← kret (GpioRequest g "reset-gpio");
  if ret <? 0 then mret (u8 (- ENODEV)) else
  kdo (GpioDirectionOutput g 0) ;; kdo (Mdelay 10) ;; kdo (GpioDirectionOutput g 1) ;; kdo (Mdelay 10) ;;
  i ← get int_wakeup_gpio;
  ret ← kret (GpioRequest i "irq-gpio");
  if ret <? 0 then mret (u8 (- ENODEV)) else
  kdo (GpioDirectionInput i) ;;
  n ← kret (GpioToIrq i); put (set_int_irq n) ;;
  mret (u8 ret).

(** The pins are stored as u32, which is never negative. *)
Definition silead_parse_dt : K Z :=
  d ← get spi;
  if negb (d : bool) then kub else
  g ← kret (OfGetNamedGpio "qcom,reset-gpio"); put (set_shutdown_gpio (u32 g)) ;;
  g ← get shutdown_gpio;
  if g <? 0 then mret (i32 g) else
  i ← kret (OfGetNamedGpio "qcom,irq-gpio"); put (set_int_wakeup_gpio (u32 i)) ;;
  i ← get int_wakeup_gpio;
  if i <? 0 then mret (i32 i) else
  mret 0.

(** *** The character device *)
Definition signal_async : K unit :=
  q ← kget fasync_queue; kwhen (negb (bool_decide (q = []))) (kdo KillFasync).

Definition ioctl_set_app_ver : K Z :=
  r ← kcall_ (CopyFromUser SL_MAX_LIB_BUF);
  kmod (set_sl_lib_ver_buf (copied SL_MAX_LIB_BUF r)) ;;
  kwhen (rret r =? 0)
    (kmod (λ s, set_sl_lib_ver_buf (<[(SL_MAX_LIB_BUF - 1)%nat := 0]> (sl_lib_ver_buf s)) s) ;;
     b ← kget sl_lib_ver_buf; in_registry (chip_info_at b) ;; mret tt) ;;
  in_registry (FpDrvQcom.full_fp_chip_name (Some SILEAD_FP_NAME)) ;; mret 0.

Definition ioctl_gpio_request : K Z :=
  r ← silead_power_init;
  if r <? 0 then mret 0 else
  silead_power_ctl true ;;
  r ← silead_parse_dt;
  if r <? 0 then mret 0 else
  silead_gpio_config ;;
  kmod (set_irq_enabled 0) ;; kmod (set_irq_counter 0) ;; mret 0.

Definition ioctl_finger_state (arg : Z) : K Z :=
  kmod (set_finger_status (i32 arg)) ;;
  v ← kget finger_status;
  FP_EVT_REPORT (if v =? 1 then 1 else 2) ;;
  signal_async ;; mret 0.

Definition silead_command (cmd arg : Z) : K Z :=
  if cmd =? SPI_HW_RESET then
    spidev_reset_hw ;;
    off ← kget chip_power_off;
    kwhen (negb (off =? 0)) (kdo (Mdelay 1) ;; kmod (set_chip_power_off 0)) ;; mret 0
  else if cmd =? SPI_HW_SHUTDOWN then
    kmod (set_chip_power_off 1) ;; spidev_shutdown_hw ;; silead_irq_enable ;; mret 0
  else if cmd =? SPI_OPEN_CLOCK then mret 0
  else if cmd =? SPI_HW_POWEROFF then silead_power_ctl false ;; mret 0
  else if cmd =? SPI_HW_POWERON then silead_power_ctl true ;; mret 0
  else if cmd =? SPI_HW_SET_APP_VER then ioctl_set_app_ver
  else if cmd =? SPI_HW_IRQ_ENABLE then
    if negb (arg =? 0) then put (set_irq_svc_debounce 0) ;; silead_irq_enable ;; mret 0
    else silead_irq_disable ;; mret 0
  else if cmd =? SPI_HW_IRQ_REQUEST then silead_request_irq ;; mret 0
  else if cmd =? SPI_HW_FINGER_STATE_INFO then ioctl_finger_state arg
  else if cmd =? IOCTL_FINGER_STATE_INFO then v ← kget finger_status; kret (CopyToUser (le_store 4 v))
  else if cmd =? IOCTL_HW_GPIO_REQUEST then ioctl_gpio_request
  else if cmd =? IOCTL_HW_GPIO_FREE then
    silead_power_ctl false ;; silead_power_deinit ;; silead_gpio_free ;; mret 0
  else if cmd =? SPI_HW_FINGER_VKEY_RESULT then
    kmod (set_finger_vkey_result (i32 arg)) ;;
    v ← kget finger_vkey_result; kret (CopyToUser (le_store 4 v))
  else if cmd =? IOCTL_FINGER_VKEY_RESULT then
    v ← kget finger_vkey_result;
    retval ← kret (CopyToUser (le_store 4 v));
    signal_async ;; mret retval
  else mret 0.

(** The object comes from the private_data of the file. *)
Definition spidev_ioctl (filp cmd arg : Z) : K Z :=
  if negb (ioc_type cmd =? SPI_IOC_MAGIC) then mret (- ENOTTY) else
  p ← kget private_data;
  if negb (bool_decide (filp ∈ p)) then kub else
  kdo (MutexLock "buf_lock") ;;
  retval ← silead_command cmd arg;
  kdo (MutexUnlock "buf_lock") ;; mret retval.
(** compat_ptr *)
Definition spidev_compat_ioctl (filp cmd arg : Z) : K Z := spidev_ioctl filp cmd (u32 arg).

(** poll_wait on a queue that nobody wakes *)
Definition spidev_poll : K Z := mret 0.
Definition spidev_fp_fasync (filp : Z) (on : bool) : K Z :=
  q ← kget fasync_queue;
  let '(r, q) := fasync_helper filp on q in
  kmod (set_fasync_queue q) ;; mret r.
Definition spidev_open (filp : Z) : K Z :=
  d ← kget fp_spidev;
  kwhen (bool_decide (is_Some d)) (kmod (λ s, set_private_data (filp :: private_data s) s)) ;; mret 0.
Definition spidev_release (filp : Z) : K Z :=
  kmod (λ s, set_private_data (filter (λ f, f ≠ filp) (private_data s)) s) ;; mret 0.

(** *** Probe and remove *)

(** MAJOR and MKDEV *)
Definition major (devno : Z) : Z := Z.shiftr devno 20.
Definition mkdev (ma mi : Z) : Z := Z.lor (Z.shiftl ma 20) mi.

(** The steps that give up a probe that has a class *)
Definition drop_class : K unit := kdo ClassDestroy ;; kdo UnregisterChrdev.
Definition drop_device : K unit := drop_class ;; kdo (Kfree "spidev_data").

Definition probe_minor : K (Z * Z) :=
  b ← kget minors;
  ma ← kget spidev_major;
  let minor := first_zero_bit b 0 N_SPI_MINORS in
  if minor <? Z.of_nat N_SPI_MINORS then
    d ← kret DeviceCreate;
    let status := if d <? 0 then d else 0 in
    kwhen (status =? 0) (kmod (λ s, set_minors (Z.setbit (minors s) minor) s)) ;;
    mret (status, mkdev ma minor)
  else mret (- ENODEV, 0).

Definition silead_fp_probe : K Z :=
  v ← in_registry (FpDrvQcom.read_fpId_pin_value "qcom,fpid-gpio");
  if negb (v =? FpDrv.HIGH) then mret (-1) else
  r ← kcall_ RegisterChrdevRegion;
  if rret r <? 0 then mret (rret r) else
  kmod (set_spidev_major (major (le_load (copied 4 r)))) ;;
  status ← kret CdevAdd;
  if negb (status =? 0) then mret status else
  c ← kret ClassCreate;
  if c <? 0 then kdo UnregisterChrdev ;; mret c else
  p ← kret (Kzalloc "spidev_data");
  if p =? 0 then drop_class ;; mret (- ENOMEM) else
  '(status, number) ← probe_minor;
  kdo (WakeLockInit "fp_wake_lock") ;;
  q ← kret CreateWorkqueue;
  k ← kret KobjectCreate;
  if k =? 0 then drop_device ;; mret (- ENOMEM) else
  error ← kret SysfsCreateGroup;
  if negb (error =? 0) then drop_device ;; mret error else
  if status =? 0 then
    kmod (set_fp_spidev (Some (set_devt number (set_int_wq (negb (q =? 0)) fresh_spidev)))) ;; mret status
  else drop_device ;; kmod (set_fp_spidev None) ;; mret status.

Definition silead_fp_remove : K Z :=
  put (set_spi false) ;;
  n ← get int_irq;
  kwhen (negb (n =? 0))
    (kdo (FreeIrq n) ;; kmod (set_irq_enabled 0) ;; kmod (set_irq_requested 0) ;; kmod (set_irq_counter 0)) ;;
  i ← get int_wakeup_gpio; kdo (GpioFree i) ;;
  g ← get shutdown_gpio; kdo (GpioFree g) ;;
  silead_power_deinit ;; mret 0.
Definition silead_fp_suspend : K Z := mret 0.
Definition silead_fp_resume : K Z := mret 0.
Definition silead_fp_init : K Z := kret PlatformDriverRegister.
Definition silead_fp_exist : K unit :=
  kdo CdevDel ;; kdo PlatformDriverUnregister ;;
  d ← kget fp_spidev;
  kwhen (bool_decide (is_Some d)) drop_class.
End Silead.

(** ** The table of wake-up sources, abstractly

    A set of at most ten names.  A lock of a new name takes a slot, or is refused
    when there is none. *)
Inductive wop := Lock (buf : string) (n : nat) | Unlock (buf : string) (n : nat).
Definition slots : nat := 10.

Definition refused (X : gset string) (o : wop) (t : string) : bool :=
  match o with
  | Lock buf _ => bool_decide (buf = t) && bool_decide (t ∉ X) && (slots <=? size X)%nat
  | Unlock _ _ => false
  end.
Definition spec_step (X : gset string) (o : wop) : Z * gset string :=
  match o with
  | Lock buf n =>
      if decide (buf ∈ X) then (Z.of_nat n, X)
      else if (slots <=? size X)%nat then (-1, X) else (Z.of_nat n, {[ buf ]} ∪ X)
  | Unlock buf n => if decide (buf ∈ X) then (Z.of_nat n, X ∖ {[ buf ]}) else (-1, X)
  end.
Fixpoint spec_run (X : gset string) (ops : list wop) : list Z * gset string :=
  match ops with
  | [] => ([], X)
  | o :: ops' => let '(r, X) := spec_step X o in let '(rs, X) := spec_run X ops' in (r :: rs, X)
  end.
(** How many locks of [t] were refused. *)
Fixpoint refusals (X : gset string) (ops : list wop) (t : string) : Z :=
  match ops with
  | [] => 0
  | o :: ops' => (if refused X o t then 1 else 0) + refusals (spec_step X o).2 ops' t
  end.
(** sysfs passes a text and at least as many bytes. *)
Definition written (o : wop) : Prop := match o with Lock buf n | Unlock buf n => (String.length buf ≤ n)%nat end.

Definition names (l : list (option string)) : list string := omap id l.

Lemma find_slot_Some f l i :
  find_slot f l = Some i → ∃ l1 x l2, l = l1 ++ x :: l2 ∧ length l1 = i ∧ f x = true.
Proof.
  revert i. induction l as [|x l IH]; intros i; cbn; [done|]. destruct (f x) eqn:Hf.
  - intros [= <-]. by exists [], x, l.
  - intros (j & Hj & ->)%fmap_Some. destruct (IH j Hj) as (l1 & y & l2 & -> & <- & Hy). by exists (x :: l1), y, l2.
Qed.
Lemma find_slot_None f l : find_slot f l = None ↔ Forall (λ x, f x = false) l.
Proof.
  induction l as [|x l IH]; cbn; [done|]. rewrite Forall_cons_iff, <- IH. destruct (f x); [split; [done|by intros []]|].
  rewrite fmap_None. split; [done|by intros []].
Qed.

Lemma names_app l1 l2 : names (l1 ++ l2) = names l1 ++ names l2.
Proof. apply omap_app. Qed.
Lemma names_middle l1 l2 (x y : option string) :
  <[length l1 := y]> (l1 ++ x :: l2) = l1 ++ y :: l2.
Proof. replace (length l1) with (length l1 + 0)%nat by lia. by rewrite insert_app_r. Qed.
Lemma elem_of_names t l : t ∈ names l ↔ Some t ∈ l.
Proof. unfold names. rewrite list_elem_of_omap. split; [by intros (? & ? & <-)|]. intros. by exists (Some t). Qed.
Lemma length_names l : (length (names l) ≤ length l)%nat.
Proof.
  induction l as [|[t|] l IH]; [done| |]; [change (names (Some t :: l)) with (t :: names l)|change (names (None :: l)) with (names l)]; cbn; lia.
Qed.
Lemma names_full l : length (names l) = length l ↔ Forall (λ x, free x = false) l.
Proof.
  induction l as [|[t|] l IH]; [done| |]; rewrite Forall_cons_iff.
  - change (names (Some t :: l)) with (t :: names l). cbn [length]. rewrite <- IH. split; [intros Hl; split; [done|lia]|intros [_ Hl]; lia].
  - change (names (None :: l)) with (names l). cbn [length]. pose proof (length_names l). split; [lia|by intros []].
Qed.

(** The table holds the names of [X], each once. *)
Definition table_is (X : gset string) (l : list (option string)) : Prop :=
  length l = slots ∧ NoDup (names l) ∧ X = list_to_set (names l).

Lemma table_elem X l t : table_is X l → t ∈ X ↔ Some t ∈ l.
Proof. intros (_ & _ & ->). by rewrite elem_of_list_to_set, elem_of_names. Qed.
Lemma table_named X l buf : table_is X l → find_slot (named buf) l = None ↔ buf ∉ X.
Proof.
  intros Hl. rewrite find_slot_None, (table_elem _ _ _ Hl), Forall_forall. unfold named. split.
  - intros Hf Hin. specialize (Hf _ Hin). by rewrite bool_decide_eq_true_2 in Hf.
  - intros Hn x Hx. apply bool_decide_eq_false_2. by intros ->.
Qed.
Lemma table_free X l : table_is X l → find_slot free l = None ↔ (slots ≤ size X)%nat.
Proof.
  intros (Hlen & Hnd & ->). rewrite find_slot_None, <- names_full. rewrite size_list_to_set by done.
  pose proof (length_names l). lia.
Qed.
Lemma table_add X l buf i :
  table_is X l → find_slot free l = Some i → buf ∉ X → table_is ({[ buf ]} ∪ X) (<[i := Some buf]> l).
Proof.
  intros Hl (l1 & x & l2 & -> & <- & Hx)%find_slot_Some Hn. apply bool_decide_eq_true in Hx as ->.
  destruct Hl as (Hlen & Hnd & HX). rewrite names_middle. rewrite names_app in Hnd, HX. cbn [names omap list_omap id] in Hnd, HX.
  split_and!; [rewrite length_app in *; done|..]; rewrite names_app; change (names (Some buf :: l2)) with (buf :: names l2);
    change (omap id l2) with (names l2) in *.
  - rewrite <- Permutation_middle. apply NoDup_cons_2; [|done]. intros Hin. apply Hn. rewrite HX. by apply elem_of_list_to_set.
  - rewrite HX, <- Permutation_middle. by rewrite list_to_set_cons.
Qed.
Lemma table_del X l buf i :
  table_is X l → find_slot (named buf) l = Some i → table_is (X ∖ {[ buf ]}) (<[i := None]> l) ∧ buf ∈ X.
Proof.
  intros Hl (l1 & x & l2 & -> & <- & Hx)%find_slot_Some. apply bool_decide_eq_true in Hx as ->. split; [|rewrite (table_elem _ _ _ Hl); set_solver].
  destruct Hl as (Hlen & Hnd & HX). rewrite names_middle. rewrite names_app in Hnd, HX.
  change (names (Some buf :: l2)) with (buf :: names l2) in *.
  split_and!; [rewrite length_app in *; done|..]; rewrite names_app; change (names (None :: l2)) with (names l2).
  - rewrite <- Permutation_middle in Hnd. by apply NoDup_cons in Hnd as [_ ?].
  - rewrite <- Permutation_middle in Hnd. apply NoDup_cons in Hnd as [Hn _]. rewrite HX, <- Permutation_middle, list_to_set_cons.
    set_solver.
Qed.

Lemma substring_whole t n : (String.length t ≤ n)%nat → String.substring 0 n t = t.
Proof. revert n. induction t as [|a t IH]; intros [|n] Hn; cbn in *; [done|done|lia|]. rewrite IH by lia. done. Qed.

Section WakeLockOps.
Context `{W : World kcall}.

Definition apply_wop (o : wop) : K Z :=
  match o with Lock buf n => fp_wake_lock_store buf n | Unlock buf n => fp_wake_unlock_store buf n end.
Fixpoint run_wops (ops : list wop) : K (list Z) :=
  match ops with [] => mret [] | o :: ops' => r ← apply_wop o; rs ← run_wops ops'; mret (r :: rs) end.

(** The kernel has memory for the sources. *)
Definition memory : Prop :=
  ∀ tr, rret (answer tr Kstrndup) ≠ 0 ∧ rret (answer tr (Kzalloc "wakelock")) ≠ 0.
Context (Hmem : memory).

(** [L]: the sources of each name that no unlock finds. *)
Definition wl_inv (X : gset string) (L : string → Z) (s : rt kcall sstate) : Prop :=
  table_is X (g_wakelock_list (st s)) ∧ held (RMutex "wakelocks_lock") (calls s) = 0 ∧
  ∀ t, held (RSource t) (calls s) = (if decide (t ∈ X) then 1 else 0) + L t.

Lemma lock_ok X L buf n s :
  (String.length buf ≤ n)%nat → wl_inv X L s →
  ewp False (fp_wake_lock_store buf n) (λ r s', r = (spec_step X (Lock buf n)).1 ∧
    wl_inv (spec_step X (Lock buf n)).2 (λ t, (if refused X (Lock buf n) t then 1 else 0) + L t) s') s.
Proof.
  intros Hn (Ht & Hm & Hs). unfold fp_wake_lock_store. rewrite substring_whole by done. cbn [spec_step refused].
  do 4 ewp_prim. apply ewp_ret. rewrite (proj2 (Z.eqb_neq _ 0)) by apply Hmem. do 7 ewp_prim. cbn [st calls].
  destruct (find_slot (named buf) _) as [i|] eqn:Hi.
  - assert (Hin : buf ∈ X).
    { destruct (decide (buf ∈ X)) as [|Hx]; [done|]. apply (table_named _ _ _ Ht) in Hx. congruence. }
    rewrite decide_True by done. ewp_steps. split; [done|]. split_and!; [done|cbn [calls]; by rewrite !held_snoc, Hm|].
    intros t. cbn [calls]. rewrite !held_snoc, Hs. cbn. destruct (decide (buf = t)) as [->|].
    + rewrite (bool_decide_eq_false_2 (t ∉ X)) by tauto. rewrite andb_false_r. cbn. lia.
    + rewrite (bool_decide_eq_false_2 (buf = t)) by done. cbn. lia.
  - assert (Hin : buf ∉ X) by (by apply (table_named _ _ _ Ht)). rewrite decide_False by done.
    do 3 ewp_prim. apply ewp_ret. rewrite (proj2 (Z.eqb_neq _ 0)) by apply Hmem. do 4 ewp_prim. apply ewp_bind.
    destruct (find_slot free _) as [i|] eqn:Hf.
    + assert (Hfull : (slots <=? size X)%nat = false).
      { apply Nat.leb_gt. destruct (decide (slots ≤ size X)%nat) as [Hx|]; [|lia]. apply (table_free _ _ Ht) in Hx. congruence. }
      rewrite Hfull. ewp_steps. split; [done|]. split_and!; [by apply table_add|cbn [calls]; by rewrite !held_snoc, Hm|].
      intros t. cbn [calls]. rewrite !held_snoc, Hs, andb_false_r. cbn. destruct (String.eqb_spec t buf) as [->|].
      * rewrite decide_False, decide_True by set_solver. lia.
      * rewrite (decide_ext (t ∈ {[buf]} ∪ X) (t ∈ X)) by set_solver. lia.
    + apply (table_free _ _ Ht) in Hf. rewrite (proj2 (Nat.leb_le _ _) Hf). ewp_steps. split; [done|].
      split_and!; [done|cbn [calls]; by rewrite !held_snoc, Hm|].
      intros t. cbn [calls]. rewrite !held_snoc, Hs. cbn. destruct (String.eqb_spec t buf) as [->|].
      * rewrite !bool_decide_eq_true_2 by done. cbn. lia.
      * rewrite bool_decide_eq_false_2 by done. cbn. lia.
Qed.
Lemma unlock_ok X L buf n s :
  wl_inv X L s →
  ewp False (fp_wake_unlock_store buf n) (λ r s', r = (spec_step X (Unlock buf n)).1 ∧
    wl_inv (spec_step X (Unlock buf n)).2 (λ t, (if refused X (Unlock buf n) t then 1 else 0) + L t) s') s.
Proof.
  intros (Ht & Hm & Hs). unfold fp_wake_unlock_store. cbn [spec_step refused].
  do 7 ewp_prim. cbn [st calls]. apply ewp_bind. destruct (find_slot (named buf) _) as [i|] eqn:Hi.
  - apply (table_del _ _ _ _ Ht) in Hi as [Ht' Hin]. rewrite decide_True by done. ewp_steps. split; [done|].
    split_and!; [done|cbn [calls]; by rewrite !held_snoc, Hm|].
    intros t. cbn [calls]. rewrite !held_snoc, Hs. cbn. destruct (String.eqb_spec t buf) as [->|].
    + rewrite decide_True, decide_False by set_solver. lia.
    + rewrite (decide_ext (t ∈ X ∖ {[buf]}) (t ∈ X)) by set_solver. lia.
  - apply (table_named _ _ _ Ht) in Hi. rewrite decide_False by done. ewp_steps. split; [done|].
    split_and!; [done|cbn [calls]; by rewrite !held_snoc, Hm|]. intros t. cbn [calls]. rewrite !held_snoc, Hs. cbn. lia.
Qed.

Lemma wops_ok X L ops s :
  Forall written ops → wl_inv X L s →
  ewp False (run_wops ops) (λ rs s', rs = (spec_run X ops).1 ∧
    wl_inv (spec_run X ops).2 (λ t, refusals X ops t + L t) s') s.
Proof.
  intros Hops. revert X L s. induction Hops as [|o ops Ho _ IH]; intros X L s Hs; [by apply ewp_ret|].
  cbn [run_wops spec_run refusals]. apply ewp_bind.
  assert (Ho' : ewp False (apply_wop o) (λ r s', r = (spec_step X o).1 ∧
    wl_inv (spec_step X o).2 (λ t, (if refused X o t then 1 else 0) + L t) s') s)
    by (destruct o; [by apply lock_ok|by apply unlock_ok]).
  eapply ewp_mono; [|exact Ho']. intros r s1 [-> H1]. cbn beta. destruct (spec_step X o) as [r' X']. cbn [fst snd] in *.
  apply ewp_bind. eapply ewp_mono; [|by apply IH]. intros rs s2 [-> (H2 & H3 & H4)]. apply ewp_ret.
  destruct (spec_run X' ops) as [rs' X'']. cbn [fst snd] in *. split; [done|]. split_and!; [done|done|].
  intros t. rewrite H4. lia.
Qed.
End WakeLockOps.

(** *** The text of the files *)
Definition newline : string := String (Ascii.ascii_of_nat 10) "".
Lemma str_length_app (t u : string) : String.length (t +:+ u) = (String.length t + String.length u)%nat.
Proof.
  induction t as [|a t IH]; [done|]. change (S (String.length (t +:+ u)) = S (String.length t + String.length u)%nat). by rewrite IH.
Qed.
Lemma str_app_assoc (t u v : string) : (t +:+ u) +:+ v = t +:+ (u +:+ v).
Proof. induction t as [|a t IH]; [done|]. change (String a ((t +:+ u) +:+ v) = String a (t +:+ (u +:+ v))). by rewrite IH. Qed.
Lemma str_app_nil (t : string) : t +:+ "" = t.
Proof. induction t as [|a t IH]; [done|]. change (String a (t +:+ "") = String a t). by rewrite IH. Qed.
Lemma substring_prefix (t u : string) : String.substring 0 (String.length t) (t +:+ u) = t.
Proof.
  induction t as [|a t IH]; [by destruct u|].
  change (String a (String.substring 0 (String.length t) (t +:+ u)) = String a t). by rewrite IH.
Qed.
Lemma scnprintf_fits str t : (String.length str + String.length t < PAGE_SIZE)%nat → scnprintf str t = str +:+ t.
Proof. intros Hl. unfold scnprintf. rewrite substring_whole by lia. done. Qed.

Fixpoint blanked (ts : list string) : string := match ts with [] => "" | t :: ts' => (t +:+ " ") +:+ blanked ts' end.
Definition text_size (ts : list string) : nat := sum_list_with (λ t, S (String.length t)) ts.
Lemma length_blanked ts : String.length (blanked ts) = text_size ts.
Proof.
  induction ts as [|t ts IH]; [done|]. cbn [blanked]. rewrite !str_length_app, IH. change (String.length " ") with 1%nat.
  change (text_size (t :: ts)) with (S (String.length t) + text_size ts)%nat. lia.
Qed.
Lemma show_fold l str :
  (String.length str + text_size (names l) < PAGE_SIZE)%nat →
  foldl (λ str slot, match slot with Some name => scnprintf str (name +:+ " ") | None => str end) str l = str +:+ blanked (names l).
Proof.
  revert str. induction l as [|[t|] l IH]; intros str Hl; [by rewrite str_app_nil| |by apply IH].
  change (names (Some t :: l)) with (t :: names l) in *. cbn [foldl blanked].
  change (text_size (t :: names l)) with (S (String.length t) + text_size (names l))%nat in Hl.
  rewrite scnprintf_fits, IH by (rewrite ?str_length_app; change (String.length " ") with 1%nat; lia). by rewrite !str_app_assoc.
Qed.
Lemma blanked_concat t ts : blanked (t :: ts) = String.concat " " (t :: ts) +:+ " ".
Proof.
  revert t. induction ts as [|u ts IH]; intros t; [cbn [blanked String.concat]; by rewrite str_app_nil|].
  change (blanked (t :: u :: ts)) with ((t +:+ " ") +:+ blanked (u :: ts)). rewrite IH.
  change (String.concat " " (t :: u :: ts)) with (t +:+ " " +:+ String.concat " " (u :: ts)). by rewrite !str_app_assoc.
Qed.
Lemma wakelocks_text_fits l :
  (text_size (names l) < PAGE_SIZE)%nat → wakelocks_text l = String.concat " " (names l) +:+ newline.
Proof.
  intros Hl. unfold wakelocks_text, show_names. rewrite show_fold by done. change ("" +:+ blanked (names l)) with (blanked (names l)).
  destruct (names l) as [|t ts] eqn:Hn; [done|]. rewrite <- length_blanked, blanked_concat, str_length_app in Hl. change (String.length " ") with 1%nat in Hl.
  rewrite blanked_concat, str_length_app. change (String.length " ") with 1%nat. rewrite (proj2 (Nat.ltb_lt 0 _)) by lia.
  replace (_ + 1 - 1)%nat with (String.length (String.concat " " (t :: ts))) by lia.
  rewrite substring_prefix. apply scnprintf_fits. change (String.length _) with 1%nat at 2. lia.
Qed.

(** ** Histories of the sensor *)
Inductive sop :=
| Open (filp : Z) | Release (filp : Z)
| Ioctl (filp cmd arg : Z)
| Interrupt | Work
| Fasync (filp : Z) (on : bool)
| Probe | Remove.

(** The interrupt is armed by the HAL and by a new object. *)
Definition arms (o : sop) : Z :=
  match o with
  | Ioctl _ cmd arg => if (cmd =? SPI_HW_IRQ_ENABLE) && negb (arg =? 0) then 1 else 0
  | Probe => 1
  | _ => 0
  end.
Definition armed (ops : list sop) : Z := foldr (λ o n, arms o + n) 0 ops.

Definition is_queue (c : kcall) : bool := match c with QueueWork => true | _ => false end.
Definition is_uevent (c : kcall) : bool := match c with KobjectUevent _ => true | _ => false end.
Definition is_irq_uevent (c : kcall) : bool :=
  match c with KobjectUevent env => String.eqb env "SILEAD_FP_EVENT=IRQ" | _ => false end.
Definition is_enable (c : kcall) : bool := match c with EnableIrq _ => true | _ => false end.

Section Wakeups.
Context `{QK : QcomKernel} `{W : World kcall} `{T : Clock} `{G : Gpios}.

Definition apply_sop (o : sop) : K unit :=
  match o with
  | Open filp => spidev_open filp ;; mret tt
  | Release filp => spidev_release filp ;; mret tt
  | Ioctl filp cmd arg => spidev_ioctl filp cmd arg ;; mret tt
  | Interrupt => finger_interrupt_handler
  | Work => run_work
  | Fasync filp on => spidev_fp_fasync filp on ;; mret tt
  | Probe => silead_fp_probe ;; mret tt
  | Remove => silead_fp_remove ;; mret tt
  end.
Fixpoint run_sops (ops : list sop) : K unit :=
  match ops with [] => mret tt | o :: ops' => apply_sop o ;; run_sops ops' end.

Definition one (b : bool) : Z := if b then 1 else 0.
(** What the bound is about: the calls and the two debounce flags. *)
Definition wview (s : rt kcall sstate) : (Z * Z * Z * Z) * (option Z * Z * bool) :=
  ((times is_queue (calls s), times is_uevent (calls s), times is_irq_uevent (calls s), times is_enable (calls s)),
   (irq_svc_debounce <$> fp_spidev (st s), g_irq_svc_debounce (st s), int_work (st s))).
(** [n]: how often the interrupt was armed; each flag that is clear stands for
    one event to come. *)
Definition winv (n : Z) (s : rt kcall sstate) : Prop :=
  times is_queue (calls s) + one (bool_decide (irq_svc_debounce <$> fp_spidev (st s) = Some 0)) ≤ n ∧
  times is_uevent (calls s) + one (int_work (st s)) ≤ times is_queue (calls s) ∧
  times is_irq_uevent (calls s) + one (g_irq_svc_debounce (st s) =? 0) ≤ 1 + times is_enable (calls s).
Lemma winv_view n s s' : wview s' = wview s → winv n s → winv n s'.
Proof. intros [= H1 H2 H3 H4 H5 H6 H7]. unfold winv. by rewrite H1, H2, H3, H4, H5, H6, H7. Qed.
Lemma winv_leaves {A} n (m : K A) s : leaves wview m → winv n s → ewp True m (λ _ s', winv n s') s.
Proof. intros Hm Hs. eapply ewp_mono; [|exact (Hm s)]. intros a s' Hv. exact (winv_view n s s' Hv Hs). Qed.

Lemma wleaves_call c :
  is_queue c = false → is_uevent c = false → is_enable c = false → leaves wview (kcall_ c).
Proof.
  intros H1 H2 H3. apply leaves_call. intros r s. unfold wview. cbn [calls st]. rewrite !times_snoc, H1, H2, H3.
  replace (is_irq_uevent c) with false by (by destruct c). by rewrite !Z.add_0_r.
Qed.
Lemma wleaves_put f : (∀ d, irq_svc_debounce (f d) = irq_svc_debounce d) → leaves wview (put f : K unit).
Proof. intros Hf. apply leaves_dev_put. intros s d Hd. unfold wview. cbn in *. rewrite Hd. cbn. by rewrite Hf. Qed.
Lemma wleaves_report key : leaves wview (FP_EVT_REPORT key : K unit).
Proof. intros s. by apply ewp_report. Qed.
Lemma wleaves_registry f : leaves wview (in_registry f : K Z).
Proof. intros s. by apply ewp_in_registry. Qed.
Ltac wprim :=
  first
    [ leaves_step | apply wleaves_call; reflexivity | apply wleaves_put; reflexivity | apply wleaves_report
    | apply wleaves_registry | apply leaves_mod; reflexivity     | match goal with |- leaves _ (match ?v with _ => _ end) => destruct v end ].
Ltac wleaves := repeat wprim.

Lemma request_leaves : leaves wview silead_request_irq.
Proof. unfold silead_request_irq. wleaves. Qed.
Lemma power_ctl_leaves on : leaves wview (silead_power_ctl on).
Proof. unfold silead_power_ctl, supply. wleaves. Qed.
Lemma power_init_leaves : leaves wview silead_power_init.
Proof. unfold silead_power_init, get_supply, set_range, lower_vdd, put_vdd, set_range, supply. wleaves. Qed.
Lemma power_deinit_leaves : leaves wview silead_power_deinit.
Proof. unfold silead_power_deinit, set_range, supply. wleaves. Qed.
Lemma gpio_request_leaves : leaves wview ioctl_gpio_request.
Proof.
  unfold ioctl_gpio_request, silead_parse_dt, silead_gpio_config.
  repeat first [apply power_init_leaves | apply power_ctl_leaves | wprim].
Qed.
Lemma gpio_free_leaves : leaves wview (silead_power_ctl false ;; silead_power_deinit ;; silead_gpio_free ;; mret 0).
Proof.
  unfold silead_gpio_free.
  repeat first [apply power_deinit_leaves | apply power_ctl_leaves | wprim].
Qed.

Lemma winv_seq {A B} n n' (m : K A) (f : A → K B) s :
  ewp True m (λ _ s', winv n s') s → (∀ a s', winv n s' → ewp True (f a) (λ _ s'', winv n' s'') s') →
  ewp True (m ≫= f) (λ _ s', winv n' s') s.
Proof. apply ewp_seq. Qed.
Ltac quietly := eapply winv_leaves; [wleaves|done].

Lemma irq_enable_ok n s : winv n s → ewp True silead_irq_enable (λ _ s', winv n s') s.
Proof.
  intros Hs. unfold silead_irq_enable. apply (winv_seq n); [quietly|]. intros _ s1 H1. clear Hs.
  apply ewp_bind, ewp_get. apply (winv_seq n).
  { eapply winv_leaves; [|done]. apply leaves_when, leaves_bind; [apply request_leaves|wleaves]. }
  intros _ s2 H2. clear H1. do 2 (apply ewp_bind, ewp_get). unfold kwhen. destruct (_ && _); [|by apply ewp_ret].
  apply (winv_seq n); [quietly|]. intros _ s3 H3. clear H2. apply ewp_bind. unfold get. apply ewp_bind, ewp_deref; [|done].
  intros d Hd. ewp_steps. destruct H3 as (HA & HB & HC). cbn in Hd. unfold winv. cbn [calls st].
  rewrite !times_snoc. cbn -[bool_decide]. unfold one in *. destruct (g_irq_svc_debounce (st s3) =? 0); split_and!; lia.
Qed.
Lemma irq_disable_ok n s : winv n s → ewp True silead_irq_disable (λ _ s', winv n s') s.
Proof. intros Hs. unfold silead_irq_disable. quietly. Qed.

Lemma rearm_ok n s : winv n s → ewp True (put (set_irq_svc_debounce 0)) (λ _ s', winv (1 + n) s') s.
Proof.
  intros (HA & HB & HC). unfold put. apply ewp_bind, ewp_deref; [|done]. intros d Hd. apply ewp_mod.
  unfold winv. cbn -[bool_decide]. rewrite bool_decide_eq_true_2 by done. unfold one in *. split_and!; [|done|done].
  destruct (bool_decide _); lia.
Qed.
Lemma interrupt_winv n s : winv n s → ewp True finger_interrupt_handler (λ _ s', winv n s') s.
Proof.
  intros Hs. unfold finger_interrupt_handler. apply ewp_bind, ewp_get. ewp_prim; [by apply ewp_ret|].
  apply (winv_seq n); [unfold spidev_shutdown_hw; quietly|]. intros _ s1 H1. do 4 (apply (winv_seq n); [quietly|]; clear s1 H1; intros ? s1 H1).
  apply ewp_bind. unfold get at 1. apply ewp_bind, ewp_deref; [|done]. intros d Hd. apply ewp_ret. unfold kwhen.
  destruct (Z.eqb_spec (irq_svc_debounce d) 0) as [Hz|]; [|by apply ewp_ret].
  apply ewp_bind. apply (ewp_put_dev _ _ _ _ d); [done|]. unfold queue_work. do 2 apply ewp_bind.
  eapply ewp_get_dev; [reflexivity|]. cbn [int_wq set_irq_svc_debounce]. ewp_prim; [by apply ewp_ub|]. ewp_steps.
  destruct H1 as (HA & HB & HC). cbn in Hd. rewrite Hd in HA. cbn -[bool_decide] in HA. rewrite bool_decide_eq_true_2 in HA by congruence.
  unfold winv. cbn -[bool_decide]. rewrite !times_snoc, bool_decide_eq_false_2 by done. cbn. unfold one in *.
  destruct (int_work (st s1)); split_and!; lia.
Qed.
Lemma work_winv n s : winv n s → ewp True run_work (λ _ s', winv n s') s.
Proof.
  intros Hs. unfold run_work. apply ewp_bind, ewp_get. unfold kwhen. destruct (int_work (st s)) eqn:Hw; [|by apply ewp_ret].
  apply ewp_bind, ewp_mod. unfold finger_interrupt_work. apply ewp_bind. unfold pointer. apply ewp_bind, ewp_deref; [|done]. intros d Hd.
  apply ewp_ret. apply ewp_bind, ewp_get. cbn [st]. destruct Hs as (HA & HB & HC). rewrite Hw in HB. cbn in Hd.
  ewp_prim; ewp_steps; unfold winv; cbn -[bool_decide]; rewrite !times_snoc; cbn -[bool_decide]; unfold one in *; cbn in *;
    repeat match goal with H : negb ?b = _ |- _ => destruct b; try discriminate; clear H end; split_and!; lia.
Qed.
Lemma winv_mono n n' s : winv n s → n ≤ n' → winv n' s.
Proof. intros (HA & HB & HC) Hn. split_and!; [lia|done|done]. Qed.
Lemma command_winv n filp cmd arg s :
  winv n s → ewp True (silead_command cmd arg) (λ _ s', winv (arms (Ioctl filp cmd arg) + n) s') s.
Proof.
  intros Hs. unfold arms. destruct (Z.eqb_spec cmd SPI_HW_IRQ_ENABLE) as [->|Hne].
  { ewp_is (if negb (arg =? 0) then put (set_irq_svc_debounce 0) ;; silead_irq_enable ;; mret 0 else silead_irq_disable ;; mret 0).
    destruct (negb (arg =? 0)); cbn [andb].
    - apply (winv_seq (1 + n)); [by apply rearm_ok|]. intros _ s1 H1.
      apply (winv_seq (1 + n)); [by apply irq_enable_ok|]. intros _ s2 H2. by apply ewp_ret.
    - apply (winv_seq n); [by apply irq_disable_ok|]. intros _ s2 H2. by apply ewp_ret. }
  cbn [andb]. change (0 + n) with n. unfold silead_command.
  destruct (cmd =? _); [unfold spidev_reset_hw; quietly|].
  destruct (cmd =? _).
  { apply (winv_seq n); [quietly|]. intros _ s1 H1. apply (winv_seq n); [unfold spidev_shutdown_hw; quietly|]. intros _ s2 H2.
    apply (winv_seq n); [by apply irq_enable_ok|]. intros _ s3 H3. by apply ewp_ret. }
  destruct (cmd =? _); [quietly|].
  do 2 (destruct (cmd =? _); [eapply winv_leaves; [apply leaves_bind; [apply power_ctl_leaves|wleaves]|done]|]).
  destruct (cmd =? _); [unfold ioctl_set_app_ver; quietly|].
  rewrite (proj2 (Z.eqb_neq _ _) Hne).
  destruct (cmd =? _); [eapply winv_leaves; [apply leaves_bind; [apply request_leaves|wleaves]|done]|].
  destruct (cmd =? _); [unfold ioctl_finger_state, signal_async; quietly|].
  destruct (cmd =? _); [quietly|].
  destruct (cmd =? _); [by eapply winv_leaves; [apply gpio_request_leaves|]|].
  destruct (cmd =? _); [by eapply winv_leaves; [apply gpio_free_leaves|]|].
  destruct (cmd =? _); [quietly|].
  destruct (cmd =? _); [unfold signal_async; quietly|quietly].
Qed.
Lemma new_object_ok n d s : winv n s → ewp True (kmod (set_fp_spidev d)) (λ _ s', winv (1 + n) s') s.
Proof.
  intros (HA & HB & HC). apply ewp_mod. unfold winv. cbn -[bool_decide]. unfold one in *. split_and!; [|done|done].
  destruct (bool_decide (irq_svc_debounce <$> d = Some 0)), (bool_decide _); lia.
Qed.
Lemma probe_winv n s : winv n s → ewp True silead_fp_probe (λ _ s', winv (1 + n) s') s.
Proof.
  intros Hs. unfold silead_fp_probe.
  assert (Hend : ∀ (m : K Z) s', leaves wview m → winv n s' → ewp True m (λ _ s'', winv (1 + n) s'') s').
  { intros m s' Hm Hs'. eapply ewp_mono; [|exact (winv_leaves _ _ _ Hm Hs')]. intros ? ? H1. eapply winv_mono; [exact H1|lia]. }
  apply (winv_seq n); [quietly|]. intros v s1 H1. ewp_prim; [apply Hend; [wleaves|done]|].
  apply (winv_seq n); [quietly|]. intros r s2 H2. ewp_prim; [apply Hend; [wleaves|done]|].
  apply (winv_seq n); [quietly|]. intros _ s3 H3. apply (winv_seq n); [quietly|]. intros z s4 H4.
  ewp_prim; [apply Hend; [wleaves|done]|]. apply (winv_seq n); [quietly|]. intros c s5 H5.
  ewp_prim; [apply Hend; [wleaves|done]|]. apply (winv_seq n); [quietly|]. intros p s6 H6.
  ewp_prim; [apply Hend; [unfold drop_class; wleaves|done]|]. apply (winv_seq n); [unfold probe_minor; quietly|]. intros [status number] s7 H7.
  apply (winv_seq n); [quietly|]. intros _ s8 H8. apply (winv_seq n); [quietly|]. intros q s9 H9.
  apply (winv_seq n); [quietly|]. intros k s10 H10. ewp_prim; [apply Hend; [unfold drop_device, drop_class; wleaves|done]|].
  apply (winv_seq n); [quietly|]. intros error s11 H11. ewp_prim; [apply Hend; [unfold drop_device, drop_class; wleaves|done]|].
  ewp_prim; [apply (winv_seq (1 + n)); [by apply new_object_ok|intros _ s12 H12; by apply ewp_ret]|].
  apply (winv_seq n); [unfold drop_device, drop_class; quietly|]. intros _ s12 H12.
  apply (winv_seq (1 + n)); [by apply new_object_ok|intros _ s13 H13; by apply ewp_ret].
Qed.
Lemma sop_winv n o s : winv n s → ewp True (apply_sop o) (λ _ s', winv (arms o + n) s') s.
Proof.
  intros Hs. destruct o as [filp|filp|filp cmd arg| | |filp on| |]; cbn [apply_sop].
  7: { apply (winv_seq (1 + n)); [by apply probe_winv|intros _ s1 H1; by apply ewp_ret]. }
  3: { unfold spidev_ioctl. apply (winv_seq (arms (Ioctl filp cmd arg) + n)); [|intros _ s1 H1; by apply ewp_ret].
       ewp_prim; [apply ewp_ret; apply (winv_mono n); [done|unfold arms; destruct (_ && _); lia]|].
       apply ewp_bind, ewp_get. ewp_prim; [by apply ewp_ub|].
       apply (winv_seq n); [quietly|]. intros _ s1 H1. apply (winv_seq (arms (Ioctl filp cmd arg) + n)); [by apply command_winv|].
       intros ? s2 H2. quietly. }
  all: change (arms _ + n) with n.
  - unfold spidev_open. quietly.
  - unfold spidev_release. quietly.
  - by apply interrupt_winv.
  - by apply work_winv.
  - unfold spidev_fp_fasync. quietly.
  - unfold silead_fp_remove. eapply winv_leaves; [|done].
    repeat first [apply power_deinit_leaves | wprim].
Qed.
Lemma sops_winv n ops s : winv n s → ewp True (run_sops ops) (λ _ s', winv (armed ops + n) s') s.
Proof.
  revert n s. induction ops as [|o ops IH]; intros n s Hs; cbn [run_sops]; [by apply ewp_ret|].
  apply (winv_seq (arms o + n)); [by apply sop_winv|]. intros _ s1 H1. eapply ewp_mono; [|by apply (IH (arms o + n))].
  intros ? s2 H2. eapply winv_mono; [exact H2|]. unfold armed. cbn [foldr]. lia.
Qed.
End Wakeups.

(** ** Properties *)

(** C22. The table of wake-up sources refines a set of at most ten names.  For every
    history of writes to the two files, on a kernel that has memory, each write
    returns what the set answers, the files list its names, separated by blanks,
    when they fit a page, and the mutex is released.  The kernel keeps one source
    for each name of the set, and one more for each lock that was refused because
    the table was full, which no write removes. *)
Theorem wakelocks_refine `{W : World kcall} ops x :
  memory → Forall written ops → g_wakelock_list x = repeat None slots →
  let X := (spec_run ∅ ops).2 in
  ∃ s' l, run_wops ops (mk_rt [] x) = Val ((spec_run ∅ ops).1, s') ∧
    l ≡ₚ elements X ∧ (size X ≤ slots)%nat ∧
    ((text_size l < PAGE_SIZE)%nat → ∃ s'', fp_wake_lock_show s' = Val (String.concat " " l +:+ newline, s'')) ∧
    held (RMutex "wakelocks_lock") (calls s') = 0 ∧
    ∀ t, held (RSource t) (calls s') = (if decide (t ∈ X) then 1 else 0) + refusals ∅ ops t.
Proof.
  intros Hmem Hops Hx. assert (H0 : wl_inv ∅ (λ _, 0) (mk_rt [] x)).
  { split_and!; [|done|intros t; by rewrite decide_False by set_solver]. cbn [st]. rewrite Hx. split_and!; [done|constructor|done]. }
  pose proof (wops_ok Hmem _ _ ops _ Hops H0) as Hw. apply ewp_total in Hw as (rs & s' & Hrun & -> & (Hlen & Hnd & HX) & Hm & Hs).
  exists s', (names (g_wakelock_list (st s'))). cbn zeta. split_and!; [done| | | |done|intros t; rewrite Hs; lia].
  - rewrite HX. by rewrite elements_list_to_set.
  - rewrite HX, size_list_to_set by done. rewrite <- Hlen. apply length_names.
  - intros Hfit. eexists. unfold fp_wake_lock_show, kdo, kget, kcall_, mbind, IO_bind, mret, IO_ret. cbn [calls st].
    by rewrite wakelocks_text_fits.
Qed.

Definition silead_world : World kcall := λ tr c,
  match c with
  | Kstrndup | Kzalloc _ | CreateWorkqueue | KobjectCreate | RegulatorGet _ | DeviceCreate => mk_resp 4096 []
  | OfGetNamedGpio l => mk_resp (if String.eqb l "qcom,irq-gpio" then 12 else 11) []
  | GpioToIrq _ => mk_resp 88 []
  | CopyFromUser n => mk_resp 0 ([83; 49] ++ repeat 0 (n - 2))
  | RequestIrq n => mk_resp (if decide (line_of n tr = Some LFree) then 0 else -16) []
  | _ => mk_resp 0 []
  end.
Definition eleven : list wop := map (λ t, Lock t 3) ["0"; "1"; "2"; "3"; "4"; "5"; "6"; "7"; "8"; "9"; "10"].
Lemma wakelocks_refine_witness :
  ∃ s', run_wops (W := silead_world) (eleven ++ [Lock "3" 3; Unlock "3" 1; Unlock "10" 2]) (mk_rt [] (silead_initial FpDrvQcom.fq_initial)) =
      Val ([3; 3; 3; 3; 3; 3; 3; 3; 3; 3; -1; 3; 1; -1], s') ∧
    held (RSource "3") (calls s') = 0 ∧ held (RSource "10") (calls s') = 1.
Proof.
  destruct (wakelocks_refine (W := silead_world) (eleven ++ [Lock "3" 3; Unlock "3" 1; Unlock "10" 2]) (silead_initial FpDrvQcom.fq_initial))
    as (s' & l & Hr & _ & _ & _ & _ & Hs).
  - by intros tr.
  - unfold eleven. cbn [map app]. by repeat (constructor; [cbn; lia|]).
  - reflexivity.
  - exists s'. split; [rewrite Hr; f_equal; f_equal; vm_compute; reflexivity|].
    split; [rewrite Hs; vm_compute; reflexivity|rewrite Hs; vm_compute; reflexivity].
Defined.

(** Wake-ups of a Silead sensor are one-shot.  In the whole life of the driver,
    for every history of files, commands, interrupts, work, probes and removals
    that runs without undefined behaviour, the interrupt handler queued its work at
    most once for each time the interrupt was armed, by the HAL or by a probe; the
    work sent at most one event to user space for each time it was queued; and at
    most one more event that is not marked as forged than the line was enabled. *)
Theorem silead_wakeups_bounded `{QK : QcomKernel} `{W : World kcall} `{T : Clock} `{G : Gpios} r ops s' :
  run_sops ops (mk_rt [] (silead_initial r)) = Val (tt, s') →
  times is_queue (calls s') ≤ armed ops ∧
  times is_uevent (calls s') ≤ times is_queue (calls s') ∧
  times is_irq_uevent (calls s') ≤ 1 + times is_enable (calls s').
Proof.
  intros Hrun. assert (H0 : winv 0 (mk_rt [] (silead_initial r))) by (split_and!; vm_compute; discriminate).
  destruct (ewp_elim _ _ _ _ _ _ (sops_winv 0 ops _ H0) Hrun) as (HA & HB & HC). unfold one in *.
  repeat case_match; lia.
Qed.

(** A phone with the ID pin strapped high. *)
Definition silead_phone : QcomKernel := {|
  of_node := true; kzalloc_ok := true; devm_pinctrl_get := 16;
  pinctrl_lookup_state _ _ := 32; pinctrl_select_state _ _ := 0;
  of_get_named_gpio _ := 9; gpio_get_value _ _ _ := 1;
  leds_list := [Some "lcd-backlight"]; fp_disp_qsee_log_stats := true;
  register_chrdev := 240; class_create := 4096; platform_device_register := 0; platform_driver_register := 0
|}.
Definition silead_clock : Clock := λ tr, Z.of_nat (length tr).
Definition silead_history : list sop :=
  [Probe; Open 5; Ioctl 5 IOCTL_HW_GPIO_REQUEST 0; Ioctl 5 SPI_HW_IRQ_ENABLE 1; Interrupt; Interrupt; Work;
   Ioctl 5 SPI_HW_IRQ_ENABLE 1; Interrupt; Work; Ioctl 5 IOCTL_HW_GPIO_FREE 0].
Lemma silead_wakeups_bounded_witness :
  ∃ s', @run_sops silead_phone silead_world silead_clock (λ g, 0 <=? g) silead_history (mk_rt [] (silead_initial FpDrvQcom.fq_initial)) = Val (tt, s') ∧
    times is_queue (calls s') ≤ 3.
Proof.
  pose (s' := match @run_sops silead_phone silead_world silead_clock (λ g, 0 <=? g) silead_history (mk_rt [] (silead_initial FpDrvQcom.fq_initial)) with
              | Val (_, s) => s | UB => mk_rt [] (silead_initial FpDrvQcom.fq_initial) end).
  assert (Hrun : @run_sops silead_phone silead_world silead_clock (λ g, 0 <=? g) silead_history (mk_rt [] (silead_initial FpDrvQcom.fq_initial)) = Val (tt, s'))
    by (vm_compute; reflexivity).
  exists s'. split; [exact Hrun|].
  exact (proj1 (@silead_wakeups_bounded silead_phone silead_world silead_clock (λ g, 0 <=? g) FpDrvQcom.fq_initial silead_history s' Hrun)).
Defined.
End Silead.
