(* ===== verification/FpStack.v ===== *)
(** * The fingerprint stack: registry driver and listener together

    The listener's system calls on the registry device are answered by the model
    of that driver: the choice of the sensor by its registered name, the backlight
    commands, and the path of an event over SIGIO, the signal handler and a
    semaphore to the Java service ([sys]), with the steps that can interleave. *)
From S2P Require Import Prelude Runtime DriverRt FpDrv FpDrvQcom FpListener.

Module FpStack.

(** ** Names in the registry *)
Definition no_nul (t : string) : Prop := Forall (λ c, c ≠ 0) (codes t).

Definition vendor_of (name : string) : Z :=
  if String.eqb name FpListener.FP_DRV_GOODIX then FpListener.VENDOR_GOODIX
  else if String.eqb name FpListener.FP_DRV_SILEAD then FpListener.VENDOR_SILEAD
  else if String.eqb name FpListener.FP_DRV_ELAN then FpListener.VENDOR_ELAN
  else if String.eqb name FpListener.FP_DRV_CHIPONE then FpListener.VENDOR_CHIPONE
  else FpListener.UNKNOW.

(** The sysfs file of the registry, read from its start. *)
Definition serves_info `{World FpListener.ucall} (q : FpDrvQcom.fq_state) : Prop :=
  (∀ tr, 0 < rret (answer tr (FpListener.Open FpListener.FP_DEV_ATTR))) ∧
  (∀ tr fd n, rout (answer tr (FpListener.Read fd n)) = take n (codes (FpDrvQcom.info_show (FpDrvQcom.rg q)))).

Lemma codes_cons c t : codes (String c t) = Z.of_nat (Ascii.nat_of_ascii c) :: codes t.
Proof. done. Qed.
Lemma length_codes t : length (codes t) = String.length t.
Proof. induction t as [|c t IH]; [done|]. rewrite codes_cons. cbn. by rewrite IH. Qed.
Lemma code_inj c c' : Z.of_nat (Ascii.nat_of_ascii c) = Z.of_nat (Ascii.nat_of_ascii c') ↔ c = c'.
Proof.
  split; [|by intros ->]. intros Hc%Nat2Z.inj.
  by rewrite <- (Ascii.ascii_nat_embedding c), <- (Ascii.ascii_nat_embedding c'), Hc.
Qed.

Lemma streq_text t lit rest :
  no_nul t → no_nul lit → FpListener.streq (codes t ++ 0 :: rest) (codes lit) = Val (String.eqb t lit).
Proof.
  unfold no_nul. revert lit. induction t as [|c t IH]; intros [|c' lit] Ht Hl;
    rewrite ?codes_cons in *; cbn [app FpListener.streq]; [done| | |].
  - apply Forall_cons_iff in Hl as [Hc _]. change (codes "") with (@nil Z). cbn [app FpListener.streq].
    by rewrite (proj2 (Z.eqb_neq 0 _)) by congruence.
  - apply Forall_cons_iff in Ht as [Hc _]. change (codes "") with (@nil Z). cbn [FpListener.streq].
    by rewrite (proj2 (Z.eqb_neq _ 0)).
  - apply Forall_cons_iff in Ht as [Hc Ht], Hl as [Hc' Hl]. cbn [String.eqb].
    destruct (Ascii.eqb_spec c c') as [->|Hn].
    + rewrite Z.eqb_refl. by apply IH.
    + rewrite (proj2 (Z.eqb_neq _ _)); [done|]. by rewrite code_inj.
Qed.
Lemma cstr_text t rest : no_nul t → cstr (codes t ++ 0 :: rest) = Val t.
Proof.
  unfold no_nul. induction t as [|c t IH]; [done|]. rewrite codes_cons. intros [Hc Ht]%Forall_cons_iff.
  cbn [app cstr]. rewrite (proj2 (Z.eqb_neq _ 0)) by done. rewrite IH by done.
  cbn. by rewrite Nat2Z.id, Ascii.ascii_nat_embedding.
Qed.
Lemma streq_full buf lit :
  Forall (λ b, b ≠ 0) buf → (length lit < length buf)%nat → FpListener.streq buf lit = Val false.
Proof.
  revert lit. induction buf as [|b buf IH]; intros lit Hb Hl; [cbn in Hl; lia|].
  apply Forall_cons_iff in Hb as [Hb Hbs]. destruct lit as [|c lit]; cbn.
  - by rewrite (proj2 (Z.eqb_neq _ 0)).
  - destruct (b =? c); [|done]. apply IH; [done|cbn in Hl; lia].
Qed.

(** What 50 bytes of the file tell. *)
Lemma match_name_text t r :
  no_nul t → rout r = take 50 (codes t) →
  FpListener.match_name (copied 50 r) = if (String.length t <? 50)%nat then Val (vendor_of t) else UB.
Proof.
  intros Ht Hr. unfold copied. rewrite Hr. unfold FpListener.match_name.
  destruct (Nat.ltb_spec (String.length t) 50) as [Hlt|Hge].
  - rewrite (take_ge (codes t)) by (rewrite length_codes; lia).
    assert (Hb : ∃ rest, take 50 (codes t ++ repeat 0 50) = codes t ++ 0 :: rest).
    { rewrite take_app_ge by (rewrite length_codes; lia). rewrite length_codes.
      destruct (50 - String.length t)%nat as [|n] eqn:Hn; [lia|]. simpl. by eexists. }
    destruct Hb as [rest ->]. rewrite !streq_text by first [done|by repeat constructor].
    unfold vendor_of. rewrite !bind_Val. repeat case_match; rewrite ?bind_Val; try done.
    by rewrite cstr_text.
  - assert (Hb : take 50 (take 50 (codes t) ++ repeat 0 50) = take 50 (codes t)).
    { rewrite take_app_le by (rewrite length_take, length_codes; lia). by rewrite take_take. }
    rewrite Hb. assert (Hnz : Forall (λ b, b ≠ 0) (take 50 (codes t))) by (by apply Forall_take).
    assert (Hlen : length (take 50 (codes t)) = 50%nat) by (rewrite length_take, length_codes; lia).
    rewrite !streq_full by first [done|rewrite Hlen; cbn; lia]. rewrite !bind_Val.
    apply cstr_UB in Hnz. by rewrite Hnz.
Qed.

(** ** Backlight commands *)

(** Z.lor of two numbers whose bits do not meet. *)
Lemma pack_sum cmd level :
  0 ≤ level < 65536 → Z.lor (Z.shiftl cmd 16) level = cmd * 65536 + level.
Proof.
  intros Hl. replace (cmd * 65536) with (Z.shiftl cmd 16) by (rewrite Z.shiftl_mul_pow2 by lia; done).
  rewrite <- Z.add_lor_land. cut (Z.land (Z.shiftl cmd 16) level = 0); [lia|].
  apply Z.bits_inj'. intros n Hn. rewrite Z.land_spec, Z.bits_0.
  destruct (Z.lt_ge_cases n 16).
  - by rewrite Z.shiftl_spec_low.
  - rewrite (Z.bits_above_log2 level n), andb_false_r; [done|lia|].
    destruct (Z.eq_dec level 0) as [->|]; [cbn; lia|].
    apply Z.log2_lt_pow2; [lia|]. apply Z.lt_le_trans with (2 ^ 16); [cbn; lia|]. by apply Z.pow_le_mono_r.
Qed.
Lemma pack_halves cmd level :
  0 ≤ cmd < 32768 → 0 ≤ level < 65536 →
  u32 (Z.lor (Z.shiftl cmd 16) level) / 65536 = cmd ∧ u32 (Z.lor (Z.shiftl cmd 16) level) mod 65536 = level.
Proof.
  intros Hc Hl. rewrite pack_sum by done. unfold u32. rewrite (Z.mod_small (cmd * 65536 + level)) by lia.
  split; [rewrite Z.div_add_l by lia; rewrite Z.div_small by lia; lia|].
  rewrite Z.add_comm, Z.mod_add by lia. by apply Z.mod_small.
Qed.

(** What the listener's command means to the lock of the registry driver. *)
Definition commanded `{QcomKernel} (cmd level : Z) (locked : bool) : bool * list Z :=
  if cmd =? FpListener.FP_BL_LOCK then (true, [])
  else if cmd =? FpListener.FP_BL_LOCK_RESET then (false, [])
  else (false, if locked then FpDrvQcom.lcd_writes level else []).

(** The listener's data, as the driver's ioctl takes it. *)
Lemma command_understood `{QcomKernel} cmd level locked e :
  0 ≤ cmd ≤ 2 → 0 ≤ level < 65536 →
  FpDrvQcom.copy_val e = Z.lor (Z.shiftl cmd 16) level →
  FpDrvQcom.lock_step locked (FpDrvQcom.Ioctl FpListener.FP_IOC_BL_CONTROL e) = commanded cmd level locked.
Proof.
  intros Hc Hl He. destruct (pack_halves cmd level) as [H1 H2]; [lia|done|].
  unfold FpDrvQcom.lock_step, commanded. rewrite He, H1, H2. cbn [Z.eqb].
  assert (cmd = 0 ∨ cmd = 1 ∨ cmd = 2) as [-> |[-> | ->]] by lia; done.
Qed.

(** ** The path of an event *)
Record sys := mk_sys {
  drv : FpDrvQcom.fq_state;
  lis : FpListener.listener;
  (** SIGIO is pending; the handler has started and not yet asked the driver *)
  pending : bool; handling : bool;
  (** the values the Java service was given, in order *)
  java : list Z
}.

Inductive step :=
| SDriver (o : FpDrvQcom.qop)
| SDeliver
| SHandle
| SReport
| SPowerKey.

(** Operations of the driver's other callers: the sensor drivers, the framebuffer
    and the commands of the listener. *)
Definition external (o : FpDrvQcom.qop) : bool :=
  match o with
  | FpDrvQcom.Event _ _ | FpDrvQcom.Notify _ _ _ => true
  | FpDrvQcom.Ioctl cmd _ =>
      (cmd =? FpDrvQcom.FP_IOC_BL_CONTROL) || (cmd =? FpDrvQcom.FP_IOC_RESET_EVENT) ||
      (cmd =? FpDrvQcom.FP_IOC_QWK_ENABLE)
  | _ => false
  end.

Definition event_of (q : FpDrvQcom.fq_state) : Z := FpDrvQcom.fp_report_event (FpDrvQcom.wk q).
Definition raised (q : FpDrvQcom.fq_state) : list Z := FpDrvQcom.signalled (FpDrvQcom.wk q).

(** The registry device under the listener's descriptor, and a press of the power
    key in the input device. *)
Definition driver_world (q : FpDrvQcom.fq_state) : World FpListener.ucall := λ _ c,
  match c with
  | FpListener.Ioctl _ req _ =>
      if req =? FpListener.FP_IOC_GET_EVENT then mk_resp 0 (le_store 4 (event_of q)) else mk_resp 0 []
  | _ => mk_resp 0 []
  end.
Definition key_press : resp :=
  mk_resp 24 (repeat 0 16 ++ le_store 2 FpListener.EV_KEY ++ le_store 2 FpListener.KEY_POWER ++ le_store 4 1).
Definition key_world : World FpListener.ucall := λ _ c,
  match c with
  | FpListener.Read _ _ => key_press
  | _ => mk_resp 0 []
  end.
Definition call_env : FpDrvQcom.ioctl_env := FpDrvQcom.mk_ioctl_env 0 0 0 true 0 false.

(** A listener operation on its own state. *)
Definition listen {A} (m : IO FpListener.ucall FpListener.listener A) (l : FpListener.listener) :
  option (A * FpListener.listener) :=
  match m (mk_rt [] l) with Val (a, s) => Some (a, st s) | UB => None end.

Definition sys_step `{QcomKernel} (p : step) (x : sys) : option sys :=
  match p with
  | SDriver o =>
      if external o then
        match FpDrvQcom.apply_op o (drv x) with
        | Val (_, q) =>
            Some (mk_sys q (lis x) (pending x || negb (length (raised q) =? length (raised (drv x)))%nat) (handling x) (java x))
        | UB => None
        end
      else None
  | SDeliver =>
      if pending x && negb (handling x) then Some (mk_sys (drv x) (lis x) false true (java x)) else None
  | SHandle =>
      if handling x then
        '(_, l) ← listen (FpListener.fp_input_handler (W := driver_world (drv x))) (lis x);
        match FpDrvQcom.fp_ioctl FpDrvQcom.FP_IOC_GET_EVENT call_env (drv x) with
        | Val (_, _, q) => Some (mk_sys q l (pending x) false (java x))
        | UB => None
        end
      else None
  | SReport =>
      '(r, l) ← listen FpListener.fp_native_report_event (lis x);
      match r with
      | Some (_, v) => Some (mk_sys (drv x) l (pending x) (handling x) (java x ++ [v]))
      | None => None
      end
  | SPowerKey =>
      '(_, l) ← listen (FpListener.key_iter (W := key_world) 3) (lis x);
      if FpListener.dev_fd (lis x) <? 0 then Some (mk_sys (drv x) l (pending x) (handling x) (java x)) else
      match FpDrvQcom.fp_ioctl FpDrvQcom.FP_IOC_BL_CONTROL call_env (drv x) with
      | Val (_, _, q) => Some (mk_sys q l (pending x) (handling x) (java x))
      | UB => None
      end
  end.
Fixpoint sys_run `{QcomKernel} (ps : list step) (x : sys) : option sys :=
  match ps with [] => Some x | p :: ps' => sys_step p x ≫= sys_run ps' end.


(** ** The choice of the sensor *)

(** The paths a computation opened, in order. *)
Definition path_of (c : FpListener.ucall) : option string :=
  match c with FpListener.Open path => Some path | _ => None end.
Definition opens (tr : list (FpListener.ucall * resp)) : list string := omap (λ ev, path_of ev.1) tr.
Lemma opens_snoc tr c r : opens (tr ++ [(c, r)]) = opens tr ++ option_list (path_of c).
Proof. unfold opens. rewrite omap_app. cbn. by destruct (path_of c). Qed.
Ltac opened := rewrite !opens_snoc; cbn [path_of option_list]; rewrite ?app_nil_r.

Definition device_of (vendor : Z) : option string :=
  if vendor =? FpListener.VENDOR_GOODIX then Some FpListener.DRV_GOODIX
  else if vendor =? FpListener.VENDOR_ELAN then Some FpListener.ELAN_FP_DEV
  else if vendor =? FpListener.VENDOR_SILEAD then Some FpListener.DRV_SILEAD
  else if vendor =? FpListener.VENDOR_CHIPONE then Some FpListener.DRV_CHIPONE
  else None.

Lemma info_is_first `{QcomKernel} ops evs q :
  FpDrvQcom.runs ops evs q → FpDrvQcom.info_show (FpDrvQcom.rg q) = default "unknow" (FpDrvQcom.first_name ops).
Proof.
  intros Hr. destruct (FpDrvQcom.runs_registry _ _ _ Hr) as [Hs _]. unfold FpDrvQcom.info_show, FpDrv.slot_ok in *.
  destruct (FpDrvQcom.first_name ops); [by destruct Hs as (-> & -> & _)|by destruct Hs as [-> _]].
Qed.

Section Choice.
Context `{W : World FpListener.ucall} (q : FpDrvQcom.fq_state) (name : string).
Context (Hname : FpDrvQcom.info_show (FpDrvQcom.rg q) = name) (Hnul : no_nul name) (Hserve : serves_info q).

Lemma getFpInfo_fresh s E :
  FpListener.fp_vendor (st s) ≤ 0 → ((50 ≤ String.length name)%nat → E) →
  ewp E FpListener.getFpInfo (λ v s', (String.length name < 50)%nat ∧ v = vendor_of name ∧
    st s' = FpListener.set_fp_vendor v (st s) ∧ opens (calls s') = opens (calls s) ++ [FpListener.FP_DEV_ATTR]) s.
Proof.
  intros Hv HE. destruct Hserve as [Ho Hd]. unfold FpListener.getFpInfo. ewp_steps;
    [exfalso; unfold FpListener.UNKNOW in *; lia| |exfalso; specialize (Ho (calls s)); lia].
  rewrite (match_name_text name) by (rewrite ?Hd, ?Hname; done).
  apply ewp_lift; [intros a Ha|intros Ha]; destruct (Nat.ltb_spec (String.length name) 50); try done;
    [|auto]. injection Ha as <-. ewp_steps. split_and!; try done. by opened.
Qed.

(** The start of a back end opens its device and nothing else. *)
Definition opens_only (path : string) (m : IO FpListener.ucall FpListener.listener Z) : Prop :=
  ∀ s, ewp False m (λ _ s', opens (calls s') = opens (calls s) ++ [path] ∧
         FpListener.fp_vendor (st s') = FpListener.fp_vendor (st s)) s.
Ltac opens_only :=
  intros s; repeat first [ewp_prim|progress cbn [calls st]]; (split; [by opened|done]).
Lemma goodix_opens : opens_only FpListener.DRV_GOODIX FpListener.goodix_dev_init.
Proof. unfold FpListener.goodix_dev_init, FpListener.bmod, FpListener.goodix_set_mod, FpListener.bget. opens_only. Qed.
Lemma silead_opens : opens_only FpListener.DRV_SILEAD FpListener.silead_dev_init.
Proof. unfold FpListener.silead_dev_init, FpListener.bmod, FpListener.register_fasync_notify. opens_only. Qed.
Lemma chipone_opens : opens_only FpListener.DRV_CHIPONE FpListener.chipone_dev_init.
Proof. unfold FpListener.chipone_dev_init, FpListener.bmod, FpListener.register_fasync_notify. opens_only. Qed.
Lemma elan_opens : opens_only FpListener.ELAN_FP_DEV FpListener.elan_dev_init.
Proof. unfold FpListener.elan_dev_init, FpListener.elan_fasync_notify. opens_only. Qed.

(** Quick wake-up is off: the property is neither 1 nor 2. *)
Definition quick_wakeup_off : Prop := ∀ tr,
  let v := FpListener.text_of (rout (answer tr (FpListener.SystemPropertyGet "persist.tinno.fp.qwk"))) in
  v ≠ "1" ∧ v ≠ "2".

Lemma start_vendor v s :
  FpListener.fp_vendor (st s) = v → v ≠ FpListener.FP_NATIVE →
  ewp False (if v =? FpListener.VENDOR_GOODIX then FpListener.goodix_dev_init
    else if v =? FpListener.VENDOR_ELAN then FpListener.elan_dev_init
    else if v =? FpListener.VENDOR_SILEAD then FpListener.silead_dev_init
    else if v =? FpListener.VENDOR_CHIPONE then FpListener.chipone_dev_init
    else if v =? FpListener.FP_NATIVE then FpListener.fp_dev_open else mret (-1))
    (λ _ s', opens (calls s') = opens (calls s) ++ option_list (device_of v) ∧ FpListener.fp_vendor (st s') = v) s.
Proof.
  intros <- Hn. unfold device_of. repeat case_match;
    first [apply goodix_opens|apply elan_opens|apply silead_opens|apply chipone_opens|idtac].
  - by apply Z.eqb_eq in H3.
  - apply ewp_ret. by rewrite app_nil_r.
Qed.

Lemma vendor_not_native t : vendor_of t ≠ FpListener.FP_NATIVE.
Proof. unfold vendor_of. by repeat case_match. Qed.

Lemma fp_dev_init_opens s E :
  quick_wakeup_off → FpListener.fp_vendor (st s) ≤ 0 → ((50 ≤ String.length name)%nat → E) →
  ewp E FpListener.fp_dev_init (λ _ s', (String.length name < 50)%nat ∧
    opens (calls s') = opens (calls s) ++ FpListener.FP_DEV_ATTR :: option_list (device_of (vendor_of name)) ∧
    FpListener.fp_vendor (st s') = vendor_of name) s.
Proof.
  intros Hoff Hv HE. unfold FpListener.fp_dev_init.
  do 2 ewp_prim. cbn zeta. destruct (Hoff (calls s)) as [H1 H2]. apply String.eqb_neq in H1, H2.
  rewrite H1, H2. do 4 ewp_prim. cbn [st FpListener.fp_vendor FpListener.set_fp_qwk_enable_flag].
  rewrite (proj2 (Z.eqb_neq _ FpListener.FP_NATIVE)) by (unfold FpListener.FP_NATIVE; lia).
  apply ewp_bind, ewp_bind. eapply ewp_mono; [|by apply getFpInfo_fresh].
  intros v s1 (Hlen & -> & Hst & Hop). cbn beta. apply ewp_ret, ewp_bind, ewp_get.
  rewrite Hst. cbn [FpListener.fp_vendor FpListener.set_fp_vendor].
  eapply (ewp_weaken _ False); [done|]. eapply ewp_mono; [|apply start_vendor; [by rewrite Hst|apply vendor_not_native]].
  intros z s2 [Ho2 Hv2]. split_and!; [done| |done]. rewrite Ho2, Hop. cbn [calls]. opened. by rewrite <- app_assoc.
Qed.
End Choice.

(** ** Events on their way *)

(** The events the registry driver signals. *)
Definition event_code (x : Z) : Prop := x ∈ [1; 2; 10; 11; 99].
Definition codes_ok (w : FpDrvQcom.wake) : Prop :=
  (FpDrvQcom.fp_report_event w = 0 ∨ FpDrvQcom.fp_report_event w ∈ FpDrvQcom.signalled w) ∧
  Forall event_code (FpDrvQcom.signalled w).

Lemma kill_codes x w : event_code x → codes_ok w → codes_ok (FpDrvQcom.KILL_MSG x w).
Proof.
  intros Hx [He Hs]. unfold FpDrvQcom.KILL_MSG. destruct (FpDrvQcom.fasync_queue w); [done|].
  split; cbn; [right; apply elem_of_app; right; by apply list_elem_of_singleton|]. apply Forall_app. by split; [|apply Forall_singleton].
Qed.
Lemma codes_same w w' :
  FpDrvQcom.fp_report_event w' = FpDrvQcom.fp_report_event w → FpDrvQcom.signalled w' = FpDrvQcom.signalled w →
  codes_ok w → codes_ok w'.
Proof. unfold codes_ok. by intros -> ->. Qed.
Lemma codes_mail w w' : FpDrvQcom.mail_of w' = FpDrvQcom.mail_of w → codes_ok w → codes_ok w'.
Proof. intros [= He Hs _]. by apply codes_same. Qed.
Lemma event_codes key now w : codes_ok w → codes_ok (FpDrvQcom.fp_event_record key now w).2.
Proof.
  intros Hw. unfold FpDrvQcom.fp_event_record, FpDrvQcom.go_go_go.
  repeat case_match; cbn [snd]; try (eapply codes_same; [..|exact Hw]; done).
  - apply kill_codes; [|done]. rewrite !orb_true_iff, !Z.eqb_eq in *. unfold event_code.
    destruct_or!; subst; rewrite !elem_of_cons; auto.
  - apply kill_codes; [|by eapply codes_same; [..|exact Hw]].
    rewrite Z.eqb_eq in *. subst. unfold event_code. rewrite !elem_of_cons. auto 6.
Qed.
Lemma notify_codes val data now w : codes_ok w → codes_ok (FpDrvQcom.fp_notifier_block_callback val data now w).2.
Proof.
  intros Hw. unfold FpDrvQcom.fp_notifier_block_callback.
  repeat case_match; cbn [snd]; auto using event_codes.
Qed.

(** An event survives the copy into the listener's int. *)
Lemma event_int x : x = 0 ∨ event_code x → i32 (le_load (copied 4 (mk_resp 0 (le_store 4 x)))) = x.
Proof. unfold event_code. intros Hx. rewrite !elem_of_cons, elem_of_nil in Hx. by destruct_or! Hx; subst. Qed.

Section Path.
Context `{K : QcomKernel}.

(** An operation of the driver's callers never fails, and raises at most one
    event, the one it leaves in the mailbox. *)
Lemma external_ok o q :
  external o = true → codes_ok (FpDrvQcom.wk q) →
  ∃ q', FpDrvQcom.apply_op o q = Val (None, q') ∧ codes_ok (FpDrvQcom.wk q') ∧
    (raised q' = raised q ∨ raised q' = raised q ++ [event_of q']).
Proof.
  intros He Hq. assert (Ho : ∃ q', FpDrvQcom.apply_op o q = Val (None, q') ∧ codes_ok (FpDrvQcom.wk q')).
  { destruct o as [key t|cmd e| |val data t| | | | | | | |]; try done; cbn [FpDrvQcom.apply_op external] in *.
    - eexists. split; [done|]. by apply event_codes.
    - rewrite !orb_true_iff, !Z.eqb_eq in He. destruct He as [[-> | ->]| ->]; cbn;
        repeat case_match; cbn; (eexists; split; [done|]); cbn; try done.
      eapply codes_mail; [apply FpDrvQcom.bl_control_mail|exact Hq].
    - eexists. split; [done|]. by apply notify_codes. }
  destruct Ho as (q' & Ho & Hc). exists q'. split_and!; [done|done|].
  destruct (FpDrvQcom.op_mail _ _ _ _ Ho) as [Hm _].
  destruct Hm as [(_ & _ & Hs)|[(_ & _ & _ & Hs & _)|[[=] _]]]; [by left|by right].
Qed.

Lemma handle_ok q l :
  codes_ok (FpDrvQcom.wk q) →
  listen (FpListener.fp_input_handler (W := driver_world q)) l =
    Some (tt, FpListener.set_msg_sem (S (FpListener.msg_sem l)) (FpListener.set_fp_event_value (event_of q) l)).
Proof.
  intros [He Hs]. unfold listen, FpListener.fp_input_handler, mbind, IO_bind. cbn.
  rewrite event_int; [done|]. destruct He as [He|He]; [by left|right]. rewrite Forall_forall in Hs. auto.
Qed.
Lemma report_ok l :
  listen FpListener.fp_native_report_event l =
    Some (match FpListener.msg_sem l with
          | O => (None, l)
          | S n => (Some (0, FpListener.fp_event_value l), FpListener.set_msg_sem n l)
          end).
Proof. unfold listen, FpListener.fp_native_report_event, mbind, IO_bind. cbn. by destruct (FpListener.msg_sem l). Qed.
Lemma power_ok l :
  listen (FpListener.key_iter (W := key_world) 3) l =
    Some (tt, if (FpListener.dev_fd l <? 0) || negb (1 <=? FpListener.fp_qwk_enable_flag l) then l
              else FpListener.set_msg_sem (S (FpListener.msg_sem l)) (FpListener.set_fp_event_value FpListener.KEY_POWER l)).
Proof.
  unfold listen, FpListener.key_iter, kdo, kcall_, kwhen, mbind, IO_bind, answer, key_world.
  change (rret key_press) with 24.
  change (le_load (sub 16 2 (copied 24 key_press))) with FpListener.EV_KEY.
  change (le_load (sub 18 2 (copied 24 key_press))) with FpListener.KEY_POWER.
  change (i32 (le_load (sub 20 4 (copied 24 key_press)))) with 1.
  cbn -[Z.ltb Z.leb]. destruct (FpListener.dev_fd l <? 0); [done|]. cbn -[Z.leb].
  by destruct (1 <=? FpListener.fp_qwk_enable_flag l).
Qed.

(** What is in the listener or was given to Java comes from the driver or is the
    power key, and there is no more of it than was raised and pressed. *)
Definition from_driver (q : FpDrvQcom.fq_state) (v : Z) : Prop := v = 0 ∨ v = FpListener.KEY_POWER ∨ v ∈ raised q.
Definition sys_ok (keys : nat) (x : sys) : Prop :=
  codes_ok (FpDrvQcom.wk (drv x)) ∧ from_driver (drv x) (FpListener.fp_event_value (lis x)) ∧
  Forall (from_driver (drv x)) (java x) ∧
  (FpListener.msg_sem (lis x) + length (java x) + Nat.b2n (pending x) + Nat.b2n (handling x)
     ≤ length (raised (drv x)) + keys)%nat.

#[global] Instance step_power_dec p : Decision (p = SPowerKey).
Proof. destruct p; (by left) || by right. Defined.
Definition power_keys (ps : list step) : nat := length (filter (λ p, p = SPowerKey) ps).

Lemma from_driver_mono q q' v : raised q `prefix_of` raised q' → from_driver q v → from_driver q' v.
Proof. intros [l Hl]. unfold from_driver. rewrite Hl, elem_of_app. naive_solver. Qed.

Lemma sys_ok_driver keys o x x' : sys_step (SDriver o) x = Some x' → sys_ok keys x → sys_ok keys x'.
Proof.
  cbn [sys_step]. destruct (external o) eqn:He; [|done]. intros Hx (Hc & Hv & Hj & Hn).
  destruct (external_ok o (drv x) He Hc) as (q' & Ho & Hc' & Hr). rewrite Ho in Hx. injection Hx as <-.
  assert (Hp : raised (drv x) `prefix_of` raised q') by (destruct Hr as [-> | ->]; [done|by eexists]).
  split_and!; cbn [drv lis java pending handling]; [done|by eapply from_driver_mono|
    eapply Forall_impl; [done|]; intros; by eapply from_driver_mono|].
  destruct Hr as [-> | ->]; [rewrite Nat.eqb_refl, orb_false_r; lia|].
  rewrite length_app. cbn [length]. destruct (pending x); cbn [orb Nat.b2n] in *; [lia|].
  destruct (negb _); cbn; lia.
Qed.

Lemma get_event_ok q : FpDrvQcom.fp_ioctl FpDrvQcom.FP_IOC_GET_EVENT call_env q =
  Val (0, Some (event_of q), FpDrvQcom.set_wk (FpDrvQcom.set_event 0 (FpDrvQcom.wk q)) q).
Proof. done. Qed.

(** The three steps from the signal to the Java service. *)
Definition delivered_to (x : sys) : sys := mk_sys (drv x) (lis x) false true (java x).
Definition handled (x : sys) : sys :=
  mk_sys (FpDrvQcom.set_wk (FpDrvQcom.set_event 0 (FpDrvQcom.wk (drv x))) (drv x))
    (FpListener.set_msg_sem (S (FpListener.msg_sem (lis x))) (FpListener.set_fp_event_value (event_of (drv x)) (lis x)))
    (pending x) false (java x).
Definition reported (n : nat) (x : sys) : sys :=
  mk_sys (drv x) (FpListener.set_msg_sem n (lis x)) (pending x) (handling x)
    (java x ++ [FpListener.fp_event_value (lis x)]).

Lemma step_deliver x :
  sys_step SDeliver x = if pending x && negb (handling x) then Some (delivered_to x) else None.
Proof. done. Qed.
Lemma step_handle x :
  codes_ok (FpDrvQcom.wk (drv x)) → sys_step SHandle x = if handling x then Some (handled x) else None.
Proof. intros Hc. cbn [sys_step]. by rewrite (handle_ok _ _ Hc), get_event_ok. Qed.
Lemma step_report x :
  sys_step SReport x = match FpListener.msg_sem (lis x) with O => None | S n => Some (reported n x) end.
Proof. cbn [sys_step]. rewrite report_ok. by destruct (FpListener.msg_sem (lis x)). Qed.

Lemma handled_codes x : codes_ok (FpDrvQcom.wk (drv x)) → codes_ok (FpDrvQcom.wk (drv (handled x))).
Proof. intros [_ Hs]. by split; [left|]. Qed.

Lemma sys_ok_handle keys x x' : sys_step SHandle x = Some x' → sys_ok keys x → sys_ok keys x'.
Proof.
  intros Hx (Hc & Hv & Hj & Hn). rewrite step_handle in Hx by done.
  destruct (handling x) eqn:Hh; [|done]. injection Hx as <-.
  split_and!; [by apply handled_codes| |done|cbn; unfold raised in *; cbn in *; lia].
  destruct Hc as [[He|He] _]; [by left|by right; right].
Qed.
Lemma sys_ok_report keys x x' : sys_step SReport x = Some x' → sys_ok keys x → sys_ok keys x'.
Proof.
  rewrite step_report. intros Hx (Hc & Hv & Hj & Hn).
  destruct (FpListener.msg_sem (lis x)) as [|n] eqn:Hm; [done|]. injection Hx as <-.
  split_and!; [done|done|by apply Forall_app; split; [|apply Forall_singleton]|]. cbn. rewrite length_app. cbn. lia.
Qed.
Lemma sys_ok_power keys x x' : sys_step SPowerKey x = Some x' → sys_ok keys x → sys_ok (S keys) x'.
Proof.
  cbn [sys_step]. rewrite power_ok. cbn -[Z.ltb Z.leb]. intros Hx (Hc & Hv & Hj & Hn).
  destruct (FpListener.dev_fd (lis x) <? 0); cbn [orb] in Hx; injection Hx as <-;
    [split_and!; try done; cbn; lia|].
  assert (Hr : raised (FpDrvQcom.set_wk (FpDrvQcom.fp_bl_control 0 0 (FpDrvQcom.wk (drv x))) (drv x)) = raised (drv x))
    by apply (f_equal (λ m, m.1.2) (FpDrvQcom.bl_control_mail 0 0 (FpDrvQcom.wk (drv x)))).
  unfold sys_ok, from_driver. cbn [drv lis java pending handling]. rewrite Hr.
  split_and!; [eapply codes_mail; [apply FpDrvQcom.bl_control_mail|exact Hc]| |done|]; case_match; cbn in *; auto; lia.
Qed.

Lemma sys_ok_step keys p x x' :
  sys_step p x = Some x' → sys_ok keys x → sys_ok (power_keys [p] + keys) x'.
Proof.
  destruct p; cbn [power_keys]; eauto using sys_ok_driver, sys_ok_handle, sys_ok_report, sys_ok_power.
  cbn [sys_step]. destruct (pending x) eqn:Hp, (handling x) eqn:Hh; try done. intros [= <-] (Hc & Hv & Hj & Hn).
  split_and!; try done. cbn. rewrite Hp, Hh in Hn. cbn in Hn. cbn. lia.
Qed.
Lemma sys_ok_run keys ps x x' :
  sys_run ps x = Some x' → sys_ok keys x → sys_ok (power_keys ps + keys) x'.
Proof.
  revert keys x. induction ps as [|p ps IH]; intros keys x; cbn [sys_run]; [by intros [= <-]|].
  intros (x1 & Hp & Hr)%bind_Some Hx. eapply sys_ok_step in Hx; [|exact Hp].
  apply (IH _ _ Hr) in Hx. change (p :: ps) with ([p] ++ ps). unfold power_keys in *.
  rewrite filter_app, length_app. by rewrite (Nat.add_comm (length (filter _ [p]))), <- Nat.add_assoc.
Qed.

Lemma op_codes o q v q' : FpDrvQcom.apply_op o q = Val (v, q') → codes_ok (FpDrvQcom.wk q) → codes_ok (FpDrvQcom.wk q').
Proof.
  destruct o as [key t|cmd e|buf|val data t|filp on|y t| | | | | |b]; cbn [FpDrvQcom.apply_op]; intros Ho Hq; FpDrvQcom.run_op;
    auto using event_codes, notify_codes.
  - unfold FpDrvQcom.fp_ioctl in *. repeat case_match; FpDrvQcom.run_op; try done.
    + eapply codes_mail; [apply FpDrvQcom.bl_control_mail|exact Hq].
    + destruct Hq as [_ Hs]. by split; [left|].
  - eapply codes_mail; [apply FpDrvQcom.store_cmd_mail|exact Hq].
  - eapply codes_same; [..|exact Hq]; unfold FpDrvQcom.fp_fasync; by repeat case_match.
  - eapply codes_same; [..|exact Hq]; by repeat case_match.
  - unfold FpDrvQcom.fp_drv_exit in *. case_match; by FpDrvQcom.run_op.
Qed.
Lemma runs_codes ops evs q : FpDrvQcom.runs ops evs q → codes_ok (FpDrvQcom.wk q).
Proof. induction 1; [by split; [left|]|eauto using op_codes]. Qed.

(** Each event is taken through before the next operation of the driver. *)
Definition prompt_step (o : FpDrvQcom.qop) (x : sys) : option sys :=
  x1 ← sys_step (SDriver o) x;
  if pending x1 then sys_run [SDeliver; SHandle; SReport] x1 else Some x1.
Fixpoint prompt (os : list FpDrvQcom.qop) (x : sys) : option sys :=
  match os with [] => Some x | o :: os' => prompt_step o x ≫= prompt os' end.

Definition quiescent (x : sys) : Prop :=
  pending x = false ∧ handling x = false ∧ FpListener.msg_sem (lis x) = O.

Lemma take_through x :
  pending x = true → handling x = false → FpListener.msg_sem (lis x) = O → codes_ok (FpDrvQcom.wk (drv x)) →
  ∃ x', sys_run [SDeliver; SHandle; SReport] x = Some x' ∧ quiescent x' ∧ codes_ok (FpDrvQcom.wk (drv x')) ∧
    raised (drv x') = raised (drv x) ∧ java x' = java x ++ [event_of (drv x)].
Proof.
  intros Hp Hh Hm Hc. exists (reported 0 (handled (delivered_to x))).
  split_and!; [|done|by apply handled_codes|done|done].
  cbn [sys_run]. rewrite step_deliver, Hp, Hh. cbn [negb andb mbind option_bind].
  rewrite step_handle by done. cbn [handling delivered_to mbind option_bind]. rewrite step_report. cbn. by rewrite Hm.
Qed.

Lemma prompt_step_ok o x :
  external o = true → quiescent x → codes_ok (FpDrvQcom.wk (drv x)) →
  ∃ x' l, prompt_step o x = Some x' ∧ quiescent x' ∧ codes_ok (FpDrvQcom.wk (drv x')) ∧
    raised (drv x') = raised (drv x) ++ l ∧ java x' = java x ++ l.
Proof.
  intros He (Hp & Hh & Hm) Hc. destruct (external_ok o _ He Hc) as (q' & Ho & Hc' & Hr).
  unfold prompt_step. cbn [sys_step]. rewrite He, Ho, Hp. cbn [mbind option_bind orb pending].
  destruct Hr as [Hr|Hr].
  - rewrite Hr, Nat.eqb_refl. cbn. eexists _, []. rewrite !app_nil_r. by split_and!.
  - rewrite Hr, length_app. destruct (Nat.eqb_spec (length (raised (drv x)) + length [event_of q']) (length (raised (drv x))));
      [cbn in *; lia|]. cbn [negb].
    destruct (take_through (mk_sys q' (lis x) true (handling x) (java x))) as (x' & Hx' & Hq' & Hcx & Hrx & Hj); try done.
    exists x', [event_of q']. split_and!; try done. by rewrite Hrx.
Qed.
Lemma prompt_ok os x :
  Forall (λ o, external o = true) os → quiescent x → codes_ok (FpDrvQcom.wk (drv x)) →
  ∃ x' l, prompt os x = Some x' ∧ quiescent x' ∧
    raised (drv x') = raised (drv x) ++ l ∧ java x' = java x ++ l.
Proof.
  intros Hos. revert x. induction Hos as [|o os Ho _ IH]; intros x Hq Hc.
  - exists x, []. by rewrite !app_nil_r.
  - destruct (prompt_step_ok o x Ho Hq Hc) as (x1 & l1 & Hx1 & Hq1 & Hc1 & Hr1 & Hj1).
    destruct (IH x1 Hq1 Hc1) as (x' & l & Hx' & Hq' & Hr & Hj). exists x', (l1 ++ l).
    cbn [prompt]. rewrite Hx1. cbn. by rewrite !app_assoc, <- Hr1, <- Hj1.
Qed.
End Path.

(** ** Commands on their way *)

(** The data of the backlight commands a computation issued. *)
Definition commands (tr : list (FpListener.ucall * resp)) : list Z :=
  omap (λ ev, match ev.1 with
              | FpListener.Ioctl _ req arg => if req =? FpListener.FP_IOC_BL_CONTROL then Some arg else None
              | _ => None
              end) tr.
Lemma commands_app tr1 tr2 : commands (tr1 ++ tr2) = commands tr1 ++ commands tr2.
Proof. apply omap_app. Qed.

Lemma dev_ioctl_commands `{World FpListener.ucall} cmd level s :
  0 ≤ cmd ≤ 2 → FpListener.fp_qwk_enable_flag (st s) ≠ 0 → 0 < FpListener.dev_fd (st s) →
  ewp False (FpListener.fp_dev_ioctl cmd level) (λ _ s',
    st s' = st s ∧ commands (calls s') = commands (calls s) ++ [Z.lor (Z.shiftl cmd 16) level]) s.
Proof.
  intros Hc Hf Hd. apply Z.eqb_neq in Hf. unfold FpListener.fp_dev_ioctl, FpListener.fp_dev_open.
  do 2 ewp_prim. rewrite Hf. do 3 ewp_prim. rewrite (proj2 (Z.ltb_lt 0 _) Hd).
  do 1 ewp_prim. rewrite (proj2 (Z.ltb_ge (FpListener.dev_fd (st s)) 0)) by lia.
  assert (cmd = 0 ∨ cmd = 1 ∨ cmd = 2) as [-> |[-> | ->]] by lia; cbn [Z.eqb orb FpListener.FP_BL_LOCK FpListener.FP_BL_LOCK_RESET FpListener.FP_BL_UNLOCK_AND_TRIGGER Pos.eqb];
    unfold FpListener.setLcdBrightness; ewp_steps; rewrite ?commands_app; cbn; by rewrite ?app_nil_r.
Qed.

(** A touch event that is raised. *)
Lemma touch_event key now w :
  key = FpDrvQcom.HW_EVENT_DOWN ∨ key = FpDrvQcom.HW_EVENT_UP →
  FpDrvQcom.isFpQuickWakeUpSupport w ≠ 0 → FpDrvQcom.fasync_queue w ≠ [] →
  (FpDrvQcom.fp_event_record key now w).2 =
    FpDrvQcom.set_signalled (FpDrvQcom.signalled w ++ [key]) (FpDrvQcom.set_event key w).
Proof.
  intros Hk Hs Hf. apply Z.eqb_neq in Hs. unfold FpDrvQcom.fp_event_record. rewrite Hs.
  destruct Hk as [-> | ->]; cbn; unfold FpDrvQcom.KILL_MSG; by destruct (FpDrvQcom.fasync_queue _).
Qed.
Definition touched (key : Z) (x : sys) : sys :=
  mk_sys (FpDrvQcom.set_wk (FpDrvQcom.set_signalled (raised (drv x) ++ [key])
            (FpDrvQcom.set_event key (FpDrvQcom.wk (drv x)))) (drv x)) (lis x) true (handling x) (java x).
Lemma step_touch `{QcomKernel} key x :
  key = FpDrvQcom.HW_EVENT_DOWN ∨ key = FpDrvQcom.HW_EVENT_UP →
  FpDrvQcom.isFpQuickWakeUpSupport (FpDrvQcom.wk (drv x)) ≠ 0 → FpDrvQcom.fasync_queue (FpDrvQcom.wk (drv x)) ≠ [] →
  sys_step (SDriver (FpDrvQcom.Event key 0)) x = Some (touched key x).
Proof.
  intros Hk Hs Hf. pose proof (touch_event key 0 _ Hk Hs Hf) as He.
  cbn [sys_step external FpDrvQcom.apply_op]. rewrite He. unfold touched. repeat f_equal.
  unfold raised. cbn. rewrite length_app.
  destruct (Nat.eqb_spec (length (FpDrvQcom.signalled (FpDrvQcom.wk (drv x))) + length [key])
    (length (FpDrvQcom.signalled (FpDrvQcom.wk (drv x))))); [cbn in *; lia|]. apply orb_true_r.
Qed.
Lemma touched_codes key x :
  key = FpDrvQcom.HW_EVENT_DOWN ∨ key = FpDrvQcom.HW_EVENT_UP →
  codes_ok (FpDrvQcom.wk (drv x)) → codes_ok (FpDrvQcom.wk (drv (touched key x))).
Proof.
  intros Hk [_ Hs]. split; cbn.
  - right. apply elem_of_app. right. by apply list_elem_of_singleton.
  - apply Forall_app. split; [done|]. apply Forall_singleton. unfold event_code. rewrite !elem_of_cons.
    destruct Hk as [-> | ->]; auto.
Qed.

(** ** Properties *)

(** With quick wake-up off, the listener works with the sensor whose driver
    registered first: whatever happened in the registry driver, fp_dev_init reads
    the name from sysfs, settles on its vendor and opens the device of that
    vendor and no other, and none when the name is unknown.  A name of 50 or more
    characters fills the buffer of getFpInfo without a terminator, and comparing
    or logging it reads past its end. *)
Theorem sensor_selected `{K : QcomKernel} `{W : World FpListener.ucall} ops evs q s :
  let name := default "unknow" (FpDrvQcom.first_name ops) in
  FpDrvQcom.runs ops evs q → no_nul name → serves_info q → quick_wakeup_off → FpListener.fp_vendor (st s) ≤ 0 →
  if (String.length name <? 50)%nat then
    ∃ z s', FpListener.fp_dev_init s = Val (z, s') ∧ FpListener.fp_vendor (st s') = vendor_of name ∧
      opens (calls s') = opens (calls s) ++ FpListener.FP_DEV_ATTR :: option_list (device_of (vendor_of name))
  else FpListener.fp_dev_init s = UB.
Proof.
  intros name Hr Hn Hs Hoff Hv. pose proof (info_is_first _ _ _ Hr) as Hi. fold name in Hi.
  destruct (Nat.ltb_spec (String.length name) 50) as [Hl|Hl].
  - assert (Hw := fp_dev_init_opens q name Hi Hn Hs s False Hoff Hv ltac:(lia)).
    apply ewp_total in Hw as (z & s' & Hz & _ & Ho & Hv'). eauto.
  - assert (Hw := fp_dev_init_opens q name Hi Hn Hs s True Hoff Hv ltac:(done)). unfold ewp in Hw.
    destruct (FpListener.fp_dev_init s) as [[z s']|]; [|done]. destruct Hw as [Hl' _]. lia.
Qed.

Definition goodix_ops : list FpDrvQcom.qop :=
  [FpDrvQcom.RegisterName (Some "goodix_fp"); FpDrvQcom.RegisterName (Some "elan_fp")].
Definition shop_world : World FpListener.ucall := λ _ c,
  match c with
  | FpListener.Open _ => mk_resp 5 []
  | FpListener.Read _ n => mk_resp 9 (take n (codes "goodix_fp"))
  | _ => mk_resp 0 []
  end.
Lemma sensor_selected_witness :
  ∃ z s', FpListener.fp_dev_init (W := shop_world) (mk_rt [] FpListener.listener_initial) = Val (z, s') ∧
    opens (calls s') = [FpListener.FP_DEV_ATTR; FpListener.DRV_GOODIX].
Proof.
  destruct (@sensor_selected FpDrvQcom.sample_phone shop_world goodix_ops _ _ (mk_rt [] FpListener.listener_initial)
    (@FpDrvQcom.run_final FpDrvQcom.sample_phone goodix_ops eq_refl)) as (z & s' & Hz & _ & Ho).
  - by repeat constructor.
  - split; [done|]. intros tr fd n. done.
  - by intros tr.
  - done.
  - by exists z, s'.
Defined.

(** The listener's backlight commands mean to the registry driver what they
    say: after any history of the driver, fp_dev_ioctl with a command and a level
    of 16 bits issues one ioctl, and the driver's answer to that ioctl's data
    takes the lock, drops it, or drops it and, if it was held, writes exactly the
    level to the backlight. *)
Theorem backlight_command `{K : QcomKernel} `{W : World FpListener.ucall} ops evs q s cmd level t :
  FpDrvQcom.runs ops evs q → 0 ≤ cmd ≤ 2 → 0 ≤ level < 65536 →
  FpListener.fp_qwk_enable_flag (st s) ≠ 0 → 0 < FpListener.dev_fd (st s) →
  ∃ z s' data q', FpListener.fp_dev_ioctl cmd level s = Val (z, s') ∧
    commands (calls s') = commands (calls s) ++ [data] ∧
    FpDrvQcom.fp_ioctl FpListener.FP_IOC_BL_CONTROL (FpDrvQcom.mk_ioctl_env 0 data t true 0 false) q = Val (0, None, q') ∧
    FpDrvQcom.fp_backlight_control (FpDrvQcom.wk q') = Z.b2z (commanded cmd level (FpDrvQcom.lock_run ops).1).1 ∧
    FpDrvQcom.brightness (FpDrvQcom.wk q') =
      FpDrvQcom.brightness (FpDrvQcom.wk q) ++ (commanded cmd level (FpDrvQcom.lock_run ops).1).2.
Proof.
  intros Hr Hc Hl Hf Hd. pose proof (dev_ioctl_commands cmd level s Hc Hf Hd) as Hw.
  apply ewp_total in Hw as (z & s' & Hz & _ & Hcm). pose proof (FpDrvQcom.runs_lock _ _ _ Hr) as Hlock.
  set (data := Z.lor (Z.shiftl cmd 16) level) in *. set (e := FpDrvQcom.mk_ioctl_env 0 data t true 0 false).
  pose proof (FpDrvQcom.bl_control_ok _ data t _ e eq_refl Hlock) as [H1 H2].
  pose proof (command_understood cmd level (FpDrvQcom.lock_run ops).1 e Hc Hl eq_refl) as Hcu.
  change FpListener.FP_IOC_BL_CONTROL with FpDrvQcom.FP_IOC_BL_CONTROL in Hcu. rewrite Hcu in H1, H2.
  exists z, s', data, (FpDrvQcom.set_wk (FpDrvQcom.fp_bl_control data t (FpDrvQcom.wk q)) q).
  split_and!; try done. cbn in H2. destruct Hlock as [_ Hb]. cbn. by rewrite H2, Hb.
Qed.

Definition open_listener : rt FpListener.ucall FpListener.listener :=
  mk_rt [] (FpListener.set_dev_fd 5 (FpListener.set_fp_qwk_enable_flag 1 FpListener.listener_initial)).
Definition locked_ops : list FpDrvQcom.qop := [FpDrvQcom.Ioctl FpDrvQcom.FP_IOC_BL_CONTROL (FpDrvQcom.sample_env 0x10000)].
Lemma backlight_command_witness :
  ∃ data q', @FpDrvQcom.fp_ioctl FpDrvQcom.sample_phone FpListener.FP_IOC_BL_CONTROL
      (FpDrvQcom.mk_ioctl_env 0 data 7 true 0 false) (@FpDrvQcom.final_state FpDrvQcom.sample_phone locked_ops) = Val (0, None, q') ∧
    FpDrvQcom.brightness (FpDrvQcom.wk q') = [180].
Proof.
  destruct (@backlight_command FpDrvQcom.sample_phone shop_world locked_ops _ _ open_listener
    FpListener.FP_BL_UNLOCK_AND_TRIGGER 180 7 (@FpDrvQcom.run_final FpDrvQcom.sample_phone locked_ops eq_refl))
    as (z & s' & data & q' & _ & _ & Hq & _ & Hb); [vm_compute; by split|vm_compute; by split|done|done|].
  exists data, q'. by split.
Defined.

(** Nothing is made up on the way of an event, whatever the interleaving of the
    driver's operations, the signal, its handler, the power-key monitor and the
    reader: each value the Java service is given is an event the registry driver
    raised, the power key, or 0 for a signal whose event was already taken, and
    there are at most as many as events raised and power keys pressed. *)
Theorem events_path_sound `{K : QcomKernel} ops evs q l ps x :
  FpDrvQcom.runs ops evs q → FpListener.fp_event_value l = 0 → FpListener.msg_sem l = O →
  sys_run ps (mk_sys q l false false []) = Some x →
  Forall (λ v, v = 0 ∨ v = FpListener.KEY_POWER ∨ v ∈ raised (drv x)) (java x) ∧
  (length (java x) ≤ length (raised (drv x)) + power_keys ps)%nat.
Proof.
  intros Hr Hl Hm Hx. apply (sys_ok_run 0) in Hx as (_ & _ & Hj & Hn).
  - split; [exact Hj|lia].
  - split_and!; [by eapply runs_codes|by left|done|cbn; lia].
Qed.

Definition wake_ops : list FpDrvQcom.qop :=
  [FpDrvQcom.Ioctl FpDrvQcom.FP_IOC_QWK_ENABLE (FpDrvQcom.sample_env 1); FpDrvQcom.Fasync 5 true].
Definition woken : FpDrvQcom.fq_state := @FpDrvQcom.final_state FpDrvQcom.sample_phone wake_ops.
Definition touch_path : list step :=
  [SDriver (FpDrvQcom.Event 99 10); SDeliver; SHandle; SPowerKey; SReport; SDriver (FpDrvQcom.Event 1 20); SDeliver].
Lemma events_path_sound_witness :
  ∃ x, @sys_run FpDrvQcom.sample_phone touch_path (mk_sys woken (st open_listener) false false []) = Some x ∧
    (length (java x) ≤ length (raised (drv x)) + 1)%nat.
Proof.
  destruct (@sys_run FpDrvQcom.sample_phone touch_path (mk_sys woken (st open_listener) false false [])) as [x|] eqn:Hx;
    [|by vm_compute in Hx].
  exists x. split; [done|].
  exact (proj2 (@events_path_sound FpDrvQcom.sample_phone wake_ops _ woken (st open_listener) touch_path x
    (@FpDrvQcom.run_final FpDrvQcom.sample_phone wake_ops eq_refl) eq_refl eq_refl Hx)).
Defined.

(** C35. When each signal is handled and read before the driver's next operation, the
    listener is lossless: for every sequence of events, framebuffer notifications
    and commands the path runs through, and the Java service is given exactly the
    events the driver raised, in their order, each once. *)
Theorem prompt_delivery `{K : QcomKernel} ops evs q l os :
  FpDrvQcom.runs ops evs q → FpListener.msg_sem l = O → Forall (λ o, external o = true) os →
  ∃ x, prompt os (mk_sys q l false false []) = Some x ∧ quiescent x ∧ raised (drv x) = raised q ++ java x.
Proof.
  intros Hr Hm Hos. destruct (prompt_ok os (mk_sys q l false false [])) as (x & l' & Hx & Hq & Hra & Hj);
    [done|done|by eapply runs_codes|]. exists x. split_and!; [done|done|]. by rewrite Hra, Hj.
Qed.

Definition finger_ops : list FpDrvQcom.qop := [FpDrvQcom.Event 1 10; FpDrvQcom.Event 99 11; FpDrvQcom.Event 2 30].
Lemma prompt_delivery_witness :
  ∃ x, @prompt FpDrvQcom.sample_phone finger_ops (mk_sys woken (st open_listener) false false []) = Some x ∧
    java x = [1; 99; 2].
Proof.
  destruct (@prompt_delivery FpDrvQcom.sample_phone wake_ops _ woken (st open_listener) finger_ops
    (@FpDrvQcom.run_final FpDrvQcom.sample_phone wake_ops eq_refl)) as (x & Hx & _ & Hr); [done|by repeat constructor|].
  exists x. split; [done|]. vm_compute in Hx. by injection Hx as <-.
Defined.

(** When they are not, events get lost: with the mailbox of one place, the one
    variable of the handler and a counting semaphore in between, a finger that is
    put down and lifted between the first signal and its handling is reported to
    the Java service as two zeros, and both events are gone. *)
Theorem listener_loses_events `{K : QcomKernel} x :
  quiescent x → codes_ok (FpDrvQcom.wk (drv x)) →
  FpDrvQcom.isFpQuickWakeUpSupport (FpDrvQcom.wk (drv x)) ≠ 0 → FpDrvQcom.fasync_queue (FpDrvQcom.wk (drv x)) ≠ [] →
  ∃ x', sys_run [SDriver (FpDrvQcom.Event FpDrvQcom.HW_EVENT_DOWN 0); SDeliver;
                 SDriver (FpDrvQcom.Event FpDrvQcom.HW_EVENT_UP 0); SHandle; SDeliver; SHandle; SReport; SReport] x = Some x' ∧
    raised (drv x') = raised (drv x) ++ [FpDrvQcom.HW_EVENT_DOWN; FpDrvQcom.HW_EVENT_UP] ∧ java x' = java x ++ [0; 0].
Proof.
  intros (Hp & Hh & Hm) Hc Hs Hf. cbn [sys_run].
  rewrite (step_touch FpDrvQcom.HW_EVENT_DOWN) by auto. cbn [mbind option_bind].
  rewrite step_deliver. cbn [pending handling touched]. rewrite Hh. cbn [negb andb mbind option_bind].
  rewrite (step_touch FpDrvQcom.HW_EVENT_UP) by auto. cbn [mbind option_bind].
  rewrite step_handle by (by apply touched_codes; [auto|]; apply touched_codes; [auto|]).
  cbn [handling touched delivered_to mbind option_bind]. rewrite step_deliver. cbn [pending handling handled negb andb touched mbind option_bind].
  rewrite step_handle by (apply handled_codes, touched_codes; [auto|]; by apply touched_codes; [auto|]).
  cbn [handling delivered_to mbind option_bind]. rewrite step_report. cbn [lis handled FpListener.msg_sem FpListener.set_msg_sem mbind option_bind].
  rewrite step_report. cbn [lis reported FpListener.msg_sem FpListener.set_msg_sem].
  eexists. split_and!; [done|cbn; by rewrite <- app_assoc|cbn; by rewrite <- app_assoc].
Qed.

Lemma listener_loses_events_witness :
  ∃ x', @sys_run FpDrvQcom.sample_phone [SDriver (FpDrvQcom.Event FpDrvQcom.HW_EVENT_DOWN 0); SDeliver;
          SDriver (FpDrvQcom.Event FpDrvQcom.HW_EVENT_UP 0); SHandle; SDeliver; SHandle; SReport; SReport]
          (mk_sys woken (st open_listener) false false []) = Some x' ∧ java x' = [0; 0].
Proof.
  destruct (@listener_loses_events FpDrvQcom.sample_phone (mk_sys woken (st open_listener) false false []))
    as (x' & Hx & _ & Hj); [done|by split; [left|]|done|done|].
  exists x'. split; [exact Hx|exact Hj].
Defined.

End FpStack.
