(* ===== verification/SensorPath.v ===== *)
(** * From a sensor driver to the service

    The HAL of a sensor tells its driver whether a finger is on it; the driver
    records the event with the registry driver and raises SIGIO; the back end of
    the listener fetches the state and gives it to the service.  [SensorDriver] is
    what a driver and the back end for it promise together; the Chipone, the Elan
    and the Silead driver, which pass the state in different ways, keep it, and the
    path is proved against the promise.  The Goodix driver has its own path. *)
From S2P Require Import Prelude Runtime DriverRt FpDrv FpDrvQcom FpClient FpListener Chipone Elan Goodix Silead FpStack.

Module SensorPath.
Abbreviation listen := FpStack.listen.

(** ** Values *)
Definition one_two (v : Z) : Z := if v =? 1 then 1 else 2.
Lemma load_copied v z : 0 ≤ v < 4294967296 → le_load (copied 4 (mk_resp z (le_store 4 v))) = v.
Proof.
  intros Hv. unfold copied. cbn [rout]. rewrite take_app_length' by (by rewrite length_le_store).
  rewrite le_load_store. by apply Z.mod_small.
Qed.
Lemma listen_ewp {A} (m : IO FpListener.ucall FpListener.listener A) l a l' :
  ewp False m (λ b s, b = a ∧ st s = l') (mk_rt [] l) → listen m l = Some (a, l').
Proof. unfold ewp, FpStack.listen. destruct (m _) as [[b s]|]; [by intros [-> ->]|done]. Qed.
Lemma i32_is_one v : 0 ≤ v < 4294967296 → (i32 v =? 1) = (v =? 1).
Proof.
  intros Hv. unfold i32. destruct (Z.eqb_spec v 1) as [->|Hn]; [done|]. apply Z.eqb_neq. intros Hi.
  assert (Hm : (v + 2147483648) mod 4294967296 = 2147483649) by lia.
  pose proof (Z.div_mod (v + 2147483648) 4294967296). rewrite Hm in *.
  assert (0 ≤ (v + 2147483648) / 4294967296 ≤ 1); [|lia].
  split; [apply Z.div_pos; lia|]. apply Z.div_le_upper_bound; lia.
Qed.

(** SIGIO is raised. *)
Definition is_signal (c : kcall) : bool := match c with KillFasync => true | _ => false end.

(** ** The promise *)
Class SensorDriver (S : Type) `{HasRegistry S} := {
  (** the driver is bound and somebody listens; the back end has it open *)
  sd_ready : rt kcall S → Prop;
  sd_session : FpListener.listener → Prop;
  (** the HAL sets a state; the states it can pass; the one that is set *)
  sd_set : Z → IO kcall S Z;
  sd_valid : Z → Prop;
  sd_state : S → Z;
  (** the device under the listener's descriptor; the SIGIO handler *)
  sd_device : rt kcall S → World FpListener.ucall;
  sd_handler : World FpListener.ucall → IO FpListener.ucall FpListener.listener unit;
  sd_set_ok v s :
    sd_ready s → sd_valid v →
    ewp False (sd_set v) (λ z s', z = 0 ∧ sd_ready s' ∧ sd_state (st s') = v ∧
      times is_signal (calls s') = times is_signal (calls s) + 1 ∧
      ∃ now, FpDrvQcom.wk (registry_of (st s')) =
        (FpDrvQcom.fp_event_record (one_two v) now (FpDrvQcom.wk (registry_of (st s)))).2) s;
  sd_report_ok s l :
    sd_ready s → sd_valid (sd_state (st s)) → sd_session l →
    ∃ l1 l2, listen (sd_handler (sd_device s)) l = Some (tt, l1) ∧
      listen (FpListener.fp_update_finger_state (W := sd_device s)) l1 =
        Some (Some (0, Some (one_two (sd_state (st s)))), l2) ∧
      sd_session l2
}.

(** A state on its way: the HAL sets it, the handler runs, the service asks. *)
Definition finger_step `{SensorDriver X} (v : Z) (s : rt kcall X) (l : FpListener.listener) :
  option (Z * rt kcall X * FpListener.listener) :=
  match sd_set v s with
  | Val (_, s') =>
      '(_, l1) ← listen (sd_handler (sd_device s')) l;
      '(r, l2) ← listen (FpListener.fp_update_finger_state (W := sd_device s')) l1;
      match r with Some (_, Some x) => Some (x, s', l2) | _ => None end
  | UB => None
  end.
Fixpoint finger_run `{SensorDriver X} (vs : list Z) (s : rt kcall X) (l : FpListener.listener) :
  option (list Z * rt kcall X * FpListener.listener) :=
  match vs with
  | [] => Some ([], s, l)
  | v :: vs' => '(x, s', l') ← finger_step v s l; '(xs, s'', l'') ← finger_run vs' s' l'; Some (x :: xs, s'', l'')
  end.

(** Quick wake-up is on and the registry driver has a listener. *)
Definition raising (w : FpDrvQcom.wake) : Prop :=
  FpDrvQcom.isFpQuickWakeUpSupport w ≠ 0 ∧ FpDrvQcom.fasync_queue w ≠ [].

Lemma touch_raises v now w :
  raising w →
  raising (FpDrvQcom.fp_event_record (one_two v) now w).2 ∧
  FpDrvQcom.signalled (FpDrvQcom.fp_event_record (one_two v) now w).2 = FpDrvQcom.signalled w ++ [one_two v].
Proof.
  intros [Hs Hf]. rewrite FpStack.touch_event; [done| |done|done]. unfold one_two. destruct (v =? 1); auto.
Qed.

Section Path.
Context `{SensorDriver X}.

Lemma finger_step_ok v s l :
  sd_ready s → sd_session l → sd_valid v → raising (FpDrvQcom.wk (registry_of (st s))) →
  ∃ s' l', finger_step v s l = Some (one_two v, s', l') ∧ sd_ready s' ∧ sd_session l' ∧
    raising (FpDrvQcom.wk (registry_of (st s'))) ∧
    FpDrvQcom.signalled (FpDrvQcom.wk (registry_of (st s'))) =
      FpDrvQcom.signalled (FpDrvQcom.wk (registry_of (st s))) ++ [one_two v].
Proof.
  intros Hs Hl Hv Hr. pose proof (sd_set_ok v s Hs Hv) as Hw.
  apply ewp_total in Hw as (z & s' & Hset & -> & Hs' & Hst & _ & now & Hwk).
  destruct (sd_report_ok s' l Hs' ltac:(by rewrite Hst) Hl) as (l1 & l2 & H1 & H2 & Hl2). rewrite Hst in H2.
  exists s', l2. unfold finger_step. rewrite Hset, H1. cbn. rewrite H2. cbn. rewrite Hwk.
  destruct (touch_raises v now _ Hr) as [? ?]. by split_and!.
Qed.
Lemma finger_run_ok vs s l :
  sd_ready s → sd_session l → Forall sd_valid vs → raising (FpDrvQcom.wk (registry_of (st s))) →
  ∃ s' l', finger_run vs s l = Some (one_two <$> vs, s', l') ∧ sd_ready s' ∧ sd_session l' ∧
    FpDrvQcom.signalled (FpDrvQcom.wk (registry_of (st s'))) =
      FpDrvQcom.signalled (FpDrvQcom.wk (registry_of (st s))) ++ (one_two <$> vs).
Proof.
  intros Hs Hl Hvs Hr. revert s l Hs Hl Hr. induction Hvs as [|v vs Hv _ IH]; intros s l Hs Hl Hr.
  - exists s, l. by rewrite app_nil_r.
  - destruct (finger_step_ok v s l Hs Hl Hv Hr) as (s1 & l1 & H1 & Hs1 & Hl1 & Hr1 & Hsig1).
    destruct (IH s1 l1 Hs1 Hl1 Hr1) as (s' & l' & H2 & Hs' & Hl' & Hsig). exists s', l'.
    cbn [finger_run]. rewrite H1. cbn. rewrite H2. cbn. split_and!; try done. by rewrite Hsig, Hsig1, <- app_assoc.
Qed.
End Path.

(** The back ends that fetch the state with an ioctl: the service hears what the
    device answers. *)
Lemma backend_update_ok `{W : World FpListener.ucall} b `{!FpListener.BackEnd b} req l n v :
  FpListener.wk_sem (FpListener.view b l) = S n → FpListener.fp_exit (FpListener.view b l) = 0 → 0 ≤ v < 4294967296 →
  (∀ tr fd, answer tr (FpListener.Ioctl fd req 0) = mk_resp 0 (le_store 4 v)) →
  listen (FpListener.backend_update b req 0 FpListener.one_or_two) l =
    Some (Some (0, Some (one_two v)), FpListener.update b (FpListener.set_wk_sem n (FpListener.view b l)) l).
Proof.
  intros Hn Hex Hv Hans. apply listen_ewp. unfold FpListener.backend_update, FpListener.bget, FpListener.bmod.
  do 2 ewp_prim. cbn [st]. rewrite Hn. do 4 ewp_prim. cbn [st]. rewrite FpListener.view_update.
  cbn [FpListener.fp_exit FpListener.set_wk_sem]. rewrite Hex. cbn [Z.eqb negb]. do 4 ewp_prim. rewrite Hans, load_copied by done.
  cbn [rret Z.ltb Z.compare FpListener.one_or_two]. apply ewp_ret. split; [|done]. by rewrite i32_is_one.
Qed.

(** ** The Chipone driver *)
Section ChiponePath.
Context `{W : World kcall} `{T : Clock}.

(** The bytes of the last copy to user space. *)
Definition user_bytes (ev : kevent) : option (list Z) :=
  match ev with (CopyToUser data, r) => if rret r =? 0 then Some data else None | _ => None end.
Definition copy_out (tr : list kevent) : list Z := default [] (list.last (omap user_bytes tr)).
Lemma copy_out_copied tr data r : rret r = 0 → copy_out (tr ++ [(CopyToUser data, r)]) = data.
Proof. intros Hr. unfold copy_out. rewrite omap_app. cbn. rewrite Hr. cbn. by rewrite last_snoc. Qed.
Lemma copy_out_other tr ev : user_bytes ev = None → copy_out (tr ++ [ev]) = copy_out tr.
Proof. intros Hu. unfold copy_out. rewrite omap_app. cbn. rewrite Hu. by rewrite app_nil_r. Qed.
(** The Chipone device under the listener's descriptor. *)
Definition chipone_device (s : rt kcall Chipone.cstate) : World FpListener.ucall := λ _ c,
  match c with
  | FpListener.Ioctl _ req _ =>
      match Chipone.fpsensor_ioctl req s with
      | Val (z, s') => mk_resp z (copy_out (calls s'))
      | UB => mk_resp (-1) []
      end
  | _ => mk_resp 0 []
  end.



Lemma set_finger_ok s d v :
  Chipone.dev (st s) = Some d → Chipone.fasync_queue (st s) ≠ [] → 0 ≤ v < 4294967296 →
  (∀ tr, answer tr (CopyFromUser 4) = mk_resp 0 (le_store 4 v)) →
  ewp False (Chipone.fpsensor_ioctl Chipone.FPSENSOR_IOC_FTM_SET_FINGER_STATE) (λ z s', z = 0 ∧
    times is_signal (calls s') = times is_signal (calls s) + 1 ∧ Chipone.ftm_finger_status (st s') = v ∧
    is_Some (Chipone.dev (st s')) ∧ Chipone.fasync_queue (st s') = Chipone.fasync_queue (st s) ∧
    ∃ now, FpDrvQcom.wk (Chipone.reg (st s')) =
      (FpDrvQcom.fp_event_record (one_two v) now (FpDrvQcom.wk (Chipone.reg (st s)))).2) s.
Proof.
  intros Hd Hq Hv Hu. unfold Chipone.fpsensor_ioctl. Chipone.dev_prim.
  eapply ewp_put_dev; [done|]. cbn beta.
  ewp_is Chipone.ioctl_set_finger_state.
  unfold Chipone.ioctl_set_finger_state. do 6 ewp_prim. rewrite Hu, load_copied by done. cbn [rret Z.eqb negb].
  do 3 ewp_prim. apply ewp_report. intros now. do 3 ewp_prim.
  rewrite bool_decide_eq_false_2 by done. cbn [negb]. ewp_steps. split_and!; try done.
  - rewrite !times_snoc. cbn. lia.
  - by eexists.
Qed.

Lemma get_finger_ok s d :
  Chipone.dev (st s) = Some d → (∀ tr data, rret (answer tr (CopyToUser data)) = 0) →
  ewp False (Chipone.fpsensor_ioctl Chipone.FPSENSOR_IOC_FTM_GET_FINGER_STATE) (λ z s', z = 0 ∧
    copy_out (calls s') = le_store 4 (Chipone.ftm_finger_status (st s))) s.
Proof.
  intros Hd Hu. unfold Chipone.fpsensor_ioctl. Chipone.dev_prim.
  eapply ewp_put_dev; [done|]. cbn beta.
  ewp_is (v ← kget Chipone.ftm_finger_status; Chipone.ioctl_copy_out v).
  unfold Chipone.ioctl_copy_out. ewp_steps; [rewrite Hu in *; done|]. split; [done|].
  cbn [calls]. by rewrite copy_out_copied by done.
Qed.


Lemma chipone_update_ok s d l :
  Chipone.dev (st s) = Some d → (∀ tr data, rret (answer tr (CopyToUser data)) = 0) →
  0 ≤ Chipone.ftm_finger_status (st s) < 4294967296 →
  FpListener.fp_vendor l = FpListener.VENDOR_CHIPONE → FpListener.fp_exit (FpListener.chipone l) = 0 →
  ∀ n, FpListener.wk_sem (FpListener.chipone l) = S n →
  listen (FpListener.fp_update_finger_state (W := chipone_device s)) l =
    Some (Some (0, Some (one_two (Chipone.ftm_finger_status (st s)))),
          FpListener.set_chipone (FpListener.set_wk_sem n (FpListener.chipone l)) l).
Proof.
  intros Hd Hu Hv Hven Hex n Hn. pose proof (get_finger_ok s d Hd Hu) as Hg.
  apply ewp_total in Hg as (z & s' & Hs' & -> & Hout).
  unfold listen, FpListener.fp_update_finger_state, kget, mbind, IO_bind. cbn [st]. rewrite Hven.
  apply (backend_update_ok FpListener.chipone_lens); [done|done|done|]. intros tr fd. unfold answer, chipone_device.
  change FpListener.CHIPONE_FINGER_STATE_INFO with Chipone.FPSENSOR_IOC_FTM_GET_FINGER_STATE. by rewrite Hs', Hout.
Qed.
End ChiponePath.

(** The HAL's state as the argument of the ioctl. *)
Definition with_arg (v : Z) (W : World kcall) : World kcall := λ tr c,
  match c with
  | CopyFromUser n => mk_resp 0 (take n (le_store 4 v))
  | CopyToUser _ => mk_resp 0 []
  | _ => answer tr c
  end.

#[global] Instance chipone_sensor (W : World kcall) (T : Clock) : SensorDriver Chipone.cstate.
Proof.
  refine {|
    sd_ready s := is_Some (Chipone.dev (st s)) ∧ Chipone.fasync_queue (st s) ≠ [];
    sd_session l := FpListener.fp_vendor l = FpListener.VENDOR_CHIPONE ∧ FpListener.fp_exit (FpListener.chipone l) = 0;
    sd_set v := Chipone.fpsensor_ioctl (W := with_arg v W) Chipone.FPSENSOR_IOC_FTM_SET_FINGER_STATE;
    sd_valid v := 0 ≤ v < 4294967296;
    sd_state := Chipone.ftm_finger_status;
    sd_device := chipone_device (W := with_arg 0 W);
    sd_handler _ := FpListener.fasync_input_handler FpListener.chipone_lens
  |}.
  - intros v s [[d Hd] Hq] Hv. eapply ewp_mono; [|by apply (set_finger_ok (W := with_arg v W) s d v)].
    intros z s' (-> & Hk & Hst & Hd' & Hq' & Hev). rewrite Hq'. by split_and!.
  - intros s l [[d Hd] _] Hv [Hven Hex].
    pose proof (chipone_update_ok (W := with_arg 0 W) s d
      (FpListener.set_chipone (FpListener.set_wk_sem (S (FpListener.wk_sem (FpListener.chipone l))) (FpListener.chipone l)) l)
      Hd ltac:(done) Hv Hven Hex _ eq_refl) as Hup.
    eexists _, _. split_and!; [done|exact Hup|done|done].
Defined.

(** ** The Elan driver *)
Section ElanPath.
Context `{W : World kcall} `{T : Clock}.

(** The Elan device under the listener's descriptor; the state is the result. *)
Definition elan_device (s : rt kcall Elan.estate) : World FpListener.ucall := λ _ c,
  match c with
  | FpListener.Ioctl _ req arg =>
      match Elan.efsa120s_ioctl req arg s with Val (z, _) => mk_resp z [] | UB => mk_resp (-1) [] end
  | _ => mk_resp 0 []
  end.

Lemma i32_id v : -2147483648 ≤ v < 2147483648 → i32 v = v.
Proof. intros Hv. unfold i32. rewrite Z.mod_small; lia. Qed.

Lemma elan_key_ok s v :
  Elan.fasync_queue (st s) ≠ [] → -2147483648 ≤ v < 2147483648 →
  ewp False (Elan.efsa120s_ioctl Elan.IOCTL_WRITE_KEY_STATUS v) (λ z s', z = 0 ∧
    Elan.fasync_queue (st s') ≠ [] ∧ Elan.key_status (st s') = v ∧
    times is_signal (calls s') = times is_signal (calls s) + 1 ∧
    ∃ now, FpDrvQcom.wk (Elan.reg (st s')) =
      (FpDrvQcom.fp_event_record (one_two v) now (FpDrvQcom.wk (Elan.reg (st s)))).2) s.
Proof.
  intros Hq Hv. ewp_is (Elan.ioctl_write_key_status v). unfold Elan.ioctl_write_key_status. do 5 ewp_prim.
  cbn [st Elan.key_status Elan.set_key_status]. rewrite i32_id by done. apply ewp_report. intros now. do 3 ewp_prim.
  rewrite bool_decide_eq_false_2 by done. cbn [negb]. ewp_steps. split_and!; try done.
  - rewrite !times_snoc. cbn. lia.
  - by eexists.
Qed.

Lemma elan_update_ok s l :
  FpListener.fp_vendor l = FpListener.VENDOR_ELAN →
  ∃ l1, listen (FpListener.elan_input_handler (W := elan_device s)) l = Some (tt, l1) ∧
    listen (FpListener.fp_update_finger_state (W := elan_device s)) l1 =
      Some (Some (0, Some (one_two (Elan.key_status (st s)))),
            FpListener.set_elan_sem (FpListener.elan_sem l) l1) ∧ FpListener.fp_vendor l1 = FpListener.VENDOR_ELAN.
Proof.
  intros Hven. eexists. split_and!.
  - apply listen_ewp. unfold FpListener.elan_input_handler. ewp_steps. by split.
  - apply listen_ewp. unfold FpListener.fp_update_finger_state. do 2 ewp_prim. cbn [st].
    cbn [FpListener.fp_vendor FpListener.set_elan_sem FpListener.set_finger_state]. rewrite Hven.
    ewp_is FpListener.elan_update_finger_state. unfold FpListener.elan_update_finger_state. do 2 ewp_prim.
    cbn [st FpListener.elan_sem FpListener.set_elan_sem]. ewp_steps. by split.
  - done.
Qed.
End ElanPath.

#[global] Instance elan_sensor (W : World kcall) (T : Clock) : SensorDriver Elan.estate.
Proof.
  refine {|
    sd_ready s := Elan.fasync_queue (st s) ≠ [];
    sd_session l := FpListener.fp_vendor l = FpListener.VENDOR_ELAN;
    sd_set v := Elan.efsa120s_ioctl Elan.IOCTL_WRITE_KEY_STATUS v;
    sd_valid v := -2147483648 ≤ v < 2147483648;
    sd_state := Elan.key_status;
    sd_device := elan_device;
    sd_handler w := FpListener.elan_input_handler (W := w)
  |}.
  - intros v s Hq Hv. by apply elan_key_ok.
  - intros s l _ _ Hven. destruct (elan_update_ok s l Hven) as (l1 & H1 & H2 & H3). by eexists l1, _.
Defined.

(** ** The Silead driver *)
Section SileadPath.
Context `{QK : QcomKernel} `{W : World kcall} `{T : Clock} `{G : Gpios} (hal listener : Z).

(** The Silead device under the listener's descriptor, its file [listener]. *)
Definition silead_device (s : rt kcall Silead.sstate) : World FpListener.ucall := λ _ c,
  match c with
  | FpListener.Ioctl _ req arg =>
      match Silead.spidev_ioctl listener req arg s with
      | Val (z, s') => mk_resp z (copy_out (calls s'))
      | UB => mk_resp (-1) []
      end
  | _ => mk_resp 0 []
  end.

Lemma silead_set_ok v s :
  hal ∈ Silead.private_data (st s) → Silead.fasync_queue (st s) ≠ [] → 0 ≤ v < 2147483648 →
  ewp False (Silead.spidev_ioctl hal Silead.SPI_HW_FINGER_STATE_INFO v) (λ z s', z = 0 ∧
    Silead.private_data (st s') = Silead.private_data (st s) ∧ Silead.fasync_queue (st s') = Silead.fasync_queue (st s) ∧
    Silead.finger_status (st s') = v ∧ times is_signal (calls s') = times is_signal (calls s) + 1 ∧
    ∃ now, FpDrvQcom.wk (Silead.reg (st s')) =
      (FpDrvQcom.fp_event_record (one_two v) now (FpDrvQcom.wk (Silead.reg (st s)))).2) s.
Proof.
  intros Hf Hq Hv. ewp_is (p ← kget Silead.private_data; if negb (bool_decide (hal ∈ p)) then kub else
    kdo (MutexLock "buf_lock") ;; retval ← Silead.silead_command Silead.SPI_HW_FINGER_STATE_INFO v; kdo (MutexUnlock "buf_lock") ;; mret retval).
  apply ewp_bind, ewp_get. rewrite bool_decide_eq_true_2 by done. cbn [negb]. do 5 ewp_prim.
  apply ewp_bind. ewp_is (Silead.ioctl_finger_state v). unfold Silead.ioctl_finger_state. do 4 ewp_prim.
  cbn [st Silead.finger_status Silead.set_finger_status]. rewrite i32_id by lia. apply ewp_bind, ewp_report. intros now.
  unfold Silead.signal_async. do 3 ewp_prim. unfold kwhen. rewrite bool_decide_eq_false_2 by done. cbn [negb]. ewp_steps.
  split_and!; try done.
  - rewrite !times_snoc. cbn. lia.
  - by eexists.
Qed.
Lemma silead_get_ok s :
  listener ∈ Silead.private_data (st s) → (∀ tr data, rret (answer tr (CopyToUser data)) = 0) →
  ewp False (Silead.spidev_ioctl listener Silead.IOCTL_FINGER_STATE_INFO 0) (λ z s', z = 0 ∧
    copy_out (calls s') = le_store 4 (Silead.finger_status (st s))) s.
Proof.
  intros Hf Hu. ewp_is (p ← kget Silead.private_data; if negb (bool_decide (listener ∈ p)) then kub else
    kdo (MutexLock "buf_lock") ;; retval ← Silead.silead_command Silead.IOCTL_FINGER_STATE_INFO 0; kdo (MutexUnlock "buf_lock") ;; mret retval).
  apply ewp_bind, ewp_get. rewrite bool_decide_eq_true_2 by done. cbn [negb]. do 5 ewp_prim.
  apply ewp_bind. ewp_is (v ← kget Silead.finger_status; kret (CopyToUser (le_store 4 v))). ewp_steps. split; [apply Hu|].
  cbn [calls]. rewrite copy_out_other by done. by rewrite copy_out_copied by apply Hu.
Qed.
End SileadPath.

#[global] Instance silead_sensor (QK : QcomKernel) (W : World kcall) (T : Clock) (G : Gpios) (hal lis : Z) : SensorDriver Silead.sstate.
Proof.
  refine {|
    sd_ready s := hal ∈ Silead.private_data (st s) ∧ lis ∈ Silead.private_data (st s) ∧ Silead.fasync_queue (st s) ≠ [];
    sd_session l := FpListener.fp_vendor l = FpListener.VENDOR_SILEAD ∧ FpListener.fp_exit (FpListener.silead l) = 0;
    sd_set v := Silead.spidev_ioctl hal Silead.SPI_HW_FINGER_STATE_INFO v;
    sd_valid v := 0 ≤ v < 2147483648;
    sd_state := Silead.finger_status;
    sd_device := silead_device (W := with_arg 0 W) lis;
    sd_handler _ := FpListener.fasync_input_handler FpListener.silead_lens
  |}.
  - intros v s (Hf & Hl & Hq) Hv. eapply ewp_mono; [|by apply (silead_set_ok hal v s)].
    intros z s' (-> & Hp & Hq' & Hst & Hsig & Hev). rewrite Hp, Hq'. by split_and!.
  - intros s l (_ & Hf & _) Hv [Hven Hex].
    pose proof (silead_get_ok (W := with_arg 0 W) lis s Hf ltac:(done)) as Hg. apply ewp_total in Hg as (z & s' & Hs' & -> & Hout).
    set (D := silead_device (W := with_arg 0 W) lis s).
    set (l1 := FpListener.set_silead (FpListener.set_wk_sem (S (FpListener.wk_sem (FpListener.silead l))) (FpListener.silead l)) l).
    assert (Hup : listen (FpListener.silead_update_finger_state (W := D)) l1 = Some (Some (0, Some (one_two (Silead.finger_status (st s)))),
      FpListener.set_silead (FpListener.set_wk_sem (FpListener.wk_sem (FpListener.silead l)) (FpListener.silead l1)) l1)).
    { apply (backend_update_ok FpListener.silead_lens); [reflexivity|exact Hex|lia|]. intros tr fd. unfold answer, D, silead_device.
      change FpListener.SILEAD_FINGER_STATE_INFO with Silead.IOCTL_FINGER_STATE_INFO. by rewrite Hs', Hout. }
    assert (Hvend : listen (FpListener.fp_update_finger_state (W := D)) l1 = listen (FpListener.silead_update_finger_state (W := D)) l1).
    { unfold listen, FpListener.fp_update_finger_state, kget, mbind, IO_bind. cbn [st].
      change (FpListener.fp_vendor l1) with (FpListener.fp_vendor l). by rewrite Hven. }
    rewrite Hup in Hvend. eexists l1, _. split; [reflexivity|]. split; [exact Hvend|]. split; [exact Hven|exact Hex].
Defined.

(** ** The Goodix driver

    It does not record events: the HAL wakes the polling thread of the back end,
    which lets the service fetch the state. *)
Section GoodixPath.
Context `{W : World kcall} `{G : Gpios}.

(** The argument of an ioctl, at a valid address. *)
Definition user_arg (bs : list Z) : World kcall := λ tr c,
  match c with
  | CopyFromUser n => mk_resp 0 (take n bs)
  | CopyToUser _ => mk_resp 0 []
  | AccessOk _ _ => mk_resp 1 []
  | _ => answer tr c
  end.
(** The HAL sends a key; the thread polls; the back end asks for the state. *)
Definition send_key (key v : Z) : IO kcall Goodix.gstate Z :=
  Goodix.gf_ioctl (W := user_arg (le_store 4 key ++ le_store 4 v)) Goodix.GF_IOC_SENDKEY.
Definition goodix_device (s : rt kcall Goodix.gstate) : World FpListener.ucall := λ _ c,
  match c with
  | FpListener.Ioctl _ req arg =>
      match Goodix.gf_ioctl (W := user_arg (le_store 4 arg)) req s with
      | Val (z, s') => mk_resp z (copy_out (calls s'))
      | UB => mk_resp (-1) []
      end
  | FpListener.Poll _ =>
      match Goodix.gf_fp_poll s with Val (z, _) => mk_resp (if z =? 0 then 0 else 1) [] | UB => mk_resp (-1) [] end
  | _ => mk_resp 0 []
  end.
(** The driver after one call of the back end. *)
Definition after {A} (m : IO kcall Goodix.gstate A) (s : rt kcall Goodix.gstate) : rt kcall Goodix.gstate :=
  match m s with Val (_, s') => s' | UB => s end.

(** A key on its way: sent by the HAL, polled by the thread, fetched by the service. *)
Definition key_step (kv : Z * Z) (s : rt kcall Goodix.gstate) (l : FpListener.listener) :
  option (option (Z * option Z) * rt kcall Goodix.gstate * FpListener.listener) :=
  match send_key kv.1 kv.2 s with
  | Val (_, s1) =>
      '(_, l1) ← listen (FpListener.thread_do_poll (FpListener._dev_fd (FpListener.goodix l)) (W := goodix_device s1)) l;
      let s2 := after Goodix.gf_fp_poll s1 in
      '(r, l2) ← listen (FpListener.fp_update_finger_state (W := goodix_device s2)) l1;
      Some (r, after (Goodix.gf_ioctl (W := user_arg (le_store 4 1)) Goodix.GFX1XM_IOC_FTM) s2, l2)
  | UB => None
  end.
Fixpoint key_run (kvs : list (Z * Z)) (s : rt kcall Goodix.gstate) (l : FpListener.listener) :
  option (list (option (Z * option Z)) * rt kcall Goodix.gstate * FpListener.listener) :=
  match kvs with
  | [] => Some ([], s, l)
  | kv :: kvs' => '(x, s', l') ← key_step kv s l; '(xs, s'', l'') ← key_run kvs' s' l'; Some (x :: xs, s'', l'')
  end.
(** What the service hears of a key: 1 for a press, 2 for a release, else 0. *)
Definition heard (kv : Z * Z) : option (Z * option Z) :=
  Some (0, Some (if kv.2 =? 1 then 1 else if kv.2 =? 0 then 2 else 0)).

Lemma load_int v : -2147483648 ≤ v < 2147483648 → i32 (le_load (le_store 4 v)) = v.
Proof.
  intros Hv. rewrite le_load_store. change (256 ^ Z.of_nat 4) with 4294967296. unfold i32.
  rewrite Zplus_mod_idemp_l, Z.mod_small; lia.
Qed.
Lemma send_key_ok key v s :
  Goodix.device_available (Goodix.gf (st s)) = 1 → -2147483648 ≤ v < 2147483648 →
  ewp False (send_key key v) (λ z s', z = 0 ∧
    st s' = Goodix.set_ftm_gfx_irq_send_key 1
      (Goodix.set_ftm_gfx_irq_state (if v =? 1 then 1 else if v =? 0 then 2 else 0) (st s))) s.
Proof.
  intros Ha Hv. unfold send_key. set (U := user_arg _).
  ewp_is (bad ← Goodix.check_access Goodix.GF_IOC_SENDKEY; if (bad : bool) then mret (- Goodix.EFAULT) else
    a ← get Goodix.device_available; if (a =? 0) && true then mret (- Goodix.ENODEV) else Goodix.ioctl_send_key).
  apply ewp_bind. ewp_is (v ← kret (AccessOk false 8); mret (v =? 0)). do 5 ewp_prim. apply ewp_ret. cbn [U answer user_arg rret Z.eqb].
  apply ewp_bind, (ewp_get_dev _ _ _ _ (Goodix.gf (st s))); [done|]. rewrite Ha. cbn [Z.eqb andb].
  unfold Goodix.ioctl_send_key. do 4 ewp_prim. cbn [U answer user_arg rret Z.eqb negb].
  replace (sub 4 4 _) with (le_store 4 v).
  2: { unfold copied. cbn [rout]. rewrite (take_ge (le_store 4 key ++ le_store 4 v) 8) by (rewrite length_app, !length_le_store; lia).
       rewrite take_app_length' by (by rewrite length_app, !length_le_store).
       unfold sub. rewrite drop_app_length' by (by rewrite length_le_store).
       by rewrite take_ge by (by rewrite length_le_store). }
  rewrite load_int by done. ewp_steps; (split; [done|]); done.
Qed.
Lemma ftm_ok s :
  Goodix.device_available (Goodix.gf (st s)) = 1 →
  ewp False (Goodix.gf_ioctl (W := user_arg (le_store 4 1)) Goodix.GFX1XM_IOC_FTM) (λ z s', z = 0 ∧ st s' = st s ∧
    copy_out (calls s') = le_store 4 (Goodix.ftm_gfx_irq_state (st s))) s.
Proof.
  intros Ha. set (U := user_arg _).
  ewp_is (bad ← Goodix.check_access Goodix.GFX1XM_IOC_FTM; if (bad : bool) then mret (- Goodix.EFAULT) else
    a ← get Goodix.device_available; if (a =? 0) && true then mret (- Goodix.ENODEV) else Goodix.ioctl_ftm).
  apply ewp_bind. ewp_is (v ← kret (AccessOk false 4); mret (v =? 0)). do 5 ewp_prim. apply ewp_ret. cbn [U answer user_arg rret Z.eqb].
  apply ewp_bind, (ewp_get_dev _ _ _ _ (Goodix.gf (st s))); [done|]. rewrite Ha. cbn [Z.eqb andb].
  unfold Goodix.ioctl_ftm. do 4 ewp_prim.
  ewp_is (mret tt ;; kret (CopyToUser (le_store 4 (Goodix.ftm_gfx_irq_state (st s))))). do 5 ewp_prim. apply ewp_ret.
  split_and!; [done|done|]. cbn [calls]. by rewrite copy_out_copied by done.
Qed.

(** The back end of a Goodix sensor is up. *)
Definition goodix_session (l : FpListener.listener) : Prop :=
  FpListener.fp_vendor l = FpListener.VENDOR_GOODIX ∧ FpListener.fp_exit (FpListener.goodix l) = 0.

Lemma poll_posts fd s l :
  Goodix.ftm_gfx_irq_send_key (st s) = 1 → FpListener.fp_exit (FpListener.goodix l) = 0 →
  listen (FpListener.thread_do_poll fd (W := goodix_device s)) l =
    Some (true, FpListener.set_goodix (FpListener.set_wk_sem (S (FpListener.wk_sem (FpListener.goodix l))) (FpListener.goodix l)) l).
Proof.
  intros Hk He. apply listen_ewp. unfold FpListener.thread_do_poll. do 4 ewp_prim. apply ewp_ret.
  replace (rret _) with 1 by (cbn; unfold Goodix.gf_fp_poll, kget, mbind, IO_bind; by rewrite Hk).
  cbn [Z.eqb negb kwhen]. unfold FpListener.sem_post, FpListener.bget, FpListener.bmod. ewp_steps. split; [|done].
  cbn [FpListener.view FpListener.goodix_lens FpListener.update FpListener.set_goodix FpListener.goodix FpListener.fp_exit FpListener.set_wk_sem].
  by rewrite He.
Qed.

Lemma fetch_state s l n :
  Goodix.device_available (Goodix.gf (st s)) = 1 → -2147483648 ≤ Goodix.ftm_gfx_irq_state (st s) < 2147483648 →
  goodix_session l → FpListener.wk_sem (FpListener.goodix l) = S n →
  listen (FpListener.fp_update_finger_state (W := goodix_device s)) l =
    Some (Some (0, Some (Goodix.ftm_gfx_irq_state (st s))), FpListener.set_goodix (FpListener.set_wk_sem n (FpListener.goodix l)) l).
Proof.
  intros Ha Hr [Hven Hex] Hn. pose proof (ftm_ok s Ha) as Hf. apply ewp_total in Hf as (z & s' & Hs' & -> & _ & Hout).
  apply listen_ewp. unfold FpListener.fp_update_finger_state. do 2 ewp_prim. cbn [st]. rewrite Hven.
  ewp_is (FpListener.goodix_update_finger_state (W := goodix_device s)).
  unfold FpListener.goodix_update_finger_state, FpListener.backend_update, FpListener.bget, FpListener.bmod.
  do 2 ewp_prim. cbn [st FpListener.view FpListener.goodix_lens]. rewrite Hn. do 4 ewp_prim.
  cbn [st FpListener.view FpListener.goodix_lens FpListener.update FpListener.goodix FpListener.set_goodix FpListener.fp_exit FpListener.set_wk_sem].
  rewrite Hex. cbn [Z.eqb negb]. do 4 ewp_prim. unfold answer, goodix_device.
  change FpListener.GFX1XM_IOC_FTM with Goodix.GFX1XM_IOC_FTM. rewrite Hs', Hout.
  cbn [rret Z.ltb Z.compare]. apply ewp_ret. split; [|done]. unfold copied. cbn [rout].
  by rewrite take_app_length', load_int by (done || by rewrite length_le_store).
Qed.

Lemma key_step_ok kv s l :
  Goodix.device_available (Goodix.gf (st s)) = 1 → goodix_session l → -2147483648 ≤ kv.2 < 2147483648 →
  ∃ s' l', key_step kv s l = Some (heard kv, s', l') ∧ Goodix.device_available (Goodix.gf (st s')) = 1 ∧ goodix_session l'.
Proof.
  intros Ha Hl Hv. pose proof (send_key_ok kv.1 kv.2 s Ha Hv) as Hw.
  apply ewp_total in Hw as (z & s1 & Hs1 & -> & Hst1). unfold key_step. rewrite Hs1.
  rewrite poll_posts by (rewrite ?Hst1; done || apply Hl). cbn [mbind option_bind].
  set (s2 := after _ s1). assert (Hst2 : st s2 = Goodix.set_ftm_gfx_irq_send_key 0 (st s1)) by done.
  assert (Hg : Goodix.gf (st s2) = Goodix.gf (st s)) by (by rewrite Hst2, Hst1).
  assert (Hf : Goodix.ftm_gfx_irq_state (st s2) = if kv.2 =? 1 then 1 else if kv.2 =? 0 then 2 else 0) by (by rewrite Hst2, Hst1).
  erewrite fetch_state; [|by rewrite Hg|rewrite Hf; repeat case_match; lia|split; apply Hl|reflexivity].
  cbn [mbind option_bind]. rewrite Hf. eexists _, _. split; [reflexivity|]. split; [|split; apply Hl].
  pose proof (ftm_ok s2 ltac:(by rewrite Hg)) as Hw. apply ewp_total in Hw as (z & s3 & Hs3 & _ & Hst3 & _).
  unfold after. rewrite Hs3, Hst3. by rewrite Hg.
Qed.
Lemma key_run_ok kvs s l :
  Goodix.device_available (Goodix.gf (st s)) = 1 → goodix_session l → Forall (λ kv, -2147483648 ≤ kv.2 < 2147483648) kvs →
  ∃ s' l', key_run kvs s l = Some (heard <$> kvs, s', l').
Proof.
  intros Ha Hl Hvs. revert s l Ha Hl. induction Hvs as [|kv kvs Hv _ IH]; intros s l Ha Hl; [by exists s, l|].
  destruct (key_step_ok kv s l Ha Hl Hv) as (s1 & l1 & H1 & Ha1 & Hl1). destruct (IH s1 l1 Ha1 Hl1) as (s' & l' & H2).
  exists s', l'. cbn [key_run]. rewrite H1. cbn. by rewrite H2.
Qed.

(** Without a sensor the other commands are refused before they do anything. *)
Lemma refused_ok cmd s :
  Goodix.device_available (Goodix.gf (st s)) = 0 → cmd ≠ Goodix.GF_IOC_POWER_ON → cmd ≠ Goodix.GF_IOC_POWER_OFF →
  ewp False (Goodix.gf_ioctl cmd) (λ z s', z < 0 ∧ st s' = st s) s.
Proof.
  intros Ha Hon Hoff. unfold Goodix.gf_ioctl. destruct (_ =? Goodix.GF_IOC_MAGIC); cbn [negb]; [|by apply ewp_ret].
  apply (ewp_seq _ (λ s', st s' = st s)); [unfold Goodix.check_access; by ewp_steps|].
  intros [] s1 H1; [by apply ewp_ret|]. apply ewp_bind, (ewp_get_dev _ _ _ _ (Goodix.gf (st s1))); [done|].
  rewrite H1, Ha, (proj2 (Z.eqb_neq _ _) Hon), (proj2 (Z.eqb_neq _ _) Hoff). by apply ewp_ret.
Qed.
End GoodixPath.

(** ** Properties *)

(** C34. What the HAL says of the finger is what the service hears and what the
    registry driver raises, for a Chipone, an Elan and a Silead sensor alike: for
    every sequence of states set while a listener is registered and quick wake-up
    is on, each state is stored by the driver, signalled, fetched by the back end
    and given to the service as 1 for a press and 2 for anything else, in order,
    and the registry driver raised exactly the same events. *)
Theorem fingers_reported `{QK : QcomKernel} `{W : World kcall} `{T : Clock} `{G : Gpios} vs l :
  (∀ s : rt kcall Chipone.cstate,
     is_Some (Chipone.dev (st s)) → Chipone.fasync_queue (st s) ≠ [] → raising (FpDrvQcom.wk (Chipone.reg (st s))) →
     FpListener.fp_vendor l = FpListener.VENDOR_CHIPONE → FpListener.fp_exit (FpListener.chipone l) = 0 →
     Forall (λ v, 0 ≤ v < 4294967296) vs →
     ∃ s' l', finger_run vs s l = Some (one_two <$> vs, s', l') ∧
       FpDrvQcom.signalled (FpDrvQcom.wk (Chipone.reg (st s'))) =
         FpDrvQcom.signalled (FpDrvQcom.wk (Chipone.reg (st s))) ++ (one_two <$> vs)) ∧
  (∀ s : rt kcall Elan.estate,
     Elan.fasync_queue (st s) ≠ [] → raising (FpDrvQcom.wk (Elan.reg (st s))) →
     FpListener.fp_vendor l = FpListener.VENDOR_ELAN →
     Forall (λ v, -2147483648 ≤ v < 2147483648) vs →
     ∃ s' l', finger_run vs s l = Some (one_two <$> vs, s', l') ∧
       FpDrvQcom.signalled (FpDrvQcom.wk (Elan.reg (st s'))) =
         FpDrvQcom.signalled (FpDrvQcom.wk (Elan.reg (st s))) ++ (one_two <$> vs)) ∧
  (∀ (s : rt kcall Silead.sstate) (hal lis : Z),
     hal ∈ Silead.private_data (st s) → lis ∈ Silead.private_data (st s) → Silead.fasync_queue (st s) ≠ [] →
     raising (FpDrvQcom.wk (Silead.reg (st s))) →
     FpListener.fp_vendor l = FpListener.VENDOR_SILEAD → FpListener.fp_exit (FpListener.silead l) = 0 →
     Forall (λ v, 0 ≤ v < 2147483648) vs →
     ∃ s' l', finger_run (H0 := silead_sensor QK W T G hal lis) vs s l = Some (one_two <$> vs, s', l') ∧
       FpDrvQcom.signalled (FpDrvQcom.wk (Silead.reg (st s'))) =
         FpDrvQcom.signalled (FpDrvQcom.wk (Silead.reg (st s))) ++ (one_two <$> vs)).
Proof.
  split_and!.
  - intros s Hd Hq Hr Hven Hex Hvs.
    destruct (@finger_run_ok _ _ (chipone_sensor W T) vs s l (conj Hd Hq) (conj Hven Hex) Hvs Hr) as (s' & l' & Hrun & _ & _ & Hsig). eauto.
  - intros s Hq Hr Hven Hvs. destruct (@finger_run_ok _ _ (elan_sensor W T) vs s l Hq Hven Hvs Hr) as (s' & l' & Hrun & _ & _ & Hsig). eauto.
  - intros s hal lis Hf Hl Hq Hr Hven Hex Hvs.
    destruct (@finger_run_ok _ _ (silead_sensor QK W T G hal lis) vs s l (conj Hf (conj Hl Hq)) (conj Hven Hex) Hvs Hr)
      as (s' & l' & Hrun & _ & _ & Hsig). eauto.
Qed.

(** A registry driver with quick wake-up on and a listener, under both drivers. *)
Definition listening : FpDrvQcom.fq_state :=
  FpDrvQcom.mk_fq (FpDrvQcom.set_fasync [3] (FpDrvQcom.set_support 1 FpDrvQcom.wake_initial))
    FpDrvQcom.tlog_initial FpDrvQcom.registry_initial FpDrvQcom.devices_initial.
Definition chipone_bound : rt kcall Chipone.cstate :=
  mk_rt [] (Chipone.mk_cstate listening true (Some Chipone.fresh_data) 0 0 [5] []).
Definition elan_bound : rt kcall Elan.estate :=
  mk_rt [] (Elan.set_fasync_queue [5] (Elan.elan_initial listening)).
Definition vendor_listener (v : Z) : FpListener.listener := FpListener.set_fp_vendor v FpListener.listener_initial.
Definition silead_bound : rt kcall Silead.sstate :=
  mk_rt [] (Silead.set_fasync_queue [6] (Silead.set_private_data [6; 5] (Silead.set_fp_spidev (Some Silead.fresh_spidev) (Silead.silead_initial listening)))).
Lemma fingers_reported_witness :
  (∃ s' l', @finger_run _ _ (chipone_sensor Chipone.sample_world Chipone.sample_clock) [1; 0; 7] chipone_bound
     (vendor_listener 4) = Some ([1; 2; 2], s', l')) ∧
  (∃ s' l', @finger_run _ _ (elan_sensor Elan.elan_world Elan.elan_clock) [0; 1] elan_bound
     (vendor_listener 3) = Some ([2; 1], s', l')) ∧
  (∃ s' l', @finger_run _ _ (silead_sensor Silead.silead_phone Silead.silead_world Silead.silead_clock (λ g, 0 <=? g) 5 6) [1; 0; 1] silead_bound
     (vendor_listener 1) = Some ([1; 2; 1], s', l')).
Proof.
  split; [|split].
  - destruct (proj1 (@fingers_reported Silead.silead_phone Chipone.sample_world Chipone.sample_clock (λ g, 0 <=? g) [1; 0; 7] (vendor_listener 4)) chipone_bound)
      as (s' & l' & Hr & _); [by eexists|done|by split|done|done|by repeat (constructor; [lia|])|].
    exists s', l'. exact Hr.
  - destruct (proj1 (proj2 (@fingers_reported Silead.silead_phone Elan.elan_world Elan.elan_clock (λ g, 0 <=? g) [0; 1] (vendor_listener 3))) elan_bound)
      as (s' & l' & Hr & _); [done|by split|done|by repeat (constructor; [lia|])|].
    exists s', l'. exact Hr.
  - destruct (proj2 (proj2 (@fingers_reported Silead.silead_phone Silead.silead_world Silead.silead_clock (λ g, 0 <=? g) [1; 0; 1] (vendor_listener 1)))
      silead_bound 5 6) as (s' & l' & Hr & _); [right; left|left|done|by split|done|done|by repeat (constructor; [lia|])|].
    exists s', l'. exact Hr.
Defined.

(** The finger of a Goodix sensor.  While the sensor is on, every sequence of
    keys that the HAL sends reaches the service in order: each wakes the polling
    thread once, which lets the service fetch 1 for a press, 2 for a release and 0
    for any other value.  While it is off, every command but the ones that switch
    it fails and leaves the driver as it was. *)
Theorem goodix_finger_path `{W : World kcall} s :
  (Goodix.device_available (Goodix.gf (st s)) = 1 → ∀ kvs l,
     goodix_session l → Forall (λ kv, -2147483648 ≤ kv.2 < 2147483648) kvs →
     ∃ s' l', key_run kvs s l = Some (heard <$> kvs, s', l')) ∧
  (Goodix.device_available (Goodix.gf (st s)) = 0 → ∀ cmd,
     cmd ≠ Goodix.GF_IOC_POWER_ON → cmd ≠ Goodix.GF_IOC_POWER_OFF →
     ∃ z s', Goodix.gf_ioctl cmd s = Val (z, s') ∧ z < 0 ∧ st s' = st s).
Proof.
  split; [intros Ha kvs l; by apply key_run_ok|]. intros Ha cmd Hon Hoff.
  pose proof (refused_ok cmd s Ha Hon Hoff) as Hw. apply ewp_total in Hw as (z & s' & Hs' & Hz & Hst). eauto.
Qed.

Definition goodix_on : rt kcall Goodix.gstate :=
  mk_rt [] (Goodix.set_gf (Goodix.set_device_available 1 Goodix.gf_zero) (Goodix.goodix_initial listening)).
Definition goodix_off : rt kcall Goodix.gstate := mk_rt [] (Goodix.goodix_initial listening).
Lemma goodix_finger_path_witness :
  (∃ s' l', @key_run Goodix.goodix_world [(28, 1); (28, 0); (28, 5)] goodix_on (vendor_listener 2) =
     Some ([Some (0, Some 1); Some (0, Some 2); Some (0, Some 0)], s', l')) ∧
  (∃ z s', @Goodix.gf_ioctl Goodix.goodix_world Goodix.GF_IOC_SENDKEY goodix_off = Val (z, s') ∧ z < 0).
Proof.
  split.
  - apply (proj1 (@goodix_finger_path Goodix.goodix_world goodix_on) eq_refl [(28, 1); (28, 0); (28, 5)]);
      [by split|by repeat (constructor; [cbn; lia|])].
  - destruct (proj2 (@goodix_finger_path Goodix.goodix_world goodix_off) eq_refl Goodix.GF_IOC_SENDKEY)
      as (z & s' & Hs' & Hz & _); [done|done|]. exists z, s'. split; [exact Hs'|exact Hz].
Defined.
End SensorPath.
